(* ===== verification/_CoqProject ===== *)
-Q . S2P
Prelude.v
PyVal.v
PyText.v
PyFloat.v
Json.v
Model.v
Shlex.v
Classifier.v
Protocol.v
Wire.v
WireErrors.v
WireResponse.v
Engine.v
EngineProofs.v
Codec.v
Resume.v
ResumeProofs.v
Recovery.v
Store.v
StateCodec.v
StoreProofs.v
StoreFaults.v
StoreCheckpoints.v
Checkpoint.v
CheckpointProofs.v
RecoveryProofs.v
Processes.v
ProcessesProofs.v
Adapters.v
AdaptersProofs.v
Bridge.v
BridgeProofs.v
Sessions.v
SessionsProofs.v
Server.v
ServerProofs.v
ServiceProofs.v
Effect.v
Client.v
ClientProofs.v
Base64.v
Contract.v
ContractProofs.v
Files.v
LifecycleFs.v
Integrations.v
Probe.v
Lifecycle.v
IntegrationsProofs.v
FilesProofs.v
FileViews.v
Samples.v
LifecycleFsProofs.v
TreeProofs.v
LifecycleProofs.v
Console.v
Installer.v
InstallerProofs.v
Planner.v
PlannerProofs.v
Delegate.v
DelegateProofs.v
Startup.v
StartupProofs.v
Cleanup.v
CleanupProofs.v
Chooser.v
ChooserProofs.v
Backends.v
Machine.v
Cli.v
CliProofs.v
Doctor.v
DoctorProofs.v
Login.v
LoginProofs.v
Commands.v
LifecycleFindings.v
CliFindings.v
Findings.v
