(* ===== verification/Prelude.v ===== *)
(** * Termrecall: a verification library

    Termrecall records what the shells of a desktop session are doing and offers
    to restore them after a crash or a reboot.  Shells talk to a user service
    over a Unix socket; the service keeps a snapshot, writes it to a state
    directory in the background, and turns the snapshot of a dead session into a
    workspace the user restores item by item, from a command line or from a chooser
    at login.  An installer puts the program and its shell hook into a user's home
    and takes them out again.  The file names below are those of
    [src/src/termrecall/], but for [src/cleanup_private_tree.py].

    ** The parts and where they are modelled

    - [Prelude], [PyVal], [PyText], [PyFloat], [Json], [Codec], [Shlex], [Base64]: what
      the program uses of Python.  Results are values or exceptions ([result], with
      the notation [let?]); text is a list of code points and bytes a list of
      numbers; a decoded JSON value is a [pyval], a [dict] an association list in
      insertion order; floats are binary64 as dyadic rationals, with the shortest
      text that reads back.  [json], [shlex.split], [hashlib.sha256], base64, UTF-8
      and [repr] of a float are written out.
    - [Effect]: computations that change a state and may raise ([eff], with the
      notations [do!] and [;;]), with rules of a program logic for them ([triple],
      [keeps]).  [Console]: a terminal with lines to come and what was printed.

    The service and what it keeps:

    - [Model]: [model.py], the persisted records.  [x_post_init] is
      [__post_init__], [new_X] the constructor with its validation, [x_to_dict]
      and [x_from_dict] the codecs.
    - [Classifier]: [classifier.py], whether a command line may be replayed.
    - [Protocol]: [protocol.py], requests and responses down to bytes.  [Wire],
      [WireErrors] and [WireResponse] prove what it accepts and sends.
    - [Engine], [EngineProofs]: [state.py], registrations and events as pure
      functions of the state.
    - [Store]: [store.py] once it is open, the state directory as a map from names to
      files.  Every system call takes its outcome from a list of faults; [s_history]
      is a ghost that keeps every state the disk has had, so that a stop of the
      machine is a choice of one of them.  [StateCodec], [StoreProofs],
      [StoreCheckpoints] and [StoreFaults] hold its theorems.
    - [Checkpoint], [CheckpointProofs]: [checkpoint.py], when snapshots are
      written.  The coroutines are cut at their suspension points, so a run is a
      list of events.
    - [Resume], [ResumeProofs]: [adapters/resume.py], how tools are reconnected
      to their sessions.
    - [Recovery], [RecoveryProofs]: [recovery.py] and [adapters/base.py], what is
      recoverable, and the launch plan of a restore.  The file system, the
      executables and the session stores are the record [World]; a terminal is
      the record [TerminalAdapter], and what the service relies on of one is the
      class [AdapterLaws].
    - [Adapters], [AdaptersProofs]: the terminals of [adapters/], which implement
      that interface, and the registry.
    - [Sessions], [SessionsProofs]: [sessions.py], which sessions of agent tools ran
      in a directory; the home directory is a tree of files.
    - [Processes], [ProcessesProofs]: [processes.py] and [paths.py], whether the
      process of an identity still runs.
    - [Bridge], [BridgeProofs]: [bridge.py], the process beside a shell that turns
      its frames into requests; the network is any state with four operations
      ([Network]).  [Client], [ClientProofs]: [client.py], one request over a network.
    - [Server], [ServerProofs], [ServiceProofs]: [server.py], which composes the
      above.  A handler is a computation on the engine, the checkpoint manager,
      the store and the help cache; [service_step] interleaves requests, the
      restores in flight and the checkpoint loop where the code releases its lock.

    The file system and what works on it:

    - [Files], [FilesProofs], [FileViews], [Samples]: inodes, directories and system
      calls, with a script ([kernel]) that may refuse a call, transfer fewer bytes or
      let another process act before it; the invariant [fs_ok], what a path shows
      ([see]), and a sample home.
    - [LifecycleFs], [LifecycleFsProofs], [TreeProofs]: [lifecycle_fs.py], atomic
      writes, locks, quarantines and deletions.
    - [Contract], [ContractProofs]: [installer_contract.py], requests, paths and the
      manifest of an installation.
    - [Probe], [Planner], [PlannerProofs]: [installer_probe.py], a plan's validation,
      rendering and digest, and how it is made from what is found.  [Delegate],
      [DelegateProofs]: how it is handed to the child that installs.
    - [Integrations], [IntegrationsProofs]: [lifecycle_integrations.py], what is put
      into [.bashrc] and beside it.
    - [Lifecycle], [LifecycleProofs]: [lifecycle.py], the transactions that install,
      reconfigure and uninstall, with their rollbacks.
    - [Installer], [InstallerProofs]: [installer.py], the commands of the installer.
    - [Startup], [StartupProofs]: the opening of the runtime directory, the socket and
      the locks ([server.py], [cli.py]) and of the state directory ([store.py]).
    - [Cleanup], [CleanupProofs]: [cleanup_private_tree.py], the helper that removes
      a build tree before the package is installed.

    The command line:

    - [Machine]: what a command works on: the file system, the connection and the
      caches of the process.
    - [Backends]: [backends.py], the sessions that a restore can offer.
    - [Chooser], [ChooserProofs]: the setting of the login chooser ([cli.py]).
    - [Cli], [CliProofs]: the commands of [cli.py] that talk to the service, with their
      dialogues.  [Doctor], [DoctorProofs]: [doctor.py].
    - [Login], [LoginProofs]: the login coordinator of [cli.py], what it does with what
      its coroutines turn out.  [Commands]: the dispatch of [run].
    - [Findings], [LifecycleFindings], [CliFindings]: concrete inputs on which the
      program does not do what its comments or its other parts suggest.

    ** What the theorems show

    - The service: whatever is asked and whatever fails, the stored recovery
      record follows an abstract protocol (opened by a listing, advanced by
      commits on open items, ended by completion or an explicit discard), at
      most one restore is in flight, and completed items are not launched again;
      every answer fits and decodes; each event gets the answer its first
      defect calls for.  Its start only adds to the file system, and what it opens
      is private to the user.
    - The engine: a state invariant; the exact condition and effect of an
      event; no event is accepted twice, none without the authority of the last
      registration, none after an exit.
    - The classifier: which commands are replayable, that their shell
      metacharacters are quoted, that secrets are redacted, that classification
      is total and stable under reclassification.
    - The wire: round trips of requests and responses, that what is decoded is
      valid, that decoding fails only with [ValueError]; client and server composed.
    - The store: files are replaced atomically under any failure; round trips of
      records and checkpoints; commits persist exactly the updated record; a
      finished workspace does not come back; its directory is private.
    - Checkpoints: what is durable was written; a change is due within the
      deadline; failures are retried.
    - Recovery: what a workspace offers, that reconciliation returns, that an
      attempt runs only approved commands and accounts for each item once, where
      a shell restarts; resume arguments are literal.
    - The edges: what the plan of each terminal accounts for, that a kitty session
      runs exactly the approved words; that a process is declared alive or dead
      only on proof; that the bridge processes exactly the frames of its input;
      which sessions a directory has.
    - The lifecycle: atomic writes; deletions stay inside their tree; a setup that says
      it was rolled back has put back what it changed; round trips of the manifest and
      of the shell integration; the planner reads only,
      and the bootstrap of the delegate accepts what the launcher hands to it.
    - The commands: nothing is restored or discarded without the user's consent; only a
      dead socket is removed; diagnostics read only; the login coordinator winds up.

    ** Bounds and conventions

    [rec_limit] is the nesting depth at which the interpreter's JSON decoder
    raises [RecursionError]; theorems assume at least 16, which every file and
    message of the program stays below.  [depth] is how deep directories may be
    nested before the walkers raise it.  Recursion that is not structural runs on
    fuel computed from its input (the length of the text or the path), and the
    theorems say that the result is reached.  Letter case and word characters
    outside ASCII come from tables of the Unicode database: they are the class
    [Unicode], whose instance [ascii_unicode] serves the examples.  Times of the
    checkpoint manager are integers in one unit.  Integers are Python's, without
    width.

    Theorems about the file system hold in [calm] worlds: any system call may fail
    ([fault_of]: not as if something were missing) and transfers may be short, but no
    other process interferes.  Closing a descriptor has no effect and does not fail; a
    directory has size 0; no component of a path that is opened step by step is [..];
    waiting for a lock is one call, and a lock that is held is a call that fails with
    [EWOULDBLOCK].  Error numbers that are handled alike share a constructor, and an
    [OSError] made with a message alone is [EINVAL].

    ** Not modelled

    What [argparse] does, standard error, signals and asyncio itself; cancellation of
    the login coordinator; the production wiring of the server but for the boundary of
    its store.  The run of the source probe in a child process, the child that installs, [os.access], [shutil.which], the clock with
    [datetime], the terminals' runs and what [--help] prints are parameters.  The store
    once it is open has a directory of its own, apart from [Files].  Diagnostics of the
    store keep which operation failed, not the text of the exception.  The order of two
    handlers that wait for the same lock is any order.

    This file holds the shared notation, tactics and lemmas. *)
From Stdlib Require Export ZArith Lia ZifyBool Ascii Sorting.Sorted.
From stdpp Require Export prelude strings gmap list fin_maps.
From Stdlib Require Export ssreflect.

#[global] Open Scope general_if_scope.
#[global] Open Scope Z_scope.
#[global] Open Scope list_scope.
#[global] Set Warnings "-notation-incompatible-prefix".

(** ** Python strings

    A Python [str] is a sequence of code points; [len] counts code points, not
    bytes.  [u] reads an ASCII literal. *)
Abbreviation pystr := (list Z).
Abbreviation pybytes := (list Z).

Definition u (s : string) : pystr :=
  List.map (fun a => Z.of_N (N_of_ascii a)) (String.list_ascii_of_string s).

Arguments u s : simpl never.

Definition len {A} (l : list A) : Z := Z.of_nat (length l).

(** [str_in k l] is Python's [k in l] for a collection of strings. *)
Definition str_eqb (a b : pystr) : bool := bool_decide (a = b).
Definition str_in (k : pystr) (l : list pystr) : bool := existsb (str_eqb k) l.

Fixpoint is_prefix (p s : pystr) : bool :=
  match p, s with
  | [], _ => true
  | a :: p', b :: s' => Z.eqb a b && is_prefix p' s'
  | _ :: _, [] => false
  end.

(** [needle in haystack] for strings. *)
Fixpoint contains (needle haystack : pystr) : bool :=
  is_prefix needle haystack ||
  match haystack with
  | [] => false
  | _ :: rest => contains needle rest
  end.

Definition ends_with (suffix s : pystr) : bool := is_prefix (rev suffix) (rev s).

(** [c in s] for a one-character string. *)
Definition char_in (c : Z) (s : pystr) : bool := existsb (Z.eqb c) s.

(** Lexicographic comparison by code point, as [str.__lt__]. *)
Fixpoint str_leb (a b : pystr) : bool :=
  match a, b with
  | [], _ => true
  | _ :: _, [] => false
  | x :: a', y :: b' => if x <? y then true else if y <? x then false else str_leb a' b'
  end.

Fixpoint insert_by {A} (leb : A -> A -> bool) (x : A) (l : list A) : list A :=
  match l with
  | [] => [x]
  | y :: l' => if leb x y then x :: y :: l' else y :: insert_by leb x l'
  end.

(** Python's [sorted] is stable: inserting from the right, before the first
    element that is not smaller, keeps the order of equal keys. *)
Definition sort_by {A} (leb : A -> A -> bool) (l : list A) : list A :=
  foldr (insert_by leb) [] l.

Definition sorted_strs (l : list pystr) : list pystr := sort_by str_leb l.

Fixpoint join (sep : pystr) (l : list pystr) : pystr :=
  match l with
  | [] => []
  | [x] => x
  | x :: l' => x ++ sep ++ join sep l'
  end.

(** ** Decimal text: [str(n)] for an [int]. *)
Fixpoint digits_fuel (fuel : nat) (n : Z) (acc : pystr) : pystr :=
  match fuel with
  | O => acc
  | S fuel' =>
      let acc' := (48 + n mod 10) :: acc in
      if n <? 10 then acc' else digits_fuel fuel' (n / 10) acc'
  end.

(** [Z.log2 n + 1] binary digits bound the number of decimal digits. *)
Definition digits (n : Z) : pystr := digits_fuel (S (Z.to_nat (Z.log2 n))) n [].
Definition str_of_int (n : Z) : pystr := if n <? 0 then 45 :: digits (- n) else digits n.

(** ** Exceptions

    The exception classes the modelled code raises or catches.  A constructor
    carries the message where some caller inspects it. *)
Inductive oserror :=
| ENOENT | EEXIST | EACCES | ELOOP | ENOTDIR | EISDIR | EIO | ENOTEMPTY | EXDEV | ENOSPC | EINVAL
| ETIMEDOUT | ECONNREFUSED | EWOULDBLOCK.

Inductive exn :=
| ValueError (msg : pystr)
| UnsupportedSchemaVersion (msg : pystr)   (* store.py: a ValueError *)
| JSONDecodeError                          (* json: a ValueError *)
| UnicodeError                             (* builtin: a ValueError *)
| ResponseEncodingError (msg : pystr)      (* protocol.py: a ValueError *)
| PolicyRejection                          (* classifier.py: a ValueError *)
| TypeError (msg : pystr)
| KeyError
| AttributeError
| OverflowError
| RecursionError
| AssertionError
| SubprocessError                          (* subprocess: TimeoutExpired *)
| EOFError
| OSError (e : oserror)
| RuntimeError (msg : pystr)
| UnsafeStatePath (msg : pystr)            (* store.py: a RuntimeError *)
| UnsafeLifecyclePath                      (* lifecycle_fs.py *)
| ConcurrentLifecycleChange                (* lifecycle_fs.py *)
| CleanupFailure                           (* lifecycle_fs.py *)
| LifecycleError (exit_code : Z)           (* lifecycle.py *)
| InjectedFailure                          (* lifecycle.py *)
| ServiceUnavailable (msg : pystr)         (* client.py: a RuntimeError *)
| KeyboardInterrupt.

(** [isinstance(exc, ValueError)] *)
Definition is_value_error (e : exn) : bool :=
  match e with
  | ValueError _ | UnsupportedSchemaVersion _ | JSONDecodeError | UnicodeError
  | ResponseEncodingError _ | PolicyRejection => true
  | _ => false
  end.

Definition is_os_error (e : exn) : bool := match e with OSError _ => true | _ => false end.

#[export] Instance oserror_eq_dec : EqDecision oserror.
Proof. solve_decision. Defined.
#[export] Instance exn_eq_dec : EqDecision exn.
Proof. solve_decision. Defined.

(** ** The error monad *)
Inductive result (A : Type) :=
| Ok (a : A)
| Err (e : exn).
Arguments Ok {A} a.
Arguments Err {A} e.

Definition rbind {A B} (m : result A) (f : A -> result B) : result B :=
  match m with Ok a => f a | Err e => Err e end.

Declare Scope py_scope.
Delimit Scope py_scope with py.
#[global] Open Scope py_scope.

Notation "'let?' x := m 'in' k" := (rbind m (fun x => k))
  (at level 10, x name, m at level 100, k at level 200) : py_scope.
Notation "'let?' ' p := m 'in' k" := (rbind m (fun y => match y with p => k end))
  (at level 10, p pattern, m at level 100, k at level 200) : py_scope.
Notation "m ;? k" := (rbind m (fun _ => k))
  (at level 199, k at level 200, right associativity) : py_scope.

(** [if b: raise e] *)
Definition raise_if (b : bool) (e : exn) : result unit := if b then Err e else Ok tt.

Fixpoint rmap {A B} (f : A -> result B) (l : list A) : result (list B) :=
  match l with
  | [] => Ok []
  | x :: l' => let? y := f x in let? ys := rmap f l' in Ok (y :: ys)
  end.

(** [for x in l: f(x)], stopping at the first exception. *)
Fixpoint rforeach {A} (f : A -> result unit) (l : list A) : result unit :=
  match l with
  | [] => Ok tt
  | x :: l' => f x ;? rforeach f l'
  end.

Definition is_ok {A} (r : result A) : bool := match r with Ok _ => true | Err _ => false end.

Definition result_of_option {A} (o : option A) (e : exn) : result A :=
  match o with Some a => Ok a | None => Err e end.

(** [len(set(l)) == len(l)] *)
Fixpoint nodupb (l : list pystr) : bool :=
  match l with
  | [] => true
  | x :: l' => negb (str_in x l') && nodupb l'
  end.

(** [set(a) <= set(b)] *)
Definition subsetb (a b : list pystr) : bool := forallb (fun x => str_in x b) a.

(** [set(a) == set(b)] *)
Definition set_eqb (a b : list pystr) : bool := subsetb a b && subsetb b a.

(** ** Lemmas *)
Lemma rbind_Ok {A B} (m : result A) (f : A -> result B) b :
  rbind m f = Ok b <-> exists a, m = Ok a /\ f a = Ok b.
Proof. destruct m as [a|e]; simpl; split; naive_solver. Qed.

Lemma rbind_Err {A B} (m : result A) (f : A -> result B) e :
  rbind m f = Err e <-> m = Err e \/ exists a, m = Ok a /\ f a = Err e.
Proof. destruct m; simpl; naive_solver. Qed.

Lemma Ok_inj {A} (a b : A) : Ok a = Ok b -> b = a.
Proof. by intros [= ->]. Qed.

Lemma raise_if_Ok b e v : raise_if b e = Ok v <-> b = false.
Proof. destruct b, v; simpl; naive_solver. Qed.

Lemma raise_if_Err b e e' : raise_if b e = Err e' <-> b = true /\ e' = e.
Proof. destruct b; simpl; naive_solver. Qed.

Lemma str_eqb_eq a b : str_eqb a b = true <-> a = b.
Proof. apply bool_decide_eq_true. Qed.

Lemma str_eqb_refl a : str_eqb a a = true.
Proof. by apply str_eqb_eq. Qed.

Lemma str_eqb_neq a b : str_eqb a b = false <-> a <> b.
Proof. apply bool_decide_eq_false. Qed.

Lemma str_in_spec k l : str_in k l = true <-> k ∈ l.
Proof.
  unfold str_in. rewrite existsb_exists. setoid_rewrite list_elem_of_In.
  setoid_rewrite str_eqb_eq. naive_solver.
Qed.

Lemma str_in_false k l : str_in k l = false <-> k ∉ l.
Proof. rewrite <- str_in_spec. destruct (str_in k l); naive_solver. Qed.

Lemma nodupb_spec l : nodupb l = true <-> NoDup l.
Proof.
  induction l as [|x l IH]; simpl.
  - split; [constructor|done].
  - rewrite andb_true_iff negb_true_iff str_in_false IH NoDup_cons. done.
Qed.

Lemma subsetb_spec a b : subsetb a b = true <-> forall x, x ∈ a -> x ∈ b.
Proof.
  unfold subsetb. rewrite forallb_forall.
  setoid_rewrite <- list_elem_of_In. by setoid_rewrite str_in_spec.
Qed.

Lemma set_eqb_spec a b : set_eqb a b = true <-> forall x, x ∈ a <-> x ∈ b.
Proof. unfold set_eqb. rewrite andb_true_iff !subsetb_spec. naive_solver. Qed.

Lemma rmap_Ok {A B} (f : A -> result B) l r :
  rmap f l = Ok r <-> Forall2 (fun x y => f x = Ok y) l r.
Proof.
  revert r. induction l as [|x l IH]; intros r; simpl.
  - split; [intros [= <-]; constructor | by inversion 1].
  - rewrite rbind_Ok. setoid_rewrite rbind_Ok. setoid_rewrite IH. split.
    + intros (y & Hy & ys & Hys & [= <-]). by constructor.
    + inversion 1; subst. naive_solver.
Qed.

Lemma rmap_app {A B} (f : A -> result B) l1 l2 :
  rmap f (l1 ++ l2) = (let? a := rmap f l1 in let? b := rmap f l2 in Ok (a ++ b)).
Proof.
  induction l1 as [|x l IH]; simpl.
  - by destruct (rmap f l2).
  - destruct (f x); simpl; [|done]. rewrite IH.
    destruct (rmap f l); simpl; [|done]. by destruct (rmap f l2).
Qed.

Lemma rmap_map_Ok {A B} (g : A -> B) (f : B -> result A) l :
  Forall (fun x => f (g x) = Ok x) l -> rmap f (map g l) = Ok l.
Proof. intros H. apply rmap_Ok. induction H; simpl; by constructor. Qed.

Lemma rmap_length {A B} (f : A -> result B) l r : rmap f l = Ok r -> length r = length l.
Proof. rewrite rmap_Ok. intros H. by apply Forall2_length in H. Qed.

Lemma rforeach_Ok {A} (f : A -> result unit) l v :
  rforeach f l = Ok v <-> Forall (fun x => f x = Ok tt) l.
Proof.
  destruct v. induction l as [|x l IH]; simpl.
  - split; [constructor|done].
  - rewrite rbind_Ok Forall_cons -IH. split.
    + intros ([] & ? & ?). done.
    + intros [? ?]. by exists tt.
Qed.

Lemma is_prefix_app p s : is_prefix p (p ++ s) = true.
Proof. induction p; simpl; [done|]. by rewrite Z.eqb_refl. Qed.

Lemma is_prefix_spec p s : is_prefix p s = true <-> exists t, s = p ++ t.
Proof.
  revert s. induction p as [|a p IH]; intros s; simpl.
  - naive_solver.
  - destruct s as [|b s]; simpl; [split; [done|naive_solver]|].
    rewrite andb_true_iff Z.eqb_eq IH. naive_solver.
Qed.

Lemma contains_spec p s : contains p s = true <-> exists a b, s = a ++ p ++ b.
Proof.
  induction s as [|c s IH]; simpl; rewrite orb_true_iff is_prefix_spec.
  - split.
    + intros [[t Ht]|]; [|done]. by exists [], t.
    + intros (a & b & H). left. destruct a; [by exists b|done].
  - rewrite IH. split.
    + intros [[t Ht]|(a & b & ->)]; [by exists [], t|by exists (c :: a), b].
    + intros ([|a0 a] & b & H); simplify_eq/=; [left; naive_solver|right; naive_solver].
Qed.

Lemma ltb_false a b : b <= a -> (a <? b) = false.
Proof. apply Z.ltb_ge. Qed.

Lemma result_of_option_Ok {A} (o : option A) e a : result_of_option o e = Ok a <-> o = Some a.
Proof. destruct o; simpl; naive_solver. Qed.

Lemma len_nonneg {A} (l : list A) : 0 <= len l.
Proof. unfold len; lia. Qed.

Lemma len_app {A} (a b : list A) : len (a ++ b) = len a + len b.
Proof. unfold len. rewrite length_app. lia. Qed.

Lemma len_cons {A} (x : A) l : len (x :: l) = 1 + len l.
Proof. unfold len. simpl length. lia. Qed.

Lemma len_map {A B} (f : A -> B) l : len (map f l) = len l.
Proof. unfold len. by rewrite length_map. Qed.

Lemma insert_by_perm {A} (leb : A -> A -> bool) x l : insert_by leb x l ≡ₚ x :: l.
Proof.
  induction l as [|y l IH]; simpl; [done|].
  destruct (leb x y); [done|]. rewrite IH. by constructor.
Qed.

Lemma sort_by_perm {A} (leb : A -> A -> bool) (l : list A) : sort_by leb l ≡ₚ l.
Proof. induction l as [|x l IH]; simpl; [done|]. by rewrite insert_by_perm IH. Qed.

Lemma str_leb_total a b : str_leb a b = true \/ str_leb b a = true.
Proof.
  revert b. induction a as [|x a IH]; intros [|y b]; simpl; auto.
  destruct (Z.ltb_spec x y), (Z.ltb_spec y x); auto.
Qed.

Lemma str_leb_trans a b c : str_leb a b = true -> str_leb b c = true -> str_leb a c = true.
Proof.
  revert b c. induction a as [|x a IH]; intros [|y b] [|z c]; simpl; try done.
  destruct (Z.ltb_spec x y), (Z.ltb_spec y x), (Z.ltb_spec y z), (Z.ltb_spec z y), (Z.ltb_spec x z), (Z.ltb_spec z x);
    try done; try lia. apply IH.
Qed.

(** Sorting by a total preorder. *)
Section SortBy.
Context {A : Type} (leb : A -> A -> bool).
Notation le := (fun a b => leb a b = true).

Lemma insert_by_sorted x l : (forall a b, leb a b = true \/ leb b a = true) ->
  (forall a b c, leb a b = true -> leb b c = true -> leb a c = true) ->
  StronglySorted le l -> StronglySorted le (insert_by leb x l).
Proof.
  intros Htotal Htrans. induction l as [|y l IH]; intros Hl; [by repeat constructor|]. cbn [insert_by].
  inversion Hl as [|? ? Hl' Hy]; subst. destruct (leb x y) eqn:E.
  - constructor; [done|]. constructor; [done|]. eapply Forall_impl; [exact Hy|]. intros z Hz. exact (Htrans _ _ _ E Hz).
  - constructor; [by apply IH|]. rewrite insert_by_perm. constructor; [|done]. destruct (Htotal x y); [congruence|done].
Qed.

Lemma sort_by_sorted l : (forall a b, leb a b = true \/ leb b a = true) ->
  (forall a b c, leb a b = true -> leb b c = true -> leb a c = true) -> StronglySorted le (sort_by leb l).
Proof. intros Htotal Htrans. induction l as [|x l IH]; [constructor|]. by apply insert_by_sorted. Qed.

Lemma sort_by_id l : StronglySorted le l -> sort_by leb l = l.
Proof.
  induction 1 as [|x l Hl IH Hx]; [done|]. change (sort_by leb (x :: l)) with (insert_by leb x (sort_by leb l)).
  rewrite IH. destruct l as [|y l]; [done|]. cbn [insert_by]. apply Forall_cons in Hx as [Hx _]. by rewrite Hx.
Qed.

End SortBy.

Lemma sorted_strs_perm l : sorted_strs l ≡ₚ l.
Proof. apply sort_by_perm. Qed.

(** ** Automation *)

(** [r_inv] takes a successful run of monadic code apart: every bind, guard and
    return among the hypotheses becomes the fact it proves. *)
Ltac r_inv :=
  repeat match goal with
  | H : rbind _ _ = Ok _ |- _ => apply rbind_Ok in H; destruct H as (? & ? & ?)
  | H : raise_if _ _ = Ok _ |- _ => apply raise_if_Ok in H
  | H : Ok _ = Ok _ |- _ => injection H as H; subst
  | H : Err _ = Ok _ |- _ => discriminate H
  | H : Ok _ = Err _ |- _ => discriminate H
  | H : result_of_option ?o _ = Ok _ |- _ =>
      destruct o eqn:?; simpl in H; [|discriminate H]
  | H : negb _ = true |- _ => apply negb_true_iff in H
  | H : negb _ = false |- _ => apply negb_false_iff in H
  | H : andb _ _ = true |- _ => apply andb_true_iff in H; destruct H
  | H : orb _ _ = false |- _ => apply orb_false_iff in H; destruct H
  | x : unit |- _ => destruct x
  end.

(** [r_step] rewrites the guards that are known to pass. *)
Ltac r_step :=
  repeat match goal with
  | H : ?b = false |- context [raise_if ?b _] => rewrite H; cbn [raise_if rbind]
  | |- context [rbind (Ok _) _] => cbn [rbind]
  end.

Create HintDb pydb.
#[export] Hint Rewrite @rbind_Ok raise_if_Ok str_eqb_eq str_eqb_neq str_in_spec str_in_false
  nodupb_spec subsetb_spec set_eqb_spec : pydb.
#[export] Hint Resolve len_nonneg : pydb.
