(* ===== verification/PyVal.v ===== *)
(** * Python values

    The dynamically typed values the decoders of the program inspect: what
    [json.loads] returns.  Integers are unbounded, [bool] is told apart from
    [int] (the code tests for it), a [dict] is an association list in insertion
    order whose keys are strings.  A [float] is a dyadic rational, an infinity
    or a NaN. *)
From S2P Require Import Prelude.

(** ** Floats *)

(** [FFin neg m e] is [(-1)^neg * m * 2^e]; in normal form [m] is odd or zero. *)
Inductive pyfloat :=
| FFin (neg : bool) (m e : Z)
| FInf (neg : bool)
| FNan.

(** An [int | float] value, as accepted for time stamps. *)
Inductive pynum :=
| NInt (z : Z)
| NFloat (f : pyfloat).

Fixpoint strip_zeros (p : positive) (e : Z) : positive * Z :=
  match p with xO p' => strip_zeros p' (e + 1) | _ => (p, e) end.

Definition mk_fin (neg : bool) (m e : Z) : pyfloat :=
  match m with
  | Zpos p => let '(q, e') := strip_zeros p e in FFin neg (Zpos q) e'
  | _ => FFin neg 0 0
  end.

(** An [int] whose nearest double would be infinite: [float(n)] and
    [math.isfinite(n)] raise [OverflowError]. *)
Definition int_overflows (n : Z) : bool := 2 ^ 1024 - 2 ^ 970 <=? Z.abs n.

(** [float(n)]: round to nearest, ties to even, 53 bits. *)
Definition float_of_int (n : Z) : result pyfloat :=
  if int_overflows n then Err OverflowError
  else
    let a := Z.abs n in
    let bits := Z.log2 a + 1 in
    if bits <=? 53 then Ok (mk_fin (n <? 0) a 0)
    else
      let shift := bits - 53 in
      let q := Z.shiftr a shift in
      let r := a - Z.shiftl q shift in
      let half := Z.shiftl 1 (shift - 1) in
      let up := (half <? r) || ((half =? r) && Z.odd q) in
      Ok (mk_fin (n <? 0) (if up then q + 1 else q) shift).

(** [math.isfinite] *)
Definition isfinite (x : pynum) : result bool :=
  match x with
  | NInt z => if int_overflows z then Err OverflowError else Ok true
  | NFloat (FFin _ _ _) => Ok true
  | NFloat _ => Ok false
  end.

(** [float(x)] *)
Definition to_float (x : pynum) : result pyfloat :=
  match x with NInt z => float_of_int z | NFloat f => Ok f end.

(** ** Values *)
Inductive pyval :=
| VNone
| VBool (b : bool)
| VInt (z : Z)
| VFloat (f : pyfloat)
| VStr (s : pystr)
| VList (l : list pyval)
| VDict (kvs : list (pystr * pyval)).

Definition num_val (x : pynum) : pyval :=
  match x with NInt z => VInt z | NFloat f => VFloat f end.

(** A dict: insertion order, keys distinct. *)
Abbreviation pydict := (list (pystr * pyval)).

Definition dict_get (k : pystr) (d : pydict) : option pyval :=
  snd <$> find (fun kv => str_eqb k kv.1) d.

Definition dict_keys (d : pydict) : list pystr := map fst d.

(** [payload[k]] *)
Definition dict_index (d : pydict) (k : pystr) : result pyval :=
  result_of_option (dict_get k d) KeyError.

(** [d[k] = v]: an existing key keeps its place. *)
Fixpoint dict_set (k : pystr) (v : pyval) (d : pydict) : pydict :=
  match d with
  | [] => [(k, v)]
  | (k', v') :: d' => if str_eqb k k' then (k, v) :: d' else (k', v') :: dict_set k v d'
  end.

(** [payload.get(k)] *)
Definition dict_get_none (d : pydict) (k : pystr) : pyval := default VNone (dict_get k d).

Definition str_list_val (l : list pystr) : pyval := VList (map VStr l).

Definition opt_val {A} (f : A -> pyval) (o : option A) : pyval :=
  match o with None => VNone | Some a => f a end.

Definition is_dict (v : pyval) : bool := match v with VDict _ => true | _ => false end.

(** [set(payload) - expected], as a duplicate-free list. *)
Definition key_diff (a b : list pystr) : list pystr := filter (fun k => str_in k b = false) a.

(** Python's [==] on the values above: [True == 1 == 1.0], and the order of the
    keys of a dict does not matter. *)
Definition float_is_int (f : pyfloat) (z : Z) : bool :=
  match f with
  | FFin neg m e => (0 <=? e) && ((if neg then - m else m) * 2 ^ e =? z)
  | _ => false
  end.

Definition float_eqb (a b : pyfloat) : bool :=
  match a, b with
  | FFin n1 m1 e1, FFin n2 m2 e2 =>
      ((m1 =? 0) && (m2 =? 0)) || (Bool.eqb n1 n2 && (m1 =? m2) && (e1 =? e2))
  | FInf n1, FInf n2 => Bool.eqb n1 n2
  | _, _ => false
  end.

Definition bool_int (b : bool) : Z := if b then 1 else 0.

Fixpoint py_eqb (a b : pyval) {struct a} : bool :=
  match a, b with
  | VNone, VNone => true
  | VBool x, VBool y => Bool.eqb x y
  | VBool x, VInt y => bool_int x =? y
  | VInt x, VBool y => x =? bool_int y
  | VInt x, VInt y => x =? y
  | VBool x, VFloat y => float_is_int y (bool_int x)
  | VInt x, VFloat y => float_is_int y x
  | VFloat x, VBool y => float_is_int x (bool_int y)
  | VFloat x, VInt y => float_is_int x y
  | VFloat x, VFloat y => float_eqb x y
  | VStr x, VStr y => str_eqb x y
  | VList x, VList y =>
      (fix go (x y : list pyval) : bool :=
         match x, y with
         | [], [] => true
         | v :: x', w :: y' => py_eqb v w && go x' y'
         | _, _ => false
         end) x y
  | VDict x, VDict y =>
      Nat.eqb (length x) (length y) &&
      (fix go (x : pydict) : bool :=
         match x with
         | [] => true
         | (k, v) :: x' =>
             match dict_get k y with Some w => py_eqb v w | None => false end && go x'
         end) x
  | _, _ => false
  end.

(** ** Lemmas *)
Lemma dict_get_cons_eq k v d : dict_get k ((k, v) :: d) = Some v.
Proof. unfold dict_get. simpl. by rewrite str_eqb_refl. Qed.

Lemma dict_get_cons_ne k k' v d : k <> k' -> dict_get k ((k', v) :: d) = dict_get k d.
Proof. intros H. unfold dict_get. simpl. by apply str_eqb_neq in H as ->. Qed.

Lemma dict_get_None k d : dict_get k d = None <-> k ∉ dict_keys d.
Proof.
  induction d as [|[k' v] d IH].
  - split; [intros _; apply not_elem_of_nil|done].
  - destruct (decide (k = k')) as [->|Hne].
    + rewrite dict_get_cons_eq. split; [done|]. intros []. left.
    + rewrite dict_get_cons_ne // IH. unfold dict_keys. simpl. rewrite not_elem_of_cons.
      naive_solver.
Qed.

Lemma dict_get_Some_key k d v : dict_get k d = Some v -> k ∈ dict_keys d.
Proof.
  intros H. destruct (decide (k ∈ dict_keys d)) as [|Hn]; [done|].
  apply dict_get_None in Hn. congruence.
Qed.

Lemma key_in_dict_get k d : k ∈ dict_keys d -> exists v, dict_get k d = Some v.
Proof.
  intros H. destruct (dict_get k d) eqn:E; [by eexists|].
  by apply dict_get_None in E.
Qed.

Lemma key_diff_nil a b : key_diff a b = [] <-> forall k, k ∈ a -> k ∈ b.
Proof.
  unfold key_diff. induction a as [|x a IH]; simpl.
  - split; [intros _ k Hk; by apply not_elem_of_nil in Hk|done].
  - rewrite filter_cons. destruct (decide _) as [H|H].
    + split; [done|]. intros Hk. apply str_in_false in H. destruct H. apply Hk. left.
    + rewrite IH. apply not_false_iff_true, str_in_spec in H. split.
      * intros Hk k [->|Hin]%elem_of_cons; auto.
      * intros Hk k Hin. apply Hk. by right.
Qed.

(** [eval_dict] evaluates lookups of literal keys in literal dicts. *)
Ltac eval_dict :=
  repeat match goal with
  | |- context [dict_get (u ?k) ((u ?k, ?v) :: ?d)] => rewrite (dict_get_cons_eq (u k) v d)
  | |- context [dict_get (u ?k) ((u ?k', ?v) :: ?d)] =>
      let H := fresh in
      assert (u k <> u k') as H by (vm_compute; discriminate);
      rewrite (dict_get_cons_ne (u k) (u k') v d H); clear H
  end.

(** Induction through the lists inside a value. *)
Section NestedInduction.
  Variable P : pyval -> Prop.
  Hypothesis H_none : P VNone.
  Hypothesis H_bool : forall b, P (VBool b).
  Hypothesis H_int : forall z, P (VInt z).
  Hypothesis H_float : forall f, P (VFloat f).
  Hypothesis H_str : forall s, P (VStr s).
  Hypothesis H_list : forall l, Forall P l -> P (VList l).
  Hypothesis H_dict : forall d, Forall (fun kv => P kv.2) d -> P (VDict d).

Fixpoint pyval_nested_ind (v : pyval) : P v :=
  match v with
  | VNone => H_none
  | VBool b => H_bool b
  | VInt z => H_int z
  | VFloat f => H_float f
  | VStr s => H_str s
  | VList l => H_list l ((fix go l : Forall P l :=
      match l with [] => Forall_nil_2 _ | v :: l' => Forall_cons_2 _ _ _ (pyval_nested_ind v) (go l') end) l)
  | VDict d => H_dict d ((fix go d : Forall (fun kv => P kv.2) d :=
      match d with
      | [] => Forall_nil_2 _
      | kv :: d' => Forall_cons_2 _ _ _ (pyval_nested_ind kv.2) (go d')
      end) d)
  end.
End NestedInduction.
