(* ===== verification/PyText.v ===== *)
(** * Text operations of the Python standard library

    [str] methods, POSIX paths and regular-expression search, as far as the
    program uses them.  Case mapping and the class of word characters outside
    ASCII are tables of the Unicode Character Database; they enter through the
    class [Unicode], whose laws fix what they do on ASCII. *)
From S2P Require Import Prelude.

(** ** Unicode tables *)
Class Unicode := {
  str_lower : pystr -> pystr;   (* [str.lower] *)
  uc_word : Z -> bool;          (* [\w] in a [str] pattern *)
}.

Definition ascii_lower (c : Z) : Z := if (65 <=? c) && (c <=? 90) then c + 32 else c.
Definition ascii_upper (c : Z) : Z := if (97 <=? c) && (c <=? 122) then c - 32 else c.
Definition is_ascii (c : Z) : bool := (0 <=? c) && (c <? 128).
Definition is_digit (c : Z) : bool := (48 <=? c) && (c <=? 57).
Definition is_lower (c : Z) : bool := (97 <=? c) && (c <=? 122).
Definition is_upper (c : Z) : bool := (65 <=? c) && (c <=? 90).
Definition is_alpha (c : Z) : bool := is_lower c || is_upper c.
Definition is_alnum (c : Z) : bool := is_alpha c || is_digit c.

Class UnicodeLaws `{Unicode} : Prop := {
  str_lower_ascii : forall s, forallb is_ascii s = true -> str_lower s = map ascii_lower s;
  uc_word_ascii : forall c, is_ascii c = true -> uc_word c = is_alnum c || (c =? 95);
}.

(** The tables restricted to ASCII: an instance of the laws. *)
Definition ascii_unicode : Unicode := {|
  str_lower := map ascii_lower;
  uc_word c := is_alnum c || (c =? 95);
|}.

(** [str.isspace] of one character; the same set as [\s]. *)
Definition is_space (c : Z) : bool :=
  ((9 <=? c) && (c <=? 13)) || ((28 <=? c) && (c <=? 32)) || (c =? 0x85) || (c =? 0xA0) ||
  (c =? 0x1680) || ((0x2000 <=? c) && (c <=? 0x200A)) || (c =? 0x2028) || (c =? 0x2029) ||
  (c =? 0x202F) || (c =? 0x205F) || (c =? 0x3000).

(** ** [str] methods *)
Fixpoint drop_while (p : Z -> bool) (s : pystr) : pystr :=
  match s with [] => [] | c :: s' => if p c then drop_while p s' else s end.

Definition strip (s : pystr) : pystr := rev (drop_while is_space (rev (drop_while is_space s))).

(** [s.split(c)] for a one-character separator. *)
Fixpoint split_on (c : Z) (s : pystr) : list pystr :=
  match s with
  | [] => [[]]
  | x :: s' =>
      if x =? c then [] :: split_on c s'
      else match split_on c s' with
           | w :: ws => (x :: w) :: ws
           | [] => [[x]]
           end
  end.

(** [s.split()]: fields separated by runs of white space. *)
Fixpoint fields_go (acc s : pystr) : list pystr :=
  match s with
  | [] => match acc with [] => [] | _ => [rev acc] end
  | c :: s' =>
      if is_space c then match acc with [] => fields_go [] s' | _ => rev acc :: fields_go [] s' end
      else fields_go (c :: acc) s'
  end.
Definition fields (s : pystr) : list pystr := fields_go [] s.

(** [s.rfind(c)] and [s.find(c)], as an index from the left. *)
Fixpoint find_char (c : Z) (s : pystr) : option nat :=
  match s with
  | [] => None
  | x :: s' => if x =? c then Some O else S <$> find_char c s'
  end.
Definition rfind_char (c : Z) (s : pystr) : option nat :=
  i ← find_char c (rev s); Some (length s - 1 - i)%nat.

(** [int(text)] for decimal ASCII text: surrounding white space, a sign, digits
    with single underscores between them, at most 4300 digits. *)
Fixpoint int_digits (s : pystr) (acc : Z) (prev_digit : bool) : option Z :=
  match s with
  | [] => if prev_digit then Some acc else None
  | c :: s' =>
      if is_digit c then int_digits s' (acc * 10 + (c - 48)) true
      else if (c =? 95) && prev_digit then int_digits s' acc false
      else None
  end.
Definition int_of_str (text : pystr) : option Z :=
  match strip text with
  | [] => None
  | c :: s' =>
      if 4300 <? len (filter (fun d => is_digit d = true) (c :: s')) then None
      else if c =? 45 then Z.opp <$> int_digits s' 0 false
      else if c =? 43 then int_digits s' 0 false
      else int_digits (c :: s') 0 false
  end.

(** ** POSIX paths ([PurePosixPath])

    A path is its root ("", "/" or "//") and the components that are neither
    empty nor ".". *)
Record posix_path := mkPath { path_root : pystr; path_tail : list pystr }.

#[export] Instance posix_path_eq_dec : EqDecision posix_path.
Proof. solve_decision. Defined.

(** [posixpath.splitroot]: exactly two leading slashes are kept. *)
Definition split_root (s : pystr) : pystr * pystr :=
  match s with
  | 47 :: 47 :: 47 :: _ => ([47], drop 1 s)
  | 47 :: 47 :: rest => ([47; 47], rest)
  | 47 :: rest => ([47], rest)
  | _ => ([], s)
  end.

Definition parse_path (s : pystr) : posix_path :=
  let '(root, rel) := split_root s in
  mkPath root (filter (fun x => x <> [] /\ x <> u ".") (split_on 47 rel)).

Definition path_name (p : posix_path) : pystr := default [] (last (path_tail p)).
Definition is_absolute (p : posix_path) : bool := bool_decide (path_root p <> []).
Definition path_parent (p : posix_path) : posix_path :=
  mkPath (path_root p) (removelast (path_tail p)).
(** [str(path)] *)
Definition path_str (p : posix_path) : pystr :=
  match path_root p, path_tail p with
  | [], [] => u "."
  | root, tail => root ++ join [47] tail
  end.
(** [path / name] for a relative operand. *)
Definition path_join (p : posix_path) (s : pystr) : posix_path :=
  let q := parse_path s in
  if is_absolute q then q else mkPath (path_root p) (path_tail p ++ path_tail q).

(** [os.path.normpath] *)
Definition normal_step (rooted : bool) (acc : list pystr) (w : pystr) : list pystr :=
  if bool_decide (w = []) || str_eqb w (u ".") then acc
  else if str_eqb w (u "..") then
    match last acc with
    | Some l => if str_eqb l (u "..") then acc ++ [w] else removelast acc
    | None => if rooted then acc else [w]
    end
  else acc ++ [w].

Definition normpath (s : pystr) : pystr :=
  match s with
  | [] => u "."
  | _ =>
      let '(root, rel) := split_root s in
      let words := foldl (normal_step (negb (bool_decide (root = [])))) [] (split_on 47 rel) in
      match root ++ join [47] words with [] => u "." | p => p end
  end.

(** ** Regular expressions

    The patterns of the program have no captures that matter and no possessive
    operators, so a match is a path through the expression: [ends r p] lists the
    positions where a match that starts at [p] can end.  A position is the
    character before it and the text after it. *)
Inductive re :=
| Cls (p : Z -> bool)                          (* one character *)
| Eps
| Seq (a b : re)
| Alt (a b : re)
| Star (a : re)
| Look (p : option Z -> pystr -> bool).        (* a zero-width test *)

Abbreviation repos := (option Z * pystr)%type.

Fixpoint star_ends (f : repos -> list repos) (fuel : nat) (p : repos) : list repos :=
  match fuel with
  | O => [p]
  | S fuel' =>
      p :: flat_map (fun q => if Nat.ltb (length q.2) (length p.2)
                              then star_ends f fuel' q else []) (f p)
  end.

Fixpoint ends (r : re) (p : repos) : list repos :=
  match r with
  | Cls t => match p.2 with c :: s => if t c then [(Some c, s)] else [] | [] => [] end
  | Eps => [p]
  | Seq a b => flat_map (ends b) (ends a p)
  | Alt a b => ends a p ++ ends b p
  | Star a => star_ends (ends a) (length p.2) p
  | Look t => if t p.1 p.2 then [p] else []
  end.

(** [re.search(r, s) is not None] *)
Fixpoint search_from (r : re) (prev : option Z) (s : pystr) : bool :=
  negb (match ends r (prev, s) with [] => true | _ => false end) ||
  match s with [] => false | c :: s' => search_from r (Some c) s' end.
Definition search (r : re) (s : pystr) : bool := search_from r None s.

(** [re.fullmatch(r, s) is not None] *)
Definition fullmatch (r : re) (s : pystr) : bool :=
  existsb (fun q => match q.2 with [] => true | _ => false end) (ends r (None, s)).

(** [re.match(r, s) is not None] *)
Definition prefix_match (r : re) (s : pystr) : bool :=
  negb (match ends r (None, s) with [] => true | _ => false end).

(** Pattern combinators. *)
Definition lit (c : Z) : re := Cls (Z.eqb c).
Definition word (s : pystr) : re := foldr (fun c r => Seq (lit c) r) Eps s.
Definition opt (r : re) : re := Alt r Eps.
Definition plus (r : re) : re := Seq r (Star r).
Fixpoint times (n : nat) (r : re) : re := match n with O => Eps | S n' => Seq r (times n' r) end.
Definition alts (l : list re) : re := foldr Alt (Cls (fun _ => false)) l.
Definition seqs (l : list re) : re := foldr Seq Eps l.
Definition spaces : re := Star (Cls is_space).                (* \s* *)

(** [(?i)]: an ASCII letter also matches its other case and the code points
    that case-fold to it (dotted capital I, dotless i, long s, Kelvin sign). *)
Definition ci_extra (a c : Z) : bool :=
  ((a =? 105) && ((c =? 0x130) || (c =? 0x131))) || ((a =? 115) && (c =? 0x17F)) ||
  ((a =? 107) && (c =? 0x212A)).
Definition ci_char (a c : Z) : bool :=
  let a' := ascii_lower a in (ascii_lower c =? a') || ci_extra a' c.
Definition ci_alpha (c : Z) : bool :=
  is_alpha c || (c =? 0x130) || (c =? 0x131) || (c =? 0x17F) || (c =? 0x212A).
Definition ci_word (s : pystr) : re := foldr (fun c r => Seq (Cls (ci_char c)) r) Eps s.

Definition at_end : re :=                                     (* $ *)
  Look (fun _ s => match s with [] => true | [c] => c =? 10 | _ => false end).
Definition at_start : re := Look (fun p _ => match p with None => true | Some _ => false end).
Definition word_boundary `{Unicode} : re :=                   (* \b *)
  Look (fun p s => xorb (match p with Some c => uc_word c | None => false end)
                        (match s with c :: _ => uc_word c | [] => false end)).

(** ** Lemmas *)
#[export] Instance ascii_unicode_laws : @UnicodeLaws ascii_unicode.
Proof. by split. Qed.

(** Declarative matching. *)
Inductive matches : re -> repos -> repos -> Prop :=
| m_cls (t : Z -> bool) prev c s : t c = true -> matches (Cls t) (prev, c :: s) (Some c, s)
| m_eps p : matches Eps p p
| m_seq a b p q r : matches a p q -> matches b q r -> matches (Seq a b) p r
| m_altl a b p q : matches a p q -> matches (Alt a b) p q
| m_altr a b p q : matches b p q -> matches (Alt a b) p q
| m_star0 a p : matches (Star a) p p
| m_star1 a p q r : matches a p q -> matches (Star a) q r -> matches (Star a) p r
| m_look (t : option Z -> pystr -> bool) prev s : t prev s = true -> matches (Look t) (prev, s) (prev, s).

(** A match consumes a prefix of the text; one that consumes nothing stays put. *)
Lemma matches_suffix r p q :
  matches r p q -> q = p \/ (length q.2 < length p.2)%nat.
Proof.
  induction 1; simpl in *; try (by left); try (right; lia); try naive_solver lia.
Qed.

Lemma ends_matches r p q : q ∈ ends r p <-> matches r p q.
Proof.
  revert p q. induction r as [t| |a IHa b IHb|a IHa b IHb|a IHa|t]; intros [prev s] q; simpl.
  - split.
    + destruct s as [|c s]; [by intros ?%not_elem_of_nil|].
      destruct (t c) eqn:E; [|by intros ?%not_elem_of_nil].
      intros ->%list_elem_of_singleton. by first [apply m_cls|apply m_look].
    + inversion 1 as [? ? ? ? E| | | | | | |]; subst. rewrite E. by apply list_elem_of_singleton.
  - rewrite list_elem_of_singleton. split; [intros ->; apply m_eps|by inversion 1].
  - rewrite list_elem_of_In in_flat_map. setoid_rewrite <- list_elem_of_In.
    setoid_rewrite IHa. setoid_rewrite IHb. split.
    + intros (x & ? & ?). eapply m_seq; eassumption.
    + inversion 1; subst. eauto.
  - rewrite elem_of_app IHa IHb. split.
    + intros [?|?]; [by apply m_altl|by apply m_altr].
    + inversion 1; subst; auto.
  - assert (Hgen : forall n p, (length p.2 <= n)%nat ->
              q ∈ star_ends (ends a) n p <-> matches (Star a) p q); [|by apply Hgen].
    clear prev s. induction n as [|n IHn]; intros p Hp; simpl.
    + rewrite list_elem_of_singleton. split; [intros ->; apply m_star0|].
      inversion 1 as [| | | | | |? ? m ? Hm Hs|]; subst; [done|].
      apply matches_suffix in Hm as [->|]; [|lia].
      apply matches_suffix in Hs as [->|]; [done|lia].
    + rewrite elem_of_cons list_elem_of_In in_flat_map. setoid_rewrite <- list_elem_of_In.
      setoid_rewrite IHa. split.
      * intros [->|(x & Hx & Hq)]; [apply m_star0|].
        destruct (Nat.ltb_spec (length x.2) (length p.2)); [|by apply not_elem_of_nil in Hq].
        apply IHn in Hq; [|lia]. eapply m_star1; eassumption.
      * intros Hs. remember (Star a) as r eqn:Er. revert Hp.
        induction Hs; intros; simplify_eq; [by left|].
        match goal with H : matches a _ _ |- _ => pose proof H as Hm end.
        apply matches_suffix in Hm as [->|Hlt]; [by apply IHHs2|].
        right. eexists. split; [eassumption|].
        apply Nat.ltb_lt in Hlt as Hb. rewrite Hb. apply IHn; [lia|done].
  - split.
    + destruct (t prev s) eqn:E; [|by intros ?%not_elem_of_nil].
      intros ->%list_elem_of_singleton. by first [apply m_cls|apply m_look].
    + inversion 1 as [| | | | | | |? ? ? E]; subst. rewrite E. by apply list_elem_of_singleton.
Qed.

(** [search] finds a match iff one starts somewhere in the text. *)
Lemma search_from_spec r prev s :
  search_from r prev s = true <->
  exists before after q, s = before ++ after /\
    matches r (match last before with Some c => Some c | None => prev end, after) q.
Proof.
  revert prev. induction s as [|c s IH]; intros prev; simpl; rewrite orb_true_iff.
  - split.
    + intros [H|]; [|done]. destruct (ends r (prev, [])) as [|q l] eqn:E; [done|].
      exists [], [], q. split; [done|]. apply ends_matches. rewrite E. left.
    + intros (b & a & q & Hs & Hm). symmetry in Hs. apply app_nil in Hs as [-> ->].
      left. apply ends_matches in Hm. simpl in Hm.
      by destruct (ends r (prev, [])) eqn:E; [apply not_elem_of_nil in Hm|].
  - rewrite IH. split.
    + intros [H|(b & a & q & -> & Hm)].
      * destruct (ends r (prev, c :: s)) as [|q l] eqn:E; [done|].
        exists [], (c :: s), q. split; [done|]. apply ends_matches. rewrite E. left.
      * exists (c :: b), a, q. split; [done|].
        destruct b as [|b0 b]; [done|]. rewrite last_cons_cons.
        by destruct (last (b0 :: b)) eqn:E; [|apply last_None in E].
    + intros ([|b0 b] & a & q & Hs & Hm); simplify_eq/=.
      * left. apply ends_matches in Hm.
        by destruct (ends r (prev, c :: s)) eqn:E; [apply not_elem_of_nil in Hm|].
      * right. exists b, a, q. split; [done|].
        destruct b as [|b1 b]; [done|]. rewrite last_cons_cons in Hm.
        by destruct (last (b1 :: b)) eqn:E; [|apply last_None in E].
Qed.

(** The parent of a path with components has fewer of them: walking up ends. *)
Lemma path_parent_shorter p :
  path_parent p <> p -> (length (path_tail (path_parent p)) < length (path_tail p))%nat.
Proof.
  destruct p as [root tail]. unfold path_parent. simpl. intros Hne.
  destruct tail as [|x tail] using rev_ind; [done|].
  rewrite removelast_last length_app. simpl. lia.
Qed.

Lemma path_parent_fixed p : path_parent p = p -> path_tail p = [].
Proof.
  destruct p as [root tail]. unfold path_parent. simpl. intros [= H].
  destruct tail as [|x tail] using rev_ind; [done|].
  rewrite removelast_last in H. apply (f_equal length) in H. rewrite length_app in H. simpl in H. lia.
Qed.

(** ** Splitting and joining *)
Lemma split_on_nonempty c s : split_on c s <> [].
Proof. destruct s as [|x s]; simpl; [done|]. destruct (x =? c); [done|]. by destruct (split_on c s). Qed.

Lemma split_on_absent c s : c ∉ s -> split_on c s = [s].
Proof.
  induction s as [|x s IH]; intros Hc; simpl; [done|]. apply not_elem_of_cons in Hc as [Hx Hc].
  destruct (Z.eqb_spec x c); [congruence|]. by rewrite IH.
Qed.

Lemma split_on_app c l s : c ∉ l -> split_on c (l ++ c :: s) = l :: split_on c s.
Proof.
  induction l as [|x l IH]; intros Hc; simpl; [by rewrite Z.eqb_refl|].
  apply not_elem_of_cons in Hc as [Hx Hc]. destruct (Z.eqb_spec x c); [congruence|]. by rewrite IH.
Qed.

Lemma split_on_free c s w : w ∈ split_on c s -> c ∉ w.
Proof.
  revert w. induction s as [|x s IH]; intros w; cbn [split_on].
  - intros ->%list_elem_of_singleton. by apply not_elem_of_nil.
  - destruct (Z.eqb_spec x c) as [->|Hx].
    + intros [->|Hw]%elem_of_cons; [by apply not_elem_of_nil|by apply IH].
    + destruct (split_on c s) as [|v ws] eqn:E; [by destruct (split_on_nonempty c s)|].
      intros [->|Hw]%elem_of_cons; [|apply IH; by right]. apply not_elem_of_cons. split; [congruence|]. apply IH. by left.
Qed.

Lemma split_on_join c l : l <> [] -> Forall (fun w => c ∉ w) l -> split_on c (join [c] l) = l.
Proof.
  intros Hne Hl. induction l as [|w l IH]; [done|]. apply Forall_cons in Hl as [Hw Hl]. destruct l as [|v l].
  - by apply split_on_absent.
  - change (join [c] (w :: v :: l)) with (w ++ c :: join [c] (v :: l)). rewrite split_on_app //. f_equal. by apply IH.
Qed.

(** The components of a path. *)
Definition path_words_ok (tail : list pystr) : Prop := Forall (fun w => w <> [] /\ w <> u "." /\ 47 ∉ w) tail.

Lemma parse_path_words s : path_words_ok (path_tail (parse_path s)).
Proof.
  unfold path_words_ok, parse_path. destruct (split_root s) as [root rel]. cbn [path_tail].
  apply Forall_forall. intros w [[Hw1 Hw2] Hw]%list_elem_of_filter. split; [done|]. split; [done|]. by apply (split_on_free 47 rel).
Qed.

Lemma split_root_slash s : head s <> Some 47 -> split_root (47 :: s) = ([47], s).
Proof.
  destruct s as [|c s]; [done|]. cbn [head]. intros Hc. assert (Hne : c <> 47) by congruence. unfold split_root.
  destruct c as [|p|p]; try done. do 6 (destruct p as [p|p|]; try done).
Qed.
Lemma split_root_slashes s : head s <> Some 47 -> split_root (47 :: 47 :: s) = ([47; 47], s).
Proof.
  destruct s as [|c s]; [done|]. cbn [head]. intros Hc. assert (Hne : c <> 47) by congruence. unfold split_root.
  destruct c as [|p|p]; try done. do 6 (destruct p as [p|p|]; try done).
Qed.

Lemma parse_path_root s : path_root (parse_path s) = [] \/ path_root (parse_path s) = [47] \/ path_root (parse_path s) = [47; 47].
Proof.
  unfold parse_path. destruct (split_root s) as [root rel] eqn:E. cbn [path_root].
  assert (H : root = (split_root s).1) by by rewrite E. subst root. clear E. unfold split_root.
  repeat (case_match; cbn [fst]; auto).
Qed.

(** The text of an absolute path names that path. *)
Lemma parse_path_str root tail : root = [47] \/ root = [47; 47] -> path_words_ok tail -> parse_path (path_str (mkPath root tail)) = mkPath root tail.
Proof.
  intros Hroot Htail. assert (Hhead : head (join [47] tail) <> Some 47).
  { destruct tail as [|w tail]; [done|]. apply Forall_cons in Htail as [(Hw & _ & Hfree) _]. destruct w as [|c w]; [done|].
    apply not_elem_of_cons in Hfree as [Hc _]. destruct tail; cbn; congruence. }
  assert (Hsplit : split_root (path_str (mkPath root tail)) = (root, join [47] tail)).
  { destruct Hroot as [->| ->]; [by apply split_root_slash|by apply split_root_slashes]. }
  unfold parse_path. rewrite Hsplit. f_equal. destruct tail as [|w tail]; [done|]. rewrite split_on_join; [done| |].
  - apply (Forall_impl _ _ _ Htail). by intros v (_ & _ & H).
  - clear Hhead Hsplit. induction Htail as [|v l (H1 & H2 & _) _ IH]; [done|]. by rewrite filter_cons_True // IH.
Qed.

Lemma path_words_parent p : path_words_ok (path_tail p) -> path_words_ok (path_tail (path_parent p)).
Proof.
  unfold path_words_ok. destruct p as [root tail]. cbn [path_tail path_parent]. destruct tail as [|w tail _] using rev_ind; [done|].
  rewrite removelast_last. by intros [H _]%Forall_app.
Qed.
