(* ===== verification/PyFloat.v ===== *)
(** * Floats as text

    [float(text)] and [repr(x)] for the binary64 format: decimal text is read by
    exact rounding to nearest (ties to even), and printed with the fewest digits
    that read back to the same value.  The theorem of the file is that reading
    inverts printing. *)
From S2P Require Import Prelude PyText PyVal.

#[export] Instance pyfloat_eq_dec : EqDecision pyfloat.
Proof. solve_decision. Defined.

(** ** Rounding a positive rational [n / d] to a double *)

(** [floor (log2 (n / d))] *)
Definition log2_ratio (n d : Z) : Z :=
  let l := Z.log2 n - Z.log2 d in
  if (if 0 <=? l then d * 2 ^ l <=? n else d <=? n * 2 ^ (- l)) then l else l - 1.

Definition round_half_even (a b : Z) : Z :=
  let q := a / b in
  let r := a mod b in
  if (b <? 2 * r) || ((b =? 2 * r) && Z.odd q) then q + 1 else q.

Definition round_ratio (neg : bool) (n d : Z) : pyfloat :=
  if n <=? 0 then FFin neg 0 0
  else
    let e := Z.max (log2_ratio n d - 52) (-1074) in
    let m := if 0 <=? e then round_half_even n (d * 2 ^ e) else round_half_even (n * 2 ^ (- e)) d in
    if (971 <? e) || ((971 =? e) && (2 ^ 53 <=? m)) then FInf neg else mk_fin neg m e.

(** ** Reading *)

(** The longest prefix of digits, its value and its length. *)
Fixpoint take_digits (s : pystr) (acc n : Z) : Z * Z * pystr :=
  match s with
  | c :: s' => if is_digit c then take_digits s' (acc * 10 + (c - 48)) (n + 1) else (acc, n, s)
  | [] => (acc, n, s)
  end.

(** A JSON number: optional minus, digits, optional fraction and exponent. *)
Record number := mkNumber {
  num_neg : bool;
  num_digits : Z;       (* all digits, the decimal point dropped *)
  num_scale : Z;        (* how many of them follow the point *)
  num_exp : Z;          (* the written exponent *)
  num_float : bool;     (* a fraction or an exponent is present *)
  num_len : Z;          (* digits before the point *)
}.

(** A zero, or a non-zero digit and more digits: value, length, rest. *)
Definition scan_int (s : pystr) : option (Z * Z * pystr) :=
  match s with
  | [] => None
  | c :: s' =>
      if c =? 48 then Some (0, 1, s')
      else if (49 <=? c) && (c <=? 57) then Some (take_digits s 0 0)
      else None
  end.

(** An optional point and digits, continuing the value [i]. *)
Definition scan_fraction (i : Z) (s : pystr) : Z * Z * pystr :=
  match s with
  | c :: (d :: _) as s' => if (c =? 46) && is_digit d then take_digits (drop 1 s) i 0 else (i, 0, s)
  | _ => (i, 0, s)
  end.

Definition scan_sign (s : pystr) : bool * pystr :=
  match s with
  | c :: t => if c =? 45 then (true, t) else if c =? 43 then (false, t) else (false, s)
  | [] => (false, s)
  end.

Definition scan_exponent (s : pystr) : Z * bool * pystr :=
  match s with
  | e :: s' =>
      if (e =? 101) || (e =? 69) then
        let '(eneg, s'') := scan_sign s' in
        let '(x, xl, rest) := take_digits s'' 0 0 in
        if 0 <? xl then ((if eneg then - x else x), true, rest) else (0, false, s)
      else (0, false, s)
  | [] => (0, false, s)
  end.

Definition scan_magnitude (neg : bool) (s : pystr) : option (number * pystr) :=
  match scan_int s with
  | None => None
  | Some (i, il, s2) =>
      let '(f, fl, s3) := scan_fraction i s2 in
      let '(x, has_exp, s4) := scan_exponent s3 in
      Some (mkNumber neg f fl x ((0 <? fl) || has_exp) il, s4)
  end.

Definition scan_number (s : pystr) : option (number * pystr) :=
  match s with
  | c :: s' => if c =? 45 then scan_magnitude true s' else scan_magnitude false s
  | [] => None
  end.

Definition number_value (n : number) : pyfloat :=
  let p := num_exp n - num_scale n in
  if 0 <=? p then round_ratio (num_neg n) (num_digits n * 10 ^ p) 1
  else round_ratio (num_neg n) (num_digits n) (10 ^ (- p)).

(** ** Printing *)
Definition pad_left (n : nat) (s : pystr) : pystr := replicate (n - length s) 48 ++ s.

(** The value [m * 2^e] written out exactly. *)
Definition exact_text (m e : Z) : pystr :=
  if 0 <=? e then digits (m * 2 ^ e) ++ u ".0"
  else
    let n := m * 5 ^ (- e) in
    digits (n / 10 ^ (- e)) ++ [46] ++ pad_left (Z.to_nat (- e)) (digits (n mod 10 ^ (- e))).

(** [d] is a run of digits, the value is [0.d * 10^decpt]: positional notation
    for [-4 < decpt <= 16], scientific otherwise. *)
Definition exp_text (x : Z) : pystr :=
  (if x <? 0 then 45 else 43) :: pad_left 2 (digits (Z.abs x)).

Definition shape (d : pystr) (decpt : Z) : pystr :=
  if (-4 <? decpt) && (decpt <=? 16) then
    if decpt <=? 0 then u "0." ++ replicate (Z.to_nat (- decpt)) 48 ++ d
    else if len d <=? decpt then d ++ replicate (Z.to_nat (decpt - len d)) 48 ++ u ".0"
    else take (Z.to_nat decpt) d ++ [46] ++ drop (Z.to_nat decpt) d
  else
    match d with
    | [c] => c :: 101 :: exp_text (decpt - 1)
    | c :: d' => c :: 46 :: d' ++ 101 :: exp_text (decpt - 1)
    | [] => []
    end.

(** [n / d * 10^k] rounded to an integer. *)
Definition scaled (n d k : Z) : Z :=
  if 0 <=? k then round_half_even (n * 10 ^ k) d else round_half_even n (d * 10 ^ (- k)).

Fixpoint strip_trailing_zeros (s : pystr) : pystr :=
  match s with
  | 48 :: s' => strip_trailing_zeros s'
  | _ => s
  end.

(** The value rounded to [p] significant digits, [x] being its decimal exponent;
    [up] is the next number of [p] digits (the gap below a power of two is half
    the gap above it). *)
Definition candidate (n d x p up : Z) : pystr :=
  let r := digits (scaled n d (p - x) + up) in
  let decpt := if p <? len r then x + 1 else x in
  shape (match rev (strip_trailing_zeros (rev r)) with [] => [48] | t => t end) decpt.

(** [text] reads back as [f], and is a number text throughout. *)
Definition reads_as (text : pystr) (f : pyfloat) : bool :=
  match scan_number text with
  | Some (n, []) => num_float n && bool_decide (number_value n = f)
  | _ => false
  end.

Fixpoint first_reading (f : pyfloat) (cands : list pystr) (default : pystr) : pystr :=
  match cands with
  | [] => default
  | c :: cs => if reads_as c f then c else first_reading f cs default
  end.

(** The number of digits before the point of [n / d], from its binary logarithm:
    [x] or [x - 1]. *)
Definition decimal_exponent (n d : Z) : Z :=
  let x := (log2_ratio n d + 1) * 30103 / 100000 + 1 in
  let too_big := if 0 <=? x - 1 then n <? d * 10 ^ (x - 1) else n * 10 ^ (1 - x) <? d in
  if too_big then x - 1 else x.

Definition magnitude_repr (m e : Z) : pystr :=
  let '(n, d) := if 0 <=? e then (m * 2 ^ e, 1) else (m, 2 ^ (- e)) in
  let x := decimal_exponent n d in
  first_reading (mk_fin false m e)
    (flat_map (fun p => [candidate n d x (Z.of_nat p) 0; candidate n d x (Z.of_nat p) 1]) (seq 1 17))
    (exact_text m e).

(** [repr(x)] *)
Definition float_repr (f : pyfloat) : pystr :=
  match f with
  | FFin neg m e =>
      (if neg then [45] else []) ++ (if m =? 0 then u "0.0" else magnitude_repr m e)
  | FInf neg => if neg then u "-inf" else u "inf"
  | FNan => u "nan"
  end.

(** A value of the format, in normal form. *)
Definition is_double (f : pyfloat) : bool :=
  match f with
  | FFin _ m e =>
      ((m =? 0) && (e =? 0)) ||
      ((0 <? m) && Z.odd m && (m <? 2 ^ 53) && (-1074 <=? e) && (Z.log2 m + e <? 1024))
  | _ => true
  end.

(** ** Decimal digits *)
Definition dec_value (ds : pystr) : Z := foldl (fun a c => a * 10 + (c - 48)) 0 ds.

Lemma foldl_dec ds acc :
  foldl (fun a c => a * 10 + (c - 48)) acc ds = acc * 10 ^ len ds + dec_value ds.
Proof.
  unfold dec_value. revert acc. induction ds as [|c ds IH]; intros acc; cbn [foldl].
  - change (len (@nil Z)) with 0. lia.
  - rewrite IH (IH (0 * 10 + (c - 48))) len_cons.
    rewrite (Z.add_comm 1) Z.pow_add_r; [apply len_nonneg|done|]. lia.
Qed.

Lemma dec_value_app a b : dec_value (a ++ b) = dec_value a * 10 ^ len b + dec_value b.
Proof. unfold dec_value at 1. rewrite foldl_app foldl_dec. done. Qed.

Lemma dec_value_bound ds : forallb is_digit ds = true -> 0 <= dec_value ds < 10 ^ len ds.
Proof.
  induction ds as [|c ds IH] using rev_ind; [done|].
  rewrite forallb_app len_app dec_value_app. simpl. intros [H1 H2]%andb_true_iff.
  specialize (IH H1). unfold is_digit in H2.
  change (len [c]) with 1. change (dec_value [c]) with (c - 48).
  rewrite Z.pow_add_r; [apply len_nonneg|done|]. lia.
Qed.

(** What a printed number looks like. *)
Record decimal (ds : pystr) (n : Z) : Prop := {
  dm_digits : forallb is_digit ds = true;
  dm_value : dec_value ds = n;
  dm_head : match ds with [] => False | c :: rest => c = 48 -> rest = [] end;
}.

Lemma digits_fuel_spec fuel n acc : 0 <= n < 10 ^ Z.of_nat fuel -> (0 < fuel)%nat ->
  exists ds, digits_fuel fuel n acc = ds ++ acc /\ decimal ds n.
Proof.
  revert n acc. induction fuel as [|fuel IH]; intros n acc Hn Hf; [lia|].
  cbn [digits_fuel]. pose proof (Z.mod_pos_bound n 10 ltac:(lia)) as Hm.
  pose proof (Z.div_mod n 10 ltac:(lia)) as Hd.
  destruct (Z.ltb_spec n 10).
  - exists [48 + n mod 10]. split; [done|].
    split; [unfold is_digit; cbn; lia| |done].
    change (dec_value [48 + n mod 10]) with (48 + n mod 10 - 48).
    rewrite (Z.mod_small n 10); lia.
  - assert (0 < fuel)%nat as Hf'.
    { destruct fuel; [|lia]. change (10 ^ Z.of_nat 1) with 10 in Hn. lia. }
    destruct (IH (n / 10) ((48 + n mod 10) :: acc)) as (ds & -> & [Hds Hv Hh]).
    { split; [lia|]. rewrite Nat2Z.inj_succ Z.pow_succ_r in Hn; [lia|].
      apply Z.div_lt_upper_bound; lia. }
    { done. }
    exists (ds ++ [48 + n mod 10]). split; [by rewrite -app_assoc|]. split.
    + rewrite forallb_app Hds. unfold is_digit. cbn. lia.
    + rewrite dec_value_app Hv. change (len [48 + n mod 10]) with 1.
      change (dec_value [48 + n mod 10]) with (48 + n mod 10 - 48). lia.
    + destruct ds as [|c ds]; [done|]. cbn [app]. intros ->.
      rewrite (Hh eq_refl) in Hv. change (dec_value [48]) with 0 in Hv.
      assert (1 <= n / 10) by (apply Z.div_le_lower_bound; lia). lia.
Qed.

Lemma digits_spec n : 0 <= n -> decimal (digits n) n.
Proof.
  intros Hn. unfold digits.
  destruct (digits_fuel_spec (S (Z.to_nat (Z.log2 n))) n []) as (ds & -> & Hd).
  - split; [done|]. rewrite Nat2Z.inj_succ Z2Nat.id; [apply Z.log2_nonneg|].
    destruct (Z.eq_dec n 0) as [->|Hne]; [done|].
    destruct (Z.log2_spec n) as [_ H2]; [lia|].
    eapply Z.lt_le_trans; [exact H2|]. apply Z.pow_le_mono_l. lia.
  - lia.
  - by rewrite app_nil_r.
Qed.

Lemma digits_nonempty n : 0 <= n -> digits n <> [].
Proof. intros Hn E. destruct (digits_spec n Hn) as [_ _ H]. by rewrite E in H. Qed.

Lemma digits_length n k : 0 <= n < 10 ^ Z.of_nat k -> (0 < k)%nat -> (length (digits n) <= k)%nat.
Proof.
  intros Hn Hk. destruct (digits_spec n ltac:(lia)) as [Hd Hv Hh].
  destruct (decide (length (digits n) <= k)%nat) as [|Hgt]; [done|].
  destruct (digits n) as [|c ds] eqn:E; [done|].
  simpl in Hd. apply andb_true_iff in Hd as [Hc Hds]. pose proof (dec_value_bound ds Hds).
  change (c :: ds) with ([c] ++ ds) in Hv. rewrite dec_value_app in Hv.
  change (dec_value [c]) with (c - 48) in Hv. unfold is_digit in Hc. simpl in Hgt.
  destruct (decide (c = 48)) as [->|Hne]; [rewrite (Hh eq_refl) in Hgt; simpl in Hgt; lia|].
  assert (10 ^ Z.of_nat k <= 10 ^ len ds) by (apply Z.pow_le_mono_r; unfold len; lia). nia.
Qed.

(** ** Scanning digits *)
Definition no_digit (rest : pystr) : Prop :=
  match rest with c :: _ => is_digit c = false | [] => True end.

Lemma take_digits_run ds acc n rest : forallb is_digit ds = true -> no_digit rest ->
  take_digits (ds ++ rest) acc n = (acc * 10 ^ len ds + dec_value ds, n + len ds, rest).
Proof.
  revert acc n. induction ds as [|c ds IH]; intros acc n Hds Hr.
  - change (len (@nil Z)) with 0. change (dec_value []) with 0. cbn [app].
    assert (acc * 10 ^ 0 + 0 = acc) as -> by lia. assert (n + 0 = n) as -> by lia.
    destruct rest as [|c rest]; cbn [take_digits]; [done|]. cbn in Hr. by rewrite Hr.
  - simpl in Hds. apply andb_true_iff in Hds as [Hc Hds]. cbn [app take_digits]. rewrite Hc IH //.
    rewrite len_cons (Z.add_comm 1) Z.pow_add_r; [apply len_nonneg|done|].
    assert (dec_value (c :: ds) = (c - 48) * 10 ^ len ds + dec_value ds) as ->.
    { unfold dec_value at 1. cbn [foldl]. by rewrite foldl_dec. }
    apply (f_equal2 pair); [apply (f_equal2 pair)|done]; lia.
Qed.

(** Text after a number that the scanner leaves alone. *)
Definition after_number (rest : pystr) : Prop :=
  match rest with
  | c :: _ => is_digit c = false /\ c <> 46 /\ c <> 101 /\ c <> 69
  | [] => True
  end.

Lemma after_no_digit rest : after_number rest -> no_digit rest.
Proof. destruct rest; cbn; naive_solver. Qed.

Lemma take_digits_extend s acc n x k t rest : take_digits s acc n = (x, k, t) ->
  t <> [] \/ no_digit rest -> take_digits (s ++ rest) acc n = (x, k, t ++ rest).
Proof.
  revert acc n. induction s as [|c s IH]; intros acc n; cbn [take_digits].
  - intros [= <- <- <-] [?|Hr]; [done|]. destruct rest as [|c rest]; [done|].
    cbn in Hr |- *. by rewrite Hr.
  - cbn [app take_digits]. destruct (is_digit c); [by apply IH|]. by intros [= <- <- <-].
Qed.

Lemma scan_int_extend s i il t rest : scan_int s = Some (i, il, t) -> t <> [] \/ no_digit rest ->
  scan_int (s ++ rest) = Some (i, il, t ++ rest).
Proof.
  destruct s as [|c s]; [done|]. cbn [scan_int app]. intros H Hr.
  destruct (c =? 48); [by simplify_eq|]. destruct ((49 <=? c) && (c <=? 57)); [|done].
  injection H as H. by rewrite -(take_digits_extend (c :: s) _ _ _ _ _ rest H).
Qed.

Lemma scan_fraction_extend i s f fl t rest : scan_fraction i s = (f, fl, t) ->
  after_number rest -> scan_fraction i (s ++ rest) = (f, fl, t ++ rest).
Proof.
  intros H Hr. destruct s as [|c [|d s]]; cbn [scan_fraction app] in *.
  - injection H as <- <- <-. destruct rest as [|c [|d r]]; [done..|]. cbn [scan_fraction app].
    destruct Hr as (_ & Hc & _). apply Z.eqb_neq in Hc. by rewrite Hc.
  - injection H as <- <- <-. destruct rest as [|d r]; [done|]. destruct Hr as [Hd _].
    cbn [scan_fraction app]. by rewrite Hd andb_false_r.
  - destruct ((c =? 46) && is_digit d); [|by simplify_eq]. cbn [drop] in *.
    apply (take_digits_extend (d :: s)); [done|]. right. by apply after_no_digit.
Qed.

Lemma scan_exponent_extend s x b t rest : scan_exponent s = (x, b, t) ->
  (t = [] \/ exists c t', t = c :: t' /\ c <> 101 /\ c <> 69) -> after_number rest ->
  scan_exponent (s ++ rest) = (x, b, t ++ rest).
Proof.
  intros H Ht Hr. destruct s as [|e s]; cbn [scan_exponent app] in *.
  - simplify_eq. destruct rest as [|c r]; [done|]. destruct Hr as (_ & _ & H1 & H2).
    cbn [scan_exponent app]. apply Z.eqb_neq in H1, H2. by rewrite H1 H2.
  - destruct ((e =? 101) || (e =? 69)) eqn:He; [|by simplify_eq].
    destruct (scan_sign s) as [eneg s2] eqn:Hs.
    destruct (take_digits s2 0 0) as [[y yl] r2] eqn:Htd.
    destruct (0 <? yl) eqn:Hyl; last first.
    { injection H as <- <- <-. destruct Ht as [Ht|(c & t' & Ht & ? & ?)]; [done|].
      injection Ht as -> ->. lia. }
    injection H as <- <- <-.
    assert (scan_sign (s ++ rest) = (eneg, s2 ++ rest)) as ->.
    { destruct s as [|c s]; cbn [scan_sign app] in *; [simplify_eq; by cbn in Htd; simplify_eq|].
      destruct (c =? 45); [by simplify_eq|]. by destruct (c =? 43); simplify_eq. }
    rewrite (take_digits_extend _ _ _ _ _ _ rest Htd); [|by rewrite Hyl].
    right. by apply after_no_digit.
Qed.

Lemma scan_magnitude_extend neg s n rest : scan_magnitude neg s = Some (n, []) ->
  after_number rest -> scan_magnitude neg (s ++ rest) = Some (n, rest).
Proof.
  unfold scan_magnitude. intros H Hr.
  destruct (scan_int s) as [[[i il] s2]|] eqn:Hi; [|done].
  rewrite (scan_int_extend _ _ _ _ rest Hi); [right; by apply after_no_digit|].
  destruct (scan_fraction i s2) as [[f fl] s3] eqn:Hf.
  rewrite (scan_fraction_extend _ _ _ _ _ rest Hf) //.
  destruct (scan_exponent s3) as [[x b] s4] eqn:Hx. injection H as <- ->.
  rewrite (scan_exponent_extend _ _ _ _ rest Hx) //; by auto.
Qed.

Lemma reads_as_scan text f : reads_as text f = true ->
  exists n, scan_number text = Some (n, []) /\ num_float n = true /\ number_value n = f.
Proof.
  unfold reads_as. destruct (scan_number text) as [[n [|? ?]]|]; [|done..].
  intros [H1 H2%bool_decide_eq_true]%andb_true_iff. by exists n.
Qed.

(** ** Rounding is exact on doubles *)
Lemma strip_zeros_shift p e k :
  strip_zeros (Pos.iter (fun x => xO x) p k) e = strip_zeros p (e + Zpos k).
Proof.
  revert e. induction k as [|k IH] using Pos.peano_ind; intros e; [done|].
  rewrite Pos.iter_succ. cbn [strip_zeros]. rewrite IH. f_equal. lia.
Qed.

Lemma mk_fin_shift neg m k e : 0 < m -> Z.odd m = true -> 0 <= k ->
  mk_fin neg (m * 2 ^ k) (e - k) = FFin neg m e.
Proof.
  intros Hm Ho Hk. destruct m as [|p|]; [lia| |lia].
  assert (Hs : forall e', strip_zeros p e' = (p, e')) by (by destruct p).
  destruct k as [|k|]; [| |lia].
  - rewrite Z.mul_1_r Z.sub_0_r. cbn [mk_fin]. by rewrite Hs.
  - assert (Zpos p * 2 ^ Zpos k = Zpos (Pos.iter (fun x => xO x) p k)) as ->.
    { change (2 ^ Zpos k) with (Z.pow_pos 2 k).
      unfold Z.pow_pos. clear. induction k as [|k IH] using Pos.peano_ind.
      - cbn. lia.
      - rewrite !Pos.iter_succ. lia. }
    cbn [mk_fin]. rewrite strip_zeros_shift Hs. f_equal. lia.
Qed.

Lemma round_half_even_exact q b : 0 < b -> round_half_even (q * b) b = q.
Proof.
  intros Hb. unfold round_half_even. rewrite Z.div_mul ?Z.mod_mul; [lia..|].
  destruct (Z.ltb_spec b (2 * 0)); [lia|]. destruct (Z.eqb_spec b (2 * 0)); [lia|]. done.
Qed.

(** [n / d = m * 2^e], all powers cleared. *)
Definition ratio_is (n d m e : Z) : Prop :=
  forall k, 0 <= k -> 0 <= e + k -> n * 2 ^ k = m * d * 2 ^ (e + k).

Lemma ratio_is_pos n d m e : 0 <= e -> n = m * d * 2 ^ e -> ratio_is n d m e.
Proof. intros He -> k Hk _. rewrite Z.pow_add_r //. lia. Qed.

Lemma ratio_is_neg n d m e : e <= 0 -> n * 2 ^ (- e) = m * d -> ratio_is n d m e.
Proof.
  intros He Hn k Hk Hek. rewrite -Hn. replace k with (- e + (e + k)) at 1 by lia.
  rewrite Z.pow_add_r; lia.
Qed.

(** [2^k <= n / d], the test of [log2_ratio]. *)
Lemma ratio_test n d m e k : 0 < m -> 0 < d -> ratio_is n d m e ->
  (if 0 <=? k then d * 2 ^ k <=? n else d <=? n * 2 ^ (- k)) = (k <=? Z.log2 m + e).
Proof.
  intros Hm Hd Hr. set (K := Z.abs k + Z.abs e).
  pose proof (Hr K ltac:(lia) ltac:(lia)) as HK.
  assert (Hpow : forall x, 0 <= x -> 0 < 2 ^ x) by (intros; by apply Z.pow_pos_nonneg).
  assert ((if 0 <=? k then d * 2 ^ k <=? n else d <=? n * 2 ^ (- k)) =
          (2 ^ (k + K) <=? m * 2 ^ (e + K))) as ->.
  { apply eq_true_iff_eq. rewrite Z.leb_le.
    assert (2 ^ (k + K) <= m * 2 ^ (e + K) <-> d * 2 ^ (k + K) <= n * 2 ^ K) as ->.
    { rewrite HK. rewrite (Z.mul_comm m d) -Z.mul_assoc. by apply Z.mul_le_mono_pos_l. }
    destruct (Z.leb_spec 0 k).
    - rewrite Z.leb_le Z.pow_add_r; [lia..|]. rewrite Z.mul_assoc.
      apply Z.mul_le_mono_pos_r, Hpow. lia.
    - rewrite Z.leb_le. replace K with (- k + (k + K)) at 2 by lia.
      rewrite (Z.pow_add_r 2 (- k) (k + K)); [lia..|]. rewrite Z.mul_assoc.
      apply Z.mul_le_mono_pos_r, Hpow. lia. }
  destruct (Z.log2_spec m Hm) as [H1 H2]. pose proof (Z.log2_nonneg m) as HM.
  set (M := Z.log2 m) in *. apply eq_true_iff_eq. rewrite !Z.leb_le. split.
  - intros Hle. apply Z.nlt_ge. intros Hlt.
    assert (m * 2 ^ (e + K) < 2 ^ (k + K)); [|lia].
    apply Z.lt_le_trans with (2 ^ Z.succ M * 2 ^ (e + K)).
    + apply Z.mul_lt_mono_pos_r; [apply Hpow; lia|done].
    + rewrite -Z.pow_add_r; [lia..|]. apply Z.pow_le_mono_r; lia.
  - intros Hle. apply Z.le_trans with (2 ^ M * 2 ^ (e + K)).
    + rewrite -Z.pow_add_r; [lia..|]. apply Z.pow_le_mono_r; lia.
    + apply Z.mul_le_mono_pos_r; [apply Hpow; lia|done].
Qed.

Lemma log2_ratio_exact n d m e : 0 < m -> 0 < n -> 0 < d -> ratio_is n d m e ->
  log2_ratio n d = Z.log2 m + e.
Proof.
  intros Hm Hn Hd Hr. unfold log2_ratio. rewrite (ratio_test n d m e) //.
  pose proof (Hr (Z.abs e) ltac:(lia) ltac:(lia)) as HK.
  apply (f_equal Z.log2) in HK. rewrite !Z.log2_mul_pow2 in HK; [lia..|].
  pose proof (Z.log2_mul_above m d ltac:(lia) ltac:(lia)) as Ha.
  pose proof (Z.log2_mul_below m d Hm Hd) as Hb.
  destruct (Z.leb_spec (Z.log2 n - Z.log2 d) (Z.log2 m + e)); lia.
Qed.

Lemma round_ratio_exact neg n d m e :
  is_double (FFin neg m e) = true -> 0 < m -> 0 < n -> 0 < d -> ratio_is n d m e ->
  round_ratio neg n d = FFin neg m e.
Proof.
  intros Hdbl Hm Hn Hd Hr. unfold is_double in Hdbl.
  assert (Ho : Z.odd m = true) by (destruct (Z.odd m); [done|lia]).
  assert (m < 2 ^ 53 /\ -1074 <= e /\ Z.log2 m + e < 1024) as (Hm53 & He & Hover) by lia.
  clear Hdbl. unfold round_ratio. destruct (Z.leb_spec n 0); [lia|].
  rewrite (log2_ratio_exact n d m e) //.
  pose proof (Z.log2_nonneg m) as HM.
  assert (Z.log2 m < 53) as HM52 by (by apply Z.log2_lt_pow2).
  set (E := Z.max (Z.log2 m + e - 52) (-1074)).
  assert (HE : E <= e) by lia.
  assert ((if 0 <=? E then round_half_even n (d * 2 ^ E)
           else round_half_even (n * 2 ^ (- E)) d) = m * 2 ^ (e - E)) as ->.
  { destruct (Z.leb_spec 0 E).
    - pose proof (Hr 0 ltac:(lia) ltac:(lia)) as Hr0. rewrite Z.pow_0_r Z.mul_1_r Z.add_0_r in Hr0.
      assert (n = m * 2 ^ (e - E) * (d * 2 ^ E)) as ->.
      { rewrite Hr0. replace e with (e - E + E) at 1 by lia. rewrite Z.pow_add_r; lia. }
      apply round_half_even_exact. apply Z.mul_pos_pos; [done|]. by apply Z.pow_pos_nonneg.
    - rewrite (Hr (- E)); [lia..|]. replace (e + - E) with (e - E) by lia.
      replace (m * d * 2 ^ (e - E)) with (m * 2 ^ (e - E) * d) by lia.
      by apply round_half_even_exact. }
  replace (mk_fin neg (m * 2 ^ (e - E)) E) with (mk_fin neg (m * 2 ^ (e - E)) (e - (e - E)))
    by (f_equal; lia).
  rewrite mk_fin_shift //; [lia|].
  destruct (Z.ltb_spec 971 E); [lia|]. destruct (Z.eqb_spec 971 E) as [HE'|]; [|done].
  destruct (Z.leb_spec (2 ^ 53) (m * 2 ^ (e - E))) as [Hbig|]; [|done]. exfalso.
  apply Z.log2_le_mono in Hbig. rewrite Z.log2_mul_pow2 in Hbig; [lia..|].
  rewrite Z.log2_pow2 in Hbig; lia.
Qed.

(** ** The exact text reads back *)
Lemma decimal_len ds n k : decimal ds n -> n < 10 ^ Z.of_nat k -> (0 < k)%nat ->
  (length ds <= k)%nat.
Proof.
  intros [Hd Hv Hh] Hn Hk. destruct ds as [|c ds]; [done|].
  destruct (Z.eq_dec c 48) as [->|Hc]; [rewrite (Hh eq_refl); cbn; lia|].
  simpl in Hd. apply andb_true_iff in Hd as [Hc' Hd]. unfold is_digit in Hc'.
  pose proof (dec_value_bound ds Hd).
  assert (dec_value (c :: ds) = (c - 48) * 10 ^ len ds + dec_value ds) as Hx.
  { unfold dec_value at 1. cbn [foldl]. by rewrite foldl_dec. }
  assert (10 ^ len ds < 10 ^ Z.of_nat k) as Hlt.
  { assert (0 < 10 ^ len ds) by (apply Z.pow_pos_nonneg; [lia|apply len_nonneg]). nia. }
  apply Z.pow_lt_mono_r_iff in Hlt; [|lia|lia]. unfold len in Hlt. cbn [length]. lia.
Qed.

Lemma scan_int_digits n rest : 0 <= n -> no_digit rest ->
  exists il, scan_int (digits n ++ rest) = Some (n, il, rest).
Proof.
  intros Hn Hr. destruct (digits_spec n Hn) as [Hd Hv Hh].
  destruct (digits n) as [|c ds] eqn:E; [done|]. cbn [app scan_int].
  destruct (Z.eqb_spec c 48) as [->|Hc].
  - rewrite (Hh eq_refl) in Hv |- *. change (dec_value [48]) with 0 in Hv. subst n. by eexists.
  - simpl in Hd. pose proof Hd as [Hc' Hds]%andb_true_iff. unfold is_digit in Hc'.
    destruct (Z.leb_spec 49 c); [|lia]. destruct (Z.leb_spec c 57); [|lia]. cbn [andb].
    rewrite (take_digits_run (c :: ds)) //. rewrite Z.mul_0_l Hv. by eexists.
Qed.

Lemma scan_fraction_run i f rest : f <> [] -> forallb is_digit f = true -> no_digit rest ->
  scan_fraction i (46 :: f ++ rest) = (i * 10 ^ len f + dec_value f, len f, rest).
Proof.
  intros Hne Hf Hr. destruct f as [|d f]; [done|]. cbn [app scan_fraction].
  assert (is_digit d = true) as -> by (simpl in Hf; by apply andb_true_iff in Hf as [? _]).
  cbn [Z.eqb Pos.eqb andb drop]. by rewrite (take_digits_run (d :: f)).
Qed.

Lemma pad_left_spec k s : forallb is_digit s = true -> (length s <= k)%nat ->
  forallb is_digit (pad_left k s) = true /\ dec_value (pad_left k s) = dec_value s /\
  length (pad_left k s) = k.
Proof.
  intros Hs Hk. unfold pad_left. split; [|split].
  - rewrite forallb_app Hs andb_true_r. induction (k - length s)%nat; [done|]. by simpl.
  - rewrite dec_value_app.
    assert (dec_value (replicate (k - length s) 48) = 0) as ->; [|lia].
    induction (k - length s)%nat as [|j IH]; [done|]. cbn [replicate].
    unfold dec_value in *. cbn [foldl]. exact IH.
  - rewrite length_app length_replicate. lia.
Qed.

Lemma decimal_scan i f : 0 <= i -> f <> [] -> forallb is_digit f = true ->
  exists n, scan_number (digits i ++ 46 :: f) = Some (n, []) /\ num_float n = true /\
    number_value n = round_ratio false (i * 10 ^ len f + dec_value f) (10 ^ len f).
Proof.
  intros Hi Hne Hf. destruct (scan_int_digits i (46 :: f) Hi) as [il Hscan]; [done|].
  pose proof (digits_spec i Hi) as [Hd _ Hh]. destruct (digits i) as [|c ds] eqn:E; [done|].
  unfold scan_number. cbn [app].
  assert ((c =? 45) = false) as ->.
  { simpl in Hd. apply andb_true_iff in Hd as [Hc _]. unfold is_digit in Hc. lia. }
  unfold scan_magnitude. cbn [app] in Hscan. rewrite Hscan.
  rewrite -(app_nil_r f) scan_fraction_run // app_nil_r. cbn [scan_exponent].
  eexists. split; [done|]. cbn [num_float]. unfold number_value.
  cbn [num_exp num_scale num_neg num_digits].
  assert (0 < len f) as Hl by (destruct f; [done|]; rewrite len_cons; pose proof (len_nonneg f); lia).
  destruct (Z.ltb_spec 0 (len f)); [|lia]. split; [done|].
  destruct (Z.leb_spec 0 (0 - len f)); [lia|]. by replace (- (0 - len f)) with (len f) by lia.
Qed.

Lemma exact_text_reads m e : is_double (FFin false m e) = true -> 0 < m ->
  exists n, scan_number (exact_text m e) = Some (n, []) /\ num_float n = true /\
    number_value n = FFin false m e.
Proof.
  intros Hd Hm. unfold exact_text. destruct (Z.leb_spec 0 e).
  - assert (0 < 2 ^ e) by (by apply Z.pow_pos_nonneg).
    destruct (decimal_scan (m * 2 ^ e) [48]) as (n & H1 & H2 & H3); [lia|done..|].
    exists n. split; [exact H1|]. split; [done|]. rewrite H3.
    change (len [48]) with 1. change (dec_value [48]) with 0.
    apply round_ratio_exact; [done|lia..|]. apply ratio_is_pos; lia.
  - set (k := - e). assert (0 < 10 ^ k) as Hk by (apply Z.pow_pos_nonneg; lia).
    assert (0 < 5 ^ k) by (apply Z.pow_pos_nonneg; lia).
    set (n := m * 5 ^ k). pose proof (Z.mod_pos_bound n (10 ^ k) Hk) as Hmod.
    pose proof (digits_spec (n mod 10 ^ k) ltac:(lia)) as Hdec.
    assert (length (digits (n mod 10 ^ k)) <= Z.to_nat k)%nat as Hlen.
    { eapply decimal_len; [exact Hdec| |lia]. rewrite Z2Nat.id; lia. }
    destruct (pad_left_spec (Z.to_nat k) (digits (n mod 10 ^ k)) (dm_digits _ _ Hdec) Hlen)
      as (P1 & P2 & P3).
    rewrite (dm_value _ _ Hdec) in P2.
    assert (len (pad_left (Z.to_nat k) (digits (n mod 10 ^ k))) = k) as P4
      by (unfold len; rewrite P3; lia).
    destruct (decimal_scan (n / 10 ^ k) (pad_left (Z.to_nat k) (digits (n mod 10 ^ k))))
      as (x & H1 & H2 & H3); [by apply Z.div_pos; lia| |done|].
    { intros Hnil. rewrite Hnil in P3. cbn in P3. lia. }
    exists x. split; [exact H1|]. split; [done|]. rewrite H3 P2 P4.
    replace (n / 10 ^ k * 10 ^ k + n mod 10 ^ k) with n
      by (rewrite {1}(Z.div_mod n (10 ^ k)); lia).
    apply round_ratio_exact; [done|lia..|]. apply ratio_is_neg; [lia|].
    unfold n. fold k. change 10 with (5 * 2). rewrite Z.pow_mul_l. lia.
Qed.

(** ** Reading inverts printing *)
Lemma first_reading_spec f cands dflt :
  reads_as (first_reading f cands dflt) f = true \/ first_reading f cands dflt = dflt.
Proof.
  induction cands as [|c cs IH]; cbn [first_reading]; [by right|].
  destruct (reads_as c f) eqn:E; [by left|done].
Qed.

Lemma magnitude_reads m e : is_double (FFin false m e) = true -> 0 < m ->
  exists n, scan_number (magnitude_repr m e) = Some (n, []) /\ num_float n = true /\
    number_value n = FFin false m e.
Proof.
  intros Hd Hm. unfold magnitude_repr. destruct (if 0 <=? e then _ else _) as [x y].
  assert (mk_fin false m e = FFin false m e) as ->.
  { unfold is_double in Hd.
    assert (Z.odd m = true) as Ho by (destruct (Z.odd m); [done|lia]).
    pose proof (mk_fin_shift false m 0 e Hm Ho ltac:(lia)) as Hk.
    by rewrite Z.mul_1_r Z.sub_0_r in Hk. }
  match goal with |- context [first_reading ?f ?c ?d] =>
    destruct (first_reading_spec f c d) as [Hr| ->] end.
  - by apply reads_as_scan in Hr.
  - by apply exact_text_reads.
Qed.

Lemma round_ratio_neg n d : round_ratio true n d =
  match round_ratio false n d with
  | FFin _ m e => FFin true m e | FInf _ => FInf true | FNan => FNan
  end.
Proof.
  unfold round_ratio. destruct (n <=? 0); [done|]. destruct (_ || _); [done|].
  unfold mk_fin. destruct (if 0 <=? _ then _ else _); [done| |done].
  by destruct (strip_zeros _ _).
Qed.

Lemma scan_magnitude_sign s n t : scan_magnitude false s = Some (n, t) ->
  exists n', scan_magnitude true s = Some (n', t) /\ num_float n' = num_float n /\
    num_neg n = false /\
    number_value n' = match number_value n with
                      | FFin _ m e => FFin true m e | FInf _ => FInf true | FNan => FNan
                      end.
Proof.
  unfold scan_magnitude. destruct (scan_int s) as [[[i il] s2]|]; [|done].
  destruct (scan_fraction i s2) as [[f fl] s3]. destruct (scan_exponent s3) as [[x b] s4].
  intros [= <- <-]. eexists. split; [done|]. split; [done|]. split; [done|].
  unfold number_value. cbn. destruct (0 <=? x - fl); apply round_ratio_neg.
Qed.

Lemma float_text_magnitude neg m e : is_double (FFin neg m e) = true ->
  exists text n, float_repr (FFin neg m e) = (if neg then [45] else []) ++ text /\
    scan_magnitude false text = Some (n, []) /\ num_float n = true /\
    number_value n = FFin false m e /\ text !! 0%nat <> Some 45.
Proof.
  intros Hd. cbn [float_repr]. destruct (Z.eqb_spec m 0) as [->|Hm].
  - assert (e = 0) as -> by (unfold is_double in Hd; lia).
    exists (u "0.0"). eexists. split; [done|]. split; [reflexivity|]. done.
  - assert (0 < m) as Hpos by (unfold is_double in Hd; lia).
    destruct (magnitude_reads m e) as (n & Hs & Hf & Hv); [done..|].
    exists (magnitude_repr m e), n. split; [done|].
    destruct (magnitude_repr m e) as [|c s] eqn:E; [done|]. unfold scan_number in Hs.
    destruct (Z.eqb_spec c 45) as [->|Hc].
    + exfalso. unfold scan_magnitude in Hs. destruct (scan_int s) as [[[i il] s2]|]; [|done].
      destruct (scan_fraction i s2) as [[f fl] s3]. destruct (scan_exponent s3) as [[x b] s4].
      injection Hs as <- _. unfold number_value in Hv. cbn in Hv.
      destruct (0 <=? x - fl); rewrite round_ratio_neg in Hv; by destruct (round_ratio false _ _).
    + split; [done|]. split; [done|]. split; [done|]. cbn. congruence.
Qed.

(** The text of a double, in front of anything that is not part of a number,
    scans as a number with a fraction or an exponent and has the double's value. *)
Lemma float_repr_scan f rest : is_double f = true -> (exists neg m e, f = FFin neg m e) ->
  after_number rest ->
  exists n, scan_number (float_repr f ++ rest) = Some (n, rest) /\ num_float n = true /\
    number_value n = f.
Proof.
  intros Hd (neg & m & e & ->) Hr.
  destruct (float_text_magnitude neg m e Hd) as (text & n & -> & Hs & Hf & Hv & Hc).
  destruct neg; cbn [app].
  - destruct (scan_magnitude_sign _ _ _ Hs) as (n' & Hs' & Hf' & _ & Hv').
    exists n'. unfold scan_number. cbn [app Z.eqb Pos.eqb].
    rewrite (scan_magnitude_extend _ _ _ rest Hs') // Hf' Hv' Hv. done.
  - exists n. destruct text as [|c text]; [done|]. cbn [app]. unfold scan_number.
    assert ((c =? 45) = false) as -> by (apply Z.eqb_neq; cbn in Hc; congruence).
    by rewrite -(scan_magnitude_extend _ _ _ rest Hs).
Qed.

(** ** The characters of a number *)
Definition number_char (c : Z) : bool := is_digit c || char_in c [46; 43; 45; 69; 101].

Lemma digits_number_char ds : forallb is_digit ds = true -> forallb number_char ds = true.
Proof.
  intros H. apply forallb_forall. intros c Hc. rewrite forallb_forall in H. unfold number_char.
  by rewrite (H c Hc).
Qed.

Lemma take_digits_consumes s acc n x k t : take_digits s acc n = (x, k, t) ->
  exists p, s = p ++ t /\ forallb is_digit p = true.
Proof.
  revert acc n. induction s as [|c s IH]; intros acc n; cbn [take_digits].
  - intros [= <- <- <-]. by exists [].
  - destruct (is_digit c) eqn:Hc; [|intros [= <- <- <-]; by exists []].
    intros (p & -> & Hp)%IH. exists (c :: p). by rewrite /= Hc.
Qed.

Lemma scan_magnitude_chars neg s n : scan_magnitude neg s = Some (n, []) ->
  forallb number_char s = true.
Proof.
  unfold scan_magnitude. destruct (scan_int s) as [[[i il] s2]|] eqn:Hi; [|done].
  destruct (scan_fraction i s2) as [[f fl] s3] eqn:Hf.
  destruct (scan_exponent s3) as [[x b] s4] eqn:Hx. intros [= <- ->].
  assert (H3 : forallb number_char s3 = true).
  { destruct s3 as [|e s3]; [done|]. cbn [scan_exponent] in Hx.
    destruct ((e =? 101) || (e =? 69)) eqn:He; [|done].
    destruct (scan_sign s3) as [eneg t] eqn:Hs. destruct (take_digits t 0 0) as [[y yl] r] eqn:Ht.
    destruct (0 <? yl); [|done]. injection Hx as _ _ ->.
    apply take_digits_consumes in Ht as (p & -> & Hp%digits_number_char). rewrite app_nil_r in Hs.
    simpl. apply andb_true_iff. split; [unfold number_char, char_in; cbn [existsb]; lia|].
    destruct s3 as [|c s3]; [done|]. cbn [scan_sign] in Hs.
    destruct (c =? 45) eqn:E1; [|destruct (c =? 43) eqn:E2]; injection Hs as _ <-; try done;
      simpl; rewrite Hp andb_true_r; unfold number_char, char_in; cbn [existsb]; lia. }
  assert (H2 : forallb number_char s2 = true).
  { destruct s2 as [|c [|d s2]]; cbn [scan_fraction] in Hf; try by simplify_eq.
    destruct ((c =? 46) && is_digit d) eqn:Hcd; [|by simplify_eq].
    apply take_digits_consumes in Hf as (p & Hp & Hd%digits_number_char). cbn [drop] in Hp.
    rewrite Hp. simpl. rewrite forallb_app Hd H3 andb_true_r.
    unfold number_char, char_in. cbn [existsb]. lia. }
  destruct s as [|c s]; [done|]. cbn [scan_int] in Hi. destruct (c =? 48) eqn:Hc.
  - injection Hi as <- <- ->. simpl. rewrite H2 andb_true_r. unfold number_char, is_digit. lia.
  - destruct (_ && _); [|done].
    assert (take_digits (c :: s) 0 0 = (i, il, s2)) as Htd by congruence.
    apply take_digits_consumes in Htd as (p & -> & Hp%digits_number_char).
    by rewrite forallb_app Hp H2.
Qed.

Lemma float_repr_chars neg m e : is_double (FFin neg m e) = true ->
  forallb number_char (float_repr (FFin neg m e)) = true.
Proof.
  intros Hd. destruct (float_text_magnitude neg m e Hd) as (t & n & -> & Hs & _).
  rewrite forallb_app (scan_magnitude_chars _ _ _ Hs). by destruct neg.
Qed.
