(* ===== verification/Json.v ===== *)
(** * UTF-8 and JSON text

    [str.encode("utf-8")], [bytes.decode], [json.dumps] and [json.loads] as the
    program calls them.  [rec_limit] is how many containers may be nested before
    the interpreter raises [RecursionError]. *)
From S2P Require Import Prelude PyText PyVal PyFloat.

(** ** UTF-8 *)
Definition is_surrogate (c : Z) : bool := (0xD800 <=? c) && (c <=? 0xDFFF).
Definition is_scalar (c : Z) : bool := (0 <=? c) && (c <? 0x110000) && negb (is_surrogate c).

Definition utf8_char (c : Z) : pybytes :=
  if c <? 0x80 then [c]
  else if c <? 0x800 then [0xC0 + c / 64; 0x80 + c mod 64]
  else if c <? 0x10000 then [0xE0 + c / 4096; 0x80 + c / 64 mod 64; 0x80 + c mod 64]
  else [0xF0 + c / 262144; 0x80 + c / 4096 mod 64; 0x80 + c / 64 mod 64; 0x80 + c mod 64].

(** Strict encoding: surrogates are refused. *)
Definition utf8_encode (s : pystr) : result pybytes :=
  if forallb is_scalar s then Ok (flat_map utf8_char s) else Err UnicodeError.

Definition is_cont (b : Z) : bool := (0x80 <=? b) && (b <? 0xC0).

(** One character; [pass] admits encoded surrogates ([surrogatepass]). *)
Definition utf8_step (pass : bool) (s : pybytes) : option (Z * pybytes) :=
  match s with
  | [] => None
  | b0 :: s1 =>
      if (0 <=? b0) && (b0 <? 0x80) then Some (b0, s1)
      else
        match s1 with
        | [] => None
        | b1 :: s2 =>
            if negb (is_cont b1) then None
            else if (0xC2 <=? b0) && (b0 <? 0xE0) then Some ((b0 - 0xC0) * 64 + (b1 - 0x80), s2)
            else
              match s2 with
              | [] => None
              | b2 :: s3 =>
                  if negb (is_cont b2) then None
                  else if (0xE0 <=? b0) && (b0 <? 0xF0) then
                    let c := (b0 - 0xE0) * 4096 + (b1 - 0x80) * 64 + (b2 - 0x80) in
                    if (c <? 0x800) || (negb pass && is_surrogate c) then None else Some (c, s3)
                  else
                    match s3 with
                    | [] => None
                    | b3 :: s4 =>
                        if negb (is_cont b3) then None
                        else if (0xF0 <=? b0) && (b0 <? 0xF5) then
                          let c := (b0 - 0xF0) * 262144 + (b1 - 0x80) * 4096 +
                                   (b2 - 0x80) * 64 + (b3 - 0x80) in
                          if (c <? 0x10000) || (0x110000 <=? c) then None else Some (c, s4)
                        else None
                    end
              end
        end
  end.

Fixpoint utf8_decode_fuel (pass : bool) (fuel : nat) (s : pybytes) : result pystr :=
  match s, fuel with
  | [], _ => Ok []
  | _, O => Err UnicodeError
  | _, S fuel' =>
      match utf8_step pass s with
      | None => Err UnicodeError
      | Some (c, rest) => let? cs := utf8_decode_fuel pass fuel' rest in Ok (c :: cs)
      end
  end.

(** Every step consumes a byte, so the length is fuel enough. *)
Definition utf8_decode (pass : bool) (s : pybytes) : result pystr :=
  utf8_decode_fuel pass (length s) s.

(** ** Printing *)
Definition hex_digit (d : Z) : Z := if d <? 10 then 48 + d else 87 + d.
Definition hex4 (c : Z) : pystr :=
  [hex_digit (c / 4096 mod 16); hex_digit (c / 256 mod 16); hex_digit (c / 16 mod 16);
   hex_digit (c mod 16)].
Definition unicode_escape (c : Z) : pystr := 92 :: 117 :: hex4 c.

Definition escape_char (ascii : bool) (c : Z) : pystr :=
  if c =? 34 then [92; 34]
  else if c =? 92 then [92; 92]
  else if c =? 10 then [92; 110]
  else if c =? 13 then [92; 114]
  else if c =? 9 then [92; 116]
  else if c =? 12 then [92; 102]
  else if c =? 8 then [92; 98]
  else if (0 <=? c) && (c <? 32) then unicode_escape c
  else if ascii && (126 <? c) then
    if c <? 0x10000 then unicode_escape c
    else unicode_escape (0xD800 + (c - 0x10000) / 1024) ++
         unicode_escape (0xDC00 + (c - 0x10000) mod 1024)
  else [c].

Definition json_string (ascii : bool) (s : pystr) : pystr :=
  34 :: flat_map (escape_char ascii) s ++ [34].

(** [str(n)] refuses integers of more than 4300 digits. *)
Definition int_text (z : Z) : result pystr :=
  let t := str_of_int z in
  raise_if (4300 <? len (digits (Z.abs z))) (ValueError (u "Exceeds the limit")) ;? Ok t.

Definition float_text (allow_nan : bool) (f : pyfloat) : result pystr :=
  match f with
  | FFin _ _ _ => Ok (float_repr f)
  | FNan => if allow_nan then Ok (u "NaN") else Err (ValueError (u "Out of range float values"))
  | FInf neg =>
      if allow_nan then Ok (if neg then u "-Infinity" else u "Infinity")
      else Err (ValueError (u "Out of range float values"))
  end.

Fixpoint rmap_join {A} (f : A -> result pystr) (l : list A) : result pystr :=
  match l with
  | [] => Ok []
  | [x] => f x
  | x :: l' => let? a := f x in let? b := rmap_join f l' in Ok (a ++ 44 :: b)
  end.

Record dump_options := { ensure_ascii : bool; allow_nan : bool }.

(** [json.dumps(v, separators=(",", ":"), ...)] *)
Fixpoint json_dumps (o : dump_options) (v : pyval) : result pystr :=
  match v with
  | VNone => Ok (u "null")
  | VBool b => Ok (if b then u "true" else u "false")
  | VInt z => int_text z
  | VFloat f => float_text (allow_nan o) f
  | VStr s => Ok (json_string (ensure_ascii o) s)
  | VList l => let? t := rmap_join (json_dumps o) l in Ok (91 :: t ++ [93])
  | VDict d =>
      let? t := rmap_join (fun kv => let? t := json_dumps o kv.2 in
                                     Ok (json_string (ensure_ascii o) kv.1 ++ 58 :: t)) d in
      Ok (123 :: t ++ [125])
  end.

(** [sort_keys=True] *)
Fixpoint sorted_keys (v : pyval) : pyval :=
  match v with
  | VList l => VList (map sorted_keys l)
  | VDict d => VDict (sort_by (fun a b => str_leb a.1 b.1) (map (fun kv => (kv.1, sorted_keys kv.2)) d))
  | _ => v
  end.

(** ** Reading *)
Definition json_space (c : Z) : bool := (c =? 32) || (c =? 9) || (c =? 10) || (c =? 13).
Definition skip (s : pystr) : pystr := drop_while json_space s.

Definition hex_value (c : Z) : option Z :=
  if is_digit c then Some (c - 48)
  else if (97 <=? c) && (c <=? 102) then Some (c - 87)
  else if (65 <=? c) && (c <=? 70) then Some (c - 55)
  else None.

Definition read_hex4 (s : pystr) : option (Z * pystr) :=
  match s with
  | a :: b :: c :: d :: rest =>
      match hex_value a, hex_value b, hex_value c, hex_value d with
      | Some a, Some b, Some c, Some d => Some (((a * 16 + b) * 16 + c) * 16 + d, rest)
      | _, _, _, _ => None
      end
  | _ => None
  end.

(** A low surrogate escape right here. *)
Definition read_low (s : pystr) : option (Z * pystr) :=
  match s with
  | b :: x :: rest =>
      if (b =? 92) && (x =? 117) then
        match read_hex4 rest with
        | Some (c, rest') => if (0xDC00 <=? c) && (c <=? 0xDFFF) then Some (c, rest') else None
        | None => None
        end
      else None
  | _ => None
  end.

(** One character of a string body: [None] at the closing quote. *)
Definition string_step (s : pystr) : result (option Z * pystr) :=
  match s with
  | [] => Err JSONDecodeError
  | c :: s' =>
      if c =? 34 then Ok (None, s')
      else if c =? 92 then
        match s' with
        | [] => Err JSONDecodeError
        | e :: s'' =>
            if e =? 34 then Ok (Some 34, s'') else if e =? 92 then Ok (Some 92, s'')
            else if e =? 47 then Ok (Some 47, s'') else if e =? 98 then Ok (Some 8, s'')
            else if e =? 102 then Ok (Some 12, s'') else if e =? 110 then Ok (Some 10, s'')
            else if e =? 114 then Ok (Some 13, s'') else if e =? 116 then Ok (Some 9, s'')
            else if e =? 117 then
              match read_hex4 s'' with
              | None => Err JSONDecodeError
              | Some (c1, rest) =>
                  if (0xD800 <=? c1) && (c1 <=? 0xDBFF) then
                    match read_low rest with
                    | Some (c2, rest') =>
                        Ok (Some (0x10000 + (c1 - 0xD800) * 1024 + (c2 - 0xDC00)), rest')
                    | None => Ok (Some c1, rest)
                    end
                  else Ok (Some c1, rest)
              end
            else Err JSONDecodeError
        end
      else if c <? 32 then Err JSONDecodeError
      else Ok (Some c, s')
  end.

Fixpoint read_string (fuel : nat) (s : pystr) : result (pystr * pystr) :=
  match fuel with
  | O => Err JSONDecodeError
  | S fuel' =>
      let? '(oc, rest) := string_step s in
      match oc with
      | None => Ok ([], rest)
      | Some c => let? '(cs, rest') := read_string fuel' rest in Ok (c :: cs, rest')
      end
  end.

(** A number, an integer unless it has a fraction or an exponent. *)
Definition read_number (s : pystr) : result (pyval * pystr) :=
  match scan_number s with
  | None => Err JSONDecodeError
  | Some (n, rest) =>
      if num_float n then Ok (VFloat (number_value n), rest)
      else if 4300 <? num_len n then Err (ValueError (u "Exceeds the limit"))
      else Ok (VInt (if num_neg n then - num_digits n else num_digits n), rest)
  end.

Definition literals : list (pystr * pyval) :=
  [(u "null", VNone); (u "true", VBool true); (u "false", VBool false); (u "NaN", VFloat FNan);
   (u "Infinity", VFloat (FInf false)); (u "-Infinity", VFloat (FInf true))].

Definition read_atom (s : pystr) : result (pyval * pystr) :=
  match find (fun l => is_prefix l.1 s) literals with
  | Some (t, v) => Ok (v, drop (length t) s)
  | None => read_number s
  end.

(** The elements of an array after the bracket or a comma; [value] reads one. *)
Fixpoint read_elements (value : pystr -> result (pyval * pystr)) (fuel : nat) (s : pystr)
  : result (list pyval * pystr) :=
  match fuel with
  | O => Err JSONDecodeError
  | S fuel' =>
      let? '(v, rest) := value s in
      match skip rest with
      | c :: rest' =>
          if c =? 93 then Ok ([v], rest')
          else if c =? 44 then
            let? '(vs, rest'') := read_elements value fuel' (skip rest') in Ok (v :: vs, rest'')
          else Err JSONDecodeError
      | [] => Err JSONDecodeError
      end
  end.

Fixpoint read_members (value : pystr -> result (pyval * pystr)) (fuel : nat) (s : pystr)
  : result (pydict * pystr) :=
  match fuel with
  | O => Err JSONDecodeError
  | S fuel' =>
      match s with
      | q :: s1 =>
          if negb (q =? 34) then Err JSONDecodeError
          else
            let? '(k, s2) := read_string (length s1) s1 in
            match skip s2 with
            | c :: s3 =>
                if negb (c =? 58) then Err JSONDecodeError
                else
                  let? '(v, rest) := value (skip s3) in
                  match skip rest with
                  | d :: rest' =>
                      if d =? 125 then Ok ([(k, v)], rest')
                      else if d =? 44 then
                        let? '(kvs, rest'') := read_members value fuel' (skip rest') in
                        Ok ((k, v) :: kvs, rest'')
                      else Err JSONDecodeError
                  | [] => Err JSONDecodeError
                  end
            | [] => Err JSONDecodeError
            end
      | [] => Err JSONDecodeError
      end
  end.

(** [hook] makes the value of an object from its pairs ([object_pairs_hook]). *)
Fixpoint read_value (hook : pydict -> result pyval) (depth : nat) (s : pystr)
  : result (pyval * pystr) :=
  match s with
  | [] => Err JSONDecodeError
  | c :: s' =>
      if c =? 34 then let? '(t, rest) := read_string (length s') s' in Ok (VStr t, rest)
      else if (c =? 123) || (c =? 91) then
        match depth with
        | O => Err RecursionError
        | S depth' =>
            match skip s' with
            | [] => Err JSONDecodeError
            | d :: rest =>
                if c =? 123 then
                  if d =? 125 then let? v := hook [] in Ok (v, rest)
                  else let? '(kvs, rest') := read_members (read_value hook depth') (length s') (d :: rest) in
                       let? v := hook kvs in Ok (v, rest')
                else
                  if d =? 93 then Ok (VList [], rest)
                  else let? '(vs, rest') := read_elements (read_value hook depth') (length s') (d :: rest) in
                       Ok (VList vs, rest')
            end
        end
      else read_atom s
  end.

(** [json.loads(text, object_pairs_hook=hook)] *)
Definition json_loads (hook : pydict -> result pyval) (rec_limit : nat) (s : pystr) : result pyval :=
  raise_if (match s with c :: _ => c =? 0xFEFF | [] => false end) JSONDecodeError ;?
  let? '(v, rest) := read_value hook rec_limit (skip s) in
  match skip rest with [] => Ok v | _ => Err JSONDecodeError end.

(** Without a hook the last value of a repeated key wins. *)
Definition plain_hook (kvs : pydict) : result pyval :=
  Ok (VDict (foldl (fun d kv => dict_set kv.1 kv.2 d) [] kvs)).

(** ** UTF-8 round trip *)
Lemma utf8_step_char pass c rest : is_scalar c = true ->
  utf8_step pass (utf8_char c ++ rest) = Some (c, rest).
Proof.
  intros Hc. unfold is_scalar in Hc. unfold utf8_char.
  pose proof (Z.mod_pos_bound c 64 ltac:(lia)) as M0.
  pose proof (Z.mod_pos_bound (c / 64) 64 ltac:(lia)) as M1.
  pose proof (Z.mod_pos_bound (c / 4096) 64 ltac:(lia)) as M2.
  pose proof (Z.div_mod c 64 ltac:(lia)) as D0.
  pose proof (Z.div_mod (c / 64) 64 ltac:(lia)) as D1.
  pose proof (Z.div_mod (c / 4096) 64 ltac:(lia)) as D2.
  rewrite Z.div_div in D1; [lia..|]. rewrite Z.div_div in D2; [lia..|].
  change (64 * 64) with 4096 in D1. change (4096 * 64) with 262144 in D2.
  set (a := c / 64) in *. set (b := c / 4096) in *. set (d := c / 262144) in *.
  set (m0 := c mod 64) in *. set (m1 := a mod 64) in *. set (m2 := b mod 64) in *.
  destruct (Z.ltb_spec c 0x80); [|destruct (Z.ltb_spec c 0x800);
    [|destruct (Z.ltb_spec c 0x10000)]]; cbn [app utf8_step]; unfold is_cont;
    repeat match goal with
    | |- context [if ?b then _ else _] =>
        let E := fresh "E" in destruct b eqn:E; try (exfalso; unfold is_surrogate in *; lia)
    end; repeat f_equal; lia.
Qed.

Lemma utf8_round_trip pass s raw : utf8_encode s = Ok raw -> utf8_decode pass raw = Ok s.
Proof.
  unfold utf8_encode, utf8_decode. destruct (forallb is_scalar s) eqn:Hs; [|done].
  intros [= <-].
  assert (Hgen : forall fuel, (length (flat_map utf8_char s) <= fuel)%nat ->
    utf8_decode_fuel pass fuel (flat_map utf8_char s) = Ok s); [|by apply Hgen].
  induction s as [|c s IH]; intros fuel Hf; [by destruct fuel|].
  simpl in Hs. apply andb_true_iff in Hs as [Hc Hs]. cbn [flat_map] in *.
  rewrite length_app in Hf.
  pose proof (utf8_step_char pass c (flat_map utf8_char s) Hc) as Hstep.
  assert (Hne : (0 < length (utf8_char c))%nat).
  { unfold utf8_char. repeat case_match; cbn; lia. }
  destruct (utf8_char c ++ flat_map utf8_char s) as [|x t] eqn:E.
  { apply (f_equal length) in E. rewrite length_app in E. cbn in E. lia. }
  destruct fuel as [|fuel]; [lia|]. cbn [utf8_decode_fuel]. rewrite Hstep.
  rewrite IH //. lia.
Qed.

(** ** Strings *)
Lemma hex_value_digit d : 0 <= d < 16 -> hex_value (hex_digit d) = Some d.
Proof.
  intros Hd. unfold hex_digit. destruct (Z.ltb_spec d 10); unfold hex_value, is_digit;
  repeat match goal with |- context [if ?b then _ else _] => destruct b eqn:? end;
    try (exfalso; lia); f_equal; lia.
Qed.

Lemma read_hex4_hex4 c rest : 0 <= c < 65536 -> read_hex4 (hex4 c ++ rest) = Some (c, rest).
Proof.
  intros Hc. unfold hex4. cbn [app read_hex4].
  rewrite !hex_value_digit; try (apply Z.mod_pos_bound; lia). do 2 f_equal.
  pose proof (Z.div_mod c 16 ltac:(lia)). pose proof (Z.div_mod (c / 16) 16 ltac:(lia)) as D1.
  pose proof (Z.div_mod (c / 256) 16 ltac:(lia)) as D2.
  rewrite Z.div_div in D1; [lia..|]. rewrite Z.div_div in D2; [lia..|].
  change (16 * 16) with 256 in D1. change (256 * 16) with 4096 in D2.
  assert (c / 4096 < 16) by (apply Z.div_lt_upper_bound; lia).
  assert (0 <= c / 4096) by (apply Z.div_pos; lia).
  rewrite (Z.mod_small (c / 4096)); lia.
Qed.

Lemma string_step_char ascii c rest : is_scalar c = true ->
  string_step (escape_char ascii c ++ rest) = Ok (Some c, rest).
Proof.
  intros Hc. unfold is_scalar, is_surrogate in Hc. unfold escape_char.
  repeat match goal with
  | |- context [if ?b then [92; _] else _] =>
      let E := fresh "E" in destruct b eqn:E;
      [apply Z.eqb_eq in E; subst c; reflexivity|]
  end.
  assert ((0 <=? c) = true) as -> by lia. cbn [andb]. destruct (Z.ltb_spec c 32).
  { unfold unicode_escape. cbn [app string_step]. cbn [Z.eqb Pos.eqb].
    rewrite read_hex4_hex4; [lia|]. destruct (Z.leb_spec 0xD800 c); [lia|]. done. }
  destruct (ascii && (126 <? c)) eqn:Ea.
  - destruct (Z.ltb_spec c 0x10000).
    + unfold unicode_escape. cbn [app string_step]. cbn [Z.eqb Pos.eqb].
      rewrite read_hex4_hex4; [lia|].
      destruct ((0xD800 <=? c) && (c <=? 0xDBFF)) eqn:Es; [lia|done].
    + unfold unicode_escape. cbn [app string_step]. cbn [Z.eqb Pos.eqb].
      pose proof (Z.div_mod (c - 0x10000) 1024 ltac:(lia)) as Hd.
      pose proof (Z.mod_pos_bound (c - 0x10000) 1024 ltac:(lia)) as Hm.
      set (q := (c - 0x10000) / 1024) in *. set (r := (c - 0x10000) mod 1024) in *.
      rewrite -app_assoc read_hex4_hex4; [lia|].
      destruct ((0xD800 <=? 0xD800 + q) && (0xD800 + q <=? 0xDBFF)) eqn:Eq; [|lia].
      cbn [app read_low]. cbn [Z.eqb Pos.eqb andb]. rewrite read_hex4_hex4; [lia|].
      destruct ((0xDC00 <=? 0xDC00 + r) && (0xDC00 + r <=? 0xDFFF)) eqn:Er; [|lia].
      do 3 f_equal. lia.
  - cbn [app string_step].
    destruct (c =? 34) eqn:?; [done|]. destruct (c =? 92) eqn:?; [done|].
    destruct (Z.ltb_spec c 32); [lia|done].
Qed.

Lemma read_string_body ascii s rest fuel : forallb is_scalar s = true -> (length s < fuel)%nat ->
  read_string fuel (flat_map (escape_char ascii) s ++ 34 :: rest) = Ok (s, rest).
Proof.
  revert fuel. induction s as [|c s IH]; intros fuel Hs Hf; (destruct fuel as [|fuel]; [lia|]).
  - done.
  - simpl in Hs. apply andb_true_iff in Hs as [Hc Hs]. cbn [flat_map read_string length] in *.
    rewrite -app_assoc string_step_char //. cbn [rbind]. rewrite IH //. lia.
Qed.

Lemma escape_char_nonempty ascii c : (0 < length (escape_char ascii c))%nat.
Proof. unfold escape_char. repeat case_match; cbn; lia. Qed.

Lemma escaped_length ascii s : (length s <= length (flat_map (escape_char ascii) s))%nat.
Proof.
  induction s as [|c s IH]; [done|]. cbn [flat_map length]. rewrite length_app.
  pose proof (escape_char_nonempty ascii c). lia.
Qed.

Lemma read_string_json ascii s rest : forallb is_scalar s = true ->
  let t := flat_map (escape_char ascii) s ++ [34] ++ rest in
  read_string (length t) t = Ok (s, rest).
Proof.
  intros Hs. apply read_string_body; [done|]. rewrite !length_app.
  pose proof (escaped_length ascii s). cbn. lia.
Qed.

(** ** Numbers *)
Lemma str_of_int_read z rest : after_number rest -> int_text z = Ok (str_of_int z) ->
  read_atom (str_of_int z ++ rest) = Ok (VInt z, rest).
Proof.
  intros Hr Hlen. unfold int_text in Hlen. r_inv. apply Z.ltb_ge in H.
  destruct (digits_spec (Z.abs z) ltac:(lia)) as [Hd Hv Hh].
  destruct (scan_int_digits (Z.abs z) rest ltac:(lia) (after_no_digit _ Hr)) as [il Hi].
  assert (Hil : il = len (digits (Z.abs z))).
  { destruct (digits (Z.abs z)) as [|c ds]; [done|]. cbn [app scan_int] in Hi.
    destruct (Z.eqb_spec c 48) as [->|]; [injection Hi as _ <- _; by rewrite (Hh eq_refl)|].
    destruct (_ && _) eqn:?; [|done].
    rewrite (take_digits_run (c :: ds)) // in Hi; [by apply after_no_digit|]. by injection Hi. }
  assert (Hm : forall neg, scan_magnitude neg (digits (Z.abs z) ++ rest) =
            Some (mkNumber neg (Z.abs z) 0 0 false il, rest)).
  { intros neg. unfold scan_magnitude. rewrite Hi.
    assert (scan_fraction (Z.abs z) rest = (Z.abs z, 0, rest)) as ->.
    { destruct rest as [|c [|d r]]; [done..|]. destruct Hr as (_ & Hc & _). cbn [scan_fraction].
      apply Z.eqb_neq in Hc. by rewrite Hc. }
    destruct rest as [|c r]; [done|]. destruct Hr as (_ & _ & H1 & H2). cbn [scan_exponent].
    apply Z.eqb_neq in H1, H2. by rewrite H1 H2. }
  assert (Htext : str_of_int z = (if z <? 0 then [45] else []) ++ digits (Z.abs z)).
  { unfold str_of_int. destruct (Z.ltb_spec z 0); [by rewrite Z.abs_neq; [lia|]|by rewrite Z.abs_eq]. }
  rewrite Htext. clear Htext. destruct (digits (Z.abs z)) as [|c ds] eqn:E; [done|].
  assert (Hc : 48 <= c <= 57).
  { simpl in Hd. apply andb_true_iff in Hd as [Hc _]. unfold is_digit in Hc. lia. }
  assert (Hscan : scan_number (((if z <? 0 then [45] else []) ++ c :: ds) ++ rest) =
                  Some (mkNumber (z <? 0) (Z.abs z) 0 0 false il, rest)).
  { destruct (z <? 0); cbn [app scan_number Z.eqb Pos.eqb]; [apply (Hm true)|].
    destruct (Z.eqb_spec c 45); [lia|]. apply (Hm false). }
  assert (Hlit : find (fun l => is_prefix l.1 (((if z <? 0 then [45] else []) ++ c :: ds) ++ rest))
                   literals = None).
  { unfold literals, u. destruct (z <? 0); cbn -[Z.eqb];
      repeat match goal with |- context [Z.eqb ?k c] => destruct (Z.eqb_spec k c); [lia|] end; done. }
  unfold read_atom. rewrite Hlit. unfold read_number. rewrite Hscan. cbn [num_float num_len num_neg num_digits].
  rewrite Hil. destruct (Z.ltb_spec 4300 (len (c :: ds))); [lia|].
  destruct (Z.ltb_spec z 0); do 2 f_equal; f_equal; lia.
Qed.

Lemma float_read f rest : is_double f = true -> (exists neg m e, f = FFin neg m e) ->
  after_number rest -> read_atom (float_repr f ++ rest) = Ok (VFloat f, rest).
Proof.
  intros Hd Hf Hr. destruct (float_repr_scan f rest Hd Hf Hr) as (n & Hs & Hn & Hv).
  assert (Hlit : find (fun l => is_prefix l.1 (float_repr f ++ rest)) literals = None).
  { destruct Hf as (neg & m & e & ->).
    destruct (float_text_magnitude neg m e Hd) as (text & n' & -> & Hs' & _ & _ & Hc).
    destruct text as [|c text]; [done|].
    assert (is_digit c = true).
    { unfold scan_magnitude in Hs'. destruct (scan_int (c :: text)) as [[[i il] s2]|] eqn:Hi; [|done].
      cbn [scan_int] in Hi. unfold is_digit. destruct (c =? 48) eqn:?; [lia|].
      destruct ((49 <=? c) && (c <=? 57)) eqn:?; [lia|done]. }
    unfold is_digit, literals, u in *. destruct neg; cbn -[Z.eqb];
      repeat match goal with |- context [Z.eqb ?k c] => destruct (Z.eqb_spec k c); [lia|] end; done. }
  unfold read_atom. rewrite Hlit. unfold read_number. by rewrite Hs Hn Hv.
Qed.

(** ** Values *)

(** What the printer writes and the reader gives back: finite doubles in normal
    form, strings of Unicode scalars, objects without repeated keys. *)
Fixpoint json_ok (v : pyval) : bool :=
  match v with
  | VFloat f => match f with FFin _ _ _ => is_double f | _ => false end
  | VStr s => forallb is_scalar s
  | VList l => forallb json_ok l
  | VDict d => nodupb (map fst d) && forallb (fun kv => forallb is_scalar kv.1 && json_ok kv.2) d
  | _ => true
  end.

(** Containers nested in each other. *)
Fixpoint nesting (v : pyval) : nat :=
  match v with
  | VList l => S (foldr Nat.max O (map nesting l))
  | VDict d => S (foldr Nat.max O (map (fun kv => nesting kv.2) d))
  | _ => O
  end.

(** First characters of values. *)
Definition value_start (c : Z) : bool :=
  is_digit c || char_in c [45; 34; 91; 123; 110; 116; 102].

Lemma value_start_spec c : value_start c = true -> json_space c = false /\ c <> 93 /\ c <> 125.
Proof. unfold value_start, is_digit, char_in, json_space. cbn [existsb]. intros. lia. Qed.

Lemma dumps_start o v t : json_ok v = true -> json_dumps o v = Ok t ->
  exists c t', t = c :: t' /\ value_start c = true.
Proof.
  destruct v as [|b|z|f|s|l|d]; cbn [json_ok json_dumps]; intros Hok H.
  - injection H as <-. by eexists _, _.
  - destruct b; injection H as <-; by eexists _, _.
  - unfold int_text in H. r_inv. unfold str_of_int.
    destruct (z <? 0) eqn:Ez; [by eexists _, _|].
    destruct (digits_spec z ltac:(lia)) as [Hd _ Hh]. destruct (digits z) as [|c ds]; [done|].
    eexists _, _. split; [done|]. simpl in Hd. apply andb_true_iff in Hd as [Hc _].
    unfold value_start. by rewrite Hc.
  - destruct f as [neg m e| |]; [|done..]. cbn in H. injection H as <-.
    destruct (float_text_magnitude neg m e Hok) as (text & n & Ht & Hs & _).
    cbn [float_repr] in Ht. rewrite Ht. destruct neg; [by eexists _, _|]. cbn [app].
    destruct text as [|c text]; [done|]. eexists _, _. split; [done|].
    unfold scan_magnitude in Hs. destruct (scan_int (c :: text)) as [[[i il] s2]|] eqn:Hi; [|done].
    cbn [scan_int] in Hi. unfold value_start, is_digit.
    destruct (c =? 48) eqn:?; [lia|]. destruct ((49 <=? c) && (c <=? 57)) eqn:?; [lia|done].
  - injection H as <-. by eexists _, _.
  - r_inv. by eexists _, _.
  - r_inv. by eexists _, _.
Qed.

Lemma skip_start c s : value_start c = true -> skip (c :: s) = c :: s.
Proof. intros [H _]%value_start_spec. unfold skip. cbn [drop_while]. by rewrite H. Qed.

(** Text that may follow a value. *)
Lemma after_number_delim c s : c = 44 \/ c = 93 \/ c = 125 -> after_number (c :: s).
Proof. unfold after_number, is_digit. intros. lia. Qed.

(** The reader inverts the printer on one value, whatever follows. *)
Definition reads_back (o : dump_options) (hook : pydict -> result pyval) (v : pyval) : Prop :=
  forall depth t rest, json_ok v = true -> json_dumps o v = Ok t -> (nesting v <= depth)%nat ->
    after_number rest -> read_value hook depth (t ++ rest) = Ok (v, rest).

Lemma join_length {A} (f : A -> result pystr) l t :
  (forall x t, x ∈ l -> f x = Ok t -> (0 < length t)%nat) ->
  rmap_join f l = Ok t -> (length l <= length t)%nat.
Proof.
  revert t. induction l as [|x l IH]; intros t Hf; cbn [rmap_join]; [intros; cbn; lia|].
  destruct l as [|y l].
  - intros H. apply Hf in H; [cbn; lia|by left].
  - intros H. apply rbind_Ok in H as (a & Ha & H). apply rbind_Ok in H as (b & Hb & H).
    injection H as <-. apply IH in Hb; [|intros z tz Hz; apply Hf; by apply elem_of_cons; right].
    rewrite length_app. cbn [length] in *. lia.
Qed.

Lemma read_elements_join o hook depth l t rest fuel :
  Forall (reads_back o hook) l -> Forall (fun v => json_ok v = true) l ->
  Forall (fun v => (nesting v <= depth)%nat) l -> l <> [] ->
  rmap_join (json_dumps o) l = Ok t -> (length l <= fuel)%nat ->
  read_elements (read_value hook depth) fuel (t ++ 93 :: rest) = Ok (l, rest).
Proof.
  revert t fuel. induction l as [|v l IH]; intros t fuel Hr Hok Hn Hne H Hf; [done|].
  inversion Hr as [|? ? Hv Hr']; subst. inversion Hok as [|? ? Hvok Hok']; subst.
  inversion Hn as [|? ? Hvn Hn']; subst. cbn [length] in Hf.
  destruct fuel as [|fuel]; [lia|]. cbn [read_elements rmap_join] in *.
  destruct l as [|w l].
  - by rewrite (Hv depth t).
  - apply rbind_Ok in H as (a & Ha & H). apply rbind_Ok in H as (b & Hb & H). injection H as <-.
    rewrite -app_assoc. cbn [app].
    rewrite (Hv depth a) //.
    cbn [rbind]. change (skip (44 :: b ++ 93 :: rest)) with (44 :: b ++ 93 :: rest).
    cbn [Z.eqb Pos.eqb].
    assert (exists c b', b = c :: b' /\ value_start c = true) as (c & b' & -> & Hc).
    { assert (exists t', json_dumps o w = Ok t' /\ exists r, b = t' ++ r) as (t' & Hw & r & ->).
      { cbn [rmap_join] in Hb. destruct l; [exists b; split; [done|by exists []; rewrite app_nil_r]|].
        apply rbind_Ok in Hb as (x & Hx & Hb). apply rbind_Ok in Hb as (y & _ & Hb).
        injection Hb as <-. exists x. split; [done|]. by exists (44 :: y). }
      inversion Hok' as [|? ? Hw' _]; subst.
      destruct (dumps_start o w t' Hw' Hw) as (c & t'' & -> & Hc). by exists c, (t'' ++ r). }
    cbn [app]. rewrite skip_start //.
    change (c :: b' ++ 93 :: rest) with ((c :: b') ++ 93 :: rest).
    rewrite (IH (c :: b') fuel) //. cbn [length] in *. lia.
Qed.

Definition member_text (o : dump_options) (kv : pystr * pyval) : result pystr :=
  let? t := json_dumps o kv.2 in Ok (json_string (ensure_ascii o) kv.1 ++ 58 :: t).

Lemma read_members_join o hook depth d t rest fuel :
  Forall (fun kv => reads_back o hook kv.2) d ->
  Forall (fun kv => forallb is_scalar kv.1 && json_ok kv.2 = true) d ->
  Forall (fun kv => (nesting kv.2 <= depth)%nat) d -> d <> [] ->
  rmap_join (member_text o) d = Ok t -> (length d <= fuel)%nat ->
  read_members (read_value hook depth) fuel (t ++ 125 :: rest) = Ok (d, rest).
Proof.
  revert t fuel. induction d as [|[k v] d IH]; intros t fuel Hr Hok Hn Hne H Hf; [done|].
  inversion Hr as [|? ? Hv Hr']; subst. inversion Hok as [|? ? Hvok Hok']; subst.
  inversion Hn as [|? ? Hvn Hn']; subst. cbn [length fst snd] in *.
  apply andb_true_iff in Hvok as [Hk Hvok].
  destruct fuel as [|fuel]; [lia|].
  (* one member in front of a delimiter *)
  assert (Hone : forall tv rest' next, json_dumps o v = Ok tv -> next = 44 \/ next = 125 ->
    read_members (read_value hook depth) (S fuel)
      ((json_string (ensure_ascii o) k ++ 58 :: tv) ++ next :: rest') =
    if next =? 125 then Ok ([(k, v)], rest')
    else let? '(kvs, rest'') := read_members (read_value hook depth) fuel (skip rest') in
         Ok ((k, v) :: kvs, rest'')).
  { intros tv rest' next Htv Hnext. destruct (dumps_start o v tv Hvok Htv) as (c & tv' & -> & Hc).
    unfold json_string. cbn [app read_members Z.eqb Pos.eqb negb].
    rewrite -!app_assoc read_string_json //. cbn [rbind app].
    change (skip (58 :: c :: tv' ++ next :: rest')) with (58 :: c :: tv' ++ next :: rest').
    cbn [Z.eqb Pos.eqb negb]. rewrite skip_start //.
    change (c :: tv' ++ next :: rest') with ((c :: tv') ++ next :: rest').
    rewrite (Hv depth (c :: tv')) //; [apply after_number_delim; lia|]. cbn [rbind].
    destruct Hnext as [->| ->]; done. }
  cbn [rmap_join] in H. destruct d as [|kv d].
  - unfold member_text in H. apply rbind_Ok in H as (tv & Htv & H). injection H as <-.
    cbn [fst snd] in *. rewrite Hone; [done|by right|done].
  - apply rbind_Ok in H as (a & Ha & H). apply rbind_Ok in H as (b & Hb & H). injection H as <-.
    unfold member_text in Ha. apply rbind_Ok in Ha as (tv & Htv & Ha). injection Ha as <-.
    cbn [fst snd] in *. rewrite -app_assoc. cbn [app].
    change (44 :: b ++ 125 :: rest) with (44 :: (b ++ 125 :: rest)).
    rewrite Hone //; [by left|]. cbn [Z.eqb Pos.eqb].
    assert (skip (b ++ 125 :: rest) = b ++ 125 :: rest) as ->.
    { cbn [rmap_join] in Hb. destruct d; [|apply rbind_Ok in Hb as (x & Hx & Hb); r_inv];
        unfold member_text in *; r_inv; unfold json_string; done. }
    rewrite (IH b fuel) //. cbn [length] in *. lia.
Qed.

Lemma fold_max_le l n : (foldr Nat.max O l <= n)%nat <-> Forall (fun x => (x <= n)%nat) l.
Proof. induction l as [|x l IH]; cbn [foldr]; [split; [constructor|lia]|]. rewrite Forall_cons -IH. lia. Qed.

Lemma forallb_Forall {A} (f : A -> bool) l : forallb f l = true <-> Forall (fun x => f x = true) l.
Proof. rewrite forallb_forall Forall_forall. by setoid_rewrite list_elem_of_In. Qed.

Lemma read_value_dumps o hook v :
  (forall d, NoDup (map fst d) -> hook d = Ok (VDict d)) -> reads_back o hook v.
Proof.
  intros Hhook. induction v as [|b|z|f|s|l IH|d IH] using pyval_nested_ind;
    intros depth t rest Hok Hd Hn Hr.
  - injection Hd as <-. by destruct depth.
  - destruct b; injection Hd as <-; by destruct depth.
  - cbn [json_dumps] in Hd. pose proof Hd as Hd'. unfold int_text in Hd'. r_inv. subst.
    pose proof (str_of_int_read z rest Hr Hd) as Hz. clear Hd H.
    assert (exists c t', str_of_int z = c :: t' /\ (is_digit c = true \/ c = 45)) as (c & t' & E & Hc).
    { unfold str_of_int. destruct (z <? 0) eqn:Ez; [by eexists _, _; auto|].
      destruct (digits_spec z ltac:(lia)) as [Hdig _ Hh]. destruct (digits z) as [|c ds]; [done|].
      eexists _, _. split; [done|]. left. simpl in Hdig. by apply andb_true_iff in Hdig as [? _]. }
    rewrite E in Hz |- *. cbn [app] in *. unfold is_digit in Hc.
    destruct depth; cbn [read_value]; (destruct (Z.eqb_spec c 34); [lia|]);
      (destruct (Z.eqb_spec c 123); [lia|]); (destruct (Z.eqb_spec c 91); [lia|]); exact Hz.
  - cbn [json_ok json_dumps] in *. destruct f as [neg m e| |]; [|done..].
    assert (t = float_repr (FFin neg m e)) as -> by (cbn [float_text] in Hd; congruence).
    assert (Hf : read_atom (float_repr (FFin neg m e) ++ rest) = Ok (VFloat (FFin neg m e), rest))
      by (apply float_read; eauto).
    destruct (dumps_start o (VFloat (FFin neg m e)) _ Hok eq_refl) as (c & t' & E & Hc).
    assert (c <> 34 /\ c <> 123 /\ c <> 91) as (H1 & H2 & H3).
    { destruct (float_text_magnitude neg m e Hok) as (text & n & Ht & Hs & _).
      rewrite E in Ht. destruct neg; [injection Ht as -> _; done|]. cbn [app] in Ht. subst text.
      unfold scan_magnitude in Hs. destruct (scan_int (c :: t')) as [[[i il] s2]|] eqn:Hi; [|done].
      cbn [scan_int] in Hi.
      destruct (c =? 48) eqn:?; [lia|]. destruct ((49 <=? c) && (c <=? 57)) eqn:?; [lia|done]. }
    rewrite E in Hf |- *. cbn [app] in *. apply Z.eqb_neq in H1, H2, H3.
    destruct depth; cbn [read_value]; by rewrite H1 H2 H3.
  - injection Hd as <-. cbn [json_ok] in Hok. unfold json_string.
    destruct depth; cbn [app read_value Z.eqb Pos.eqb]; rewrite -app_assoc read_string_json //.
  - cbn [json_dumps json_ok nesting] in *. apply rbind_Ok in Hd as (t' & Ht & Hd). injection Hd as <-.
    apply forallb_Forall in Hok. destruct depth as [|depth]; [lia|].
    apply le_S_n, fold_max_le in Hn. apply Forall_map in Hn.
    cbn [app read_value Z.eqb Pos.eqb orb]. rewrite -app_assoc. cbn [app].
    destruct l as [|v l].
    + injection Ht as <-. done.
    + assert (exists c r, t' = c :: r /\ value_start c = true) as (c & r & -> & Hc).
      { inversion Hok as [|? ? Hv _]; subst. cbn [rmap_join] in Ht.
        destruct l as [|w l]; [exact (dumps_start o v t' Hv Ht)|].
        apply rbind_Ok in Ht as (a & Ha & Ht). r_inv.
        destruct (dumps_start o v _ Hv Ha) as (c & a' & -> & Hc). eexists _, _. split; [done|done]. }
      cbn [app]. rewrite skip_start //. destruct (value_start_spec c Hc) as (_ & Hc' & _).
      apply Z.eqb_neq in Hc'. rewrite Hc'.
      change (c :: r ++ 93 :: rest) with ((c :: r) ++ 93 :: rest).
      rewrite (read_elements_join o hook depth (v :: l)) //.
      apply join_length in Ht; [rewrite length_app; lia|].
      intros x tx Hx Hdx. rewrite Forall_forall in Hok.
      destruct (dumps_start o x tx (Hok x Hx) Hdx) as (? & ? & -> & _). cbn. lia.
  - cbn [json_dumps json_ok nesting] in *. apply rbind_Ok in Hd as (t' & Ht & Hd). injection Hd as <-.
    apply andb_true_iff in Hok as [Hnd Hok]. apply nodupb_spec in Hnd.
    apply forallb_Forall in Hok. destruct depth as [|depth]; [lia|].
    apply le_S_n, fold_max_le in Hn. apply Forall_map in Hn.
    cbn [app read_value Z.eqb Pos.eqb orb]. rewrite -app_assoc. cbn [app].
    destruct d as [|kv d].
    + injection Ht as <-. cbn. by rewrite Hhook.
    + assert (exists r, t' = 34 :: r) as (r & ->).
      { cbn [rmap_join] in Ht. destruct d as [|w d]; [|apply rbind_Ok in Ht as (a & Ha & Ht)]; r_inv;
          unfold json_string; by eexists. }
      cbn [app]. change (skip (34 :: r ++ 125 :: rest)) with (34 :: r ++ 125 :: rest).
      cbn [Z.eqb Pos.eqb]. change (34 :: r ++ 125 :: rest) with ((34 :: r) ++ 125 :: rest).
      rewrite (read_members_join o hook depth (kv :: d)) //; [|cbn [rbind]; by rewrite Hhook].
      apply (join_length (member_text o)) in Ht; [rewrite length_app; lia|].
      intros x tx Hx Hdx. unfold member_text in Hdx. r_inv. cbn. lia.
Qed.

Lemma loads_dumps o hook rec_limit v t :
  (forall d, NoDup (map fst d) -> hook d = Ok (VDict d)) ->
  json_ok v = true -> (nesting v <= rec_limit)%nat -> json_dumps o v = Ok t ->
  json_loads hook rec_limit t = Ok v.
Proof.
  intros Hhook Hok Hn Hd.
  pose proof (read_value_dumps o hook v Hhook rec_limit t [] Hok Hd Hn I) as Hr.
  rewrite app_nil_r in Hr. destruct (dumps_start o v t Hok Hd) as (c & t' & -> & Hc).
  unfold json_loads. rewrite skip_start // Hr.
  assert ((c =? 0xFEFF) = false) as -> by (unfold value_start, is_digit, char_in in Hc; cbn in Hc; lia).
  done.
Qed.

Lemma dict_set_fresh k v d : k ∉ map fst d -> dict_set k v d = d ++ [(k, v)].
Proof.
  induction d as [|[k' v'] d IH]; [done|]. cbn. rewrite not_elem_of_cons. intros [Hk Hd].
  apply str_eqb_neq in Hk. by rewrite Hk IH.
Qed.

Lemma plain_hook_nodup d : NoDup (map fst d) -> plain_hook d = Ok (VDict d).
Proof.
  unfold plain_hook. intros Hd. do 2 f_equal.
  assert (Hgen : forall acc, NoDup (map fst (acc ++ d)) ->
    foldl (fun d kv => dict_set kv.1 kv.2 d) acc d = acc ++ d); [|by apply (Hgen [])].
  clear Hd. induction d as [|[k v] d IH]; intros acc Hacc; cbn [foldl]; [by rewrite app_nil_r|].
  rewrite dict_set_fresh.
  { rewrite map_app in Hacc. apply NoDup_app in Hacc as (_ & Hx & _). intros Hin.
    by apply (Hx k Hin); left. }
  rewrite IH -app_assoc //.
Qed.

(** ** What the printer writes *)
Definition printable (c : Z) : bool := is_scalar c && (32 <=? c).

Lemma number_char_printable t : forallb number_char t = true -> forallb printable t = true.
Proof.
  intros H. apply forallb_forall. intros c Hc. rewrite forallb_forall in H. specialize (H c Hc).
  unfold number_char, char_in, is_digit in H. cbn [existsb] in H.
  unfold printable, is_scalar, is_surrogate. lia.
Qed.

Lemma hex4_printable c : forallb printable (hex4 c) = true.
Proof.
  unfold hex4. cbn [forallb].
  assert (Hd : forall x, printable (hex_digit (x mod 16)) = true).
  { intros x. pose proof (Z.mod_pos_bound x 16 ltac:(lia)).
    unfold hex_digit. destruct (Z.ltb_spec (x mod 16) 10);
      unfold printable, is_scalar, is_surrogate; lia. }
  by rewrite !Hd.
Qed.

Lemma escape_char_printable ascii c : is_scalar c = true ->
  forallb printable (escape_char ascii c) = true.
Proof.
  intros Hc. unfold escape_char, unicode_escape.
  repeat match goal with |- context [if ?b then [92; _] else _] => destruct b; [done|] end.
  destruct ((0 <=? c) && (c <? 32)) eqn:E1; [cbn [forallb]; by rewrite hex4_printable|].
  destruct (ascii && (126 <? c)).
  - destruct (c <? 0x10000); [cbn [forallb]; by rewrite hex4_printable|].
    rewrite forallb_app. cbn [forallb]. by rewrite !hex4_printable.
  - cbn [forallb]. unfold printable. rewrite Hc. cbn [andb]. unfold is_scalar in Hc. lia.
Qed.

Lemma json_string_printable ascii s : forallb is_scalar s = true ->
  forallb printable (json_string ascii s) = true.
Proof.
  intros Hs. unfold json_string. simpl forallb. rewrite forallb_app andb_true_r.
  change (printable 34 && forallb printable (flat_map (escape_char ascii) s) = true).
  simpl andb. induction s as [|c s IH]; [done|]. simpl in Hs. apply andb_true_iff in Hs as [Hc Hs].
  cbn [flat_map]. rewrite forallb_app escape_char_printable // IH //.
Qed.

Lemma str_of_int_chars z : forallb number_char (str_of_int z) = true.
Proof.
  unfold str_of_int. destruct (Z.ltb_spec z 0).
  - simpl. apply digits_number_char, (dm_digits _ (- z)), digits_spec. lia.
  - apply digits_number_char, (dm_digits _ z), digits_spec. lia.
Qed.

(** Integers whose text is well within the interpreter's limit. *)
Fixpoint ints_small (v : pyval) : bool :=
  match v with
  | VInt z => Z.abs z <? 10 ^ 100
  | VList l => forallb ints_small l
  | VDict d => forallb (fun kv => ints_small kv.2) d
  | _ => true
  end.

Lemma int_text_small z : Z.abs z < 10 ^ 100 -> int_text z = Ok (str_of_int z).
Proof.
  intros Hz. unfold int_text.
  assert (4300 <? len (digits (Z.abs z)) = false) as ->; [|done].
  pose proof (digits_spec (Z.abs z) ltac:(lia)) as Hd.
  assert (length (digits (Z.abs z)) <= 100)%nat by (by eapply decimal_len; [exact Hd| |lia]).
  unfold len. lia.
Qed.

Lemma rmap_join_total {A} (f : A -> result pystr) l :
  Forall (fun x => exists t, f x = Ok t /\ forallb printable t = true) l ->
  exists t, rmap_join f l = Ok t /\ forallb printable t = true.
Proof.
  induction l as [|x l IH]; intros Hl; [by exists []|].
  inversion Hl as [|? ? (t & Ht & Hp) Hl']; subst. cbn [rmap_join].
  destruct l as [|y l]; [by exists t|]. destruct (IH Hl') as (t' & Ht' & Hp').
  rewrite Ht Ht'. eexists. split; [done|]. by rewrite forallb_app Hp /= Hp'.
Qed.

Lemma Forall_impl_3 {A} (P Q R S : A -> Prop) l :
  (forall x, P x -> Q x -> R x -> S x) -> Forall P l -> Forall Q l -> Forall R l -> Forall S l.
Proof. intros H HP HQ HR. rewrite !Forall_forall in HP, HQ, HR |- *. eauto. Qed.

(** Printing succeeds, and writes neither control characters nor surrogates. *)
Lemma dumps_total o v : json_ok v = true -> ints_small v = true ->
  exists t, json_dumps o v = Ok t /\ forallb printable t = true.
Proof.
  induction v as [|b|z|f|s|l IH|d IH] using pyval_nested_ind; cbn [json_ok ints_small json_dumps];
    intros Hok Hi.
  - by eexists.
  - by destruct b; eexists.
  - apply Z.ltb_lt in Hi. rewrite int_text_small //. eexists. split; [done|].
    apply number_char_printable, str_of_int_chars.
  - destruct f as [neg m e| |]; [|done..]. eexists. split; [done|].
    by apply number_char_printable, float_repr_chars.
  - eexists. split; [done|]. by apply json_string_printable.
  - apply forallb_Forall in Hok, Hi.
    destruct (rmap_join_total (json_dumps o) l) as (t & -> & Ht).
    { eapply Forall_impl_3; [|exact IH|exact Hok|exact Hi]. cbn. auto. }
    eexists. split; [done|]. cbn [rbind]. simpl. by rewrite forallb_app Ht.
  - apply andb_true_iff in Hok as [_ Hok]. apply forallb_Forall in Hok, Hi.
    destruct (rmap_join_total (member_text o) d) as (t & Ht & Hp).
    { eapply Forall_impl_3; [|exact IH|exact Hok|exact Hi]. cbn.
      intros [k v] Hv [Hk Hvok]%andb_true_iff Hvi. destruct (Hv Hvok Hvi) as (t & Ht & Hp).
      unfold member_text. cbn [fst snd] in *. rewrite Ht. eexists. split; [done|].
      by rewrite forallb_app json_string_printable //= Hp. }
    unfold member_text in Ht. rewrite Ht. eexists. split; [done|]. cbn [rbind]. simpl.
    by rewrite forallb_app Hp.
Qed.

Lemma printable_encodes t : forallb printable t = true ->
  utf8_encode t = Ok (flat_map utf8_char t) /\ 10 ∉ flat_map utf8_char t.
Proof.
  intros Hp. assert (forallb is_scalar t = true) as Hs.
  { apply forallb_forall. intros c Hc. rewrite forallb_forall in Hp.
    by apply Hp, andb_true_iff in Hc as [? _]. }
  split; [unfold utf8_encode; by rewrite Hs|].
  intros Hin. apply list_elem_of_In, in_flat_map in Hin as (c & Hc & Hin).
  rewrite forallb_forall in Hp. specialize (Hp c Hc). unfold printable, is_scalar in Hp.
  unfold utf8_char in Hin.
  pose proof (Z.mod_pos_bound c 64 ltac:(lia)). pose proof (Z.mod_pos_bound (c / 64) 64 ltac:(lia)).
  pose proof (Z.mod_pos_bound (c / 4096) 64 ltac:(lia)).
  assert (0 <= c / 64) by (apply Z.div_pos; lia). assert (0 <= c / 4096) by (apply Z.div_pos; lia).
  assert (0 <= c / 262144) by (apply Z.div_pos; lia).
  repeat case_match; cbn in Hin; naive_solver lia.
Qed.
