(* ===== verification/Model.v ===== *)
(** * The persisted data model ([model.py])

    The dataclasses with their [__post_init__] validation, and the conversions
    between records and dictionaries.  A dataclass field that Python annotates
    with a type has that type here; the validation that remains is the one that
    can still fail for a value of the type.  Values that come from outside are
    [pyval]s, and every decoder checks them in the order of the source. *)
From S2P Require Import Prelude PyVal.

Definition SCHEMA_VERSION : Z := 1.
Definition MAX_COMMAND_CHARS : Z := 3072.
Definition MAX_PATH_CHARS : Z := 768.
Definition MAX_ID_CHARS : Z := 128.
Definition MAX_OUTCOME_MESSAGE_CHARS : Z := 160.
Definition MAX_DIAGNOSTIC_CHARS : Z := 160.
Definition MAX_ITEMS : Z := 256.

(** ** Enumerations *)
Inductive RestorationLevel := EXACT | RECONSTRUCTED | PARTIAL | UNAVAILABLE.
Inductive TerminationKind := EXPLICIT_EXIT | AMBIGUOUS.
Inductive CommandDisposition := REPLAYABLE | REDACTED | UNSAFE | UNREPRESENTABLE.
Inductive OutcomeKind := SUCCESS | WARNING | SKIP | FAILURE.

(** A [StrEnum]: its members in order, and the value of each. *)
Class StrEnum (A : Type) := {
  enum_members : list A;
  enum_value : A -> pystr;
}.

(** [enum_type(text)]: the member whose value is [text]. *)
Definition enum_of_value {A} `{StrEnum A} (text : pystr) : option A :=
  find (fun x => str_eqb (enum_value x) text) enum_members.

#[export] Instance RestorationLevel_enum : StrEnum RestorationLevel := {|
  enum_members := [EXACT; RECONSTRUCTED; PARTIAL; UNAVAILABLE];
  enum_value x := match x with
    | EXACT => u "exact" | RECONSTRUCTED => u "reconstructed"
    | PARTIAL => u "partial" | UNAVAILABLE => u "unavailable" end
|}.

#[export] Instance TerminationKind_enum : StrEnum TerminationKind := {|
  enum_members := [EXPLICIT_EXIT; AMBIGUOUS];
  enum_value x := match x with EXPLICIT_EXIT => u "explicit_exit" | AMBIGUOUS => u "ambiguous" end
|}.

#[export] Instance CommandDisposition_enum : StrEnum CommandDisposition := {|
  enum_members := [REPLAYABLE; REDACTED; UNSAFE; UNREPRESENTABLE];
  enum_value x := match x with
    | REPLAYABLE => u "replayable" | REDACTED => u "redacted"
    | UNSAFE => u "unsafe" | UNREPRESENTABLE => u "unrepresentable" end
|}.

#[export] Instance OutcomeKind_enum : StrEnum OutcomeKind := {|
  enum_members := [SUCCESS; WARNING; SKIP; FAILURE];
  enum_value x := match x with
    | SUCCESS => u "success" | WARNING => u "warning"
    | SKIP => u "skip" | FAILURE => u "failure" end
|}.

(** The laws an enumeration obeys: distinct values, every member listed, values
    short enough for [_enum] and free of characters a decoder refuses. *)
Class StrEnumLaws (A : Type) `{StrEnum A} := {
  enum_of_value_value : forall x : A, enum_of_value (enum_value x) = Some x;
  enum_value_len : forall x : A, 0 < len (enum_value x) <= MAX_ID_CHARS;
  enum_value_plain : forall x : A, forallb (fun c => (32 <=? c) && (c <? 127)) (enum_value x) = true;
}.

#[export] Instance RestorationLevel_eq_dec : EqDecision RestorationLevel.
Proof. solve_decision. Defined.
#[export] Instance TerminationKind_eq_dec : EqDecision TerminationKind.
Proof. solve_decision. Defined.
#[export] Instance CommandDisposition_eq_dec : EqDecision CommandDisposition.
Proof. solve_decision. Defined.
#[export] Instance OutcomeKind_eq_dec : EqDecision OutcomeKind.
Proof. solve_decision. Defined.

(** ** Primitive validators *)
Definition _require_bounded_string (value : pystr) (context : pystr) (maximum : Z) : result unit :=
  raise_if (maximum <? len value)
    (ValueError (context ++ u " exceeds maximum length " ++ str_of_int maximum)).

Definition _require_non_negative_integer (value : Z) (context : pystr) : result unit :=
  raise_if (value <? 0) (ValueError (context ++ u " must be non-negative")).

Definition _require_schema_one (version : Z) : result unit :=
  raise_if (negb (version =? SCHEMA_VERSION))
    (ValueError (u "unsupported schema version " ++ str_of_int version ++ u "; reader supports 1")).

Definition _require_finite_number (value : pynum) (context : pystr) : result unit :=
  let? fin := isfinite value in
  raise_if (negb fin) (ValueError (context ++ u " must be finite")).

Definition _require_bounded_sequence {A} (value : list A) (context : pystr) : result unit :=
  raise_if (MAX_ITEMS <? len value)
    (ValueError (context ++ u " exceeds maximum items " ++ str_of_int MAX_ITEMS)).

Definition _require_unique (values : list pystr) (context : pystr) : result unit :=
  raise_if (negb (nodupb values)) (ValueError (u "duplicate " ++ context)).

(** ** Readers of dynamically typed values *)
Definition _mapping (value : pyval) (context : pystr) : result pydict :=
  match value with
  | VDict d => Ok d
  | _ => Err (ValueError (context ++ u " must be an object"))
  end.

Definition _sequence (value : pyval) (context : pystr) : result (list pyval) :=
  match value with
  | VList l => _require_bounded_sequence l context ;? Ok l
  | _ => Err (ValueError (context ++ u " must be an array"))
  end.

Definition _string (value : pyval) (context : pystr) : result pystr :=
  match value with
  | VStr s => Ok s
  | _ => Err (ValueError (context ++ u " must be a string"))
  end.

Definition _bounded_string (value : pyval) (context : pystr) (maximum : Z) : result pystr :=
  let? text := _string value context in
  _require_bounded_string text context maximum ;? Ok text.

Definition _integer (value : pyval) (context : pystr) : result Z :=
  match value with
  | VInt z => Ok z
  | _ => Err (ValueError (context ++ u " must be an integer"))
  end.

Definition _number (value : pyval) (context : pystr) : result pyfloat :=
  match value with
  | VInt z => _require_finite_number (NInt z) context ;? float_of_int z
  | VFloat f => _require_finite_number (NFloat f) context ;? Ok f
  | _ => Err (ValueError (context ++ u " must be a number"))
  end.

Definition _boolean (value : pyval) (context : pystr) : result bool :=
  match value with
  | VBool b => Ok b
  | _ => Err (ValueError (context ++ u " must be a boolean"))
  end.

Definition _enum {A} `{StrEnum A} (value : pyval) (context : pystr) : result A :=
  let? text := _bounded_string value context MAX_ID_CHARS in
  result_of_option (enum_of_value text) (ValueError (u "invalid " ++ context ++ u ": " ++ text)).

Definition _require_exact_keys (payload : pydict) (expected : list pystr) (context : pystr)
  : result unit :=
  let unknown := key_diff (dict_keys payload) expected in
  let missing := key_diff expected (dict_keys payload) in
  raise_if (negb (bool_decide (unknown = [])))
    (ValueError (u "unknown keys in " ++ context ++ u ": " ++ join (u ", ") (sorted_strs unknown))) ;?
  raise_if (negb (bool_decide (missing = [])))
    (ValueError (u "missing keys in " ++ context ++ u ": " ++ join (u ", ") (sorted_strs missing))).

Definition _read_schema_version (payload : pydict) : result Z :=
  raise_if (negb (str_in (u "schema_version") (dict_keys payload)))
    (ValueError (u "missing keys in schema: schema_version")) ;?
  let? raw := dict_index payload (u "schema_version") in
  let? version := _integer raw (u "schema_version") in
  _require_schema_one version ;? Ok version.

(** ** Records and their [__post_init__] *)
Record ProcessIdentity := mkIdentity {
  boot_id : pystr;
  pid : Z;
  start_time : Z;
}.

Definition identity_post_init (x : ProcessIdentity) : result unit :=
  _require_bounded_string (boot_id x) (u "boot_id") MAX_ID_CHARS ;?
  raise_if (pid x <=? 0) (ValueError (u "pid must be positive")) ;?
  raise_if (start_time x <? 0) (ValueError (u "start_time must be non-negative")).

Record CommandRecord := mkCommand {
  cmd_sequence : Z;
  display : pystr;
  executable : option pystr;
  disposition : CommandDisposition;
  active : bool;
}.

Definition display_limit (d : CommandDisposition) : Z :=
  if decide (d = REDACTED) then MAX_DIAGNOSTIC_CHARS else MAX_COMMAND_CHARS.

Definition command_post_init (x : CommandRecord) : result unit :=
  _require_non_negative_integer (cmd_sequence x) (u "command sequence") ;?
  _require_bounded_string (display x) (u "display") (display_limit (disposition x)) ;?
  match executable x with
  | Some e => _require_bounded_string e (u "executable") MAX_COMMAND_CHARS
  | None => Ok tt
  end ;?
  if decide (disposition x = REPLAYABLE) then
    raise_if (negb (active x)) (ValueError (u "completed command cannot be replayable")) ;?
    raise_if (bool_decide (executable x = None))
      (ValueError (u "active replayable command requires executable body"))
  else Ok tt.

Record ShellRecord := mkShell {
  shell_id : pystr;
  identity : ProcessIdentity;
  adapter : pystr;
  cwd : pystr;
  last_sequence : Z;
  command : option CommandRecord;
  termination : option TerminationKind;
}.

Definition shell_post_init (x : ShellRecord) : result unit :=
  _require_bounded_string (shell_id x) (u "shell_id") MAX_ID_CHARS ;?
  _require_bounded_string (adapter x) (u "adapter") MAX_ID_CHARS ;?
  _require_bounded_string (cwd x) (u "cwd") MAX_PATH_CHARS ;?
  _require_non_negative_integer (last_sequence x) (u "last_sequence").

Record Outcome := mkOutcome {
  out_item_id : pystr;
  out_kind : OutcomeKind;
  out_message : pystr;
}.

Definition outcome_post_init (x : Outcome) : result unit :=
  _require_bounded_string (out_item_id x) (u "item_id") MAX_ID_CHARS ;?
  _require_bounded_string (out_message x) (u "message") MAX_OUTCOME_MESSAGE_CHARS.

Record RestoreAttempt := mkAttempt {
  attempt_id : pystr;
  att_workspace_id : pystr;
  selected_item_ids : list pystr;
  approved_item_ids : list pystr;
  outcomes : list Outcome;
}.

Definition attempt_post_init (x : RestoreAttempt) : result unit :=
  _require_bounded_string (attempt_id x) (u "attempt_id") MAX_ID_CHARS ;?
  _require_bounded_string (att_workspace_id x) (u "workspace_id") MAX_ID_CHARS ;?
  _require_bounded_sequence (selected_item_ids x) (u "selected_item_ids") ;?
  _require_bounded_sequence (approved_item_ids x) (u "approved_item_ids") ;?
  _require_bounded_sequence (outcomes x) (u "outcomes") ;?
  rforeach (fun i => _require_bounded_string i (u "selected item ID") MAX_ID_CHARS)
    (selected_item_ids x) ;?
  rforeach (fun i => _require_bounded_string i (u "approved item ID") MAX_ID_CHARS)
    (approved_item_ids x) ;?
  _require_unique (selected_item_ids x) (u "selected item ID") ;?
  _require_unique (approved_item_ids x) (u "approved item ID") ;?
  raise_if (negb (subsetb (approved_item_ids x) (selected_item_ids x)))
    (ValueError (u "approved item must be selected")) ;?
  raise_if (existsb (fun o => negb (str_in (out_item_id o) (selected_item_ids x))) (outcomes x))
    (ValueError (u "outcome item must be selected")) ;?
  _require_unique (map out_item_id (outcomes x)) (u "outcome item ID").

Record Snapshot := mkSnapshot {
  schema_version : Z;
  generation : Z;
  captured_at : pynum;
  shells : list ShellRecord;
}.

Definition snapshot_post_init (x : Snapshot) : result unit :=
  _require_schema_one (schema_version x) ;?
  _require_non_negative_integer (generation x) (u "generation") ;?
  _require_finite_number (captured_at x) (u "captured_at") ;?
  _require_bounded_sequence (shells x) (u "shells").

Record RecoveryItemRecord := mkItemRecord {
  rec_item_id : pystr;
  rec_shell : ShellRecord;
  rec_reason : pystr;
}.

Definition item_record_post_init (x : RecoveryItemRecord) : result unit :=
  _require_bounded_string (rec_item_id x) (u "item_id") MAX_ID_CHARS ;?
  _require_bounded_string (rec_reason x) (u "reason") MAX_DIAGNOSTIC_CHARS.

Record RecoveryRecord := mkRecovery {
  rec_schema_version : Z;
  workspace_id : pystr;
  source_generation : Z;
  created_at : pynum;
  items : list RecoveryItemRecord;
  attempts : list RestoreAttempt;
  completed_item_ids : list pystr;
}.

(** [outcome.kind in (SUCCESS, WARNING)] *)
Definition is_terminal (k : OutcomeKind) : bool :=
  match k with SUCCESS | WARNING => true | SKIP | FAILURE => false end.

Definition terminal_item_ids (atts : list RestoreAttempt) : list pystr :=
  a ← atts; map out_item_id (filter (fun o => is_terminal (out_kind o) = true) (outcomes a)).

Definition recovery_post_init (x : RecoveryRecord) : result unit :=
  _require_schema_one (rec_schema_version x) ;?
  _require_bounded_string (workspace_id x) (u "workspace_id") MAX_ID_CHARS ;?
  _require_non_negative_integer (source_generation x) (u "source_generation") ;?
  _require_finite_number (created_at x) (u "created_at") ;?
  _require_bounded_sequence (items x) (u "items") ;?
  _require_bounded_sequence (attempts x) (u "attempts") ;?
  _require_bounded_sequence (completed_item_ids x) (u "completed_item_ids") ;?
  rforeach (fun i => _require_bounded_string i (u "completed item ID") MAX_ID_CHARS)
    (completed_item_ids x) ;?
  _require_unique (map rec_item_id (items x)) (u "recovery item ID") ;?
  _require_unique (map attempt_id (attempts x)) (u "restore attempt ID") ;?
  _require_unique (completed_item_ids x) (u "completed item ID") ;?
  raise_if (negb (subsetb (completed_item_ids x) (map rec_item_id (items x))))
    (ValueError (u "completed item must exist in recovery items")) ;?
  rforeach (fun a =>
      raise_if (negb (str_eqb (att_workspace_id a) (workspace_id x)))
        (ValueError (u "restore attempt workspace does not match recovery workspace")) ;?
      raise_if (negb (subsetb (selected_item_ids a) (map rec_item_id (items x))))
        (ValueError (u "selected item must exist in recovery items")))
    (attempts x) ;?
  raise_if (negb (subsetb (completed_item_ids x) (terminal_item_ids (attempts x))))
    (ValueError (u "completed item lacks terminal outcome")).

(** Calling the dataclass: [__init__] then [__post_init__]. *)
Definition construct {A} (post_init : A -> result unit) (x : A) : result A :=
  post_init x ;? Ok x.

Definition new_ProcessIdentity b p s := construct identity_post_init (mkIdentity b p s).
Definition new_CommandRecord s d e k a := construct command_post_init (mkCommand s d e k a).
Definition new_ShellRecord i p a c l cm t := construct shell_post_init (mkShell i p a c l cm t).
Definition new_Outcome i k m := construct outcome_post_init (mkOutcome i k m).
Definition new_RestoreAttempt a w s ap o := construct attempt_post_init (mkAttempt a w s ap o).
Definition new_Snapshot v g c s := construct snapshot_post_init (mkSnapshot v g c s).
Definition new_RecoveryItemRecord i s r := construct item_record_post_init (mkItemRecord i s r).
Definition new_RecoveryRecord v w g c i a d :=
  construct recovery_post_init (mkRecovery v w g c i a d).

(** ** Encoders *)
Definition _identity_to_dict (x : ProcessIdentity) : pyval :=
  VDict [(u "boot_id", VStr (boot_id x)); (u "pid", VInt (pid x));
         (u "start_time", VInt (start_time x))].

Definition _command_to_dict (x : CommandRecord) : pyval :=
  VDict [(u "sequence", VInt (cmd_sequence x)); (u "display", VStr (display x));
         (u "executable", opt_val VStr (executable x));
         (u "disposition", VStr (enum_value (disposition x)));
         (u "active", VBool (active x))].

Definition _shell_to_dict (x : ShellRecord) : pyval :=
  VDict [(u "shell_id", VStr (shell_id x)); (u "identity", _identity_to_dict (identity x));
         (u "adapter", VStr (adapter x)); (u "cwd", VStr (cwd x));
         (u "last_sequence", VInt (last_sequence x));
         (u "command", opt_val _command_to_dict (command x));
         (u "termination", opt_val (fun t => VStr (enum_value t)) (termination x))].

Definition _outcome_to_dict (x : Outcome) : pyval :=
  VDict [(u "item_id", VStr (out_item_id x)); (u "kind", VStr (enum_value (out_kind x)));
         (u "message", VStr (out_message x))].

Definition _attempt_to_dict (x : RestoreAttempt) : pyval :=
  VDict [(u "attempt_id", VStr (attempt_id x)); (u "workspace_id", VStr (att_workspace_id x));
         (u "selected_item_ids", str_list_val (selected_item_ids x));
         (u "approved_item_ids", str_list_val (approved_item_ids x));
         (u "outcomes", VList (map _outcome_to_dict (outcomes x)))].

Definition _recovery_item_to_dict (x : RecoveryItemRecord) : pyval :=
  VDict [(u "item_id", VStr (rec_item_id x)); (u "shell", _shell_to_dict (rec_shell x));
         (u "reason", VStr (rec_reason x))].

Definition snapshot_to_dict (x : Snapshot) : result pyval :=
  _require_schema_one (schema_version x) ;?
  Ok (VDict [(u "schema_version", VInt (schema_version x)); (u "generation", VInt (generation x));
             (u "captured_at", num_val (captured_at x));
             (u "shells", VList (map _shell_to_dict (shells x)))]).

Definition recovery_to_dict (x : RecoveryRecord) : result pyval :=
  _require_schema_one (rec_schema_version x) ;?
  Ok (VDict [(u "schema_version", VInt (rec_schema_version x));
             (u "workspace_id", VStr (workspace_id x));
             (u "source_generation", VInt (source_generation x));
             (u "created_at", num_val (created_at x));
             (u "items", VList (map _recovery_item_to_dict (items x)));
             (u "attempts", VList (map _attempt_to_dict (attempts x)));
             (u "completed_item_ids", str_list_val (completed_item_ids x))]).

(** ** Decoders *)
Definition _identity_from_dict (value : pyval) : result ProcessIdentity :=
  let? payload := _mapping value (u "identity") in
  _require_exact_keys payload [u "boot_id"; u "pid"; u "start_time"] (u "identity") ;?
  let? v_boot := dict_index payload (u "boot_id") in
  let? boot := _bounded_string v_boot (u "boot_id") MAX_ID_CHARS in
  let? v_pid := dict_index payload (u "pid") in
  let? p := _integer v_pid (u "pid") in
  let? v_start := dict_index payload (u "start_time") in
  let? s := _integer v_start (u "start_time") in
  new_ProcessIdentity boot p s.

Definition _command_from_dict (value : pyval) : result CommandRecord :=
  let? payload := _mapping value (u "command") in
  _require_exact_keys payload
    [u "sequence"; u "display"; u "executable"; u "disposition"; u "active"] (u "command") ;?
  let? v_display := dict_index payload (u "display") in
  let? disp := _bounded_string v_display (u "display") MAX_COMMAND_CHARS in
  let? executable_value := dict_index payload (u "executable") in
  let? exe := match executable_value with
              | VNone => Ok None
              | _ => let? e := _bounded_string executable_value (u "executable") MAX_COMMAND_CHARS in
                     Ok (Some e)
              end in
  let? v_kind := dict_index payload (u "disposition") in
  let? disposition_text := _bounded_string v_kind (u "command disposition") MAX_ID_CHARS in
  let? kind := _enum (A := CommandDisposition) (VStr disposition_text) (u "command disposition") in
  (if decide (kind = REDACTED)
   then _require_bounded_string disp (u "display") MAX_DIAGNOSTIC_CHARS else Ok tt) ;?
  let? v_seq := dict_index payload (u "sequence") in
  let? seq := _integer v_seq (u "command sequence") in
  let? v_active := dict_index payload (u "active") in
  let? act := _boolean v_active (u "active") in
  new_CommandRecord seq disp exe kind act.

Definition _shell_from_dict (value : pyval) : result ShellRecord :=
  let? payload := _mapping value (u "shell") in
  _require_exact_keys payload
    [u "shell_id"; u "identity"; u "adapter"; u "cwd"; u "last_sequence"; u "command";
     u "termination"] (u "shell") ;?
  let? v_id := dict_index payload (u "shell_id") in
  let? sid := _bounded_string v_id (u "shell_id") MAX_ID_CHARS in
  let? v_adapter := dict_index payload (u "adapter") in
  let? ad := _bounded_string v_adapter (u "adapter") MAX_ID_CHARS in
  let? v_cwd := dict_index payload (u "cwd") in
  let? dir := _bounded_string v_cwd (u "cwd") MAX_PATH_CHARS in
  let? termination_value := dict_index payload (u "termination") in
  let? term := match termination_value with
               | VNone => Ok None
               | _ => let? t := _enum (A := TerminationKind) termination_value (u "termination") in
                      Ok (Some t)
               end in
  let? command_value := dict_index payload (u "command") in
  let? v_identity := dict_index payload (u "identity") in
  let? ident := _identity_from_dict v_identity in
  let? v_last := dict_index payload (u "last_sequence") in
  let? last := _integer v_last (u "last_sequence") in
  let? cmd := match command_value with
              | VNone => Ok None
              | _ => let? c := _command_from_dict command_value in Ok (Some c)
              end in
  new_ShellRecord sid ident ad dir last cmd term.

Definition _outcome_from_dict (value : pyval) : result Outcome :=
  let? payload := _mapping value (u "outcome") in
  _require_exact_keys payload [u "item_id"; u "kind"; u "message"] (u "outcome") ;?
  let? v_id := dict_index payload (u "item_id") in
  let? iid := _bounded_string v_id (u "item_id") MAX_ID_CHARS in
  let? v_msg := dict_index payload (u "message") in
  let? msg := _bounded_string v_msg (u "message") MAX_OUTCOME_MESSAGE_CHARS in
  let? v_kind := dict_index payload (u "kind") in
  let? kind := _enum (A := OutcomeKind) v_kind (u "outcome kind") in
  new_Outcome iid kind msg.

Definition _attempt_from_dict (value : pyval) : result RestoreAttempt :=
  let? payload := _mapping value (u "restore attempt") in
  _require_exact_keys payload
    [u "attempt_id"; u "workspace_id"; u "selected_item_ids"; u "approved_item_ids"; u "outcomes"]
    (u "restore attempt") ;?
  let? v_aid := dict_index payload (u "attempt_id") in
  let? aid := _bounded_string v_aid (u "attempt_id") MAX_ID_CHARS in
  let? v_ws := dict_index payload (u "workspace_id") in
  let? ws := _bounded_string v_ws (u "workspace_id") MAX_ID_CHARS in
  let? v_sel := dict_index payload (u "selected_item_ids") in
  let? selected_values := _sequence v_sel (u "selected_item_ids") in
  let? v_app := dict_index payload (u "approved_item_ids") in
  let? approved_values := _sequence v_app (u "approved_item_ids") in
  let? v_out := dict_index payload (u "outcomes") in
  let? outcome_values := _sequence v_out (u "outcomes") in
  let? selected := rmap (fun i => _bounded_string i (u "selected item ID") MAX_ID_CHARS)
                     selected_values in
  let? approved := rmap (fun i => _bounded_string i (u "approved item ID") MAX_ID_CHARS)
                     approved_values in
  let? outs := rmap _outcome_from_dict outcome_values in
  new_RestoreAttempt aid ws selected approved outs.

Definition _recovery_item_from_dict (value : pyval) : result RecoveryItemRecord :=
  let? payload := _mapping value (u "recovery item") in
  _require_exact_keys payload [u "item_id"; u "shell"; u "reason"] (u "recovery item") ;?
  let? v_id := dict_index payload (u "item_id") in
  let? iid := _bounded_string v_id (u "item_id") MAX_ID_CHARS in
  let? v_reason := dict_index payload (u "reason") in
  let? why := _bounded_string v_reason (u "reason") MAX_DIAGNOSTIC_CHARS in
  let? v_shell := dict_index payload (u "shell") in
  let? sh := _shell_from_dict v_shell in
  new_RecoveryItemRecord iid sh why.

Definition snapshot_from_dict (value : pyval) : result Snapshot :=
  let? payload := _mapping value (u "snapshot") in
  let? version := _read_schema_version payload in
  _require_exact_keys payload
    [u "schema_version"; u "generation"; u "captured_at"; u "shells"] (u "snapshot") ;?
  let? v_gen := dict_index payload (u "generation") in
  let? gen := _integer v_gen (u "generation") in
  let? v_at := dict_index payload (u "captured_at") in
  let? at_ := _number v_at (u "captured_at") in
  let? v_shells := dict_index payload (u "shells") in
  let? shell_values := _sequence v_shells (u "shells") in
  let? shs := rmap _shell_from_dict shell_values in
  new_Snapshot version gen (NFloat at_) shs.

Definition recovery_from_dict (value : pyval) : result RecoveryRecord :=
  let? payload := _mapping value (u "recovery") in
  let? version := _read_schema_version payload in
  _require_exact_keys payload
    [u "schema_version"; u "workspace_id"; u "source_generation"; u "created_at"; u "items";
     u "attempts"; u "completed_item_ids"] (u "recovery") ;?
  let? v_ws := dict_index payload (u "workspace_id") in
  let? ws := _bounded_string v_ws (u "workspace_id") MAX_ID_CHARS in
  let? v_items := dict_index payload (u "items") in
  let? items_value := _sequence v_items (u "items") in
  let? v_attempts := dict_index payload (u "attempts") in
  let? attempts_value := _sequence v_attempts (u "attempts") in
  let? v_done := dict_index payload (u "completed_item_ids") in
  let? completed_values := _sequence v_done (u "completed_item_ids") in
  let? completed := rmap (fun i => _bounded_string i (u "completed item ID") MAX_ID_CHARS)
                      completed_values in
  let? v_gen := dict_index payload (u "source_generation") in
  let? gen := _integer v_gen (u "source_generation") in
  let? v_at := dict_index payload (u "created_at") in
  let? at_ := _number v_at (u "created_at") in
  let? its := rmap _recovery_item_from_dict items_value in
  let? atts := rmap _attempt_from_dict attempts_value in
  new_RecoveryRecord version ws gen (NFloat at_) its atts completed.

(** ** Well-formedness: the records whose construction succeeded, all the way down *)
Definition identity_wf (x : ProcessIdentity) : Prop := identity_post_init x = Ok tt.
Definition command_wf (x : CommandRecord) : Prop := command_post_init x = Ok tt.
Definition shell_wf (x : ShellRecord) : Prop :=
  shell_post_init x = Ok tt /\ identity_wf (identity x) /\
  match command x with Some c => command_wf c | None => True end.
Definition outcome_wf (x : Outcome) : Prop := outcome_post_init x = Ok tt.
Definition attempt_wf (x : RestoreAttempt) : Prop :=
  attempt_post_init x = Ok tt /\ Forall outcome_wf (outcomes x).
Definition snapshot_wf (x : Snapshot) : Prop :=
  snapshot_post_init x = Ok tt /\ Forall shell_wf (shells x).
Definition item_record_wf (x : RecoveryItemRecord) : Prop :=
  item_record_post_init x = Ok tt /\ shell_wf (rec_shell x).
Definition recovery_wf (x : RecoveryRecord) : Prop :=
  recovery_post_init x = Ok tt /\ Forall item_record_wf (items x) /\
  Forall attempt_wf (attempts x).

(** The time stamp of a record that was decoded, or that the clock produced. *)
Definition is_float (x : pynum) : Prop := match x with NFloat _ => True | NInt _ => False end.

Definition set_shells (x : Snapshot) (gen : Z) (shs : list ShellRecord) : result Snapshot :=
  new_Snapshot (schema_version x) gen (captured_at x) shs.

(** ** Laws of the enumerations *)
Ltac enum_laws := split; intros []; vm_compute; (reflexivity || (split; congruence) || idtac).

#[export] Instance RestorationLevel_laws : StrEnumLaws RestorationLevel.
Proof. enum_laws. Qed.
#[export] Instance TerminationKind_laws : StrEnumLaws TerminationKind.
Proof. enum_laws. Qed.
#[export] Instance CommandDisposition_laws : StrEnumLaws CommandDisposition.
Proof. enum_laws. Qed.
#[export] Instance OutcomeKind_laws : StrEnumLaws OutcomeKind.
Proof. enum_laws. Qed.

(** A member is the only one with its value. *)
Lemma enum_of_value_inv {A} `{StrEnum A} (text : pystr) (x : A) :
  enum_of_value text = Some x -> enum_value x = text.
Proof.
  unfold enum_of_value. intros Hf.
  apply List.find_some in Hf. destruct Hf as [_ Hf].
  by apply str_eqb_eq in Hf.
Qed.

(** ** Lemmas on the validators *)
Lemma require_exact_keys_Ok d keys ctx v :
  _require_exact_keys d keys ctx = Ok v <-> (forall k, k ∈ dict_keys d <-> k ∈ keys).
Proof.
  unfold _require_exact_keys. destruct v.
  rewrite rbind_Ok. setoid_rewrite raise_if_Ok. setoid_rewrite negb_false_iff.
  setoid_rewrite bool_decide_eq_true. setoid_rewrite key_diff_nil. naive_solver.
Qed.

Lemma exact_keys_self d keys ctx : dict_keys d = keys -> _require_exact_keys d keys ctx = Ok tt.
Proof. intros <-. by apply require_exact_keys_Ok. Qed.

Lemma bounded_string_str s ctx m :
  _bounded_string (VStr s) ctx m = (_require_bounded_string s ctx m ;? Ok s).
Proof. done. Qed.

Lemma enum_self {A} `{StrEnumLaws A} (x : A) ctx : _enum (VStr (enum_value x)) ctx = Ok x.
Proof.
  unfold _enum. rewrite bounded_string_str. unfold _require_bounded_string.
  destruct (enum_value_len x) as [_ Hlen].
  destruct (Z.ltb_spec MAX_ID_CHARS (len (enum_value x))); [lia|].
  cbn. by rewrite enum_of_value_value.
Qed.

Lemma rmap_strs ctx m l :
  rforeach (fun i => _require_bounded_string i ctx m) l = Ok tt ->
  rmap (fun i => _bounded_string i ctx m) (map VStr l) = Ok l.
Proof.
  intros H%rforeach_Ok. apply rmap_map_Ok.
  eapply Forall_impl; [exact H|]. intros s Hs. by rewrite bounded_string_str Hs.
Qed.

Lemma sequence_map {A} (f : A -> pyval) l ctx :
  _sequence (VList (map f l)) ctx =
  (_require_bounded_sequence l ctx ;? Ok (map f l)).
Proof. unfold _sequence, _require_bounded_sequence. by rewrite len_map. Qed.

(** [decode_record] runs a decoder on the dictionary an encoder built: the keys
    are literal, and each check is a hypothesis. *)
Ltac decode_record :=
  repeat first
    [ progress cbn [rbind _mapping _integer _boolean opt_val result_of_option num_val _number
                    raise_if]
    | rewrite (exact_keys_self _ _ _ eq_refl)
    | progress (unfold dict_index at 1; eval_dict)
    | rewrite bounded_string_str
    | rewrite sequence_map
    | rewrite enum_self
    | match goal with H : ?x = Ok tt |- context [rbind ?x _] => rewrite H end
    | match goal with H : ?x = false |- context [raise_if ?x _] => rewrite H end ].

(** [post_inv H] splits the success of a [__post_init__] into its checks. *)
Ltac post_inv H :=
  match type of H with
  | (rbind _ _) = Ok _ =>
      let K := fresh "Hc" in
      apply rbind_Ok in H; destruct H as ([] & K & H); post_inv H
  | _ => idtac
  end.

Lemma construct_Ok {A} (post_init : A -> result unit) x y :
  construct post_init x = Ok y <-> y = x /\ post_init x = Ok tt.
Proof. unfold construct. rewrite rbind_Ok. split; [intros ([] & ? & [=])|]; naive_solver. Qed.

Lemma construct_wf {A} (post_init : A -> result unit) x :
  post_init x = Ok tt -> construct post_init x = Ok x.
Proof. intros H. by apply construct_Ok. Qed.

(** The proof of a round trip: open the checks, run the decoder, rebuild. *)
Ltac roundtrip H enc dec pi :=
  let Hall := fresh "Hall" in
  pose proof H as Hall; unfold pi in H; post_inv H; simpl in H; simpl in *;
  unfold dec, enc; decode_record;
  first [exact (construct_wf _ _ Hall) | idtac].

Lemma identity_roundtrip x : identity_wf x -> _identity_from_dict (_identity_to_dict x) = Ok x.
Proof.
  destruct x as [b p s]. unfold identity_wf. intros H.
  roundtrip H _identity_to_dict _identity_from_dict identity_post_init.
Qed.

Lemma display_limit_le k : display_limit k <= MAX_COMMAND_CHARS.
Proof. by destruct k. Qed.

Lemma command_roundtrip x : command_wf x -> _command_from_dict (_command_to_dict x) = Ok x.
Proof.
  destruct x as [sq d e k a]. unfold command_wf. intros H.
  assert (Hd : _require_bounded_string d (u "display") MAX_COMMAND_CHARS = Ok tt).
  { unfold command_post_init in H. post_inv H. simpl in *.
    unfold _require_bounded_string in *. apply raise_if_Ok. apply raise_if_Ok in Hc0.
    pose proof (display_limit_le k). lia. }
  assert (Hk : forall ctx, _require_bounded_string (enum_value k) ctx MAX_ID_CHARS = Ok tt).
  { intros ctx. apply raise_if_Ok. destruct (enum_value_len k). lia. }
  roundtrip H _command_to_dict _command_from_dict command_post_init.
  assert (Hl : (if decide (k = REDACTED)
                then _require_bounded_string d (u "display") MAX_DIAGNOSTIC_CHARS
                else Ok tt) = Ok tt).
  { unfold display_limit in Hc0. by destruct (decide (k = REDACTED)). }
  destruct e as [e|]; decode_record; rewrite Hk; decode_record; exact (construct_wf _ _ Hall).
Qed.

Lemma shell_roundtrip x : shell_wf x -> _shell_from_dict (_shell_to_dict x) = Ok x.
Proof.
  destruct x as [sid i ad c ls cm t]. unfold shell_wf. intros (H & Hi & Hc). simpl in Hi, Hc.
  roundtrip H _shell_to_dict _shell_from_dict shell_post_init.
  destruct t as [t|]; decode_record; (rewrite identity_roundtrip; [done|]); decode_record;
    (destruct cm as [cm|]; [rewrite command_roundtrip; [done|]|]); decode_record;
    exact (construct_wf _ _ Hall).
Qed.

Lemma outcome_roundtrip x : outcome_wf x -> _outcome_from_dict (_outcome_to_dict x) = Ok x.
Proof.
  destruct x as [i k m]. unfold outcome_wf. intros H.
  roundtrip H _outcome_to_dict _outcome_from_dict outcome_post_init.
Qed.

Lemma attempt_roundtrip x : attempt_wf x -> _attempt_from_dict (_attempt_to_dict x) = Ok x.
Proof.
  destruct x as [a w s ap o]. unfold attempt_wf. intros [H Ho]. simpl in Ho.
  pose proof H as Hall. unfold attempt_post_init in H. post_inv H. simpl in *.
  unfold _attempt_from_dict, _attempt_to_dict, str_list_val.
  cbn [attempt_id att_workspace_id selected_item_ids approved_item_ids outcomes]. decode_record.
  rewrite !rmap_strs //. decode_record.
  rewrite (rmap_map_Ok _outcome_to_dict).
  { eapply Forall_impl; [exact Ho|]. apply outcome_roundtrip. }
  decode_record. exact (construct_wf _ _ Hall).
Qed.

Lemma recovery_item_roundtrip x :
  item_record_wf x -> _recovery_item_from_dict (_recovery_item_to_dict x) = Ok x.
Proof.
  destruct x as [i s r]. unfold item_record_wf. intros [H Hs]. simpl in Hs.
  roundtrip H _recovery_item_to_dict _recovery_item_from_dict item_record_post_init.
  rewrite shell_roundtrip; [done|]. decode_record. exact (construct_wf _ _ Hall).
Qed.

Lemma read_schema_version_lit v d :
  _require_schema_one v = Ok tt -> _read_schema_version ((u "schema_version", VInt v) :: d) = Ok v.
Proof.
  intros H. unfold _read_schema_version, dict_index. rewrite dict_get_cons_eq.
  assert (str_in (u "schema_version") (dict_keys ((u "schema_version", VInt v) :: d)) = true)
    as -> by (apply str_in_spec; left).
  cbn [negb raise_if rbind result_of_option _integer]. by rewrite H.
Qed.

(** Every constructed value satisfies its class invariant, whatever was decoded. *)
Ltac construct_inv :=
  match goal with
  | H : context [construct ?p _] |- _ => apply construct_Ok in H; destruct H as [-> H]; try exact H
  end.

Lemma identity_decoded v x : _identity_from_dict v = Ok x -> identity_wf x.
Proof. unfold _identity_from_dict, new_ProcessIdentity. intros H. r_inv. construct_inv. Qed.

Lemma command_decoded v x : _command_from_dict v = Ok x -> command_wf x.
Proof. unfold _command_from_dict, new_CommandRecord. intros H. r_inv. construct_inv. Qed.

Lemma shell_decoded v x : _shell_from_dict v = Ok x -> shell_wf x.
Proof.
  unfold _shell_from_dict, new_ShellRecord. intros H. r_inv.
  construct_inv. split; [done|]. simpl.
  repeat match goal with
  | H : _identity_from_dict _ = Ok _ |- _ => apply identity_decoded in H
  | H : match ?v with _ => _ end = Ok ?o |- context [match ?o with _ => _ end] =>
      destruct v; r_inv
  | H : _command_from_dict _ = Ok _ |- _ => apply command_decoded in H
  end; done.
Qed.

Lemma outcome_decoded v x : _outcome_from_dict v = Ok x -> outcome_wf x.
Proof. unfold _outcome_from_dict, new_Outcome. intros H. r_inv. construct_inv. Qed.

Lemma rmap_decoded {A} (f : pyval -> result A) (P : A -> Prop) l r :
  (forall v x, f v = Ok x -> P x) -> rmap f l = Ok r -> Forall P r.
Proof. intros Hf H%rmap_Ok. induction H; constructor; eauto. Qed.

Lemma attempt_decoded v x : _attempt_from_dict v = Ok x -> attempt_wf x.
Proof.
  unfold _attempt_from_dict, new_RestoreAttempt. intros H. r_inv. construct_inv.
  split; [done|]. eapply rmap_decoded; [apply outcome_decoded|eassumption].
Qed.

Lemma recovery_item_decoded v x : _recovery_item_from_dict v = Ok x -> item_record_wf x.
Proof.
  unfold _recovery_item_from_dict, new_RecoveryItemRecord. intros H. r_inv. construct_inv.
  split; [done|]. eapply shell_decoded; eassumption.
Qed.

Lemma snapshot_decoded v x : snapshot_from_dict v = Ok x -> snapshot_wf x /\ is_float (captured_at x).
Proof.
  unfold snapshot_from_dict, new_Snapshot. intros H. r_inv. construct_inv.
  split; [|done]. split; [done|]. eapply rmap_decoded; [apply shell_decoded|eassumption].
Qed.

Lemma recovery_decoded v x : recovery_from_dict v = Ok x -> recovery_wf x /\ is_float (created_at x).
Proof.
  unfold recovery_from_dict, new_RecoveryRecord. intros H. r_inv. construct_inv.
  split; [|done]. split; [done|].
  split; (eapply rmap_decoded; [|eassumption]); [apply recovery_item_decoded|apply attempt_decoded].
Qed.

Lemma snapshot_encoded x d : snapshot_wf x -> is_float (captured_at x) ->
  snapshot_to_dict x = Ok d -> snapshot_from_dict d = Ok x.
Proof.
  destruct x as [v g c s]. intros [H Hs] Hf Hd. simpl in Hs, Hf.
  destruct c as [|f]; [done|]. unfold snapshot_to_dict in Hd. r_inv.
  pose proof H as Hall. unfold snapshot_post_init in H. post_inv H. simpl in *.
  unfold snapshot_from_dict. cbn [_mapping rbind].
  rewrite read_schema_version_lit //. decode_record.
  rewrite (rmap_map_Ok _shell_to_dict).
  { eapply Forall_impl; [exact Hs|]. apply shell_roundtrip. }
  decode_record. exact (construct_wf _ _ Hall).
Qed.

Lemma recovery_encoded x d : recovery_wf x -> is_float (created_at x) ->
  recovery_to_dict x = Ok d -> recovery_from_dict d = Ok x.
Proof.
  destruct x as [v w g c i a k]. intros (H & Hi & Ha) Hf Hd. simpl in Hi, Ha, Hf.
  destruct c as [|f]; [done|]. unfold recovery_to_dict in Hd. r_inv.
  pose proof H as Hall. unfold recovery_post_init in H. post_inv H. simpl in *.
  unfold recovery_from_dict, str_list_val. cbn [_mapping rbind].
  rewrite read_schema_version_lit //. decode_record. rewrite rmap_strs //. decode_record.
  rewrite (rmap_map_Ok _recovery_item_to_dict).
  { eapply Forall_impl; [exact Hi|]. apply recovery_item_roundtrip. }
  decode_record. rewrite (rmap_map_Ok _attempt_to_dict).
  { eapply Forall_impl; [exact Ha|]. apply attempt_roundtrip. }
  decode_record. exact (construct_wf _ _ Hall).
Qed.
