(* ===== verification/Shlex.v ===== *)
(** * Shell-like lexing ([shlex.split], POSIX mode)

    The lexer the program calls as [shlex.split(command, posix=True)]: white
    space splits words, comments are off, and there is no punctuation class.
    One state machine over the characters; [SQuote q] is the lexer's state [q],
    [SEscape r] its state backslash with [escapedstate = r]. *)
From S2P Require Import Prelude.

Inductive ret_state := RWord | RQuote (q : Z).
Inductive lex_state :=
| SSpace                 (* between words *)
| SWord                  (* inside a word, outside quotes *)
| SQuote (q : Z)         (* inside quotes *)
| SEscape (r : ret_state).

Definition SQ : Z := 39.    (* ' *)
Definition DQ : Z := 34.    (* the double quote *)
Definition BS : Z := 92.    (* \ *)

Definition lex_space (c : Z) : bool := (c =? 32) || (c =? 9) || (c =? 13) || (c =? 10).
Definition is_quote (c : Z) : bool := (c =? SQ) || (c =? DQ).

(** [tok] is the current word, reversed; [acc] the finished words, reversed. *)
Fixpoint shlex_go (st : lex_state) (tok : pystr) (acc : list pystr) (s : pystr) : result (list pystr) :=
  match st with
  | SSpace =>
      match s with
      | [] => Ok (rev acc)
      | c :: s' =>
          if lex_space c then shlex_go SSpace [] acc s'
          else if c =? BS then shlex_go (SEscape RWord) [] acc s'
          else if is_quote c then shlex_go (SQuote c) [] acc s'
          else shlex_go SWord [c] acc s'
      end
  | SWord =>
      match s with
      | [] => Ok (rev (rev tok :: acc))
      | c :: s' =>
          if lex_space c then shlex_go SSpace [] (rev tok :: acc) s'
          else if is_quote c then shlex_go (SQuote c) tok acc s'
          else if c =? BS then shlex_go (SEscape RWord) tok acc s'
          else shlex_go SWord (c :: tok) acc s'
      end
  | SQuote q =>
      match s with
      | [] => Err (ValueError (u "No closing quotation"))
      | c :: s' =>
          if c =? q then shlex_go SWord tok acc s'
          else if (c =? BS) && (q =? DQ) then shlex_go (SEscape (RQuote q)) tok acc s'
          else shlex_go (SQuote q) (c :: tok) acc s'
      end
  | SEscape r =>
      match s with
      | [] => Err (ValueError (u "No escaped character"))
      | c :: s' =>
          match r with
          | RWord => shlex_go SWord (c :: tok) acc s'
          | RQuote q =>
              let tok' := if negb (c =? BS) && negb (c =? q) then BS :: tok else tok in
              shlex_go (SQuote q) (c :: tok') acc s'
          end
      end
  end.

Definition shlex_split (s : pystr) : result (list pystr) := shlex_go SSpace [] [] s.

(** ** Lemmas *)

(** A string of ordinary characters: what no rule of the lexer treats specially. *)
Definition plain_char (c : Z) : bool := negb (lex_space c || is_quote c || (c =? BS)).

Lemma shlex_plain_word tok acc w s :
  forallb plain_char w = true ->
  shlex_go SWord tok acc (w ++ s) = shlex_go SWord (rev w ++ tok) acc s.
Proof.
  revert tok. induction w as [|c w IH]; intros tok; [done|].
  simpl forallb. intros [Hc Hw]%andb_true_iff. unfold plain_char in Hc.
  apply negb_true_iff, orb_false_iff in Hc as [[H1 H2]%orb_false_iff H3].
  simpl. rewrite H1 H2 H3 IH //. by rewrite <- app_assoc.
Qed.

Lemma shlex_plain_start acc w s :
  w <> [] -> forallb plain_char w = true ->
  shlex_go SSpace [] acc (w ++ s) = shlex_go SWord (rev w) acc s.
Proof.
  destruct w as [|c w]; [done|]. intros _. simpl forallb.
  intros [Hc Hw]%andb_true_iff. unfold plain_char in Hc.
  apply negb_true_iff, orb_false_iff in Hc as [[H1 H2]%orb_false_iff H3].
  simpl. rewrite H1 H2 H3 shlex_plain_word //.
Qed.

(** [t] is one word of a line, and it means [w]. *)
Definition lexes_to (t w : pystr) : Prop := forall acc,
  shlex_go SSpace [] acc t = Ok (rev (w :: acc)) /\
  forall s, shlex_go SSpace [] acc (t ++ 32 :: s) = shlex_go SSpace [] (w :: acc) s.

Lemma shlex_join_lexes ts ws : Forall2 lexes_to ts ws -> forall acc,
  shlex_go SSpace [] acc (join [32] ts) = Ok (rev acc ++ ws).
Proof.
  induction 1 as [|t w ts ws Htw Hts IH]; intros acc; [by rewrite app_nil_r|].
  destruct (Htw acc) as [H1 H2]. destruct Hts as [|t' w' ts ws Htw' Hts].
  - exact H1.
  - change (join [32] (t :: t' :: ts)) with (t ++ 32 :: join [32] (t' :: ts)). rewrite H2 IH. simpl. by rewrite -app_assoc.
Qed.

Lemma lexes_plain w : w <> [] -> forallb plain_char w = true -> lexes_to w w.
Proof.
  intros Hne Hw acc. split; [|intros s].
  - rewrite -{1}(app_nil_r w) shlex_plain_start //. simpl. by rewrite rev_involutive.
  - rewrite shlex_plain_start //. simpl. by rewrite rev_involutive.
Qed.

(** Joining plain words with single spaces and splitting again is the identity. *)
Lemma shlex_split_join ws :
  Forall (fun w => w <> [] /\ forallb plain_char w = true) ws ->
  shlex_split (join [32] ws) = Ok ws.
Proof.
  intros Hws. unfold shlex_split. rewrite (shlex_join_lexes ws ws) //.
  induction Hws as [|w ws [Hne Hw] _ IH]; constructor; [by apply lexes_plain|exact IH].
Qed.
