(* ===== verification/Classifier.v ===== *)
(** * The command classifier ([classifier.py])

    [classify_command] decides whether a captured command line may be offered
    for replay: it redacts lines that look like they carry a credential, refuses
    everything that is not one simple command, and refuses programs from the
    deny lists. *)
From S2P Require Import Prelude PyText Shlex PyVal Model.

Definition _REDACTED_DISPLAY : pystr := u "[sensitive command redacted]".

(** ** Secret patterns *)
Definition not_in (s : pystr) (c : Z) : bool := negb (char_in c s).
Definition non_space_not_in (s : pystr) : re := plus (Cls (fun c => negb (is_space c || char_in c s))).

Definition quoted_by (q : Z) : re := seqs [lit q; plus (Cls (fun c => negb (c =? q))); lit q].

Definition _SECRET_VALUE_PATTERN : re :=
  alts [quoted_by SQ; quoted_by DQ; non_space_not_in [SQ; DQ; 59]].

Definition _CREDENTIAL_NAME_PATTERN : re :=
  seqs [opt (ci_word (u "aws_"));
        alts [seqs [ci_word (u "secret"); opt (ci_word (u "_access")); ci_word (u "_key")];
              ci_word (u "access_key");
              seqs [ci_word (u "api"); opt (Cls (fun c => char_in c (u "_-")));
                    alts [ci_word (u "key"); ci_word (u "token")]];
              seqs [ci_word (u "auth"); opt (Cls (fun c => char_in c (u "_-"))); ci_word (u "token")];
              ci_word (u "password"); ci_word (u "passwd"); ci_word (u "pwd"); ci_word (u "token")]].

Definition dashes : re := opt (seqs [lit 45; opt (lit 45)]).    (* (?:--?)? *)

Definition _QUOTE_NORMALIZED_CREDENTIAL_NAME_PATTERN : re :=
  alts [seqs [lit SQ; _CREDENTIAL_NAME_PATTERN; lit SQ];
        seqs [lit DQ; _CREDENTIAL_NAME_PATTERN; lit DQ];
        seqs [dashes; _CREDENTIAL_NAME_PATTERN]].

Definition _CREDENTIAL_RE : re :=
  seqs [_QUOTE_NORMALIZED_CREDENTIAL_NAME_PATTERN; spaces;
        alts [seqs [alts [lit 61; lit 58]; spaces]; plus (Cls is_space)];
        _SECRET_VALUE_PATTERN].

Definition auth_colon : re := seqs [ci_word (u "authorization"); spaces; lit 58].

Definition _AUTHORIZATION_RE : re := seqs [auth_colon; spaces; non_space_not_in [SQ; DQ]].

Definition not_ident : re := Cls (fun c => negb (ci_alpha c || is_digit c || (c =? 95))).

Definition _CREDENTIAL_FRAGMENT_RE : re :=
  seqs [alts [at_start; not_ident]; dashes; _CREDENTIAL_NAME_PATTERN; alts [at_end; not_ident]].

Definition dash_space : re := plus (Cls (fun c => is_space c || char_in c (u "_-"))).

Definition _PRIVATE_KEY_RE : re :=
  alts [seqs [word (u "-----"); spaces; ci_word (u "BEGIN"); dash_space;
              opt (seqs [plus (Cls (fun c => ci_alpha c || is_digit c)); dash_space]);
              ci_word (u "PRIVATE"); dash_space; ci_word (u "KEY"); spaces; word (u "-----")];
        ci_word (u "BEGIN_PRIVATE_KEY")].

Definition upper_digit (c : Z) : bool := is_upper c || is_digit c.

Definition _AWS_ACCESS_KEY_RE : re :=
  seqs [Look (fun p _ => match p with Some c => negb (upper_digit c) | None => true end);
        alts [word (u "AKIA"); word (u "ASIA")]; times 16 (Cls upper_digit);
        Look (fun _ s => match s with c :: _ => negb (upper_digit c) | [] => true end)].

(** ** Deny lists *)
Definition _PRIVILEGED_OR_DESTRUCTIVE : list pystr := map u
  ["busybox"; "sudo"; "su"; "doas"; "pkexec"; "shutdown"; "reboot"; "halt"; "kill"; "killall";
   "pkill"; "poweroff"; "systemctl"; "toybox"; "rm"; "dd"; "mkfs"; "fdisk"; "sfdisk"; "parted";
   "wipefs"; "shred"; "truncate"]%string.

Definition _SHELL_STATEFUL : list pystr := map u
  ["."; "bash"; "dash"; "alias"; "builtin"; "cd"; "command"; "declare"; "enable"; "env"; "eval";
   "exec"; "export"; "fish"; "ksh"; "nohup"; "nice"; "readonly"; "set"; "setsid"; "sh"; "source";
   "timeout"; "trap"; "typeset"; "ulimit"; "umask"; "unalias"; "unset"; "zsh"]%string.

Definition _INTERACTIVE_STATEFUL : list pystr := map u
  ["ssh"; "mosh"; "telnet"; "ftp"; "sftp"; "vim"; "vi"; "nvim"; "nano"; "emacs"; "less"; "more";
   "mysql"; "psql"; "redis-cli"; "top"; "htop"; "tmux"; "screen"]%string.

Definition _CODE_EXECUTING : list pystr := map u
  ["awk"; "gawk"; "mawk"; "nawk"; "sed"; "find"; "make"; "cmake"; "gmake"; "xargs"; "tar"; "git";
   "perl"; "lua"; "tclsh"; "wish"; "tcl"; "php"; "dd"]%string.

Definition _SHELL_RESERVED_WORDS : list pystr := map u
  ["time"; "coproc"; "!"; "function"; "let"; "select"; "for"; "while"; "until"; "case"; "if";
   "then"; "else"; "do"; "done"; "fi"; "esac"; "in"; "local"]%string.

Definition _STATE_CHANGING : list pystr := map u
  ["touch"; "mkdir"; "rmdir"; "cp"; "mv"; "install"; "chmod"; "chown"; "chgrp"; "ln"; "link";
   "rename"; "unlink"; "truncate"; "tee"; "dd"; "mkfifo"; "mknod"; "mount"; "umount"; "swapoff";
   "swapon"; "pip"; "pip3"; "pipx"; "poetry"; "uv"; "conda"; "mamba"; "npm"; "npx"; "yarn"; "pnpm";
   "bun"; "deno"; "cargo"; "rustup"; "go"; "gem"; "bundle"; "composer"; "crontab"; "at"; "batch";
   "curl"; "wget"; "ftp"; "scp"; "rsync"; "s3cmd"; "aws"; "gcloud"; "kubectl"; "systemctl";
   "service"; "initctl"; "update-rc.d"; "chkconfig"; "useradd"; "usermod"; "userdel"; "groupadd";
   "groupmod"; "groupdel"; "passwd"; "chpasswd"; "chage"; "docker"; "podman"; "nerdctl"]%string.

Definition _SCRIPT_INTERPRETERS : list pystr := map u
  ["python"; "python3"; "ruby"; "rb"; "node"; "perl"; "php"; "lua"; "tclsh"; "wish"; "tcl";
   "groovy"; "gosh"; "jrunscript"; "rscript"; "R"; "julia"; "awk"; "gawk"; "mawk"; "nawk"]%string.

Definition _INTERPRETER_CODE_FLAGS : list pystr := map u
  ["-c"; "-e"; "-r"; "-p"; "-y"; "--eval"; "-i"; "-Q"]%string.

Definition _INTERPRETER_MODULE_FLAGS : list pystr := map u ["-m"; "--module"]%string.

(** ** Results *)
Record Classification := mkClassification { cls_record : CommandRecord; cls_reason : pystr }.

Record ParsedCommand := mkParsed {
  pc_executable : pystr;
  pc_argv : list pystr;
  pc_prefix : nat;
}.

(** [VAR=value], where [.] does not match a newline. *)
Definition ident_char (c : Z) : bool := is_alnum c || (c =? 95).
Definition _ENV_ASSIGNMENT_RE : re :=
  seqs [Cls (fun c => is_alpha c || (c =? 95)); Star (Cls ident_char); lit 61;
        Star (Cls (fun c => negb (c =? 10)))].

(** Dollar followed by a brace, a special parameter or a name. *)
Definition _PARAM_EXPANSION_RE : re :=
  alts [seqs [word (u "${"); Star (Cls (fun c => negb (c =? 125))); lit 125];
        seqs [lit 36; Cls (fun c => char_in c (u "@#0123456789!?$*-"))];
        seqs [lit 36; Cls (fun c => is_alpha c || (c =? 95)); Star (Cls ident_char)]].

Definition _GLOB_CHARS : pystr := u "*?[".

(** ** The quoting scan of [_parse_one_simple_command] *)
Definition BQ : Z := 96.
Definition is_metachar (c : Z) : bool := char_in c (u ";&|<>()") || (c =? 10).

(** Command substitution starts at this position. *)
Definition starts_substitution (c : Z) (rest : pystr) : bool :=
  (c =? BQ) || is_prefix (u "$(") (c :: rest).

(** [quote == c], where [quote] may be [None]. *)
Definition quote_is (c : Z) (quote : option Z) : bool :=
  match quote with Some q => q =? c | None => false end.
Definition is_some {A} (o : option A) : bool := match o with Some _ => true | None => false end.

Fixpoint scan (quote : option Z) (escaped : bool) (s : pystr) : result (option Z * bool) :=
  match s with
  | [] => Ok (quote, escaped)
  | c :: s' =>
      if quote_is SQ quote then
        scan (if c =? SQ then None else quote) escaped s'
      else if escaped then
        if negb (is_some quote) && is_metachar c then Err PolicyRejection
        else scan quote false s'
      else if c =? BS then scan quote true s'
      else if quote_is DQ quote then
        if c =? DQ then scan None escaped s'
        else if starts_substitution c s' then Err PolicyRejection
        else scan quote escaped s'
      else if c =? SQ then scan (Some c) escaped s'
      else if c =? DQ then scan (Some c) escaped s'
      else if starts_substitution c s' then Err PolicyRejection
      else if is_metachar c then Err PolicyRejection
      else scan quote escaped s'
  end.

(** Leading tokens that match [VAR=value]. *)
Fixpoint assignment_prefix (tokens : list pystr) : nat :=
  match tokens with
  | t :: ts => if fullmatch _ENV_ASSIGNMENT_RE t then S (assignment_prefix ts) else O
  | [] => O
  end.

Section WithUnicode.
Context `{Unicode}.

Definition _CREDENTIAL_URL_RE : re :=
  seqs [word_boundary; Cls ci_alpha;
        Star (Cls (fun c => ci_alpha c || is_digit c || char_in c (u "+.-"))); word (u "://");
        non_space_not_in (u "/:@"); lit 58; non_space_not_in (u "/@"); lit 64].

Definition _contains_dollar_quote (command : pystr) : bool :=
  contains [36; SQ] command || contains [36; DQ] command.

Definition _authorization_skeleton (command : pystr) : pystr :=
  str_lower (filter (fun c => char_in c [SQ; DQ; 36; BS] || is_space c = false) command).

Definition _contains_authorization_skeleton (command : pystr) : bool :=
  contains (u "authorization:") (_authorization_skeleton command).

Definition _contains_obfuscated_authorization_skeleton (command : pystr) : bool :=
  _contains_authorization_skeleton command && negb (search auth_colon command).

Definition _contains_raw_secret_marker (command : pystr) : bool :=
  search _AUTHORIZATION_RE command || search _PRIVATE_KEY_RE command.

Definition _authorization_has_separate_value (tokens : list pystr) (separator_index : nat) : bool :=
  Nat.ltb (separator_index + 1) (length tokens).

(** [re.fullmatch(r"(?i)authorization\s*:(.*)", token)]: the group, if it matches. *)
Definition authorization_group (token : pystr) : option pystr :=
  match ends auth_colon (None, token) with
  | (_, rest) :: _ => if char_in 10 rest then None else Some rest
  | [] => None
  end.

(** The loop over [enumerate(tokens)]; [i] counts the tokens already seen. *)
Fixpoint authorization_tokens (all : list pystr) (i : nat) (tokens : list pystr) : bool :=
  match tokens with
  | [] => false
  | token :: rest =>
      if match authorization_group token with
         | Some g => negb (bool_decide (strip g = [])) | None => false end
      then true
      else if str_eqb (str_lower token) (u "authorization") &&
              match rest with next :: _ => str_eqb next (u ":") | [] => false end
      then _authorization_has_separate_value all (i + 1)
      else authorization_tokens all (S i) rest
  end.

Definition _contains_normalized_credential (tokens : list pystr) : bool :=
  if search _CREDENTIAL_RE (join (u " ") tokens) then true
  else authorization_tokens tokens 0 tokens.

Definition _contains_fragmented_credential (command : pystr) : bool :=
  let fragments := filter (fun c => is_quote c = false) command in
  search _CREDENTIAL_RE fragments || search _CREDENTIAL_FRAGMENT_RE fragments.

(** ** One simple command *)
Definition _parse_one_simple_command (command : pystr) (normalized_tokens : option (list pystr))
  : result ParsedCommand :=
  raise_if (bool_decide (strip command = []) || char_in 0 command || ends_with [BS] command)
    PolicyRejection ;?
  raise_if (existsb (fun ch => char_in ch command) _GLOB_CHARS) PolicyRejection ;?
  raise_if (search _PARAM_EXPANSION_RE command) PolicyRejection ;?
  let? '(quote, escaped) := scan None false command in
  raise_if (is_some quote || escaped) PolicyRejection ;?
  let? tokens := match normalized_tokens with
                 | None => match shlex_split command with
                           | Ok ts => Ok ts
                           | Err e => if is_value_error e then Err PolicyRejection else Err e
                           end
                 | Some ts => Ok ts
                 end in
  raise_if (bool_decide (tokens = [])) PolicyRejection ;?
  let prefix := assignment_prefix tokens in
  raise_if (Nat.leb (length tokens) prefix) PolicyRejection ;?
  raise_if (Nat.ltb 0 prefix) PolicyRejection ;?
  let? token := result_of_option (tokens !! prefix) KeyError in
  Ok (mkParsed (str_lower (path_name (parse_path token))) tokens prefix).

(** ** Policy *)
Definition _is_unsafe (executable : pystr) : bool :=
  str_in executable _PRIVILEGED_OR_DESTRUCTIVE || is_prefix (u "mkfs.") executable.

Definition _requires_unavailable_interactive_state (executable : pystr) (tokens : list pystr) : bool :=
  if str_in executable _INTERACTIVE_STATEFUL then true
  else if negb (str_in executable [u "node"; u "perl"; u "python"; u "python3"; u "ruby"]) then false
  else match drop 1 tokens with
       | [] => true
       | first :: others =>
           if str_in executable [u "python"; u "python3"] && str_in (u "-i") (first :: others)
           then true
           else if str_in executable [u "python"; u "python3"] && str_eqb first (u "-m")
           then len (first :: others) <? 2
           else is_prefix (u "-") first
       end.

Definition _interpreter_runs_script (executable : pystr) (parsed : ParsedCommand) : bool :=
  match drop (pc_prefix parsed + 1) (pc_argv parsed) with
  | [] => true
  | first :: others =>
      let arguments := first :: others in
      if str_in executable [u "python"; u "python3"] then
        if str_in first _INTERPRETER_MODULE_FLAGS then len arguments <? 2
        else if str_in first _INTERPRETER_CODE_FLAGS then true
        else negb (is_prefix (u "-") first)
      else if existsb (fun arg => str_in arg _INTERPRETER_CODE_FLAGS) arguments then true
      else existsb (fun arg => negb (is_prefix (u "-") arg)) arguments
  end.

Definition _bounded_display (command : pystr) : pystr := take (Z.to_nat MAX_COMMAND_CHARS) command.

Definition _redacted (sequence : Z) : result Classification :=
  let? r := new_CommandRecord sequence _REDACTED_DISPLAY None REDACTED true in
  Ok (mkClassification r (u "likely credential or private-key material")).

(** The records of the branches that refuse replay but show the command. *)
Definition refused (sequence : Z) (command : pystr) (kind : CommandDisposition) (reason : pystr)
  : result Classification :=
  let? r := new_CommandRecord sequence (_bounded_display command) None kind true in
  Ok (mkClassification r reason).

(** The policy applied to a parsed command. *)
Definition judge (command : pystr) (sequence : Z) (parsed : ParsedCommand) : result Classification :=
  let executable := pc_executable parsed in
  let tokens := pc_argv parsed in
  if _is_unsafe executable || str_in executable _SHELL_STATEFUL then
    refused sequence command UNSAFE (u "privileged or destructive command")
  else if str_in executable _CODE_EXECUTING then
    refused sequence command UNSAFE (u "code-executing command")
  else if str_in executable _SHELL_RESERVED_WORDS then
    refused sequence command UNSAFE (u "shell reserved word")
  else if str_in executable _STATE_CHANGING then
    refused sequence command UNSAFE (u "state-changing command")
  else if str_in executable _SCRIPT_INTERPRETERS && _interpreter_runs_script executable parsed then
    refused sequence command UNSAFE (u "interpreter executes a script file")
  else if _requires_unavailable_interactive_state executable tokens then
    refused sequence command UNSAFE (u "interactive command requires unavailable state")
  else if MAX_COMMAND_CHARS <? len command then
    refused sequence command UNREPRESENTABLE (u "command exceeds replay length limit")
  else
    let? r := new_CommandRecord sequence command (Some command) REPLAYABLE true in
    Ok (mkClassification r (u "single simple command accepted")).

(** The first test of [classify_command]: the raw text carries a secret. *)
Definition raw_secret (command : pystr) : bool :=
  _contains_dollar_quote command || _contains_obfuscated_authorization_skeleton command ||
  _contains_raw_secret_marker command || search _AWS_ACCESS_KEY_RE command ||
  search _CREDENTIAL_URL_RE command.

Definition classify_command (command : pystr) (sequence : Z) : result Classification :=
  if raw_secret command then _redacted sequence
  else
    let normalized := shlex_split command in
    let secret := match normalized with
                  | Ok tokens => _contains_normalized_credential tokens
                  | Err _ => _contains_authorization_skeleton command ||
                             _contains_fragmented_credential command
                  end in
    if secret then _redacted sequence
    else
      match _parse_one_simple_command command
              (match normalized with Ok tokens => Some tokens | Err _ => None end) with
      | Ok parsed => judge command sequence parsed
      | Err PolicyRejection =>
          refused sequence command UNREPRESENTABLE
            (u "command cannot be represented as one simple command")
      | Err e => Err e
      end.

(** [_command_name]: the executable of a raw token list. *)
Definition _command_name (tokens : list pystr) : pystr :=
  let index := assignment_prefix tokens in
  match tokens !! index with
  | None => u "export"
  | Some token => str_lower (path_name (parse_path token))
  end.

End WithUnicode.

(** ** The quoting automaton

    [qstate] follows the quotes without rejecting anything: the reference the
    scan is compared with. *)
Definition qstep (st : option Z * bool) (c : Z) : option Z * bool :=
  let '(quote, escaped) := st in
  if quote_is SQ quote then ((if c =? SQ then None else quote), escaped)
  else if escaped then (quote, false)
  else if c =? BS then (quote, true)
  else if quote_is DQ quote then ((if c =? DQ then None else quote), escaped)
  else if is_quote c then (Some c, escaped)
  else (quote, escaped).

Definition qstate (st : option Z * bool) (s : pystr) : option Z * bool := foldl qstep st s.

(** What may stand at a position whose quoting state is [st]: inside single
    quotes anything; after a backslash anything but an unquoted metacharacter;
    otherwise no command substitution, and no metacharacter unless quoted. *)
Definition allowed (st : option Z * bool) (c : Z) (rest : pystr) : bool :=
  let '(quote, escaped) := st in
  if quote_is SQ quote then true
  else if escaped then negb (negb (is_some quote) && is_metachar c)
  else if quote_is DQ quote then negb (starts_substitution c rest)
  else negb (starts_substitution c rest || is_metachar c).

Fixpoint all_allowed (st : option Z * bool) (s : pystr) : bool :=
  match s with
  | [] => true
  | c :: s' => allowed st c s' && all_allowed (qstep st c) s'
  end.

(** A quoting state the scan can be in. *)
Definition good_state (st : option Z * bool) : Prop :=
  st = (None, false) \/ st = (None, true) \/ st = (Some SQ, false) \/
  st = (Some DQ, false) \/ st = (Some DQ, true).

Lemma good_state_step st c : good_state st -> good_state (qstep st c).
Proof.
  unfold good_state, qstep, is_quote, SQ, DQ, BS.
  intros [->|[->|[->|[->| ->]]]]; simpl; repeat case_match; simplify_eq/=; try lia; try tauto.
  assert (c = 39 \/ c = 34) as [-> | ->] by lia; tauto.
Qed.

Lemma not_meta_quote c : (c =? SQ) = true \/ (c =? DQ) = true \/ (c =? BS) = true ->
  is_metachar c = false /\ forall rest, starts_substitution c rest = false.
Proof.
  unfold SQ, DQ, BS. rewrite !Z.eqb_eq. intros [->|[->| ->]]; split; reflexivity.
Qed.

(** The scan is the automaton plus the position-wise test. *)
Lemma scan_step q e c s : good_state (q, e) ->
  scan q e (c :: s) =
  if allowed (q, e) c s then let '(q', e') := qstep (q, e) c in scan q' e' s else Err PolicyRejection.
Proof.
  intros Hg. simpl scan. unfold allowed, qstep, is_quote.
  destruct (quote_is SQ q) eqn:E1; [done|].
  destruct e.
  { by destruct (negb (is_some q) && is_metachar c). }
  destruct (c =? BS) eqn:E2.
  { destruct (not_meta_quote c) as [Hm Hs]; [auto|]. rewrite Hm Hs.
    by destruct (quote_is DQ q). }
  destruct (quote_is DQ q) eqn:E3.
  { destruct (c =? DQ) eqn:E4; [|by destruct (starts_substitution c s)].
    destruct (not_meta_quote c) as [Hm Hs]; [auto|]. by rewrite Hs. }
  destruct (c =? SQ) eqn:E5; [destruct (not_meta_quote c) as [Hm Hs]; [auto|]; by rewrite Hm Hs|].
  destruct (c =? DQ) eqn:E6; [destruct (not_meta_quote c) as [Hm Hs]; [auto|]; by rewrite Hm Hs|].
  simpl. by destruct (starts_substitution c s), (is_metachar c).
Qed.

Lemma scan_spec q e s : good_state (q, e) ->
  scan q e s = if all_allowed (q, e) s then Ok (qstate (q, e) s) else Err PolicyRejection.
Proof.
  revert q e. induction s as [|c s IH]; intros q e Hg; [done|].
  rewrite scan_step //. cbn [all_allowed]. destruct (allowed (q, e) c s); [|done].
  pose proof (good_state_step _ c Hg) as Hg'. unfold qstate. cbn [foldl andb].
  destruct (qstep (q, e) c) as [q' e']. by rewrite IH.
Qed.

Lemma all_allowed_at st s i c : all_allowed st s = true -> s !! i = Some c ->
  allowed (qstate st (take i s)) c (drop (S i) s) = true.
Proof.
  revert st i. induction s as [|x s IH]; intros st i; [done|].
  simpl all_allowed. intros [Ha Hr]%andb_true_iff. destruct i as [|i]; simpl.
  - intros [= ->]. done.
  - intros Hi. by apply IH.
Qed.

(** ** Accepted by the scan, accepted by the lexer *)
Definition lex_related (st : option Z * bool) (l : lex_state) : Prop :=
  match l with
  | SSpace | SWord => st = (None, false)
  | SQuote q => st = (Some q, false) /\ (q = SQ \/ q = DQ)
  | SEscape RWord => st = (None, true)
  | SEscape (RQuote q) => st = (Some q, true) /\ q = DQ
  end.

Lemma shlex_follows_quotes s : forall st l tok acc,
  lex_related st l -> qstate st s = (None, false) -> exists ts, shlex_go l tok acc s = Ok ts.
Proof.
  induction s as [|c s IH]; intros st l tok acc Hr Hq.
  { unfold qstate in Hq. simpl in Hq. subst.
    destruct l as [| |q|[|q]]; simpl in *; [eauto|eauto|..]; exfalso; naive_solver. }
  unfold qstate in *. simpl in Hq.
  assert (Hns : forall x, lex_space x = true -> is_quote x = false /\ (x =? BS) = false).
  { unfold lex_space, is_quote, SQ, DQ, BS. intros. lia. }
  destruct l as [| |q|[|q]]; simpl in Hr.
  - subst st. simpl in Hq |- *. destruct (lex_space c) eqn:E.
    { destruct (Hns c E) as [E1 E2]. rewrite E1 E2 in Hq. eapply IH; [|exact Hq]. done. }
    destruct (c =? BS); [eapply IH; [|exact Hq]; done|].
    destruct (is_quote c) eqn:E3; (eapply IH; [|exact Hq]); simpl; [|done].
    unfold is_quote in E3. split; [done|]. lia.
  - subst st. simpl in Hq |- *. destruct (lex_space c) eqn:E.
    { destruct (Hns c E) as [E1 E2]. rewrite E1 E2 in Hq. eapply IH; [|exact Hq]. done. }
    destruct (is_quote c) eqn:E3.
    { assert ((c =? BS) = false) as E4 by (unfold is_quote, SQ, DQ, BS in *; lia).
      rewrite E4 in Hq. eapply IH; [|exact Hq]. simpl. unfold is_quote in E3. split; [done|]. lia. }
    destruct (c =? BS); (eapply IH; [|exact Hq]; done).
  - destruct Hr as [-> [->| ->]]; simpl in Hq |- *.
    + rewrite andb_false_r. destruct (c =? SQ); (eapply IH; [|exact Hq]; simpl; auto).
    + rewrite andb_true_r. destruct (c =? DQ) eqn:E.
      { assert ((c =? BS) = false) as E4 by (unfold DQ, BS in *; lia). rewrite E4 in Hq.
        eapply IH; [|exact Hq]. done. }
      destruct (c =? BS); (eapply IH; [|exact Hq]; simpl; auto).
  - subst st. simpl in Hq |- *. eapply IH; [|exact Hq]. done.
  - destruct Hr as [-> ->]. simpl in Hq |- *. eapply IH; [|exact Hq]. simpl. auto.
Qed.

Lemma scan_accepts_lexes s : scan None false s = Ok (None, false) -> exists ts, shlex_split s = Ok ts.
Proof.
  rewrite scan_spec; [by left|]. destruct (all_allowed _ s); [|done].
  intros [= Hq]. eapply shlex_follows_quotes; [|exact Hq]. done.
Qed.

(** ** The specification of one simple command

    [simple_command command tokens]: what the scan, the lexer and the prefix
    tests of [_parse_one_simple_command] accept together, stated position by
    position. *)
Definition live (command : pystr) (i : nat) : option Z * bool := qstate (None, false) (take i command).

Record simple_command (command : pystr) (tokens : list pystr) : Prop := {
  sc_text : strip command <> [] /\ 0 ∉ command /\ ends_with [BS] command = false;
  sc_no_glob : forall c, c ∈ _GLOB_CHARS -> c ∉ command;
  sc_no_parameter : search _PARAM_EXPANSION_RE command = false;
  sc_positions : forall i c, command !! i = Some c ->
    allowed (live command i) c (drop (S i) command) = true;
  sc_closed : qstate (None, false) command = (None, false);
  sc_tokens : shlex_split command = Ok tokens;
  sc_first : exists first, tokens !! 0%nat = Some first /\ fullmatch _ENV_ASSIGNMENT_RE first = false;
}.

Lemma all_allowed_positions st s :
  (forall i c, s !! i = Some c -> allowed (qstate st (take i s)) c (drop (S i) s) = true) ->
  all_allowed st s = true.
Proof.
  revert st. induction s as [|x s IH]; intros st H; [done|]. simpl.
  apply andb_true_iff. split; [exact (H 0%nat x eq_refl)|].
  apply IH. intros i c Hi. exact (H (S i) c Hi).
Qed.

Lemma char_in_spec c s : char_in c s = true <-> c ∈ s.
Proof.
  unfold char_in. rewrite existsb_exists. setoid_rewrite list_elem_of_In.
  setoid_rewrite Z.eqb_eq. naive_solver.
Qed.

Lemma char_in_false c s : char_in c s = false <-> c ∉ s.
Proof. rewrite <- char_in_spec. destruct (char_in c s); naive_solver. Qed.

Section Theorems.
Context `{Unicode}.

(** The parse when the caller passes [shlex]'s own tokens, or none. *)
Definition given_tokens (command : pystr) (tokens : option (list pystr)) : Prop :=
  match tokens with None => True | Some ts => shlex_split command = Ok ts end.

Lemma shlex_error_value_error l tok acc s e : shlex_go l tok acc s = Err e -> is_value_error e = true.
Proof.
  revert l tok acc. induction s as [|c s IH]; intros l tok acc; destruct l as [| |q|[|q]]; simpl;
    repeat case_match; intros; simplify_eq; try done; eauto.
Qed.

Lemma head_assignment tokens first :
  tokens !! 0%nat = Some first -> fullmatch _ENV_ASSIGNMENT_RE first = false ->
  tokens <> [] /\ assignment_prefix tokens = 0%nat.
Proof. destruct tokens as [|t ts]; [done|]. intros [= ->] Hf. cbn [assignment_prefix]. by rewrite Hf. Qed.

Lemma parse_Ok command tokens p : given_tokens command tokens ->
  _parse_one_simple_command command tokens = Ok p ->
  simple_command command (pc_argv p) /\ pc_prefix p = 0%nat /\
  exists first, pc_argv p !! 0%nat = Some first /\
    pc_executable p = str_lower (path_name (parse_path first)).
Proof.
  intros Hg Hp. unfold _parse_one_simple_command in Hp. r_inv.
  match goal with x : option Z * bool |- _ => destruct x as [q e] end. r_inv.
  repeat match goal with
  | Hb : bool_decide _ = false |- _ => apply bool_decide_eq_false in Hb
  | Hb : char_in _ _ = false |- _ => apply char_in_false in Hb
  | Hb : Nat.leb _ _ = false |- _ => apply Nat.leb_gt in Hb
  | Hb : Nat.ltb _ _ = false |- _ => apply Nat.ltb_ge in Hb
  end.
  destruct q; [done|]. cbn [is_some orb] in *. subst e.
  match goal with Hs : scan _ _ _ = Ok _ |- _ => rename Hs into Hscan end.
  rewrite scan_spec in Hscan; [by left|].
  destruct (all_allowed (None, false) command) eqn:Hall; [|done]. injection Hscan as Hq.
  match goal with Ht : match tokens with _ => _ end = Ok ?ts |- _ =>
    assert (shlex_split command = Ok ts) as Hlex end.
  { destruct tokens as [ts0|]; [by r_inv|].
    destruct (shlex_split command) as [ts0|ex]; [by r_inv|]. by destruct (is_value_error ex). }
  match goal with Hx : ?ts !! assignment_prefix ?ts = Some ?t |- _ =>
    assert (assignment_prefix ts = 0%nat) as Hpre by lia; rewrite Hpre in Hx;
    rename Hx into Hfirst; rename t into first; rename ts into argv end.
  cbn [pc_argv pc_prefix pc_executable]. split; [|split; [done|by exists first]].
  split; try done.
  - intros c Hc. match goal with He : existsb _ _GLOB_CHARS = false |- _ => rename He into Hgl end.
    apply char_in_false. apply not_true_iff_false. intros Hin.
    apply not_true_iff_false in Hgl. apply Hgl, existsb_exists. exists c.
    by rewrite -list_elem_of_In.
  - intros i c Hi. by apply all_allowed_at.
  - exists first. split; [done|]. destruct argv as [|t ts]; [done|]. injection Hfirst as ->.
    cbn [assignment_prefix] in Hpre. by destruct (fullmatch _ _).
Qed.

Lemma parse_simple command tokens argv first : given_tokens command tokens ->
  simple_command command argv -> argv !! 0%nat = Some first ->
  _parse_one_simple_command command tokens =
  Ok (mkParsed (str_lower (path_name (parse_path first))) argv 0%nat).
Proof.
  intros Hg [(Hs & Hn & He) Hglob Hpar Hpos Hq Hlex (f & Hf & Hfull)] Hfirst.
  rewrite Hfirst in Hf. injection Hf as <-.
  unfold _parse_one_simple_command.
  rewrite bool_decide_eq_false_2 // (proj2 (char_in_false _ _) Hn) He. cbn [orb raise_if rbind].
  assert (existsb (fun ch => char_in ch command) _GLOB_CHARS = false) as ->.
  { apply not_true_iff_false. intros (c & Hc & Hin)%existsb_exists.
    apply char_in_spec in Hin. apply (Hglob c); [by apply list_elem_of_In|done]. }
  rewrite Hpar scan_spec; [by left|]. rewrite (all_allowed_positions _ _ Hpos) Hq.
  cbn [raise_if rbind is_some orb].
  assert (match tokens with
          | None => match shlex_split command with
                    | Ok ts => Ok ts
                    | Err e => if is_value_error e then Err PolicyRejection else Err e
                    end
          | Some ts => Ok ts
          end = Ok argv) as ->.
  { destruct tokens as [ts|]; [|by rewrite Hlex]. simpl in Hg. congruence. }
  destruct (head_assignment _ _ Hfirst Hfull) as [Hne H0]. cbn [rbind].
  rewrite bool_decide_eq_false_2 // H0. destruct argv as [|t ts]; [done|].
  by injection Hfirst as ->.
Qed.

(** Every rejection is a [PolicyRejection]. *)
Lemma parse_Err command tokens e :
  _parse_one_simple_command command tokens = Err e -> e = PolicyRejection.
Proof.
  unfold _parse_one_simple_command. intros Hp.
  repeat (apply rbind_Err in Hp; destruct Hp as [Hp|(? & _ & Hp)];
    [try (by apply raise_if_Err in Hp as [_ ->])|]).
  - revert Hp. generalize (@None Z). generalize false.
    induction command as [|c s IH]; intros b q; [done|]. simpl.
    repeat case_match; intros Hp; simplify_eq; try done; eauto.
  - case_match. cbn [rbind] in Hp.
    repeat (apply rbind_Err in Hp; destruct Hp as [Hp|(? & ? & Hp)];
      [try (by apply raise_if_Err in Hp as [_ ->])|]).
    + destruct tokens as [ts|]; [done|]. destruct (shlex_split command) eqn:Hx; [done|].
      apply shlex_error_value_error in Hx. rewrite Hx in Hp. congruence.
    + r_inv. match goal with Hx : result_of_option (?ts !! ?i) _ = Err _, Hl : Nat.leb _ _ = false |- _ =>
        destruct (ts !! i) eqn:Hi; [done|]; apply lookup_ge_None in Hi; apply Nat.leb_gt in Hl; lia end.
    + done.
Qed.

(** ** Classification *)

(** What the policy asks of the executable of a parsed command. *)
Record replay_policy (parsed : ParsedCommand) : Prop := {
  rp_destructive : pc_executable parsed ∉ _PRIVILEGED_OR_DESTRUCTIVE /\
                   is_prefix (u "mkfs.") (pc_executable parsed) = false;
  rp_shell : pc_executable parsed ∉ _SHELL_STATEFUL;
  rp_code : pc_executable parsed ∉ _CODE_EXECUTING;
  rp_reserved : pc_executable parsed ∉ _SHELL_RESERVED_WORDS;
  rp_state : pc_executable parsed ∉ _STATE_CHANGING;
  rp_script : pc_executable parsed ∈ _SCRIPT_INTERPRETERS ->
              _interpreter_runs_script (pc_executable parsed) parsed = false;
  rp_interactive :
    _requires_unavailable_interactive_state (pc_executable parsed) (pc_argv parsed) = false;
}.

(** The record each disposition comes with. *)
Definition record_of (command : pystr) (n : Z) (k : CommandDisposition) : CommandRecord :=
  match k with
  | REPLAYABLE => mkCommand n command (Some command) REPLAYABLE true
  | REDACTED => mkCommand n _REDACTED_DISPLAY None REDACTED true
  | k => mkCommand n (_bounded_display command) None k true
  end.

Lemma bounded_display_len command : len (_bounded_display command) <= MAX_COMMAND_CHARS.
Proof. unfold _bounded_display, len, MAX_COMMAND_CHARS. rewrite length_take. lia. Qed.

Lemma refused_Ok n command k reason : 0 <= n -> k = UNSAFE \/ k = UNREPRESENTABLE ->
  refused n command k reason = Ok (mkClassification (record_of command n k) reason).
Proof.
  intros Hn Hk. unfold refused, new_CommandRecord.
  assert (record_of command n k = mkCommand n (_bounded_display command) None k true) as ->
    by by destruct Hk as [->| ->].
  rewrite construct_wf; [|done].
  pose proof (bounded_display_len command) as Hl. revert Hl.
  unfold command_post_init, _require_non_negative_integer, _require_bounded_string.
  destruct Hk as [->| ->]; cbn; intros Hl;
    rewrite (proj2 (Z.ltb_ge _ _) Hn) /= (proj2 (Z.ltb_ge _ _) Hl) //.
Qed.

Lemma redacted_Ok n : 0 <= n -> exists why,
  _redacted n = Ok (mkClassification (mkCommand n _REDACTED_DISPLAY None REDACTED true) why).
Proof.
  intros Hn. unfold _redacted, new_CommandRecord, construct, command_post_init,
    _require_non_negative_integer.
  cbn [cmd_sequence]. rewrite (proj2 (Z.ltb_ge _ _) Hn). by eexists.
Qed.

Lemma replayable_Ok n command : 0 <= n -> len command <= MAX_COMMAND_CHARS ->
  new_CommandRecord n command (Some command) REPLAYABLE true = Ok (record_of command n REPLAYABLE).
Proof.
  intros Hn Hl. apply construct_wf.
  unfold command_post_init, _require_non_negative_integer, _require_bounded_string. cbn.
  by rewrite (proj2 (Z.ltb_ge _ _) Hn) /= !(proj2 (Z.ltb_ge _ _) Hl).
Qed.

Lemma judge_spec command n p : 0 <= n ->
  exists k why, judge command n p = Ok (mkClassification (record_of command n k) why) /\
    k <> REDACTED /\
    (k = REPLAYABLE <-> replay_policy p /\ len command <= MAX_COMMAND_CHARS).
Proof.
  intros Hn. unfold judge.
  assert (Hno : forall k why, k = UNSAFE \/ k = UNREPRESENTABLE ->
    ~ (replay_policy p /\ len command <= MAX_COMMAND_CHARS) ->
    exists k' why', refused n command k why = Ok (mkClassification (record_of command n k') why') /\
      k' <> REDACTED /\
      (k' = REPLAYABLE <-> replay_policy p /\ len command <= MAX_COMMAND_CHARS)).
  { intros k why Hk Hf. exists k, why. rewrite refused_Ok //.
    destruct Hk as [->| ->]; naive_solver. }
  destruct (_is_unsafe (pc_executable p) || str_in (pc_executable p) _SHELL_STATEFUL) eqn:E1.
  { apply Hno; [by left|]. intros [[[Ha Hb] Hc _ _ _ _ _] _]. unfold _is_unsafe in E1.
    by rewrite Hb !(proj2 (str_in_false _ _) _) in E1. }
  destruct (str_in (pc_executable p) _CODE_EXECUTING) eqn:E2.
  { apply Hno; [by left|]. intros [[_ _ Hc _ _ _ _] _]. by apply str_in_spec in E2. }
  destruct (str_in (pc_executable p) _SHELL_RESERVED_WORDS) eqn:E3.
  { apply Hno; [by left|]. intros [[_ _ _ Hc _ _ _] _]. by apply str_in_spec in E3. }
  destruct (str_in (pc_executable p) _STATE_CHANGING) eqn:E4.
  { apply Hno; [by left|]. intros [[_ _ _ _ Hc _ _] _]. by apply str_in_spec in E4. }
  destruct (str_in (pc_executable p) _SCRIPT_INTERPRETERS && _interpreter_runs_script _ _) eqn:E5.
  { apply Hno; [by left|]. apply andb_true_iff in E5 as [Ha%str_in_spec Hb].
    intros [[_ _ _ _ _ Hc _] _]. by rewrite (Hc Ha) in Hb. }
  destruct (_requires_unavailable_interactive_state _ _) eqn:E6.
  { apply Hno; [by left|]. intros [[_ _ _ _ _ _ Hc] _]. by rewrite Hc in E6. }
  destruct (MAX_COMMAND_CHARS <? len command) eqn:E7.
  { apply Hno; [by right|]. intros [_ Hl]. apply Z.ltb_lt in E7. by apply Z.le_ngt in Hl. }
  apply Z.ltb_ge in E7. exists REPLAYABLE, (u "single simple command accepted").
  rewrite replayable_Ok //. split; [done|]. split; [done|]. split; [|done]. intros _.
  split; [|done]. apply orb_false_iff in E1 as [[E1 E1']%orb_false_iff E1''].
  split; [split; [by apply str_in_false|done]|by apply str_in_false..| |done].
  intros Hin%str_in_spec. by rewrite Hin in E5.
Qed.

(** The credential test: on the tokens if the line lexes, on the raw text if not. *)
Definition credential_test (command : pystr) : bool :=
  match shlex_split command with
  | Ok tokens => _contains_normalized_credential tokens
  | Err _ => _contains_authorization_skeleton command || _contains_fragmented_credential command
  end.

Lemma classify_spec command n : 0 <= n ->
  exists k why, classify_command command n = Ok (mkClassification (record_of command n k) why) /\
    (k = REDACTED <-> raw_secret command || credential_test command = true) /\
    (k = REPLAYABLE <-> raw_secret command || credential_test command = false /\
       exists p, _parse_one_simple_command command None = Ok p /\ replay_policy p /\
         len command <= MAX_COMMAND_CHARS).
Proof.
  intros Hn. unfold classify_command. destruct (raw_secret command); cbn [orb].
  { destruct (redacted_Ok n Hn) as [why ->]. exists REDACTED, why. split; [done|]. split; [done|].
    split; [done|]. by intros [? _]. }
  fold (credential_test command). destruct (credential_test command).
  { destruct (redacted_Ok n Hn) as [why ->]. exists REDACTED, why. split; [done|]. split; [done|].
    split; [done|]. by intros [? _]. }
  set (ts := match shlex_split command with Ok tokens => Some tokens | Err _ => None end).
  assert (Hts : given_tokens command ts) by (unfold given_tokens; subst ts; by destruct (shlex_split command)).
  destruct (_parse_one_simple_command command ts) as [p|e] eqn:Hp.
  - destruct (judge_spec command n p Hn) as (k & why & -> & Hk & Hr).
    exists k, why. split; [done|]. split; [done|]. rewrite Hr.
    destruct (parse_Ok _ _ _ Hts Hp) as (Hsc & H0 & first & Hf & He).
    assert (_parse_one_simple_command command None = Ok p) as ->.
    { rewrite (parse_simple command None (pc_argv p) first) //. destruct p. simpl in *. by subst. }
    split; [intros []; eauto|]. intros (_ & p' & Hp' & Hrest). by injection Hp' as <-.
  - apply parse_Err in Hp as He. subst e. rewrite refused_Ok; [done|by auto|].
    eexists UNREPRESENTABLE, _. split; [done|]. split; [done|]. split; [done|].
    intros (_ & p & Hp' & _).
    destruct (parse_Ok command None p I Hp') as (Hsc & _ & first & Hf & _).
    rewrite (parse_simple command ts (pc_argv p) first) // in Hp.
Qed.

(** A run of matched characters, then a match: the pieces the pattern lemmas use. *)
Lemma matches_word s prev rest :
  exists prev', matches (word s) (prev, s ++ rest) (prev', rest).
Proof.
  revert prev. induction s as [|c s IH]; intros prev; simpl.
  - eexists. apply m_eps.
  - destruct (IH (Some c)) as [p' Hp]. exists p'. eapply m_seq; [|exact Hp].
    apply m_cls, Z.eqb_refl.
Qed.

Lemma matches_ci_word pat s prev rest :
  Forall2 (fun a c => ci_char a c = true) pat s ->
  exists prev', matches (ci_word pat) (prev, s ++ rest) (prev', rest).
Proof.
  intros Hall. revert prev. induction Hall as [|a c pat s Hc _ IH]; intros prev; simpl.
  - eexists. apply m_eps.
  - destruct (IH (Some c)) as [p' Hp]. exists p'. eapply m_seq; [|exact Hp]. by apply m_cls.
Qed.

Lemma matches_star_run t s prev rest : forallb t s = true ->
  exists prev', matches (Star (Cls t)) (prev, s ++ rest) (prev', rest).
Proof.
  revert prev. induction s as [|c s IH]; intros prev; simpl.
  - eexists. apply m_star0.
  - intros [Hc Hs]%andb_true_iff. destruct (IH (Some c) Hs) as [p' Hp].
    exists p'. eapply m_star1; [|exact Hp]. by apply m_cls.
Qed.

Lemma matches_times_run t s prev rest : forallb t s = true ->
  exists prev', matches (times (length s) (Cls t)) (prev, s ++ rest) (prev', rest) /\
    prev' = match last s with Some c => Some c | None => prev end.
Proof.
  revert prev. induction s as [|c s IH]; intros prev; simpl.
  - eexists. split; [apply m_eps|done].
  - intros [Hc Hs]%andb_true_iff. destruct (IH (Some c) Hs) as (p' & Hp & ->).
    eexists. split; [eapply m_seq; [|exact Hp]; by apply m_cls|].
    by destruct s as [|d s]; [|rewrite last_cons_cons; destruct (last (d :: s)) eqn:E;
      [|apply last_None in E]].
Qed.

Lemma search_at r before after q :
  matches r (last before, after) q -> search r (before ++ after) = true.
Proof.
  intros Hm. apply search_from_spec. exists before, after, q. split; [done|].
  by destruct (last before).
Qed.

(** [Authorization: <credentials>] anywhere in the line, in any letter case. *)
Lemma authorization_found before word blanks1 blanks2 c after :
  Forall2 (fun a b => ci_char a b = true) (u "authorization") word ->
  forallb is_space blanks1 = true -> forallb is_space blanks2 = true ->
  is_space c || char_in c [SQ; DQ] = false ->
  search _AUTHORIZATION_RE (before ++ word ++ blanks1 ++ [58] ++ blanks2 ++ [c] ++ after) = true.
Proof.
  intros Hw Hb1 Hb2 Hc.
  destruct (matches_ci_word _ _ (last before) (blanks1 ++ [58] ++ blanks2 ++ [c] ++ after) Hw) as [p1 M1].
  destruct (matches_star_run _ _ p1 ([58] ++ blanks2 ++ [c] ++ after) Hb1) as [p2 M2].
  destruct (matches_star_run _ _ (Some 58) ([c] ++ after) Hb2) as [p3 M3].
  eapply (search_at _ _ _ (Some c, after)). unfold _AUTHORIZATION_RE, auth_colon, seqs. simpl foldr.
  eapply m_seq.
  { eapply m_seq; [exact M1|]. eapply m_seq; [exact M2|]. eapply m_seq; [by apply m_cls|]. apply m_eps. }
  eapply m_seq; [exact M3|]. eapply m_seq; [|apply m_eps].
  eapply m_seq; [|apply m_star0]. apply m_cls. by rewrite Hc.
Qed.

(** An AWS access key id, not part of a longer run of capitals and digits. *)
Lemma aws_key_found before tag key after :
  tag = u "AKIA" \/ tag = u "ASIA" -> length key = 16%nat -> forallb upper_digit key = true ->
  match last before with Some c => upper_digit c = false | None => True end ->
  match after with c :: _ => upper_digit c = false | [] => True end ->
  search _AWS_ACCESS_KEY_RE (before ++ tag ++ key ++ after) = true.
Proof.
  intros Htag Hlen Hkey Hb Ha.
  assert (Ht : exists p1, matches (alts [PyText.word (u "AKIA"); PyText.word (u "ASIA")])
                 (last before, tag ++ key ++ after) (p1, key ++ after)).
  { destruct Htag as [->| ->]; [destruct (matches_word (u "AKIA") (last before) (key ++ after)) as [p M]
      |destruct (matches_word (u "ASIA") (last before) (key ++ after)) as [p M]];
      exists p; [by apply m_altl|by apply m_altr, m_altl]. }
  destruct Ht as [p1 M1].
  destruct (matches_times_run _ _ p1 after Hkey) as (p2 & M2 & ->). rewrite Hlen in M2.
  eapply (search_at _ _ _ (_, after)). unfold _AWS_ACCESS_KEY_RE, seqs. cbn [foldr].
  eapply m_seq; [apply m_look; by destruct (last before) as [c|]; [rewrite Hb|]|].
  eapply m_seq; [exact M1|]. eapply m_seq; [exact M2|].
  eapply m_seq; [apply m_look; by destruct after as [|c ?]; [|rewrite Ha]|]. apply m_eps.
Qed.

End Theorems.

(** ** The theorems *)
Section Properties.
Context `{Unicode}.

(** C24. [classify_command] marks a command REPLAYABLE exactly when no secret
    pattern matches its text or its tokens, the line is one simple command
    (position by position: no unquoted metacharacter, no substitution, quotes
    closed, no glob, no parameter, no assignment prefix), its executable passes
    every deny list and interpreter rule, and it fits the length limit. *)
Theorem classify_replayable_iff command n : 0 <= n ->
  (exists c, classify_command command n = Ok c /\ disposition (cls_record c) = REPLAYABLE) <->
  (raw_secret command = false /\
   exists tokens first,
     simple_command command tokens /\ tokens !! 0%nat = Some first /\
     _contains_normalized_credential tokens = false /\
     replay_policy (mkParsed (str_lower (path_name (parse_path first))) tokens 0) /\
     len command <= MAX_COMMAND_CHARS).
Proof.
  intros Hn. destruct (classify_spec command n Hn) as (k & why & Hc & _ & Hr).
  split.
  - intros (c & Hc' & Hk). rewrite Hc in Hc'. injection Hc' as <-.
    assert (k = REPLAYABLE) as Hk' by (destruct k; simpl in Hk; congruence).
    apply Hr in Hk' as ([Hraw Hcred]%orb_false_iff & p & Hp & Hpol & Hlen).
    split; [done|]. destruct (parse_Ok command None p I Hp) as (Hsc & H0 & first & Hf & He).
    exists (pc_argv p), first. split; [done|]. split; [done|].
    unfold credential_test in Hcred. rewrite (sc_tokens _ _ Hsc) in Hcred.
    split; [done|]. split; [|done]. destruct p. simpl in *. by subst.
  - intros (Hraw & tokens & first & Hsc & Hf & Hcred & Hpol & Hlen).
    eexists. split; [exact Hc|].
    assert (k = REPLAYABLE) as ->; [|done]. apply Hr. split.
    { unfold credential_test. by rewrite Hraw (sc_tokens _ _ Hsc) Hcred. }
    eexists. split; [by apply (parse_simple command None tokens first)|]. done.
Qed.

(** [classify_command] never fails for a non-negative sequence number, and
    its record is determined by the disposition: a replayable record carries the
    command verbatim, a redacted one a fixed text, the others a cut-off display
    and no executable; the record passes the validation of [CommandRecord]. *)
Theorem classify_command_total command n : 0 <= n ->
  exists c, classify_command command n = Ok c /\
    cls_record c = record_of command n (disposition (cls_record c)) /\
    command_wf (cls_record c).
Proof.
  intros Hn. destruct (classify_spec command n Hn) as (k & why & Hc & _ & Hr).
  eexists. split; [exact Hc|]. cbn [cls_record].
  assert (disposition (record_of command n k) = k) as -> by by destruct k.
  split; [done|]. destruct k.
  - destruct (proj1 Hr eq_refl) as (_ & p & _ & _ & Hlen).
    pose proof (replayable_Ok n command Hn Hlen) as Hok. by apply construct_Ok in Hok as [_ ?].
  - destruct (redacted_Ok n Hn) as [w Hok]. unfold _redacted in Hok.
    apply rbind_Ok in Hok as (r & Hok & _). by apply construct_Ok in Hok as [_ ?].
  - pose proof (refused_Ok n command UNSAFE [] Hn (or_introl eq_refl)) as Hok.
    apply rbind_Ok in Hok as (r & Hok & _). by apply construct_Ok in Hok as [_ ?].
  - pose proof (refused_Ok n command UNREPRESENTABLE [] Hn (or_intror eq_refl)) as Hok.
    apply rbind_Ok in Hok as (r & Hok & _). by apply construct_Ok in Hok as [_ ?].
Qed.

(** C25. In a replayable command every shell metacharacter stands inside quotes,
    and a backquote or a dollar-parenthesis stands inside single quotes or after
    a backslash: the shell that replays the line runs no second command. *)
Theorem replayable_metacharacters_quoted command n c : 0 <= n ->
  classify_command command n = Ok c -> disposition (cls_record c) = REPLAYABLE ->
  forall i ch, command !! i = Some ch ->
    (is_metachar ch = true -> fst (live command i) <> None) /\
    (starts_substitution ch (drop (S i) command) = true ->
       fst (live command i) = Some SQ \/ snd (live command i) = true).
Proof.
  intros Hn Hc Hk i ch Hi.
  destruct (classify_spec command n Hn) as (k & why & Hc' & _ & Hr).
  rewrite Hc in Hc'. injection Hc' as ->.
  assert (k = REPLAYABLE) as Hk' by (destruct k; simpl in Hk; congruence).
  apply Hr in Hk' as (_ & p & Hp & _).
  destruct (parse_Ok command None p I Hp) as (Hsc & _).
  pose proof (sc_positions _ _ Hsc i ch Hi) as Ha.
  destruct (live command i) as [q e]. simpl. unfold allowed in Ha.
  destruct q as [q|]; simpl in Ha |- *.
  - destruct (q =? SQ) eqn:Eq; [apply Z.eqb_eq in Eq as ->; by auto|].
    split; [done|]. destruct e; [by auto|].
    destruct (q =? DQ); apply negb_true_iff in Ha; [|apply orb_false_iff in Ha as [Ha _]]; congruence.
  - destruct e; [split; [|by auto]; intros Hm; by rewrite Hm in Ha|].
    apply negb_true_iff, orb_false_iff in Ha as [Ha1 Ha2]. split; congruence.
Qed.


(** The recovery engine parses a stored replayable command again, without
    the classifier's tokens: it gets the same tokens and executable the
    classifier judged, and the executable passes the same policy. *)
Theorem replayable_reparses command n c : 0 <= n ->
  classify_command command n = Ok c -> disposition (cls_record c) = REPLAYABLE ->
  exists p tokens, _parse_one_simple_command command None = Ok p /\
    shlex_split command = Ok tokens /\ _parse_one_simple_command command (Some tokens) = Ok p /\
    replay_policy p /\ pc_executable p = _command_name tokens.
Proof.
  intros Hn Hc Hk.
  destruct (classify_spec command n Hn) as (k & why & Hc' & _ & Hr).
  rewrite Hc in Hc'. injection Hc' as ->.
  assert (k = REPLAYABLE) as Hk' by (destruct k; simpl in Hk; congruence).
  apply Hr in Hk' as (_ & p & Hp & Hpol & _).
  destruct (parse_Ok command None p I Hp) as (Hsc & H0 & first & Hf & He).
  exists p, (pc_argv p). split; [done|]. split; [apply (sc_tokens _ _ Hsc)|].
  split; [|split; [done|]].
  - rewrite (parse_simple command (Some (pc_argv p)) (pc_argv p) first) //.
    + apply (sc_tokens _ _ Hsc).
    + destruct p. simpl in *. by subst.
  - destruct (sc_first _ _ Hsc) as (f & Hf' & Hfull). rewrite Hf in Hf'. injection Hf' as <-.
    unfold _command_name. destruct (head_assignment _ _ Hf Hfull) as [_ ->]. by rewrite Hf He.
Qed.

End Properties.

(** ** Concrete runs *)
Lemma classify_replayable_iff_witness :
  0 <= 3 /\ @raw_secret ascii_unicode (u "ls -l '/tmp/a;b'") = false /\
  exists tokens first,
    simple_command (u "ls -l '/tmp/a;b'") tokens /\ tokens !! 0%nat = Some first /\
    @_contains_normalized_credential ascii_unicode tokens = false /\
    @replay_policy (mkParsed (@str_lower ascii_unicode (path_name (parse_path first))) tokens 0) /\
    len (u "ls -l '/tmp/a;b'") <= MAX_COMMAND_CHARS.
Proof.
  split; [lia|].
  apply (proj1 (@classify_replayable_iff ascii_unicode (u "ls -l '/tmp/a;b'") 3 ltac:(lia))).
  eexists. split; [vm_compute; reflexivity|reflexivity].
Defined.

Lemma classify_command_total_witness :
  0 <= 7 /\ exists c, @classify_command ascii_unicode (u "rm -rf /") 7 = Ok c /\
    cls_record c = record_of (u "rm -rf /") 7 (disposition (cls_record c)) /\ command_wf (cls_record c).
Proof. split; [lia|]. apply (@classify_command_total ascii_unicode). lia. Defined.

Lemma replayable_metacharacters_quoted_witness :
  is_metachar 59 = true /\ fst (live (u "ls 'a;b'") 5) <> None.
Proof.
  split; [reflexivity|].
  refine (proj1 (@replayable_metacharacters_quoted ascii_unicode (u "ls 'a;b'") 3
    (mkClassification (record_of (u "ls 'a;b'") 3 REPLAYABLE) (u "single simple command accepted"))
    _ _ _ 5%nat 59 _) _);
    [lia|vm_compute; reflexivity|reflexivity|vm_compute; reflexivity|reflexivity].
Defined.


Lemma replayable_reparses_witness :
  exists p tokens, @_parse_one_simple_command ascii_unicode (u "ls -l") None = Ok p /\
    shlex_split (u "ls -l") = Ok tokens /\
    @_parse_one_simple_command ascii_unicode (u "ls -l") (Some tokens) = Ok p /\
    replay_policy p /\ pc_executable p = @_command_name ascii_unicode tokens.
Proof.
  refine (@replayable_reparses ascii_unicode (u "ls -l") 3
    (mkClassification (record_of (u "ls -l") 3 REPLAYABLE) (u "single simple command accepted")) _ _ _);
    [lia|vm_compute; reflexivity|reflexivity].
Defined.

(** The deny list of interpreters has an upper-case entry, the executable it is
    compared with is in lower case: R scripts pass as replayable. *)
Example r_script_is_replayable :
  (exists c, @classify_command ascii_unicode (u "R foo.R") 1 = Ok c /\
     disposition (cls_record c) = REPLAYABLE) /\
  (exists c, @classify_command ascii_unicode (u "julia foo.jl") 1 = Ok c /\
     disposition (cls_record c) = UNSAFE).
Proof. split; eexists; (split; [vm_compute; reflexivity|reflexivity]). Qed.

(** A flag that only prints the version counts as interactive. *)
Example python_version_is_unsafe :
  exists c, @classify_command ascii_unicode (u "python --version") 1 = Ok c /\
    disposition (cls_record c) = UNSAFE /\
    cls_reason c = u "interactive command requires unavailable state".
Proof. eexists. split; [vm_compute; reflexivity|split; reflexivity]. Qed.

(** A quoted header value separated by a blank escapes the header patterns. *)
Example split_header_is_replayable :
  exists c, @classify_command ascii_unicode (u "http -H Authorization: 'Bearer x'") 1 = Ok c /\
    disposition (cls_record c) = REPLAYABLE.
Proof. eexists. split; [vm_compute; reflexivity|reflexivity]. Qed.
