(* ===== verification/Protocol.v ===== *)
(** * The wire protocol ([protocol.py])

    Requests and responses, their JSON-line framing, decoders that check every
    field and encoders that decode their own output before they return it. *)
From S2P Require Import Prelude PyText PyVal PyFloat Json Model Shlex Classifier.

Definition SCHEMA_VERSION : Z := 1.
Definition MAX_MESSAGE_BYTES : Z := 16384.
Definition MAX_RESPONSE_BYTES : Z := 16384.
Definition MAX_LOCAL_FRAME_BYTES : Z := 4096.
Definition MAX_COMMAND_CHARS : Z := 3072.
Definition MAX_PATH_CHARS : Z := 768.
Definition MAX_ID_CHARS : Z := 128.
Definition MAX_ERROR_MESSAGE_CHARS : Z := 96.
Definition MAX_DIAGNOSTIC_CHARS : Z := 160.
Definition MAX_ITEMS : Z := 256.
Definition MAX_JSON_NESTING : Z := 16.
Definition _MAX_INTEGER : Z := 2 ^ 63 - 1.

(** [registry.py] *)
Definition SUPPORTED_ADAPTERS : list pystr := map u
  ["gnome-terminal"; "kitty"; "ghostty"; "xfce4-terminal"; "konsole"]%string.

(** ** Enumerations *)
Inductive EventType :=
  ET_COMMAND_STARTED | ET_COMMAND_FINISHED | ET_PROMPT_READY | ET_CWD_CHANGED | ET_EXPLICIT_EXIT.

Inductive Operation :=
| REGISTER | COMMAND_STARTED | COMMAND_FINISHED | PROMPT_READY | CWD_CHANGED | OP_EXPLICIT_EXIT
| STATUS | SNAPSHOT | RESTORE_LIST | RESTORE_EXECUTE | RESTORE_RETRY | DISCARD.

Inductive ErrorCode :=
| INVALID_REQUEST | PEER_REJECTED | UNAUTHORIZED | SEQUENCE_REJECTED | WORKSPACE_MISMATCH
| UNKNOWN_ITEM | ATTEMPT_MISMATCH | ADAPTER_UNAVAILABLE | PERSISTENCE_FAILED
| SERVICE_UNAVAILABLE | INTERNAL_ERROR.

#[export] Instance EventType_enum : StrEnum EventType := {|
  enum_members := [ET_COMMAND_STARTED; ET_COMMAND_FINISHED; ET_PROMPT_READY; ET_CWD_CHANGED;
                   ET_EXPLICIT_EXIT];
  enum_value x := match x with
    | ET_COMMAND_STARTED => u "command_started" | ET_COMMAND_FINISHED => u "command_finished"
    | ET_PROMPT_READY => u "prompt_ready" | ET_CWD_CHANGED => u "cwd_changed"
    | ET_EXPLICIT_EXIT => u "explicit_exit" end
|}.

#[export] Instance Operation_enum : StrEnum Operation := {|
  enum_members := [REGISTER; COMMAND_STARTED; COMMAND_FINISHED; PROMPT_READY; CWD_CHANGED;
                   OP_EXPLICIT_EXIT; STATUS; SNAPSHOT; RESTORE_LIST; RESTORE_EXECUTE;
                   RESTORE_RETRY; DISCARD];
  enum_value x := match x with
    | REGISTER => u "register" | COMMAND_STARTED => u "command_started"
    | COMMAND_FINISHED => u "command_finished" | PROMPT_READY => u "prompt_ready"
    | CWD_CHANGED => u "cwd_changed" | OP_EXPLICIT_EXIT => u "explicit_exit"
    | STATUS => u "status" | SNAPSHOT => u "snapshot" | RESTORE_LIST => u "restore_list"
    | RESTORE_EXECUTE => u "restore_execute" | RESTORE_RETRY => u "restore_retry"
    | DISCARD => u "discard" end
|}.

#[export] Instance ErrorCode_enum : StrEnum ErrorCode := {|
  enum_members := [INVALID_REQUEST; PEER_REJECTED; UNAUTHORIZED; SEQUENCE_REJECTED;
                   WORKSPACE_MISMATCH; UNKNOWN_ITEM; ATTEMPT_MISMATCH; ADAPTER_UNAVAILABLE;
                   PERSISTENCE_FAILED; SERVICE_UNAVAILABLE; INTERNAL_ERROR];
  enum_value x := match x with
    | INVALID_REQUEST => u "invalid_request" | PEER_REJECTED => u "peer_rejected"
    | UNAUTHORIZED => u "unauthorized" | SEQUENCE_REJECTED => u "sequence_rejected"
    | WORKSPACE_MISMATCH => u "workspace_mismatch" | UNKNOWN_ITEM => u "unknown_item"
    | ATTEMPT_MISMATCH => u "attempt_mismatch" | ADAPTER_UNAVAILABLE => u "adapter_unavailable"
    | PERSISTENCE_FAILED => u "persistence_failed" | SERVICE_UNAVAILABLE => u "service_unavailable"
    | INTERNAL_ERROR => u "internal_error" end
|}.

#[export] Instance EventType_eq_dec : EqDecision EventType.
Proof. solve_decision. Defined.
#[export] Instance Operation_eq_dec : EqDecision Operation.
Proof. solve_decision. Defined.
#[export] Instance ErrorCode_eq_dec : EqDecision ErrorCode.
Proof. solve_decision. Defined.

#[export] Instance EventType_laws : StrEnumLaws EventType.
Proof. enum_laws. Qed.
#[export] Instance Operation_laws : StrEnumLaws Operation.
Proof. enum_laws. Qed.
#[export] Instance ErrorCode_laws : StrEnumLaws ErrorCode.
Proof. enum_laws. Qed.

Definition ERROR_MESSAGES (code : ErrorCode) : pystr :=
  match code with
  | INVALID_REQUEST => u "request rejected"
  | PEER_REJECTED => u "peer uid rejected"
  | UNAUTHORIZED => u "event authority rejected"
  | SEQUENCE_REJECTED => u "event sequence rejected"
  | WORKSPACE_MISMATCH => u "recovery workspace rejected"
  | UNKNOWN_ITEM => u "recovery item rejected"
  | ATTEMPT_MISMATCH => u "recovery attempt rejected"
  | ADAPTER_UNAVAILABLE => u "terminal adapter unavailable"
  | PERSISTENCE_FAILED => u "recovery state was not saved"
  | SERVICE_UNAVAILABLE => u "service unavailable"
  | INTERNAL_ERROR => u "request could not be completed"
  end.

(** ** Text that may leave the service *)
Definition _SAFE_EXTERNAL_TEXT_CATALOG : list pystr := map u
  ["healthy"; "partial"; "prior_boot"; "previous_boot"; "same_boot_dead"; "process_unknown";
   "explicit_exit"; "still_alive"; "restored"; "details unavailable"]%string.

Record SafeExternalText := mkSafe { safe_value : pystr }.

Definition catalog (value : pystr) : result SafeExternalText :=
  raise_if (negb (str_in value _SAFE_EXTERNAL_TEXT_CATALOG))
    (ValueError (u "external text is not in the fixed catalog")) ;?
  Ok (mkSafe value).

(** [SafeExternalText.sanitize]: the argument is dropped. *)
Definition sanitize : SafeExternalText := mkSafe (u "details unavailable").

Inductive ReplayDisplay :=
| RedactedDisplay (value : pystr)
| DecodedReplayDisplay (value : pystr).

Definition display_value (d : ReplayDisplay) : pystr :=
  match d with RedactedDisplay v | DecodedReplayDisplay v => v end.

Definition replay_char (c : Z) : bool := is_alnum c || char_in c (u " ./_+-").

(** [_SAFE_REPLAY_DISPLAY_RE.fullmatch(value)] *)
Definition _SAFE_REPLAY_DISPLAY_RE (value : pystr) : bool :=
  match value with
  | c :: rest => is_alnum c && forallb replay_char rest
  | [] => false
  end.

Definition display_markers : list pystr := map u ["/etc/"; "/private"; ".."; "="; ";"]%string.

(** The two policy tests on a classified display. *)
Definition display_allowed (value : pystr) : bool :=
  negb (MAX_DIAGNOSTIC_CHARS <? len value) && _SAFE_REPLAY_DISPLAY_RE value &&
  negb (is_prefix (u "cat ") value || is_prefix (u "rm ") value ||
        existsb (fun marker => contains marker value) display_markers).

Section WithUnicode.
Context `{Unicode}.

Definition from_command_record (record : CommandRecord) : result ReplayDisplay :=
  let source := match executable record with
                | Some (c :: s) => c :: s
                | _ => display record
                end in
  let? classification := classify_command source (cmd_sequence record) in
  let classified := cls_record classification in
  raise_if (negb (bool_decide (disposition classified = REPLAYABLE)) || negb (active classified) ||
            negb (bool_decide (executable classified = executable record)) ||
            negb (str_eqb (display classified) (display record)) || negb (active record))
    (ValueError (u "command record does not match classifier policy")) ;?
  raise_if (negb (display_allowed (display classified)))
    (ValueError (u "classified display violates bounded display policy")) ;?
  Ok (RedactedDisplay (display classified)).

End WithUnicode.

(** ** Requests *)
Record LocalEvent := mkLocal {
  le_type : EventType;
  le_shell_id : pystr;
  le_cwd : option pystr;
  le_command_sequence : option Z;
  le_command : option pystr;
  le_exit_status : option Z;
}.

Record RegisterRequest := mkRegister {
  reg_shell_id : pystr;
  reg_identity : ProcessIdentity;
  reg_adapter : pystr;
  reg_cwd : pystr;
  reg_sequence : Z;
}.

Record EventRequest := mkEvent {
  ev_operation : Operation;
  ev_shell_id : pystr;
  ev_capability : pystr;
  ev_identity : ProcessIdentity;
  ev_sequence : Z;
  ev_cwd : option pystr;
  ev_command_sequence : option Z;
  ev_command : option pystr;
  ev_exit_status : option Z;
}.

Record RestoreListRequest := mkRestoreList {
  rl_workspace_id : option pystr;
  rl_attempt_id : option pystr;
}.

Record RestoreExecuteRequest := mkExecute {
  re_workspace_id : pystr;
  re_selected_item_ids : list pystr;
  re_approved_item_ids : list pystr;
}.

Record RestoreRetryRequest := mkRetry {
  rr_workspace_id : pystr;
  rr_attempt_id : pystr;
  rr_approved_item_ids : list pystr;
}.

Record DiscardRequest := mkDiscard {
  dr_workspace_id : pystr;
  dr_confirm : bool;
}.

Inductive ServiceRequest :=
| RegisterReq (r : RegisterRequest)
| EventReq (r : EventRequest)
| StatusReq
| SnapshotReq
| RestoreListReq (r : RestoreListRequest)
| RestoreExecuteReq (r : RestoreExecuteRequest)
| RestoreRetryReq (r : RestoreRetryRequest)
| DiscardReq (r : DiscardRequest).

(** ** Responses *)
Record StatusResponse := mkStatus {
  st_ready : bool;
  st_registered_shells : Z;
  st_dirty_generation : Z;
  st_durable_generation : Z;
  st_write_active : bool;
  st_durability_degraded : bool;
  st_last_error : option SafeExternalText;
  st_recovery_item_count : Z;
  st_diagnostics : list SafeExternalText;
}.

Record RecoveryItemView := mkView {
  vw_item_id : pystr;
  vw_shell_id : pystr;
  vw_reason : SafeExternalText;
  vw_level : RestorationLevel;
  vw_directory : pystr;
  vw_directory_warning : option SafeExternalText;
  vw_replay_display : option ReplayDisplay;
  vw_replay_eligible : bool;
  vw_resume_command : pystr;
  vw_resume_summary : pystr;
  vw_resume_session_count : Z;
}.

Record OutcomeView := mkOutcomeView {
  ov_item_id : pystr;
  ov_kind : OutcomeKind;
  ov_message : SafeExternalText;
}.

Record ProtocolError := mkProtocolError { pe_code : ErrorCode; pe_message : pystr }.

Inductive ServiceResponse :=
| RegisterResponse (capability : pystr) (resume_sequence : Z)
| EventResponse (sequence : Z)
| StatusResp (r : StatusResponse)
| SnapshotResponse (durable_generation : Z)
| RestoreListResponse (workspace : option pystr) (views : list RecoveryItemView)
    (diagnostics : list SafeExternalText)
| RestoreResultResponse (workspace attempt : pystr) (views : list OutcomeView)
    (remaining_item_ids : list pystr)
| DiscardResponse (workspace : pystr) (discarded : bool)
| ErrorResponse (error : ProtocolError).

(** ** Framing *)

(** The [object_pairs_hook]: a repeated key is an error. *)
Fixpoint duplicate_go (seen : list pystr) (pairs : pydict) : result unit :=
  match pairs with
  | [] => Ok tt
  | (key, _) :: rest =>
      raise_if (str_in key seen) (ValueError (u "duplicate JSON key: " ++ key)) ;?
      duplicate_go (key :: seen) rest
  end.

Definition _duplicate_rejector (pairs : pydict) : result pyval :=
  duplicate_go [] pairs ;? Ok (VDict pairs).

(** The number of values in a value: how often the loop below turns. *)
Fixpoint value_size (v : pyval) : nat :=
  match v with
  | VList l => S (foldr Nat.add O (map value_size l))
  | VDict d => S (foldr Nat.add O (map (fun kv => value_size kv.2) d))
  | _ => 1%nat
  end.

Definition children (v : pyval) : list pyval :=
  match v with VList l => l | VDict d => map snd d | _ => [] end.

(** The loop over the stack; the top of the stack is the head of the list. *)
Fixpoint depth_loop (fuel : nat) (stack : list (pyval * Z)) : result unit :=
  match stack, fuel with
  | [], _ => Ok tt
  | _, O => Ok tt
  | (current, depth) :: rest, S fuel' =>
      raise_if (MAX_JSON_NESTING <? depth) (ValueError (u "JSON nesting exceeds limit")) ;?
      depth_loop fuel' (rev (map (fun child => (child, depth + 1)) (children current)) ++ rest)
  end.

Definition _require_json_depth (value : pyval) : result unit :=
  depth_loop (value_size value) [(value, 1)].

Definition newline : Z := 10.

(** [raw.endswith(b"\n") and raw.count(b"\n") == 1] *)
Definition one_trailing_newline (raw : pybytes) : bool :=
  ends_with [newline] raw && (len (filter (fun b => b = newline) raw) =? 1).

Section WithLimit.
(** The recursion limit of the interpreter. *)
Variable rec_limit : nat.

Definition _decode_json_line (raw : pybytes) (limit : Z) (context : pystr) : result pydict :=
  raise_if (limit <? len raw) (ValueError (context ++ u " message exceeds byte limit")) ;?
  raise_if (negb (one_trailing_newline raw))
    (ValueError (context ++ u " must end in exactly one newline")) ;?
  let? value :=
    match (let? text := utf8_decode false (removelast raw) in
           json_loads _duplicate_rejector rec_limit text) with
    | Ok v => Ok v
    | Err e => if is_value_error e || bool_decide (e = RecursionError)
               then Err (ValueError (u "invalid " ++ context ++ u " JSON")) else Err e
    end in
  _require_json_depth value ;?
  match value with
  | VDict d => Ok d
  | _ => Err (ValueError (context ++ u " must be a JSON object"))
  end.

Definition wire_options : dump_options := {| ensure_ascii := false; allow_nan := false |}.

Definition _encode_json_line (payload : pydict) (limit : Z) (context : pystr) : result pybytes :=
  let? raw :=
    match (let? text := json_dumps wire_options (VDict payload) in
           let? bytes := utf8_encode text in Ok (bytes ++ [newline])) with
    | Ok raw => Ok raw
    | Err e => if is_value_error e || match e with TypeError _ => true | _ => false end
               then Err (ValueError (u "invalid " ++ context ++ u " value")) else Err e
    end in
  raise_if (limit <? len raw) (ValueError (context ++ u " message exceeds byte limit")) ;?
  Ok raw.

End WithLimit.

(** ** Field readers *)
Definition _exact (payload : pydict) (keys : list pystr) (context : pystr) : result unit :=
  let actual := dict_keys payload in
  if set_eqb actual keys then Ok tt
  else
    let unknown := key_diff actual keys in
    let missing := key_diff keys actual in
    let detail := if bool_decide (unknown = []) then u "missing" else u "unknown" in
    let values := if bool_decide (unknown = []) then missing else unknown in
    Err (ValueError (detail ++ u " keys in " ++ context ++ u ": " ++
                     join (u ", ") (sorted_strs values))).

Definition _schema (payload : pydict) : result unit :=
  match dict_get_none payload (u "schema_version") with
  | VInt v => raise_if (negb (v =? SCHEMA_VERSION)) (ValueError (u "unsupported schema version"))
  | _ => Err (ValueError (u "unsupported schema version"))
  end.

Definition forbidden_char (c : Z) : bool := (c <? 32) || (c =? 127) || is_surrogate c.

Definition _string (value : pyval) (name : pystr) (limit : Z) (empty : bool) : result pystr :=
  match value with
  | VStr s =>
      raise_if (negb empty && bool_decide (s = [])) (ValueError (name ++ u " must be a string")) ;?
      raise_if (limit <? len s) (ValueError (name ++ u " exceeds character limit")) ;?
      raise_if (existsb forbidden_char s)
        (ValueError (name ++ u " contains forbidden characters")) ;?
      Ok s
  | _ => Err (ValueError (name ++ u " must be a string"))
  end.

Definition id_char (c : Z) : bool := is_alnum c || (c =? 95) || (c =? 45).

(** [_ID_RE.fullmatch] and [_CAPABILITY_RE.fullmatch] *)
Definition _ID_RE (s : pystr) : bool := (1 <=? len s) && (len s <=? 128) && forallb id_char s.
Definition _CAPABILITY_RE (s : pystr) : bool :=
  (32 <=? len s) && (len s <=? 128) && forallb id_char s.

Definition _id (value : pyval) (name : pystr) (shell : bool) : result pystr :=
  let? text := _string value name MAX_ID_CHARS false in
  raise_if (negb (_ID_RE text) || (shell && (len text <? 16)))
    (ValueError (u "invalid " ++ name)) ;?
  Ok text.

Definition _capability (value : pyval) : result pystr :=
  let? text := _string value (u "capability") MAX_ID_CHARS false in
  raise_if (negb (_CAPABILITY_RE text)) (ValueError (u "invalid capability")) ;? Ok text.

Definition _integer (value : pyval) (name : pystr) (low high : Z) : result Z :=
  match value with
  | VInt z => raise_if (negb ((low <=? z) && (z <=? high))) (ValueError (u "invalid " ++ name)) ;? Ok z
  | _ => Err (ValueError (u "invalid " ++ name))
  end.

Definition _boolean (value : pyval) (name : pystr) : result bool :=
  match value with VBool b => Ok b | _ => Err (ValueError (name ++ u " must be boolean")) end.

Definition _absolute (value : pyval) (name : pystr) : result pystr :=
  let? text := _string value name MAX_PATH_CHARS false in
  raise_if (negb (is_absolute (parse_path text))) (ValueError (name ++ u " must be absolute")) ;?
  Ok text.

Definition _enum {A} `{StrEnum A} (value : pyval) (name : pystr) : result A :=
  let? bounded := _string value name MAX_ID_CHARS false in
  result_of_option (enum_of_value bounded) (ValueError (u "invalid " ++ name)).

(** [UUID(text)] and [str]: the text without ["urn:"], ["uuid:"], outer braces and
    dashes must be 32 characters that [int(_, 16)] reads. *)
Fixpoint remove_all (fuel : nat) (needle s : pystr) : pystr :=
  match fuel, s with
  | S fuel', c :: s' =>
      if is_prefix needle s then remove_all fuel' needle (drop (length needle) s)
      else c :: remove_all fuel' needle s'
  | _, _ => s
  end.
Definition remove (needle s : pystr) : pystr := remove_all (length s) needle s.

Definition is_brace (c : Z) : bool := (c =? 123) || (c =? 125).

Fixpoint hex_digits (s : pystr) (acc : Z) (prev_digit : bool) : option Z :=
  match s with
  | [] => if prev_digit then Some acc else None
  | c :: s' =>
      match hex_value c with
      | Some d => hex_digits s' (acc * 16 + d) true
      | None => if (c =? 95) && prev_digit then hex_digits s' acc false else None
      end
  end.

(** [int(text, 16)], for text in ASCII digits. *)
Definition int_of_hex (text : pystr) : option Z :=
  let unprefixed s :=
    match s with
    | 48 :: x :: 95 :: rest => if (x =? 120) || (x =? 88) then hex_digits rest 0 false
                               else hex_digits s 0 false
    | 48 :: x :: rest => if (x =? 120) || (x =? 88) then hex_digits rest 0 false
                         else hex_digits s 0 false
    | _ => hex_digits s 0 false
    end in
  match strip text with
  | 45 :: s => Z.opp <$> unprefixed s
  | 43 :: s => unprefixed s
  | s => unprefixed s
  end.

Definition hex_text (n : Z) (z : Z) : pystr :=
  map (fun i => hex_digit (z / 16 ^ (n - 1 - Z.of_nat i) mod 16)) (seq 0 (Z.to_nat n)).

Definition uuid_canonical (text : pystr) : option pystr :=
  let bare := remove [45] (rev (drop_while is_brace (rev (drop_while is_brace
                (remove (u "uuid:") (remove (u "urn:") text)))))) in
  if negb (len bare =? 32) then None
  else
    z ← int_of_hex bare;
    if (0 <=? z) && (z <? 2 ^ 128) then
      let h := hex_text 32 z in
      Some (take 8 h ++ [45] ++ take 4 (drop 8 h) ++ [45] ++ take 4 (drop 12 h) ++ [45] ++
            take 4 (drop 16 h) ++ [45] ++ drop 20 h)
    else None.

Definition _identity (value : pyval) : result ProcessIdentity :=
  match value with
  | VDict d =>
      _exact d [u "boot_id"; u "pid"; u "start_time"] (u "identity") ;?
      let? v_boot := dict_index d (u "boot_id") in
      let? boot := _string v_boot (u "boot_id") MAX_ID_CHARS false in
      let? canonical := result_of_option (uuid_canonical boot) (ValueError (u "invalid boot_id")) in
      raise_if (negb (str_eqb canonical boot))
        (ValueError (u "boot_id must be canonical UUID text")) ;?
      let? v_pid := dict_index d (u "pid") in
      let? p := _integer v_pid (u "pid") 1 (2 ^ 31 - 1) in
      let? v_start := dict_index d (u "start_time") in
      let? s := _integer v_start (u "start_time") 0 _MAX_INTEGER in
      new_ProcessIdentity canonical p s
  | _ => Err (ValueError (u "identity must be an object"))
  end.

Definition _identity_dict (x : ProcessIdentity) : pyval :=
  VDict [(u "boot_id", VStr (boot_id x)); (u "pid", VInt (pid x));
         (u "start_time", VInt (start_time x))].

Definition _bounded_typed_sequence (value : pyval) (name : pystr) (nonempty : bool)
  : result (list pyval) :=
  match value with
  | VList l =>
      raise_if ((MAX_ITEMS <? len l) || (nonempty && (len l =? 0)))
        (ValueError (u "invalid " ++ name)) ;? Ok l
  | _ => Err (ValueError (u "invalid " ++ name))
  end.

Definition _id_list (value : pyval) (name : pystr) (nonempty : bool) : result (list pystr) :=
  let? sequence := _bounded_typed_sequence value name nonempty in
  let? ids := rmap (fun item => _id item name false) sequence in
  raise_if (negb (nodupb ids)) (ValueError (u "duplicate " ++ name)) ;? Ok ids.

Definition _safe_external_text_from_wire (value : pyval) (name : pystr) : result SafeExternalText :=
  let? text := _string value name MAX_DIAGNOSTIC_CHARS true in
  catalog text.

Definition _safe_external_text_list (value : pyval) (name : pystr) : result (list SafeExternalText) :=
  match value with
  | VList l =>
      raise_if (MAX_ITEMS <? len l) (ValueError (u "invalid " ++ name)) ;?
      rmap (fun item => _safe_external_text_from_wire item name) l
  | _ => Err (ValueError (u "invalid " ++ name))
  end.

(** ** Local frames *)
Definition local_extra (t : EventType) : list pystr :=
  match t with
  | ET_COMMAND_STARTED => [u "command_sequence"; u "command"]
  | ET_COMMAND_FINISHED => [u "command_sequence"; u "exit_status"]
  | ET_PROMPT_READY | ET_CWD_CHANGED => [u "cwd"]
  | ET_EXPLICIT_EXIT => []
  end.

(** [reader(payload[key]) if key in extra else None] *)
Definition optional_field {A} (extra : list pystr) (payload : pydict) (key : pystr)
    (reader : pyval -> result A) : result (option A) :=
  if str_in key extra then
    let? v := dict_index payload key in
    let? x := reader v in Ok (Some x)
  else Ok None.

Definition _local_decoder (payload : pydict) : result LocalEvent :=
  _schema payload ;?
  let? t := _enum (A := EventType) (dict_get_none payload (u "type")) (u "type") in
  let extra := local_extra t in
  _exact payload ([u "schema_version"; u "type"; u "shell_id"] ++ extra) (u "local event") ;?
  let? v_shell := dict_index payload (u "shell_id") in
  let? shell := _id v_shell (u "shell_id") true in
  let? dir := optional_field extra payload (u "cwd") (fun v => _absolute v (u "cwd")) in
  let? sq := optional_field extra payload (u "command_sequence")
               (fun v => _integer v (u "command_sequence") 1 _MAX_INTEGER) in
  let? cmd := optional_field extra payload (u "command")
                (fun v => _string v (u "command") MAX_COMMAND_CHARS false) in
  let? status := optional_field extra payload (u "exit_status")
                   (fun v => _integer v (u "exit_status") 0 255) in
  Ok (mkLocal t shell dir sq cmd status).

Definition local_to_dict (event : LocalEvent) : pydict :=
  [(u "schema_version", VInt 1); (u "type", VStr (enum_value (le_type event)));
   (u "shell_id", VStr (le_shell_id event))] ++
  match le_type event with
  | ET_PROMPT_READY | ET_CWD_CHANGED => [(u "cwd", opt_val VStr (le_cwd event))]
  | ET_COMMAND_STARTED =>
      [(u "command_sequence", opt_val VInt (le_command_sequence event));
       (u "command", opt_val VStr (le_command event))]
  | ET_COMMAND_FINISHED =>
      [(u "command_sequence", opt_val VInt (le_command_sequence event));
       (u "exit_status", opt_val VInt (le_exit_status event))]
  | ET_EXPLICIT_EXIT => []
  end.

(** ** Request decoders *)
Definition _register (payload : pydict) : result ServiceRequest :=
  _exact payload [u "schema_version"; u "operation"; u "shell_id"; u "identity"; u "adapter";
                  u "cwd"; u "sequence"] (u "register request") ;?
  let? v_adapter := dict_index payload (u "adapter") in
  let? ad := _string v_adapter (u "adapter") MAX_ID_CHARS false in
  raise_if (negb (str_in ad SUPPORTED_ADAPTERS)) (ValueError (u "invalid adapter")) ;?
  let? v_shell := dict_index payload (u "shell_id") in
  let? shell := _id v_shell (u "shell_id") true in
  let? v_identity := dict_index payload (u "identity") in
  let? who := _identity v_identity in
  let? v_cwd := dict_index payload (u "cwd") in
  let? dir := _absolute v_cwd (u "cwd") in
  let? v_sequence := dict_index payload (u "sequence") in
  let? sq := _integer v_sequence (u "sequence") 0 0 in
  Ok (RegisterReq (mkRegister shell who ad dir sq)).

(** The keys an event adds, by operation; only event operations are looked up. *)
Definition event_extra (operation : Operation) : result (list pystr) :=
  match operation with
  | COMMAND_STARTED => Ok [u "command_sequence"; u "command"]
  | COMMAND_FINISHED => Ok [u "command_sequence"; u "exit_status"]
  | PROMPT_READY | CWD_CHANGED => Ok [u "cwd"]
  | OP_EXPLICIT_EXIT => Ok []
  | _ => Err KeyError
  end.

Definition _event (payload : pydict) (operation : Operation) : result ServiceRequest :=
  let? extra := event_extra operation in
  _exact payload ([u "schema_version"; u "operation"; u "shell_id"; u "capability"; u "identity";
                   u "sequence"] ++ extra) (u "event request") ;?
  let? v_shell := dict_index payload (u "shell_id") in
  let? shell := _id v_shell (u "shell_id") true in
  let? v_capability := dict_index payload (u "capability") in
  let? cap := _capability v_capability in
  let? v_identity := dict_index payload (u "identity") in
  let? who := _identity v_identity in
  let? v_sequence := dict_index payload (u "sequence") in
  let? sq := _integer v_sequence (u "sequence") 1 _MAX_INTEGER in
  let? dir := optional_field extra payload (u "cwd") (fun v => _absolute v (u "cwd")) in
  let? csq := optional_field extra payload (u "command_sequence")
                (fun v => _integer v (u "command_sequence") 1 _MAX_INTEGER) in
  let? cmd := optional_field extra payload (u "command")
                (fun v => _string v (u "command") MAX_COMMAND_CHARS false) in
  let? status := optional_field extra payload (u "exit_status")
                   (fun v => _integer v (u "exit_status") 0 255) in
  Ok (EventReq (mkEvent operation shell cap who sq dir csq cmd status)).

Definition _control (payload : pydict) (request : ServiceRequest) : result ServiceRequest :=
  _exact payload [u "schema_version"; u "operation"] (u "control request") ;? Ok request.

Definition _restore_list (payload : pydict) : result ServiceRequest :=
  if set_eqb (dict_keys payload) [u "schema_version"; u "operation"] then
    Ok (RestoreListReq (mkRestoreList None None))
  else
    _exact payload [u "schema_version"; u "operation"; u "workspace_id"; u "attempt_id"]
      (u "restore list request") ;?
    let? v_ws := dict_index payload (u "workspace_id") in
    let? ws := _id v_ws (u "workspace_id") false in
    let? v_at := dict_index payload (u "attempt_id") in
    let? att := _id v_at (u "attempt_id") false in
    Ok (RestoreListReq (mkRestoreList (Some ws) (Some att))).

Definition _execute (payload : pydict) : result ServiceRequest :=
  _exact payload [u "schema_version"; u "operation"; u "workspace_id"; u "selected_item_ids";
                  u "approved_item_ids"] (u "restore execute request") ;?
  let? v_selected := dict_index payload (u "selected_item_ids") in
  let? selected := _id_list v_selected (u "selected_item_ids") true in
  let? v_approved := dict_index payload (u "approved_item_ids") in
  let? approved := _id_list v_approved (u "approved_item_ids") false in
  raise_if (negb (subsetb approved selected)) (ValueError (u "approved IDs must be selected")) ;?
  let? v_ws := dict_index payload (u "workspace_id") in
  let? ws := _id v_ws (u "workspace_id") false in
  Ok (RestoreExecuteReq (mkExecute ws selected approved)).

Definition _retry (payload : pydict) : result ServiceRequest :=
  _exact payload [u "schema_version"; u "operation"; u "workspace_id"; u "attempt_id";
                  u "approved_item_ids"] (u "restore retry request") ;?
  let? v_ws := dict_index payload (u "workspace_id") in
  let? ws := _id v_ws (u "workspace_id") false in
  let? v_at := dict_index payload (u "attempt_id") in
  let? att := _id v_at (u "attempt_id") false in
  let? v_approved := dict_index payload (u "approved_item_ids") in
  let? approved := _id_list v_approved (u "approved_item_ids") false in
  Ok (RestoreRetryReq (mkRetry ws att approved)).

Definition _discard (payload : pydict) : result ServiceRequest :=
  _exact payload [u "schema_version"; u "operation"; u "workspace_id"; u "confirm"]
    (u "discard request") ;?
  let? v_confirm := dict_index payload (u "confirm") in
  match v_confirm with
  | VBool true =>
      let? v_ws := dict_index payload (u "workspace_id") in
      let? ws := _id v_ws (u "workspace_id") false in
      Ok (DiscardReq (mkDiscard ws true))
  | _ => Err (ValueError (u "confirm must be true"))
  end.

Definition REQUEST_DECODERS (operation : Operation) (payload : pydict) : result ServiceRequest :=
  match operation with
  | REGISTER => _register payload
  | COMMAND_STARTED | COMMAND_FINISHED | PROMPT_READY | CWD_CHANGED | OP_EXPLICIT_EXIT =>
      _event payload operation
  | STATUS => _control payload StatusReq
  | SNAPSHOT => _control payload SnapshotReq
  | RESTORE_LIST => _restore_list payload
  | RESTORE_EXECUTE => _execute payload
  | RESTORE_RETRY => _retry payload
  | DISCARD => _discard payload
  end.

Definition decode_request_payload (payload : pydict) : result ServiceRequest :=
  _schema payload ;?
  let? operation := _enum (A := Operation) (dict_get_none payload (u "operation")) (u "operation") in
  REQUEST_DECODERS operation payload.

(** ** Request encoder *)
Definition _request_to_dict (request : ServiceRequest) : result pydict :=
  let base op := [(u "schema_version", VInt 1); (u "operation", VStr (enum_value op))] in
  match request with
  | RegisterReq r =>
      Ok (base REGISTER ++
          [(u "shell_id", VStr (reg_shell_id r)); (u "identity", _identity_dict (reg_identity r));
           (u "adapter", VStr (reg_adapter r)); (u "cwd", VStr (reg_cwd r));
           (u "sequence", VInt (reg_sequence r))])
  | EventReq r =>
      Ok (base (ev_operation r) ++
          [(u "shell_id", VStr (ev_shell_id r)); (u "capability", VStr (ev_capability r));
           (u "identity", _identity_dict (ev_identity r)); (u "sequence", VInt (ev_sequence r))] ++
          match ev_operation r with
          | PROMPT_READY | CWD_CHANGED => [(u "cwd", opt_val VStr (ev_cwd r))]
          | COMMAND_STARTED =>
              [(u "command_sequence", opt_val VInt (ev_command_sequence r));
               (u "command", opt_val VStr (ev_command r))]
          | COMMAND_FINISHED =>
              [(u "command_sequence", opt_val VInt (ev_command_sequence r));
               (u "exit_status", opt_val VInt (ev_exit_status r))]
          | _ => []
          end)
  | StatusReq => Ok (base STATUS)
  | SnapshotReq => Ok (base SNAPSHOT)
  | RestoreListReq r =>
      match rl_workspace_id r, rl_attempt_id r with
      | None, None => Ok (base RESTORE_LIST)
      | Some ws, Some att =>
          let? ws' := _id (VStr ws) (u "workspace_id") false in
          let? att' := _id (VStr att) (u "attempt_id") false in
          Ok (base RESTORE_LIST ++ [(u "workspace_id", VStr ws'); (u "attempt_id", VStr att')])
      | _, _ => Err (ValueError (u "workspace_id and attempt_id must be provided together"))
      end
  | RestoreExecuteReq r =>
      let? selected := _id_list (str_list_val (re_selected_item_ids r)) (u "selected_item_ids") true in
      let? approved := _id_list (str_list_val (re_approved_item_ids r)) (u "approved_item_ids") false in
      Ok (base RESTORE_EXECUTE ++
          [(u "workspace_id", VStr (re_workspace_id r));
           (u "selected_item_ids", str_list_val selected);
           (u "approved_item_ids", str_list_val approved)])
  | RestoreRetryReq r =>
      let? approved := _id_list (str_list_val (rr_approved_item_ids r)) (u "approved_item_ids") false in
      Ok (base RESTORE_RETRY ++
          [(u "workspace_id", VStr (rr_workspace_id r)); (u "attempt_id", VStr (rr_attempt_id r));
           (u "approved_item_ids", str_list_val approved)])
  | DiscardReq r =>
      Ok (base DISCARD ++ [(u "workspace_id", VStr (dr_workspace_id r));
                           (u "confirm", VBool (dr_confirm r))])
  end.

(** ** Response decoders *)
Definition _item (value : pyval) : result RecoveryItemView :=
  match value with
  | VDict d =>
      _exact d [u "item_id"; u "shell_id"; u "reason"; u "level"; u "directory";
                u "directory_warning"; u "replay_display"; u "replay_eligible"; u "resume_command";
                u "resume_summary"; u "resume_session_count"] (u "item") ;?
      let? warning := dict_index d (u "directory_warning") in
      let? shown := dict_index d (u "replay_display") in
      let? v_item := dict_index d (u "item_id") in
      let? iid := _id v_item (u "item_id") false in
      let? v_shell := dict_index d (u "shell_id") in
      let? shell := _id v_shell (u "shell_id") true in
      let? v_reason := dict_index d (u "reason") in
      let? why := _safe_external_text_from_wire v_reason (u "reason") in
      let? v_level := dict_index d (u "level") in
      let? lvl := _enum (A := RestorationLevel) v_level (u "level") in
      let? v_directory := dict_index d (u "directory") in
      let? dir := _absolute v_directory (u "directory") in
      let? warn := match warning with
                   | VNone => Ok None
                   | w => let? t := _safe_external_text_from_wire w (u "directory_warning") in
                          Ok (Some t)
                   end in
      let? disp := match shown with
                   | VNone => Ok None
                   | s => let? t := _string s (u "replay_display") MAX_COMMAND_CHARS true in
                          Ok (Some (DecodedReplayDisplay t))
                   end in
      let? v_eligible := dict_index d (u "replay_eligible") in
      let? eligible := _boolean v_eligible (u "replay_eligible") in
      let? rc := _string (default (VStr []) (dict_get (u "resume_command") d))
                   (u "resume_command") MAX_COMMAND_CHARS true in
      let? rs := _string (default (VStr []) (dict_get (u "resume_summary") d))
                   (u "resume_summary") MAX_COMMAND_CHARS true in
      let? n := _integer (default (VInt 0) (dict_get (u "resume_session_count") d))
                  (u "resume_session_count") 0 _MAX_INTEGER in
      Ok (mkView iid shell why lvl dir warn disp eligible rc rs n)
  | _ => Err (ValueError (u "item must be object"))
  end.

Definition _outcome (value : pyval) : result OutcomeView :=
  match value with
  | VDict d =>
      _exact d [u "item_id"; u "kind"; u "message"] (u "outcome") ;?
      let? v_item := dict_index d (u "item_id") in
      let? iid := _id v_item (u "item_id") false in
      let? v_kind := dict_index d (u "kind") in
      let? kind := _enum (A := OutcomeKind) v_kind (u "kind") in
      let? v_message := dict_index d (u "message") in
      let? msg := _safe_external_text_from_wire v_message (u "message") in
      Ok (mkOutcomeView iid kind msg)
  | _ => Err (ValueError (u "outcome must be object"))
  end.

Definition _object_list {A} (value : pyval) (name : pystr) (reader : pyval -> result A)
    (item_id : A -> pystr) : result (list A) :=
  match value with
  | VList l =>
      raise_if (MAX_ITEMS <? len l) (ValueError (u "invalid " ++ name)) ;?
      let? xs := rmap reader l in
      raise_if (negb (nodupb (map item_id xs))) (ValueError (u "duplicate " ++ name ++ u " IDs")) ;?
      Ok xs
  | _ => Err (ValueError (u "invalid " ++ name))
  end.

(** [{"schema_version", "ok", "response"} | keys] *)
Definition with_common (keys : list pystr) : list pystr :=
  [u "schema_version"; u "ok"; u "response"] ++ keys.

Definition read_status (p : pydict) (response : pystr) : result ServiceResponse :=
  _exact p (with_common [u "ready"; u "registered_shells"; u "dirty_generation";
                         u "durable_generation"; u "write_active"; u "durability_degraded";
                         u "last_error"; u "recovery_item_count"; u "diagnostics"]) response ;?
  let? v_ready := dict_index p (u "ready") in
  match v_ready with
  | VBool true =>
      let? error := dict_index p (u "last_error") in
      let? v1 := dict_index p (u "registered_shells") in
      let? n1 := _integer v1 (u "registered_shells") 0 _MAX_INTEGER in
      let? v2 := dict_index p (u "dirty_generation") in
      let? n2 := _integer v2 (u "dirty_generation") 0 _MAX_INTEGER in
      let? v3 := dict_index p (u "durable_generation") in
      let? n3 := _integer v3 (u "durable_generation") 0 _MAX_INTEGER in
      let? v4 := dict_index p (u "write_active") in
      let? b4 := _boolean v4 (u "write_active") in
      let? v5 := dict_index p (u "durability_degraded") in
      let? b5 := _boolean v5 (u "durability_degraded") in
      let? err := match error with
                  | VNone => Ok None
                  | e => let? t := _safe_external_text_from_wire e (u "last_error") in Ok (Some t)
                  end in
      let? v6 := dict_index p (u "recovery_item_count") in
      let? n6 := _integer v6 (u "recovery_item_count") 0 _MAX_INTEGER in
      let? v7 := dict_index p (u "diagnostics") in
      let? ds := _safe_external_text_list v7 (u "diagnostics") in
      Ok (StatusResp (mkStatus true n1 n2 n3 b4 b5 err n6 ds))
  | _ => Err (ValueError (u "ready must be true"))
  end.

Definition read_restore_list (p : pydict) (response : pystr) : result ServiceResponse :=
  _exact p (with_common [u "workspace_id"; u "items"; u "diagnostics"]) response ;?
  let? v_items := dict_index p (u "items") in
  let? views := _object_list v_items (u "items") _item vw_item_id in
  let? workspace := dict_index p (u "workspace_id") in
  let is_none v := match v with VNone => true | _ => false end in
  raise_if (negb (Bool.eqb (is_none workspace) (bool_decide (length views = 0%nat))))
    (ValueError (u "workspace_id must be null iff items empty")) ;?
  let? ws := match workspace with
             | VNone => Ok None
             | w => let? t := _id w (u "workspace_id") false in Ok (Some t)
             end in
  let? v_diag := dict_index p (u "diagnostics") in
  let? ds := _safe_external_text_list v_diag (u "diagnostics") in
  Ok (RestoreListResponse ws views ds).

Definition read_restore_result (p : pydict) (response : pystr) : result ServiceResponse :=
  _exact p (with_common [u "workspace_id"; u "attempt_id"; u "outcomes"; u "remaining_item_ids"])
    response ;?
  let? v_ws := dict_index p (u "workspace_id") in
  let? ws := _id v_ws (u "workspace_id") false in
  let? v_at := dict_index p (u "attempt_id") in
  let? att := _id v_at (u "attempt_id") false in
  let? v_out := dict_index p (u "outcomes") in
  let? outs := _object_list v_out (u "outcomes") _outcome ov_item_id in
  let? v_rem := dict_index p (u "remaining_item_ids") in
  let? rem := _id_list v_rem (u "remaining_item_ids") false in
  Ok (RestoreResultResponse ws att outs rem).

Definition read_error (p : pydict) (response : pystr) : result ServiceResponse :=
  _exact p (with_common [u "error"]) response ;?
  let? value := dict_index p (u "error") in
  match value with
  | VDict d =>
      _exact d [u "code"; u "message"] (u "error") ;?
      let? v_code := dict_index d (u "code") in
      let? code := _enum (A := ErrorCode) v_code (u "error code") in
      let? v_message := dict_index d (u "message") in
      let? msg := _string v_message (u "error message") MAX_ERROR_MESSAGE_CHARS true in
      raise_if (negb (str_eqb msg (ERROR_MESSAGES code)))
        (ValueError (u "invalid fixed error message")) ;?
      Ok (ErrorResponse (mkProtocolError code msg))
  | _ => Err (ValueError (u "error must be object"))
  end.

Definition _decode_response_payload (p : pydict) : result ServiceResponse :=
  _schema p ;?
  let? ok := _boolean (dict_get_none p (u "ok")) (u "ok") in
  let? response := _string (dict_get_none p (u "response")) (u "response") MAX_ID_CHARS false in
  if str_eqb response (u "register") && ok then
    _exact p (with_common [u "capability"; u "resume_sequence"]) response ;?
    let? v_cap := dict_index p (u "capability") in
    let? cap := _capability v_cap in
    let? v_seq := dict_index p (u "resume_sequence") in
    let? sq := _integer v_seq (u "resume_sequence") 0 _MAX_INTEGER in
    Ok (RegisterResponse cap sq)
  else if str_eqb response (u "event") && ok then
    _exact p (with_common [u "sequence"]) response ;?
    let? v_seq := dict_index p (u "sequence") in
    let? sq := _integer v_seq (u "sequence") 1 _MAX_INTEGER in
    Ok (EventResponse sq)
  else if str_eqb response (u "status") && ok then read_status p response
  else if str_eqb response (u "snapshot") && ok then
    _exact p (with_common [u "durable_generation"]) response ;?
    let? v_gen := dict_index p (u "durable_generation") in
    let? gen := _integer v_gen (u "durable_generation") 0 _MAX_INTEGER in
    Ok (SnapshotResponse gen)
  else if str_eqb response (u "restore_list") && ok then read_restore_list p response
  else if str_eqb response (u "restore_result") && ok then read_restore_result p response
  else if str_eqb response (u "discard") && ok then
    _exact p (with_common [u "workspace_id"; u "discarded"]) response ;?
    let? v_dis := dict_index p (u "discarded") in
    match v_dis with
    | VBool true =>
        let? v_ws := dict_index p (u "workspace_id") in
        let? ws := _id v_ws (u "workspace_id") false in
        Ok (DiscardResponse ws true)
    | _ => Err (ValueError (u "discarded must be true"))
    end
  else if str_eqb response (u "error") && negb ok then read_error p response
  else Err (ValueError (u "invalid response discriminator")).

(** ** Response encoder *)

(** [_typed_values]: the element types hold by typing; the length is checked. *)
Definition _typed_values {A} (value : list A) (name : pystr) : result (list A) :=
  raise_if (MAX_ITEMS <? len value) (ValueError (u "invalid " ++ name)) ;? Ok value.

Definition _typed_safe_text_values (value : list SafeExternalText) (name : pystr)
  : result (list pystr) :=
  let? vs := _typed_values value name in Ok (map safe_value vs).

Definition _item_dict (item : RecoveryItemView) : result pyval :=
  let? shown := match vw_replay_display item with
                | None => Ok VNone
                | Some (RedactedDisplay v) => Ok (VStr v)
                | Some (DecodedReplayDisplay _) =>
                    Err (ValueError (u "replay_display lacks classifier provenance"))
                end in
  Ok (VDict [(u "item_id", VStr (vw_item_id item)); (u "shell_id", VStr (vw_shell_id item));
             (u "reason", VStr (safe_value (vw_reason item)));
             (u "level", VStr (enum_value (vw_level item)));
             (u "directory", VStr (vw_directory item));
             (u "directory_warning", opt_val (fun t => VStr (safe_value t)) (vw_directory_warning item));
             (u "replay_display", shown);
             (u "replay_eligible", VBool (vw_replay_eligible item));
             (u "resume_command", VStr (vw_resume_command item));
             (u "resume_summary", VStr (vw_resume_summary item));
             (u "resume_session_count", VInt (vw_resume_session_count item))]).

Definition _outcome_dict (item : OutcomeView) : pyval :=
  VDict [(u "item_id", VStr (ov_item_id item)); (u "kind", VStr (enum_value (ov_kind item)));
         (u "message", VStr (safe_value (ov_message item)))].

Definition response_base (ok : bool) (name : pystr) : pydict :=
  [(u "schema_version", VInt 1); (u "ok", VBool ok); (u "response", VStr name)].

Definition _response_to_dict (response : ServiceResponse) : result pydict :=
  match response with
  | RegisterResponse cap sq =>
      Ok (response_base true (u "register") ++
          [(u "capability", VStr cap); (u "resume_sequence", VInt sq)])
  | EventResponse sq => Ok (response_base true (u "event") ++ [(u "sequence", VInt sq)])
  | StatusResp r =>
      let? ds := _typed_safe_text_values (st_diagnostics r) (u "diagnostics") in
      Ok (response_base true (u "status") ++
          [(u "ready", VBool (st_ready r)); (u "registered_shells", VInt (st_registered_shells r));
           (u "dirty_generation", VInt (st_dirty_generation r));
           (u "durable_generation", VInt (st_durable_generation r));
           (u "write_active", VBool (st_write_active r));
           (u "durability_degraded", VBool (st_durability_degraded r));
           (u "last_error", opt_val (fun t => VStr (safe_value t)) (st_last_error r));
           (u "recovery_item_count", VInt (st_recovery_item_count r));
           (u "diagnostics", str_list_val ds)])
  | SnapshotResponse gen =>
      Ok (response_base true (u "snapshot") ++ [(u "durable_generation", VInt gen)])
  | RestoreListResponse ws views diags =>
      let? views' := _typed_values views (u "items") in
      let? item_vals := rmap _item_dict views' in
      let? ds := _typed_safe_text_values diags (u "diagnostics") in
      Ok (response_base true (u "restore_list") ++
          [(u "workspace_id", opt_val VStr ws); (u "items", VList item_vals);
           (u "diagnostics", str_list_val ds)])
  | RestoreResultResponse ws att outs rem =>
      let? outs' := _typed_values outs (u "outcomes") in
      let? rem' := _id_list (str_list_val rem) (u "remaining_item_ids") false in
      Ok (response_base true (u "restore_result") ++
          [(u "workspace_id", VStr ws); (u "attempt_id", VStr att);
           (u "outcomes", VList (map _outcome_dict outs'));
           (u "remaining_item_ids", str_list_val rem')])
  | DiscardResponse ws b =>
      Ok (response_base true (u "discard") ++ [(u "workspace_id", VStr ws); (u "discarded", VBool b)])
  | ErrorResponse e =>
      Ok (response_base false (u "error") ++
          [(u "error", VDict [(u "code", VStr (enum_value (pe_code e)));
                              (u "message", VStr (pe_message e))])])
  end.

Definition sensitive_keys : list pystr := map u ["command"; "approved_command"; "argv"; "executable"]%string.

(** [_safe_response_tree]: no key that could carry a command or a capability. *)
Fixpoint _safe_response_tree (value : pyval) (register : bool) : result unit :=
  match value with
  | VDict d =>
      (fix go (d : pydict) : result unit :=
         match d with
         | [] => Ok tt
         | (key, child) :: d' =>
             raise_if (str_in key sensitive_keys || (str_eqb key (u "capability") && negb register))
               (ResponseEncodingError (u "sensitive response key forbidden")) ;?
             _safe_response_tree child register ;? go d'
         end) d
  | VList l =>
      (fix go (l : list pyval) : result unit :=
         match l with
         | [] => Ok tt
         | child :: l' => _safe_response_tree child register ;? go l'
         end) l
  | _ => Ok tt
  end.

Definition is_register_response (r : ServiceResponse) : bool :=
  match r with RegisterResponse _ _ => true | _ => false end.

(** ** Bytes *)
Section Lines.
Variable rec_limit : nat.

Definition decode_request (raw : pybytes) : result ServiceRequest :=
  let? payload := _decode_json_line rec_limit raw MAX_MESSAGE_BYTES (u "request") in
  decode_request_payload payload.

Definition encode_request (request : ServiceRequest) : result pybytes :=
  let? payload := _request_to_dict request in
  let? raw := _encode_json_line payload MAX_MESSAGE_BYTES (u "request") in
  decode_request raw ;? Ok raw.

Definition decode_local_frame (raw : pybytes) : result LocalEvent :=
  let? payload := _decode_json_line rec_limit raw MAX_LOCAL_FRAME_BYTES (u "local frame") in
  _local_decoder payload.

Definition encode_local_frame (event : LocalEvent) : result pybytes :=
  let? raw := _encode_json_line (local_to_dict event) MAX_LOCAL_FRAME_BYTES (u "local frame") in
  decode_local_frame raw ;? Ok raw.

Definition decode_response (raw : pybytes) : result ServiceResponse :=
  let? payload := _decode_json_line rec_limit raw MAX_RESPONSE_BYTES (u "response") in
  _decode_response_payload payload.

Definition encode_response (response : ServiceResponse) : result pybytes :=
  match (let? payload := _response_to_dict response in
         _safe_response_tree (VDict payload) (is_register_response response) ;?
         let? raw := _encode_json_line payload MAX_RESPONSE_BYTES (u "response") in
         decode_response raw ;? Ok raw) with
  | Ok raw => Ok raw
  | Err (ResponseEncodingError m) => Err (ResponseEncodingError m)
  | Err e =>
      if is_value_error e || match e with TypeError _ | AttributeError => true | _ => false end
      then Err (ResponseEncodingError (u "response encoding failed")) else Err e
  end.

End Lines.

Definition error_response (code : ErrorCode) : ServiceResponse :=
  ErrorResponse (mkProtocolError code (ERROR_MESSAGES code)).
