(* ===== verification/Wire.v ===== *)
(** * Correctness of the wire protocol

    What each field reader of [Protocol] accepts, which requests and responses
    are valid, and that decoding inverts encoding at the level of bytes. *)
From S2P Require Import Prelude PyText PyVal PyFloat Json Model Protocol.

(** ** Lemmas: what each reader accepts *)
Definition string_ok (s : pystr) (limit : Z) (empty : bool) : Prop :=
  (empty = false -> s <> []) /\ len s <= limit /\ existsb forbidden_char s = false.

Lemma string_Ok v n l e s : _string v n l e = Ok s <-> v = VStr s /\ string_ok s l e.
Proof.
  unfold _string, string_ok. destruct v as [| | | |t| |]; try naive_solver.
  rewrite !rbind_Ok. setoid_rewrite raise_if_Ok. split.
  - intros (? & H1 & H). r_inv. split; [done|]. split; [|split; [lia|done]].
    intros -> ->. by rewrite bool_decide_eq_true_2 in H1.
  - intros ([= ->] & H1 & H2 & H3). exists tt. split.
    + destruct e; [done|]. apply bool_decide_eq_false_2. by apply H1.
    + cbn. rewrite (proj2 (Z.ltb_ge _ _) H2) H3. done.
Qed.

Definition id_ok (s : pystr) (shell : bool) : Prop :=
  _ID_RE s = true /\ (shell = true -> 16 <= len s).

Lemma id_char_plain s : forallb id_char s = true -> existsb forbidden_char s = false.
Proof.
  intros H. apply not_true_iff_false. intros (c & Hc & Hf)%existsb_exists.
  rewrite forallb_forall in H. specialize (H c Hc).
  unfold id_char, is_alnum, is_alpha, is_lower, is_upper, is_digit, forbidden_char, is_surrogate in *. lia.
Qed.

Lemma id_Ok v n sh s : _id v n sh = Ok s <-> v = VStr s /\ id_ok s sh.
Proof.
  unfold _id, id_ok. rewrite rbind_Ok. setoid_rewrite rbind_Ok. setoid_rewrite raise_if_Ok.
  setoid_rewrite string_Ok. split.
  - intros (t & [-> Ht] & ? & H & [= ->]). apply orb_false_iff in H as [H1%negb_false_iff H2].
    split; [done|]. split; [done|]. intros ->. cbn in H2. lia.
  - intros (-> & H1 & H2). exists s. split; [split; [done|]|].
    + pose proof H1 as H1'. unfold _ID_RE in H1'.
      apply andb_true_iff in H1' as [[Ha Hb]%andb_true_iff Hc].
      split; [|split; [unfold MAX_ID_CHARS; lia|by apply id_char_plain]].
      intros _ ->. done.
    + exists tt. split; [|done]. rewrite H1. destruct sh; [|done]. cbn. specialize (H2 eq_refl). lia.
Qed.

Lemma capability_Ok v s : _capability v = Ok s <-> v = VStr s /\ _CAPABILITY_RE s = true.
Proof.
  unfold _capability. rewrite rbind_Ok. setoid_rewrite rbind_Ok. setoid_rewrite raise_if_Ok.
  setoid_rewrite string_Ok. setoid_rewrite negb_false_iff. split; [naive_solver|].
  intros [-> H]. exists s. split; [split; [done|]|by exists tt].
  pose proof H as H'. unfold _CAPABILITY_RE in H'.
  apply andb_true_iff in H' as [[Ha Hb]%andb_true_iff Hc].
  split; [|split; [unfold MAX_ID_CHARS; lia|by apply id_char_plain]]. intros _ ->. done.
Qed.

Lemma integer_Ok v n lo hi z : _integer v n lo hi = Ok z <-> v = VInt z /\ lo <= z <= hi.
Proof.
  unfold _integer. destruct v; try naive_solver. rewrite rbind_Ok. setoid_rewrite raise_if_Ok.
  split; [|intros ([= ->] & ?); exists tt; split; [lia|done]].
  intros (? & H & [= ->]). split; [done|lia].
Qed.

Lemma boolean_Ok v n b : _boolean v n = Ok b <-> v = VBool b.
Proof. unfold _boolean. destruct v; naive_solver. Qed.

Definition absolute_ok (s : pystr) : Prop :=
  string_ok s MAX_PATH_CHARS false /\ is_absolute (parse_path s) = true.

Lemma absolute_Ok v n s : _absolute v n = Ok s <-> v = VStr s /\ absolute_ok s.
Proof.
  unfold _absolute, absolute_ok. rewrite rbind_Ok. setoid_rewrite rbind_Ok.
  setoid_rewrite raise_if_Ok. setoid_rewrite string_Ok. setoid_rewrite negb_false_iff.
  split; [naive_solver|]. intros (-> & H1 & H2). exists s. split; [done|]. by exists tt.
Qed.

Lemma enum_Ok {A} `{StrEnumLaws A} v n (x : A) : _enum v n = Ok x <-> v = VStr (enum_value x).
Proof.
  unfold _enum. rewrite rbind_Ok. setoid_rewrite string_Ok. split.
  - intros (t & [-> _] & Hf). destruct (enum_of_value t) eqn:E; [|done]. injection Hf as ->.
    by rewrite (enum_of_value_inv _ _ E).
  - intros ->. exists (enum_value x). destruct (enum_value_len x). split.
    + split; [done|]. split; [|split; [done|]].
      * intros _ Hnil. rewrite Hnil in H1. change (len (@nil Z)) with 0 in H1. lia.
      * apply not_true_iff_false. intros (c & Hc & Hf)%existsb_exists.
        pose proof (enum_value_plain x) as Hp. rewrite forallb_forall in Hp. specialize (Hp c Hc).
        unfold forbidden_char, is_surrogate in Hf. lia.
    + by rewrite enum_of_value_value.
Qed.

Lemma catalog_Ok s t : catalog s = Ok t <-> t = mkSafe s /\ s ∈ _SAFE_EXTERNAL_TEXT_CATALOG.
Proof.
  unfold catalog. rewrite -str_in_spec. destruct (str_in s _); cbn; naive_solver.
Qed.

Definition safe_text_ok (t : SafeExternalText) : Prop := safe_value t ∈ _SAFE_EXTERNAL_TEXT_CATALOG.

Lemma safe_text_string t l : safe_text_ok t -> 160 <= l -> string_ok (safe_value t) l true.
Proof.
  intros H Hl. unfold safe_text_ok in H. apply list_elem_of_In in H.
  assert (forallb (fun s => (len s <=? 160) && negb (existsb forbidden_char s))
            _SAFE_EXTERNAL_TEXT_CATALOG = true) as Hall by reflexivity.
  rewrite forallb_forall in Hall. specialize (Hall _ H). split; [done|].
  destruct (existsb _ _); cbn in *; lia.
Qed.

Lemma safe_wire_Ok v n t :
  _safe_external_text_from_wire v n = Ok t <-> v = VStr (safe_value t) /\ safe_text_ok t.
Proof.
  unfold _safe_external_text_from_wire. rewrite rbind_Ok. setoid_rewrite string_Ok.
  setoid_rewrite catalog_Ok. split.
  - intros (s & [-> _] & -> & H). done.
  - intros [-> H]. exists (safe_value t). split; [split; [done|by apply safe_text_string]|].
    by destruct t.
Qed.

Lemma id_list_Ok v n ne ids : _id_list v n ne = Ok ids <->
  v = str_list_val ids /\ len ids <= MAX_ITEMS /\ (ne = true -> ids <> []) /\
  Forall (fun i => id_ok i false) ids /\ NoDup ids.
Proof.
  unfold _id_list, str_list_val. rewrite rbind_Ok. setoid_rewrite rbind_Ok.
  setoid_rewrite rbind_Ok. setoid_rewrite raise_if_Ok. setoid_rewrite negb_false_iff.
  setoid_rewrite rmap_Ok. setoid_rewrite nodupb_spec. split.
  - intros (l & Hl & ids' & Hids & ? & Hnd & [= ->]).
    unfold _bounded_typed_sequence in Hl. destruct v as [| | | | |vs|]; try done. r_inv. subst.
    assert (l = map VStr ids /\ Forall (fun i => id_ok i false) ids) as [-> Hall].
    { clear -Hids. induction Hids as [|v i l ids Hv _ [-> IH]]; [done|].
      apply id_Ok in Hv as [-> Hi]. split; [done|by constructor]. }
    rewrite len_map in H, H0. split; [done|]. split; [lia|]. split; [|done].
    intros -> ->. done.
  - intros (-> & Hlen & Hne & Hall & Hnd). exists (map VStr ids). split.
    + unfold _bounded_typed_sequence. rewrite len_map.
      assert ((MAX_ITEMS <? len ids) || (ne && (len ids =? 0)) = false) as ->; [|done].
      apply orb_false_iff. split; [lia|]. destruct ne; [|done]. cbn.
      destruct ids; [by specialize (Hne eq_refl)|]. rewrite len_cons. pose proof (len_nonneg ids). lia.
    + exists ids. split; [|by exists tt]. clear -Hall. induction Hall; constructor; [|done].
      by apply id_Ok.
Qed.

Lemma exact_Ok d keys ctx v : _exact d keys ctx = Ok v <-> set_eqb (dict_keys d) keys = true.
Proof. unfold _exact. destruct v, (set_eqb (dict_keys d) keys); naive_solver. Qed.

Lemma optional_Ok {A} extra d k (reader : pyval -> result A) o :
  optional_field extra d k reader = Ok o <->
  if str_in k extra then exists v x, dict_get k d = Some v /\ reader v = Ok x /\ o = Some x
  else o = None.
Proof.
  unfold optional_field. destruct (str_in k extra); [|naive_solver].
  rewrite rbind_Ok. setoid_rewrite rbind_Ok. unfold dict_index.
  destruct (dict_get k d); naive_solver.
Qed.

Lemma index_Ok d k v : dict_index d k = Ok v <-> dict_get k d = Some v.
Proof. unfold dict_index. destruct (dict_get k d); naive_solver. Qed.

(** ** Valid requests *)
Definition identity_ok (x : ProcessIdentity) : Prop :=
  uuid_canonical (boot_id x) = Some (boot_id x) /\ string_ok (boot_id x) MAX_ID_CHARS false /\
  1 <= pid x <= 2 ^ 31 - 1 /\ 0 <= start_time x <= _MAX_INTEGER.

Definition some_ok {A} (P : A -> Prop) (o : option A) : Prop := exists x, o = Some x /\ P x.

Definition sequence_ok (n : Z) : Prop := 1 <= n <= _MAX_INTEGER.
Definition command_ok (c : pystr) : Prop := string_ok c MAX_COMMAND_CHARS false.
Definition exit_ok (n : Z) : Prop := 0 <= n <= 255.

(** The optional fields each event carries, exactly. *)
Definition event_fields_ok (op : Operation) (dir : option pystr) (sq : option Z)
    (cmd : option pystr) (status : option Z) : Prop :=
  match op with
  | COMMAND_STARTED => dir = None /\ some_ok sequence_ok sq /\ some_ok command_ok cmd /\ status = None
  | COMMAND_FINISHED => dir = None /\ some_ok sequence_ok sq /\ cmd = None /\ some_ok exit_ok status
  | PROMPT_READY | CWD_CHANGED => some_ok absolute_ok dir /\ sq = None /\ cmd = None /\ status = None
  | OP_EXPLICIT_EXIT => dir = None /\ sq = None /\ cmd = None /\ status = None
  | _ => False
  end.

Definition event_ok (r : EventRequest) : Prop :=
  id_ok (ev_shell_id r) true /\ _CAPABILITY_RE (ev_capability r) = true /\
  identity_ok (ev_identity r) /\ sequence_ok (ev_sequence r) /\
  event_fields_ok (ev_operation r) (ev_cwd r) (ev_command_sequence r) (ev_command r) (ev_exit_status r).

Definition register_ok (r : RegisterRequest) : Prop :=
  id_ok (reg_shell_id r) true /\ identity_ok (reg_identity r) /\
  reg_adapter r ∈ SUPPORTED_ADAPTERS /\ absolute_ok (reg_cwd r) /\ reg_sequence r = 0.

Definition id_list_ok (ids : list pystr) : Prop :=
  len ids <= MAX_ITEMS /\ Forall (fun i => id_ok i false) ids /\ NoDup ids.

Definition request_ok (r : ServiceRequest) : Prop :=
  match r with
  | RegisterReq r => register_ok r
  | EventReq r => event_ok r
  | StatusReq | SnapshotReq => True
  | RestoreListReq r =>
      match rl_workspace_id r, rl_attempt_id r with
      | None, None => True
      | Some ws, Some att => id_ok ws false /\ id_ok att false
      | _, _ => False
      end
  | RestoreExecuteReq r =>
      id_ok (re_workspace_id r) false /\ id_list_ok (re_selected_item_ids r) /\
      re_selected_item_ids r <> [] /\ id_list_ok (re_approved_item_ids r) /\
      (forall i, i ∈ re_approved_item_ids r -> i ∈ re_selected_item_ids r)
  | RestoreRetryReq r =>
      id_ok (rr_workspace_id r) false /\ id_ok (rr_attempt_id r) false /\
      id_list_ok (rr_approved_item_ids r)
  | DiscardReq r => id_ok (dr_workspace_id r) false /\ dr_confirm r = true
  end.

Lemma adapters_plain a : a ∈ SUPPORTED_ADAPTERS -> string_ok a MAX_ID_CHARS false.
Proof.
  intros Ha. apply list_elem_of_In in Ha.
  assert (forallb (fun s => (1 <=? len s) && (len s <=? 128) && negb (existsb forbidden_char s))
            SUPPORTED_ADAPTERS = true) as Hall by reflexivity.
  rewrite forallb_forall in Hall. specialize (Hall _ Ha). split; [by intros _ ->|].
  destruct (existsb _ _); cbn in *; unfold MAX_ID_CHARS; lia.
Qed.

(** [eval_ifs] evaluates the closed conditions among the hypotheses. *)
Ltac eval_ifs :=
  repeat match goal with
  | H : if ?b then _ else _ |- _ =>
      let v := eval vm_compute in b in
      match v with
      | true => change b with true in H; cbv iota in H
      | false => change b with false in H; cbv iota in H
      end
  end.

(** [field_inv] turns every successful reader among the hypotheses into what it says. *)
Ltac field_inv :=
  r_inv;
  repeat first
    [ progress r_inv
    | match goal with
      | H : _id _ _ _ = Ok _ |- _ => apply id_Ok in H; destruct H as [? H]; subst
      | H : _capability _ = Ok _ |- _ => apply capability_Ok in H; destruct H as [? H]; subst
      | H : _integer _ _ _ _ = Ok _ |- _ => apply integer_Ok in H; destruct H as [? H]; subst
      | H : _boolean _ _ = Ok _ |- _ => apply boolean_Ok in H; subst
      | H : _absolute _ _ = Ok _ |- _ => apply absolute_Ok in H; destruct H as [? H]; subst
      | H : _enum _ _ = Ok _ |- _ => apply enum_Ok in H; subst
      | H : _id_list _ _ _ = Ok _ |- _ => apply id_list_Ok in H; destruct H as (? & ? & ? & ? & ?); subst
      | H : _safe_external_text_from_wire _ _ = Ok _ |- _ =>
          apply safe_wire_Ok in H; destruct H as [? H]; subst
      | H : _string _ _ _ _ = Ok _ |- _ => apply string_Ok in H; destruct H as [? H]; subst
      | H : dict_index _ _ = Ok _ |- _ => apply index_Ok in H
      | H : _exact _ _ _ = Ok _ |- _ => apply exact_Ok in H
      | H : optional_field _ _ _ _ = Ok _ |- _ => apply optional_Ok in H
      end ].

Lemma identity_decoded_ok v x : _identity v = Ok x -> identity_ok x.
Proof.
  unfold _identity. destruct v; try done. intros H. field_inv.
  match goal with H : str_eqb _ _ = true |- _ => apply str_eqb_eq in H; subst end.
  match goal with H : new_ProcessIdentity _ _ _ = Ok _ |- _ =>
    apply construct_Ok in H; destruct H as [-> _] end.
  by unfold identity_ok.
Qed.

Lemma identity_ok_wf x : identity_ok x -> identity_wf x.
Proof.
  intros (_ & (_ & Hl & _) & Hp & Hs). unfold identity_wf, identity_post_init, _require_bounded_string.
  change Model.MAX_ID_CHARS with MAX_ID_CHARS.
  rewrite (proj2 (Z.ltb_ge _ _) Hl). cbn [raise_if rbind].
  destruct (Z.leb_spec (pid x) 0); [lia|]. destruct (Z.ltb_spec (start_time x) 0); [lia|done].
Qed.

(** The keys of a literal dictionary are the expected ones. *)
Ltac exact_keys :=
  match goal with
  | |- context [_exact ?d ?k ?c] => rewrite (proj2 (exact_Ok d k c tt) ltac:(vm_compute; reflexivity))
  end.

Lemma identity_dict_decodes x : identity_ok x -> _identity (_identity_dict x) = Ok x.
Proof.
  intros Hx. pose proof (identity_ok_wf x Hx) as Hwf. destruct Hx as (Hu & Hs & Hp & Ht).
  destruct x as [b p s]. cbn [boot_id pid start_time] in *.
  unfold _identity, _identity_dict. cbn [boot_id pid start_time].
  exact_keys. cbn [rbind]. unfold dict_index. eval_dict. cbn [rbind result_of_option].
  rewrite (proj2 (string_Ok _ _ _ _ b) (conj eq_refl Hs)). cbn [rbind]. rewrite Hu.
  cbn [rbind result_of_option]. rewrite str_eqb_refl. cbn [negb raise_if rbind].
  rewrite (proj2 (integer_Ok _ _ _ _ p) (conj eq_refl Hp)). cbn [rbind].
  rewrite (proj2 (integer_Ok _ _ _ _ s) (conj eq_refl Ht)). cbn [rbind].
  exact (construct_wf _ _ Hwf).
Qed.

Lemma event_extra_fields op extra : event_extra op = Ok extra ->
  op = COMMAND_STARTED /\ extra = [u "command_sequence"; u "command"] \/
  op = COMMAND_FINISHED /\ extra = [u "command_sequence"; u "exit_status"] \/
  (op = PROMPT_READY \/ op = CWD_CHANGED) /\ extra = [u "cwd"] \/
  op = OP_EXPLICIT_EXIT /\ extra = [].
Proof. destruct op; cbn; naive_solver. Qed.

Lemma optional_decoded {A} extra d k (reader : pyval -> result A) (P : A -> Prop) o :
  (forall v x, reader v = Ok x -> P x) ->
  optional_field extra d k reader = Ok o ->
  if str_in k extra then some_ok P o else o = None.
Proof.
  intros Hr H. apply optional_Ok in H. destruct (str_in k extra); [|done].
  destruct H as (v & x & _ & Hx & ->). exists x. eauto.
Qed.

(** Whatever a decoder accepts is valid. *)
Lemma event_decoded_ok d op r : _event d op = Ok (EventReq r) -> event_ok r /\ ev_operation r = op.
Proof.
  unfold _event. intros H.
  apply rbind_Ok in H as (extra & Hx & H). apply event_extra_fields in Hx.
  repeat match goal with
  | H : rbind (optional_field ?e ?d ?k ?rd) _ = Ok _ |- _ =>
      let K := fresh "Hopt" in apply rbind_Ok in H as (? & K & H)
  | H : rbind ?m _ = Ok _ |- _ => let K := fresh "Hf" in apply rbind_Ok in H as (? & K & H)
  end.
  injection H as <-. split; [|done]. unfold event_ok. cbn [ev_shell_id ev_capability ev_identity
    ev_sequence ev_operation ev_cwd ev_command_sequence ev_command ev_exit_status].
  field_inv.
  repeat match goal with
  | H : _identity _ = Ok _ |- _ => apply identity_decoded_ok in H
  end.
  split; [done|]. split; [done|]. split; [done|]. split; [done|].
  destruct Hx as [[-> ->]|[[-> ->]|[[[->| ->] ->]|[-> ->]]]]; eval_ifs;
    repeat match goal with H : exists _, _ |- _ => destruct H as (? & ? & ? & ? & ?) end;
    field_inv; cbn [event_fields_ok]; unfold some_ok, sequence_ok, command_ok, exit_ok; naive_solver.
Qed.

Lemma request_decoded_ok d r : decode_request_payload d = Ok r -> request_ok r.
Proof.
  unfold decode_request_payload. intros H.
  apply rbind_Ok in H as (? & _ & H). apply rbind_Ok in H as (op & _ & H).
  assert (Hev : _event d op = Ok r -> request_ok r).
  { intros He. destruct r as [|r| | | | | |];
      try (by unfold _event in He; field_inv).
    by apply event_decoded_ok in He as [? _]. }
  destruct op; cbn [REQUEST_DECODERS] in H; try (by apply Hev);
    clear Hev; unfold _register, _control, _restore_list, _execute, _retry, _discard in H.
  - field_inv. repeat match goal with H : _identity _ = Ok _ |- _ => apply identity_decoded_ok in H end.
    match goal with H : str_in _ _ = true |- _ => apply str_in_spec in H end.
    split; [done|]. split; [done|]. split; [done|]. split; [done|]. cbn. lia.
  - by field_inv.
  - by field_inv.
  - destruct (set_eqb _ _); field_inv; done.
  - field_inv. match goal with H : subsetb _ _ = true |- _ => rewrite subsetb_spec in H end.
    unfold request_ok, id_list_ok. cbn. naive_solver.
  - field_inv. unfold request_ok, id_list_ok. cbn. naive_solver.
  - apply rbind_Ok in H as (? & _ & H). apply rbind_Ok in H as (v & _ & H).
    destruct v as [|[]| | | | |]; try done. field_inv. done.
Qed.

Lemma run_string s n l e : string_ok s l e -> _string (VStr s) n l e = Ok s.
Proof. intros. by apply string_Ok. Qed.
Lemma run_id s n sh : id_ok s sh -> _id (VStr s) n sh = Ok s.
Proof. intros. by apply id_Ok. Qed.
Lemma run_capability s : _CAPABILITY_RE s = true -> _capability (VStr s) = Ok s.
Proof. intros. by apply capability_Ok. Qed.
Lemma run_integer z n lo hi : lo <= z <= hi -> _integer (VInt z) n lo hi = Ok z.
Proof. intros. by apply integer_Ok. Qed.
Lemma run_absolute s n : absolute_ok s -> _absolute (VStr s) n = Ok s.
Proof. intros. by apply absolute_Ok. Qed.
Lemma run_enum {A} `{StrEnumLaws A} (x : A) n : _enum (VStr (enum_value x)) n = Ok x.
Proof. by apply enum_Ok. Qed.
Lemma run_id_list ids n ne : id_list_ok ids -> (ne = true -> ids <> []) ->
  _id_list (str_list_val ids) n ne = Ok ids.
Proof. intros (? & ? & ?) ?. by apply id_list_Ok. Qed.
Lemma run_safe_text t n : safe_text_ok t ->
  _safe_external_text_from_wire (VStr (safe_value t)) n = Ok t.
Proof. intros. by apply safe_wire_Ok. Qed.

(** [run_reader] runs one successful reader of a literal dictionary. *)
Ltac run_reader :=
  first
    [ rewrite run_string; [eassumption|]
    | rewrite run_id; [eassumption|]
    | rewrite run_capability; [eassumption|]
    | rewrite run_integer; [first [eassumption | lia]|]
    | rewrite run_absolute; [eassumption|]
    | rewrite identity_dict_decodes; [eassumption|]
    | rewrite run_enum
    | rewrite run_id_list; [eassumption|first [done | by intros _]|]
    | rewrite run_safe_text; [eassumption|] ].

Ltac run_decoder :=
  repeat first
    [ progress cbn [rbind result_of_option raise_if negb opt_val]
    | exact_keys
    | run_reader
    | progress (unfold dict_index at 1; eval_dict) ].

Lemma schema_base d : _schema ((u "schema_version", VInt 1) :: d) = Ok tt.
Proof. unfold _schema, dict_get_none. by rewrite dict_get_cons_eq. Qed.

Lemma operation_base op d :
  decode_request_payload ((u "schema_version", VInt 1) :: (u "operation", VStr (enum_value op)) :: d) =
  REQUEST_DECODERS op ((u "schema_version", VInt 1) :: (u "operation", VStr (enum_value op)) :: d).
Proof.
  unfold decode_request_payload. rewrite schema_base. cbn [rbind]. unfold dict_get_none.
  eval_dict. cbn [default]. unfold id. by rewrite (proj2 (enum_Ok _ _ op) eq_refl).
Qed.

(** [optional_field] on a key that is there, or not asked for. *)
Lemma optional_present {A} extra d k (reader : pyval -> result A) v x :
  str_in k extra = true -> dict_get k d = Some v -> reader v = Ok x ->
  optional_field extra d k reader = Ok (Some x).
Proof. intros Hk Hd Hr. unfold optional_field, dict_index. by rewrite Hk Hd /= Hr. Qed.

Lemma optional_absent {A} extra d k (reader : pyval -> result A) :
  str_in k extra = false -> optional_field extra d k reader = Ok None.
Proof. intros Hk. unfold optional_field. by rewrite Hk. Qed.

Ltac run_optional :=
  match goal with
  | |- context [optional_field ?e ?d ?k ?r] =>
      first
        [ rewrite (optional_absent e d k r ltac:(vm_compute; reflexivity))
        | erewrite (optional_present e d k r); [|vm_compute; reflexivity|by eval_dict|run_reader; reflexivity] ]
  end.

Lemma event_payload_decodes r d :
  event_ok r -> _request_to_dict (EventReq r) = Ok d -> decode_request_payload d = Ok (EventReq r).
Proof.
  destruct r as [op shell cap who sq dir csq cmd status]. unfold event_ok.
  cbn [ev_operation ev_shell_id ev_capability ev_identity ev_sequence ev_cwd ev_command_sequence
       ev_command ev_exit_status].
  intros (Hs & Hc & Hi & Hq & Hf) Hd. unfold sequence_ok in Hq.
  assert (event_extra op = Ok (match op with
    | COMMAND_STARTED => [u "command_sequence"; u "command"]
    | COMMAND_FINISHED => [u "command_sequence"; u "exit_status"]
    | PROMPT_READY | CWD_CHANGED => [u "cwd"] | _ => [] end)) as Hx by by destruct op.
  destruct op; cbn [event_fields_ok] in Hf; try done; unfold some_ok, sequence_ok, command_ok, exit_ok in Hf;
    destruct_and?; repeat match goal with H : exists _, _ |- _ => destruct H as (? & -> & ?) end; subst;
    cbn [_request_to_dict ev_operation ev_shell_id ev_capability ev_identity ev_sequence ev_cwd
         ev_command_sequence ev_command ev_exit_status opt_val app] in Hd;
    apply Ok_inj in Hd; subst d; rewrite operation_base; cbn [REQUEST_DECODERS];
    unfold _event; rewrite Hx; run_decoder; repeat (run_optional; cbn [rbind]); done.
Qed.

Lemma register_payload_decodes r d :
  register_ok r -> _request_to_dict (RegisterReq r) = Ok d ->
  decode_request_payload d = Ok (RegisterReq r).
Proof.
  destruct r as [shell who ad dir sq]. unfold register_ok.
  cbn [reg_shell_id reg_identity reg_adapter reg_cwd reg_sequence].
  intros (Hs & Hi & Ha & Hc & ->) Hd.
  cbn [_request_to_dict reg_shell_id reg_identity reg_adapter reg_cwd reg_sequence app] in Hd.
  apply Ok_inj in Hd. subst d. rewrite operation_base. cbn [REQUEST_DECODERS]. unfold _register.
  pose proof (adapters_plain _ Ha) as Hp. apply str_in_spec in Ha.
  run_decoder. rewrite Ha. run_decoder. done.
Qed.

(** Encoding a valid request gives a dictionary, and decoding it the request. *)
Lemma request_payload r : request_ok r ->
  exists d, _request_to_dict r = Ok d /\ decode_request_payload d = Ok r.
Proof.
  intros Hr. destruct r as [r|r| | |r|r|r|r]; cbn [request_ok] in Hr.
  - eexists. split; [reflexivity|]. by apply register_payload_decodes.
  - eexists. split; [reflexivity|]. by apply event_payload_decodes.
  - eexists. split; [reflexivity|]. rewrite operation_base. cbn [REQUEST_DECODERS].
    unfold _control. run_decoder. done.
  - eexists. split; [reflexivity|]. rewrite operation_base. cbn [REQUEST_DECODERS].
    unfold _control. run_decoder. done.
  - destruct r as [[ws|] [att|]]; cbn [rl_workspace_id rl_attempt_id] in Hr; try done.
    + destruct Hr as [Hw Ha]. cbn [_request_to_dict rl_workspace_id rl_attempt_id]. run_decoder.
      eexists. split; [reflexivity|]. cbn [app]. rewrite operation_base. cbn [REQUEST_DECODERS].
      unfold _restore_list.
      match goal with |- context [set_eqb ?a ?b] => change (set_eqb a b) with false end.
      run_decoder. done.
    + eexists. split; [reflexivity|]. rewrite operation_base. done.
  - destruct r as [ws sel ap]. cbn [re_workspace_id re_selected_item_ids re_approved_item_ids] in Hr.
    destruct Hr as (Hw & Hs & Hne & Ha & Hsub).
    cbn [_request_to_dict re_workspace_id re_selected_item_ids re_approved_item_ids].
    rewrite run_id_list //. run_decoder. eexists. split; [reflexivity|].
    cbn [app]. rewrite operation_base. cbn [REQUEST_DECODERS]. unfold _execute. run_decoder.
    rewrite (proj2 (subsetb_spec ap sel) Hsub). run_decoder. done.
  - destruct r as [ws att ap]. cbn [rr_workspace_id rr_attempt_id rr_approved_item_ids] in Hr.
    destruct Hr as (Hw & Ha & Hl).
    cbn [_request_to_dict rr_workspace_id rr_attempt_id rr_approved_item_ids]. run_decoder.
    eexists. split; [reflexivity|]. cbn [app]. rewrite operation_base. cbn [REQUEST_DECODERS].
    unfold _retry. run_decoder. done.
  - destruct r as [ws cf]. cbn [dr_workspace_id dr_confirm] in Hr. destruct Hr as [Hw ->].
    eexists. split; [reflexivity|]. cbn [app dr_workspace_id dr_confirm]. rewrite operation_base.
    cbn [REQUEST_DECODERS]. unfold _discard. run_decoder. done.
Qed.

(** ** The framing *)
Lemma duplicate_go_fresh seen d : NoDup (map fst d) -> (forall k, k ∈ map fst d -> k ∉ seen) ->
  duplicate_go seen d = Ok tt.
Proof.
  revert seen. induction d as [|[k v] d IH]; intros seen Hnd Hs; [done|].
  cbn [duplicate_go map fst] in *. apply NoDup_cons in Hnd as [Hk Hnd].
  assert (str_in k seen = false) as -> by (apply str_in_false, Hs; left). cbn [raise_if rbind].
  apply IH; [done|]. intros k' Hk' [->|Hin]%elem_of_cons; [done|]. by apply (Hs k'); [right|].
Qed.

Lemma duplicate_rejector_nodup d : NoDup (map fst d) -> _duplicate_rejector d = Ok (VDict d).
Proof. intros H. unfold _duplicate_rejector. rewrite duplicate_go_fresh //. intros k _. by apply not_elem_of_nil. Qed.

(** How deep the values of a tree lie, the root at 1. *)
Fixpoint json_depth (v : pyval) : Z :=
  match v with
  | VList l => 1 + foldr Z.max 0 (map json_depth l)
  | VDict d => 1 + foldr Z.max 0 (map (fun kv => json_depth kv.2) d)
  | _ => 1
  end.

Lemma json_depth_children v : json_depth v = 1 + foldr Z.max 0 (map json_depth (children v)).
Proof. destruct v; try done. cbn [json_depth children]. by rewrite map_map. Qed.

Lemma value_size_children v : value_size v = S (foldr Nat.add O (map value_size (children v))).
Proof. destruct v; try done. cbn [value_size children]. by rewrite map_map. Qed.

Definition stack_size (stack : list (pyval * Z)) : nat :=
  foldr Nat.add O (map (fun x => value_size x.1) stack).

Lemma stack_size_app a b : stack_size (a ++ b) = (stack_size a + stack_size b)%nat.
Proof. unfold stack_size. induction a as [|x a IH]; cbn in *; [done|lia]. Qed.

Lemma stack_size_rev a : stack_size (rev a) = stack_size a.
Proof.
  induction a as [|x a IH]; [done|]. cbn [rev]. rewrite stack_size_app IH.
  unfold stack_size. cbn. lia.
Qed.

Lemma stack_size_cons v d stack : stack_size ((v, d) :: stack) = (value_size v + stack_size stack)%nat.
Proof. done. Qed.

Lemma stack_size_kids l d :
  stack_size (map (fun child => (child, d)) l) = foldr Nat.add O (map value_size l).
Proof. unfold stack_size. by rewrite map_map. Qed.

Lemma Permutation_Forall_iff {A} (P : A -> Prop) l l' :
  l ≡ₚ l' -> Forall P l <-> Forall P l'.
Proof. by intros ->. Qed.

Lemma fold_max_bound l b : 0 <= b -> (foldr Z.max 0 l <= b <-> Forall (fun x => x <= b) l).
Proof.
  intros Hb. induction l as [|x l IH]; cbn [foldr]; [split; [constructor|lia]|].
  rewrite Forall_cons -IH. lia.
Qed.

(** The loop over the explicit stack accepts exactly the trees whose values all
    lie within the limit. *)
Lemma depth_loop_spec fuel stack : (stack_size stack <= fuel)%nat ->
  Forall (fun x => 1 <= x.2) stack ->
  (depth_loop fuel stack = Ok tt <->
   Forall (fun x => json_depth x.1 + x.2 - 1 <= MAX_JSON_NESTING) stack).
Proof.
  revert stack. induction fuel as [|fuel IH]; intros [|[v d] stack] Hf Hpos; try done.
  - unfold stack_size in Hf. cbn in Hf. rewrite value_size_children in Hf. lia.
  - cbn [depth_loop]. inversion Hpos as [|? ? Hd Hpos']; subst. cbn [snd] in Hd.
    rewrite Forall_cons. cbn [fst snd]. rewrite rbind_Ok.
    set (kids := rev (map (fun child => (child, d + 1)) (children v)) ++ stack).
    assert (Hkids : Forall (fun x : pyval * Z => 1 <= x.2) kids).
    { apply Forall_app. split; [|done]. apply Forall_rev, Forall_map. apply Forall_true. intros. cbn. lia. }
    assert (Hsize : (stack_size kids <= fuel)%nat).
    { unfold kids. rewrite stack_size_app stack_size_rev stack_size_kids.
      rewrite stack_size_cons value_size_children in Hf. lia. }
    specialize (IH kids Hsize Hkids).
    assert (Hk : Forall (fun x => json_depth x.1 + x.2 - 1 <= MAX_JSON_NESTING) kids <->
                 Forall (fun x => x + d <= MAX_JSON_NESTING) (map json_depth (children v)) /\
                 Forall (fun x => json_depth x.1 + x.2 - 1 <= MAX_JSON_NESTING) stack).
    { unfold kids. rewrite Forall_app (Permutation_Forall_iff _ _ _ (Permutation_sym (Permutation_rev _))).
      rewrite !Forall_map.
      assert (forall w, json_depth w + (d + 1) - 1 <= MAX_JSON_NESTING <->
                        json_depth w + d <= MAX_JSON_NESTING) as He by (intros; lia).
      cbn [fst snd]. rewrite !Forall_forall. cbn. setoid_rewrite He. done. }
    assert (Hmax : Forall (fun x => x + d <= MAX_JSON_NESTING) (map json_depth (children v)) /\
                   d <= MAX_JSON_NESTING <-> json_depth v + d - 1 <= MAX_JSON_NESTING).
    { rewrite json_depth_children. split.
      - intros [Ha Hb].
        assert (foldr Z.max 0 (map json_depth (children v)) <= MAX_JSON_NESTING - d); [|lia].
        apply fold_max_bound; [lia|]. eapply Forall_impl; [exact Ha|]. cbn. intros. lia.
      - intros Hle. assert (0 <= foldr Z.max 0 (map json_depth (children v))).
        { clear. induction (map _ _); cbn; lia. }
        split; [|lia].
        assert (foldr Z.max 0 (map json_depth (children v)) <= MAX_JSON_NESTING - d) as Hb by lia.
        apply fold_max_bound in Hb; [|lia]. eapply Forall_impl; [exact Hb|]. cbn. intros. lia. }
    split.
    + intros ([] & Hr%raise_if_Ok & Hl). apply Z.ltb_ge in Hr. apply IH, Hk in Hl as [Ha Hb].
      split; [|done]. by apply Hmax.
    + intros [Ha Hb]. apply Hmax in Ha as [Ha Hd']. exists tt.
      split; [apply raise_if_Ok; lia|]. by apply IH, Hk.
Qed.

Lemma json_depth_positive v : 1 <= json_depth v.
Proof.
  rewrite json_depth_children. assert (0 <= foldr Z.max 0 (map json_depth (children v))); [|lia].
  induction (map json_depth (children v)); cbn; lia.
Qed.

Lemma require_json_depth_Ok v : _require_json_depth v = Ok tt <-> json_depth v <= MAX_JSON_NESTING.
Proof.
  unfold _require_json_depth. rewrite depth_loop_spec.
  - unfold stack_size. cbn. lia.
  - by apply Forall_singleton.
  - rewrite Forall_singleton. cbn. lia.
Qed.

Lemma nesting_children v :
  nesting v = match v with VList _ | VDict _ => S (foldr Nat.max O (map nesting (children v))) | _ => O end.
Proof. destruct v; try done. cbn [nesting children]. by rewrite map_map. Qed.

Lemma nesting_depth v : Z.of_nat (nesting v) <= json_depth v.
Proof.
  induction v as [| | | | |l IH|d IH] using pyval_nested_ind;
    try (rewrite nesting_children; pose proof (json_depth_positive VNone); cbn; lia).
  - rewrite nesting_children json_depth_children. cbn [children].
    assert (Z.of_nat (foldr Nat.max 0%nat (map nesting l)) <= foldr Z.max 0 (map json_depth l)); [|lia].
    induction IH as [|v l Hv _ IHl]; cbn [map foldr]; lia.
  - rewrite nesting_children json_depth_children. cbn [children]. rewrite !map_map.
    assert (Z.of_nat (foldr Nat.max 0%nat (map (fun x => nesting x.2) d)) <=
            foldr Z.max 0 (map (fun x => json_depth x.2) d)); [|lia].
    induction IH as [|v l Hv _ IHl]; cbn [map foldr]; lia.
Qed.

Lemma one_trailing_newline_app b : 10 ∉ b -> one_trailing_newline (b ++ [newline]) = true.
Proof.
  intros Hb. unfold one_trailing_newline, ends_with. rewrite rev_app_distr. cbn [rev app].
  cbn [is_prefix]. rewrite Z.eqb_refl. cbn [andb].
  assert (filter (fun b => b = newline) b = []) as Hf.
  { clear -Hb. induction b as [|c b IH]; [done|]. rewrite not_elem_of_cons in Hb.
    rewrite filter_cons_False; [naive_solver|]. apply IH. naive_solver. }
  by rewrite filter_app Hf.
Qed.

(** A payload that is printed fits the limit or not; if it does, it is read back. *)
Lemma frame_round_trip rec_limit payload limit ctx :
  (16 <= rec_limit)%nat ->
  json_ok (VDict payload) = true -> ints_small (VDict payload) = true ->
  json_depth (VDict payload) <= MAX_JSON_NESTING ->
  exists raw,
    _encode_json_line payload limit ctx =
      (raise_if (limit <? len raw) (ValueError (ctx ++ u " message exceeds byte limit")) ;? Ok raw) /\
    (len raw <= limit -> forall ctx', _decode_json_line rec_limit raw limit ctx' = Ok payload).
Proof.
  intros Hrec Hok Hints Hdepth.
  destruct (dumps_total wire_options (VDict payload) Hok Hints) as (t & Ht & Hp).
  destruct (printable_encodes t Hp) as [He Hnl].
  exists (flat_map utf8_char t ++ [newline]). split.
  - unfold _encode_json_line. by rewrite Ht /= He.
  - intros Hlen ctx'. unfold _decode_json_line.
    rewrite (proj2 (Z.ltb_ge _ _) Hlen). cbn [raise_if rbind].
    rewrite one_trailing_newline_app //. cbn [negb raise_if rbind].
    rewrite removelast_last (utf8_round_trip false t _ He). cbn [rbind].
    rewrite (loads_dumps wire_options _ rec_limit (VDict payload) t).
    + apply duplicate_rejector_nodup.
    + done.
    + pose proof (nesting_depth (VDict payload)). unfold MAX_JSON_NESTING in *. lia.
    + done.
    + cbn [rbind]. by rewrite (proj2 (require_json_depth_Ok _) Hdepth).
Qed.

(** ** Valid requests are printable payloads *)

(** The characters of a [str] are code points. *)
Definition is_str (s : pystr) : Prop := forallb (fun c => c <? 0x110000) s = true.

Definition request_text (r : ServiceRequest) : Prop :=
  match r with
  | RegisterReq r => is_str (reg_cwd r)
  | EventReq r => (forall s, ev_cwd r = Some s -> is_str s) /\ (forall s, ev_command r = Some s -> is_str s)
  | _ => True
  end.

Lemma string_scalar s l e : string_ok s l e -> is_str s -> forallb is_scalar s = true.
Proof.
  intros (_ & _ & Hf) Hs. apply forallb_forall. intros c Hc. unfold is_str in Hs.
  rewrite forallb_forall in Hs. specialize (Hs c Hc). apply not_true_iff_false in Hf.
  destruct (forbidden_char c) eqn:E.
  { exfalso. apply Hf, existsb_exists. by exists c. }
  unfold forbidden_char in E. unfold is_scalar. lia.
Qed.

Lemma absolute_scalar s : absolute_ok s -> is_str s -> forallb is_scalar s = true.
Proof. intros [H _] Hs. exact (string_scalar _ _ _ H Hs). Qed.

Lemma id_chars_scalar s : forallb id_char s = true -> forallb is_scalar s = true.
Proof.
  intros H. apply forallb_forall. intros c Hc. rewrite forallb_forall in H. specialize (H c Hc).
  unfold id_char, is_alnum, is_alpha, is_lower, is_upper, is_digit in H.
  unfold is_scalar, is_surrogate. lia.
Qed.

Lemma id_scalar s sh : id_ok s sh -> forallb is_scalar s = true.
Proof. intros [H _]. unfold _ID_RE in H. apply andb_true_iff in H as [_ H]. by apply id_chars_scalar. Qed.

Lemma capability_scalar s : _CAPABILITY_RE s = true -> forallb is_scalar s = true.
Proof. unfold _CAPABILITY_RE. intros H. apply andb_true_iff in H as [_ H]. by apply id_chars_scalar. Qed.

Lemma enum_scalar {A} `{StrEnumLaws A} (x : A) : forallb is_scalar (enum_value x) = true.
Proof.
  pose proof (enum_value_plain x) as Hp. apply forallb_forall. intros c Hc.
  rewrite forallb_forall in Hp. specialize (Hp c Hc). unfold is_scalar, is_surrogate. lia.
Qed.

Lemma uuid_scalar s t : uuid_canonical s = Some t -> forallb is_scalar t = true.
Proof.
  unfold uuid_canonical. set (bare := remove _ _). destruct (negb _); [done|].
  destruct (int_of_hex bare) as [z|]; [|done]. cbn [mbind option_bind].
  destruct (_ && _); [|done]. intros Ht. apply (inj Some) in Ht. rewrite -Ht. clear Ht.
  assert (Hh : Forall (fun c => is_scalar c = true) (hex_text 32 z)).
  { unfold hex_text. apply Forall_map, Forall_true. intros i.
    pose proof (Z.mod_pos_bound (z / 16 ^ (32 - 1 - Z.of_nat i)) 16 ltac:(lia)).
    set (d := _ mod 16) in *. unfold hex_digit. destruct (d <? 10) eqn:?;
      unfold is_scalar, is_surrogate; lia. }
  apply forallb_Forall. rewrite !Forall_app.
  repeat split; try (by repeat constructor); repeat (apply Forall_take || apply Forall_drop); done.
Qed.

Lemma adapters_scalar a : a ∈ SUPPORTED_ADAPTERS -> forallb is_scalar a = true.
Proof.
  intros Ha. apply list_elem_of_In in Ha.
  assert (forallb (forallb is_scalar) SUPPORTED_ADAPTERS = true) as Hall by reflexivity.
  rewrite forallb_forall in Hall. by apply Hall.
Qed.

Lemma id_list_json ids : Forall (fun i => id_ok i false) ids ->
  json_ok (str_list_val ids) = true.
Proof.
  intros H. unfold str_list_val. cbn [json_ok]. apply forallb_Forall, Forall_map.
  eapply Forall_impl; [exact H|]. intros i. apply id_scalar.
Qed.

Lemma json_ok_dict d :
  nodupb (map fst d) = true ->
  Forall (fun kv => forallb is_scalar kv.1 = true /\ json_ok kv.2 = true) d ->
  json_ok (VDict d) = true.
Proof.
  intros Hn Hd. cbn [json_ok]. rewrite Hn. apply forallb_Forall.
  eapply Forall_impl; [exact Hd|]. intros kv. by rewrite andb_true_iff.
Qed.

Lemma identity_json x : identity_ok x -> json_ok (_identity_dict x) = true.
Proof.
  intros (Hu & _). apply json_ok_dict; [reflexivity|].
  repeat constructor; cbn [snd json_ok]. by apply (uuid_scalar (boot_id x)).
Qed.

(** [json_fields] proves a literal dictionary printable, field by field. *)
Ltac json_fields :=
  apply json_ok_dict; [vm_compute; reflexivity|];
  repeat (apply Forall_cons; split; [split; [vm_compute; reflexivity|]; cbn [snd json_ok opt_val]|]);
  try apply Forall_nil_2;
  first [ reflexivity
        | eapply id_scalar; eassumption
        | by apply capability_scalar
        | by apply identity_json
        | by apply adapters_scalar
        | apply enum_scalar
        | by apply id_list_json
        | apply absolute_scalar; [assumption|by eauto]
        | eapply string_scalar; [eassumption|by eauto]
        | idtac ].

Lemma small_int z : Z.abs z <= 2 ^ 64 -> Z.abs z <? 10 ^ 100 = true.
Proof. intros H. apply Z.ltb_lt. eapply Z.le_lt_trans; [exact H|]. reflexivity. Qed.

Ltac ints_fields :=
  cbn [ints_small forallb snd opt_val _identity_dict pid start_time str_list_val app];
  rewrite ?andb_true_r ?andb_true_iff;
  repeat split; try reflexivity; try (apply small_int; unfold _MAX_INTEGER in *; lia);
  try (apply forallb_Forall, Forall_map, Forall_true; done).

Lemma depth_bound v b : 0 <= b -> Forall (fun w => json_depth w <= b) (children v) ->
  json_depth v <= 1 + b.
Proof.
  intros Hb H. rewrite json_depth_children. apply Z.add_le_mono_l, fold_max_bound; [done|].
  by apply Forall_map.
Qed.

Lemma flat_depth d : Forall (fun kv => json_depth kv.2 <= 2) d ->
  json_depth (VDict d) <= MAX_JSON_NESTING.
Proof.
  intros H. apply Z.le_trans with (1 + 2); [|done]. apply depth_bound; [done|]. by apply Forall_map.
Qed.

Lemma str_list_depth ids : json_depth (str_list_val ids) <= 2.
Proof. apply (depth_bound (str_list_val ids) 1); [done|]. by apply Forall_map, Forall_true. Qed.

(** The payload of a valid request prints, whatever the request is. *)
Lemma request_printable r d : request_ok r -> request_text r -> _request_to_dict r = Ok d ->
  json_ok (VDict d) = true /\ ints_small (VDict d) = true /\ json_depth (VDict d) <= MAX_JSON_NESTING.
Proof.
  intros Hr Ht Hd.
  assert (Hdepth : Forall (fun kv => json_depth kv.2 <= 2) d).
  { destruct r as [r|r| | |r|r|r|r]; cbn [_request_to_dict] in Hd;
      try (destruct (ev_operation r)); try (destruct r as [[?|] [?|]]; cbn in Hd); r_inv;
      repeat constructor; cbn [snd json_depth opt_val]; try lia; try apply str_list_depth; try done;
      try (by destruct (ev_cwd r)); try (by destruct (ev_command_sequence r));
      try (by destruct (ev_command r)); try (by destruct (ev_exit_status r)). }
  split; [|split; [|by apply flat_depth]].
  - destruct r as [r|r| | |r|r|r|r]; cbn [request_ok request_text] in *.
    + destruct Hr as (H1 & H2 & H3 & H4 & _). apply Ok_inj in Hd. subst d. json_fields.
    + destruct Hr as (H1 & H2 & H3 & H4 & H5). destruct Ht as [T1 T2]. apply Ok_inj in Hd. subst d.
      destruct (ev_operation r); cbn [event_fields_ok] in H5; try done;
        destruct_and?; unfold some_ok, command_ok in *;
        repeat match goal with H : exists _, _ |- _ => destruct H as (? & ? & ?) end;
        repeat match goal with H : _ r = Some _ |- _ => rewrite H; try rewrite H in T1; try rewrite H in T2 end;
        json_fields.
    + apply Ok_inj in Hd. subst d. json_fields.
    + apply Ok_inj in Hd. subst d. json_fields.
    + destruct r as [[ws|] [att|]]; cbn in Hr; try done.
      * destruct Hr as [H1 H2]. cbn [_request_to_dict rl_workspace_id rl_attempt_id] in Hd.
        rewrite !run_id // in Hd. apply Ok_inj in Hd. subst d. json_fields.
      * apply Ok_inj in Hd. subst d. json_fields.
    + destruct Hr as (H1 & (_ & H2 & _) & _ & (_ & H3 & _) & _). cbn [_request_to_dict] in Hd. field_inv.
      json_fields.
    + destruct Hr as (H1 & H2 & (_ & H3 & _)). cbn [_request_to_dict] in Hd. field_inv. json_fields.
    + destruct Hr as [H1 H2]. apply Ok_inj in Hd. subst d. json_fields.
  - destruct r as [r|r| | |r|r|r|r]; cbn [request_ok] in *.
    + destruct Hr as (_ & (_ & _ & H2 & H3) & _ & _ & H4). apply Ok_inj in Hd. subst d. ints_fields.
    + destruct Hr as (_ & _ & (_ & _ & H2 & H3) & H4 & H5). unfold sequence_ok in H4.
      apply Ok_inj in Hd. subst d.
      destruct (ev_operation r); cbn [event_fields_ok] in H5; try done;
        destruct_and?; unfold some_ok, sequence_ok, exit_ok in *;
        repeat match goal with H : exists _, _ |- _ => destruct H as (? & ? & ?) end;
        repeat match goal with H : _ r = Some _ |- _ => rewrite H end; ints_fields.
    + apply Ok_inj in Hd. by subst d.
    + apply Ok_inj in Hd. by subst d.
    + destruct r as [[ws|] [att|]]; cbn in Hd; try done; r_inv; done.
    + cbn [_request_to_dict] in Hd. field_inv. ints_fields.
    + cbn [_request_to_dict] in Hd. field_inv. ints_fields.
    + apply Ok_inj in Hd. by subst d.
Qed.

(** ** Size of a frame *)
Definition byte_len (t : pystr) : Z := len (flat_map utf8_char t).

Lemma byte_len_app a b : byte_len (a ++ b) = byte_len a + byte_len b.
Proof. unfold byte_len. by rewrite flat_map_app len_app. Qed.

Lemma byte_len_cons c t : byte_len (c :: t) = len (utf8_char c) + byte_len t.
Proof. unfold byte_len. cbn [flat_map]. by rewrite len_app. Qed.

Lemma utf8_char_len c : 1 <= len (utf8_char c) <= 4.
Proof. unfold utf8_char. repeat case_match; cbn; unfold len; cbn; lia. Qed.

Lemma utf8_ascii_len c : c < 128 -> len (utf8_char c) = 1.
Proof. intros H. unfold utf8_char. destruct (Z.ltb_spec c 128); [done|lia]. Qed.

Lemma byte_len_ascii t : Forall (fun c => c < 128) t -> byte_len t = len t.
Proof.
  induction 1 as [|c t Hc _ IH]; [done|]. by rewrite byte_len_cons len_cons IH utf8_ascii_len.
Qed.

(** The size of a string between its quotes. *)
Definition body_len (s : pystr) : Z := byte_len (flat_map (escape_char false) s).

Lemma body_len_cons c s : body_len (c :: s) = byte_len (escape_char false c) + body_len s.
Proof. unfold body_len. cbn [flat_map]. by rewrite byte_len_app. Qed.

Lemma body_len_text s : existsb forbidden_char s = false -> body_len s <= 4 * len s.
Proof.
  induction s as [|c s IH]; [done|]. cbn [existsb]. intros [Hc Hs]%orb_false_iff.
  rewrite body_len_cons len_cons. specialize (IH Hs).
  assert (byte_len (escape_char false c) <= 4); [|lia].
  unfold escape_char.
  repeat match goal with |- context [if ?b then [92; _] else _] => destruct b; [done|] end.
  destruct ((0 <=? c) && (c <? 32)) eqn:E32; [unfold forbidden_char in Hc; lia|]. cbn [andb].
  rewrite byte_len_cons. change (byte_len []) with 0. pose proof (utf8_char_len c). lia.
Qed.

(** Characters that are neither escaped nor longer than a byte. *)
Definition unescaped_char (c : Z) : bool := (32 <=? c) && (c <? 127) && negb (c =? 34) && negb (c =? 92).

Lemma body_len_unescaped s : forallb unescaped_char s = true -> body_len s = len s.
Proof.
  induction s as [|c s IH]; [done|]. cbn [forallb]. intros [Hc Hs]%andb_true_iff.
  rewrite body_len_cons len_cons IH //. unfold unescaped_char in Hc. f_equal.
  unfold escape_char.
  repeat match goal with |- context [if ?b then [92; _] else _] =>
    let E := fresh in destruct b eqn:E; [lia|] end.
  destruct ((0 <=? c) && (c <? 32)) eqn:E32; [lia|]. cbn [andb]. rewrite byte_len_cons utf8_ascii_len; [lia|done].
Qed.

Lemma id_body_len s : forallb id_char s = true -> body_len s = len s.
Proof.
  intros H. apply body_len_unescaped, forallb_forall. intros c Hc.
  rewrite forallb_forall in H. specialize (H c Hc).
  unfold id_char, is_alnum, is_alpha, is_lower, is_upper, is_digit in H. unfold unescaped_char. lia.
Qed.

(** The printed size of a value without floats. *)
Fixpoint wire_size (v : pyval) : Z :=
  match v with
  | VNone => 4
  | VBool b => if b then 4 else 5
  | VInt z => (if z <? 0 then 1 else 0) + len (digits (Z.abs z))
  | VFloat _ => 0
  | VStr s => body_len s + 2
  | VList l => 2 + foldr (fun v n => wire_size v + n) 0 l + Z.max 0 (len l - 1)
  | VDict d => 2 + foldr (fun kv n => body_len kv.1 + 3 + wire_size kv.2 + n) 0 d +
               Z.max 0 (len d - 1)
  end.

Fixpoint no_float (v : pyval) : bool :=
  match v with
  | VFloat _ => false
  | VList l => forallb no_float l
  | VDict d => forallb (fun kv => no_float kv.2) d
  | _ => true
  end.

Lemma json_string_size s : byte_len (json_string false s) = body_len s + 2.
Proof.
  unfold json_string. rewrite byte_len_cons byte_len_app. fold (body_len s).
  change (byte_len [34]) with 1. change (len (utf8_char 34)) with 1. lia.
Qed.

Lemma join_size {A} (f : A -> result pystr) (size : A -> Z) l t :
  Forall (fun x => forall t, f x = Ok t -> byte_len t = size x) l ->
  rmap_join f l = Ok t -> byte_len t = foldr (fun x n => size x + n) 0 l + Z.max 0 (len l - 1).
Proof.
  intros Hl. revert t. induction Hl as [|x l Hx Hl IH]; intros t; cbn [rmap_join].
  - intros [= <-]. done.
  - destruct l as [|y l].
    + intros Ht. rewrite (Hx _ Ht). cbn [foldr]. change (len [x]) with 1. lia.
    + intros H. apply rbind_Ok in H as (a & Ha & H). apply rbind_Ok in H as (b & Hb & H).
      injection H as <-. rewrite byte_len_app byte_len_cons (Hx _ Ha) (IH _ Hb).
      change (len (utf8_char 44)) with 1. rewrite (len_cons x) (len_cons y). cbn [foldr].
      pose proof (len_nonneg l). lia.
Qed.

Lemma dumps_size v t : no_float v = true -> json_dumps wire_options v = Ok t -> byte_len t = wire_size v.
Proof.
  revert t. induction v as [|b|z|f|s|l IH|d IH] using pyval_nested_ind; intros t Hn H;
    cbn [json_dumps no_float wire_size] in *.
  - by injection H as <-.
  - by destruct b; injection H as <-.
  - unfold int_text in H. r_inv. rewrite byte_len_ascii.
    + pose proof (str_of_int_chars z) as Hc. apply forallb_Forall in Hc.
      eapply Forall_impl; [exact Hc|]. intros c Hd. unfold number_char, char_in, is_digit in Hd.
      cbn [existsb] in Hd. lia.
    + unfold str_of_int. destruct (Z.ltb_spec z 0).
      * rewrite len_cons Z.abs_neq; lia.
      * rewrite Z.abs_eq; lia.
  - done.
  - injection H as <-. apply json_string_size.
  - r_inv. rewrite byte_len_cons byte_len_app. change (byte_len [93]) with 1.
    change (len (utf8_char 91)) with 1. apply forallb_Forall in Hn.
    rewrite (join_size (json_dumps wire_options) wire_size l x); [|done|lia].
    rewrite Forall_forall in IH. rewrite Forall_forall in Hn. apply Forall_forall. eauto.
  - r_inv. rewrite byte_len_cons byte_len_app. change (byte_len [125]) with 1.
    change (len (utf8_char 123)) with 1. apply forallb_Forall in Hn.
    rewrite (join_size (member_text wire_options) (fun kv => body_len kv.1 + 3 + wire_size kv.2) d x);
      [|done|lia].
    rewrite Forall_forall in IH. rewrite Forall_forall in Hn. apply Forall_forall.
    intros [k v] Hkv t' Ht'. unfold member_text in Ht'.
    apply rbind_Ok in Ht' as (x0 & H0 & Ht'). apply Ok_inj in Ht'. subst t'.
    cbn [ensure_ascii wire_options]. rewrite byte_len_app byte_len_cons json_string_size. change (len (utf8_char 58)) with 1.
    cbn [fst snd] in *. rewrite (IH (k, v) Hkv x0); [by apply (Hn (k, v))|done|cbn [fst snd]; lia].
Qed.

Lemma int_size z : 0 <= z <= _MAX_INTEGER -> wire_size (VInt z) <= 19.
Proof.
  intros Hz. cbn [wire_size]. destruct (Z.ltb_spec z 0); [lia|]. rewrite Z.abs_eq; [lia|].
  pose proof (decimal_len _ _ 19%nat (digits_spec z ltac:(lia))) as Hl. unfold _MAX_INTEGER in Hz.
  specialize (Hl ltac:(change (10 ^ Z.of_nat 19) with 10000000000000000000; lia) ltac:(lia)).
  unfold len. lia.
Qed.

Lemma text_size s l e : string_ok s l e -> wire_size (VStr s) <= 4 * l + 2.
Proof.
  intros (_ & Hl & Hf). cbn [wire_size]. pose proof (body_len_text s Hf). lia.
Qed.

Lemma id_size s : forallb id_char s = true -> len s <= 128 -> wire_size (VStr s) <= 130.
Proof. intros H Hl. cbn [wire_size]. rewrite id_body_len //. lia. Qed.

Lemma id_ok_size s sh : id_ok s sh -> wire_size (VStr s) <= 130.
Proof.
  intros [H _]. unfold _ID_RE in H. apply andb_true_iff in H as [[_ Hl]%andb_true_iff H].
  apply id_size; [done|lia].
Qed.

Lemma capability_size s : _CAPABILITY_RE s = true -> wire_size (VStr s) <= 130.
Proof.
  unfold _CAPABILITY_RE. intros H. apply andb_true_iff in H as [[_ Hl]%andb_true_iff H].
  apply id_size; [done|lia].
Qed.

Lemma identity_size x : identity_ok x -> wire_size (_identity_dict x) <= 600.
Proof.
  intros (_ & Hb & Hp & Hs). unfold _identity_dict.
  pose proof (text_size _ _ _ Hb). pose proof (int_size (pid x) ltac:(unfold _MAX_INTEGER; lia)).
  pose proof (int_size (start_time x) Hs).
  cbn [wire_size foldr fst snd] in *.
  change (body_len (u "boot_id")) with 7. change (body_len (u "pid")) with 3.
  change (body_len (u "start_time")) with 10. unfold MAX_ID_CHARS in *.
  rewrite !len_cons. change (len (@nil (pystr * pyval))) with 0. lia.
Qed.

Lemma encode_line_printable payload limit ctx :
  json_ok (VDict payload) = true -> ints_small (VDict payload) = true ->
  no_float (VDict payload) = true -> wire_size (VDict payload) < limit ->
  exists raw, _encode_json_line payload limit ctx = Ok raw /\ len raw <= limit.
Proof.
  intros Hok Hints Hnf Hsize.
  destruct (dumps_total wire_options (VDict payload) Hok Hints) as (t & Ht & Hp).
  destruct (printable_encodes t Hp) as [He _].
  pose proof (dumps_size _ _ Hnf Ht) as Hb. unfold byte_len in Hb.
  exists (flat_map utf8_char t ++ [newline]).
  assert (len (flat_map utf8_char t ++ [newline]) <= limit) as Hlen.
  { rewrite len_app Hb. change (len [newline]) with 1. lia. }
  split; [|done]. unfold _encode_json_line. rewrite Ht /= He /=.
  by rewrite (proj2 (Z.ltb_ge _ _) Hlen).
Qed.

Lemma operation_size (op : Operation) : wire_size (VStr (enum_value op)) <= 20.
Proof. by destruct op; vm_compute. Qed.

Lemma event_size r d : event_ok r -> _request_to_dict (EventReq r) = Ok d ->
  no_float (VDict d) = true /\ wire_size (VDict d) < MAX_MESSAGE_BYTES.
Proof.
  intros (H1 & H2 & H3 & H4 & H5) Hd. apply Ok_inj in Hd. subst d.
  pose proof (id_ok_size _ _ H1). pose proof (capability_size _ H2). pose proof (identity_size _ H3).
  pose proof (int_size (ev_sequence r) ltac:(unfold sequence_ok in H4; lia)).
  pose proof (operation_size (ev_operation r)).
  destruct (ev_operation r); cbn [event_fields_ok] in H5; try done;
    destruct_and?; unfold some_ok, sequence_ok, command_ok, exit_ok in *;
    repeat match goal with H : exists _, _ |- _ => destruct H as (? & ? & ?) end;
    repeat match goal with H : _ r = Some _ |- _ => rewrite H; clear H end;
    (split; [reflexivity|]);
    repeat match goal with
    | H : string_ok _ _ _ |- _ => apply text_size in H
    | H : absolute_ok _ |- _ => destruct H as [H _]
    | H : 1 <= ?n <= _MAX_INTEGER |- _ => pose proof (int_size n ltac:(lia)); clear H
    | H : 0 <= ?n <= 255 |- _ => pose proof (int_size n ltac:(unfold _MAX_INTEGER; lia)); clear H
    end;
    cbn [opt_val app]; cbn [wire_size foldr fst snd] in *;
    repeat match goal with |- context [body_len (u ?k)] =>
      let v := eval vm_compute in (body_len (u k)) in change (body_len (u k)) with v end;
    rewrite !len_cons; change (len (@nil (pystr * pyval))) with 0; change (len (@nil Z)) with 0;
    change (if 1 <? 0 then 1 else 0) with 0;
    repeat match goal with |- context [if ?b then 1 else 0] => set (if b then 1 else 0) in * end;
    unfold MAX_COMMAND_CHARS, MAX_PATH_CHARS, MAX_MESSAGE_BYTES in *; lia.
Qed.

(** ** Theorems on requests *)

(** C30. Encoding a valid request either yields a line that decodes to exactly
    that request, or refuses because the line would exceed the frame limit;
    nothing else can go wrong. *)
Theorem request_round_trip rec_limit r :
  (16 <= rec_limit)%nat -> request_ok r -> request_text r ->
  (exists raw, encode_request rec_limit r = Ok raw /\ len raw <= MAX_MESSAGE_BYTES /\
     decode_request rec_limit raw = Ok r) \/
  encode_request rec_limit r = Err (ValueError (u "request" ++ u " message exceeds byte limit")).
Proof.
  intros Hrec Hr Ht. destruct (request_payload r Hr) as (d & Hd & Hdec).
  destruct (request_printable r d Hr Ht Hd) as (Hok & Hints & Hdepth).
  destruct (frame_round_trip rec_limit d MAX_MESSAGE_BYTES (u "request") Hrec Hok Hints Hdepth)
    as (raw & Henc & Hback).
  unfold encode_request, decode_request. rewrite Hd. cbn [rbind]. rewrite Henc.
  destruct (Z.ltb_spec MAX_MESSAGE_BYTES (len raw)); [by right|]. left. exists raw.
  cbn [raise_if rbind]. by rewrite Hback // /= Hdec.
Qed.

(** A valid event always fits: whatever the identifiers, the path and the
    command within their limits, the line stays below the 16 KiB frame, so the
    event can be sent and the service reads it back unchanged. *)
Theorem event_request_fits rec_limit r :
  (16 <= rec_limit)%nat -> event_ok r -> request_text (EventReq r) ->
  exists raw, encode_request rec_limit (EventReq r) = Ok raw /\ len raw <= MAX_MESSAGE_BYTES /\
    decode_request rec_limit raw = Ok (EventReq r).
Proof.
  intros Hrec Hr Ht. destruct (request_payload (EventReq r) Hr) as (d & Hd & Hdec).
  destruct (request_printable (EventReq r) d Hr Ht Hd) as (Hok & Hints & Hdepth).
  destruct (event_size r d Hr Hd) as [Hnf Hsize].
  destruct (encode_line_printable d MAX_MESSAGE_BYTES (u "request") Hok Hints Hnf Hsize)
    as (raw & Henc & Hlen).
  destruct (frame_round_trip rec_limit d MAX_MESSAGE_BYTES (u "request") Hrec Hok Hints Hdepth)
    as (raw' & Henc' & Hback).
  rewrite Henc in Henc'. destruct (Z.ltb_spec MAX_MESSAGE_BYTES (len raw')); [done|].
  cbn [raise_if rbind] in Henc'. apply Ok_inj in Henc'. subst raw'.
  exists raw. unfold encode_request, decode_request. rewrite Hd. cbn [rbind]. rewrite Henc.
  cbn [rbind]. by rewrite Hback // /= Hdec.
Qed.

Lemma decode_line_framed rec_limit raw limit ctx d :
  _decode_json_line rec_limit raw limit ctx = Ok d ->
  len raw <= limit /\ one_trailing_newline raw = true /\ json_depth (VDict d) <= MAX_JSON_NESTING /\
  exists text, utf8_decode false (removelast raw) = Ok text /\
    json_loads _duplicate_rejector rec_limit text = Ok (VDict d).
Proof.
  unfold _decode_json_line. intros H.
  apply rbind_Ok in H as ([] & H1%raise_if_Ok & H). apply rbind_Ok in H as ([] & H2%raise_if_Ok & H).
  apply negb_false_iff in H2.
  apply rbind_Ok in H as (v & Hv & H). apply rbind_Ok in H as ([] & H3 & H).
  destruct v as [| | | | | |d']; try done. injection H as ->.
  split; [lia|]. split; [done|]. split; [by apply require_json_depth_Ok|].
  destruct (rbind _ _) as [v|e] eqn:Hb in Hv; [|by destruct (_ || _)].
  injection Hv as ->. by apply rbind_Ok in Hb.
Qed.

(** Whatever bytes arrive, a request that is accepted came in one line of at
    most 16 KiB with exactly one newline at its end, nested at most 16 deep, and
    every field of it is within its bounds: identifiers and capability in their
    alphabets, a canonical boot id, pid and sequence numbers in range, absolute
    paths, no control characters, the optional fields exactly those of the
    operation, item lists free of duplicates and approved items selected. *)
Theorem accepted_request_valid rec_limit raw r :
  decode_request rec_limit raw = Ok r ->
  request_ok r /\ len raw <= MAX_MESSAGE_BYTES /\ one_trailing_newline raw = true /\
  exists d, json_depth (VDict d) <= MAX_JSON_NESTING /\ decode_request_payload d = Ok r.
Proof.
  unfold decode_request. intros H. apply rbind_Ok in H as (d & Hd & Hr).
  apply decode_line_framed in Hd as (H1 & H2 & H3 & _).
  split; [exact (request_decoded_ok d r Hr)|]. split; [done|]. split; [done|]. by exists d.
Qed.

Definition sample_identity : ProcessIdentity :=
  mkIdentity (u "0f8fad5b-d9cb-469f-a165-70867728950e") 42 99.
Definition sample_event : EventRequest :=
  mkEvent COMMAND_STARTED (u "abcdefghijklmnop") (u "0123456789abcdef0123456789abcdef_-")
    sample_identity 7 None (Some 3) (Some [228; 34; 128512]) None.
Definition sample_execute : RestoreExecuteRequest :=
  mkExecute (u "w1") [u "a"; u "b"] [u "b"].

Lemma sample_identity_ok : identity_ok sample_identity.
Proof. unfold identity_ok, string_ok. vm_compute. repeat split; congruence. Qed.

Lemma sample_event_ok : event_ok sample_event.
Proof.
  unfold event_ok. split; [by vm_compute|]. split; [by vm_compute|]. split; [apply sample_identity_ok|].
  split; [by vm_compute|]. cbn. split; [done|]. split; [by exists 3|]. split; [|done].
  eexists. split; [done|]. by vm_compute.
Qed.

Lemma sample_event_text : request_text (EventReq sample_event).
Proof. split; cbn; intros s H; [done|]. injection H as <-. by vm_compute. Qed.

Lemma request_round_trip_witness :
  request_ok (RestoreExecuteReq sample_execute) /\
  ((exists raw, encode_request 16 (RestoreExecuteReq sample_execute) = Ok raw /\
     len raw <= MAX_MESSAGE_BYTES /\
     decode_request 16 raw = Ok (RestoreExecuteReq sample_execute)) \/
  encode_request 16 (RestoreExecuteReq sample_execute) =
    Err (ValueError (u "request" ++ u " message exceeds byte limit"))).
Proof.
  assert (Hok : request_ok (RestoreExecuteReq sample_execute)).
  { unfold request_ok, id_list_ok. cbn [re_workspace_id re_selected_item_ids re_approved_item_ids sample_execute].
    split; [by vm_compute|].
    split; [split; [by vm_compute|split; [repeat constructor; by vm_compute|by apply nodupb_spec]]|].
    split; [done|].
    split; [split; [by vm_compute|split; [repeat constructor; by vm_compute|by apply nodupb_spec]]|].
    by apply subsetb_spec. }
  split; [exact Hok|]. apply request_round_trip; [lia|exact Hok|exact I].
Defined.

Lemma event_request_fits_witness :
  exists raw, encode_request 16 (EventReq sample_event) = Ok raw /\ len raw <= MAX_MESSAGE_BYTES /\
    decode_request 16 raw = Ok (EventReq sample_event).
Proof. apply event_request_fits; [lia|apply sample_event_ok|apply sample_event_text]. Defined.

Lemma accepted_request_valid_witness :
  exists raw, decode_request 16 raw = Ok StatusReq /\ request_ok StatusReq /\ len raw <= MAX_MESSAGE_BYTES.
Proof.
  exists (u "{" ++ [34] ++ u "schema_version" ++ [34] ++ u ":1," ++ [34] ++ u "operation" ++ [34; 58; 34] ++
          u "status" ++ [34] ++ u "}" ++ [10]).
  split; [vm_compute; reflexivity|].
  destruct (accepted_request_valid 16
    (u "{" ++ [34] ++ u "schema_version" ++ [34] ++ u ":1," ++ [34] ++ u "operation" ++ [34; 58; 34] ++
     u "status" ++ [34] ++ u "}" ++ [10]) StatusReq) as (H1 & H2 & _); [vm_compute; reflexivity|].
  split; [exact H1|exact H2].
Defined.
