(* ===== verification/WireErrors.v ===== *)
(** * How decoding fails

    Whatever bytes arrive, the decoders of [Protocol] raise nothing but a
    [ValueError]: that is the exception the service answers with an
    [invalid_request] response. *)
From S2P Require Import Prelude PyText PyVal PyFloat Json Model Protocol Wire.

(** Every error of [m] satisfies [P]. *)
Definition errs {A} (P : exn -> Prop) (m : result A) : Prop := forall e, m = Err e -> P e.

Definition value_error (e : exn) : Prop := is_value_error e = true.
Definition json_error (e : exn) : Prop := is_value_error e = true \/ e = RecursionError.

Lemma errs_bind {A B} P (m : result A) (f : A -> result B) :
  errs P m -> (forall a, m = Ok a -> errs P (f a)) -> errs P (rbind m f).
Proof. intros Hm Hf e [He|(a & Ha & He)]%rbind_Err; [by apply Hm|by apply (Hf a)]. Qed.

Lemma errs_Ok {A} P (a : A) : errs P (Ok a).
Proof. done. Qed.

Lemma errs_Err {A} (P : exn -> Prop) e : P e -> errs P (@Err A e).
Proof. by intros H e' [= <-]. Qed.

Lemma errs_raise_if (P : exn -> Prop) b e : P e -> errs P (raise_if b e).
Proof. intros H. destruct b; [by apply errs_Err|done]. Qed.

Lemma errs_weaken {A} (P Q : exn -> Prop) (m : result A) : (forall e, P e -> Q e) -> errs P m -> errs Q m.
Proof. unfold errs. naive_solver. Qed.

Lemma errs_option {A} (P : exn -> Prop) (o : option A) e : P e -> errs P (result_of_option o e).
Proof. destruct o; [done|]. by apply errs_Err. Qed.

Lemma errs_rmap {A B} P (f : A -> result B) l : (forall x, errs P (f x)) -> errs P (rmap f l).
Proof.
  intros Hf. induction l as [|x l IH]; [done|]. cbn [rmap].
  apply errs_bind; [apply Hf|]. intros y _. apply errs_bind; [done|]. intros ys _. apply errs_Ok.
Qed.

Create HintDb errs_db.
#[export] Hint Resolve errs_Ok errs_Err errs_raise_if errs_option errs_rmap : errs_db.

(** [errs_step] opens a bind, a match or a conditional. *)
Ltac errs_step :=
  match goal with
  | |- errs _ (rbind _ _) => apply errs_bind; [|intros ? ?]
  | |- errs _ (raise_if _ _) => apply errs_raise_if
  | |- errs _ (Ok _) => apply errs_Ok
  | |- errs _ (Err _) => apply errs_Err
  | |- errs _ (result_of_option _ _) => apply errs_option
  | |- errs _ (rmap _ _) => apply errs_rmap; intros ?
  | |- errs _ (if ?b then _ else _) => destruct b eqn:?
  | |- errs _ (match ?x with _ => _ end) => destruct x eqn:?
  end.
Ltac errs_tac := repeat (errs_step || reflexivity || (progress cbn beta iota) || by auto with errs_db).

(** ** JSON *)
Lemma string_step_errs s : errs json_error (string_step s).
Proof. unfold string_step. repeat errs_step; by left. Qed.

Lemma read_string_errs fuel s : errs json_error (read_string fuel s).
Proof.
  revert s. induction fuel as [|fuel IH]; intros s; cbn [read_string]; [apply errs_Err; by left|].
  apply errs_bind; [apply string_step_errs|]. intros [[c|] rest] _; [|apply errs_Ok].
  apply errs_bind; [apply IH|]. intros [? ?] _. apply errs_Ok.
Qed.

Lemma read_atom_errs s : errs json_error (read_atom s).
Proof. unfold read_atom, read_number. repeat errs_step; by left. Qed.

Lemma read_elements_errs value fuel s :
  (forall s, errs json_error (value s)) -> errs json_error (read_elements value fuel s).
Proof.
  intros Hv. revert s. induction fuel as [|fuel IH]; intros s; cbn [read_elements];
    [apply errs_Err; by left|].
  apply errs_bind; [apply Hv|]. intros [v rest] _.
  destruct (skip rest) as [|c rest']; [apply errs_Err; by left|].
  repeat errs_step; try (by left); try apply IH.
Qed.

Lemma read_members_errs value fuel s :
  (forall s, errs json_error (value s)) -> errs json_error (read_members value fuel s).
Proof.
  intros Hv. revert s. induction fuel as [|fuel IH]; intros s; cbn [read_members];
    [apply errs_Err; by left|].
  destruct s as [|q s1]; [apply errs_Err; by left|]. errs_step; [apply errs_Err; by left|].
  apply errs_bind; [apply read_string_errs|]. intros [k s2] _.
  destruct (skip s2) as [|c s3]; [apply errs_Err; by left|]. errs_step; [apply errs_Err; by left|].
  apply errs_bind; [apply Hv|]. intros [v rest] _.
  destruct (skip rest) as [|d rest']; [apply errs_Err; by left|].
  repeat errs_step; try (by left); try apply IH.
Qed.

Lemma read_value_errs hook depth s :
  (forall kvs, errs json_error (hook kvs)) -> errs json_error (read_value hook depth s).
Proof.
  intros Hh. revert s. induction depth as [|depth IH]; intros s; destruct s as [|c s'];
    cbn [read_value]; try (apply errs_Err; by left).
  - errs_step; [|errs_step; [apply errs_Err; by right|apply read_atom_errs]].
    apply errs_bind; [apply read_string_errs|]. intros [? ?] _. apply errs_Ok.
  - errs_step; [|errs_step; [|apply read_atom_errs]].
    + apply errs_bind; [apply read_string_errs|]. intros [? ?] _. apply errs_Ok.
    + destruct (skip s') as [|d rest]; [apply errs_Err; by left|]. errs_step; errs_step.
      * apply errs_bind; [apply Hh|]. intros; apply errs_Ok.
      * apply errs_bind; [by apply read_members_errs|]. intros [? ?] _.
        apply errs_bind; [apply Hh|]. intros; apply errs_Ok.
      * apply errs_Ok.
      * apply errs_bind; [by apply read_elements_errs|]. intros [? ?] _. apply errs_Ok.
Qed.

Lemma json_loads_errs hook rec_limit s :
  (forall kvs, errs json_error (hook kvs)) -> errs json_error (json_loads hook rec_limit s).
Proof.
  intros Hh. unfold json_loads. apply errs_bind; [apply errs_raise_if; by left|]. intros _ _.
  apply errs_bind; [by apply read_value_errs|]. intros [v rest] _.
  destruct (skip rest); [apply errs_Ok|apply errs_Err; by left].
Qed.

Lemma duplicate_rejector_errs kvs : errs json_error (_duplicate_rejector kvs).
Proof.
  unfold _duplicate_rejector. apply errs_bind; [|intros; apply errs_Ok].
  generalize (@nil pystr). induction kvs as [|[k v] kvs IH]; intros seen; [apply errs_Ok|].
  cbn [duplicate_go]. apply errs_bind; [apply errs_raise_if; by left|]. intros _ _. apply IH.
Qed.

Lemma utf8_decode_errs pass s : errs value_error (utf8_decode pass s).
Proof.
  unfold utf8_decode. generalize (length s). intros fuel. revert s.
  induction fuel as [|fuel IH]; intros s; destruct s as [|b s]; cbn [utf8_decode_fuel];
    try apply errs_Ok; try (by apply errs_Err).
  destruct (utf8_step pass (b :: s)) as [[c rest]|]; [|by apply errs_Err].
  apply errs_bind; [apply IH|]. intros; apply errs_Ok.
Qed.

Lemma depth_loop_errs fuel stack : errs value_error (depth_loop fuel stack).
Proof.
  revert stack. induction fuel as [|fuel IH]; intros [|[v d] stack]; cbn [depth_loop]; try apply errs_Ok.
  apply errs_bind; [by apply errs_raise_if|]. intros _ _. apply IH.
Qed.

Lemma decode_json_line_errs rec_limit raw limit ctx :
  errs value_error (_decode_json_line rec_limit raw limit ctx).
Proof.
  unfold _decode_json_line. apply errs_bind; [by apply errs_raise_if|]. intros _ _.
  apply errs_bind; [by apply errs_raise_if|]. intros _ _.
  apply errs_bind.
  - destruct (rbind _ _) as [v|e] eqn:He; [apply errs_Ok|].
    assert (json_error e) as Hj.
    { apply rbind_Err in He as [He|(t & _ & He)].
      - left. by apply utf8_decode_errs in He.
      - revert He. apply json_loads_errs. apply duplicate_rejector_errs. }
    destruct (is_value_error e) eqn:Hv; [by apply errs_Err|]. destruct Hj as [Hj| ->]; [congruence|].
    by apply errs_Err.
  - intros v _. apply errs_bind; [apply depth_loop_errs|]. intros _ _.
    destruct v; try (by apply errs_Err). apply errs_Ok.
Qed.

(** ** Readers *)
Lemma string_errs v n l e : errs value_error (_string v n l e).
Proof. unfold _string. repeat errs_step; reflexivity. Qed.
Lemma id_errs v n sh : errs value_error (_id v n sh).
Proof. unfold _id. repeat (errs_step || apply string_errs); reflexivity. Qed.
Lemma capability_errs v : errs value_error (_capability v).
Proof. unfold _capability. repeat (errs_step || apply string_errs); reflexivity. Qed.
Lemma integer_errs v n lo hi : errs value_error (_integer v n lo hi).
Proof. unfold _integer. repeat errs_step; reflexivity. Qed.
Lemma boolean_errs v n : errs value_error (_boolean v n).
Proof. unfold _boolean. repeat errs_step; reflexivity. Qed.
Lemma absolute_errs v n : errs value_error (_absolute v n).
Proof. unfold _absolute. repeat (errs_step || apply string_errs); reflexivity. Qed.
Lemma enum_errs {A} `{StrEnum A} v n : errs value_error (_enum (A := A) v n).
Proof. unfold _enum. repeat (errs_step || apply string_errs); reflexivity. Qed.
Lemma exact_errs d keys ctx : errs value_error (_exact d keys ctx).
Proof. unfold _exact. repeat errs_step; reflexivity. Qed.
Lemma schema_errs d : errs value_error (_schema d).
Proof. unfold _schema. repeat errs_step; reflexivity. Qed.
Lemma safe_wire_errs v n : errs value_error (_safe_external_text_from_wire v n).
Proof. unfold _safe_external_text_from_wire, catalog. repeat (errs_step || apply string_errs); reflexivity. Qed.
Lemma safe_list_errs v n : errs value_error (_safe_external_text_list v n).
Proof. unfold _safe_external_text_list. repeat (errs_step || apply safe_wire_errs); reflexivity. Qed.
Lemma id_list_errs v n ne : errs value_error (_id_list v n ne).
Proof.
  unfold _id_list, _bounded_typed_sequence. repeat (errs_step || apply id_errs); reflexivity.
Qed.

(** A key that the exact-keys check saw is there to be read. *)
Lemma index_present d keys k : set_eqb (dict_keys d) keys = true -> str_in k keys = true ->
  exists v, dict_index d k = Ok v.
Proof.
  rewrite set_eqb_spec str_in_spec. intros Hs Hk. apply Hs, key_in_dict_get in Hk as [v Hv].
  exists v. unfold dict_index. by rewrite Hv.
Qed.

Lemma optional_errs {A} d keys extra k (reader : pyval -> result A) :
  set_eqb (dict_keys d) keys = true -> (str_in k extra = true -> str_in k keys = true) ->
  (forall v, errs value_error (reader v)) ->
  errs value_error (optional_field extra d k reader).
Proof.
  intros Hs Hk Hr. unfold optional_field. destruct (str_in k extra) eqn:E; [|apply errs_Ok].
  destruct (index_present d keys k Hs (Hk eq_refl)) as [v ->]. cbn [rbind].
  apply errs_bind; [apply Hr|]. intros; apply errs_Ok.
Qed.

(** [reader_errs] walks through a decoder, using the exact-keys fact for lookups. *)
Ltac reader_errs :=
  repeat first
    [ apply string_errs | apply id_errs | apply capability_errs | apply integer_errs
    | apply boolean_errs | apply absolute_errs | apply enum_errs | apply exact_errs
    | apply schema_errs | apply safe_wire_errs | apply safe_list_errs | apply id_list_errs
    | match goal with
      | H : _exact _ _ _ = Ok _ |- _ => apply exact_Ok in H
      | H : set_eqb (dict_keys ?d) ?keys = true |- errs _ (rbind (dict_index ?d ?k) _) =>
          let v := fresh "v" in let E := fresh "E" in
          destruct (index_present d keys k H ltac:(vm_compute; reflexivity)) as [v E];
          rewrite E; clear E; cbn [rbind]
      | H : set_eqb (dict_keys ?d) ?keys = true |- errs _ (optional_field _ ?d _ _) =>
          apply (optional_errs d keys); [exact H|vm_compute; done|intros ?]
      end
    | errs_step
    | reflexivity ].

Lemma identity_errs v : errs value_error (_identity v).
Proof.
  unfold _identity. destruct v; try (by apply errs_Err).
  reader_errs; unfold new_ProcessIdentity, construct, identity_post_init, Model._require_bounded_string;
    repeat errs_step; reflexivity.
Qed.

Lemma event_errs d op extra : event_extra op = Ok extra -> errs value_error (_event d op).
Proof.
  intros Hx. unfold _event. rewrite Hx. cbn [rbind].
  apply event_extra_fields in Hx as [[-> ->]|[[-> ->]|[[_ ->]|[-> ->]]]]; cbn [app];
    reader_errs; apply identity_errs.
Qed.

Lemma payload_errs d : errs value_error (decode_request_payload d).
Proof.
  unfold decode_request_payload. apply errs_bind; [apply schema_errs|]. intros _ _.
  apply errs_bind; [apply enum_errs|]. intros op _.
  destruct op; cbn [REQUEST_DECODERS]; try (by eapply event_errs);
    unfold _register, _control, _restore_list, _execute, _retry, _discard;
    reader_errs; apply identity_errs.
Qed.

(** Whatever bytes arrive, decoding a request raises nothing but a
    [ValueError]: no missing key, no recursion error of the JSON reader, no
    Unicode error escapes, so the connection handler always has an answer. *)
Theorem decode_request_errors rec_limit raw e :
  decode_request rec_limit raw = Err e -> is_value_error e = true.
Proof.
  revert e. change (errs value_error (decode_request rec_limit raw)). unfold decode_request.
  apply errs_bind; [apply decode_json_line_errs|]. intros d _. apply payload_errs.
Qed.

(** A deeply nested line: the reader's own limit is hit. *)
Lemma decode_request_errors_witness :
  exists e, decode_request 3 (replicate 5 91 ++ [10]) = Err e /\ is_value_error e = true.
Proof.
  eexists. split; [vm_compute; reflexivity|].
  apply (decode_request_errors 3 (replicate 5 91 ++ [10])). vm_compute. reflexivity.
Defined.
