(* ===== verification/WireResponse.v ===== *)
(** * Responses on the wire

    Which responses are valid, that encoding one gives a line the client decodes
    to the same response (a replay display loses its provenance tag), and that
    no response but the registration carries a capability or a command body. *)
From S2P Require Import Prelude PyText PyVal PyFloat Json Model Protocol Wire.

(** ** Valid responses *)
Definition count_ok (n : Z) : Prop := 0 <= n <= _MAX_INTEGER.

Definition status_ok (r : StatusResponse) : Prop :=
  st_ready r = true /\ count_ok (st_registered_shells r) /\ count_ok (st_dirty_generation r) /\
  count_ok (st_durable_generation r) /\ (forall t, st_last_error r = Some t -> safe_text_ok t) /\
  count_ok (st_recovery_item_count r) /\ len (st_diagnostics r) <= MAX_ITEMS /\
  Forall safe_text_ok (st_diagnostics r).

Definition view_ok (v : RecoveryItemView) : Prop :=
  id_ok (vw_item_id v) false /\ id_ok (vw_shell_id v) true /\ safe_text_ok (vw_reason v) /\
  absolute_ok (vw_directory v) /\
  (forall t, vw_directory_warning v = Some t -> safe_text_ok t) /\
  (forall d, vw_replay_display v = Some d ->
     exists s, d = RedactedDisplay s /\ string_ok s MAX_COMMAND_CHARS true) /\
  string_ok (vw_resume_command v) MAX_COMMAND_CHARS true /\
  string_ok (vw_resume_summary v) MAX_COMMAND_CHARS true /\
  count_ok (vw_resume_session_count v).

Definition outcome_view_ok (v : OutcomeView) : Prop :=
  id_ok (ov_item_id v) false /\ safe_text_ok (ov_message v).

Definition response_ok (r : ServiceResponse) : Prop :=
  match r with
  | RegisterResponse cap sq => _CAPABILITY_RE cap = true /\ count_ok sq
  | EventResponse sq => sequence_ok sq
  | StatusResp r => status_ok r
  | SnapshotResponse gen => count_ok gen
  | RestoreListResponse ws views diags =>
      len views <= MAX_ITEMS /\ Forall view_ok views /\ NoDup (map vw_item_id views) /\
      (ws = None <-> views = []) /\ (forall w, ws = Some w -> id_ok w false) /\
      len diags <= MAX_ITEMS /\ Forall safe_text_ok diags
  | RestoreResultResponse ws att outs rem =>
      id_ok ws false /\ id_ok att false /\ len outs <= MAX_ITEMS /\ Forall outcome_view_ok outs /\
      NoDup (map ov_item_id outs) /\ id_list_ok rem
  | DiscardResponse ws b => id_ok ws false /\ b = true
  | ErrorResponse e => pe_message e = ERROR_MESSAGES (pe_code e)
  end.

(** What the client sees of a view. *)
Definition decoded_view (v : RecoveryItemView) : RecoveryItemView :=
  mkView (vw_item_id v) (vw_shell_id v) (vw_reason v) (vw_level v) (vw_directory v)
    (vw_directory_warning v)
    (option_map (fun d => DecodedReplayDisplay (display_value d)) (vw_replay_display v))
    (vw_replay_eligible v) (vw_resume_command v) (vw_resume_summary v) (vw_resume_session_count v).

Definition decoded_response (r : ServiceResponse) : ServiceResponse :=
  match r with
  | RestoreListResponse ws views diags => RestoreListResponse ws (map decoded_view views) diags
  | r => r
  end.

(** Characters of the free texts. *)
Definition view_text (v : RecoveryItemView) : Prop :=
  is_str (vw_directory v) /\ is_str (vw_resume_command v) /\ is_str (vw_resume_summary v) /\
  (forall d, vw_replay_display v = Some d -> is_str (display_value d)).

Definition response_text (r : ServiceResponse) : Prop :=
  match r with RestoreListResponse _ views _ => Forall view_text views | _ => True end.

(** ** Views and outcomes *)
Lemma run_boolean b n : _boolean (VBool b) n = Ok b.
Proof. done. Qed.

Lemma view_round_trip v d : view_ok v -> _item_dict v = Ok d -> _item d = Ok (decoded_view v).
Proof.
  destruct v as [iid sid why lvl dir warn disp elig rc rs n]. unfold view_ok, _item_dict.
  cbn [vw_item_id vw_shell_id vw_reason vw_level vw_directory vw_directory_warning vw_replay_display
       vw_replay_eligible vw_resume_command vw_resume_summary vw_resume_session_count].
  intros (H1 & H2 & H3 & H4 & H5 & H6 & H7 & H8 & H9) Hd. unfold count_ok in H9.
  apply rbind_Ok in Hd as (shown & Hshown & Hd). apply Ok_inj in Hd. subst d.
  assert (match shown with
          | VNone => Ok None
          | s => let? t := _string s (u "replay_display") MAX_COMMAND_CHARS true in
                 Ok (Some (DecodedReplayDisplay t))
          end = Ok (option_map (fun d => DecodedReplayDisplay (display_value d)) disp)) as Hdisp.
  { destruct disp as [d|]; [|by apply Ok_inj in Hshown as ->].
    destruct (H6 d eq_refl) as (s & -> & Hs). apply Ok_inj in Hshown as ->.
    rewrite run_string //. }
  unfold _item. destruct warn as [w|]; [pose proof (H5 w eq_refl)|]; run_decoder;
    rewrite Hdisp; run_decoder; unfold _boolean at 1; run_decoder; cbn [default]; unfold id;
    run_decoder; done.
Qed.

Lemma views_dicts views : Forall view_ok views -> exists ds, rmap _item_dict views = Ok ds.
Proof.
  induction 1 as [|v views Hv _ [ds IH]]; [by exists []|].
  assert (exists d, _item_dict v = Ok d) as [d Hd].
  { unfold _item_dict. destruct (vw_replay_display v) as [d|] eqn:E; [|by eexists].
    destruct Hv as (_ & _ & _ & _ & _ & Hdisp & _).
    destruct (Hdisp d E) as (s & -> & _). by eexists. }
  exists (d :: ds). cbn [rmap]. by rewrite Hd IH.
Qed.

Lemma views_round_trip views ds : Forall view_ok views -> rmap _item_dict views = Ok ds ->
  rmap _item ds = Ok (map decoded_view views).
Proof.
  rewrite !rmap_Ok. intros Hv Hd. induction Hd as [|v d views ds Hvd _ IH]; [constructor|].
  inversion Hv; subst. constructor; [by apply view_round_trip|by apply IH].
Qed.

Lemma outcome_round_trip v : outcome_view_ok v -> _outcome (_outcome_dict v) = Ok v.
Proof.
  destruct v as [iid k msg]. intros [H1 H2]. cbn in H1, H2. unfold _outcome, _outcome_dict.
  cbn [ov_item_id ov_kind ov_message]. run_decoder. done.
Qed.

Lemma diagnostics_round_trip diags n : len diags <= MAX_ITEMS -> Forall safe_text_ok diags ->
  _safe_external_text_list (str_list_val (map safe_value diags)) n = Ok diags.
Proof.
  intros Hl Hd. unfold _safe_external_text_list, str_list_val. rewrite !len_map.
  rewrite (proj2 (Z.ltb_ge _ _) Hl). cbn [raise_if rbind]. rewrite map_map.
  apply (rmap_map_Ok (fun t => VStr (safe_value t))). eapply Forall_impl; [exact Hd|].
  intros t Ht. by apply run_safe_text.
Qed.

Lemma object_list_Ok {A} (l : list pyval) reader key n (out : list A) :
  len l <= MAX_ITEMS -> rmap reader l = Ok out -> NoDup (map key out) ->
  _object_list (VList l) n reader key = Ok out.
Proof.
  intros Hl Hr Hn. unfold _object_list. rewrite (proj2 (Z.ltb_ge _ _) Hl) /= Hr /=.
  by rewrite (proj2 (nodupb_spec _) Hn).
Qed.

Lemma typed_values_Ok {A} (l : list A) n : len l <= MAX_ITEMS -> _typed_values l n = Ok l.
Proof. intros Hl. unfold _typed_values. by rewrite (proj2 (Z.ltb_ge _ _) Hl). Qed.

(** ** Payloads *)
Definition plain_name (name : pystr) : Prop := string_ok name MAX_ID_CHARS false.

Lemma get_none_some k d v : dict_get k d = Some v -> dict_get_none d k = v.
Proof. unfold dict_get_none. by intros ->. Qed.

Lemma response_header ok name d {A} (f : bool -> pystr -> result A) : plain_name name ->
  (_schema (response_base ok name ++ d) ;?
   let? ok := _boolean (dict_get_none (response_base ok name ++ d) (u "ok")) (u "ok") in
   let? response := _string (dict_get_none (response_base ok name ++ d) (u "response"))
                      (u "response") MAX_ID_CHARS false in f ok response) = f ok name.
Proof.
  intros Hn. unfold response_base. cbn [app].
  rewrite schema_base. cbn [rbind].
  rewrite (get_none_some _ _ (VBool ok)); [by eval_dict|]. rewrite run_boolean. cbn [rbind].
  rewrite (get_none_some _ _ (VStr name)); [by eval_dict|]. by rewrite run_string.
Qed.

Ltac open_response :=
  unfold _decode_response_payload;
  rewrite response_header; [split; [discriminate|split; [by vm_compute|reflexivity]]|];
  repeat match goal with
  | |- context [str_eqb (u ?a) (u ?b) && ?c] =>
      let v := eval vm_compute in (str_eqb (u a) (u b)) in
      change (str_eqb (u a) (u b)) with v; cbn [andb negb]
  end.

Lemma response_payload r : response_ok r ->
  exists p, _response_to_dict r = Ok p /\ _decode_response_payload p = Ok (decoded_response r).
Proof.
  intros Hr. destruct r as [cap sq|sq|st|gen|ws views diags|ws att outs rem|ws b|[code msg]];
    cbn [response_ok] in Hr.
  - destruct Hr as [H1 H2]. eexists. split; [reflexivity|]. open_response.
    unfold response_base. cbn [app]. run_decoder. done.
  - eexists. split; [reflexivity|]. open_response. unfold response_base. cbn [app]. run_decoder. done.
  - destruct st as [rdy n1 n2 n3 b4 b5 err n6 ds]. unfold status_ok in Hr.
    cbn [st_ready st_registered_shells st_dirty_generation st_durable_generation st_last_error
         st_recovery_item_count st_diagnostics] in Hr.
    destruct Hr as (-> & H1 & H2 & H3 & H4 & H5 & H6 & H7).
    cbn [_response_to_dict st_ready st_registered_shells st_dirty_generation st_durable_generation
         st_write_active st_durability_degraded st_last_error st_recovery_item_count st_diagnostics].
    unfold _typed_safe_text_values. rewrite typed_values_Ok //. cbn [rbind].
    eexists. split; [reflexivity|]. open_response. unfold read_status, response_base. cbn [app].
    destruct err as [t|]; [pose proof (H4 t eq_refl)|]; run_decoder; rewrite diagnostics_round_trip //.
  - eexists. split; [reflexivity|]. open_response. unfold response_base. cbn [app]. run_decoder. done.
  - destruct Hr as (H1 & H2 & H3 & H4 & H5 & H6 & H7). cbn [_response_to_dict].
    rewrite typed_values_Ok //. cbn [rbind]. destruct (views_dicts views H2) as [items Hitems].
    rewrite Hitems. cbn [rbind]. unfold _typed_safe_text_values. rewrite typed_values_Ok //. cbn [rbind].
    eexists. split; [reflexivity|]. open_response. unfold read_restore_list, response_base. cbn [app].
    run_decoder.
    assert (Hlen : length items = length views) by (by apply rmap_length in Hitems).
    rewrite (object_list_Ok items _item vw_item_id _ (map decoded_view views)).
    { unfold len in *. by rewrite Hlen. }
    { by apply views_round_trip. }
    { by rewrite map_map. }
    run_decoder. rewrite length_map.
    assert (match opt_val VStr ws with VNone => true | _ => false end =
            bool_decide (length views = 0%nat)) as ->.
    { destruct ws as [w|]; cbn.
      - symmetry. apply bool_decide_eq_false. intros Hz. apply length_zero_iff_nil in Hz.
        apply H4 in Hz. done.
      - symmetry. apply bool_decide_eq_true. by rewrite (proj1 H4 eq_refl). }
    rewrite Bool.eqb_reflx. run_decoder.
    destruct ws as [w|]; cbn [opt_val].
    + rewrite run_id; [by apply H5|]. run_decoder. rewrite diagnostics_round_trip //.
    + run_decoder. rewrite diagnostics_round_trip //.
  - destruct Hr as (H1 & H2 & H3 & H4 & H5 & H6). cbn [_response_to_dict].
    rewrite typed_values_Ok //. run_decoder.
    eexists. split; [reflexivity|]. open_response. unfold read_restore_result, response_base.
    cbn [app]. run_decoder.
    rewrite (object_list_Ok (map _outcome_dict outs) _outcome ov_item_id _ outs).
    { by rewrite len_map. }
    { apply rmap_map_Ok. eapply Forall_impl; [exact H4|]. apply outcome_round_trip. }
    { done. }
    run_decoder. done.
  - destruct Hr as [H1 ->]. eexists. split; [reflexivity|]. open_response. unfold response_base.
    cbn [app]. run_decoder. done.
  - cbn in Hr. subst msg. eexists. split; [reflexivity|]. cbn [pe_code pe_message].
    open_response. unfold read_error, response_base. cbn [app]. run_decoder.
    rewrite run_string.
    { destruct code; (split; [done|split; [by vm_compute|reflexivity]]). }
    run_decoder. by rewrite str_eqb_refl.
Qed.

(** ** No sensitive key leaves *)
Fixpoint tree_keys (v : pyval) : list pystr :=
  match v with
  | VList l => concat (map tree_keys l)
  | VDict d => concat (map (fun kv => kv.1 :: tree_keys kv.2) d)
  | _ => []
  end.

Definition safe_key (register : bool) (key : pystr) : Prop :=
  key ∉ sensitive_keys /\ (key = u "capability" -> register = true).

Lemma safe_tree_spec v register :
  _safe_response_tree v register = Ok tt <-> Forall (safe_key register) (tree_keys v).
Proof.
  induction v as [|b|z|f|s|l IH|d IH] using pyval_nested_ind; try (split; [constructor|done]).
  - cbn [tree_keys]. induction IH as [|v l Hv _ IHl]; [split; [constructor|done]|].
    cbn [map concat]. rewrite Forall_app -Hv. change (_safe_response_tree (VList (v :: l)) register) with
      (_safe_response_tree v register ;? _safe_response_tree (VList l) register).
    rewrite rbind_Ok. setoid_rewrite IHl. cbn [tree_keys]. split; [intros ([] & ? & ?); done|intros [? ?]; by exists tt].
  - cbn [tree_keys]. induction IH as [|[k v] d Hv _ IHd]; [split; [constructor|done]|].
    cbn [map concat fst snd] in *. rewrite Forall_app Forall_cons -Hv.
    change (_safe_response_tree (VDict ((k, v) :: d)) register) with
      (raise_if (str_in k sensitive_keys || (str_eqb k (u "capability") && negb register))
         (ResponseEncodingError (u "sensitive response key forbidden")) ;?
       _safe_response_tree v register ;? _safe_response_tree (VDict d) register).
    assert (Hk : str_in k sensitive_keys || (str_eqb k (u "capability") && negb register) = false <->
                 safe_key register k).
    { unfold safe_key. rewrite orb_false_iff str_in_false andb_false_iff negb_false_iff str_eqb_neq.
      destruct register; naive_solver. }
    rewrite rbind_Ok. setoid_rewrite rbind_Ok. setoid_rewrite raise_if_Ok. setoid_rewrite IHd. split.
    + intros ([] & ?%Hk & [] & ? & ?). done.
    + intros [[? ?] ?]. exists tt. split; [by apply Hk|]. by exists tt.
Qed.

(** [safe_keys] settles the keys of a literal dictionary. *)
Lemma safe_key_dec register key :
  negb (str_in key sensitive_keys) && (register || negb (str_eqb key (u "capability"))) = true ->
  safe_key register key.
Proof.
  intros [H1 H2]%andb_true_iff. split; [by apply str_in_false, negb_true_iff|]. intros ->.
  rewrite str_eqb_refl in H2. by destruct register.
Qed.

(** A dictionary whose values are leaves, strings in a list, or already known. *)
Record payload_fine (register : bool) (v : pyval) (depth : Z) : Prop := {
  pf_json : json_ok v = true;
  pf_ints : ints_small v = true;
  pf_depth : json_depth v <= depth;
  pf_keys : Forall (safe_key register) (tree_keys v);
}.

Lemma fine_weaken register v a b : payload_fine register v a -> a <= b -> payload_fine register v b.
Proof. intros [] ?. split; try done. lia. Qed.

Lemma fine_none register : payload_fine register VNone 1.
Proof. split; done. Qed.
Lemma fine_bool register b : payload_fine register (VBool b) 1.
Proof. split; done. Qed.
Lemma fine_int register z : 0 <= z <= _MAX_INTEGER -> payload_fine register (VInt z) 1.
Proof.
  intros H. split; try done. apply small_int. unfold _MAX_INTEGER in H. lia.
Qed.
Lemma fine_str register s : forallb is_scalar s = true -> payload_fine register (VStr s) 1.
Proof. intros H. split; done. Qed.

Lemma fine_list register l depth : 0 <= depth -> Forall (fun v => payload_fine register v depth) l ->
  payload_fine register (VList l) (1 + depth).
Proof.
  intros Hd H. split.
  - cbn [json_ok]. apply forallb_Forall. eapply Forall_impl; [exact H|]. by intros v [].
  - cbn [ints_small]. apply forallb_Forall. eapply Forall_impl; [exact H|]. by intros v [].
  - apply depth_bound; [done|]. eapply Forall_impl; [exact H|]. by intros v [].
  - cbn [tree_keys]. apply Forall_concat, Forall_map. eapply Forall_impl; [exact H|]. by intros v [].
Qed.

Lemma fine_dict register d depth : 0 <= depth -> nodupb (map fst d) = true ->
  Forall (fun kv => (forallb is_scalar kv.1 &&
            (negb (str_in kv.1 sensitive_keys) && (register || negb (str_eqb kv.1 (u "capability")))) = true)
          /\ payload_fine register kv.2 depth) d ->
  payload_fine register (VDict d) (1 + depth).
Proof.
  intros Hd Hn H. split.
  - apply json_ok_dict; [done|]. eapply Forall_impl; [exact H|].
    intros kv [[Hk _]%andb_true_iff []]. done.
  - cbn [ints_small]. apply forallb_Forall. eapply Forall_impl; [exact H|]. by intros kv [_ []].
  - apply depth_bound; [done|]. cbn [children]. apply Forall_map. eapply Forall_impl; [exact H|].
    by intros kv [_ []].
  - cbn [tree_keys]. apply Forall_concat, Forall_map. eapply Forall_impl; [exact H|].
    intros kv [[_ Hk]%andb_true_iff []]. constructor; [by apply safe_key_dec|done].
Qed.

Lemma fine_strs register l : Forall (fun s => forallb is_scalar s = true) l ->
  payload_fine register (str_list_val l) 2.
Proof.
  intros H. apply (fine_list register _ 1); [done|]. apply Forall_map.
  eapply Forall_impl; [exact H|]. intros s. apply fine_str.
Qed.

Lemma safe_text_scalar t : safe_text_ok t -> forallb is_scalar (safe_value t) = true.
Proof.
  intros H. apply list_elem_of_In in H.
  assert (forallb (forallb is_scalar) _SAFE_EXTERNAL_TEXT_CATALOG = true) as Hall by reflexivity.
  rewrite forallb_forall in Hall. by apply Hall.
Qed.

Lemma fine_opt_text register o : (forall t, o = Some t -> safe_text_ok t) ->
  payload_fine register (opt_val (fun t => VStr (safe_value t)) o) 1.
Proof.
  intros H. destruct o as [t|]; [|apply fine_none]. apply fine_str, safe_text_scalar, H. done.
Qed.

(** [fine_fields lem] goes through the fields of a literal dictionary. *)
Ltac fine_fields :=
  apply fine_dict; [lia|vm_compute; reflexivity|];
  repeat (apply Forall_cons; split; [split; [vm_compute; reflexivity|]; cbn [snd]|]);
  try apply Forall_nil_2.

Ltac fine_leaf :=
  first [ apply fine_none | apply fine_bool
        | apply fine_int; unfold count_ok, sequence_ok, _MAX_INTEGER in *; lia
        | apply fine_str; first
            [ eapply id_scalar; eassumption | by apply capability_scalar | apply enum_scalar
            | by apply safe_text_scalar | apply absolute_scalar; assumption
            | eapply string_scalar; eassumption | vm_compute; reflexivity ]
        | apply fine_opt_text; assumption ].

Lemma view_fine v d : view_ok v -> view_text v -> _item_dict v = Ok d -> payload_fine false d 2.
Proof.
  destruct v as [iid sid why lvl dir warn disp elig rc rs n]. unfold view_ok, view_text, _item_dict.
  cbn [vw_item_id vw_shell_id vw_reason vw_level vw_directory vw_directory_warning vw_replay_display
       vw_replay_eligible vw_resume_command vw_resume_summary vw_resume_session_count].
  intros (H1 & H2 & H3 & H4 & H5 & H6 & H7 & H8 & H9) (T1 & T2 & T3 & T4) Hd.
  apply rbind_Ok in Hd as (shown & Hshown & Hd). apply Ok_inj in Hd. subst d.
  assert (payload_fine false shown 1).
  { destruct disp as [dd|]; [|apply Ok_inj in Hshown as ->; apply fine_none].
    destruct (H6 dd eq_refl) as (s & -> & Hs). apply Ok_inj in Hshown as ->.
    apply fine_str. eapply string_scalar; [exact Hs|]. by apply (T4 (RedactedDisplay s)). }
  apply (fine_dict false _ 1); [done|vm_compute; reflexivity|].
  repeat (apply Forall_cons; split; [split; [vm_compute; reflexivity|]; cbn [snd]|]);
    try apply Forall_nil_2; first [assumption | fine_leaf].
Qed.

Lemma outcome_fine v : outcome_view_ok v -> payload_fine false (_outcome_dict v) 2.
Proof.
  destruct v as [iid k msg]. intros [H1 H2]. cbn in H1, H2.
  apply (fine_dict false _ 1); [done|vm_compute; reflexivity|]. cbn [ov_item_id ov_kind ov_message].
  repeat (apply Forall_cons; split; [split; [vm_compute; reflexivity|]; cbn [snd]|]);
    try apply Forall_nil_2; fine_leaf.
Qed.

Lemma views_fine views ds : Forall view_ok views -> Forall view_text views ->
  rmap _item_dict views = Ok ds -> Forall (fun d => payload_fine false d 2) ds.
Proof.
  intros Hv Ht Hd%rmap_Ok. induction Hd as [|v d views ds Hvd _ IH]; [constructor|].
  inversion Hv; inversion Ht; subst. constructor; [eapply view_fine; eassumption|by apply IH].
Qed.

Lemma safe_texts_scalar l : Forall safe_text_ok l ->
  Forall (fun s => forallb is_scalar s = true) (map safe_value l).
Proof. intros H. apply Forall_map. eapply Forall_impl; [exact H|]. intros t. apply safe_text_scalar. Qed.

Lemma ids_scalar ids : Forall (fun i => id_ok i false) ids ->
  Forall (fun s => forallb is_scalar s = true) ids.
Proof. intros H. eapply Forall_impl; [exact H|]. intros i. apply id_scalar. Qed.

Ltac fine_payload d :=
  apply (fine_dict _ _ d); [lia|vm_compute; reflexivity|];
  repeat (apply Forall_cons; split; [split; [vm_compute; reflexivity|]; cbn [snd]|]);
  try apply Forall_nil_2;
  first [ fine_leaf
        | eapply fine_weaken; [fine_leaf|lia]
        | eapply fine_weaken; [by apply fine_strs, safe_texts_scalar|lia]
        | eapply fine_weaken; [by apply fine_strs, ids_scalar|lia]
        | idtac ].

Lemma response_fine r p : response_ok r -> response_text r -> _response_to_dict r = Ok p ->
  payload_fine (is_register_response r) (VDict p) 4.
Proof.
  intros Hr Ht Hp. destruct r as [cap sq|sq|st|gen|ws views diags|ws att outs rem|ws b|[code msg]];
    cbn [response_ok response_text is_register_response] in *.
  - destruct Hr as [H1 H2]. apply Ok_inj in Hp. subst p. fine_payload 3.
  - apply Ok_inj in Hp. subst p. fine_payload 3.
  - destruct st as [rdy n1 n2 n3 b4 b5 err n6 ds]. unfold status_ok in Hr.
    cbn [st_ready st_registered_shells st_dirty_generation st_durable_generation st_last_error
         st_recovery_item_count st_diagnostics] in Hr.
    destruct Hr as (-> & H1 & H2 & H3 & H4 & H5 & H6 & H7).
    cbn [_response_to_dict st_ready st_registered_shells st_dirty_generation st_durable_generation
         st_write_active st_durability_degraded st_last_error st_recovery_item_count st_diagnostics] in Hp.
    unfold _typed_safe_text_values in Hp. rewrite typed_values_Ok // in Hp. cbn [rbind] in Hp.
    apply Ok_inj in Hp. subst p. fine_payload 3.
  - apply Ok_inj in Hp. subst p. fine_payload 3.
  - destruct Hr as (H1 & H2 & H3 & H4 & H5 & H6 & H7). cbn [_response_to_dict] in Hp.
    rewrite typed_values_Ok // in Hp. cbn [rbind] in Hp.
    apply rbind_Ok in Hp as (items & Hitems & Hp). unfold _typed_safe_text_values in Hp.
    rewrite typed_values_Ok // in Hp. cbn [rbind] in Hp. apply Ok_inj in Hp. subst p.
    pose proof (views_fine views items H2 Ht Hitems).
    fine_payload 3.
    + destruct ws as [w|]; cbn [opt_val]; [|eapply fine_weaken; [apply fine_none|lia]].
      eapply fine_weaken; [apply fine_str; exact (id_scalar w false (H5 w eq_refl))|lia].
    + by apply (fine_list false items 2).
  - destruct Hr as (H1 & H2 & H3 & H4 & H5 & (H6 & H7 & H8)). cbn [_response_to_dict] in Hp.
    rewrite typed_values_Ok // in Hp. cbn [rbind] in Hp.
    rewrite run_id_list // in Hp. cbn [rbind] in Hp. apply Ok_inj in Hp. subst p.
    fine_payload 3. apply (fine_list false _ 2); [done|]. apply Forall_map.
    eapply Forall_impl; [exact H4|]. apply outcome_fine.
  - destruct Hr as [H1 ->]. apply Ok_inj in Hp. subst p. fine_payload 3.
  - cbn in Hr. subst msg. apply Ok_inj in Hp. subst p. fine_payload 3.
    apply (fine_dict false _ 2); [done|vm_compute; reflexivity|].
    repeat (apply Forall_cons; split; [split; [vm_compute; reflexivity|]; cbn [snd pe_code pe_message]|]);
      try apply Forall_nil_2; (apply (fine_weaken _ _ 1); [|done]); [fine_leaf|].
    apply fine_str. by destruct code.
Qed.

(** C31. Encoding a valid response gives a line of at most 16 KiB that the client
    decodes to the same response, except that a replay display arrives without
    its classifier tag; no key of the line names a command body, an argument
    vector or an executable, and a capability appears only in the answer to a
    registration.  The only failure is a line over the limit, reported as a
    response-encoding error. *)
Theorem response_round_trip rec_limit r :
  (16 <= rec_limit)%nat -> response_ok r -> response_text r ->
  (exists raw p, encode_response rec_limit r = Ok raw /\ len raw <= MAX_RESPONSE_BYTES /\
     decode_response rec_limit raw = Ok (decoded_response r) /\
     _decode_json_line rec_limit raw MAX_RESPONSE_BYTES (u "response") = Ok p /\
     Forall (safe_key (is_register_response r)) (tree_keys (VDict p))) \/
  encode_response rec_limit r = Err (ResponseEncodingError (u "response encoding failed")).
Proof.
  intros Hrec Hr Ht. destruct (response_payload r Hr) as (p & Hp & Hdec).
  destruct (response_fine r p Hr Ht Hp) as [Hok Hints Hdepth Hkeys].
  destruct (frame_round_trip rec_limit p MAX_RESPONSE_BYTES (u "response") Hrec Hok Hints
    ltac:(unfold MAX_JSON_NESTING; lia)) as (raw & Henc & Hback).
  unfold encode_response, decode_response. rewrite Hp. cbn [rbind].
  rewrite (proj2 (safe_tree_spec _ _) Hkeys). cbn [rbind]. rewrite Henc.
  destruct (Z.ltb_spec MAX_RESPONSE_BYTES (len raw)); [by right|]. left. exists raw, p.
  cbn [raise_if rbind]. by rewrite Hback // /= Hdec.
Qed.

Definition sample_result : ServiceResponse :=
  RestoreResultResponse (u "w1") (u "a1") [mkOutcomeView (u "i1") SUCCESS (mkSafe (u "restored"))] [u "i2"].

Lemma sample_result_ok : response_ok sample_result.
Proof.
  cbn [response_ok sample_result]. split; [by vm_compute|]. split; [by vm_compute|].
  split; [by vm_compute|]. split.
  { constructor; [|constructor]. split; [by vm_compute|]. by apply str_in_spec. }
  split; [by apply nodupb_spec|]. split; [by vm_compute|].
  split; [repeat constructor; by vm_compute|by apply nodupb_spec].
Qed.

Lemma response_round_trip_witness :
  response_ok sample_result /\
  ((exists raw p, encode_response 16 sample_result = Ok raw /\ len raw <= MAX_RESPONSE_BYTES /\
     decode_response 16 raw = Ok (decoded_response sample_result) /\
     _decode_json_line 16 raw MAX_RESPONSE_BYTES (u "response") = Ok p /\
     Forall (safe_key (is_register_response sample_result)) (tree_keys (VDict p))) \/
  encode_response 16 sample_result = Err (ResponseEncodingError (u "response encoding failed"))).
Proof.
  split; [apply sample_result_ok|]. apply response_round_trip; [lia|apply sample_result_ok|exact I].
Defined.
