(* ===== verification/Engine.v ===== *)
(** * The lifecycle engine ([state.py])

    The state machine behind the service: which shells are registered, with which
    capability, and how lifecycle events change the snapshot.  Both operations
    are pure functions from a state to a new state or an exception. *)
From S2P Require Import Prelude PyText PyVal Shlex Model Classifier Protocol.

#[export] Instance ProcessIdentity_eq_dec : EqDecision ProcessIdentity.
Proof. solve_decision. Defined.
#[export] Instance CommandRecord_eq_dec : EqDecision CommandRecord.
Proof. solve_decision. Defined.
#[export] Instance ShellRecord_eq_dec : EqDecision ShellRecord.
Proof. solve_decision. Defined.

(** ** State *)
Record Registration := mkRegistration {
  rg_capability : pystr;
  rg_identity : ProcessIdentity;
  rg_last_sequence : Z;
  rg_last_command_sequence : Z;
}.

Definition registration_post_init (x : Registration) : result unit :=
  raise_if (negb (_CAPABILITY_RE (rg_capability x))) (ValueError (u "invalid capability")) ;?
  raise_if (rg_last_sequence x <? 0) (ValueError (u "last_sequence must be non-negative")) ;?
  raise_if (rg_last_command_sequence x <? 0)
    (ValueError (u "last_command_sequence must be non-negative")).

Definition new_Registration c i s cs := construct registration_post_init (mkRegistration c i s cs).

Record EngineState := mkEngine {
  es_snapshot : Snapshot;
  es_registrations : gmap pystr Registration;
  es_dirty_generation : Z;
}.

Definition engine_post_init (x : EngineState) : result unit :=
  raise_if (es_dirty_generation x <? 0) (ValueError (u "dirty_generation must be non-negative")).

Definition new_EngineState s r g := construct engine_post_init (mkEngine s r g).

(** ** Shell lists *)
Fixpoint _find_shell (shs : list ShellRecord) (sid : pystr) : result (nat * ShellRecord) :=
  match shs with
  | [] => Err (ValueError (u "registered shell state not found"))
  | s :: rest =>
      if str_eqb (shell_id s) sid then Ok (0%nat, s)
      else let? '(i, x) := _find_shell rest sid in Ok (S i, x)
  end.

Fixpoint _replace_or_append_shell (shs : list ShellRecord) (replacement : ShellRecord)
  : list ShellRecord :=
  match shs with
  | [] => [replacement]
  | s :: rest =>
      if str_eqb (shell_id s) (shell_id replacement) then replacement :: rest
      else s :: _replace_or_append_shell rest replacement
  end.

(** [dataclasses.replace] on a shell: the validation runs again. *)
Definition shell_with_command (s : ShellRecord) (c : option CommandRecord) : result ShellRecord :=
  new_ShellRecord (shell_id s) (identity s) (adapter s) (cwd s) (last_sequence s) c (termination s).
Definition shell_with_cwd (s : ShellRecord) (dir : pystr) (c : option CommandRecord) : result ShellRecord :=
  new_ShellRecord (shell_id s) (identity s) (adapter s) dir (last_sequence s) c (termination s).
Definition shell_with_termination (s : ShellRecord) (t : TerminationKind) : result ShellRecord :=
  new_ShellRecord (shell_id s) (identity s) (adapter s) (cwd s) (last_sequence s) (command s) (Some t).
Definition shell_with_sequence (s : ShellRecord) (n : Z) : result ShellRecord :=
  new_ShellRecord (shell_id s) (identity s) (adapter s) (cwd s) n (command s) (termination s).

(** [secrets.compare_digest] on two strings: both must be ASCII. *)
Definition compare_digest (a b : pystr) : result bool :=
  if forallb is_ascii a && forallb is_ascii b then Ok (str_eqb a b)
  else Err (TypeError (u "comparing strings with non-ASCII characters is not supported")).

(** ** Operations *)

(** [capability] is what the factory would return; [peer_pid] the pid the
    kernel reports for the connection. *)
Definition register_shell (state : EngineState) (request : RegisterRequest) (capability : pystr)
    (peer_pid : option Z) : result (EngineState * pystr) :=
  raise_if (negb (reg_sequence request =? 0)) (ValueError (u "registration sequence must be zero")) ;?
  raise_if (negb (str_in (reg_adapter request) SUPPORTED_ADAPTERS)) (ValueError (u "unsupported adapter")) ;?
  raise_if (match peer_pid with Some p => negb (pid (reg_identity request) =? p) | None => false end)
    (ValueError (u "identity does not match peer")) ;?
  let existing_registration := es_registrations state !! reg_shell_id request in
  let existing_shell := find (fun s => str_eqb (shell_id s) (reg_shell_id request))
                          (shells (es_snapshot state)) in
  let preserved_sequence :=
    match existing_registration with
    | Some r => match existing_shell with Some s => last_sequence s | None => rg_last_sequence r end
    | None => reg_sequence request
    end in
  let? shell := new_ShellRecord (reg_shell_id request) (reg_identity request) (reg_adapter request)
                  (reg_cwd request) preserved_sequence None None in
  raise_if (existsb (fun kv => str_eqb (rg_capability kv.2) capability &&
                               negb (str_eqb kv.1 (reg_shell_id request)))
              (map_to_list (es_registrations state)))
    (ValueError (u "capability collision")) ;?
  let? registration :=
    match existing_registration with
    | Some r => new_Registration capability (reg_identity request) (rg_last_sequence r)
                  (rg_last_command_sequence r)
    | None => new_Registration capability (reg_identity request) (reg_sequence request) 0
    end in
  let shs := _replace_or_append_shell (shells (es_snapshot state)) shell in
  let registrations := <[reg_shell_id request := registration]> (es_registrations state) in
  let gen := es_dirty_generation state + 1 in
  let? snapshot := set_shells (es_snapshot state) gen shs in
  let? state' := new_EngineState snapshot registrations gen in
  Ok (state', capability).

Section WithUnicode.
Context `{Unicode}.

Definition _reduce_shell (shell : ShellRecord) (registration : Registration) (request : EventRequest)
  : result ShellRecord :=
  match ev_operation request with
  | COMMAND_STARTED =>
      match ev_command_sequence request, ev_command request with
      | Some csq, Some text =>
          raise_if (csq <=? rg_last_command_sequence registration)
            (ValueError (u "command sequence rejected")) ;?
          let? c := classify_command text csq in
          shell_with_command shell (Some (cls_record c))
      | _, _ => Err (ValueError (u "command start data missing"))
      end
  | COMMAND_FINISHED =>
      match ev_command_sequence request with
      | None => Err (ValueError (u "command finish sequence missing"))
      | Some csq =>
          raise_if (match command shell with
                    | None => true
                    | Some c => negb (cmd_sequence c =? csq)
                    end) (ValueError (u "command sequence rejected")) ;?
          shell_with_command shell None
      end
  | PROMPT_READY =>
      match ev_cwd request with
      | None => Err (ValueError (u "prompt directory missing"))
      | Some dir => shell_with_cwd shell dir None
      end
  | CWD_CHANGED =>
      match ev_cwd request with
      | None => Err (ValueError (u "working directory missing"))
      | Some dir => shell_with_cwd shell dir (command shell)
      end
  | OP_EXPLICIT_EXIT => shell_with_termination shell EXPLICIT_EXIT
  | _ => Err (ValueError (u "unsupported lifecycle operation"))
  end.

Definition apply_event (state : EngineState) (request : EventRequest) : result EngineState :=
  let? registration := result_of_option (es_registrations state !! ev_shell_id request)
                         (ValueError (u "shell registration not found")) in
  let? same := compare_digest (rg_capability registration) (ev_capability request) in
  raise_if (negb same) (ValueError (u "event authority rejected")) ;?
  raise_if (negb (bool_decide (rg_identity registration = ev_identity request)))
    (ValueError (u "event identity rejected")) ;?
  raise_if (ev_sequence request <=? rg_last_sequence registration)
    (ValueError (u "event sequence rejected")) ;?
  let? '(shell_index, shell) := _find_shell (shells (es_snapshot state)) (ev_shell_id request) in
  raise_if (bool_decide (termination shell = Some EXPLICIT_EXIT))
    (ValueError (u "shell registration terminated")) ;?
  let? reduced := _reduce_shell shell registration request in
  let? updated_shell := shell_with_sequence reduced (ev_sequence request) in
  let shs := <[shell_index := updated_shell]> (shells (es_snapshot state)) in
  let? last_command_sequence :=
    match ev_operation request with
    | COMMAND_STARTED => result_of_option (ev_command_sequence request) AssertionError
    | _ => Ok (rg_last_command_sequence registration)
    end in
  let? registration' := new_Registration (rg_capability registration) (rg_identity registration)
                          (ev_sequence request) last_command_sequence in
  let registrations := <[ev_shell_id request := registration']> (es_registrations state) in
  let gen := es_dirty_generation state + 1 in
  let? snapshot := set_shells (es_snapshot state) gen shs in
  new_EngineState snapshot registrations gen.

(** ** Runs

    A request that fails leaves the state alone. *)
Inductive engine_op :=
| OpRegister (request : RegisterRequest) (capability : pystr) (peer_pid : option Z)
| OpEvent (request : EventRequest).

Definition engine_step (state : EngineState) (op : engine_op) : EngineState :=
  match op with
  | OpRegister r cap peer =>
      match register_shell state r cap peer with Ok (s, _) => s | Err _ => state end
  | OpEvent r => match apply_event state r with Ok s => s | Err _ => state end
  end.

Definition engine_run (state : EngineState) (ops : list engine_op) : EngineState :=
  foldl engine_step state ops.

End WithUnicode.
