(* ===== verification/EngineProofs.v ===== *)
(** * The lifecycle engine: theorems

    The invariant of the engine, the exact condition under which an event is
    accepted and its effect, and what holds of whole runs: sequence numbers are
    never replayed, authority comes from the last registration of the shell, and
    an explicit exit is final. *)
From S2P Require Import Prelude PyVal PyText Shlex Model Classifier Protocol Wire Engine.

(** ** Lookup of shells by name *)
Definition shell_of (st : EngineState) (sid : pystr) : option ShellRecord :=
  find (fun s => str_eqb (shell_id s) sid) (shells (es_snapshot st)).

Lemma find_shell_Ok shs sid i s : _find_shell shs sid = Ok (i, s) ->
  shs !! i = Some s /\ shell_id s = sid /\ find (fun s => str_eqb (shell_id s) sid) shs = Some s.
Proof.
  revert i. induction shs as [|x shs IH]; intros i H; [done|]. simpl in *.
  destruct (str_eqb (shell_id x) sid) eqn:E.
  - apply Ok_inj in H. simplify_eq. by apply str_eqb_eq in E.
  - apply rbind_Ok in H as ([j y] & Hj & H). apply Ok_inj in H. simplify_eq.
    by apply IH.
Qed.

Lemma find_shell_Some shs sid s : find (fun s => str_eqb (shell_id s) sid) shs = Some s ->
  exists i, _find_shell shs sid = Ok (i, s).
Proof.
  induction shs as [|x shs IH]; intros H; [done|]. simpl in *.
  destruct (str_eqb (shell_id x) sid); [simplify_eq; eauto|].
  destruct (IH H) as [i ->]. by eexists.
Qed.

Lemma find_insert shs sid i s s' sid' : _find_shell shs sid = Ok (i, s) -> shell_id s' = sid ->
  find (fun s => str_eqb (shell_id s) sid') (<[i := s']> shs) =
  if str_eqb sid sid' then Some s' else find (fun s => str_eqb (shell_id s) sid') shs.
Proof.
  intros H <-. revert i H. induction shs as [|x shs IH]; intros i H; [done|]. simpl in *.
  destruct (str_eqb (shell_id x) (shell_id s')) eqn:E.
  - apply Ok_inj in H. simplify_eq. simpl. apply str_eqb_eq in E. rewrite E.
    by destruct (str_eqb (shell_id s') sid').
  - apply rbind_Ok in H as ([j y] & Hj & H). apply Ok_inj in H. simplify_eq. simpl.
    rewrite (IH _ Hj). destruct (str_eqb (shell_id x) sid') eqn:E'; [|done].
    apply str_eqb_eq in E' as <-. rewrite str_eqb_neq in E.
    by rewrite (proj2 (str_eqb_neq _ _) (not_eq_sym E)).
Qed.

Lemma insert_names shs sid i s s' : _find_shell shs sid = Ok (i, s) -> shell_id s' = sid ->
  map shell_id (<[i := s']> shs) = map shell_id shs.
Proof.
  intros (Hi & Hs & _)%find_shell_Ok <-.
  change (shell_id <$> <[i := s']> shs = shell_id <$> shs). rewrite list_fmap_insert.
  apply list_insert_id. by rewrite list_lookup_fmap Hi -Hs.
Qed.

Lemma replace_find shs x sid' :
  find (fun s => str_eqb (shell_id s) sid') (_replace_or_append_shell shs x) =
  if str_eqb (shell_id x) sid' then Some x else find (fun s => str_eqb (shell_id s) sid') shs.
Proof.
  induction shs as [|y shs IH]; simpl; [done|].
  destruct (str_eqb (shell_id y) (shell_id x)) eqn:E; simpl.
  - apply str_eqb_eq in E. rewrite E. by destruct (str_eqb (shell_id x) sid').
  - rewrite IH. destruct (str_eqb (shell_id y) sid') eqn:E'; [|done].
    apply str_eqb_eq in E' as <-. rewrite str_eqb_neq in E.
    by rewrite (proj2 (str_eqb_neq _ _) (not_eq_sym E)).
Qed.

Lemma replace_In shs x y : y ∈ _replace_or_append_shell shs x -> y = x \/ y ∈ shs.
Proof.
  induction shs as [|z shs IH]; simpl.
  - rewrite list_elem_of_singleton. by left.
  - case_match; rewrite !elem_of_cons; naive_solver.
Qed.

Lemma replace_Forall (P : ShellRecord -> Prop) shs x :
  P x -> Forall P shs -> Forall P (_replace_or_append_shell shs x).
Proof.
  rewrite !Forall_forall. intros Hx Hs y [->|Hy]%replace_In; eauto.
Qed.

Lemma replace_NoDup shs x : NoDup (map shell_id shs) ->
  NoDup (map shell_id (_replace_or_append_shell shs x)).
Proof.
  induction shs as [|y shs IH]; simpl; [intros; apply NoDup_singleton|].
  intros [Hy Hd]%NoDup_cons. destruct (str_eqb (shell_id y) (shell_id x)) eqn:E; simpl.
  - apply str_eqb_eq in E. rewrite -E. by constructor.
  - constructor; [|auto]. intros Hin. apply list_elem_of_fmap in Hin as (z & Hz & Hin).
    apply replace_In in Hin as [->|Hin]; [by rewrite str_eqb_neq in E|].
    apply Hy, list_elem_of_fmap. eauto.
Qed.

(** ** The invariant *)

(** What the service knows of a registered shell: it is listed in the snapshot
    with the registration's identity and sequence number, and a running command
    is the last one the registration saw. *)
Definition registration_ok (st : EngineState) (sid : pystr) (r : Registration) : Prop :=
  registration_post_init r = Ok tt /\
  exists s, shell_of st sid = Some s /\ identity s = rg_identity r /\
    last_sequence s = rg_last_sequence r /\
    forall c, command s = Some c -> cmd_sequence c = rg_last_command_sequence r.

Record engine_ok (st : EngineState) : Prop := {
  ok_snapshot : snapshot_wf (es_snapshot st);
  ok_generation : generation (es_snapshot st) = es_dirty_generation st;
  ok_names : NoDup (map shell_id (shells (es_snapshot st)));
  ok_registrations : forall sid r, es_registrations st !! sid = Some r -> registration_ok st sid r;
  ok_capabilities : forall i j ri rj, es_registrations st !! i = Some ri ->
    es_registrations st !! j = Some rj -> rg_capability ri = rg_capability rj -> i = j;
}.

(** ** The effect of an event *)

(** The command an accepted event leaves running. *)
Definition command_after `{Unicode} (r : EventRequest) (running : option CommandRecord)
  : option CommandRecord :=
  match ev_operation r with
  | COMMAND_STARTED =>
      match ev_command r, ev_command_sequence r with
      | Some text, Some n =>
          match classify_command text n with Ok c => Some (cls_record c) | Err _ => None end
      | _, _ => None
      end
  | COMMAND_FINISHED | PROMPT_READY => None
  | _ => running
  end.

Definition cwd_after (r : EventRequest) (dir : pystr) : pystr :=
  match ev_operation r with
  | PROMPT_READY | CWD_CHANGED => default dir (ev_cwd r)
  | _ => dir
  end.

Definition termination_after (r : EventRequest) (t : option TerminationKind) : option TerminationKind :=
  match ev_operation r with OP_EXPLICIT_EXIT => Some EXPLICIT_EXIT | _ => t end.

Definition shell_after `{Unicode} (r : EventRequest) (s : ShellRecord) : ShellRecord :=
  mkShell (shell_id s) (identity s) (adapter s) (cwd_after r (cwd s)) (ev_sequence r)
    (command_after r (command s)) (termination_after r (termination s)).

Definition registration_after (r : EventRequest) (x : Registration) : Registration :=
  mkRegistration (rg_capability x) (rg_identity x) (ev_sequence r)
    (match ev_operation r with
     | COMMAND_STARTED => default 0 (ev_command_sequence r)
     | _ => rg_last_command_sequence x
     end).

(** The operation-specific part of the test an event must pass. *)
Definition command_admissible (r : EventRequest) (x : Registration) (s : ShellRecord) : Prop :=
  match ev_operation r with
  | COMMAND_STARTED =>
      exists n, ev_command_sequence r = Some n /\ rg_last_command_sequence x < n
  | COMMAND_FINISHED =>
      exists n c, ev_command_sequence r = Some n /\ command s = Some c /\ cmd_sequence c = n
  | _ => True
  end.

Record admissible (st : EngineState) (r : EventRequest) (x : Registration) (s : ShellRecord) : Prop := {
  adm_registered : es_registrations st !! ev_shell_id r = Some x;
  adm_authority : rg_capability x = ev_capability r;
  adm_identity : rg_identity x = ev_identity r;
  adm_fresh : rg_last_sequence x < ev_sequence r;
  adm_shell : shell_of st (ev_shell_id r) = Some s;
  adm_running : termination s <> Some EXPLICIT_EXIT;
  adm_command : command_admissible r x s;
}.

Section WithUnicode.
Context `{Unicode}.

Lemma reduce_shell_Ok s x r s1 : _reduce_shell s x r = Ok s1 ->
  shell_id s1 = shell_id s /\ identity s1 = identity s /\ adapter s1 = adapter s /\
  cwd s1 = cwd_after r (cwd s) /\ command s1 = command_after r (command s) /\
  termination s1 = termination_after r (termination s) /\ command_admissible r x s /\
  shell_post_init s1 = Ok tt.
Proof.
  unfold _reduce_shell, cwd_after, command_after, termination_after, command_admissible.
  destruct (ev_operation r); try done; intros Hr.
  all: repeat match goal with Hr : match ?o with Some _ => _ | None => _ end = Ok _ |- _ =>
    destruct o eqn:?; [|discriminate Hr] end.
  all: repeat match type of Hr with rbind _ _ = Ok _ =>
    let Hx := fresh "Hx" in apply rbind_Ok in Hr as (? & Hx & Hr) end.
  all: unfold shell_with_command, shell_with_cwd, shell_with_termination, new_ShellRecord in Hr;
    apply construct_Ok in Hr as [-> Hr]; simpl.
  all: repeat match goal with Hx : raise_if _ _ = Ok _ |- _ => apply raise_if_Ok in Hx end.
  all: repeat (split; [done|]); try done.
  - split; [by rewrite Hx0|]. split; [done|]. split; [|done]. eexists. split; [done|]. by apply Z.leb_gt.
  - destruct (command s) as [c|]; [|done]. apply negb_false_iff, Z.eqb_eq in Hx. eauto 10.
Qed.

Lemma compare_digest_Ok a b t : compare_digest a b = Ok t -> t = str_eqb a b.
Proof. unfold compare_digest. case_match; [|done]. by intros [= <-]. Qed.

Local Ltac is_pair_match t := match t with context [match ?q with pair _ _ => _ end] => destruct q end.

(** What an accepted event says of the state before, and the state it leaves. *)
Lemma apply_event_Ok st r st' : apply_event st r = Ok st' ->
  exists x s i, admissible st r x s /\
    _find_shell (shells (es_snapshot st)) (ev_shell_id r) = Ok (i, s) /\
    shell_post_init (shell_after r s) = Ok tt /\
    registration_post_init (registration_after r x) = Ok tt /\
    snapshot_post_init (es_snapshot st') = Ok tt /\
    st' = mkEngine
      (mkSnapshot (schema_version (es_snapshot st)) (es_dirty_generation st + 1)
         (captured_at (es_snapshot st)) (<[i := shell_after r s]> (shells (es_snapshot st))))
      (<[ev_shell_id r := registration_after r x]> (es_registrations st))
      (es_dirty_generation st + 1).
Proof.
  unfold apply_event. intros Hr.
  repeat match type of Hr with
  | rbind _ _ = Ok _ => let Hx := fresh "Hx" in apply rbind_Ok in Hr as (? & Hx & Hr)
  | ?t = Ok _ => is_pair_match t
  end.
  unfold new_EngineState, new_Registration, shell_with_sequence, new_ShellRecord, set_shells,
    new_Snapshot in *.
  repeat match goal with Hc : construct _ _ = Ok _ |- _ => apply construct_Ok in Hc as [-> ?] end.
  apply result_of_option_Ok in Hx.
  apply compare_digest_Ok in Hx0 as ->. apply raise_if_Ok, negb_false_iff, str_eqb_eq in Hx1.
  apply raise_if_Ok, negb_false_iff, bool_decide_eq_true in Hx2.
  apply raise_if_Ok, Z.leb_gt in Hx3. apply raise_if_Ok, bool_decide_eq_false in Hx5.
  apply reduce_shell_Ok in Hx6 as (E1 & E2 & E3 & E4 & E5 & E6 & Hcmd & _).
  pose proof (find_shell_Ok _ _ _ _ Hx4) as (Hn & Hid & Hfind).
  match goal with |- context [mkShell (shell_id x5) ?a ?b ?c ?d ?e ?f] =>
    set (s1 := mkShell (shell_id x5) a b c d e f) in *;
    assert (s1 = shell_after r s) as Hs1
      by (subst s1; unfold shell_after; by rewrite E1 E2 E3 E4 E5 E6) end.
  match goal with |- context [mkRegistration ?a ?b ?c ?d] =>
    set (x' := mkRegistration a b c d) in *;
    assert (x' = registration_after r x) as Hx' end.
  { subst x'. unfold registration_after. destruct (ev_operation r); simplify_eq/=; try done.
    by apply result_of_option_Ok in Hx8 as ->. }
  clearbody s1 x'. subst s1 x'. exists x, s, n. simpl. by repeat split.
Qed.

(** ** The effect of a registration *)
Definition registered_shell (st : EngineState) (rq : RegisterRequest) : ShellRecord :=
  mkShell (reg_shell_id rq) (reg_identity rq) (reg_adapter rq) (reg_cwd rq)
    (match es_registrations st !! reg_shell_id rq with
     | Some x => match shell_of st (reg_shell_id rq) with
                 | Some s => last_sequence s
                 | None => rg_last_sequence x
                 end
     | None => 0
     end) None None.

Definition fresh_registration (st : EngineState) (rq : RegisterRequest) (cap : pystr) : Registration :=
  match es_registrations st !! reg_shell_id rq with
  | Some x => mkRegistration cap (reg_identity rq) (rg_last_sequence x) (rg_last_command_sequence x)
  | None => mkRegistration cap (reg_identity rq) 0 0
  end.

Lemma register_shell_Ok st rq cap peer st' c : register_shell st rq cap peer = Ok (st', c) ->
  c = cap /\ reg_sequence rq = 0 /\ reg_adapter rq ∈ SUPPORTED_ADAPTERS /\
  (forall p, peer = Some p -> pid (reg_identity rq) = p) /\
  (forall k x, es_registrations st !! k = Some x -> rg_capability x = cap -> k = reg_shell_id rq) /\
  shell_post_init (registered_shell st rq) = Ok tt /\
  registration_post_init (fresh_registration st rq cap) = Ok tt /\
  snapshot_post_init (es_snapshot st') = Ok tt /\
  st' = mkEngine
    (mkSnapshot (schema_version (es_snapshot st)) (es_dirty_generation st + 1)
       (captured_at (es_snapshot st))
       (_replace_or_append_shell (shells (es_snapshot st)) (registered_shell st rq)))
    (<[reg_shell_id rq := fresh_registration st rq cap]> (es_registrations st))
    (es_dirty_generation st + 1).
Proof.
  unfold register_shell. intros Hr.
  repeat match type of Hr with
  | rbind _ _ = Ok _ => let Hx := fresh "Hx" in apply rbind_Ok in Hr as (? & Hx & Hr)
  end.
  apply Ok_inj in Hr. simplify_eq.
  apply raise_if_Ok, negb_false_iff, Z.eqb_eq in Hx. rewrite Hx in Hx2 Hx4.
  apply raise_if_Ok, negb_false_iff, str_in_spec in Hx0. apply raise_if_Ok in Hx1, Hx3.
  unfold new_EngineState, new_ShellRecord, set_shells, new_Snapshot in *.
  apply construct_Ok in Hx2 as [-> Hs]. fold (shell_of st (reg_shell_id rq)) in Hs, Hx5.
  change (mkShell _ _ _ _ _ _ _) with (registered_shell st rq) in Hs, Hx5.
  assert (x4 = fresh_registration st rq cap /\ registration_post_init x4 = Ok tt) as [-> Hreg].
  { unfold fresh_registration, new_Registration in *. by case_match; apply construct_Ok in Hx4 as [-> ?]. }
  apply construct_Ok in Hx5 as [-> Hsnap]. apply construct_Ok in Hx6 as [-> _].
  split; [done|]. split; [done|]. split; [done|]. split.
  { intros p ->. by apply negb_false_iff, Z.eqb_eq in Hx1. }
  split; [|by repeat split].
  intros k y Hk <-. apply dec_stable. intros Hne.
  assert (existsb (fun kv => str_eqb (rg_capability kv.2) (rg_capability y) &&
    negb (str_eqb kv.1 (reg_shell_id rq))) (map_to_list (es_registrations st)) = true) as E; [|congruence].
  apply existsb_exists. exists (k, y). split; [by apply list_elem_of_In, elem_of_map_to_list|]. simpl.
  by rewrite str_eqb_refl (proj2 (str_eqb_neq _ _) Hne).
Qed.

(** ** One step *)
Lemma event_registrations st r st' sid : apply_event st r = Ok st' ->
  exists x s, admissible st r x s /\
    es_registrations st' !! sid =
      (if str_eqb (ev_shell_id r) sid then Some (registration_after r x) else es_registrations st !! sid) /\
    shell_of st' sid =
      (if str_eqb (ev_shell_id r) sid then Some (shell_after r s) else shell_of st sid).
Proof.
  intros (x & s & i & Ha & Hf & _ & _ & _ & ->)%apply_event_Ok. exists x, s. split; [done|].
  unfold shell_of. simpl. pose proof (find_shell_Ok _ _ _ _ Hf) as (_ & Hid & _).
  rewrite (find_insert _ _ _ _ (shell_after r s) sid Hf Hid). split; [|done].
  destruct (str_eqb (ev_shell_id r) sid) eqn:E.
  - apply str_eqb_eq in E as ->. apply lookup_insert_eq.
  - apply lookup_insert_ne. by apply str_eqb_neq.
Qed.

Lemma register_registrations st rq cap peer st' c sid : register_shell st rq cap peer = Ok (st', c) ->
  es_registrations st' !! sid =
    (if str_eqb (reg_shell_id rq) sid then Some (fresh_registration st rq cap)
     else es_registrations st !! sid) /\
  shell_of st' sid =
    (if str_eqb (reg_shell_id rq) sid then Some (registered_shell st rq) else shell_of st sid).
Proof.
  intros Hr%register_shell_Ok. destruct Hr as (_ & _ & _ & _ & _ & _ & _ & _ & ->). unfold shell_of. simpl. rewrite replace_find.
  split; [|done]. destruct (str_eqb (reg_shell_id rq) sid) eqn:E.
  - apply str_eqb_eq in E as ->. apply lookup_insert_eq.
  - apply lookup_insert_ne. by apply str_eqb_neq.
Qed.

Lemma classified_wf text n c : 0 <= n -> classify_command text n = Ok c ->
  command_wf (cls_record c) /\ cmd_sequence (cls_record c) = n.
Proof.
  intros Hn Hc. destruct (classify_spec text n Hn) as (k & why & E & _ & Hr). rewrite E in Hc.
  apply Ok_inj in Hc as ->. cbn [cls_record]. split; [|by destruct k]. destruct k.
  - destruct (proj1 Hr eq_refl) as (_ & p & _ & _ & Hl).
    by destruct (proj1 (construct_Ok _ _ _) (replayable_Ok n text Hn Hl)).
  - destruct (redacted_Ok n Hn) as [w Hk]. by apply rbind_Ok in Hk as (x & [-> Hk']%construct_Ok & _).
  - pose proof (refused_Ok n text UNSAFE [] Hn (or_introl eq_refl)) as Hk.
    by apply rbind_Ok in Hk as (x & [-> Hk']%construct_Ok & _).
  - pose proof (refused_Ok n text UNREPRESENTABLE [] Hn (or_intror eq_refl)) as Hk.
    by apply rbind_Ok in Hk as (x & [-> Hk']%construct_Ok & _).
Qed.

Lemma command_after_wf r s x : command_admissible r x s -> rg_last_command_sequence x >= 0 ->
  (forall c, command s = Some c -> command_wf c) ->
  forall c, command_after r (command s) = Some c -> command_wf c.
Proof.
  unfold command_admissible, command_after.
  destruct (ev_operation r); try done; try (intros; by eauto).
  intros (n & -> & Hn) Hx _ c. destruct (ev_command r) as [text|]; [|done].
  destruct (classify_command text n) as [y|] eqn:Hy; [|done]. intros [= <-].
  by apply classified_wf in Hy as [? _]; [|lia].
Qed.

Lemma command_after_sequence r s x c : command_admissible r x s -> rg_last_command_sequence x >= 0 ->
  (forall c, command s = Some c -> cmd_sequence c = rg_last_command_sequence x) ->
  command_after r (command s) = Some c ->
  cmd_sequence c = rg_last_command_sequence (registration_after r x).
Proof.
  unfold command_admissible, command_after, registration_after.
  destruct (ev_operation r); try done; try (intros; by eauto).
  intros (n & -> & Hn) Hx _. destruct (ev_command r) as [text|]; [|done].
  destruct (classify_command text n) as [y|] eqn:Hy; [|done]. intros [= <-].
  by apply classified_wf in Hy as [_ ?]; [|lia].
Qed.

(** Every [ProcessIdentity] object has been through its [__post_init__]. *)
Definition op_wf (op : engine_op) : Prop :=
  match op with OpRegister rq _ _ => identity_wf (reg_identity rq) | OpEvent _ => True end.

Lemma registration_post_init_Ok x : registration_post_init x = Ok tt ->
  0 <= rg_last_sequence x /\ 0 <= rg_last_command_sequence x.
Proof. unfold registration_post_init. intros Hi. r_inv. by split; apply Z.ltb_ge. Qed.

Lemma find_Forall (P : ShellRecord -> Prop) f shs s : Forall P shs -> find f shs = Some s -> P s.
Proof.
  intros Hall [Hin _]%find_some. rewrite Forall_forall in Hall. by apply Hall, list_elem_of_In.
Qed.

Lemma engine_ok_event st r st' : engine_ok st -> apply_event st r = Ok st' -> engine_ok st'.
Proof.
  intros [Hs Hg Hn Hr Hc] He.
  pose proof He as (x & s & i & Ha & Hf & Hsh & Hrg & Hsn & Hst)%apply_event_Ok.
  assert (Hlook := fun sid => event_registrations st r st' sid He).
  destruct Ha as [Hx Ha1 Ha2 Ha3 Hsof Ha5 Ha6].
  destruct (Hr _ _ Hx) as (Hxp & s0 & Hs0 & Hsi & Hsl & Hsc). rewrite Hsof in Hs0.
  injection Hs0 as <-. pose proof (registration_post_init_Ok _ Hxp) as [Hx0 Hx1].
  destruct Hs as [_ Hall]. pose proof (find_Forall _ _ _ _ Hall Hsof) as (_ & Hid & Hcw).
  split.
  - split; [done|]. subst st'. simpl. apply Forall_insert; [done|]. split; [done|].
    split; [done|]. cbn [command shell_after].
    destruct (command_after r (command s)) as [c|] eqn:Ec; [|done].
    eapply (command_after_wf r s x); [done|lia| |exact Ec]. intros c' E'. by rewrite E' in Hcw.
  - by subst st'.
  - subst st'. simpl. by rewrite (insert_names _ _ _ _ (shell_after r s) Hf)
      ?(proj1 (proj2 (find_shell_Ok _ _ _ _ Hf))).
  - intros sid y Hy. destruct (Hlook sid) as (x2 & s2 & [Hx2 _ _ _ Hs2 _ _] & E1 & E2).
    rewrite Hx in Hx2. injection Hx2 as <-. rewrite Hsof in Hs2. injection Hs2 as <-.
    unfold registration_ok. rewrite E2. rewrite E1 in Hy. destruct (str_eqb _ sid); [|by apply Hr].
    injection Hy as <-. split; [done|]. exists (shell_after r s). split; [done|].
    split; [done|]. split; [done|]. intros c Ec.
    eapply (command_after_sequence r s x); [done|lia|done|exact Ec].
  - assert (Hold : forall k y, es_registrations st' !! k = Some y ->
      exists y', es_registrations st !! k = Some y' /\ rg_capability y' = rg_capability y).
    { intros k y Hy. destruct (Hlook k) as (x2 & s2 & [Hx2 _ _ _ _ _ _] & E1 & _).
      rewrite E1 in Hy. destruct (str_eqb _ k) eqn:E; [|by eauto].
      apply str_eqb_eq in E as <-. injection Hy as <-. by exists x2. }
    intros k1 k2 y1 y2 (y1' & H1 & <-)%Hold (y2' & H2 & <-)%Hold. by apply Hc.
Qed.

Lemma engine_ok_register st rq cap peer st' c : engine_ok st -> identity_wf (reg_identity rq) ->
  register_shell st rq cap peer = Ok (st', c) -> engine_ok st'.
Proof.
  intros [Hs Hg Hn Hr Hc] Hid He.
  pose proof He as (_ & _ & _ & _ & Hcol & Hsh & Hrg & Hsn & Hst)%register_shell_Ok.
  assert (Hlook := fun sid => register_registrations st rq cap peer st' c sid He).
  destruct Hs as [_ Hall]. split.
  - split; [done|]. subst st'. simpl. by apply replace_Forall.
  - by subst st'.
  - subst st'. simpl. by apply replace_NoDup.
  - intros sid y Hy. destruct (Hlook sid) as [E1 E2]. unfold registration_ok. rewrite E2.
    rewrite E1 in Hy. destruct (str_eqb _ sid); [|by apply Hr]. injection Hy as <-.
    split; [done|]. exists (registered_shell st rq). split; [done|].
    unfold registered_shell, fresh_registration in *. simpl.
    destruct (es_registrations st !! reg_shell_id rq) as [x|] eqn:Hx; [|done].
    destruct (Hr _ _ Hx) as (_ & s & -> & _ & Hl & _). done.
  - assert (Hcap : rg_capability (fresh_registration st rq cap) = cap)
      by (unfold fresh_registration; by case_match).
    intros k1 k2 y1 y2 H1 H2. rewrite (proj1 (Hlook _)) in H1. rewrite (proj1 (Hlook _)) in H2.
    destruct (str_eqb _ k1) eqn:E1, (str_eqb _ k2) eqn:E2; intros Heq;
      rewrite ?str_eqb_eq in E1; rewrite ?str_eqb_eq in E2.
    + by subst.
    + injection H1 as <-. rewrite Hcap in Heq. subst k1. by rewrite (Hcol _ _ H2 (eq_sym Heq)).
    + injection H2 as <-. rewrite Hcap in Heq. subst k2. by rewrite (Hcol _ _ H1 Heq).
    + by apply (Hc _ _ _ _ H1 H2).
Qed.

Lemma engine_ok_step st op : engine_ok st -> op_wf op -> engine_ok (engine_step st op).
Proof.
  intros Hs Hop. destruct op as [rq cap peer|r]; simpl.
  - destruct (register_shell st rq cap peer) as [[st' c]|] eqn:E; [|done].
    exact (engine_ok_register _ _ _ _ _ _ Hs Hop E).
  - destruct (apply_event st r) as [st'|] eqn:E; [|done]. exact (engine_ok_event _ _ _ Hs E).
Qed.

Lemma engine_run_cons st op ops : engine_run st (op :: ops) = engine_run (engine_step st op) ops.
Proof. done. Qed.

Lemma engine_run_app st a b : engine_run st (a ++ b) = engine_run (engine_run st a) b.
Proof. apply foldl_app. Qed.

(** ** Completeness: an admissible event is accepted *)
Lemma capability_ascii s : _CAPABILITY_RE s = true -> forallb is_ascii s = true.
Proof.
  intros Hs. apply andb_true_iff in Hs as [_ Hs].
  apply forallb_forall. intros c Hc. rewrite forallb_forall in Hs. specialize (Hs c Hc).
  revert Hs. clear. unfold id_char, is_ascii, is_alnum, is_alpha, is_upper, is_lower, is_digit. lia.
Qed.

Lemma compare_digest_run a b : _CAPABILITY_RE a = true -> _CAPABILITY_RE b = true ->
  compare_digest a b = Ok (str_eqb a b).
Proof. intros Ha Hb. unfold compare_digest. by rewrite !capability_ascii. Qed.

Lemma shell_rebuild s dir n cm tm : shell_post_init s = Ok tt -> dir = cwd s \/ absolute_ok dir ->
  0 <= n -> new_ShellRecord (shell_id s) (identity s) (adapter s) dir n cm tm =
            Ok (mkShell (shell_id s) (identity s) (adapter s) dir n cm tm).
Proof.
  unfold shell_post_init, _require_bounded_string, _require_non_negative_integer.
  intros Hs Hdir Hn. apply construct_wf. unfold shell_post_init, _require_bounded_string,
    _require_non_negative_integer. simpl. r_inv. repeat r_step.
  assert (Hl : len dir <= MAX_PATH_CHARS).
  { destruct Hdir as [->|[[_ [Hl _]] _]]; [by apply Z.ltb_ge|done]. }
  rewrite (proj2 (Z.ltb_ge _ _) Hl). simpl. by rewrite (proj2 (Z.ltb_ge _ _) Hn).
Qed.

Lemma shell_post_init_sequence s : shell_post_init s = Ok tt -> 0 <= last_sequence s.
Proof. unfold shell_post_init, _require_non_negative_integer. intros Hs. r_inv. by apply Z.ltb_ge. Qed.

Lemma reduce_run r x s : event_ok r -> command_admissible r x s -> shell_post_init s = Ok tt ->
  (let? s1 := _reduce_shell s x r in shell_with_sequence s1 (ev_sequence r)) = Ok (shell_after r s).
Proof.
  intros (_ & _ & _ & Hsq & Hf) Hc Hs. pose proof (shell_post_init_sequence _ Hs) as Hl.
  unfold sequence_ok in Hsq. unfold _reduce_shell, shell_after, cwd_after, command_after,
    termination_after, command_admissible, event_fields_ok in *.
  unfold shell_with_command, shell_with_cwd, shell_with_termination, shell_with_sequence.
  pose proof (fun dir n cm tm => shell_rebuild s dir n cm tm Hs) as Hrun.
  destruct (ev_operation r); try done.
  - destruct Hf as (_ & (n' & Hn' & Hpos) & (text & -> & _) & _). destruct Hc as (n & Hn & Hlt).
    rewrite Hn in Hn' |- *. injection Hn' as <-. rewrite (proj2 (Z.leb_gt _ _) Hlt). simpl.
    unfold sequence_ok in Hpos. destruct (classify_spec text n ltac:(lia)) as (k & why & -> & _).
    simpl. rewrite Hrun; [by left|done|]. apply Hrun; [by left|lia].
  - destruct Hc as (n & c & -> & -> & ->). rewrite Z.eqb_refl. simpl.
    rewrite Hrun; [by left|done|]. apply Hrun; [by left|lia].
  - destruct Hf as ((dir & -> & Hdir) & _). simpl. rewrite Hrun; [by right|done|]. simpl.
    apply (shell_rebuild (mkShell (shell_id s) (identity s) (adapter s) dir (last_sequence s) None
      (termination s))); [|by left|lia].
    by specialize (Hrun dir (last_sequence s) None (termination s) (or_intror Hdir) Hl) as [_ ?]%construct_Ok.
  - destruct Hf as ((dir & -> & Hdir) & _). simpl. rewrite Hrun; [by right|done|]. simpl.
    apply (shell_rebuild (mkShell (shell_id s) (identity s) (adapter s) dir (last_sequence s) (command s)
      (termination s))); [|by left|lia].
    by specialize (Hrun dir (last_sequence s) (command s) (termination s) (or_intror Hdir) Hl) as [_ ?]%construct_Ok.
  - rewrite Hrun; [by left|done|]. apply Hrun; [by left|lia].
Qed.

Lemma snapshot_post_init_Ok x : snapshot_post_init x = Ok tt ->
  0 <= generation x /\ _require_schema_one (schema_version x) = Ok tt /\
  _require_finite_number (captured_at x) (u "captured_at") = Ok tt /\ len (shells x) <= MAX_ITEMS.
Proof.
  unfold snapshot_post_init, _require_non_negative_integer, _require_bounded_sequence. intros Hx.
  r_inv. split; [by apply Z.ltb_ge|]. split; [done|]. split; [done|]. by apply Z.ltb_ge.
Qed.

Lemma apply_event_run st r x s : engine_ok st -> event_ok r -> admissible st r x s ->
  exists st', apply_event st r = Ok st'.
Proof.
  intros [Hs Hg Hn Hr _] Hok [Hx Hcap Hid Hfresh Hsof Hrun Hcmd].
  destruct (Hr _ _ Hx) as (Hxp & _). pose proof Hok as (_ & Hcr & _ & Hsq & Hf).
  destruct Hs as [Hsp Hall]. pose proof (find_Forall _ _ _ _ Hall Hsof) as (Hshp & _).
  pose proof (registration_post_init_Ok _ Hxp) as [Hx0 Hx1].
  destruct (find_shell_Some _ _ _ Hsof) as [i Hi].
  unfold apply_event. rewrite Hx. simpl. rewrite compare_digest_run; [by rewrite Hcap|done|].
  rewrite Hcap str_eqb_refl. simpl. rewrite bool_decide_eq_true_2 //. simpl.
  rewrite (proj2 (Z.leb_gt _ _) Hfresh). simpl. rewrite Hi. simpl.
  rewrite bool_decide_eq_false_2 //. simpl.
  pose proof (reduce_run r x s Hok Hcmd Hshp) as Hred. apply rbind_Ok in Hred as (s1 & -> & Hred).
  simpl. rewrite Hred. simpl.
  assert (exists n, (match ev_operation r with
    | COMMAND_STARTED => result_of_option (ev_command_sequence r) AssertionError
    | _ => Ok (rg_last_command_sequence x) end) = Ok n /\ 0 <= n) as (n & -> & Hn0).
  { unfold event_fields_ok, sequence_ok in Hf. destruct (ev_operation r); try done; try by eexists.
    destruct Hf as (_ & (n & -> & ?) & _). exists n. split; [done|lia]. }
  unfold sequence_ok in Hsq. simpl.
  unfold new_Registration. rewrite construct_wf.
  { unfold registration_post_init. simpl. rewrite Hcr. simpl.
    rewrite ltb_false; [lia|]. simpl. by rewrite ltb_false. }
  simpl. unfold set_shells, new_Snapshot, new_EngineState.
  destruct (snapshot_post_init_Ok _ Hsp) as (Hg0 & Hv & Hfin & Hlen).
  rewrite construct_wf; [|simpl; rewrite construct_wf; [|by eexists]].
  - unfold snapshot_post_init, _require_non_negative_integer, _require_bounded_sequence. simpl.
    rewrite Hv. simpl. rewrite ltb_false; [lia|]. simpl. rewrite Hfin. simpl.
    rewrite ltb_false; [|done]. unfold len in *. by rewrite length_insert.
  - unfold engine_post_init. simpl. rewrite ltb_false; [lia|done].
Qed.

(** ** Runs *)

(** The sequence number below which events of a shell are rejected. *)
Definition watermark (st : EngineState) (sid : pystr) : Z :=
  match es_registrations st !! sid with Some x => rg_last_sequence x | None => -1 end.

Definition command_watermark (st : EngineState) (sid : pystr) : Z :=
  match es_registrations st !! sid with Some x => rg_last_command_sequence x | None => -1 end.

Lemma watermark_step st op sid :
  watermark st sid <= watermark (engine_step st op) sid /\
  command_watermark st sid <= command_watermark (engine_step st op) sid.
Proof.
  unfold watermark, command_watermark. destruct op as [rq cap peer|r]; simpl.
  - destruct (register_shell st rq cap peer) as [[st' c]|] eqn:E; [|lia].
    rewrite (proj1 (register_registrations _ _ _ _ _ _ sid E)).
    destruct (str_eqb _ sid) eqn:Es; [|lia]. apply str_eqb_eq in Es as <-.
    unfold fresh_registration. destruct (es_registrations st !! _); simpl; lia.
  - destruct (apply_event st r) as [st'|] eqn:E; [|lia].
    destruct (event_registrations st r st' sid E) as (x & s & [Hx _ _ Hf _ _ Hc] & -> & _).
    destruct (str_eqb _ sid) eqn:Es; [|lia]. apply str_eqb_eq in Es as <-. rewrite Hx.
    unfold command_admissible, registration_after in *. simpl. split; [lia|].
    destruct (ev_operation r); try lia. destruct Hc as (n & -> & Hn). simpl. lia.
Qed.

Lemma watermark_run st ops sid :
  watermark st sid <= watermark (engine_run st ops) sid /\
  command_watermark st sid <= command_watermark (engine_run st ops) sid.
Proof.
  revert st. induction ops as [|op ops IH]; intros st; [unfold engine_run; simpl; lia|].
  rewrite engine_run_cons. destruct (IH (engine_step st op)). destruct (watermark_step st op sid). lia.
Qed.

(** The shell table only grows. *)
Lemma replace_names shs x : map shell_id (_replace_or_append_shell shs x) =
  if str_in (shell_id x) (map shell_id shs) then map shell_id shs else map shell_id shs ++ [shell_id x].
Proof.
  unfold str_in. induction shs as [|y shs IH]; simpl; [done|].
  destruct (str_eqb (shell_id y) (shell_id x)) eqn:E; simpl.
  - apply str_eqb_eq in E. by rewrite E str_eqb_refl.
  - rewrite IH. rewrite str_eqb_neq in E. rewrite (proj2 (str_eqb_neq _ _) (not_eq_sym E)). simpl.
    by destruct (existsb _ _).
Qed.

Definition shell_names (st : EngineState) : list pystr := map shell_id (shells (es_snapshot st)).

Lemma full_registration st rq cap peer : MAX_ITEMS <= len (shell_names st) ->
  reg_shell_id rq ∉ shell_names st -> is_ok (register_shell st rq cap peer) = false.
Proof.
  intros Hfull Hnew. destruct (register_shell st rq cap peer) as [[st' c]|] eqn:E; [|done].
  apply register_shell_Ok in E as (_ & _ & _ & _ & _ & _ & _ & Hs & ->). exfalso. simpl in Hs.
  apply snapshot_post_init_Ok in Hs as (_ & _ & _ & Hl). simpl in Hl.
  rewrite -(len_map shell_id) replace_names in Hl. unfold shell_names in *.
  rewrite (proj2 (str_in_false _ _)) in Hl; [done|].
  rewrite len_app len_cons in Hl. unfold len at 2 in Hl. simpl in Hl. lia.
Qed.

Lemma full_step st op : MAX_ITEMS <= len (shell_names st) ->
  shell_names (engine_step st op) = shell_names st.
Proof.
  intros Hfull. destruct op as [rq cap peer|r]; simpl.
  - destruct (str_in (reg_shell_id rq) (shell_names st)) eqn:Hin.
    + destruct (register_shell st rq cap peer) as [[st' c]|] eqn:E; [|done].
      apply register_shell_Ok in E as (_ & _ & _ & _ & _ & _ & _ & _ & ->).
      unfold shell_names in *. simpl. by rewrite replace_names /= Hin.
    + apply str_in_false in Hin. pose proof (full_registration st rq cap peer Hfull Hin).
      by destruct (register_shell st rq cap peer) as [[]|].
  - destruct (apply_event st r) as [st'|] eqn:E; [|done].
    apply apply_event_Ok in E as (x & s & i & _ & Hf & _ & _ & _ & ->).
    unfold shell_names. simpl. rewrite (insert_names _ _ _ _ (shell_after r s) Hf) //=.
    by rewrite (proj1 (proj2 (find_shell_Ok _ _ _ _ Hf))).
Qed.

Lemma full_run st ops : MAX_ITEMS <= len (shell_names st) ->
  shell_names (engine_run st ops) = shell_names st.
Proof.
  revert st. induction ops as [|op ops IH]; intros st Hfull; [done|].
  rewrite engine_run_cons IH; by rewrite full_step.
Qed.

(** A registration that is in force was made by an accepted request, and no
    later request for the shell was accepted. *)
Definition accepted (st : EngineState) (rq : RegisterRequest) (cap : pystr) (peer : option Z) : Prop :=
  is_ok (register_shell st rq cap peer) = true.

Definition last_registration (st : EngineState) (ops : list engine_op) (sid cap : pystr)
    (who : ProcessIdentity) : Prop :=
  exists before rq peer after, ops = before ++ OpRegister rq cap peer :: after /\
    reg_shell_id rq = sid /\ reg_identity rq = who /\ (forall p, peer = Some p -> pid who = p) /\
    accepted (engine_run st before) rq cap peer /\
    forall mid rq' cap' peer' rest, after = mid ++ OpRegister rq' cap' peer' :: rest ->
      reg_shell_id rq' = sid ->
      ~ accepted (engine_run st (before ++ OpRegister rq cap peer :: mid)) rq' cap' peer'.

Lemma last_registration_snoc st ops op sid cap who : last_registration st ops sid cap who ->
  (forall rq' cap' peer', op = OpRegister rq' cap' peer' -> reg_shell_id rq' = sid ->
     ~ accepted (engine_run st ops) rq' cap' peer') ->
  last_registration st (ops ++ [op]) sid cap who.
Proof.
  intros (before & rq & peer & after & -> & Hsid & Hwho & Hpeer & Hacc & Hno) Hop.
  exists before, rq, peer, (after ++ [op]). rewrite -app_assoc /=.
  repeat (split; [done|]). intros mid rq' cap' peer' rest Heq Hs'.
  destruct rest as [|z rest _] using rev_ind.
  - apply app_inj_tail in Heq as [<- Heq]. exact (Hop _ _ _ Heq Hs').
  - rewrite app_comm_cons app_assoc in Heq. apply app_inj_tail in Heq as [Heq _].
    exact (Hno _ _ _ _ _ Heq Hs').
Qed.

Lemma registration_in_force st ops sid x : es_registrations st = ∅ ->
  es_registrations (engine_run st ops) !! sid = Some x ->
  last_registration st ops sid (rg_capability x) (rg_identity x).
Proof.
  intros Hempty. revert x. induction ops as [|op ops IH] using rev_ind; intros x.
  { unfold engine_run. simpl. by rewrite Hempty. }
  rewrite engine_run_app. unfold engine_run at 1. simpl. intros Hx.
  destruct op as [rq cap peer|r]; simpl in Hx.
  - destruct (register_shell (engine_run st ops) rq cap peer) as [[st' c]|] eqn:E.
    + rewrite (proj1 (register_registrations _ _ _ _ _ _ sid E)) in Hx.
      destruct (str_eqb (reg_shell_id rq) sid) eqn:Es.
      * apply str_eqb_eq in Es. injection Hx as <-.
        assert (rg_capability (fresh_registration (engine_run st ops) rq cap) = cap /\
          rg_identity (fresh_registration (engine_run st ops) rq cap) = reg_identity rq) as [-> ->]
          by (unfold fresh_registration; by case_match).
        exists ops, rq, peer, []. repeat (split; [done|]).
        split; [by apply register_shell_Ok in E as (_ & _ & _ & Hp & _)|].
        split; [by rewrite /accepted E|]. by intros [].
      * apply last_registration_snoc; [by apply IH|]. intros rq' cap' peer' [= <- <- <-] Hs.
        by rewrite Hs str_eqb_refl in Es.
    + apply last_registration_snoc; [by apply IH|]. intros rq' cap' peer' [= <- <- <-] _.
      by rewrite /accepted E.
  - apply last_registration_snoc; [|done].
    destruct (apply_event (engine_run st ops) r) as [st'|] eqn:E; [|by apply IH].
    destruct (event_registrations _ r st' sid E) as (y & s & [Hy _ _ _ _ _ _] & Hl & _).
    rewrite Hl in Hx. destruct (str_eqb _ sid) eqn:Es; [|by apply IH].
    injection Hx as <-. apply str_eqb_eq in Es as <-. exact (IH y Hy).
Qed.

(** [exited] holds of a shell from its explicit exit until it registers again. *)
Definition exited (st : EngineState) (sid : pystr) : Prop :=
  exists s, shell_of st sid = Some s /\ termination s = Some EXPLICIT_EXIT.

Lemma exited_rejects st r : exited st (ev_shell_id r) -> is_ok (apply_event st r) = false.
Proof.
  intros (s & Hs & Ht). destruct (apply_event st r) as [st'|] eqn:E; [|done].
  apply apply_event_Ok in E as (x & s' & i & [_ _ _ _ Hs' Hn _] & _).
  rewrite Hs in Hs'. by injection Hs' as <-.
Qed.

Lemma exited_step st op sid : exited st sid ->
  (forall rq cap peer, op = OpRegister rq cap peer -> reg_shell_id rq <> sid) ->
  exited (engine_step st op) sid.
Proof.
  intros Hex Hop. destruct op as [rq cap peer|r]; simpl.
  - destruct (register_shell st rq cap peer) as [[st' c]|] eqn:E; [|done].
    unfold exited. rewrite (proj2 (register_registrations _ _ _ _ _ _ sid E)).
    by rewrite (proj2 (str_eqb_neq _ _) (Hop _ _ _ eq_refl)).
  - destruct (str_eqb (ev_shell_id r) sid) eqn:Es.
    + apply str_eqb_eq in Es as <-. pose proof (exited_rejects _ _ Hex). by destruct (apply_event st r).
    + destruct (apply_event st r) as [st'|] eqn:E; [|done].
      destruct (event_registrations _ r st' sid E) as (x & s & _ & _ & Hl).
      rewrite Es in Hl. unfold exited. by rewrite Hl.
Qed.

Lemma rejected_err {A} (m : result A) : is_ok m = false -> exists e, m = Err e.
Proof. destruct m; naive_solver. Qed.

(** ** Claims *)

(** C23. Whatever sequence of registrations and events reaches the service, and
    whichever of them fail, the state stays well-formed: the snapshot satisfies
    its class invariant with at most 256 distinct shells, its generation is the
    dirty generation, every registration points at a shell with the same
    identity, sequence number and last command, and no two shells share a
    capability. *)
Theorem engine_invariant st ops : engine_ok st -> Forall op_wf ops -> engine_ok (engine_run st ops).
Proof.
  intros Hs Hops. revert st Hs. induction Hops as [|op ops Hop _ IH]; intros st Hs; [done|].
  rewrite engine_run_cons. by apply IH, engine_ok_step.
Qed.

(** A decoded event is accepted exactly when its shell is registered with the
    event's capability and identity, the sequence number is new, the shell has
    not exited, a started command has a new command sequence and a finished
    command is the one running. *)
Theorem event_accepted_iff st r : engine_ok st -> event_ok r ->
  is_ok (apply_event st r) = true <-> exists x s, admissible st r x s.
Proof.
  intros Hs Hr. split.
  - destruct (apply_event st r) as [st'|] eqn:E; [|done]. intros _.
    apply apply_event_Ok in E as (x & s & _ & Ha & _). by exists x, s.
  - intros (x & s & Ha). by destruct (apply_event_run st r x s Hs Hr Ha) as [st' ->].
Qed.

(** An accepted event moves the generation by one, changes the shell it names
    as its operation says (command, directory, termination, sequence number),
    records its sequence numbers, and leaves every other shell and registration,
    the order of the shells and the capture time alone. *)
Theorem event_effect st r st' : apply_event st r = Ok st' ->
  es_dirty_generation st' = es_dirty_generation st + 1 /\
  generation (es_snapshot st') = es_dirty_generation st + 1 /\
  captured_at (es_snapshot st') = captured_at (es_snapshot st) /\
  map shell_id (shells (es_snapshot st')) = map shell_id (shells (es_snapshot st)) /\
  exists x s, es_registrations st !! ev_shell_id r = Some x /\ shell_of st (ev_shell_id r) = Some s /\
    (forall sid, es_registrations st' !! sid =
      if decide (sid = ev_shell_id r) then Some (registration_after r x) else es_registrations st !! sid) /\
    (forall sid, shell_of st' sid =
      if decide (sid = ev_shell_id r) then Some (shell_after r s) else shell_of st sid).
Proof.
  intros He. pose proof He as (x & s & i & Ha & Hf & _ & _ & _ & Hst)%apply_event_Ok.
  assert (Hl := fun sid => event_registrations st r st' sid He).
  destruct Ha as [Hx _ _ _ Hs _ _]. subst st'. simpl. repeat (split; [done|]). split.
  { by rewrite (insert_names _ _ _ _ (shell_after r s) Hf)
      ?(proj1 (proj2 (find_shell_Ok _ _ _ _ Hf))). }
  exists x, s. split; [done|]. split; [done|].
  split; intros sid; destruct (Hl sid) as (x2 & s2 & [Hx2 _ _ _ Hs2 _ _] & E1 & E2);
    rewrite Hx in Hx2; rewrite Hs in Hs2; simplify_eq;
    [rewrite E1|rewrite E2]; destruct (decide (sid = ev_shell_id r)) as [->|Hne];
    rewrite ?str_eqb_refl ?(proj2 (str_eqb_neq _ _) (not_eq_sym Hne)) //.
Qed.

(** C6. Once an event of a shell has been accepted, no later event of that shell
    with the same or a smaller sequence number is accepted, whatever happens in
    between: other events, failures, and re-registrations of the shell; and no
    command start with the same or a smaller command sequence is accepted. *)
Theorem events_never_replayed st r st' ops r' : apply_event st r = Ok st' ->
  ev_shell_id r' = ev_shell_id r ->
  ev_sequence r' <= ev_sequence r \/
  (ev_operation r = COMMAND_STARTED /\ ev_operation r' = COMMAND_STARTED /\
   exists n n', ev_command_sequence r = Some n /\ ev_command_sequence r' = Some n' /\ n' <= n) ->
  is_ok (apply_event (engine_run st' ops) r') = false.
Proof.
  intros He Hsid Hold. destruct (apply_event (engine_run st' ops) r') as [s2|] eqn:E2; [|done].
  apply apply_event_Ok in E2 as (x' & s' & _ & [Hx' _ _ Hf _ _ Hc] & _). exfalso.
  destruct (watermark_run st' ops (ev_shell_id r)) as [Hw Hcw].
  unfold watermark, command_watermark in *. rewrite Hsid in Hx'. rewrite Hx' in Hw, Hcw.
  destruct (event_registrations st r st' (ev_shell_id r) He) as (x & s & _ & Hl & _).
  rewrite str_eqb_refl in Hl. rewrite Hl in Hw, Hcw.
  unfold registration_after, command_admissible in *. simpl in *.
  destruct Hold as [Hle|(E & E' & n & n' & Hn & Hn' & Hle)]; [lia|].
  rewrite E Hn in Hcw. rewrite E' Hn' in Hc. destruct Hc as (n'' & [= <-] & Hlt).
  simpl in Hcw. lia.
Qed.

(** C11. Authority: starting with no registrations, every event that is accepted
    carries the capability and the process identity of the last accepted
    registration of its shell, and that identity's pid was the pid the kernel
    reported for the registering connection.  A capability replaced by a later
    registration, or one issued to another shell, is of no use. *)
Theorem accepted_event_authority st ops r : es_registrations st = ∅ ->
  is_ok (apply_event (engine_run st ops) r) = true ->
  last_registration st ops (ev_shell_id r) (ev_capability r) (ev_identity r).
Proof.
  intros Hempty He. destruct (apply_event (engine_run st ops) r) as [st'|] eqn:E; [|done].
  apply apply_event_Ok in E as (x & s & _ & [Hx <- <- _ _ _ _] & _).
  by apply registration_in_force.
Qed.

(** An explicit exit is final: after it, every event of the shell is rejected
    until the shell registers again. *)
Theorem explicit_exit_final st r st' ops r' : apply_event st r = Ok st' ->
  ev_operation r = OP_EXPLICIT_EXIT ->
  Forall (fun op => match op with
    | OpRegister rq _ _ => reg_shell_id rq <> ev_shell_id r | OpEvent _ => True end) ops ->
  ev_shell_id r' = ev_shell_id r -> is_ok (apply_event (engine_run st' ops) r') = false.
Proof.
  intros He Hop Hops Hsid. apply exited_rejects. rewrite Hsid.
  assert (exited st' (ev_shell_id r)) as Hex.
  { destruct (event_registrations st r st' (ev_shell_id r) He) as (x & s & _ & _ & Hl).
    rewrite str_eqb_refl in Hl. exists (shell_after r s). split; [done|].
    by rewrite /= /termination_after Hop. }
  clear He Hsid. revert st' Hex. induction Hops as [|op ops Ho _ IH]; intros st' Hex; [done|].
  rewrite engine_run_cons. apply IH, exited_step; [done|]. by intros ? ? ? ->.
Qed.

(** A shell is never removed from the table: once it lists 256 shells it lists
    the same ones for ever, and no shell outside the table can register,
    whatever events (explicit exits included) and registrations happen. *)
Theorem full_table_rejects_new_shells st ops rq cap peer :
  MAX_ITEMS <= len (shell_names st) -> reg_shell_id rq ∉ shell_names st ->
  shell_names (engine_run st ops) = shell_names st /\
  is_ok (register_shell (engine_run st ops) rq cap peer) = false.
Proof.
  intros Hfull Hnew. split; [by apply full_run|].
  apply full_registration; by rewrite full_run.
Qed.

End WithUnicode.

(** ** Witnesses *)
Section Witnesses.
#[local] Existing Instance ascii_unicode.

Definition sample_register : RegisterRequest :=
  mkRegister (ev_shell_id sample_event) sample_identity (u "gnome-terminal") (u "/home/a") 0.
Definition start_state : EngineState := mkEngine (mkSnapshot 1 0 (NFloat (FFin false 1 3)) []) ∅ 0.
Definition register_op : engine_op := OpRegister sample_register (ev_capability sample_event) (Some 42).
Definition registered_state : EngineState := engine_step start_state register_op.
Definition event_of (op : Operation) (n : Z) : EventRequest :=
  mkEvent op (ev_shell_id sample_event) (ev_capability sample_event) sample_identity n None None None None.

Lemma start_state_ok : engine_ok start_state.
Proof. split; [by repeat constructor|done|by constructor|done|done]. Qed.

Lemma register_op_wf : op_wf register_op.
Proof. by vm_compute. Qed.

Lemma registered_state_ok : engine_ok registered_state.
Proof. apply engine_ok_step; [apply start_state_ok|apply register_op_wf]. Qed.

Lemma engine_invariant_witness :
  engine_ok (engine_run start_state [register_op; OpEvent sample_event]) /\
  es_dirty_generation (engine_run start_state [register_op; OpEvent sample_event]) = 2.
Proof.
  split; [|by vm_compute].
  apply (engine_invariant start_state [register_op; OpEvent sample_event]); [apply start_state_ok|].
  repeat constructor; by vm_compute.
Defined.

Lemma event_accepted_iff_witness :
  exists x s, admissible registered_state sample_event x s.
Proof.
  apply (proj1 (event_accepted_iff registered_state sample_event registered_state_ok sample_event_ok)).
  by vm_compute.
Defined.

Lemma event_effect_witness :
  exists st', apply_event registered_state sample_event = Ok st' /\
    es_dirty_generation st' = es_dirty_generation registered_state + 1.
Proof.
  exists (engine_step registered_state (OpEvent sample_event)). split; [by vm_compute|].
  apply (event_effect registered_state sample_event). by vm_compute.
Defined.

Lemma events_never_replayed_witness :
  is_ok (apply_event (engine_run (engine_step registered_state (OpEvent sample_event)) [register_op])
    (event_of OP_EXPLICIT_EXIT 7)) = false.
Proof.
  apply (events_never_replayed registered_state sample_event); [by vm_compute|done|left]. by vm_compute.
Defined.

Lemma accepted_event_authority_witness :
  last_registration start_state [register_op] (ev_shell_id sample_event) (ev_capability sample_event)
    (ev_identity sample_event).
Proof. apply accepted_event_authority; [done|]. by vm_compute. Defined.

Lemma explicit_exit_final_witness :
  is_ok (apply_event (engine_run (engine_step registered_state (OpEvent (event_of OP_EXPLICIT_EXIT 7)))
    [OpEvent sample_event]) (event_of OP_EXPLICIT_EXIT 9)) = false.
Proof.
  apply (explicit_exit_final registered_state (event_of OP_EXPLICIT_EXIT 7)); [by vm_compute|done| |done].
  by repeat constructor.
Defined.

(** A table with 256 shells, all of which have exited. *)
Definition full_state : EngineState :=
  mkEngine (mkSnapshot 1 0 (NInt 0)
    (map (fun n => mkShell (str_of_int (Z.of_nat n)) sample_identity (u "kitty") (u "/") 0 None
       (Some EXPLICIT_EXIT)) (seq 0 256))) ∅ 0.

Lemma full_table_rejects_new_shells_witness :
  is_ok (register_shell (engine_run full_state [OpEvent sample_event]) sample_register
    (ev_capability sample_event) (Some 42)) = false.
Proof.
  apply (full_table_rejects_new_shells full_state); [by vm_compute|].
  apply str_in_false. by vm_compute.
Defined.

End Witnesses.
