(* ===== verification/Codec.v ===== *)
(** * JSON bytes and digests

    [json.loads] of a [bytes] value guesses the encoding before decoding; state
    files are read that way.  [hashlib.sha256] names workspaces and attempts. *)
From S2P Require Import Prelude PyText PyVal PyFloat Json.

(** ** Encodings *)
Inductive encoding := Utf8 | Utf8Sig | Utf16 (big : bool) (bom : bool) | Utf32 (big : bool) (bom : bool).

Definition byte_at (n : nat) (b : pybytes) : Z := default 0 (b !! n).

(** [json.detect_encoding] *)
Definition detect_encoding (b : pybytes) : encoding :=
  if is_prefix [0; 0; 0xFE; 0xFF] b then Utf32 true true
  else if is_prefix [0xFF; 0xFE; 0; 0] b then Utf32 false true
  else if is_prefix [0xFE; 0xFF] b then Utf16 true true
  else if is_prefix [0xFF; 0xFE] b then Utf16 false true
  else if is_prefix [0xEF; 0xBB; 0xBF] b then Utf8Sig
  else if 4 <=? len b then
    if byte_at 0 b =? 0 then (if byte_at 1 b =? 0 then Utf32 true false else Utf16 true false)
    else if byte_at 1 b =? 0 then
      (if (byte_at 2 b =? 0) && (byte_at 3 b =? 0) then Utf32 false false else Utf16 false false)
    else Utf8
  else if len b =? 2 then
    if byte_at 0 b =? 0 then Utf16 true false
    else if byte_at 1 b =? 0 then Utf16 false false
    else Utf8
  else Utf8.

(** Code units, and code points with surrogates kept ([surrogatepass]). *)
Fixpoint units16 (big : bool) (b : pybytes) : result (list Z) :=
  match b with
  | [] => Ok []
  | x :: y :: rest =>
      let? us := units16 big rest in Ok ((if big then x * 256 + y else y * 256 + x) :: us)
  | [_] => Err UnicodeError
  end.

Fixpoint join_surrogates (us : list Z) : pystr :=
  match us with
  | h :: (l :: rest) as t =>
      if (0xD800 <=? h) && (h <=? 0xDBFF) && (0xDC00 <=? l) && (l <=? 0xDFFF)
      then (0x10000 + (h - 0xD800) * 1024 + (l - 0xDC00)) :: join_surrogates rest
      else h :: join_surrogates t
  | [h] => [h]
  | [] => []
  end.

Fixpoint units32 (big : bool) (b : pybytes) : result pystr :=
  match b with
  | [] => Ok []
  | w :: x :: y :: z :: rest =>
      let c := if big then ((w * 256 + x) * 256 + y) * 256 + z
               else ((z * 256 + y) * 256 + x) * 256 + w in
      raise_if (0x10FFFF <? c) UnicodeError ;?
      let? cs := units32 big rest in Ok (c :: cs)
  | _ => Err UnicodeError
  end.

(** [b.decode(encoding, "surrogatepass")] *)
Definition decode_bytes (e : encoding) (b : pybytes) : result pystr :=
  match e with
  | Utf8 => utf8_decode true b
  | Utf8Sig => utf8_decode true (drop 3 b)
  | Utf16 big bom => let? us := units16 big (if bom then drop 2 b else b) in Ok (join_surrogates us)
  | Utf32 big bom => units32 big (if bom then drop 4 b else b)
  end.

(** [json.loads(b)] *)
Definition json_loads_bytes (rec_limit : nat) (b : pybytes) : result pyval :=
  let? text := decode_bytes (detect_encoding b) b in json_loads plain_hook rec_limit text.

(** [s.encode("ascii")] *)
Definition encode_ascii (s : pystr) : result pybytes :=
  if forallb is_ascii s then Ok s else Err UnicodeError.

(** ** SHA-256 *)
Module Sha256.

Definition word (x : Z) : Z := x mod 2 ^ 32.
Definition rotr (n x : Z) : Z := Z.lor (Z.shiftr x n) (word (Z.shiftl x (32 - n))).

(** The constants are the first 32 bits of the fractional parts of the cube roots
    of the first 64 primes, and of the square roots of the first eight. *)
Definition is_prime (n : Z) : bool :=
  forallb (fun d => (d =? 0) || (d =? 1) || negb (n mod d =? 0)) (map Z.of_nat (seq 0 (Z.to_nat (Z.sqrt n + 1)))).

Definition primes : list Z := Eval cbv in List.filter is_prime (map Z.of_nat (seq 2 310)).

(** The greatest cube root [r + k], [k < 2 ^ bits], with [(r + k) ^ 3 <= x]. *)
Fixpoint cube_root (bits : nat) (x r : Z) : Z :=
  match bits with
  | O => r
  | S b => let r' := r + 2 ^ Z.of_nat b in cube_root b x (if r' * r' * r' <=? x then r' else r)
  end.

Definition K : list Z := Eval vm_compute in map (fun p => word (cube_root 36 (p * 2 ^ 96) 0)) primes.

Definition H0 : list Z := Eval vm_compute in map (fun p => word (Z.sqrt (p * 2 ^ 64))) (take 8 primes).

Fixpoint big_endian (n : nat) (x : Z) : pybytes :=
  match n with O => [] | S n' => big_endian n' (x / 256) ++ [x mod 256] end.

Definition padded (m : pybytes) : pybytes :=
  m ++ [128] ++ repeat 0 (Z.to_nat ((55 - len m) mod 64)) ++ big_endian 8 (8 * len m).

Fixpoint words (b : pybytes) : list Z :=
  match b with
  | w :: x :: y :: z :: rest => (((w * 256 + x) * 256 + y) * 256 + z) :: words rest
  | _ => []
  end.

Fixpoint blocks (fuel : nat) (ws : list Z) : list (list Z) :=
  match fuel, ws with
  | S fuel', _ :: _ => take 16 ws :: blocks fuel' (drop 16 ws)
  | _, _ => []
  end.

(** The message schedule, latest word first. *)
Fixpoint schedule (n : nat) (w : list Z) : list Z :=
  match n with
  | O => w
  | S n' =>
      let at_ i := default 0 (w !! i) in
      let x := at_ 14%nat in let y := at_ 1%nat in
      let s0 := Z.lxor (Z.lxor (rotr 7 x) (rotr 18 x)) (Z.shiftr x 3) in
      let s1 := Z.lxor (Z.lxor (rotr 17 y) (rotr 19 y)) (Z.shiftr y 10) in
      schedule n' (word (at_ 15%nat + s0 + at_ 6%nat + s1) :: w)
  end.

Definition round (h : list Z) (kw : Z * Z) : list Z :=
  match h with
  | [a; b; c; d; e; f; g; h] =>
      let s1 := Z.lxor (Z.lxor (rotr 6 e) (rotr 11 e)) (rotr 25 e) in
      let ch := Z.lxor (Z.land e f) (Z.land (2 ^ 32 - 1 - e) g) in
      let t1 := h + s1 + ch + kw.1 + kw.2 in
      let s0 := Z.lxor (Z.lxor (rotr 2 a) (rotr 13 a)) (rotr 22 a) in
      let maj := Z.lxor (Z.lxor (Z.land a b) (Z.land a c)) (Z.land b c) in
      [word (t1 + s0 + maj); a; b; c; word (d + t1); e; f; g]
  | _ => h
  end.

Definition compress (h block : list Z) : list Z :=
  let w := rev (schedule 48 (rev block)) in
  zip_with (fun x y => word (x + y)) h (foldl round h (zip K w)).

Definition digest (m : pybytes) : pybytes :=
  let ws := words (padded m) in
  flat_map (big_endian 4) (foldl compress H0 (blocks (length ws) ws)).

Definition hexdigest (m : pybytes) : pystr :=
  flat_map (fun b => [hex_digit (b / 16); hex_digit (b mod 16)]) (digest m).

End Sha256.
