(* ===== verification/Resume.v ===== *)
(** * Session resume ([adapters/resume.py])

    How a long-running tool is reconnected to its session: resume conventions as
    data, the test of a tool's help text, and the argument vector, every token of
    which must pass a literal guard.  The environment enters as two functions:
    [which] (the executable resolver) and [run_help] (the output of
    [<path> --help], or the exception of [subprocess.run]). *)
From S2P Require Import Prelude PyText.

(** [s.replace(needle, by)], for a non-empty needle. *)
Fixpoint replace_go (needle by_ : pystr) (skip : nat) (s : pystr) : pystr :=
  match s with
  | [] => []
  | c :: s' =>
      match skip with
      | S k => replace_go needle by_ k s'
      | O => if is_prefix needle s then by_ ++ replace_go needle by_ (length needle - 1) s'
             else c :: replace_go needle by_ 0 s'
      end
  end.
Definition str_replace (needle by_ s : pystr) : pystr := replace_go needle by_ 0 s.

(** ** The token guard *)
Definition _RESERVED_FLAG_LITERALS : list pystr := map u
  ["resume"; "--last"; "--continue"; "--resume"; "--session"; "--attach"; "--all"; "-c"; "-r"]%string.

Definition token_char (c : Z) : bool := is_alnum c || char_in c (u "_.+:=-").

(** [_SAFE_RESUME_TOKEN_RE.match(token)]: [$] also matches before a final newline. *)
Definition _SAFE_RESUME_TOKEN_RE (token : pystr) : bool :=
  prefix_match (seqs [at_start; Cls is_alnum; Star (Cls token_char); at_end]) token.

Definition _is_safe_token (token : pystr) : bool :=
  if bool_decide (token = []) then false
  else if str_in token _RESERVED_FLAG_LITERALS then true
  else if is_prefix (u "--") token && _SAFE_RESUME_TOKEN_RE token then true
  else _SAFE_RESUME_TOKEN_RE token.

(** ** Conventions *)
Record ResumeContract := mkContract {
  rc_name : pystr;
  help_signature : list pystr;
  rc_resume_argv : list pystr;
  with_session_id : option (list pystr);
}.

Definition exe_slot : pystr := u "{exe}".
Definition session_slot : pystr := u "{session_id}".

Definition _CONTRACTS : list ResumeContract :=
  [mkContract (u "continue-flag") [u "--continue"] [exe_slot; u "--continue"]
     (Some [exe_slot; u "--session"; session_slot]);
   mkContract (u "resume-subcommand") [u "resume"] [exe_slot; u "resume"; u "--last"]
     (Some [exe_slot; u "resume"; session_slot]);
   mkContract (u "resume-flag") [u "--resume"] [exe_slot; u "--resume"]
     (Some [exe_slot; u "--resume"; session_slot])].

Definition supports_session_id (c : ResumeContract) : bool :=
  match with_session_id c with Some _ => true | None => false end.

Definition has_slot (argv : list pystr) : bool := contains session_slot (join (u " ") argv).

(** [ResumeContract.build] *)
Definition build (c : ResumeContract) (executable : pystr) (session_id : option pystr)
  : result (list pystr) :=
  let template :=
    match session_id, with_session_id c with
    | Some s, Some t => if bool_decide (s = []) then rc_resume_argv c else t
    | _, _ => rc_resume_argv c
    end in
  let argv := map (str_replace exe_slot executable) template in
  let? argv :=
    if has_slot argv then
      match session_id with
      | None =>
          let argv := map (str_replace exe_slot executable) (rc_resume_argv c) in
          raise_if (has_slot argv)
            (ValueError (rc_name c ++ u " requires a session id but none was captured")) ;?
          Ok argv
      | Some s => Ok (map (str_replace session_slot s) argv)
      end
    else Ok argv in
  raise_if (negb (forallb _is_safe_token argv))
    (ValueError (rc_name c ++ u " resume argv has unsafe tokens")) ;?
  Ok argv.

Definition _NON_RESUME_EXECUTABLES : list pystr := map u
  ["bash"; "sh"; "dash"; "zsh"; "fish"; "ksh"; "vim"; "vi"; "nvim"; "nano"; "emacs"; "less"; "more";
   "cat"; "tail"; "head"; "ssh"; "mosh"; "telnet"; "sftp"; "scp"; "python"; "python3"; "ruby"; "perl";
   "node"; "php"; "lua"]%string.

Definition _EXECUTABLE_OVERRIDES : list (pystr * pystr) := [].

Inductive match_source := FromRegistry | FromProbe.

Record ResumeMatch := mkMatch {
  rm_executable : pystr;
  rm_contract : ResumeContract;
  rm_source : match_source;
}.

Definition _find_contract_by_name (name : pystr) : option ResumeContract :=
  find (fun c => str_eqb (rc_name c) name) _CONTRACTS.

(** ** Reading help text *)
Definition help_char (c : Z) : bool := is_lower c || is_digit c || (c =? 95) || (c =? 45).

Fixpoint take_while (p : Z -> bool) (s : pystr) : pystr :=
  match s with c :: s' => if p c then c :: take_while p s' else [] | [] => [] end.

(** [_WORD_RE.findall(text)]: the maximal runs of word characters. *)
Fixpoint help_words_go (acc s : pystr) : list pystr :=
  match s with
  | [] => match acc with [] => [] | _ => [rev acc] end
  | c :: s' =>
      if help_char c then help_words_go (c :: acc) s'
      else match acc with [] => help_words_go [] s' | _ => rev acc :: help_words_go [] s' end
  end.
Definition _WORD_RE (text : pystr) : list pystr := help_words_go [] text.

Definition _SESSION_CONTEXT_WORDS : list pystr := map u
  ["session"; "sessions"; "previous"; "last"; "conversation"; "history"]%string.

Section WithUnicode.
Context `{Unicode}.

(** The longest non-empty prefix of the run that ends at a word boundary: the run is
    given as the prefix read so far, reversed, and what follows it. *)
Fixpoint boundary_prefix (read rest : pystr) : option pystr :=
  match read with
  | [] => None
  | c :: read' =>
      if xorb (uc_word c) (match rest with d :: _ => uc_word d | [] => false end)
      then Some (rev read)
      else boundary_prefix read' (c :: rest)
  end.

(** A match of [_LISTED_COMMAND_RE] at the start of a line: its length and its group. *)
Definition listed_here (s : pystr) : option (nat * pystr) :=
  let blanks := take_while is_space s in
  let rest := drop (length blanks) s in
  match rest with
  | c :: _ =>
      if (2 <=? len blanks) && is_lower c then
        let run := take_while help_char rest in
        match boundary_prefix (rev run) (drop (length run) rest) with
        | Some g => Some (length blanks + length g, g)%nat
        | None => None
        end
      else None
  | [] => None
  end.

(** [_LISTED_COMMAND_RE.findall]: [line_start] tells whether [^] matches here, [skip] how much
    of the last match is left. *)
Fixpoint listed_go (line_start : bool) (skip : nat) (s : pystr) : list pystr :=
  match s with
  | [] => []
  | c :: s' =>
      match skip with
      | S k => listed_go (c =? 10) k s'
      | O =>
          match (if line_start then listed_here s else None) with
          | Some (n, g) => g :: listed_go (c =? 10) (n - 1) s'
          | None => listed_go (c =? 10) 0 s'
          end
      end
  end.
Definition _listed_commands (text : pystr) : list pystr := listed_go true 0 text.

Definition _help_mentions (text : pystr) (signature : list pystr) : bool :=
  let words := _WORD_RE text in
  let listed := _listed_commands text in
  forallb (fun sig =>
    let sig_l := str_lower sig in
    if is_prefix (u "--") sig_l then
      str_in sig_l words && existsb (fun w => str_in w _SESSION_CONTEXT_WORDS) words
    else str_in sig_l listed) signature.

(** ** Finding a plan *)
Definition probe_cache : Type := list ((pystr * pystr) * pystr).

Fixpoint cache_get (cache : probe_cache) (exe path : pystr) : option pystr :=
  match cache with
  | [] => None
  | ((e, p), text) :: rest =>
      if str_eqb e exe && str_eqb p path then Some text else cache_get rest exe path
  end.

Section Environment.
Context (which : pystr -> option pystr) (run_help : pystr -> result (pystr * pystr)).

Definition _probe_help_output (cache : probe_cache) (executable : pystr) : result (pystr * probe_cache) :=
  match which executable with
  | None => Ok ([], cache)
  | Some path =>
      match cache_get cache executable path with
      | Some text => Ok (text, cache)
      | None =>
          let? text :=
            match run_help path with
            | Ok (out, err) => Ok (str_lower (out ++ [10] ++ err))
            | Err e => if is_os_error e || bool_decide (e = SubprocessError) then Ok [] else Err e
            end in
          Ok (text, ((executable, path), text) :: cache)
      end
  end.

Definition find_resume_adapter (cache : probe_cache) (executable : pystr)
  : result (option ResumeMatch * probe_cache) :=
  if bool_decide (executable = []) || str_in executable _NON_RESUME_EXECUTABLES then Ok (None, cache)
  else
    match (kv ← find (fun kv => str_eqb kv.1 executable) _EXECUTABLE_OVERRIDES;
           _find_contract_by_name kv.2) with
    | Some contract => Ok (Some (mkMatch executable contract FromRegistry), cache)
    | None =>
        let? '(help_text, cache) := _probe_help_output cache executable in
        if bool_decide (help_text = []) then Ok (None, cache)
        else
          match find (fun c => _help_mentions help_text (help_signature c) &&
                               bool_decide (which executable <> None)) _CONTRACTS with
          | Some contract => Ok (Some (mkMatch executable contract FromProbe), cache)
          | None => Ok (None, cache)
          end
    end.

End Environment.
End WithUnicode.

Definition build_resume_argv (m : ResumeMatch) (session_id : option pystr) : result (list pystr) :=
  build (rm_contract m) (rm_executable m) session_id.
