(* ===== verification/ResumeProofs.v ===== *)
(** * Session resume: theorems

    The arguments a session is resumed with are literal tokens, built as the
    convention says; the cache of help texts changes no answer. *)
From S2P Require Import Prelude PyText Shlex Resume.

(** ** The token guard *)
Lemma star_cls_matches t p q : matches (Star (Cls t)) p q ->
  exists w, p.2 = w ++ q.2 /\ forallb t w = true.
Proof.
  intros H. remember (Star (Cls t)) as r eqn:Er. revert Er.
  induction H as [| | | | |a p0|a p0 p1 p2 H1 _ H2 IH|]; intros Er; simplify_eq.
  - by exists [].
  - inversion H1 as [? ? c rest Hc| | | | | | |]; simplify_eq.
    destruct (IH eq_refl) as (w & Hs & Hw). simpl in Hs. exists (c :: w). simpl. by rewrite Hs Hc.
Qed.

(** A token is a run of safe characters, perhaps with a final newline. *)
Definition token_of (w t : pystr) : Prop :=
  w <> [] /\ forallb token_char w = true /\ (t = w \/ t = w ++ [10]).

Lemma safe_re_shape t : _SAFE_RESUME_TOKEN_RE t = true -> exists w, token_of w t.
Proof.
  unfold _SAFE_RESUME_TOKEN_RE, prefix_match. intros H.
  destruct (ends _ (None, t)) as [|q l] eqn:E; [done|]. clear H.
  assert (Hm : q ∈ q :: l) by left. rewrite -E in Hm. apply ends_matches in Hm. clear E l.
  cbn [seqs foldr] in Hm.
  repeat match goal with
  | H : matches (Seq _ _) _ _ |- _ => inversion H; clear H; simplify_eq
  | H : matches (Look _) _ _ |- _ => inversion H; clear H; simplify_eq
  | H : matches Eps _ _ |- _ => inversion H; clear H; simplify_eq
  | H : matches (Cls _) _ _ |- _ => inversion H; clear H; simplify_eq
  | H : matches at_start _ _ |- _ => unfold at_start in H
  | H : matches at_end _ _ |- _ => unfold at_end in H
  end.
  match goal with H : matches (Star _) _ _ |- _ => apply star_cls_matches in H as (w & Hs & Hw) end.
  simpl in Hs. subst.
  cbn [snd]. exists (c :: w). split; [done|]. split.
  - simpl. rewrite Hw andb_true_r. unfold token_char. by rewrite H0.
  - destruct s0 as [|x [|]]; [left; by rewrite app_nil_r|right|done]. apply Z.eqb_eq in H1 as ->. done.
Qed.

Lemma reserved_safe t : str_in t _RESERVED_FLAG_LITERALS = true -> token_of t t.
Proof.
  intros H. apply str_in_spec in H. split; [|split; [|by left]].
  - intros ->. by apply str_in_spec in H.
  - assert (Hall : forallb (forallb token_char) _RESERVED_FLAG_LITERALS = true) by by vm_compute.
    rewrite forallb_forall in Hall. apply Hall. by apply list_elem_of_In.
Qed.

Lemma safe_token_shape t : _is_safe_token t = true -> exists w, token_of w t.
Proof.
  unfold _is_safe_token. destruct (bool_decide _); [done|].
  destruct (str_in t _RESERVED_FLAG_LITERALS) eqn:E; [intros _; exists t; by apply reserved_safe|].
  destruct (is_prefix _ _ && _SAFE_RESUME_TOKEN_RE t) eqn:E2; [|apply safe_re_shape].
  intros _. apply andb_true_iff in E2 as [_ E2]. by apply safe_re_shape.
Qed.

(** ** Splitting the command line *)
Definition strip_newline (t : pystr) : pystr :=
  match rev t with c :: r => if c =? 10 then rev r else t | [] => [] end.

Lemma token_char_plain c : token_char c = true -> plain_char c = true.
Proof.
  unfold token_char, is_alnum, is_alpha, is_upper, is_lower, is_digit, char_in, plain_char, lex_space, is_quote, u, SQ, DQ, BS.
  cbn. lia.
Qed.

Lemma token_plain w : forallb token_char w = true -> forallb plain_char w = true.
Proof.
  rewrite !forallb_forall. intros H c Hc. by apply token_char_plain, H.
Qed.

Lemma token_of_strip w t : token_of w t -> strip_newline t = w.
Proof.
  intros (Hne & Hw & [->| ->]); unfold strip_newline; [|by rewrite rev_app_distr /= rev_involutive].
  destruct (rev w) as [|c r] eqn:E; [by apply (f_equal (@rev Z)) in E; rewrite rev_involutive in E|].
  destruct (Z.eqb_spec c 10) as [->|]; [|done].
  assert (Hin : 10 ∈ w) by (apply list_elem_of_In, in_rev; rewrite E; by left).
  rewrite forallb_forall in Hw. apply list_elem_of_In, Hw in Hin. done.
Qed.

(** One token, then the end of the line or a space. *)
Lemma shlex_token w t : token_of w t -> lexes_to t w.
Proof.
  intros (Hne & Hw%token_plain & [->| ->]); [by apply lexes_plain|]. intros acc. split; [|intros s].
  - rewrite shlex_plain_start //. simpl. by rewrite rev_involutive.
  - rewrite -app_assoc shlex_plain_start //. simpl. by rewrite rev_involutive.
Qed.

Lemma shlex_tokens ts : Forall (fun t => exists w, token_of w t) ts ->
  shlex_split (join [32] ts) = Ok (map strip_newline ts).
Proof.
  intros Hts. unfold shlex_split. rewrite (shlex_join_lexes ts (map strip_newline ts)) //.
  induction Hts as [|t ts [w Hw] _ IH]; constructor; [|exact IH]. rewrite (token_of_strip w t Hw). by apply shlex_token.
Qed.

(** ** Substitution *)
Lemma replace_absent c needle by_ s : c ∉ s -> head needle = Some c -> str_replace needle by_ s = s.
Proof.
  unfold str_replace. destruct needle as [|c' needle]; [done|]. intros Hc [= ->].
  induction s as [|x s IH]; [done|]. apply not_elem_of_cons in Hc as [Hx Hs]. cbn [replace_go is_prefix].
  destruct (Z.eqb_spec c x); [done|]. simpl. by rewrite IH.
Qed.

Lemma contains_absent c needle s : c ∉ s -> head needle = Some c -> contains needle s = false.
Proof.
  intros Hc Hh. apply not_true_is_false. intros (a & b & ->)%contains_spec. apply Hc.
  destruct needle; [done|]. injection Hh as ->. rewrite !elem_of_app. right. left. left.
Qed.

Lemma elem_of_join c sep l : c ∈ join sep l -> c ∈ sep \/ exists x, x ∈ l /\ c ∈ x.
Proof.
  induction l as [|x l IH]; [by intros ?%not_elem_of_nil|]. destruct l as [|y l].
  - intros H. right. exists x. split; [left|done].
  - change (join sep (x :: y :: l)) with (x ++ sep ++ join sep (y :: l)). rewrite !elem_of_app.
    intros [H|[H|H]]; [right; exists x; split; [left|done]|by left|].
    destruct (IH H) as [|(z & Hz & Hc)]; [by left|right; exists z; split; [by right|done]].
Qed.

(** ** What a session is resumed with *)

(** The tokens after the executable. *)
Definition resume_tokens (c : ResumeContract) (session_id : option pystr) : list pystr :=
  match session_id with
  | Some ((_ :: _) as s) =>
      match with_session_id c with
      | Some t => map (fun part => if str_eqb part session_slot then s else part) (tail t)
      | None => tail (rc_resume_argv c)
      end
  | _ => tail (rc_resume_argv c)
  end.

(** The tokens that come from outside are literals. *)
Definition resume_guard (executable : pystr) (session_id : option pystr) : bool :=
  _is_safe_token executable &&
  match session_id with Some ((_ :: _) as s) => _is_safe_token s | _ => true end.

Lemma exe_replaced e : str_replace exe_slot e exe_slot = e.
Proof.
  change exe_slot with (map (fun x => x) [123; 101; 120; 101; 125]). unfold str_replace. cbn. apply app_nil_r.
Qed.

Lemma session_replaced s : str_replace session_slot s session_slot = s.
Proof.
  change session_slot with (map (fun x => x) [123; 115; 101; 115; 115; 105; 111; 110; 95; 105; 100; 125]).
  unfold str_replace. cbn. apply app_nil_r.
Qed.

Lemma no_slot e flags : 123 ∉ e -> Forall (fun f => 123 ∉ f) flags -> has_slot (e :: flags) = false.
Proof.
  intros He Hf. unfold has_slot. apply (contains_absent 123); [|done]. intros Hin.
  apply elem_of_join in Hin as [Hin|(x & Hx & Hin)].
  - apply list_elem_of_singleton in Hin. done.
  - apply elem_of_cons in Hx as [->|Hx]; [done|]. rewrite Forall_forall in Hf. by apply (Hf x).
Qed.

Lemma slot_last e f : has_slot [e; f; session_slot] = true.
Proof.
  unfold has_slot. apply contains_spec. exists (e ++ u " " ++ f ++ u " "), [].
  change (join (u " ") [e; f; session_slot]) with (e ++ u " " ++ f ++ u " " ++ session_slot).
  by rewrite !app_assoc (app_nil_r (A := Z)).
Qed.

Lemma flags_kept e flags : Forall (fun f => 123 ∉ f) flags -> map (str_replace exe_slot e) flags = flags.
Proof. induction 1 as [|f l Hx _ IH]; [done|]. cbn [map]. by rewrite (replace_absent 123 exe_slot e f) // IH. Qed.

(** [build] on a template with or without a session slot. *)
Lemma build_cwd c e flags so : 123 ∉ e -> Forall (fun f => 123 ∉ f) flags -> rc_resume_argv c = exe_slot :: flags ->
  match so with Some (_ :: _) => False | _ => True end ->
  build c e so = if forallb _is_safe_token (e :: flags) then Ok (e :: flags)
                 else Err (ValueError (rc_name c ++ u " resume argv has unsafe tokens")).
Proof.
  intros He Hf Ht Hs. unfold build.
  assert (match so, with_session_id c with
    | Some s, Some t => if bool_decide (s = []) then rc_resume_argv c else t
    | _, _ => rc_resume_argv c end = exe_slot :: flags) as ->.
  { rewrite -Ht. destruct so as [[|]|]; [|done|done]. by destruct (with_session_id c). }
  cbn [map]. rewrite exe_replaced.
  rewrite flags_kept //. rewrite no_slot //. cbn [rbind]. by destruct (forallb _is_safe_token (e :: flags)).
Qed.

Lemma build_session c e f s : 123 ∉ e -> 123 ∉ f -> with_session_id c = Some [exe_slot; f; session_slot] -> s <> [] ->
  build c e (Some s) = if forallb _is_safe_token [e; f; s] then Ok [e; f; s]
                       else Err (ValueError (rc_name c ++ u " resume argv has unsafe tokens")).
Proof.
  intros He Hf Ht Hs. unfold build. rewrite Ht bool_decide_eq_false_2 //.
  assert (map (str_replace exe_slot e) [exe_slot; f; session_slot] = [e; f; session_slot]) as ->.
  { cbn [map]. rewrite exe_replaced (replace_absent 123 exe_slot e f) //. }
  rewrite slot_last. cbn [map rbind].
  rewrite (replace_absent 123 session_slot s e) // (replace_absent 123 session_slot s f) // session_replaced.
  by destruct (forallb _is_safe_token [e; f; s]).
Qed.

(** ** The cache of help texts *)
Section Cache.
Context `{Unicode} (which : pystr -> option pystr) (run_help : pystr -> result (pystr * pystr)).

(** What the probe of a path answers. *)
Definition help_text_of (path : pystr) : result pystr :=
  match run_help path with
  | Ok (out, err) => Ok (str_lower (out ++ [10] ++ err))
  | Err e => if is_os_error e || bool_decide (e = SubprocessError) then Ok [] else Err e
  end.

Definition cache_sound (cache : probe_cache) : Prop :=
  forall exe path text, cache_get cache exe path = Some text -> help_text_of path = Ok text.

Lemma cache_sound_nil : cache_sound [].
Proof. done. Qed.

Lemma cache_sound_cons cache exe path text : cache_sound cache -> help_text_of path = Ok text ->
  cache_sound (((exe, path), text) :: cache).
Proof.
  intros Hc Ht exe' path' text'. cbn [cache_get].
  destruct (str_eqb exe exe' && str_eqb path path') eqn:E; [|by apply Hc].
  apply andb_true_iff in E as [_ ->%str_eqb_eq]. by intros [= <-].
Qed.

(** Probing is the uncached probe, and keeps the cache sound. *)
Lemma probe_cached cache exe : cache_sound cache ->
  match which exe with
  | None => _probe_help_output which run_help cache exe = Ok ([], cache)
  | Some path =>
      match help_text_of path with
      | Ok text => exists cache', _probe_help_output which run_help cache exe = Ok (text, cache') /\ cache_sound cache'
      | Err e => _probe_help_output which run_help cache exe = Err e
      end
  end.
Proof.
  intros Hc. unfold _probe_help_output. destruct (which exe) as [path|]; [|done].
  destruct (cache_get cache exe path) as [text|] eqn:E.
  - rewrite (Hc _ _ _ E). by exists cache.
  - fold (help_text_of path). destruct (help_text_of path) as [text|e] eqn:Ht; [|done].
    eexists. split; [reflexivity|]. by apply cache_sound_cons.
Qed.

End Cache.

(** ** Claims *)

(** A command line that resumes a session splits into exactly its tokens, each a
    non-empty run of letters, digits and [_.+:=-]: no quoting, expansion,
    redirection or second command can be hidden in the executable's name or in
    the session identifier.  (A token that ends in a newline passes the guard
    too; the split drops that newline.) *)
Theorem resume_argv_literal m session_id argv : build_resume_argv m session_id = Ok argv ->
  exists tokens, shlex_split (join (u " ") argv) = Ok tokens /\ map strip_newline argv = tokens /\
    length tokens = length argv /\
    Forall (fun t => t <> [] /\ forallb token_char t = true) tokens.
Proof.
  unfold build_resume_argv, build. intros Hb. r_inv.
  match goal with Hs : forallb _is_safe_token _ = true |- _ => rename Hs into Hsafe end.
  assert (Hts : Forall (fun t => exists w, token_of w t) argv).
  { apply Forall_forall. intros t Ht%list_elem_of_In. rewrite forallb_forall in Hsafe.
    by apply safe_token_shape, Hsafe. }
  exists (map strip_newline argv). split; [exact (shlex_tokens argv Hts)|]. split; [done|].
  split; [apply length_map|]. apply Forall_map. eapply Forall_impl; [exact Hts|].
  intros t [w Hw]. simpl. rewrite (token_of_strip w t Hw). by destruct Hw as (? & ? & _).
Qed.

(** What a session is resumed with: for every known convention, the executable
    followed by the convention's own tokens with the session identifier in its
    place, and a [ValueError] exactly if the executable or the identifier is
    not a literal token. *)
Theorem build_by_convention c executable session_id : c ∈ _CONTRACTS -> 123 ∉ executable ->
  build c executable session_id =
    if resume_guard executable session_id then Ok (executable :: resume_tokens c session_id)
    else Err (ValueError (rc_name c ++ u " resume argv has unsafe tokens")).
Proof.
  intros Hc He. assert (Hb : forall f, str_in f _RESERVED_FLAG_LITERALS = true -> 123 ∉ f /\ _is_safe_token f = true).
  { intros f Hf. destruct (reserved_safe f Hf) as (Hne & Ht & _). split.
    - intros Hin. rewrite forallb_forall in Ht. apply list_elem_of_In, Ht in Hin. done.
    - unfold _is_safe_token. rewrite bool_decide_eq_false_2 // Hf //. }
  assert (Hshape : exists f flags, rc_resume_argv c = exe_slot :: flags /\
    with_session_id c = Some [exe_slot; f; session_slot] /\ f <> session_slot /\
    Forall (fun f => str_in f _RESERVED_FLAG_LITERALS = true) (f :: flags)).
  { unfold _CONTRACTS in Hc. rewrite !elem_of_cons elem_of_nil in Hc.
    destruct Hc as [->|[->|[->|[]]]]; eexists _, _; (split; [reflexivity|split; [reflexivity|split; [done|by repeat constructor]]]). }
  destruct Hshape as (f & flags & Hargv & Hsession & Hslot & [Hf Hflags]%Forall_cons).
  assert (Hbrace : Forall (fun f => 123 ∉ f) flags) by (eapply Forall_impl; [exact Hflags|intros x Hx; by apply Hb]).
  assert (Hsafe : forallb _is_safe_token flags = true).
  { apply forallb_forall. intros x Hx%list_elem_of_In. rewrite Forall_forall in Hflags. by apply Hb, Hflags. }
  destruct (Hb f Hf) as [Hfb Hfs]. unfold resume_guard, resume_tokens.
  destruct session_id as [[|x s]|].
  - rewrite (build_cwd c executable flags) // Hargv. cbn [forallb tail]. by rewrite Hsafe !andb_true_r.
  - rewrite (build_session c executable f) // Hsession. cbn [tail map forallb].
    rewrite (proj2 (str_eqb_neq f session_slot) Hslot) str_eqb_refl Hfs. cbn [andb]. by rewrite andb_true_r.
  - rewrite (build_cwd c executable flags) // Hargv. cbn [forallb tail]. by rewrite Hsafe !andb_true_r.
Qed.

(** The cache of help texts changes no answer: with a cache filled by earlier
    probes, the resume plan found is the one found without a cache, an error is
    the same error, and the cache stays right. *)
Theorem find_resume_cached `{Unicode} which run_help cache executable : cache_sound run_help cache ->
  match find_resume_adapter which run_help [] executable with
  | Ok (m, _) => exists cache', find_resume_adapter which run_help cache executable = Ok (m, cache') /\
                                cache_sound run_help cache'
  | Err e => find_resume_adapter which run_help cache executable = Err e
  end.
Proof.
  intros Hc. unfold find_resume_adapter. destruct (_ || _); [by exists cache|]. cbn [find].
  pose proof (probe_cached which run_help [] executable (cache_sound_nil run_help)) as H0.
  pose proof (probe_cached which run_help cache executable Hc) as H1.
  destruct (which executable) as [path|] eqn:Hw.
  - destruct (help_text_of run_help path) as [text|e]; [|by rewrite H0 H1].
    destruct H0 as (c0 & -> & _), H1 as (c1 & -> & Hs). simpl. destruct (bool_decide (text = [])); [by exists c1|].
    match goal with |- context [match ?x with Some _ => _ | None => _ end] => destruct x end; by exists c1.
  - rewrite H0 H1. simpl. by exists cache.
Qed.

(** ** Witnesses *)
Section Witnesses.
#[local] Existing Instance ascii_unicode.

Definition sample_match : ResumeMatch :=
  mkMatch (u "codex") (mkContract (u "resume-subcommand") [u "resume"] [exe_slot; u "resume"; u "--last"]
     (Some [exe_slot; u "resume"; session_slot])) FromProbe.

Lemma resume_argv_literal_witness :
  exists tokens, shlex_split (u "codex resume 0193-ab") = Ok tokens /\
    Forall (fun t => t <> [] /\ forallb token_char t = true) tokens.
Proof.
  destruct (resume_argv_literal sample_match (Some (u "0193-ab")) [u "codex"; u "resume"; u "0193-ab"])
    as (tokens & H1 & _ & _ & H2); [by vm_compute|].
  exists tokens. by split.
Defined.

Lemma build_by_convention_witness :
  build (rm_contract sample_match) (u "codex") (Some (u "a;b")) =
    Err (ValueError (u "resume-subcommand resume argv has unsafe tokens")) /\
  build (rm_contract sample_match) (u "codex") None = Ok [u "codex"; u "resume"; u "--last"].
Proof.
  assert (Hc : rm_contract sample_match ∈ _CONTRACTS) by (right; left).
  assert (He : 123 ∉ u "codex") by (apply not_elem_of_cons; split; [done|]; by apply (bool_decide_unpack _)).
  split; [rewrite (build_by_convention _ _ (Some (u "a;b")) Hc He)|rewrite (build_by_convention _ _ None Hc He)];
    by vm_compute.
Defined.

Definition sample_which (name : pystr) : option pystr := Some (u "/usr/bin/" ++ name).
Definition sample_help (path : pystr) : result (pystr * pystr) :=
  Ok (u "Usage: x --continue  continue the last session", []).

Lemma find_resume_cached_witness :
  exists cache', find_resume_adapter sample_which sample_help
      [((u "pi", u "/usr/bin/pi"), u "usage: x --continue  continue the last session" ++ [10])] (u "pi") =
    Ok (Some (mkMatch (u "pi") (mkContract (u "continue-flag") [u "--continue"] [exe_slot; u "--continue"]
     (Some [exe_slot; u "--session"; session_slot])) FromProbe), cache') /\ cache_sound sample_help cache'.
Proof.
  assert (Hc : cache_sound sample_help
    [((u "pi", u "/usr/bin/pi"), u "usage: x --continue  continue the last session" ++ [10])]).
  { apply cache_sound_cons; [apply cache_sound_nil|]. by vm_compute. }
  pose proof (find_resume_cached sample_which sample_help _ (u "pi") Hc) as H.
  assert (exists c0, find_resume_adapter sample_which sample_help [] (u "pi") =
    Ok (Some (mkMatch (u "pi") (mkContract (u "continue-flag") [u "--continue"] [exe_slot; u "--continue"]
     (Some [exe_slot; u "--session"; session_slot])) FromProbe), c0)) as [c0 E] by (eexists; vm_compute; reflexivity).
  rewrite E in H. exact H.
Defined.

End Witnesses.
