(* ===== verification/Recovery.v ===== *)
(** * Recovery ([recovery.py], [adapters/base.py])

    Which shells of a snapshot are recoverable, where and how they restart, and
    the launch plan of a restore attempt.  The environment a plan depends on
    (file system, executables, session stores) is the record [World]; a terminal
    is the record [TerminalAdapter] of its operations. *)
From S2P Require Import Prelude PyText PyVal PyFloat Json Codec Model Shlex Classifier Protocol Resume.

(** ** The environment *)
Record SessionMatch := mkSession { sm_session_id : pystr; sm_summary : pystr }.

Record World := mkWorld {
  w_lstat : posix_path -> result Z;                     (* [path.lstat().st_mode] *)
  w_access : posix_path -> bool;                        (* [os.access(path, R_OK | X_OK)] *)
  w_which : pystr -> option pystr;                      (* [shutil.which] *)
  w_help : pystr -> result (pystr * pystr);             (* [<path> --help] *)
  w_active_session : pystr -> result (option pystr);    (* [find_active_session_id] *)
  w_sessions : pystr -> result (list SessionMatch);     (* [find_sessions_for_cwd] *)
}.

(** ** Terminal adapters *)
Record LaunchItem := mkLaunch {
  li_item_id : pystr;
  li_cwd : posix_path;
  approved_command : option pystr;
}.

Record LaunchAction := mkAction {
  item_ids : list pystr;
  argv : list pystr;
  act_level : RestorationLevel;
  warnings : list pystr;
}.

Record TerminalAdapter := mkAdapter {
  ad_name : pystr;
  ad_detect : result bool;
  ad_plan : list LaunchItem -> result (list LaunchAction);
  ad_execute : list LaunchAction -> pystr -> result (list Outcome);
}.

(** What the service relies on: a plan mentions every item once, an execution
    reports every item of its actions once. *)
Class AdapterLaws (a : TerminalAdapter) : Prop := {
  plan_covers : forall items actions, ad_plan a items = Ok actions ->
    (actions ≫= item_ids) ≡ₚ map li_item_id items;
  execute_covers : forall actions attempt outs, ad_execute a actions attempt = Ok outs ->
    map out_item_id outs ≡ₚ actions ≫= item_ids;
}.

(** ** Process status, as [processes.py] reports it *)
Inductive ProcessStatus := ALIVE | DEAD | UNKNOWN.
Record ProcessProbe := mkProbe { probe_status : ProcessStatus; probe_diagnostic : option pystr }.

(** ** Reasons *)
Inductive RecoveryReason :=
| PREVIOUS_BOOT | SAME_BOOT_DEAD | REASON_EXPLICIT_EXIT | STILL_ALIVE | PROCESS_UNKNOWN.

#[export] Instance RecoveryReason_enum : StrEnum RecoveryReason := {|
  enum_members := [PREVIOUS_BOOT; SAME_BOOT_DEAD; REASON_EXPLICIT_EXIT; STILL_ALIVE; PROCESS_UNKNOWN];
  enum_value x := match x with
    | PREVIOUS_BOOT => u "previous_boot" | SAME_BOOT_DEAD => u "same_boot_dead"
    | REASON_EXPLICIT_EXIT => u "explicit_exit" | STILL_ALIVE => u "still_alive"
    | PROCESS_UNKNOWN => u "process_unknown" end
|}.
#[export] Instance RecoveryReason_eq_dec : EqDecision RecoveryReason.
Proof. solve_decision. Defined.
#[export] Instance RecoveryReason_laws : StrEnumLaws RecoveryReason.
Proof. enum_laws. Qed.

Definition _SAFE_RECOVERY_REASONS (reason : RecoveryReason) : pystr :=
  match reason with
  | PREVIOUS_BOOT => u "previous_boot"
  | SAME_BOOT_DEAD => u "same_boot_dead"
  | REASON_EXPLICIT_EXIT => u "explicit_exit"
  | STILL_ALIVE => u "still_alive"
  | PROCESS_UNKNOWN => u "process_unknown"
  end.

Definition safe_recovery_reason (reason : RecoveryReason) : result SafeExternalText :=
  catalog (_SAFE_RECOVERY_REASONS reason).

(** ** Workspaces *)
Record RecoveryItem := mkItem {
  item_id : pystr;
  item_shell : ShellRecord;
  item_reason : RecoveryReason;
  item_level : RestorationLevel;
  item_directory : posix_path;
  item_warning : option pystr;
  item_replay_display : option pystr;
  item_replay_eligible : bool;
}.

Record RecoveryWorkspace := mkWorkspace {
  ws_id : pystr;
  ws_items : list RecoveryItem;
  ws_diagnostics : list pystr;
}.

Definition canonical_options : dump_options := {| ensure_ascii := true; Json.allow_nan := true |}.

Definition _canonical_json (value : pyval) : result pybytes :=
  let? text := json_dumps canonical_options (sorted_keys value) in encode_ascii text.

(** [hashlib.sha256(...).hexdigest()[:24]] of the canonical text *)
Definition short_digest (value : pyval) : result pystr :=
  let? raw := _canonical_json value in Ok (take 24 (Sha256.hexdigest raw)).

(** ** Directories *)
Section Directories.
Context (w : World).

(** [stat.S_ISDIR(mode) and not stat.S_ISLNK(mode)] *)
Definition is_directory_mode (mode : Z) : bool :=
  (Z.land mode 0xF000 =? 0x4000) && negb (Z.land mode 0xF000 =? 0xA000).

Definition _usable_directory (path : posix_path) : result bool :=
  match w_lstat w path with
  | Err e => if is_os_error e then Ok false else Err e
  | Ok mode => Ok (is_directory_mode mode && w_access w path)
  end.

Definition missing_text (recorded candidate : posix_path) : pystr :=
  path_str recorded ++ u " missing; using " ++ path_str candidate.

(** The climb from [candidate] to the root; a path has as many proper ancestors
    as components, so [S (length (path_tail candidate))] is fuel enough. *)
Fixpoint climb (fuel : nat) (recorded home candidate : posix_path)
  : result (posix_path * option pystr) :=
  match fuel with
  | O => Err AssertionError
  | S fuel' =>
      let? usable := _usable_directory candidate in
      if usable then
        Ok (candidate, if bool_decide (candidate = recorded) then None
                       else Some (missing_text recorded candidate))
      else
        let parent := path_parent candidate in
        if bool_decide (parent = candidate) then
          let? home_usable := _usable_directory home in
          raise_if (negb home_usable) (ValueError (u "home directory is not usable")) ;?
          Ok (home, Some (missing_text recorded home))
        else climb fuel' recorded home parent
  end.

Definition resolve_directory (recorded home : posix_path) : result (posix_path * option pystr) :=
  climb (S (length (path_tail recorded))) recorded home recorded.

(** ** Reconciliation *)
Definition replay_eligible (shell : ShellRecord) : bool :=
  str_in (adapter shell) SUPPORTED_ADAPTERS &&
  match command shell with
  | Some c => active c && bool_decide (disposition c = REPLAYABLE) && bool_decide (executable c <> None)
  | None => false
  end.

Definition restoration_level (shell : ShellRecord) : RestorationLevel :=
  if negb (str_in (adapter shell) SUPPORTED_ADAPTERS) then UNAVAILABLE
  else if replay_eligible shell then RECONSTRUCTED else PARTIAL.

(** One item of a workspace: where and how the shell would restart. *)
Definition recovery_item (home : posix_path) (id : pystr) (shell : ShellRecord) (reason : RecoveryReason)
  : result RecoveryItem :=
  let? '(directory, warning) := resolve_directory (parse_path (cwd shell)) home in
  Ok (mkItem id shell reason (restoration_level shell) directory warning
        (display <$> command shell) (replay_eligible shell)).

Definition shells_by_id (shs : list ShellRecord) : list ShellRecord :=
  sort_by (fun a b => str_leb (shell_id a) (shell_id b)) shs.

(** What becomes of one shell: nothing, a candidate, or a diagnostic. *)
Definition triage (current_boot_id : pystr) (probe : ProcessIdentity -> ProcessProbe) (shell : ShellRecord)
  : list (ShellRecord * RecoveryReason) * list pystr :=
  if bool_decide (enum_value <$> termination shell = Some (enum_value REASON_EXPLICIT_EXIT)) then ([], [])
  else if negb (str_eqb (boot_id (identity shell)) current_boot_id) then ([(shell, PREVIOUS_BOOT)], [])
  else
    match probe_status (probe (identity shell)) with
    | DEAD => ([(shell, SAME_BOOT_DEAD)], [])
    | UNKNOWN => ([], [u "process status unknown for shell " ++ shell_id shell ++ u "; not recoverable"])
    | ALIVE => ([], [])
    end.

Definition candidate_val (c : ShellRecord * RecoveryReason) : pyval :=
  VDict [(u "shell_id", VStr (shell_id c.1)); (u "boot_id", VStr (boot_id (identity c.1)));
         (u "pid", VInt (pid (identity c.1))); (u "start_time", VInt (start_time (identity c.1)));
         (u "reason", VStr (enum_value c.2))].

Definition derive_workspace_id (snapshot : Snapshot) (candidates : list (ShellRecord * RecoveryReason))
  : result pystr :=
  short_digest (VDict [(u "generation", VInt (generation snapshot));
                       (u "items", VList (map candidate_val candidates))]).

Definition reconcile (snapshot : Snapshot) (current_boot_id : pystr)
    (probe : ProcessIdentity -> ProcessProbe) (home : posix_path) : result (option RecoveryWorkspace) :=
  let triaged := map (triage current_boot_id probe) (shells_by_id (shells snapshot)) in
  let candidates := triaged ≫= fst in
  let diagnostics := triaged ≫= snd in
  match candidates, diagnostics with
  | [], [] => Ok None
  | _, _ =>
      let? workspace_id := derive_workspace_id snapshot candidates in
      let? items := rmap (fun c => recovery_item home (shell_id c.1) c.1 c.2) candidates in
      Ok (Some (mkWorkspace workspace_id items diagnostics))
  end.

Definition record_from_workspace (workspace : RecoveryWorkspace) (snapshot : Snapshot)
  : result RecoveryRecord :=
  let? records := rmap (fun i => new_RecoveryItemRecord (item_id i) (item_shell i) (enum_value (item_reason i)))
                    (ws_items workspace) in
  new_RecoveryRecord Model.SCHEMA_VERSION (ws_id workspace) (generation snapshot) (captured_at snapshot)
    records [] [].

(** [RecoveryReason(stored.reason)], with the name an older version used. *)
Definition stored_reason (reason : pystr) : RecoveryReason :=
  match enum_of_value reason with
  | Some r => r
  | None => if str_eqb reason (u "prior_boot") then PREVIOUS_BOOT else PROCESS_UNKNOWN
  end.

Definition workspace_from_record (record : RecoveryRecord) (home : posix_path) : result RecoveryWorkspace :=
  let? built := rmap (fun i => recovery_item home (rec_item_id i) (rec_shell i) (stored_reason (rec_reason i)))
                  (sort_by (fun a b => str_leb (rec_item_id a) (rec_item_id b)) (items record)) in
  Ok (mkWorkspace (workspace_id record) built []).

End Directories.

(** ** Attempts *)

(** [sorted(frozenset(ids))] *)
Definition sorted_set (ids : list pystr) : list pystr := sorted_strs (remove_dups ids).

Definition derive_attempt_id (workspace : pystr) (selected approved : list pystr)
    (adapter : TerminalAdapter) (source_attempt_id : option pystr) : result pystr :=
  short_digest (VDict ([(u "workspace_id", VStr workspace);
                        (u "selected_item_ids", str_list_val (sorted_strs selected));
                        (u "approved_item_ids", str_list_val (sorted_set approved));
                        (u "adapter", VStr (ad_name adapter))] ++
                       match source_attempt_id with
                       | Some s => [(u "source_attempt_id", VStr s)]
                       | None => []
                       end)).

(** [except ValueError: None] *)
Definition or_none_on_value_error {A} (r : result A) : result (option A) :=
  match r with
  | Ok a => Ok (Some a)
  | Err e => if is_value_error e then Ok None else Err e
  end.

(** [except (OSError, ValueError, KeyError)] *)
Definition is_store_error (e : exn) : bool :=
  is_os_error e || is_value_error e || bool_decide (e = KeyError).

Section Attempts.
Context `{Unicode} (w : World).

(** The session to resume: the live one, else the latest of the directory. *)
Definition resume_session (executable : pystr) (dir : posix_path) : result (option pystr) :=
  let found :=
    let? live := w_active_session w executable in
    match live with
    | Some s => Ok (Some s)
    | None => let? matches := w_sessions w (path_str dir) in Ok (sm_session_id <$> head matches)
    end in
  match found with
  | Ok s => Ok s
  | Err e => if is_store_error e then Ok None else Err e
  end.

(** What one approved command becomes: [None] if nothing is to run; [Some None]
    if its executable is missing. *)
Definition approve_command (cache : probe_cache) (shell : ShellRecord) (command : CommandRecord)
  : result (option (option pystr) * probe_cache) :=
  let captured := match executable command with
                  | Some e => if bool_decide (e = []) then display command else e
                  | None => display command
                  end in
  let? executable_name :=
    if bool_decide (captured = []) then Ok None
    else or_none_on_value_error
           (let? p := _parse_one_simple_command captured None in Ok (pc_executable p)) in
  let? '(resume_adapter, cache) :=
    match executable_name with
    | Some name => if bool_decide (name = []) then Ok (None, cache)
                   else find_resume_adapter (w_which w) (w_help w) cache name
    | None => Ok (None, cache)
    end in
  match resume_adapter with
  | Some m =>
      let? session_id := resume_session (rm_executable m) (parse_path (cwd shell)) in
      let? resume_argv := build_resume_argv m session_id in
      match head resume_argv with
      | Some exe => if negb (bool_decide (exe = [])) && bool_decide (w_which w exe = None)
                    then Ok (Some None, cache)
                    else Ok (Some (Some (join (u " ") resume_argv)), cache)
      | None => Ok (Some (Some (join (u " ") resume_argv)), cache)
      end
  | None =>
      match bool_decide (disposition command = REPLAYABLE), executable command with
      | true, Some text =>
          let? parsed := or_none_on_value_error (_parse_one_simple_command text None) in
          match parsed with
          | Some p => if bool_decide (pc_executable p = []) || bool_decide (w_which w (pc_executable p) = None)
                      then Ok (Some None, cache)
                      else Ok (Some (Some text), cache)
          | None => Ok (Some None, cache)
          end
      | _, _ => Ok (None, cache)
      end
  end.

Record LaunchPlan := mkPlan {
  launches : list LaunchItem;
  missing_executable : list pystr;
  unsupported_adapter : list pystr;
}.

(** The body of the loop over the selected items. *)
Definition plan_item (record : RecoveryRecord) (approved : list pystr) (home : posix_path)
    (cache : probe_cache) (plan : LaunchPlan) (id : pystr) : result (LaunchPlan * probe_cache) :=
  let? stored := result_of_option
    (find (fun i => str_eqb (rec_item_id i) id) (rev (items record))) KeyError in
  let shell := rec_shell stored in
  if negb (str_in (adapter shell) SUPPORTED_ADAPTERS) then
    Ok (mkPlan (launches plan) (missing_executable plan) (unsupported_adapter plan ++ [id]), cache)
  else
    let? '(outcome, cache) :=
      match command shell with
      | Some c => if str_in id approved && active c then approve_command cache shell c else Ok (None, cache)
      | None => Ok (None, cache)
      end in
    let? '(directory, _) := resolve_directory w (parse_path (cwd shell)) home in
    Ok (mkPlan (launches plan ++ [mkLaunch id directory (match outcome with Some o => o | None => None end)])
          (match outcome with Some None => missing_executable plan ++ [id] | _ => missing_executable plan end)
          (unsupported_adapter plan), cache).

Fixpoint plan_items (record : RecoveryRecord) (approved : list pystr) (home : posix_path)
    (cache : probe_cache) (plan : LaunchPlan) (selected : list pystr) : result (LaunchPlan * probe_cache) :=
  match selected with
  | [] => Ok (plan, cache)
  | id :: rest =>
      let? '(plan, cache) := plan_item record approved home cache plan id in
      plan_items record approved home cache plan rest
  end.

Definition warn_missing (missing : list pystr) (action : LaunchAction) : LaunchAction :=
  if existsb (fun i => str_in i missing) (item_ids action)
  then mkAction (item_ids action) (argv action) (act_level action)
         (warnings action ++ [u "executable unavailable"])
  else action.

Definition build_attempt (record : RecoveryRecord) (selected approved : list pystr)
    (adapter : TerminalAdapter) (source_attempt_id : option pystr) (home : posix_path)
    (cache : probe_cache) : result ((RestoreAttempt * list LaunchAction) * probe_cache) :=
  let? '(plan, cache) := plan_items record approved home cache (mkPlan [] [] []) selected in
  let? attempt_id := derive_attempt_id (workspace_id record) selected approved adapter source_attempt_id in
  let? attempt := new_RestoreAttempt attempt_id (workspace_id record) selected (sorted_set approved) [] in
  let? planned := ad_plan adapter (launches plan) in
  let actions := planned ++
    map (fun id => mkAction [id] [] UNAVAILABLE [u "unsupported adapter"])
      (filter (fun id => str_in id (unsupported_adapter plan) = true) selected) in
  let actions := match missing_executable plan with
                 | [] => actions
                 | missing => map (warn_missing missing) actions
                 end in
  Ok ((attempt, actions), cache).

End Attempts.
