(* ===== verification/Store.v ===== *)
(** * The snapshot store ([store.py])

    State files in one directory: checkpoints of the snapshot, the unresolved
    recovery record, tombstones of finished workspaces.  The directory is a map
    from names to files; every system call may fail with an error the kernel
    chooses, a [write] may be short, and the ghost [s_history] keeps every
    directory content that a crash could leave behind. *)
From S2P Require Import Prelude PyText PyVal PyFloat Json Codec Model.

(** ** The directory *)
Inductive file_kind := Regular | Symlink | Special.
#[export] Instance file_kind_eq_dec : EqDecision file_kind.
Proof. solve_decision. Defined.

Record FileEntry := mkFile {
  f_kind : file_kind;
  f_uid : Z;
  f_mode : Z;
  f_data : pybytes;
}.
Definition directory : Type := gmap pystr FileEntry.

(** An error of a system call that is not about the name looked up. *)
Inductive fault := DeviceError | PermissionDenied | NotADirectory.
Definition fault_error (f : fault) : exn :=
  match f with DeviceError => OSError EIO | PermissionDenied => OSError EACCES | NotADirectory => OSError ENOTDIR end.

Record StoreState := mkStore {
  s_dir : directory;
  s_uid : Z;                      (* [os.getuid()] *)
  s_closed : bool;
  s_diagnostics : list pystr;
  s_faults : list (option fault); (* what the next system calls answer; none once exhausted *)
  s_counts : list nat;            (* how many bytes the next writes take; all once exhausted *)
  s_tokens : list pystr;          (* what [secrets.token_hex] returns *)
  s_history : list directory;     (* ghost: the contents so far, latest first *)
}.

(** ** The monad *)
Definition store (A : Type) : Type := StoreState -> result A * StoreState.

Definition sret {A} (a : A) : store A := fun s => (Ok a, s).
Definition sraise {A} (e : exn) : store A := fun s => (Err e, s).
Definition sbind {A B} (m : store A) (f : A -> store B) : store B :=
  fun s => match m s with (Ok a, s') => f a s' | (Err e, s') => (Err e, s') end.
Definition slift {A} (r : result A) : store A := fun s => (r, s).
Definition scatch {A} (m : store A) (h : exn -> store A) : store A :=
  fun s => match m s with (Ok a, s') => (Ok a, s') | (Err e, s') => h e s' end.

Declare Scope store_scope.
Delimit Scope store_scope with store.
Notation "'let!' x := m 'in' k" := (sbind m (fun x => k))
  (at level 10, x name, m at level 100, k at level 200) : store_scope.
Notation "m ;! k" := (sbind m (fun _ => k))
  (at level 199, k at level 200, right associativity) : store_scope.
#[local] Open Scope store_scope.

Definition sguard (b : bool) (e : exn) : store unit := slift (raise_if b e).

Definition with_dir (d : directory) (s : StoreState) : StoreState :=
  mkStore d (s_uid s) (s_closed s) (s_diagnostics s) (s_faults s) (s_counts s) (s_tokens s)
    (d :: s_history s).
Definition sread {A} (f : StoreState -> A) : store A := fun s => (Ok (f s), s).
Definition smutate (f : directory -> directory) : store unit := fun s => (Ok tt, with_dir (f (s_dir s)) s).

(** One system call: it fails if the kernel says so. *)
Definition syscall : store unit := fun s =>
  match s_faults s with
  | Some f :: rest => (Err (fault_error f), mkStore (s_dir s) (s_uid s) (s_closed s) (s_diagnostics s)
      rest (s_counts s) (s_tokens s) (s_history s))
  | None :: rest => (Ok tt, mkStore (s_dir s) (s_uid s) (s_closed s) (s_diagnostics s)
      rest (s_counts s) (s_tokens s) (s_history s))
  | [] => (Ok tt, s)
  end.

(** [secrets.token_hex(16)] *)
Definition token : store pystr := fun s =>
  (Ok (default [] (head (s_tokens s))), mkStore (s_dir s) (s_uid s) (s_closed s) (s_diagnostics s)
     (s_faults s) (s_counts s) (tail (s_tokens s)) (s_history s)).

(** How much of [n] bytes the next write takes. *)
Definition write_count (n : nat) : store nat := fun s =>
  (Ok (match s_counts s with c :: _ => Nat.min c n | [] => n end),
   mkStore (s_dir s) (s_uid s) (s_closed s) (s_diagnostics s) (s_faults s) (tail (s_counts s))
     (s_tokens s) (s_history s)).

Definition diagnose (text : pystr) : store unit := fun s =>
  (Ok tt, mkStore (s_dir s) (s_uid s) (s_closed s) (s_diagnostics s ++ [text]) (s_faults s)
     (s_counts s) (s_tokens s) (s_history s)).

(** ** System calls on names *)
Definition ENOENT_error : exn := OSError ENOENT.

(** [except FileNotFoundError] *)
Definition is_not_found (e : exn) : bool := bool_decide (e = ENOENT_error).

Definition sys_stat (name : pystr) : store FileEntry :=
  syscall ;! let! d := sread s_dir in slift (result_of_option (d !! name) ENOENT_error).

(** [os.open(name, O_RDONLY | O_NOFOLLOW)] *)
Definition sys_open (name : pystr) : store FileEntry :=
  let! f := sys_stat name in
  sguard (bool_decide (f_kind f = Symlink)) (OSError ELOOP) ;! sret f.

Definition sys_unlink (name : pystr) : store unit :=
  let! f := sys_stat name in smutate (delete name).

(** ** Constants *)
Definition MIGRATIONS : list (Z * (pydict -> pydict)) := [].
Definition MAX_SNAPSHOT_BYTES : Z := 2 * 1024 * 1024.
Definition MAX_RECOVERY_BYTES : Z := 2 * 1024 * 1024.
Definition MAX_TOMBSTONE_BYTES : Z := 4 * 1024.
Definition _CHECKPOINT_PREFIX : pystr := u "checkpoint-".
Definition _CHECKPOINT_SUFFIX : pystr := u ".json".
Definition _CHECKPOINT_DIGITS : Z := 20.
Definition _MAX_CHECKPOINTS : nat := 10.
Definition private_mode : Z := 0x180.  (* 0o600 *)
Definition RECOVERY_FILE : pystr := u "recovery.json".
Definition COMPLETION_FILE : pystr := u "recovery-completion.json".
Definition DISCARD_FILE : pystr := u "recovery-discard.json".

(** ** Reading *)
Definition check_file (f : FileEntry) (uid : Z) (name : pystr) : result unit :=
  raise_if (negb (bool_decide (f_kind f = Regular))) (UnsafeStatePath (u "unsafe state file type: " ++ name)) ;?
  raise_if (negb (f_uid f =? uid)) (UnsafeStatePath (u "unsafe state file owner: " ++ name)) ;?
  raise_if (negb (f_mode f =? private_mode)) (UnsafeStatePath (u "unsafe state file mode: " ++ name)).

Definition size_error (kind : pystr) (maximum : Z) : exn :=
  ValueError (u "serialized " ++ kind ++ u " exceeds size limit " ++ str_of_int maximum).

Section Decoding.
Context (rec_limit : nat).

(** [json.loads(raw)], which must be an object. *)
Definition parse_object (raw : pybytes) (message : pystr) : result pydict :=
  let? value := json_loads_bytes rec_limit raw in
  match value with VDict d => Ok d | _ => Err (ValueError message) end.

Definition _read_json (name : pystr) (maximum : Z) (kind : pystr) : store pydict :=
  let! f := sys_open name in
  let! uid := sread s_uid in
  syscall ;!
  slift (check_file f uid name) ;!
  sguard (maximum <? len (f_data f)) (size_error kind maximum) ;!
  syscall ;!
  slift (parse_object (f_data f) (u "persisted state must be an object")).

Definition _decode {A} (payload : pydict) (decoder : pyval -> result A) : result A :=
  let? version := match dict_get_none payload (u "schema_version") with
                  | VInt v => Ok v
                  | _ => Err (ValueError (u "schema_version must be an integer"))
                  end in
  let? payload :=
    if version =? SCHEMA_VERSION then Ok payload
    else
      match find (fun m => m.1 =? version) MIGRATIONS with
      | Some m => Ok (m.2 payload)
      | None => Err (UnsupportedSchemaVersion
          (if version <? SCHEMA_VERSION then u "no migration for schema version " ++ str_of_int version
           else u "unsupported schema version " ++ str_of_int version))
      end in
  decoder (VDict payload).

(** [value == 1] *)
Definition equals_one (v : pyval) : bool :=
  match v with
  | VInt z => z =? SCHEMA_VERSION
  | VBool b => b
  | VFloat f => float_is_int f SCHEMA_VERSION
  | _ => false
  end.

Definition is_disposition (v : pyval) : bool :=
  match v with VStr s => str_in s [u "completed"; u "discarded"] | _ => false end.

Definition is_number (v : pyval) : bool := match v with VInt _ | VFloat _ => true | _ => false end.

Definition _validate_tombstone (value : pyval) : result pydict :=
  match value with
  | VDict d =>
      raise_if (negb (set_eqb (dict_keys d) [u "schema_version"; u "workspace_id"; u "disposition"; u "timestamp"]) ||
                negb (equals_one (dict_get_none d (u "schema_version"))))
        (ValueError (u "invalid recovery tombstone")) ;?
      raise_if (match dict_get_none d (u "workspace_id") with VStr [] => true | VStr _ => false | _ => true end)
        (ValueError (u "invalid recovery tombstone workspace")) ;?
      raise_if (negb (is_disposition (dict_get_none d (u "disposition"))))
        (ValueError (u "invalid recovery tombstone disposition")) ;?
      raise_if (negb (is_number (dict_get_none d (u "timestamp"))))
        (ValueError (u "invalid recovery tombstone timestamp")) ;?
      Ok d
  | _ => Err (ValueError (u "invalid recovery tombstone"))
  end.

(** ** Writing *)
Definition encode_state (value : pyval) : result pybytes :=
  let? text := json_dumps {| ensure_ascii := false; Json.allow_nan := true |} (sorted_keys value) in
  utf8_encode text.

(** [os.stat(name)], [None] if there is no such file. *)
Definition stat_if_exists (name : pystr) : store (option FileEntry) :=
  scatch (let! f := sys_stat name in sret (Some f))
    (fun e => if is_not_found e then sret None else sraise e).

Definition _verify_existing_destination (name : pystr) : store unit :=
  let! found := stat_if_exists name in
  let! uid := sread s_uid in
  match found with Some f => slift (check_file f uid name) | None => sret tt end.

Definition _remove_known_temporary (name : pystr) : store unit :=
  let! found := stat_if_exists name in
  let! uid := sread s_uid in
  match found with
  | Some f => if bool_decide (f_kind f = Regular) && (f_uid f =? uid) then sys_unlink name else sret tt
  | None => sret tt
  end.

(** [os.open(temporary, O_WRONLY | O_CREAT | O_EXCL | O_NOFOLLOW, 0o600)] *)
Definition create_temporary (name : pystr) : store unit :=
  syscall ;!
  let! d := sread s_dir in
  let! uid := sread s_uid in
  sguard (bool_decide (d !! name <> None)) (OSError EEXIST) ;!
  smutate (<[name := mkFile Regular uid private_mode []]>).

Definition append_to (name : pystr) (data : pybytes) (d : directory) : directory :=
  alter (fun f => mkFile (f_kind f) (f_uid f) (f_mode f) (f_data f ++ data)) name d.

(** [while view: written = os.write(fd, view); ...]: every round takes a byte or fails. *)
Fixpoint write_all (fuel : nat) (name : pystr) (view : pybytes) : store unit :=
  match view, fuel with
  | [], _ => sret tt
  | _, O => sraise AssertionError
  | _, S fuel' =>
      syscall ;!
      let! written := write_count (length view) in
      sguard (Nat.eqb written 0) (OSError EIO) ;!
      smutate (append_to name (take written view)) ;!
      write_all fuel' name (drop written view)
  end.

(** [os.replace(temporary, destination)] *)
Definition sys_replace (temporary destination : pystr) : store unit :=
  let! f := sys_stat temporary in
  smutate (fun d => <[destination := f]> (delete temporary d)).

(** From the creation of the temporary file to its closing; [fd] is open in between. *)
Definition fill_temporary (temporary : pystr) (encoded : pybytes) : store unit :=
  syscall ;!                                                   (* fchmod *)
  let! f := sys_stat temporary in                              (* fstat *)
  let! uid := sread s_uid in
  sguard (negb (bool_decide (f_kind f = Regular)) || negb (f_uid f =? uid) ||
          negb (f_mode f =? private_mode)) (UnsafeStatePath (u "unsafe temporary state file")) ;!
  write_all (length encoded) temporary encoded ;!
  syscall ;!                                                   (* fsync(fd) *)
  syscall.                                                     (* close(fd) *)

(** The handler of [_atomic_json_write]: [fd] is open while the file is filled, and an
    error of [os.close(fd)] takes the place of the first one. *)
Definition cleanup {A} (fd_open : bool) (temporary : pystr) (e : exn) : store A :=
  (if fd_open then syscall else sret tt) ;! _remove_known_temporary temporary ;! sraise e.

Definition publish (temporary destination : pystr) (encoded : pybytes) : store unit :=
  scatch (create_temporary temporary) (cleanup false temporary) ;!
  scatch (fill_temporary temporary encoded) (cleanup true temporary) ;!
  scatch (sys_replace temporary destination ;! syscall) (cleanup false temporary).

Definition _atomic_json_write {A} (destination : pystr) (value : pyval) (decoder : pyval -> result A)
    (maximum : Z) (kind : pystr) : store unit :=
  _verify_existing_destination destination ;!
  let! encoded := slift (encode_state value) in
  sguard (maximum <? len encoded) (size_error kind maximum) ;!
  let! decoded := slift (parse_object encoded (u "encoded state must be an object")) in
  slift (_decode decoded decoder) ;!
  let! t := token in
  publish (u ".tmp-" ++ t) destination encoded.

(** ** Tombstones and the recovery record *)
Definition read_if_exists (name : pystr) (maximum : Z) (kind : pystr) : store (option pydict) :=
  scatch (let! d := _read_json name maximum kind in sret (Some d))
    (fun e => if is_not_found e then sret None else sraise e).

Fixpoint tombstone_in (names : list pystr) (workspace : pystr) : store bool :=
  match names with
  | [] => sret false
  | name :: rest =>
      let! payload := read_if_exists name MAX_TOMBSTONE_BYTES (u "tombstone") in
      match payload with
      | None => tombstone_in rest workspace
      | Some d =>
          let! validated := slift (_validate_tombstone (VDict d)) in
          match dict_get_none validated (u "workspace_id") with
          | VStr s => if str_eqb s workspace then sret true else tombstone_in rest workspace
          | _ => tombstone_in rest workspace
          end
      end
  end.

Definition _has_terminal_tombstone (workspace : pystr) : store bool :=
  tombstone_in [COMPLETION_FILE; DISCARD_FILE] workspace.

(** [os.unlink("recovery.json"); os.fsync(directory)] *)
Definition drop_recovery : store unit := sys_unlink RECOVERY_FILE ;! syscall.

Definition read_recovery : store (option pydict) :=
  read_if_exists RECOVERY_FILE MAX_RECOVERY_BYTES (u "recovery").

(** The exceptions the loader rewords. *)
Definition is_type_or_value_error (e : exn) : bool :=
  match e with TypeError _ => true | _ => is_value_error e end.

Definition _load_recovery_unlocked : store (option RecoveryRecord) :=
  let! payload := read_recovery in
  match payload with
  | None => sret None
  | Some d =>
      scatch
        (let! record := slift (_decode d recovery_from_dict) in
         let! finished := _has_terminal_tombstone (workspace_id record) in
         if finished : bool then drop_recovery ;! sret None else sret (Some record))
        (fun e =>
           match e with
           | UnsupportedSchemaVersion _ => sraise e
           | _ => if is_type_or_value_error e then sraise (ValueError (u "invalid recovery record"))
                  else sraise e
           end)
  end.

Definition _cleanup_stale_recovery_unlocked : store unit :=
  let! payload := read_recovery in
  match payload with
  | None => sret tt
  | Some d =>
      let! record := slift (_decode d recovery_from_dict) in
      let! finished := _has_terminal_tombstone (workspace_id record) in
      if finished : bool then drop_recovery else sret tt
  end.

Definition save_recovery (record : RecoveryRecord) : store unit :=
  let! payload := slift (recovery_to_dict record) in
  _atomic_json_write RECOVERY_FILE payload recovery_from_dict MAX_RECOVERY_BYTES (u "recovery").

Definition _write_recovery_if_absent_unlocked (record : RecoveryRecord) : store unit :=
  let! existing := read_recovery in
  match existing with Some _ => sret tt | None => save_recovery record end.

Definition _update_recovery_unlocked (record : RecoveryRecord) (expected_workspace : pystr)
    (expected_generation : Z) : store unit :=
  let! current := _load_recovery_unlocked in
  match current with
  | None => sraise (ValueError (u "no unresolved recovery workspace"))
  | Some current =>
      sguard (negb (str_eqb (workspace_id current) expected_workspace) ||
              negb (str_eqb (workspace_id record) expected_workspace))
        (ValueError (u "recovery workspace changed")) ;!
      sguard (negb (source_generation current =? expected_generation))
        (ValueError (u "recovery source generation changed")) ;!
      sguard (negb (source_generation record =? expected_generation))
        (ValueError (u "replacement recovery source generation changed")) ;!
      save_recovery record
  end.

(** ** Committing an attempt *)
Fixpoint add_completed (completed : list pystr) (outs : list Outcome) : list pystr :=
  match outs with
  | [] => completed
  | o :: rest =>
      add_completed (if is_terminal (out_kind o) && negb (str_in (out_item_id o) completed)
                     then completed ++ [out_item_id o] else completed) rest
  end.

#[local] Instance Outcome_eq_dec : EqDecision Outcome.
Proof. solve_decision. Defined.

(** The checks and the updated record of [_commit_outcomes_unlocked]. *)
Definition committed (record : RecoveryRecord) (workspace : pystr) (attempt : RestoreAttempt)
    (outs : list Outcome) : result RecoveryRecord :=
  raise_if (negb (str_eqb workspace (workspace_id record)) || negb (str_eqb (att_workspace_id attempt) workspace))
    (ValueError (u "restore attempt workspace does not match recovery workspace")) ;?
  raise_if (existsb (fun a => str_eqb (attempt_id a) (attempt_id attempt)) (attempts record))
    (ValueError (u "restore attempt ID already exists")) ;?
  raise_if (negb (subsetb (selected_item_ids attempt) (map rec_item_id (items record))))
    (ValueError (u "selected item must exist in recovery items")) ;?
  raise_if (negb (nodupb (map out_item_id outs))) (ValueError (u "duplicate outcome item ID")) ;?
  raise_if (negb (subsetb (map out_item_id outs) (selected_item_ids attempt)))
    (ValueError (u "outcome item must be selected")) ;?
  raise_if (negb (bool_decide (outcomes attempt = [])) && negb (bool_decide (outcomes attempt = outs)))
    (ValueError (u "attempt outcomes do not match committed outcomes")) ;?
  let? committed_attempt := new_RestoreAttempt (attempt_id attempt) (att_workspace_id attempt)
      (selected_item_ids attempt) (approved_item_ids attempt) outs in
  new_RecoveryRecord (rec_schema_version record) (workspace_id record) (source_generation record)
    (created_at record) (items record) (attempts record ++ [committed_attempt])
    (add_completed (completed_item_ids record) outs).

Definition _commit_outcomes_unlocked (workspace : pystr) (attempt : RestoreAttempt) (outs : list Outcome)
  : store RecoveryRecord :=
  let! current := _load_recovery_unlocked in
  match current with
  | None => sraise (ValueError (u "no unresolved recovery workspace"))
  | Some record =>
      let! updated := slift (committed record workspace attempt outs) in
      _update_recovery_unlocked updated workspace (source_generation record) ;!
      sret updated
  end.

(** ** Finishing a workspace *)
Definition tombstone (workspace : pystr) (discard : bool) (now : pyfloat) : pyval :=
  VDict [(u "schema_version", VInt SCHEMA_VERSION); (u "workspace_id", VStr workspace);
         (u "disposition", VStr (if discard then u "discarded" else u "completed"));
         (u "timestamp", VFloat now)].

Definition _complete_or_discard_unlocked (workspace : pystr) (discard : bool) (now : pyfloat) : store unit :=
  let! current := _load_recovery_unlocked in
  match current with
  | None => sraise (ValueError (u "no unresolved recovery workspace"))
  | Some record =>
      sguard (negb (str_eqb (workspace_id record) workspace))
        (ValueError (u "recovery workspace does not match")) ;!
      sguard (negb discard && negb (set_eqb (completed_item_ids record) (map rec_item_id (items record))))
        (ValueError (u "all recovery items must be terminally successful")) ;!
      _atomic_json_write (if discard then DISCARD_FILE else COMPLETION_FILE)
        (tombstone workspace discard now) _validate_tombstone MAX_TOMBSTONE_BYTES (u "tombstone") ;!
      drop_recovery
  end.

(** ** Checkpoints *)
Definition digits20 (generation : Z) : pystr := pad_left 20 (str_of_int generation).

Definition checkpoint_name (generation : Z) : pystr :=
  _CHECKPOINT_PREFIX ++ digits20 generation ++ _CHECKPOINT_SUFFIX.

(** [name[len(prefix):-len(suffix)]] of a name with that prefix and suffix *)
Definition checkpoint_digits (name : pystr) : pystr :=
  let rest := drop (length _CHECKPOINT_PREFIX) name in
  take (length rest - length _CHECKPOINT_SUFFIX) rest.

Definition is_checkpoint_name (name : pystr) : bool :=
  is_prefix _CHECKPOINT_PREFIX name && ends_with _CHECKPOINT_SUFFIX name &&
  (len (checkpoint_digits name) =? _CHECKPOINT_DIGITS) && forallb is_digit (checkpoint_digits name).

(** [os.listdir] in whatever order, then [sort(reverse=True)] *)
Definition _checkpoint_names : store (list pystr) :=
  syscall ;!
  let! d := sread s_dir in
  sret (sort_by (fun a b => str_leb b a) (filter (fun n => is_checkpoint_name n = true) (map fst (map_to_list d)))).

Definition load_checkpoint (name : pystr) : store Snapshot :=
  let! payload := _read_json name MAX_SNAPSHOT_BYTES (u "snapshot") in
  slift (_decode payload snapshot_from_dict).

(** [except (UnsafeStatePath, OSError, UnicodeError, JSONDecodeError, TypeError, ValueError)] *)
Definition is_invalid_checkpoint (e : exn) : bool :=
  match e with UnsafeStatePath _ => true | _ => is_os_error e || is_type_or_value_error e end.

Fixpoint load_valid (names : list pystr) (valid : list Snapshot) : store (list Snapshot) :=
  match names with
  | [] => sret valid
  | name :: rest =>
      let! item := scatch (let! s := load_checkpoint name in sret (Some s))
        (fun e =>
           match e with
           | UnsupportedSchemaVersion _ =>
               if bool_decide (valid = []) then sraise e
               else diagnose (u "ignored older unsupported checkpoint " ++ name) ;! sret None
           | _ => if is_invalid_checkpoint e
                  then diagnose (u "ignored invalid checkpoint " ++ name) ;! sret None
                  else sraise e
           end) in
      load_valid rest (match item with Some s => valid ++ [s] | None => valid end)
  end.

(** Newest first. *)
Definition _load_valid_checkpoints_unlocked : store (list Snapshot) :=
  let! names := _checkpoint_names in load_valid names [].

Fixpoint valid_names (names : list pystr) : store (list pystr) :=
  match names with
  | [] => sret []
  | name :: rest =>
      let! ok := scatch (load_checkpoint name ;! sret true)
        (fun e => if is_invalid_checkpoint e then sret false else sraise e) in
      let! others := valid_names rest in
      sret (if ok : bool then name :: others else others)
  end.

Fixpoint remove_names (names : list pystr) : store bool :=
  match names with
  | [] => sret false
  | name :: rest =>
      let! removed := scatch (sys_unlink name ;! sret true)
        (fun e => if is_not_found e then sret false else sraise e) in
      let! others := remove_names rest in
      sret (removed || others)
  end.

Definition _prune_checkpoints_unlocked : store unit :=
  let! names := _checkpoint_names in
  let! valid := valid_names names in
  let! removed := remove_names (drop _MAX_CHECKPOINTS valid) in
  if removed : bool then syscall else sret tt.

Definition _write_unlocked (snapshot : Snapshot) : store pystr :=
  let name := checkpoint_name (generation snapshot) in
  let! payload := slift (snapshot_to_dict snapshot) in
  _atomic_json_write name payload snapshot_from_dict MAX_SNAPSHOT_BYTES (u "snapshot") ;!
  _prune_checkpoints_unlocked ;!
  sret name.

(** ** The public operations *)

(** [_transaction]: one process at a time, refused once closed. *)
Definition _transaction {A} (body : store A) : store A :=
  let! closed := sread s_closed in
  sguard closed (RuntimeError (u "SnapshotStore is closed")) ;! body.

Definition write (snapshot : Snapshot) : store pystr := _transaction (_write_unlocked snapshot).
Definition load_latest : store (option Snapshot) :=
  _transaction (let! valid := _load_valid_checkpoints_unlocked in sret (head valid)).
Definition list_valid : store (list Snapshot) :=
  _transaction (let! valid := _load_valid_checkpoints_unlocked in sret (rev valid)).
Definition load_recovery : store (option RecoveryRecord) := _transaction _load_recovery_unlocked.
Definition write_recovery (record : RecoveryRecord) : store unit :=
  _transaction (_write_recovery_if_absent_unlocked record).
Definition commit_outcomes (workspace : pystr) (attempt : RestoreAttempt) (outs : list Outcome)
  : store RecoveryRecord := _transaction (_commit_outcomes_unlocked workspace attempt outs).
Definition complete_or_discard (workspace : pystr) (discard : bool) (now : pyfloat) : store unit :=
  _transaction (_complete_or_discard_unlocked workspace discard now).

(** [SnapshotStore(state_dir)], once the directory and its lock file are open. *)
Definition open_store : store unit := _transaction _cleanup_stale_recovery_unlocked.

(** [close()]: the descriptors go, the files stay. *)
Definition close : store unit := fun s =>
  (Ok tt, mkStore (s_dir s) (s_uid s) true (s_diagnostics s) (s_faults s) (s_counts s) (s_tokens s)
     (s_history s)).

End Decoding.
