(* ===== verification/StateCodec.v ===== *)
(** * State text round trip

    State files are written with sorted keys.  The decoders of [Model] do not
    look at the order of keys, so what was written decodes to what was encoded:
    [state_round_trip], down to the bytes of the file. *)
From S2P Require Import Prelude PyText PyVal PyFloat Json Codec Model Store.

(** ** Objects with distinct keys *)
Fixpoint keys_ok (v : pyval) : bool :=
  match v with
  | VList l => forallb keys_ok l
  | VDict d => nodupb (map fst d) && forallb (fun kv => keys_ok kv.2) d
  | _ => true
  end.

(** Every float is a finite double. *)
Fixpoint floats_ok (v : pyval) : bool :=
  match v with
  | VFloat f => match f with FFin _ _ _ => is_double f | _ => false end
  | VList l => forallb floats_ok l
  | VDict d => forallb (fun kv => floats_ok kv.2) d
  | _ => true
  end.

Lemma dict_get_Some d k v : NoDup (map fst d) -> dict_get k d = Some v <-> (k, v) ∈ d.
Proof.
  induction d as [|[k' v'] d IH]; simpl; intros Hd.
  - split; [done|]. by intros ?%not_elem_of_nil.
  - apply NoDup_cons in Hd as [Hk Hd]. destruct (decide (k = k')) as [->|Hne].
    + rewrite dict_get_cons_eq elem_of_cons. split; [intros [= ->]; by left|].
      intros [[= ->]|Hin]; [done|]. exfalso. apply Hk, list_elem_of_fmap. by exists (k', v).
    + rewrite dict_get_cons_ne // IH // elem_of_cons. naive_solver.
Qed.

Lemma dict_get_perm d d' k : NoDup (map fst d) -> d ≡ₚ d' -> dict_get k d = dict_get k d'.
Proof.
  intros Hd Hp. assert (Hd' : NoDup (map fst d')) by (by rewrite -Hp).
  destruct (dict_get k d) as [v|] eqn:E.
  - symmetry. apply dict_get_Some; [done|]. rewrite -Hp. by apply dict_get_Some.
  - symmetry. apply dict_get_None. apply dict_get_None in E. unfold dict_keys in *. by rewrite -Hp.
Qed.

Definition sorted_dict (d : pydict) : pydict :=
  sort_by (fun a b => str_leb a.1 b.1) (map (fun kv => (kv.1, sorted_keys kv.2)) d).

Lemma sorted_keys_dict d : sorted_keys (VDict d) = VDict (sorted_dict d).
Proof. done. Qed.

Lemma sorted_dict_keys d : dict_keys (sorted_dict d) ≡ₚ dict_keys d.
Proof.
  unfold dict_keys, sorted_dict. rewrite sort_by_perm map_map. done.
Qed.

Lemma dict_get_map (f : pyval -> pyval) d k :
  dict_get k (map (fun kv => (kv.1, f kv.2)) d) = f <$> dict_get k d.
Proof.
  induction d as [|[k' v'] d IH]; [done|]. simpl. destruct (decide (k = k')) as [->|Hne].
  - by rewrite !dict_get_cons_eq.
  - by rewrite !dict_get_cons_ne.
Qed.

Lemma sorted_get d k : NoDup (map fst d) -> dict_get k (sorted_dict d) = sorted_keys <$> dict_get k d.
Proof.
  intros Hd. rewrite -dict_get_map. apply dict_get_perm; [|apply sort_by_perm].
  change (NoDup (dict_keys (sorted_dict d))). by rewrite sorted_dict_keys.
Qed.

Lemma sorted_index d k v : NoDup (map fst d) -> dict_index d k = Ok v ->
  dict_index (sorted_dict d) k = Ok (sorted_keys v).
Proof.
  unfold dict_index. intros Hd. rewrite sorted_get //. by destruct (dict_get k d) as [w|]; [intros [= ->]|].
Qed.

Lemma sorted_exact d keys ctx v : _require_exact_keys d keys ctx = Ok v ->
  _require_exact_keys (sorted_dict d) keys ctx = Ok tt.
Proof.
  rewrite !require_exact_keys_Ok. intros Hk k. rewrite -Hk. by rewrite sorted_dict_keys.
Qed.

Lemma keys_ok_get d k v : keys_ok (VDict d) = true -> dict_index d k = Ok v -> keys_ok v = true.
Proof.
  cbn [keys_ok]. intros [Hd%nodupb_spec Hall]%andb_true_iff Hg.
  unfold dict_index in Hg. apply result_of_option_Ok, dict_get_Some in Hg; [|done].
  rewrite forallb_forall in Hall. by apply list_elem_of_In, Hall in Hg.
Qed.

(** ** The readers commute with sorting *)
Lemma sorted_string v c m : _bounded_string (sorted_keys v) c m = _bounded_string v c m.
Proof. by destruct v. Qed.
Lemma sorted_integer v c : Model._integer (sorted_keys v) c = Model._integer v c.
Proof. by destruct v. Qed.
Lemma sorted_boolean v c : Model._boolean (sorted_keys v) c = Model._boolean v c.
Proof. by destruct v. Qed.
Lemma sorted_number v c : _number (sorted_keys v) c = _number v c.
Proof. by destruct v. Qed.
Lemma sorted_enum {A} `{StrEnum A} v c : Model._enum (A := A) (sorted_keys v) c = Model._enum v c.
Proof. by destruct v. Qed.

Lemma sorted_sequence v c l : _sequence v c = Ok l -> _sequence (sorted_keys v) c = Ok (map sorted_keys l).
Proof.
  destruct v as [| | | | |l'|]; simpl; try done. unfold _require_bounded_sequence. rewrite len_map.
  destruct (raise_if _ _) as [[]|]; simpl; [|done]. by intros [= ->].
Qed.

Lemma sequence_keys v c l : keys_ok v = true -> _sequence v c = Ok l -> forallb keys_ok l = true.
Proof.
  destruct v as [| | | | |l'|]; simpl; try done.
  destruct (_require_bounded_sequence _ _); simpl; [|done]. by intros ? [= <-].
Qed.

Lemma rmap_sorted_strings c m l r : rmap (fun i => _bounded_string i c m) l = Ok r ->
  rmap (fun i => _bounded_string i c m) (map sorted_keys l) = Ok r.
Proof.
  intros Hr%rmap_Ok. apply rmap_Ok. induction Hr; simpl; constructor; [|done]. by rewrite sorted_string.
Qed.

(** [order_free decoder v] : the decoder takes the sorted form of whatever it takes. *)
Definition order_free {A} (decoder : pyval -> result A) : Prop :=
  forall v x, keys_ok v = true -> decoder v = Ok x -> decoder (sorted_keys v) = Ok x.

Lemma rmap_order_free {A} (decoder : pyval -> result A) l r : order_free decoder ->
  forallb keys_ok l = true -> rmap decoder l = Ok r -> rmap decoder (map sorted_keys l) = Ok r.
Proof.
  intros Hf Hk Hr%rmap_Ok. apply rmap_Ok.
  induction Hr as [|v x l r Hx _ IH]; simpl in *; constructor.
  - apply andb_true_iff in Hk as [Hk _]. by apply Hf.
  - apply andb_true_iff in Hk as [_ Hk]. by apply IH.
Qed.

(** One field of a decoder: the index, then its reader. *)
Ltac sorted_fields Hk Hd :=
  repeat match goal with
  | H : dict_index ?d ?k = Ok ?v |- context [dict_index (sorted_dict ?d) ?k] =>
      rewrite (sorted_index d k v Hd H); cbn [rbind]
  | H : _require_exact_keys ?d ?ks ?c = Ok _ |- context [_require_exact_keys (sorted_dict ?d) ?ks ?c] =>
      rewrite (sorted_exact d ks c _ H); cbn [rbind]
  | |- context [_bounded_string (sorted_keys _) _ _] => rewrite sorted_string
  | |- context [Model._integer (sorted_keys _) _] => rewrite sorted_integer
  | |- context [Model._boolean (sorted_keys _) _] => rewrite sorted_boolean
  | |- context [_number (sorted_keys _) _] => rewrite sorted_number
  | |- context [Model._enum (sorted_keys _) _] => rewrite sorted_enum
  | H : _sequence ?v ?c = Ok ?l |- context [_sequence (sorted_keys ?v) ?c] =>
      rewrite (sorted_sequence v c l H); cbn [rbind]
  | H : rmap (fun i => _bounded_string i _ _) ?l = Ok ?r
    |- context [rmap (fun i => _bounded_string i _ _) (map sorted_keys ?l)] =>
      rewrite (rmap_sorted_strings _ _ _ _ H); cbn [rbind]
  | H : ?x = Ok _ |- context [rbind ?x _] => rewrite H; cbn [rbind]
  end.

(** Opens a decoder that succeeded on [v]: [v] is a dict, each step a hypothesis. *)
Ltac open_decoder dec Hk Hd Hx :=
  intros v x Hk Hx; unfold dec in Hx;
  apply rbind_Ok in Hx as (payload & Hm & Hx);
  destruct v as [| | | | | |d]; try discriminate Hm; apply Ok_inj in Hm; subst payload;
  assert (Hd : NoDup (map fst d)) by (cbn [keys_ok] in Hk; apply andb_true_iff in Hk as [Hk' _]; by apply nodupb_spec);
  repeat match type of Hx with
  | rbind _ _ = Ok _ => let H := fresh "Hs" in apply rbind_Ok in Hx as (? & H & Hx)
  end;
  rewrite sorted_keys_dict; unfold dec; cbn [_mapping rbind].

(** ** Each decoder *)
Lemma identity_order : order_free _identity_from_dict.
Proof. open_decoder _identity_from_dict Hk Hd Hx. sorted_fields Hk Hd. done. Qed.

Lemma command_order : order_free _command_from_dict.
Proof.
  open_decoder _command_from_dict Hk Hd Hx. sorted_fields Hk Hd.
  match goal with H : match ?e with VNone => _ | _ => _ end = Ok _ |- _ => destruct e; cbn [sorted_keys] end;
    sorted_fields Hk Hd; done.
Qed.

(** A nested record: its value has distinct keys, so its decoder applies. *)
Ltac sorted_nested Hk :=
  repeat match goal with
  | H : dict_index ?d ?k = Ok ?v |- context [_identity_from_dict (sorted_keys ?v)] =>
      rewrite (identity_order v _ (keys_ok_get d k v Hk H) ltac:(eassumption)); cbn [rbind]
  | H : dict_index ?d ?k = Ok ?v, Hs : _sequence ?v _ = Ok ?l
    |- context [rmap ?f (map sorted_keys ?l)] =>
      rewrite (rmap_order_free f l _ ltac:(eassumption) (sequence_keys v _ l (keys_ok_get d k v Hk H) Hs)
        ltac:(eassumption)); cbn [rbind]
  end.

Lemma sorted_null {A} v (a b : A) :
  match sorted_keys v with VNone => a | _ => b end = match v with VNone => a | _ => b end.
Proof. by destruct v. Qed.

Lemma optional_order {A} (f : pyval -> result A) v o : (forall x, f v = Ok x -> f (sorted_keys v) = Ok x) ->
  match v with VNone => Ok None | _ => let? c := f v in Ok (Some c) end = Ok o ->
  match v with VNone => Ok None | _ => let? c := f (sorted_keys v) in Ok (Some c) end = Ok o.
Proof. intros Hf. destruct v; try done; intros (x & Hx%Hf & Ho)%rbind_Ok; by rewrite Hx. Qed.

Lemma shell_order : order_free _shell_from_dict.
Proof.
  open_decoder _shell_from_dict Hk Hd Hx. sorted_fields Hk Hd. rewrite !sorted_null.
  sorted_fields Hk Hd. sorted_nested Hk. sorted_fields Hk Hd.
  erewrite optional_order; [|intros y Hy; eapply command_order, Hy; eapply keys_ok_get; eassumption|eassumption].
  done.
Qed.

Lemma outcome_order : order_free _outcome_from_dict.
Proof. open_decoder _outcome_from_dict Hk Hd Hx. sorted_fields Hk Hd. done. Qed.

Lemma attempt_order : order_free _attempt_from_dict.
Proof.
  pose proof outcome_order.
  open_decoder _attempt_from_dict Hk Hd Hx. sorted_fields Hk Hd. sorted_nested Hk. done.
Qed.

Lemma recovery_item_order : order_free _recovery_item_from_dict.
Proof.
  open_decoder _recovery_item_from_dict Hk Hd Hx. sorted_fields Hk Hd.
  match goal with H : _shell_from_dict ?v = Ok ?x, Hi : dict_index _ _ = Ok ?v |- _ =>
    rewrite (shell_order v x (keys_ok_get _ _ _ Hk Hi) H) end. done.
Qed.

Lemma schema_version_order d v : NoDup (map fst d) -> _read_schema_version d = Ok v ->
  _read_schema_version (sorted_dict d) = Ok v.
Proof.
  unfold _read_schema_version. intros Hd Hv.
  repeat match type of Hv with
  | rbind _ _ = Ok _ => let H := fresh "Hs" in apply rbind_Ok in Hv as (? & H & Hv)
  end.
  apply raise_if_Ok, negb_false_iff, str_in_spec in Hs.
  rewrite (proj2 (str_in_spec _ _)); [by rewrite sorted_dict_keys|]. cbn [negb raise_if rbind].
  rewrite (sorted_index _ _ _ Hd Hs0). cbn [rbind]. rewrite sorted_integer Hs1. cbn [rbind].
  by rewrite Hs2.
Qed.

Ltac sorted_version Hd :=
  match goal with H : _read_schema_version _ = Ok _ |- _ => rewrite (schema_version_order _ _ Hd H) end;
  cbn [rbind].

Lemma snapshot_order : order_free snapshot_from_dict.
Proof.
  pose proof shell_order.
  open_decoder snapshot_from_dict Hk Hd Hx. sorted_version Hd. sorted_fields Hk Hd. sorted_nested Hk. done.
Qed.

Lemma recovery_order : order_free recovery_from_dict.
Proof.
  pose proof recovery_item_order. pose proof attempt_order.
  open_decoder recovery_from_dict Hk Hd Hx. sorted_version Hd. sorted_fields Hk Hd. sorted_nested Hk. done.
Qed.

(** ** Bytes *)
Definition code_point (c : Z) : bool := (0 <=? c) && (c <? 0x110000).

(** A value of the interpreter: dicts with distinct keys; and no float but finite
    doubles.  Nothing is asked of strings: [encode_state] refuses what is not text. *)
Fixpoint value_ok (v : pyval) : bool :=
  match v with
  | VFloat f => match f with FFin _ _ _ => is_double f | _ => false end
  | VList l => forallb value_ok l
  | VDict d => nodupb (map fst d) && forallb (fun kv => value_ok kv.2) d
  | _ => true
  end.

Lemma forallb_perm {A} (f : A -> bool) l l' : l ≡ₚ l' -> forallb f l = forallb f l'.
Proof. induction 1; simpl; [done|congruence|by rewrite !andb_assoc (andb_comm (f _))|congruence]. Qed.

Lemma forallb_map {A B} (f : B -> bool) (g : A -> B) l : forallb f (map g l) = forallb (fun x => f (g x)) l.
Proof. induction l; simpl; congruence. Qed.

Lemma forallb_impl {A} (f g : A -> bool) l : Forall (fun x => f x = true -> g x = true) l ->
  forallb f l = true -> forallb g l = true.
Proof.
  induction 1 as [|x l Hx _ IH]; [done|]. simpl. intros [Hf Hl]%andb_true_iff.
  by rewrite Hx // IH.
Qed.

Lemma nodupb_perm l l' : l ≡ₚ l' -> nodupb l = true -> nodupb l' = true.
Proof. rewrite !nodupb_spec. by intros ->. Qed.

Lemma value_keys_ok v : value_ok v = true -> keys_ok v = true.
Proof.
  induction v as [| | | | |l IH|d IH] using pyval_nested_ind; try done; simpl.
  - by apply forallb_impl.
  - intros [-> Hall]%andb_true_iff. simpl. revert Hall. apply forallb_impl.
    eapply Forall_impl; [exact IH|]. simpl. intros kv Hkv ?. by apply Hkv.
Qed.

Lemma sorted_value_ok v : value_ok v = true -> value_ok (sorted_keys v) = true.
Proof.
  induction v as [| | | | |l IH|d IH] using pyval_nested_ind; try done.
  - simpl. rewrite forallb_map. by apply forallb_impl.
  - rewrite sorted_keys_dict. cbn [value_ok]. intros [Hd Hall]%andb_true_iff. apply andb_true_iff. split.
    + revert Hd. apply nodupb_perm. symmetry. apply sorted_dict_keys.
    + unfold sorted_dict. rewrite (forallb_perm _ _ _ (sort_by_perm _ _)) forallb_map. simpl.
      revert Hall. apply forallb_impl. eapply Forall_impl; [exact IH|]. simpl.
      intros kv Hkv ?. by apply Hkv.
Qed.

Lemma max_perm l l' : l ≡ₚ l' -> foldr Nat.max O l = foldr Nat.max O l'.
Proof. induction 1; simpl; lia. Qed.

Lemma sorted_nesting v : nesting (sorted_keys v) = nesting v.
Proof.
  induction v as [| | | | |l IH|d IH] using pyval_nested_ind; try done.
  - simpl. f_equal. induction IH as [|x l Hx _ IHl]; simpl; [done|]. by rewrite Hx IHl.
  - rewrite sorted_keys_dict. cbn [nesting]. f_equal. unfold sorted_dict.
    rewrite (max_perm _ _ (Permutation_map _ (sort_by_perm _ _))) map_map. simpl.
    induction IH as [|x l Hx _ IHl]; simpl; [done|]. by rewrite Hx IHl.
Qed.

Lemma escaped_scalar s : forallb is_scalar (flat_map (escape_char false) s) = true -> forallb is_scalar s = true.
Proof.
  induction s as [|c s IH]; [done|]. cbn [flat_map forallb]. rewrite forallb_app.
  intros [He Hr]%andb_true_iff. rewrite IH // andb_true_r.
  destruct (is_scalar c) eqn:E; [done|]. unfold is_scalar, is_surrogate in E. exfalso. revert He. unfold escape_char.
  repeat case_match; unfold is_scalar, is_surrogate; cbn [forallb]; lia.
Qed.

Lemma scalar_join {A} (f : A -> result pystr) l t : rmap_join f l = Ok t ->
  forallb is_scalar t = true -> Forall (fun x => exists y, f x = Ok y /\ forallb is_scalar y = true) l.
Proof.
  revert t. induction l as [|x l IH]; intros t Ht Hs; [constructor|].
  destruct l as [|x' l].
  - constructor; [|constructor]. by exists t.
  - cbn [rmap_join] in Ht. apply rbind_Ok in Ht as (a & Ha & Ht). apply rbind_Ok in Ht as (b & Hb & Ht).
    apply Ok_inj in Ht as ->. rewrite forallb_app in Hs. cbn [forallb] in Hs.
    apply andb_true_iff in Hs as [Hsa [_ Hsb]%andb_true_iff].
    constructor; [by exists a|]. by apply (IH b).
Qed.

Lemma string_scalar_text s : forallb is_scalar (json_string false s) = true -> forallb is_scalar s = true.
Proof.
  intros Hs. unfold json_string in Hs. cbn [forallb] in Hs. rewrite forallb_app in Hs.
  apply andb_true_iff in Hs as [_ [Hs _]%andb_true_iff]. by apply escaped_scalar.
Qed.

(** What was printed without escaping and could be encoded has no lone surrogate. *)
Lemma dumped_json_ok o v t : ensure_ascii o = false -> json_dumps o v = Ok t ->
  forallb is_scalar t = true -> value_ok v = true -> json_ok v = true.
Proof.
  intros Ho. revert t. induction v as [| | | |s|l IH|d IH] using pyval_nested_ind; intros t Ht Hs Hv; try done.
  - cbn [json_dumps] in Ht. apply Ok_inj in Ht as ->. rewrite Ho in Hs. by apply string_scalar_text.
  - cbn [json_dumps] in Ht. apply rbind_Ok in Ht as (t' & Ht & E). apply Ok_inj in E as ->.
    cbn [forallb] in Hs. rewrite forallb_app in Hs. apply andb_true_iff in Hs as [_ [Hs _]%andb_true_iff].
    apply scalar_join in Ht; [|done]. cbn [json_ok value_ok] in *. apply forallb_Forall.
    apply forallb_Forall in Hv. rewrite !Forall_forall in Hv, Ht, IH |- *.
    intros x Hx. destruct (Ht x Hx) as (y & Hy & Hys). exact (IH x Hx y Hy Hys (Hv x Hx)).
  - cbn [json_dumps] in Ht. apply rbind_Ok in Ht as (t' & Ht & E). apply Ok_inj in E as ->.
    cbn [forallb] in Hs. rewrite forallb_app in Hs. apply andb_true_iff in Hs as [_ [Hs _]%andb_true_iff].
    apply scalar_join in Ht; [|done]. cbn [json_ok value_ok] in *.
    apply andb_true_iff in Hv as [-> Hv]. simpl. apply forallb_Forall.
    apply forallb_Forall in Hv. rewrite !Forall_forall in Hv, Ht, IH |- *.
    intros x Hx. destruct (Ht x Hx) as (y & Hy & Hys). apply rbind_Ok in Hy as (z & Hz & E).
    apply Ok_inj in E as ->. rewrite Ho forallb_app in Hys. cbn [forallb] in Hys.
    apply andb_true_iff in Hys as [Hk [_ Hzs]%andb_true_iff].
    rewrite (string_scalar_text _ Hk). exact (IH x Hx z Hz Hzs (Hv x Hx)).
Qed.

Lemma object_text o d t : json_dumps o (VDict d) = Ok t ->
  exists c rest, t = 123 :: c :: rest /\ (c = 34 \/ c = 125).
Proof.
  cbn [json_dumps]. intros (t' & Ht & E)%rbind_Ok. apply Ok_inj in E as ->.
  destruct d as [|[k v] d]; [apply Ok_inj in Ht as ->; eexists 125, []; by auto|].
  assert (exists rest, t' = 34 :: rest) as [rest ->].
  { destruct d as [|kv d].
    - cbn [rmap_join] in Ht. apply rbind_Ok in Ht as (y & _ & E). apply Ok_inj in E as ->. by eexists.
    - cbn [rmap_join] in Ht. apply rbind_Ok in Ht as (a & Ha & Ht). apply rbind_Ok in Ht as (b & _ & E).
      apply Ok_inj in E as ->. apply rbind_Ok in Ha as (y & _ & E). apply Ok_inj in E as ->. by eexists. }
  exists 34, (rest ++ [125]). by auto.
Qed.

Lemma detect_object c rest : c = 34 \/ c = 125 -> detect_encoding (123 :: c :: rest) = Utf8.
Proof.
  intros Hc. unfold detect_encoding.
  change (byte_at 0 (123 :: c :: rest)) with 123. change (byte_at 1 (123 :: c :: rest)) with c.
  cbn [is_prefix Z.eqb Pos.eqb andb].
  assert ((c =? 0) = false) as -> by lia. by repeat case_match.
Qed.

(** What [encode_state] wrote, [json.loads] reads, with the keys in order. *)
Lemma state_bytes rec_limit d raw : value_ok (VDict d) = true -> (nesting (VDict d) <= rec_limit)%nat ->
  encode_state (VDict d) = Ok raw -> json_loads_bytes rec_limit raw = Ok (VDict (sorted_dict d)).
Proof.
  intros Hv Hn He. unfold encode_state in He. apply rbind_Ok in He as (t & Ht & He).
  pose proof He as He'. unfold utf8_encode in He'.
  destruct (forallb is_scalar t) eqn:Hs; [|done]. apply Ok_inj in He'.
  pose proof Ht as Ht'. rewrite sorted_keys_dict in Ht'.
  destruct (object_text _ _ _ Ht') as (c & rest & -> & Hc).
  unfold json_loads_bytes.
  assert (detect_encoding raw = Utf8) as ->.
  { subst raw. cbn [flat_map]. assert (utf8_char 123 = [123]) as -> by done.
    assert (utf8_char c = [c]) as -> by (by destruct Hc as [->| ->]). by apply detect_object. }
  cbn [decode_bytes]. rewrite (utf8_round_trip true _ _ He). cbn [rbind]. rewrite -sorted_keys_dict.
  eapply loads_dumps; [apply plain_hook_nodup| | |exact Ht].
  - eapply dumped_json_ok; [|exact Ht|done|by apply sorted_value_ok]. done.
  - by rewrite sorted_nesting.
Qed.

Lemma decode_sorted {A} (decoder : pyval -> result A) d x : order_free decoder ->
  value_ok (VDict d) = true -> decoder (VDict d) = Ok x ->
  dict_get (u "schema_version") d = Some (VInt SCHEMA_VERSION) ->
  _decode (sorted_dict d) decoder = Ok x.
Proof.
  intros Hf Hv Hx Hs. unfold _decode, dict_get_none.
  pose proof (value_keys_ok _ Hv) as Hk. pose proof Hk as Hd. cbn [keys_ok] in Hd.
  apply andb_true_iff in Hd as [Hd%nodupb_spec _]. rewrite sorted_get // Hs.
  change (decoder (VDict (sorted_dict d)) = Ok x). rewrite -sorted_keys_dict. by apply Hf.
Qed.

(** The two state records: their text reads back as the record. *)
Definition record_text {A} (to_dict : A -> result pyval) (x : A) (raw : pybytes) : Prop :=
  exists d, to_dict x = Ok (VDict d) /\ value_ok (VDict d) = true /\ encode_state (VDict d) = Ok raw.

Lemma parse_state rec_limit d raw m : value_ok (VDict d) = true -> (nesting (VDict d) <= rec_limit)%nat ->
  encode_state (VDict d) = Ok raw -> parse_object rec_limit raw m = Ok (sorted_dict d).
Proof. intros Hv Hn He. unfold parse_object. by rewrite (state_bytes rec_limit d raw Hv Hn He). Qed.
