(* ===== verification/StoreProofs.v ===== *)
(** * The snapshot store: theorems

    Writing a state file is atomic whatever system calls fail and wherever the
    machine stops; what was written is what is read; outcomes are committed
    once; a finished workspace does not come back. *)
From S2P Require Import Prelude PyText PyVal PyFloat Json Codec Model Store StateCodec.
#[local] Open Scope store_scope.

(** ** Triples

    [triple Inv P m Q E]: from a state with [Inv] whose directory satisfies [P],
    [m] keeps [Inv]; it leaves a directory in [Q a] if it returns [a], in [E] if
    it raises. *)
Definition triple {A} (Inv : StoreState -> Prop) (P : directory -> Prop) (m : store A)
    (Q : A -> directory -> Prop) (E : directory -> Prop) : Prop :=
  forall s, Inv s -> P (s_dir s) ->
    match m s with
    | (Ok a, s') => Inv s' /\ Q a (s_dir s')
    | (Err _, s') => Inv s' /\ E (s_dir s')
    end.

(** What holds of the directory now and of every one since [s0]; [Inv] keeps the
    owner and does not close the store. *)
Definition dir_invariant (s0 : StoreState) (uid : Z) (G : directory -> Prop) (s : StoreState) : Prop :=
  s_uid s = uid /\ s_closed s = s_closed s0 /\ G (s_dir s) /\ exists h, s_history s = h ++ s_history s0 /\ Forall G h.

Section Triples.
Context (s0 : StoreState) (uid : Z) (G : directory -> Prop).
Notation Inv := (dir_invariant s0 uid G).

Lemma store_conseq {A} (P P' : directory -> Prop) (m : store A) (Q Q' : A -> directory -> Prop) (E E' : directory -> Prop) :
  triple Inv P' m Q' E' -> (forall d, P d -> P' d) -> (forall a d, Q' a d -> Q a d) ->
  (forall d, E' d -> E d) -> triple Inv P m Q E.
Proof.
  intros Hm HP HQ HE s Hs Hp. specialize (Hm s Hs (HP _ Hp)).
  destruct (m s) as [[a|e] s']; destruct Hm; auto.
Qed.

Lemma store_ret {A} (P : directory -> Prop) (a : A) E : triple Inv P (sret a) (fun b d => b = a /\ P d) E.
Proof. by intros s. Qed.

Lemma store_raise {A} (P : directory -> Prop) e (Q : A -> directory -> Prop) : triple Inv P (sraise e) Q P.
Proof. by intros s. Qed.

Lemma store_bind {A B} P (m : store A) (f : A -> store B) Q R E :
  triple Inv P m Q E -> (forall a, triple Inv (Q a) (f a) R E) -> triple Inv P (sbind m f) R E.
Proof.
  intros Hm Hf s Hs Hp. unfold sbind. specialize (Hm s Hs Hp).
  destruct (m s) as [[a|e] s']; [|done]. destruct Hm as [Hs' Ha]. exact (Hf a s' Hs' Ha).
Qed.

Lemma store_catch {A} P (m : store A) h Q E E' :
  triple Inv P m Q E -> (forall e, triple Inv E (h e) Q E') -> triple Inv P (scatch m h) Q E'.
Proof.
  intros Hm Hh s Hs Hp. unfold scatch. specialize (Hm s Hs Hp).
  destruct (m s) as [[a|e] s']; [done|]. destruct Hm as [Hs' He]. exact (Hh e s' Hs' He).
Qed.

Lemma store_lift {A} (P : directory -> Prop) (r : result A) :
  triple Inv P (slift r) (fun a d => r = Ok a /\ P d) P.
Proof. intros s Hs Hp. unfold slift. by destruct r. Qed.

Lemma store_guard (P : directory -> Prop) b e : triple Inv P (sguard b e) (fun _ d => b = false /\ P d) P.
Proof. intros s Hs Hp. unfold sguard, slift. by destruct b. Qed.

Lemma store_uid (P : directory -> Prop) E : triple Inv P (sread s_uid) (fun a d => a = uid /\ P d) E.
Proof. intros s Hs Hp. by destruct Hs. Qed.

Lemma store_dir (P : directory -> Prop) E : triple Inv P (sread s_dir) (fun a d => a = d /\ P d) E.
Proof. by intros s Hs Hp. Qed.

Lemma store_syscall (P : directory -> Prop) : triple Inv P syscall (fun _ => P) P.
Proof. intros s Hs Hp. unfold syscall. by destruct (s_faults s) as [|[]]. Qed.

Lemma store_token (P : directory -> Prop) E : triple Inv P token (fun _ => P) E.
Proof. by intros s Hs Hp. Qed.

Lemma store_count n (P : directory -> Prop) E : triple Inv P (write_count n) (fun c d => (c <= n)%nat /\ P d) E.
Proof.
  intros s Hs Hp. unfold write_count. split; [done|]. split; [|done].
  destruct (s_counts s); lia.
Qed.

Lemma store_mutate f (P Q : directory -> Prop) E : (forall d, P d -> G d -> G (f d) /\ Q (f d)) ->
  triple Inv P (smutate f) (fun _ => Q) E.
Proof.
  intros Hf s (Hu & Hc & Hg & h & Hh & Hall) Hp. destruct (Hf _ Hp Hg) as [Hg' Hq]. simpl.
  split; [|done]. split; [done|]. split; [done|]. split; [done|]. exists (f (s_dir s) :: h).
  split; [by rewrite /= Hh|by constructor].
Qed.

(** A lookup returns what the directory has. *)
Lemma store_stat name (P : directory -> Prop) :
  triple Inv P (sys_stat name) (fun f d => d !! name = Some f /\ P d) P.
Proof.
  unfold sys_stat. eapply store_bind; [apply store_syscall|]. intros []. simpl.
  eapply store_bind; [apply store_dir|]. intros d.
  eapply store_conseq; [apply store_lift|intros ? Hd; exact Hd| |].
  - intros f d' [Hf [-> Hp]]. split; [|done]. by apply result_of_option_Ok in Hf.
  - by intros d' [_ ?].
Qed.

Lemma store_stat_if_exists name (P : directory -> Prop) :
  triple Inv P (stat_if_exists name) (fun _ => P) P.
Proof.
  unfold stat_if_exists. eapply store_catch.
  - eapply store_bind; [apply store_stat|]. intros f.
    eapply store_conseq; [apply store_ret|intros ? Hd; exact Hd| |intros ? H; exact H].
    intros o d [_ [_ Hp]]. exact Hp.
  - intros e. destruct (is_not_found e); [|apply store_raise].
    eapply store_conseq; [apply (store_ret P None P)|done| |done]. by intros o d [_ ?].
Qed.

Lemma store_unlink name (P Q : directory -> Prop) :
  (forall d, P d -> G d -> G (delete name d) /\ Q (delete name d)) ->
  triple Inv P (sys_unlink name) (fun _ => Q) P.
Proof.
  intros Hf. unfold sys_unlink. eapply store_bind; [apply store_stat|]. intros f.
  apply store_mutate. intros d [_ Hp]. by apply Hf.
Qed.

End Triples.

(** ** Crash safety of [_atomic_json_write] *)
Section Crash.
Context (uid : Z) (d0 : directory) (destination temporary : pystr) (encoded : pybytes).
Context (Hne : destination <> temporary) (s0 : StoreState).

Definition whole_file (data : pybytes) : FileEntry := mkFile Regular uid private_mode data.

(** Every directory a crash can leave: other files as they were, the destination
    as it was or complete. *)
Definition never_torn (d : directory) : Prop :=
  (forall n, n <> destination -> n <> temporary -> d !! n = d0 !! n) /\
  (d !! destination = d0 !! destination \/ d !! destination = Some (whole_file encoded)).

Definition unpublished (d : directory) : Prop := d !! destination = d0 !! destination.

(** The temporary file holds what has been written so far. *)
Definition filling (data : pybytes) (d : directory) : Prop :=
  unpublished d /\ d !! temporary = Some (whole_file data).

Notation Inv := (dir_invariant s0 uid never_torn).

Lemma torn_unpublished d : unpublished d ->
  (forall n, n <> destination -> n <> temporary -> d !! n = d0 !! n) -> never_torn d.
Proof. intros Hu Ho. split; [done|]. by left. Qed.

Lemma create_temporary_crash :
  triple Inv unpublished (create_temporary temporary) (fun _ => filling []) unpublished.
Proof.
  unfold create_temporary.
  eapply store_bind; [apply store_syscall|]. intros ?.
  eapply store_bind; [apply store_dir|]. intros d.
  eapply store_bind; [apply store_uid|]. intros uid'.
  eapply store_bind.
  - eapply store_conseq; [apply store_guard|intros ? Hp; exact Hp|intros ? ? Hq; exact Hq|].
    intros d' (_ & _ & ?). done.
  - intros r. apply store_mutate. intros d' (Hb & Huid & Hdir & Hu) [Ho _].
    rewrite Huid. split.
    + apply torn_unpublished; [|intros n Hn1 Hn2].
      * unfold unpublished. rewrite lookup_insert_ne; [congruence|exact Hu].
      * rewrite lookup_insert_ne; [congruence|by apply Ho].
    + split; [unfold unpublished; rewrite lookup_insert_ne; [congruence|exact Hu]|by rewrite lookup_insert_eq].
Qed.

Lemma write_all_crash fuel view written : written ++ view = encoded ->
  triple Inv (filling written) (write_all fuel temporary view) (fun _ => filling encoded) unpublished.
Proof.
  revert view written. induction fuel as [|fuel IH]; intros view written He.
  - destruct view; simpl.
    + rewrite app_nil_r in He. subst. eapply store_conseq; [apply (store_ret _ _ _ (filling encoded) tt unpublished)|done| |done].
      by intros [] d [_ ?].
    + eapply store_conseq; [apply (store_raise _ _ _ (filling written))|done|intros ? ? Hq; exact Hq|by intros d [? _]].
  - destruct view as [|b view]; simpl.
    + rewrite app_nil_r in He. subst. eapply store_conseq; [apply (store_ret _ _ _ (filling encoded) tt unpublished)|done| |done].
      by intros [] d [_ ?].
    + eapply store_bind.
      { eapply store_conseq; [apply (store_syscall s0 uid never_torn (filling written))|done| |by intros d [? _]].
        intros ? ? Hq; exact Hq. }
      intros ?. eapply store_bind; [apply (store_count s0 uid never_torn)|]. intros n. cbn beta.
      eapply store_bind.
      { eapply store_conseq; [apply store_guard|intros ? Hp; exact Hp|intros ? ? Hq; exact Hq|].
        by intros d [_ [? _]]. }
      intros ?. cbn beta. eapply store_bind; [|intros ?; apply (IH _ (written ++ take n (b :: view)))].
      2: { by rewrite -app_assoc take_drop. }
      apply store_mutate. intros d (_ & _ & Hu & Ht) [Ho _].
      assert (Hd : unpublished (append_to temporary (take n (b :: view)) d)).
      { unfold unpublished, append_to. rewrite lookup_alter_ne; [congruence|exact Hu]. }
      split; [apply torn_unpublished; [done|]; intros m Hm1 Hm2; unfold append_to;
              rewrite lookup_alter_ne; [congruence|by apply Ho]|].
      split; [done|]. unfold append_to. by rewrite lookup_alter_eq Ht.
Qed.

Lemma fill_temporary_crash :
  triple Inv (filling []) (fill_temporary temporary encoded) (fun _ => filling encoded) unpublished.
Proof.
  unfold fill_temporary.
  assert (Hsys : forall data, triple Inv (filling data) syscall (fun _ => filling data) unpublished).
  { intros data. eapply store_conseq; [apply (store_syscall s0 uid never_torn (filling data))|done|done|].
    by intros d [? _]. }
  eapply store_bind; [apply Hsys|]. intros ?.
  eapply store_bind.
  { eapply store_conseq; [apply (store_stat s0 uid never_torn)|intros ? Hp; exact Hp|intros ? ? Hq; exact Hq|].
    by intros d [? _]. }
  intros f. eapply store_bind; [apply store_uid|]. intros uid'. cbn beta.
  eapply store_bind.
  { eapply store_conseq; [apply store_guard|intros ? Hp; exact Hp|intros ? ? Hq; exact Hq|].
    by intros d (_ & _ & ? & _). }
  intros ?. cbn beta.
  eapply store_bind; [|intros ?; eapply store_bind; [apply Hsys|intros ?; apply Hsys]].
  eapply store_conseq; [apply (write_all_crash _ encoded [] eq_refl)| |done|done].
  by intros d (_ & _ & _ & ?).
Qed.

Definition published (d : directory) : Prop :=
  d !! destination = Some (whole_file encoded) /\ d !! temporary = None.

Definition anything (d : directory) : Prop := True.

Lemma replace_crash :
  triple Inv (filling encoded) (sys_replace temporary destination ;! syscall) (fun _ => published) anything.
Proof.
  eapply store_bind with (Q := fun _ => published).
  2: { intros ?. eapply store_conseq; [apply (store_syscall s0 uid never_torn published)|done|done|done]. }
  unfold sys_replace. eapply store_bind.
  { eapply store_conseq; [apply (store_stat s0 uid never_torn)|intros ? Hp; exact Hp|intros ? ? Hq; exact Hq|done]. }
  intros f. apply store_mutate. intros d (Hf & Hu & Ht) [Ho _].
  rewrite Ht in Hf. injection Hf as <-. split; [split|split].
  - intros n Hn1 Hn2. rewrite lookup_insert_ne; [congruence|]. rewrite lookup_delete_ne; [congruence|by apply Ho].
  - right. by rewrite lookup_insert_eq.
  - by rewrite lookup_insert_eq.
  - rewrite lookup_insert_ne; [congruence|]. apply lookup_delete_eq.
Qed.

(** Removing the temporary file changes nothing else. *)
Lemma remove_crash : triple Inv anything (_remove_known_temporary temporary) (fun _ => anything) anything.
Proof.
  unfold _remove_known_temporary. eapply store_bind; [apply store_stat_if_exists|]. intros o.
  eapply store_bind; [apply store_uid|]. intros uid'. cbn beta.
  assert (Hret : triple Inv (fun d => uid' = uid /\ anything d) (sret tt) (fun _ => anything) anything)
    by (eapply store_conseq; [apply (store_ret _ _ _ anything tt anything)|done|done|done]).
  destruct o as [f|]; [|exact Hret]. destruct (_ && _); [|exact Hret].
  eapply store_conseq; [apply (store_unlink s0 uid never_torn temporary anything anything)|done|done|done].
  intros d _ [Ho Hd]. split; [|done]. split.
  - intros n Hn1 Hn2. rewrite lookup_delete_ne; [congruence|by apply Ho].
  - rewrite lookup_delete_ne; [congruence|done].
Qed.

Lemma cleanup_crash {A} fd_open e (Q : A -> directory -> Prop) :
  triple Inv anything (cleanup fd_open temporary e) Q anything.
Proof.
  unfold cleanup. eapply store_bind with (Q := fun _ => anything).
  - destruct fd_open; [apply store_syscall|].
    eapply store_conseq; [apply (store_ret _ _ _ anything tt anything)|done|done|done].
  - intros ?. eapply store_bind; [apply remove_crash|]. intros ?.
    eapply store_conseq; [apply (store_raise s0 uid never_torn anything e)|done|intros ? ? Hq; exact Hq|done].
Qed.

Lemma publish_crash :
  triple Inv unpublished (publish temporary destination encoded)
    (fun _ => published) anything.
Proof.
  unfold publish. eapply store_bind with (Q := fun _ => filling []).
  { eapply store_catch; [apply create_temporary_crash|]. intros e.
    eapply store_conseq; [apply (cleanup_crash false e)|done|intros ? ? Hq; exact Hq|done]. }
  intros ?. eapply store_bind with (Q := fun _ => filling encoded).
  { eapply store_catch; [apply fill_temporary_crash|]. intros e.
    eapply store_conseq; [apply (cleanup_crash true e)|done|intros ? ? Hq; exact Hq|done]. }
  intros ?. eapply store_catch; [apply replace_crash|]. intros e. apply cleanup_crash.
Qed.

End Crash.

(** Two states that differ in the kernel's answers and the diagnostics only. *)
Definition same_disk (s s' : StoreState) : Prop :=
  s_dir s' = s_dir s /\ s_uid s' = s_uid s /\ s_closed s' = s_closed s /\
  s_tokens s' = s_tokens s /\ s_history s' = s_history s.

Lemma syscall_frame s : same_disk s (syscall s).2.
Proof. unfold syscall. by destruct (s_faults s) as [|[]]. Qed.

Lemma stat_frame name s : same_disk s (sys_stat name s).2.
Proof.
  unfold sys_stat, sbind. pose proof (syscall_frame s) as Hf.
  destruct (syscall s) as [[a|e] s']; [|done]. done.
Qed.

Lemma stat_if_exists_frame name s : same_disk s (stat_if_exists name s).2.
Proof.
  unfold stat_if_exists, scatch, sbind. pose proof (stat_frame name s) as Hf.
  destruct (sys_stat name s) as [[a|e] s']; [done|]. simpl in *. by destruct (is_not_found e).
Qed.

Lemma verify_frame name s : same_disk s (_verify_existing_destination name s).2.
Proof.
  unfold _verify_existing_destination, sbind. pose proof (stat_if_exists_frame name s) as Hf.
  by destruct (stat_if_exists name s) as [[[f|]|e] s'].
Qed.

Lemma sbind_inv {A B} (m : store A) (f : A -> store B) s r s' : sbind m f s = (r, s') ->
  (exists a s1, m s = (Ok a, s1) /\ f a s1 = (r, s')) \/ (exists e, m s = (Err e, s') /\ r = Err e).
Proof. unfold sbind. destruct (m s) as [[a|e] s1]; [by eauto|]. intros [= <- <-]. eauto. Qed.

Lemma slift_inv {A B} (m : result A) (f : A -> store B) s r s' : sbind (slift m) f s = (r, s') ->
  (exists a, m = Ok a /\ f a s = (r, s')) \/ (exists e, m = Err e /\ r = Err e /\ s' = s).
Proof. unfold sbind, slift. destruct m as [a|e]; [by eauto|]. intros [= <- <-]. eauto 6. Qed.

(** The temporary name the next write will use. *)
Definition next_temporary (s : StoreState) : pystr := u ".tmp-" ++ default [] (head (s_tokens s)).

(** The write fails before it touches the disk, or the text is checked and published. *)
Lemma atomic_write_moves {A} rec_limit destination value (decoder : pyval -> result A) maximum kind s r s' :
  destination <> next_temporary s ->
  _atomic_json_write rec_limit destination value decoder maximum kind s = (r, s') ->
  (same_disk s s' /\ exists e, r = Err e) \/
  exists encoded p x, encode_state value = Ok encoded /\ len encoded <= maximum /\
    parse_object rec_limit encoded (u "encoded state must be an object") = Ok p /\ _decode p decoder = Ok x /\
    dir_invariant s (s_uid s) (never_torn (s_uid s) (s_dir s) destination (next_temporary s) encoded) s' /\
    (r = Ok tt -> published (s_uid s) destination (next_temporary s) encoded (s_dir s')).
Proof.
  intros Hne E. unfold _atomic_json_write in E. pose proof (verify_frame destination s) as Hv.
  apply sbind_inv in E as [(v & s1 & E1 & E)|(e & E1 & ->)]; rewrite E1 in Hv; simpl in Hv; [|left; by eauto].
  apply slift_inv in E as [(encoded & He & E)|(? & ? & -> & ->)]; [|left; by eauto].
  apply slift_inv in E as [(? & Hl & E)|(? & ? & -> & ->)]; [|left; by eauto].
  apply slift_inv in E as [(q & Hp & E)|(? & ? & -> & ->)]; [|left; by eauto].
  apply slift_inv in E as [(y & Hx & E)|(? & ? & -> & ->)]; [|left; by eauto].
  right. exists encoded, q, y. apply raise_if_Ok in Hl. do 4 (split; [done || lia|]).
  unfold sbind, token in E. cbv beta iota zeta in E. destruct Hv as (Hd & Hu & Hc & Htok & Hh). rewrite Htok in E.
  fold (next_temporary s) in E.
  match type of E with publish _ _ _ ?s2 = _ =>
    pose proof (publish_crash (s_uid s) (s_dir s) destination (next_temporary s) encoded Hne s s2) as Hpub end.
  unfold dir_invariant in Hpub. simpl in Hpub. rewrite Hd Hu Hc Hh in Hpub. rewrite Hd Hu Hc Hh in E. rewrite E in Hpub.
  specialize (Hpub (conj eq_refl (conj eq_refl (conj (torn_unpublished _ _ _ _ _ _ eq_refl (fun _ _ _ => eq_refl))
    (ex_intro _ [] (conj eq_refl (Forall_nil_2 _)))))) eq_refl).
  by destruct r as [[]|e]; destruct Hpub as (Hg & Hpub).
Qed.

(** The write is all or nothing, whatever system calls fail. *)
Lemma atomic_write_crash {A} rec_limit destination value (decoder : pyval -> result A) maximum kind encoded s :
  destination <> next_temporary s -> s_history s = [] -> encode_state value = Ok encoded ->
  let s' := (_atomic_json_write rec_limit destination value decoder maximum kind s).2 in
  Forall (never_torn (s_uid s) (s_dir s) destination (next_temporary s) encoded) (s_dir s' :: s_history s') /\
  ((_atomic_json_write rec_limit destination value decoder maximum kind s).1 = Ok tt ->
   published (s_uid s) destination (next_temporary s) encoded (s_dir s')).
Proof.
  intros Hne Hh He. cbv zeta.
  destruct (_atomic_json_write rec_limit destination value decoder maximum kind s) as [r s'] eqn:E. simpl.
  destruct (atomic_write_moves _ _ _ _ _ _ _ _ _ Hne E)
    as [((Hd & _ & _ & _ & Hh') & e & ->)|(raw & p & x & He' & _ & _ & _ & (_ & _ & Hg & h & Hh' & Hall) & Hpub)].
  - split; [|done]. rewrite Hd Hh' Hh. constructor; [by apply torn_unpublished|constructor].
  - rewrite He in He'. apply Ok_inj in He' as <-. split; [|done]. rewrite Hh' Hh app_nil_r. by constructor.
Qed.

(** ** Runs without kernel errors

    With no fault pending, reading is a function of the directory. *)
Definition quiet (s : StoreState) : Prop := s_faults s = [] /\ s_counts s = [].

Section Quiet.
Context (rec_limit : nat).

Definition file_object (d : directory) (uid : Z) (name : pystr) (maximum : Z) (kind : pystr) : result pydict :=
  let? f := result_of_option (d !! name) ENOENT_error in
  raise_if (bool_decide (f_kind f = Symlink)) (OSError ELOOP) ;?
  check_file f uid name ;?
  raise_if (maximum <? len (f_data f)) (size_error kind maximum) ;?
  parse_object rec_limit (f_data f) (u "persisted state must be an object").

Lemma syscall_quiet s : quiet s -> syscall s = (Ok tt, s).
Proof. intros [Hf _]. unfold syscall. by rewrite Hf. Qed.

Lemma stat_quiet name s : quiet s -> sys_stat name s = (result_of_option (s_dir s !! name) ENOENT_error, s).
Proof. intros Hq. unfold sys_stat, sbind. by rewrite (syscall_quiet s Hq). Qed.

Lemma read_json_quiet name maximum kind s : quiet s ->
  _read_json rec_limit name maximum kind s = (file_object (s_dir s) (s_uid s) name maximum kind, s).
Proof.
  intros Hq. unfold _read_json, sys_open, sbind, file_object. rewrite (stat_quiet name s Hq).
  destruct (result_of_option (s_dir s !! name) ENOENT_error) as [f|e]; [|done].
  cbn [rbind]. unfold sguard, slift, sret, sread. destruct (bool_decide (f_kind f = Symlink)); [done|]. cbn [raise_if rbind].
  rewrite (syscall_quiet s Hq). destruct (check_file f (s_uid s) name) as [[]|]; [|done]. cbn [rbind].
  destruct (maximum <? len (f_data f)); [done|]. cbn [raise_if rbind]. by rewrite (syscall_quiet s Hq).
Qed.

(** [None] when the file does not exist. *)
Definition object_if_exists (d : directory) (uid : Z) (name : pystr) (maximum : Z) (kind : pystr)
  : result (option pydict) :=
  match file_object d uid name maximum kind with
  | Ok p => Ok (Some p)
  | Err e => if is_not_found e then Ok None else Err e
  end.

Lemma read_if_exists_quiet name maximum kind s : quiet s ->
  read_if_exists rec_limit name maximum kind s = (object_if_exists (s_dir s) (s_uid s) name maximum kind, s).
Proof.
  intros Hq. unfold read_if_exists, scatch, sbind, object_if_exists. rewrite read_json_quiet //.
  destruct (file_object _ _ _ _ _); [done|]. by destruct (is_not_found e).
Qed.

Fixpoint tombstone_for (d : directory) (uid : Z) (names : list pystr) (workspace : pystr) : result bool :=
  match names with
  | [] => Ok false
  | name :: rest =>
      let? payload := object_if_exists d uid name MAX_TOMBSTONE_BYTES (u "tombstone") in
      match payload with
      | None => tombstone_for d uid rest workspace
      | Some p =>
          let? validated := _validate_tombstone (VDict p) in
          match dict_get_none validated (u "workspace_id") with
          | VStr s => if str_eqb s workspace then Ok true else tombstone_for d uid rest workspace
          | _ => tombstone_for d uid rest workspace
          end
      end
  end.

Lemma tombstone_in_quiet names workspace s : quiet s ->
  tombstone_in rec_limit names workspace s = (tombstone_for (s_dir s) (s_uid s) names workspace, s).
Proof.
  intros Hq. induction names as [|name names IH]; [done|]. cbn [tombstone_in tombstone_for]. unfold sbind.
  rewrite read_if_exists_quiet //. destruct (object_if_exists _ _ _ _ _) as [[p|]|e]; cbn [rbind]; [|exact IH|done].
  unfold slift. destruct (_validate_tombstone (VDict p)) as [v|]; [|done]. cbn [rbind].
  destruct (dict_get_none v (u "workspace_id")); try exact IH. destruct (str_eqb _ _); [done|exact IH].
Qed.

Definition finished (d : directory) (uid : Z) (workspace : pystr) : result bool :=
  tombstone_for d uid [COMPLETION_FILE; DISCARD_FILE] workspace.

(** The unresolved record of a directory, and whether a tombstone has ended it. *)
Definition stored_recovery (d : directory) (uid : Z) : result (option (RecoveryRecord * bool)) :=
  let? payload := object_if_exists d uid RECOVERY_FILE MAX_RECOVERY_BYTES (u "recovery") in
  match payload with
  | None => Ok None
  | Some p =>
      let? record := _decode p recovery_from_dict in
      let? ended := finished d uid (workspace_id record) in
      Ok (Some (record, ended))
  end.

Lemma unlink_quiet name s f : quiet s -> s_dir s !! name = Some f ->
  sys_unlink name s = (Ok tt, with_dir (delete name (s_dir s)) s).
Proof. intros Hq Hf. unfold sys_unlink, sbind. rewrite stat_quiet // Hf. done. Qed.

Lemma with_dir_quiet d s : quiet s -> quiet (with_dir d s).
Proof. done. Qed.

Lemma object_exists d uid name maximum kind p : object_if_exists d uid name maximum kind = Ok (Some p) ->
  exists f, d !! name = Some f.
Proof.
  unfold object_if_exists, file_object. destruct (d !! name) as [f|]; [by eauto|done].
Qed.

(** Loading: the record if there is one and it is not finished. *)
Lemma load_recovery_quiet s o : quiet s -> stored_recovery (s_dir s) (s_uid s) = Ok o ->
  _load_recovery_unlocked rec_limit s =
  match o with
  | None => (Ok None, s)
  | Some (record, false) => (Ok (Some record), s)
  | Some (record, true) => (Ok None, with_dir (delete RECOVERY_FILE (s_dir s)) s)
  end.
Proof.
  intros Hq Ho. unfold stored_recovery in Ho. unfold _load_recovery_unlocked, sbind, read_recovery.
  rewrite read_if_exists_quiet //.
  destruct (object_if_exists _ _ _ _ _) as [[p|]|] eqn:Hp; [|by apply Ok_inj in Ho as ->|done].
  cbn [rbind] in Ho. unfold scatch, slift. destruct (_decode p recovery_from_dict) as [record|]; [|done].
  cbn [rbind] in Ho. unfold _has_terminal_tombstone. rewrite tombstone_in_quiet //.
  fold (finished (s_dir s) (s_uid s) (workspace_id record)).
  destruct (finished _ _ _) as [[]|]; [| |done]; cbn [rbind] in Ho; apply Ok_inj in Ho as ->; [|done].
  destruct (object_exists _ _ _ _ _ _ Hp) as [f Hf].
  unfold drop_recovery, sbind. rewrite (unlink_quiet _ _ _ Hq Hf).
  by rewrite (syscall_quiet _ (with_dir_quiet _ _ Hq)).
Qed.

(** ** Writing without kernel errors *)
Lemma stored_object d uid name raw maximum kind p : d !! name = Some (whole_file uid raw) ->
  len raw <= maximum -> parse_object rec_limit raw (u "persisted state must be an object") = Ok p ->
  file_object d uid name maximum kind = Ok p.
Proof.
  intros Hd Hl Hp. unfold file_object. rewrite Hd. cbn [result_of_option rbind f_kind whole_file].
  assert (check_file (whole_file uid raw) uid name = Ok tt) as ->.
  { unfold check_file, whole_file. simpl. by rewrite Z.eqb_refl. }
  cbn [raise_if rbind f_data whole_file]. by rewrite ltb_false.
Qed.

(** A name at which a state file may be written. *)
Definition writable (d : directory) (uid : Z) (name : pystr) : Prop :=
  d !! name = None \/ exists raw, d !! name = Some (whole_file uid raw).

Lemma stat_if_exists_quiet name s : quiet s -> stat_if_exists name s = (Ok (s_dir s !! name), s).
Proof.
  intros Hq. unfold stat_if_exists, scatch, sbind. rewrite stat_quiet //.
  by destruct (s_dir s !! name).
Qed.

Lemma verify_quiet name s : quiet s -> writable (s_dir s) (s_uid s) name ->
  _verify_existing_destination name s = (Ok tt, s).
Proof.
  intros Hq Hw. unfold _verify_existing_destination, sbind. rewrite stat_if_exists_quiet //. simpl.
  destruct Hw as [->|[raw ->]]; [done|]. unfold slift, check_file, whole_file. simpl. by rewrite Z.eqb_refl.
Qed.

Lemma write_all_quiet fuel name view s f : quiet s -> (length view <= fuel)%nat ->
  s_dir s !! name = Some f -> exists s', write_all fuel name view s = (Ok tt, s') /\ quiet s' /\
    s_uid s' = s_uid s /\ s_closed s' = s_closed s /\ s_tokens s' = s_tokens s /\
    s_diagnostics s' = s_diagnostics s /\
    s_dir s' = <[name := mkFile (f_kind f) (f_uid f) (f_mode f) (f_data f ++ view)]> (s_dir s).
Proof.
  intros Hq Hl Hf. destruct view as [|b view].
  - exists s. destruct fuel; simpl; rewrite app_nil_r; repeat (split; [done|]);
      rewrite insert_id //; by destruct f.
  - destruct fuel as [|fuel]; [simpl in Hl; lia|]. simpl. unfold sbind at 1. rewrite syscall_quiet //.
    unfold sbind, write_count. destruct Hq as [Hq1 Hq2]. rewrite Hq2. unfold sguard, slift, smutate. simpl.
    rewrite drop_ge; [done|]. assert (Hend : forall s0, write_all fuel name [] s0 = (Ok tt, s0)) by by destruct fuel.
    rewrite Hend. eexists. split; [done|]. simpl. split; [done|]. repeat (split; [done|]).
    unfold append_to. rewrite firstn_all. apply map_eq. intros n.
    destruct (decide (n = name)) as [->|Hn].
    + by rewrite lookup_alter_eq lookup_insert_eq Hf.
    + rewrite lookup_alter_ne; [congruence|]. by rewrite lookup_insert_ne; [congruence|].
Qed.

(** The parts of a state that writing a file leaves alone. *)
Definition same_settings (s s' : StoreState) : Prop :=
  quiet s' /\ s_uid s' = s_uid s /\ s_closed s' = s_closed s /\ s_diagnostics s' = s_diagnostics s.

Lemma publish_quiet temporary destination encoded s : quiet s -> temporary <> destination ->
  s_dir s !! temporary = None ->
  exists s', publish temporary destination encoded s = (Ok tt, s') /\ same_settings s s' /\
    s_tokens s' = s_tokens s /\
    s_dir s' = <[destination := whole_file (s_uid s) encoded]> (s_dir s).
Proof.
  intros Hq Hne Hfresh. unfold publish.
  assert (Hcreate : create_temporary temporary s =
    (Ok tt, with_dir (<[temporary := whole_file (s_uid s) []]> (s_dir s)) s)).
  { unfold create_temporary, sbind. rewrite syscall_quiet //. simpl. by rewrite Hfresh. }
  set (s1 := with_dir _ s) in Hcreate.
  assert (Hq1 : quiet s1) by done.
  assert (Hf1 : s_dir s1 !! temporary = Some (whole_file (s_uid s) [])) by apply lookup_insert_eq.
  destruct (write_all_quiet (length encoded) temporary encoded s1 _ Hq1 (le_n _) Hf1)
    as (s2 & Hw & Hq2 & Hu2 & Hc2 & Ht2 & Hg2 & Hd2). simpl in Hd2.
  assert (Hfill : fill_temporary temporary encoded s1 = (Ok tt, s2)).
  { unfold fill_temporary, sbind. rewrite syscall_quiet // stat_quiet // Hf1. simpl.
    rewrite Z.eqb_refl. simpl. rewrite Hw (syscall_quiet s2) //. by rewrite (syscall_quiet s2). }
  unfold scatch, sbind. rewrite Hcreate Hfill. unfold sys_replace, sbind. rewrite (stat_quiet _ s2) //.
  rewrite Hd2 lookup_insert_eq. simpl. rewrite syscall_quiet //. eexists. split; [done|].
  split; [split; [exact Hq2|split; [exact Hu2|split; [exact Hc2|exact Hg2]]]|]. split; [exact Ht2|]. simpl. rewrite Hd2. apply map_eq. intros n.
  destruct (decide (n = destination)) as [->|Hn]; [by rewrite !lookup_insert_eq|].
  rewrite lookup_insert_ne; [congruence|]. rewrite [RHS]lookup_insert_ne; [congruence|].
  destruct (decide (n = temporary)) as [->|Hn2]; [by rewrite lookup_delete_eq|].
  rewrite lookup_delete_ne; [congruence|]. rewrite lookup_insert_ne; [congruence|].
  simpl. by rewrite lookup_insert_ne; [congruence|].
Qed.

Lemma atomic_write_quiet {A} destination value (decoder : pyval -> result A) maximum kind encoded p x s :
  quiet s -> writable (s_dir s) (s_uid s) destination -> destination <> next_temporary s ->
  s_dir s !! next_temporary s = None -> encode_state value = Ok encoded -> len encoded <= maximum ->
  parse_object rec_limit encoded (u "encoded state must be an object") = Ok p -> _decode p decoder = Ok x ->
  exists s', _atomic_json_write rec_limit destination value decoder maximum kind s = (Ok tt, s') /\
    same_settings s s' /\ s_tokens s' = tail (s_tokens s) /\
    s_dir s' = <[destination := whole_file (s_uid s) encoded]> (s_dir s).
Proof.
  intros Hq Hw Hne Hfresh He Hl Hp Hx. unfold _atomic_json_write, sbind. rewrite verify_quiet // He.
  unfold slift, sguard. rewrite ltb_false //. simpl. unfold slift. rewrite Hp Hx. unfold token.
  fold (next_temporary s).
  set (s1 := mkStore _ _ _ _ _ _ _ _).
  destruct (publish_quiet (next_temporary s) destination encoded s1) as (s' & Hs' & Hset & Htok & Hd);
    [done|congruence|done|]. exists s'. split; [exact Hs'|]. done.
Qed.

End Quiet.

(** ** The depth of state records *)
Lemma nesting_list (n : nat) l : Forall (fun v => (nesting v <= n)%nat) l -> (nesting (VList l) <= S n)%nat.
Proof. intros Hl. cbn [nesting]. apply le_n_S. induction Hl; simpl; lia. Qed.

Lemma nesting_map {A} (f : A -> pyval) n l : (forall x, nesting (f x) <= n)%nat ->
  (nesting (VList (map f l)) <= S n)%nat.
Proof. intros Hf. apply nesting_list. induction l; simpl; constructor; auto. Qed.

Lemma nesting_num x : nesting (num_val x) = O.
Proof. by destruct x. Qed.

Lemma nesting_opt {A} (f : A -> pyval) n o : (forall x, nesting (f x) <= n)%nat ->
  (nesting (opt_val f o) <= n)%nat.
Proof. intros Hf. destruct o; [apply Hf|]. simpl. lia. Qed.

Lemma command_nesting x : (nesting (_command_to_dict x) <= 1)%nat.
Proof.
  unfold _command_to_dict. cbn [nesting map snd foldr].
  pose proof (nesting_opt VStr 0 (executable x) ltac:(done)). lia.
Qed.

Lemma shell_nesting x : (nesting (_shell_to_dict x) <= 2)%nat.
Proof.
  unfold _shell_to_dict, _identity_to_dict. cbn [nesting map snd foldr].
  pose proof (nesting_opt _ 1 (command x) command_nesting).
  pose proof (nesting_opt (fun t => VStr (enum_value t)) 0 (termination x) ltac:(done)). lia.
Qed.

Lemma strs_nesting l : (nesting (str_list_val l) <= 1)%nat.
Proof. by apply (nesting_map VStr O). Qed.

Lemma attempt_nesting x : (nesting (_attempt_to_dict x) <= 3)%nat.
Proof.
  unfold _attempt_to_dict. cbn [nesting map snd foldr].
  pose proof (strs_nesting (selected_item_ids x)). pose proof (strs_nesting (approved_item_ids x)).
  pose proof (nesting_map _outcome_to_dict 1 (outcomes x) ltac:(intros []; cbn; lia)).
  cbn [nesting] in *. lia.
Qed.

Lemma item_nesting x : (nesting (_recovery_item_to_dict x) <= 3)%nat.
Proof.
  unfold _recovery_item_to_dict. cbn [nesting map snd foldr]. pose proof (shell_nesting (rec_shell x)). lia.
Qed.

Lemma recovery_nesting x d : recovery_to_dict x = Ok d -> (nesting d <= 5)%nat.
Proof.
  unfold recovery_to_dict. intros (? & _ & E)%rbind_Ok. apply Ok_inj in E as ->.
  cbn [nesting map snd foldr]. rewrite nesting_num.
  pose proof (nesting_map _ 3 (items x) item_nesting). pose proof (nesting_map _ 3 (attempts x) attempt_nesting).
  pose proof (strs_nesting (completed_item_ids x)).
  cbn [nesting] in *. lia.
Qed.

Lemma snapshot_nesting x d : snapshot_to_dict x = Ok d -> (nesting d <= 4)%nat.
Proof.
  unfold snapshot_to_dict. intros (? & _ & E)%rbind_Ok. apply Ok_inj in E as ->.
  cbn [nesting map snd foldr]. rewrite nesting_num. pose proof (nesting_map _ 2 (shells x) shell_nesting).
  cbn [nesting] in *. lia.
Qed.

(** ** Files that hold a record *)

(** The text of a record: its encoder's dict, printed, within the size limit. *)
Definition recovery_text (x : RecoveryRecord) (raw : pybytes) : Prop :=
  recovery_wf x /\ is_float (created_at x) /\ len raw <= MAX_RECOVERY_BYTES /\
  exists d, recovery_to_dict x = Ok (VDict d) /\ value_ok (VDict d) = true /\ encode_state (VDict d) = Ok raw.

Definition snapshot_text (x : Snapshot) (raw : pybytes) : Prop :=
  snapshot_wf x /\ is_float (captured_at x) /\ len raw <= MAX_SNAPSHOT_BYTES /\
  exists d, snapshot_to_dict x = Ok (VDict d) /\ value_ok (VDict d) = true /\ encode_state (VDict d) = Ok raw.

Lemma recovery_text_reads rec_limit x raw m : (16 <= rec_limit)%nat -> recovery_text x raw ->
  exists p, parse_object rec_limit raw m = Ok p /\ _decode p recovery_from_dict = Ok x.
Proof.
  intros Hr (Hwf & Hf & _ & d & Hd & Hv & He). pose proof (recovery_nesting _ _ Hd).
  exists (sorted_dict d). split; [apply parse_state; [done|lia|done]|].
  apply decode_sorted; [apply recovery_order|done|exact (recovery_encoded x _ Hwf Hf Hd)|].
  unfold recovery_to_dict in Hd. apply rbind_Ok in Hd as (? & Hs & Hd). apply raise_if_Ok in Hs.
  apply negb_false_iff, Z.eqb_eq in Hs. rewrite Hs in Hd. apply Ok_inj in Hd. by injection Hd as ->.
Qed.

Lemma snapshot_text_reads rec_limit x raw m : (16 <= rec_limit)%nat -> snapshot_text x raw ->
  exists p, parse_object rec_limit raw m = Ok p /\ _decode p snapshot_from_dict = Ok x.
Proof.
  intros Hr (Hwf & Hf & _ & d & Hd & Hv & He). pose proof (snapshot_nesting _ _ Hd).
  exists (sorted_dict d). split; [apply parse_state; [done|lia|done]|].
  apply decode_sorted; [apply snapshot_order|done|exact (snapshot_encoded x _ Hwf Hf Hd)|].
  unfold snapshot_to_dict in Hd. apply rbind_Ok in Hd as (? & Hs & Hd). apply raise_if_Ok in Hs.
  apply negb_false_iff, Z.eqb_eq in Hs. rewrite Hs in Hd. apply Ok_inj in Hd. by injection Hd as ->.
Qed.

(** [holds d uid x] : the directory's recovery file holds [x]. *)
Definition holds (d : directory) (uid : Z) (x : RecoveryRecord) : Prop :=
  exists raw, recovery_text x raw /\ d !! RECOVERY_FILE = Some (whole_file uid raw).

Lemma holds_stored rec_limit d uid x : (16 <= rec_limit)%nat -> holds d uid x ->
  stored_recovery rec_limit d uid = (let? ended := finished rec_limit d uid (workspace_id x) in Ok (Some (x, ended))).
Proof.
  intros Hr (raw & Ht & Hd). unfold stored_recovery, object_if_exists.
  destruct (recovery_text_reads rec_limit x raw (u "persisted state must be an object") Hr Ht) as (p & Hp & Hx).
  destruct Ht as (_ & _ & Hl & _).
  rewrite (stored_object rec_limit d uid _ raw _ (u "recovery") p Hd Hl Hp). cbn [rbind]. by rewrite Hx.
Qed.

(** The tombstones do not depend on other files. *)
Lemma finished_other rec_limit d d' uid ws :
  d !! COMPLETION_FILE = d' !! COMPLETION_FILE -> d !! DISCARD_FILE = d' !! DISCARD_FILE ->
  finished rec_limit d uid ws = finished rec_limit d' uid ws.
Proof.
  intros H1 H2. unfold finished. cbn [tombstone_for]. unfold object_if_exists, file_object. by rewrite H1 H2.
Qed.

(** State files do not have the name of a temporary. *)
Lemma state_file_not_temporary name s : head name <> Some 46 -> name <> next_temporary s.
Proof. intros Hh ->. by apply Hh. Qed.

Lemma save_recovery_quiet rec_limit x raw s : (16 <= rec_limit)%nat -> quiet s -> recovery_text x raw ->
  writable (s_dir s) (s_uid s) RECOVERY_FILE -> s_dir s !! next_temporary s = None ->
  exists s', save_recovery rec_limit x s = (Ok tt, s') /\ same_settings s s' /\
    s_tokens s' = tail (s_tokens s) /\ s_dir s' = <[RECOVERY_FILE := whole_file (s_uid s) raw]> (s_dir s).
Proof.
  intros Hr Hq Ht Hw Hfresh.
  destruct (recovery_text_reads rec_limit x raw (u "encoded state must be an object") Hr Ht) as (p & Hp & Hx).
  destruct Ht as (Hwf & Hf & Hl & d & Hd & Hv & He). unfold save_recovery, sbind, slift. rewrite Hd.
  exact (atomic_write_quiet rec_limit _ _ _ _ _ _ _ _ _ Hq Hw (state_file_not_temporary RECOVERY_FILE s ltac:(done))
    Hfresh He Hl Hp Hx).
Qed.

(** ** Loading and writing through the public operations *)
Section Operations.
Context (rec_limit : nat) (Hrec : (16 <= rec_limit)%nat).

(** An open store, with no kernel error pending and a fresh temporary name. *)
Definition ready (s : StoreState) : Prop :=
  quiet s /\ s_closed s = false /\ s_dir s !! next_temporary s = None.

Definition unfinished (s : StoreState) (workspace : pystr) : Prop :=
  finished rec_limit (s_dir s) (s_uid s) workspace = Ok false.

Lemma transaction_open {A} (body : store A) s : s_closed s = false -> _transaction body s = body s.
Proof. intros Hc. unfold _transaction, sbind. simpl. by rewrite Hc. Qed.

Lemma load_holds s x : quiet s -> holds (s_dir s) (s_uid s) x -> unfinished s (workspace_id x) ->
  _load_recovery_unlocked rec_limit s = (Ok (Some x), s).
Proof.
  intros Hq Hh Hu. erewrite load_recovery_quiet; [|done|rewrite (holds_stored rec_limit _ _ x) //; by rewrite Hu].
  done.
Qed.

Lemma load_finished s x : quiet s -> holds (s_dir s) (s_uid s) x ->
  finished rec_limit (s_dir s) (s_uid s) (workspace_id x) = Ok true ->
  _load_recovery_unlocked rec_limit s = (Ok None, with_dir (delete RECOVERY_FILE (s_dir s)) s).
Proof.
  intros Hq Hh Hu. erewrite load_recovery_quiet; [|done|rewrite (holds_stored rec_limit _ _ x) //; by rewrite Hu].
  done.
Qed.

Lemma absent_object d uid name maximum kind : d !! name = None ->
  object_if_exists rec_limit d uid name maximum kind = Ok None.
Proof. intros Hd. unfold object_if_exists, file_object. by rewrite Hd. Qed.

Lemma load_absent s : quiet s -> s_dir s !! RECOVERY_FILE = None ->
  _load_recovery_unlocked rec_limit s = (Ok None, s).
Proof.
  intros Hq Hd. erewrite load_recovery_quiet; [|done|by rewrite /stored_recovery absent_object].
  done.
Qed.

Lemma unfinished_other s s' workspace : s_uid s' = s_uid s ->
  s_dir s !! COMPLETION_FILE = s_dir s' !! COMPLETION_FILE ->
  s_dir s !! DISCARD_FILE = s_dir s' !! DISCARD_FILE -> unfinished s workspace -> unfinished s' workspace.
Proof. intros Hu H1 H2 H. unfold unfinished. by rewrite Hu -(finished_other rec_limit (s_dir s)). Qed.

(** Replacing the recovery record: the new one is held, and nothing else changes. *)
Lemma save_holds s x raw : quiet s -> s_dir s !! next_temporary s = None ->
  writable (s_dir s) (s_uid s) RECOVERY_FILE -> recovery_text x raw ->
  exists s', save_recovery rec_limit x s = (Ok tt, s') /\ same_settings s s' /\
    holds (s_dir s') (s_uid s') x /\ (forall n, n <> RECOVERY_FILE -> s_dir s' !! n = s_dir s !! n).
Proof.
  intros Hq Hfresh Hw Ht.
  destruct (save_recovery_quiet rec_limit x raw s Hrec Hq Ht Hw Hfresh) as (s' & Hs & Hset & _ & Hd).
  exists s'. split; [done|]. split; [done|]. destruct Hset as (_ & Hu & _). split.
  - exists raw. split; [done|]. by rewrite Hd Hu lookup_insert_eq.
  - intros n Hn. rewrite Hd lookup_insert_ne; [congruence|done].
Qed.

Lemma other_names : COMPLETION_FILE <> RECOVERY_FILE /\ DISCARD_FILE <> RECOVERY_FILE /\
  COMPLETION_FILE <> DISCARD_FILE.
Proof. by repeat split. Qed.

Lemma unfinished_saved s s' workspace : s_uid s' = s_uid s ->
  (forall n, n <> RECOVERY_FILE -> s_dir s' !! n = s_dir s !! n) -> unfinished s workspace ->
  unfinished s' workspace.
Proof.
  intros Hu Hd. destruct other_names as (H1 & H2 & _).
  apply unfinished_other; [done|symmetry; by apply Hd..].
Qed.

End Operations.

(** ** Committing outcomes *)
Lemma add_completed_elem completed outs x :
  x ∈ add_completed completed outs <->
  x ∈ completed \/ exists o, o ∈ outs /\ is_terminal (out_kind o) = true /\ out_item_id o = x.
Proof.
  revert completed. induction outs as [|o outs IH]; intros completed; cbn [add_completed].
  - split; [by left|]. intros [?|(o & Ho & _)]; [done|]. by apply not_elem_of_nil in Ho.
  - rewrite IH. setoid_rewrite elem_of_cons.
    destruct (is_terminal (out_kind o)) eqn:Hk; simpl.
    + destruct (str_in (out_item_id o) completed) eqn:Hin; simpl.
      * apply str_in_spec in Hin. naive_solver.
      * rewrite elem_of_app list_elem_of_singleton. naive_solver.
    + naive_solver congruence.
Qed.

Lemma add_completed_prefix completed outs : exists rest, add_completed completed outs = completed ++ rest.
Proof.
  revert completed. induction outs as [|o outs IH]; intros completed; cbn [add_completed].
  - exists []. by rewrite app_nil_r.
  - destruct (_ && _); [|apply IH]. destruct (IH (completed ++ [out_item_id o])) as [rest ->].
    exists (out_item_id o :: rest). by rewrite -app_assoc.
Qed.

Definition with_outcomes (a : RestoreAttempt) (outs : list Outcome) : RestoreAttempt :=
  mkAttempt (attempt_id a) (att_workspace_id a) (selected_item_ids a) (approved_item_ids a) outs.

(** The record after an attempt. *)
Definition record_after (r : RecoveryRecord) (a : RestoreAttempt) (outs : list Outcome) : RecoveryRecord :=
  mkRecovery (rec_schema_version r) (workspace_id r) (source_generation r) (created_at r) (items r)
    (attempts r ++ [with_outcomes a outs]) (add_completed (completed_item_ids r) outs).

Lemma committed_Ok r ws a outs r' : committed r ws a outs = Ok r' ->
  r' = record_after r a outs /\ ws = workspace_id r /\ att_workspace_id a = ws /\
  attempt_id a ∉ map attempt_id (attempts r) /\
  attempt_post_init (with_outcomes a outs) = Ok tt /\ recovery_post_init r' = Ok tt.
Proof.
  unfold committed. intros Hr.
  repeat match type of Hr with
  | rbind _ _ = Ok _ => let H := fresh "Hs" in apply rbind_Ok in Hr as (? & H & Hr)
  end.
  apply construct_Ok in Hr as [-> Hr]. apply construct_Ok in Hs5 as [-> Ha].
  apply raise_if_Ok, orb_false_iff in Hs as [Hs Hs'].
  apply negb_false_iff, str_eqb_eq in Hs, Hs'. apply raise_if_Ok in Hs0.
  split; [done|]. split; [done|]. split; [done|]. split; [|done].
  intros Hin. apply list_elem_of_fmap in Hin as (a' & He & Hin).
  assert (existsb (fun a0 => str_eqb (attempt_id a0) (attempt_id a)) (attempts r) = true) as E; [|congruence].
  apply existsb_exists. exists a'. split; [by apply list_elem_of_In|]. by apply str_eqb_eq.
Qed.

Lemma committed_wf r ws a outs r' : recovery_wf r -> Forall outcome_wf outs ->
  committed r ws a outs = Ok r' -> recovery_wf r'.
Proof.
  intros (Hr & Hi & Ha) Ho Hc. apply committed_Ok in Hc as (-> & _ & _ & _ & Hap & Hrp).
  split; [done|]. split; [done|]. apply Forall_app. split; [done|]. by repeat constructor.
Qed.

(** ** Finishing a workspace *)
Section Finishing.
Context (rec_limit : nat) (Hrec : (16 <= rec_limit)%nat).

Definition tombstone_file (discard : bool) : pystr := if discard then DISCARD_FILE else COMPLETION_FILE.

(** The text of a tombstone. *)
Definition tombstone_text (ws : pystr) (discard : bool) (now : pyfloat) (raw : pybytes) : Prop :=
  ws <> [] /\ value_ok (tombstone ws discard now) = true /\
  encode_state (tombstone ws discard now) = Ok raw /\ len raw <= MAX_TOMBSTONE_BYTES.

Definition tombstone_dict (ws : pystr) (discard : bool) (now : pyfloat) : pydict :=
  match tombstone ws discard now with VDict d => sorted_dict d | _ => [] end.

Lemma tombstone_get ws discard now k : NoDup [u "schema_version"; u "workspace_id"; u "disposition"; u "timestamp"] ->
  dict_get_none (tombstone_dict ws discard now) k =
  sorted_keys (dict_get_none (match tombstone ws discard now with VDict d => d | _ => [] end) k).
Proof.
  intros Hd. unfold dict_get_none, tombstone_dict, tombstone. rewrite sorted_get //.
  by destruct (dict_get k _).
Qed.

Lemma tombstone_keys_nodup : NoDup [u "schema_version"; u "workspace_id"; u "disposition"; u "timestamp"].
Proof. by apply nodupb_spec. Qed.

Lemma tombstone_valid ws discard now : ws <> [] ->
  _validate_tombstone (VDict (tombstone_dict ws discard now)) = Ok (tombstone_dict ws discard now).
Proof.
  intros Hws. unfold _validate_tombstone.
  rewrite !(fun k => tombstone_get ws discard now k tombstone_keys_nodup).
  assert (set_eqb (dict_keys (tombstone_dict ws discard now))
    [u "schema_version"; u "workspace_id"; u "disposition"; u "timestamp"] = true) as ->.
  { apply set_eqb_spec. intros x. unfold tombstone_dict, tombstone. by rewrite sorted_dict_keys. }
  destruct ws as [|c ws]; [done|]. by destruct discard.
Qed.

Lemma tombstone_decodes ws discard now raw m : tombstone_text ws discard now raw ->
  parse_object rec_limit raw m = Ok (tombstone_dict ws discard now) /\
  _decode (tombstone_dict ws discard now) _validate_tombstone = Ok (tombstone_dict ws discard now).
Proof.
  intros (Hws & Hv & He & _). split.
  - unfold tombstone_dict, tombstone in *. apply parse_state; [done| |done]. cbn. lia.
  - unfold _decode. rewrite (tombstone_get _ _ _ _ tombstone_keys_nodup). by apply tombstone_valid.
Qed.

(** Once the tombstone is in place the workspace is finished. *)
Lemma finished_by_tombstone d d' uid ws discard now raw : tombstone_text ws discard now raw ->
  finished rec_limit d uid ws = Ok false ->
  d' !! tombstone_file discard = Some (whole_file uid raw) ->
  d' !! tombstone_file (negb discard) = d !! tombstone_file (negb discard) ->
  finished rec_limit d' uid ws = Ok true.
Proof.
  intros Ht Hu Hd Ho.
  assert (Hread : object_if_exists rec_limit d' uid (tombstone_file discard) MAX_TOMBSTONE_BYTES (u "tombstone") =
    Ok (Some (tombstone_dict ws discard now))).
  { unfold object_if_exists. destruct (tombstone_decodes _ _ _ _ (u "persisted state must be an object") Ht) as [Hp _].
    by rewrite (stored_object rec_limit _ _ _ raw _ (u "tombstone") _ Hd (proj2 (proj2 (proj2 Ht))) Hp). }
  assert (Hother : object_if_exists rec_limit d' uid (tombstone_file (negb discard)) MAX_TOMBSTONE_BYTES (u "tombstone") =
    object_if_exists rec_limit d uid (tombstone_file (negb discard)) MAX_TOMBSTONE_BYTES (u "tombstone")).
  { unfold object_if_exists, file_object. by rewrite Ho. }
  assert (Hmine : forall rest, tombstone_for rec_limit d' uid (tombstone_file discard :: rest) ws = Ok true).
  { intros rest. cbn [tombstone_for]. rewrite Hread. cbn [rbind].
    rewrite tombstone_valid; [by destruct Ht|]. cbn [rbind].
    rewrite (tombstone_get _ _ _ _ tombstone_keys_nodup).
    change (dict_get_none _ _) with (VStr ws). cbn [sorted_keys]. by rewrite str_eqb_refl. }
  unfold finished in *. destruct discard; [|exact (Hmine [DISCARD_FILE])].
  cbn [tombstone_for] in Hu |- *. simpl in Hother. rewrite Hother.
  destruct (object_if_exists rec_limit d uid COMPLETION_FILE _ _) as [[p|]|]; cbn [rbind] in *; [| |done].
  - destruct (_validate_tombstone (VDict p)) as [v|]; cbn [rbind] in *; [|done].
    destruct (dict_get_none v (u "workspace_id")); try exact (Hmine []).
    destruct (str_eqb _ ws); [done|exact (Hmine [])].
  - exact (Hmine []).
Qed.

End Finishing.

(** ** Claims *)


(** C9. A recovery record that is written is the one that is loaded: the record
    survives encoding with sorted keys, the bytes of the file and decoding.  A
    workspace that is still unresolved is never replaced. *)
Theorem recovery_written_once rec_limit s x y raw : (16 <= rec_limit)%nat -> ready s ->
  recovery_text x raw -> unfinished rec_limit s (workspace_id x) -> unfinished rec_limit s (workspace_id y) ->
  s_dir s !! RECOVERY_FILE = None \/ holds (s_dir s) (s_uid s) y ->
  exists s', write_recovery rec_limit x s = (Ok tt, s') /\
    load_recovery rec_limit s' =
      (Ok (Some (match s_dir s !! RECOVERY_FILE with None => x | Some _ => y end)), s').
Proof.
  intros Hrec (Hq & Hc & Hfresh) Ht Hux Huy Hold. unfold write_recovery, load_recovery.
  rewrite transaction_open //. unfold _write_recovery_if_absent_unlocked, read_recovery, sbind.
  rewrite read_if_exists_quiet //. destruct Hold as [Hnone|Hy].
  - rewrite absent_object //.
    destruct (save_holds rec_limit Hrec s x raw Hq Hfresh (or_introl Hnone) Ht) as (s' & Hs & Hset & Hh & Ho).
    destruct Hset as (Hq' & Hu & Hc' & _). exists s'. split; [done|]. rewrite transaction_open; [congruence|].
    rewrite Hnone. apply load_holds; [done..|]. exact (unfinished_saved rec_limit s s' _ Hu Ho Hux).
  - destruct Hy as (raw' & Hty & Hd).
    destruct (recovery_text_reads rec_limit y raw' (u "persisted state must be an object") Hrec Hty) as (p & Hp & _).
    unfold object_if_exists.
    rewrite (stored_object rec_limit _ _ _ raw' _ (u "recovery") p Hd (proj1 (proj2 (proj2 Hty))) Hp).
    exists s. split; [done|]. rewrite transaction_open // Hd. apply load_holds; [done..|by exists raw'|done].
Qed.

(** The record after a committed attempt: the items are the same, the attempt
    is appended under an identifier no earlier attempt has, nothing that was
    completed is forgotten, an item is newly completed exactly if its outcome is
    a success or a warning, and the record satisfies its class invariant. *)
Theorem committed_record r ws a outs r' : recovery_wf r -> Forall outcome_wf outs ->
  committed r ws a outs = Ok r' ->
  recovery_wf r' /\ items r' = items r /\ attempts r' = attempts r ++ [with_outcomes a outs] /\
  NoDup (map attempt_id (attempts r')) /\ (exists rest, completed_item_ids r' = completed_item_ids r ++ rest) /\
  (forall x, x ∈ completed_item_ids r' <->
     x ∈ completed_item_ids r \/ exists o, o ∈ outs /\ is_terminal (out_kind o) = true /\ out_item_id o = x).
Proof.
  intros Hr Ho Hc. split; [exact (committed_wf _ _ _ _ _ Hr Ho Hc)|].
  apply committed_Ok in Hc as (-> & _ & _ & _ & _ & Hrp).
  split; [done|]. split; [done|]. split.
  - unfold recovery_post_init, _require_unique in Hrp. r_inv. apply nodupb_spec.
    by match goal with Hn : nodupb (map attempt_id _) = true |- _ => rewrite Hn end.
  - split; [apply add_completed_prefix|]. intros x. apply add_completed_elem.
Qed.

(** Committing the outcomes of an attempt replaces the stored record by the
    record after the attempt, which is what the next load returns; a commit that
    is refused raises and leaves the store as it was. *)
Theorem commit_outcomes_persisted rec_limit s r ws a outs : (16 <= rec_limit)%nat -> ready s ->
  holds (s_dir s) (s_uid s) r -> unfinished rec_limit s (workspace_id r) ->
  match committed r ws a outs with
  | Err e => commit_outcomes rec_limit ws a outs s = (Err e, s)
  | Ok r' => forall raw, recovery_text r' raw ->
      exists s', commit_outcomes rec_limit ws a outs s = (Ok r', s') /\
        load_recovery rec_limit s' = (Ok (Some r'), s') /\
        forall n, n <> RECOVERY_FILE -> s_dir s' !! n = s_dir s !! n
  end.
Proof.
  intros Hrec (Hq & Hcl & Hfresh) Hh Hu.
  pose proof (load_holds rec_limit Hrec s r Hq Hh Hu) as Hload.
  assert (Hrun : commit_outcomes rec_limit ws a outs s =
    (let! updated := slift (committed r ws a outs) in
     _update_recovery_unlocked rec_limit updated ws (source_generation r) ;! sret updated) s).
  { unfold commit_outcomes. rewrite transaction_open //. unfold _commit_outcomes_unlocked.
    unfold sbind at 1. by rewrite Hload. }
  rewrite Hrun. clear Hrun. destruct (committed r ws a outs) as [r'|e] eqn:Hc; [|done].
  intros raw Ht. apply committed_Ok in Hc as (Hr' & -> & _ & _ & _ & _).
  assert (Hws : workspace_id r' = workspace_id r) by by subst r'.
  assert (Hgen : source_generation r' = source_generation r) by by subst r'.
  destruct Hh as (raw0 & Ht0 & Hd0).
  destruct (save_holds rec_limit Hrec s r' raw Hq Hfresh (or_intror (ex_intro _ raw0 Hd0)) Ht)
    as (s' & Hs & Hset & Hh' & Ho).
  exists s'. destruct Hset as (Hq' & Hu' & Hc' & _). split; [|split; [|done]].
  - unfold sbind, slift, _update_recovery_unlocked, sbind. rewrite Hload. unfold sguard, slift.
    rewrite Hws Hgen str_eqb_refl Z.eqb_refl. simpl. by rewrite Hs.
  - unfold load_recovery. rewrite transaction_open; [congruence|]. apply load_holds; [done..|].
    rewrite Hws. exact (unfinished_saved rec_limit s s' _ Hu' Ho Hu).
Qed.

Lemma tombstone_file_name discard :
  tombstone_file discard <> RECOVERY_FILE /\ head (tombstone_file discard) <> Some 46.
Proof. by destruct discard. Qed.

(** The run of [complete_or_discard] when all goes well: the tombstone, then the removal. *)
Lemma finish_run rec_limit s r discard now raw : (16 <= rec_limit)%nat -> ready s ->
  holds (s_dir s) (s_uid s) r -> unfinished rec_limit s (workspace_id r) ->
  discard = true \/ set_eqb (completed_item_ids r) (map rec_item_id (items r)) = true ->
  tombstone_text (workspace_id r) discard now raw -> writable (s_dir s) (s_uid s) (tombstone_file discard) ->
  exists s1, _atomic_json_write rec_limit (tombstone_file discard) (tombstone (workspace_id r) discard now)
      _validate_tombstone MAX_TOMBSTONE_BYTES (u "tombstone") s = (Ok tt, s1) /\ same_settings s s1 /\
    s_dir s1 = <[tombstone_file discard := whole_file (s_uid s) raw]> (s_dir s) /\
    complete_or_discard rec_limit (workspace_id r) discard now s =
      (Ok tt, with_dir (delete RECOVERY_FILE (s_dir s1)) s1).
Proof.
  intros Hrec (Hq & Hcl & Hfresh) Hh Hu Hdone Ht Hw.
  destruct (tombstone_decodes rec_limit Hrec _ _ _ _ (u "encoded state must be an object") Ht) as [Hp Hx].
  pose proof Ht as (_ & _ & He & Hl).
  destruct (atomic_write_quiet rec_limit (tombstone_file discard) _ _ MAX_TOMBSTONE_BYTES (u "tombstone") _ _ _ s
    Hq Hw (state_file_not_temporary _ s (proj2 (tombstone_file_name discard))) Hfresh He Hl Hp Hx)
    as (s1 & Hs1 & Hset & _ & Hd1).
  exists s1. split; [done|]. split; [done|]. split; [done|].
  destruct Hset as (Hq1 & Hu1 & _). destruct Hh as (raw0 & Ht0 & Hd0).
  assert (Hd : s_dir s1 !! RECOVERY_FILE = Some (whole_file (s_uid s) raw0)).
  { rewrite Hd1 lookup_insert_ne; [apply tombstone_file_name|done]. }
  unfold complete_or_discard. rewrite transaction_open //. unfold _complete_or_discard_unlocked, sbind.
  rewrite (load_holds rec_limit Hrec s r Hq); [by exists raw0|done|]. unfold sguard, slift.
  rewrite str_eqb_refl. simpl.
  assert (negb discard && negb (set_eqb (completed_item_ids r) (map rec_item_id (items r))) = false) as ->
    by (destruct Hdone as [->| ->]; [done|by destruct discard]).
  simpl. fold (tombstone_file discard). rewrite Hs1. unfold drop_recovery, sbind.
  rewrite (unlink_quiet _ _ _ Hq1 Hd). by rewrite (syscall_quiet _ (with_dir_quiet _ _ Hq1)).
Qed.


(** ** Witnesses *)
Definition text_of (v : result pyval) : pybytes :=
  match v with Ok v => match encode_state v with Ok raw => raw | Err _ => [] end | Err _ => [] end.

Definition sample_time : pynum := NFloat (FFin false 3 0).
Definition sample_shell : ShellRecord :=
  mkShell (u "s1") (mkIdentity (u "boot-1") 10 20) (u "kitty") (u "/home/u") 4 None None.
Definition sample_record : RecoveryRecord :=
  mkRecovery 1 (u "w1") 7 sample_time [mkItemRecord (u "s1") sample_shell (u "previous_boot")] [] [].
Definition sample_attempt : RestoreAttempt := mkAttempt (u "a1") (u "w1") [u "s1"] [] [].
Definition sample_outcomes : list Outcome := [mkOutcome (u "s1") SUCCESS (u "restored")].
Definition empty_store : StoreState := mkStore ∅ 1000 false [] [] [] [u "00"] [].
Definition store_with (x : RecoveryRecord) : StoreState :=
  mkStore {[ RECOVERY_FILE := whole_file 1000 (text_of (recovery_to_dict x)) ]} 1000 false [] [] [] [u "00"] [].

Lemma recovery_text_of x : recovery_post_init x = Ok tt -> Forall item_record_wf (items x) ->
  Forall attempt_wf (attempts x) -> is_float (created_at x) ->
  len (text_of (recovery_to_dict x)) <=? MAX_RECOVERY_BYTES = true ->
  match recovery_to_dict x with
  | Ok (VDict d) => value_ok (VDict d) && is_ok (encode_state (VDict d))
  | _ => false
  end = true ->
  recovery_text x (text_of (recovery_to_dict x)).
Proof.
  intros Hp Hi Ha Hf Hl Hd. split; [done|]. split; [done|]. split; [by apply Z.leb_le|].
  destruct (recovery_to_dict x) as [[]|]; try done. apply andb_true_iff in Hd as [Hv He].
  eexists. split; [done|]. split; [done|]. simpl. by destruct (encode_state _).
Qed.

Lemma sample_record_text : recovery_text sample_record (text_of (recovery_to_dict sample_record)).
Proof. apply recovery_text_of; [done| |done|done|by vm_compute|by vm_compute]. by repeat constructor. Qed.

Lemma sample_after_text :
  let x := record_after sample_record sample_attempt sample_outcomes in
  recovery_text x (text_of (recovery_to_dict x)).
Proof. apply recovery_text_of; [done| | |done|by vm_compute|by vm_compute]; by repeat constructor. Qed.

Lemma store_with_ready x : ready (store_with x).
Proof. by repeat split. Qed.

Lemma store_with_holds x : recovery_text x (text_of (recovery_to_dict x)) ->
  holds (s_dir (store_with x)) (s_uid (store_with x)) x.
Proof. intros Ht. eexists. split; [exact Ht|]. apply lookup_singleton_eq. Qed.

Lemma store_with_unfinished rec_limit x ws : unfinished rec_limit (store_with x) ws.
Proof.
  unfold unfinished, finished. cbn [tombstone_for].
  rewrite !absent_object; [by rewrite lookup_singleton_ne..|done].
Qed.

Lemma empty_unfinished rec_limit ws : unfinished rec_limit empty_store ws.
Proof. unfold unfinished, finished. cbn [tombstone_for]. by rewrite !absent_object. Qed.

Definition sample_tombstone_text : pybytes := text_of (Ok (tombstone (u "w1") true (FFin false 9 0))).

(** The disk is full after ten bytes: the write fails and the file is not there. *)
Definition failing_store : StoreState :=
  mkStore ∅ 1000 false [] [None; None; None; None; None; Some DeviceError] [10%nat] [u "00"] [].


Lemma recovery_written_once_witness :
  exists s', write_recovery 16 sample_record empty_store = (Ok tt, s') /\
    load_recovery 16 s' = (Ok (Some sample_record), s').
Proof.
  apply (recovery_written_once 16 empty_store sample_record sample_record (text_of (recovery_to_dict sample_record)));
    [lia|done|exact sample_record_text|apply empty_unfinished|apply empty_unfinished|by left].
Defined.

Lemma committed_record_witness :
  completed_item_ids (record_after sample_record sample_attempt sample_outcomes) = [u "s1"] /\
  recovery_wf (record_after sample_record sample_attempt sample_outcomes).
Proof.
  split; [by vm_compute|].
  apply (committed_record sample_record (u "w1") sample_attempt sample_outcomes); [|by repeat constructor|by vm_compute].
  split; [done|]. by repeat constructor.
Defined.

Lemma commit_outcomes_persisted_witness :
  exists s', commit_outcomes 16 (u "w1") sample_attempt sample_outcomes (store_with sample_record) =
      (Ok (record_after sample_record sample_attempt sample_outcomes), s') /\
    load_recovery 16 s' = (Ok (Some (record_after sample_record sample_attempt sample_outcomes)), s').
Proof.
  pose proof (commit_outcomes_persisted 16 (store_with sample_record) sample_record (u "w1") sample_attempt
    sample_outcomes (le_n _) (store_with_ready _) (store_with_holds _ sample_record_text)
    (store_with_unfinished 16 _ _)) as H.
  assert (committed sample_record (u "w1") sample_attempt sample_outcomes =
    Ok (record_after sample_record sample_attempt sample_outcomes)) as Hc by (vm_compute; reflexivity).
  rewrite Hc in H. destruct (H _ sample_after_text) as (s' & H1 & H2 & _). exists s'. split; assumption.
Defined.

