(* ===== verification/StoreFaults.v ===== *)
(** * The recovery record under failing system calls

    What each operation of the store may do to the unresolved recovery record when
    any of its system calls fails: [open_record] is the record a directory has
    open, and every operation leaves it, or moves it the one way it should. *)
From S2P Require Import Prelude PyText PyVal PyFloat Json Codec Model Store StateCodec StoreProofs.
#[local] Open Scope store_scope.

(** ** Records print *)
Definition real_time (t : pynum) : Prop :=
  match t with NFloat f => value_ok (VFloat f) = true | NInt _ => False end.

Lemma real_time_float t : real_time t -> is_float t.
Proof. by destruct t. Qed.

Lemma value_ok_list {A} (f : A -> pyval) l : (forall x, value_ok (f x) = true) -> value_ok (VList (map f l)) = true.
Proof. intros Hf. cbn [value_ok]. rewrite forallb_map. apply forallb_forall. intros x _. apply Hf. Qed.

Lemma value_ok_opt {A} (f : A -> pyval) o : (forall x, value_ok (f x) = true) -> value_ok (opt_val f o) = true.
Proof. by destruct o; simpl. Qed.

(** A dict with literal keys. *)
Ltac literal_dict :=
  match goal with
  | |- value_ok (VDict ?d) = true =>
      let H := fresh in
      assert (nodupb (map fst d) = true) as H by (vm_compute; reflexivity);
      cbn [value_ok]; rewrite H; clear H; cbn [forallb snd andb]
  end.

Lemma command_value_ok x : value_ok (_command_to_dict x) = true.
Proof. unfold _command_to_dict. literal_dict. by rewrite value_ok_opt. Qed.

Lemma identity_value_ok x : value_ok (_identity_to_dict x) = true.
Proof. unfold _identity_to_dict. by literal_dict. Qed.

Lemma shell_value_ok x : value_ok (_shell_to_dict x) = true.
Proof.
  unfold _shell_to_dict. literal_dict. rewrite identity_value_ok.
  rewrite (value_ok_opt _ _ command_value_ok) value_ok_opt //.
Qed.

Lemma strs_value_ok l : value_ok (str_list_val l) = true.
Proof. by apply value_ok_list. Qed.

Lemma outcome_value_ok x : value_ok (_outcome_to_dict x) = true.
Proof. unfold _outcome_to_dict. by literal_dict. Qed.

Lemma attempt_value_ok x : value_ok (_attempt_to_dict x) = true.
Proof.
  unfold _attempt_to_dict. literal_dict. rewrite !strs_value_ok.
  by rewrite (value_ok_list _ _ outcome_value_ok).
Qed.

Lemma item_value_ok x : value_ok (_recovery_item_to_dict x) = true.
Proof. unfold _recovery_item_to_dict. literal_dict. by rewrite shell_value_ok. Qed.

Lemma time_value_ok t : real_time t -> value_ok (num_val t) = true.
Proof. by destruct t. Qed.

Lemma recovery_value_ok x v : real_time (created_at x) -> recovery_to_dict x = Ok v ->
  exists d, v = VDict d /\ value_ok (VDict d) = true.
Proof.
  intros Ht Hv. unfold recovery_to_dict in Hv. apply rbind_Ok in Hv as ([] & _ & Hv). apply Ok_inj in Hv as ->.
  eexists. split; [reflexivity|]. literal_dict.
  rewrite (time_value_ok _ Ht) (value_ok_list _ _ item_value_ok) (value_ok_list _ _ attempt_value_ok).
  by rewrite strs_value_ok.
Qed.

(** ** Reading

    A reader leaves the disk alone; it answers what the directory says, unless a
    system call fails. *)
Definition is_fault {A} (r : result A) : Prop := exists f, r = Err (fault_error f).

Definition reads {A} (m : store A) (f : directory -> Z -> result A) : Prop :=
  forall s, same_disk s (m s).2 /\ ((m s).1 = f (s_dir s) (s_uid s) \/ is_fault (m s).1).

Lemma same_disk_trans s1 s2 s3 : same_disk s1 s2 -> same_disk s2 s3 -> same_disk s1 s3.
Proof. unfold same_disk. intros (?&?&?&?&?) (?&?&?&?&?). repeat split; congruence. Qed.

Lemma reads_lift {A} (r : result A) : reads (slift r) (fun _ _ => r).
Proof. intros s. split; [done|by left]. Qed.

Lemma reads_ret {A} (a : A) : reads (sret a) (fun _ _ => Ok a).
Proof. exact (reads_lift (Ok a)). Qed.

Lemma reads_guard b e : reads (sguard b e) (fun _ _ => raise_if b e).
Proof. apply reads_lift. Qed.

Lemma reads_uid : reads (sread s_uid) (fun _ uid => Ok uid).
Proof. intros s. split; [done|by left]. Qed.

Lemma reads_syscall : reads syscall (fun _ _ => Ok tt).
Proof.
  intros s. split; [apply syscall_frame|]. unfold syscall.
  destruct (s_faults s) as [|[f|]]; [by left|right; by exists f|by left].
Qed.

Lemma reads_bind {A B} (m : store A) (k : A -> store B) f g : reads m f -> (forall a, reads (k a) (g a)) ->
  reads (sbind m k) (fun d uid => let? a := f d uid in g a d uid).
Proof.
  intros Hm Hk s. unfold sbind. destruct (Hm s) as [Hd Hr]. destruct (m s) as [[a|e] s1]; simpl in *.
  - destruct Hr as [<-|[ft ?]]; [|done]. destruct (Hk a s1) as [Hd' Hr'].
    split; [exact (same_disk_trans _ _ _ Hd Hd')|]. destruct Hd as (Hdir & Huid & _). cbn [rbind].
    by rewrite -Hdir -Huid.
  - split; [done|]. destruct Hr as [<-|[ft [= ->]]]; [by left|right; by exists ft].
Qed.

Lemma reads_ext {A} (m : store A) f g : (forall d uid, f d uid = g d uid) -> reads m f -> reads m g.
Proof. intros He Hm s. rewrite -He. apply Hm. Qed.

Lemma reads_stat name : reads (sys_stat name) (fun d _ => result_of_option (d !! name) ENOENT_error).
Proof.
  apply (reads_bind syscall _ (fun _ _ => Ok tt) (fun _ d _ => result_of_option (d !! name) ENOENT_error));
    [apply reads_syscall|intros [] s]. split; [done|by left].
Qed.

Section Reading.
Context (rec_limit : nat).

Lemma reads_json name maximum kind :
  reads (_read_json rec_limit name maximum kind) (fun d uid => file_object rec_limit d uid name maximum kind).
Proof.
  unfold _read_json, sys_open. eapply reads_ext.
  2: { eapply reads_bind; [eapply reads_bind; [apply reads_stat|intros f]|intros f].
       { eapply reads_bind; [apply reads_guard|intros ?; apply reads_ret]. }
       eapply reads_bind; [apply reads_uid|intros uid].
       eapply reads_bind; [apply reads_syscall|intros ?].
       eapply reads_bind; [apply reads_lift|intros ?].
       eapply reads_bind; [apply reads_guard|intros ?].
       eapply reads_bind; [apply reads_syscall|intros ?; exact (reads_lift _)]. }
  intros d uid. unfold file_object. destruct (result_of_option (d !! name) ENOENT_error) as [f|]; [|done].
  cbn [rbind]. by destruct (bool_decide (f_kind f = Symlink)).
Qed.

Lemma fault_found f : is_not_found (fault_error f) = false.
Proof. by destruct f. Qed.

Lemma reads_if_exists name maximum kind :
  reads (read_if_exists rec_limit name maximum kind) (fun d uid => object_if_exists rec_limit d uid name maximum kind).
Proof.
  intros s. unfold read_if_exists, scatch, sbind, object_if_exists.
  destruct (reads_json name maximum kind s) as [Hd Hr].
  destruct (_read_json rec_limit name maximum kind s) as [[a|e] s1]; simpl in *.
  - destruct Hr as [<-|[ft ?]]; [|done]. split; [done|by left].
  - destruct Hr as [<-|[ft [= ->]]].
    + destruct (is_not_found e); (split; [done|by left]).
    + rewrite fault_found. split; [done|]. right. by exists ft.
Qed.

Lemma reads_tombstone names workspace :
  reads (tombstone_in rec_limit names workspace) (fun d uid => tombstone_for rec_limit d uid names workspace).
Proof.
  induction names as [|name names IH]; [by apply reads_lift|]. cbn [tombstone_in tombstone_for].
  eapply reads_bind; [apply reads_if_exists|]. intros [p|]; [|exact IH].
  eapply reads_bind; [apply reads_lift|]. intros v.
  destruct (dict_get_none v (u "workspace_id")); try exact IH. destruct (str_eqb _ _); [apply reads_lift|exact IH].
Qed.

(** ** The open record *)
Definition open_record (d : directory) (uid : Z) : option RecoveryRecord :=
  match stored_recovery rec_limit d uid with Ok (Some (x, false)) => Some x | _ => None end.

Lemma open_record_absent d uid : d !! RECOVERY_FILE = None -> open_record d uid = None.
Proof. intros Hd. unfold open_record, stored_recovery. by rewrite absent_object. Qed.

(** Which files the open record depends on. *)
Lemma open_record_other d d' uid :
  (forall n, n ∈ [RECOVERY_FILE; COMPLETION_FILE; DISCARD_FILE] -> d !! n = d' !! n) ->
  open_record d uid = open_record d' uid.
Proof.
  intros Hn. unfold open_record, stored_recovery.
  assert (object_if_exists rec_limit d uid RECOVERY_FILE MAX_RECOVERY_BYTES (u "recovery") =
          object_if_exists rec_limit d' uid RECOVERY_FILE MAX_RECOVERY_BYTES (u "recovery")) as ->.
  { unfold object_if_exists, file_object. rewrite Hn; [by constructor|done]. }
  destruct (object_if_exists _ d' _ _ _ _) as [[p|]|]; [|done..]. cbn [rbind].
  destruct (_decode p recovery_from_dict); [|done]. cbn [rbind].
  rewrite (finished_other rec_limit d d'); [apply Hn; set_solver..|]. done.
Qed.

Lemma open_record_wf d uid x : open_record d uid = Some x -> recovery_wf x.
Proof.
  unfold open_record, stored_recovery. destruct (object_if_exists _ _ _ _ _ _) as [[p|]|]; [|done..]. cbn [rbind].
  destruct (_decode p recovery_from_dict) as [r|] eqn:Hd; [|done]. cbn [rbind].
  destruct (finished _ _ _ _) as [[]|]; [done| |done]. intros [= <-].
  unfold _decode in Hd. apply rbind_Ok in Hd as (v & _ & Hd). apply rbind_Ok in Hd as (p' & _ & Hd).
  by apply recovery_decoded in Hd as [? _].
Qed.

(** ** What the operations may do to the disk *)
Definition settled (s s' : StoreState) : Prop := s_uid s' = s_uid s /\ s_closed s' = s_closed s.

Lemma same_disk_settled s s' : same_disk s s' -> settled s s'.
Proof. by intros (_ & ? & ? & _). Qed.

Lemma settled_trans s1 s2 s3 : settled s1 s2 -> settled s2 s3 -> settled s1 s3.
Proof. unfold settled. intros [] []. split; congruence. Qed.

(** The open record of a store. *)
Definition opened (s : StoreState) : option RecoveryRecord := open_record (s_dir s) (s_uid s).

Lemma same_disk_opened s s' : same_disk s s' -> opened s' = opened s.
Proof. unfold opened. by intros (-> & -> & _). Qed.

Lemma unlink_moves name s r s' : sys_unlink name s = (r, s') ->
  settled s s' /\ (same_disk s s' /\ (exists e, r = Err e) \/ s_dir s' = delete name (s_dir s)).
Proof.
  intros E. unfold sys_unlink in E. pose proof (stat_frame name s) as Hf.
  apply sbind_inv in E as [(f & s1 & E1 & E)|(e & E1 & ->)]; rewrite E1 in Hf; simpl in Hf.
  - unfold smutate in E. injection E as <- <-. destruct Hf as (Hd & Hu & Hc & _). split; [done|]. right. simpl. by rewrite Hd.
  - split; [by apply same_disk_settled|]. left. by eauto.
Qed.

Lemma drop_moves s r s' : drop_recovery s = (r, s') ->
  settled s s' /\ (same_disk s s' /\ (exists e, r = Err e) \/ s_dir s' = delete RECOVERY_FILE (s_dir s)).
Proof.
  intros E. unfold drop_recovery in E. apply sbind_inv in E as [(f & s1 & E1 & E)|(e & E1 & ->)].
  - apply unlink_moves in E1 as [Hset H1]. destruct (reads_syscall s1) as [Hd _]. rewrite E in Hd. simpl in Hd.
    split; [exact (settled_trans _ _ _ Hset (same_disk_settled _ _ Hd))|]. right.
    destruct Hd as (-> & _). destruct H1 as [[_ [? ?]]|]; [done|done].
  - by apply unlink_moves in E1.
Qed.

Lemma dropped_opened s s' : settled s s' -> s_dir s' = delete RECOVERY_FILE (s_dir s) -> opened s' = None.
Proof. intros [Hu _] Hd. unfold opened. apply open_record_absent. rewrite Hd. apply lookup_delete_eq. Qed.

Lemma reads_finished workspace :
  reads (_has_terminal_tombstone rec_limit workspace) (fun d uid => finished rec_limit d uid workspace).
Proof. apply reads_tombstone. Qed.

(** The record of a recovery file, unless it is finished. *)
Definition live_record (d : directory) (uid : Z) (p : pydict) : option RecoveryRecord :=
  match _decode p recovery_from_dict with
  | Ok x => match finished rec_limit d uid (workspace_id x) with Ok false => Some x | _ => None end
  | Err _ => None
  end.

Lemma opened_live s p :
  object_if_exists rec_limit (s_dir s) (s_uid s) RECOVERY_FILE MAX_RECOVERY_BYTES (u "recovery") = Ok (Some p) ->
  opened s = live_record (s_dir s) (s_uid s) p.
Proof.
  intros Hp. unfold opened, open_record, stored_recovery, live_record. rewrite Hp. cbn [rbind].
  destruct (_decode p recovery_from_dict) as [x|]; [|done]. cbn [rbind]. by destruct (finished _ _ _ _) as [[]|].
Qed.

(** The body of the loader, once the file is read. *)
Definition load_body (p : pydict) : store (option RecoveryRecord) :=
  let! record := slift (_decode p recovery_from_dict) in
  let! ended := _has_terminal_tombstone rec_limit (workspace_id record) in
  if ended : bool then drop_recovery ;! sret None else sret (Some record).

Lemma load_body_moves p s r s' : load_body p s = (r, s') ->
  settled s s' /\
  (same_disk s s' \/ live_record (s_dir s) (s_uid s) p = None /\ s_dir s' = delete RECOVERY_FILE (s_dir s)) /\
  (forall o, r = Ok o -> live_record (s_dir s) (s_uid s) p = o) /\ (forall x, r = Ok (Some x) -> same_disk s s').
Proof.
  intros E. unfold load_body in E. unfold live_record.
  apply slift_inv in E as [(x & Hx & E)|(e & Hx & -> & ->)]; rewrite Hx; [|split; [done|split; [by left|done]]].
  destruct (reads_finished (workspace_id x) s) as [Hd Hr].
  apply sbind_inv in E as [(b & s1 & E1 & E)|(e & E1 & ->)]; rewrite E1 in Hd, Hr; cbn [fst snd] in Hd, Hr;
    [|split; [by apply same_disk_settled|split; [by left|done]]].
  destruct Hr as [<-|[? ?]]; [|done]. destruct b.
  2: { injection E as <- <-. split; [by apply same_disk_settled|]. split; [by left|]. split; [by intros o [= <-]|done]. }
  apply sbind_inv in E as [(? & s2 & E2 & E)|(e & E2 & ->)]; apply drop_moves in E2 as [Hs H2];
    pose proof (settled_trans _ _ _ (same_disk_settled _ _ Hd) Hs) as Hs2.
  - injection E as <- <-. split; [done|]. destruct H2 as [[_ [? ?]]|H2]; [done|].
    split; [right; split; [done|]; destruct Hd as (<- & _); done|]. split; [by intros o [= <-]|done].
  - split; [done|]. split; [|done]. destruct H2 as [[H2 _]|H2]; [left; exact (same_disk_trans _ _ _ Hd H2)|right].
    split; [done|]. destruct Hd as (<- & _). done.
Qed.

(** Loading answers the open record, and removes the record of a finished workspace. *)
Lemma load_moves s r s' : _load_recovery_unlocked rec_limit s = (r, s') ->
  settled s s' /\ opened s' = opened s /\
  (forall o, r = Ok o -> opened s = o) /\ (forall x, r = Ok (Some x) -> same_disk s s').
Proof.
  intros E. unfold _load_recovery_unlocked, read_recovery in E.
  destruct (reads_if_exists RECOVERY_FILE MAX_RECOVERY_BYTES (u "recovery") s) as [Hd Hr].
  apply sbind_inv in E as [(p & s1 & E1 & E)|(e & E1 & ->)]; rewrite E1 in Hd, Hr; cbn [fst snd] in Hd, Hr;
    [|split; [by apply same_disk_settled|split; [by apply same_disk_opened|done]]].
  destruct Hr as [Hr|[? ?]]; [|done]. symmetry in Hr. pose proof Hd as (Hdir & Huid & _).
  destruct p as [p|].
  2: { injection E as <- <-. rewrite (same_disk_opened _ _ Hd). split; [by apply same_disk_settled|]. split; [done|].
       split; [|done]. intros o [= <-]. unfold opened, open_record, stored_recovery. by rewrite Hr. }
  pose proof (opened_live s p Hr) as Ho. unfold scatch in E. fold (load_body p) in E.
  destruct (load_body p s1) as [[a|e] s2] eqn:E2; apply load_body_moves in E2 as (Hs & Hm & Ha & Hx);
    rewrite Hdir Huid -Ho in Hm; rewrite Hdir Huid -Ho in Ha.
  - injection E as <- <-. split; [exact (settled_trans _ _ _ (same_disk_settled _ _ Hd) Hs)|].
    split; [|split; [exact Ha|intros x Hax; exact (same_disk_trans _ _ _ Hd (Hx x Hax))]].
    destruct Hm as [Hm|[-> Hm]]; [exact (same_disk_opened _ _ (same_disk_trans _ _ _ Hd Hm))|].
    by apply (dropped_opened s1); [|rewrite Hdir].
  - assert (s' = s2 /\ exists e', r = Err e') as [-> [e' ->]]
      by (revert E; destruct (is_type_or_value_error e); destruct e; intros [= <- <-]; by eauto).
    split; [exact (settled_trans _ _ _ (same_disk_settled _ _ Hd) Hs)|]. split; [|done].
    destruct Hm as [Hm|[-> Hm]]; [exact (same_disk_opened _ _ (same_disk_trans _ _ _ Hd Hm))|].
    by apply (dropped_opened s1); [|rewrite Hdir].
Qed.

(** ** Writing *)
Context (Hrec : (16 <= rec_limit)%nat).

Lemma opened_unfinished s x : opened s = Some x ->
  finished rec_limit (s_dir s) (s_uid s) (workspace_id x) = Ok false.
Proof.
  unfold opened, open_record, stored_recovery.
  destruct (object_if_exists _ _ _ _ _ _) as [[p|]|]; [|done..]. cbn [rbind].
  destruct (_decode p recovery_from_dict) as [y|]; [|done]. cbn [rbind].
  destruct (finished _ _ _ _) as [[]|] eqn:E; [done| |done]. by intros [= <-].
Qed.

Lemma opened_holds s x : holds (s_dir s) (s_uid s) x ->
  opened s = match finished rec_limit (s_dir s) (s_uid s) (workspace_id x) with Ok false => Some x | _ => None end.
Proof.
  intros Hh. unfold opened, open_record. rewrite (holds_stored rec_limit _ _ x Hrec Hh).
  by destruct (finished _ _ _ _) as [[]|].
Qed.

(** As long as the recovery file is the same, its record can only be finished. *)
Lemma opened_same_file s s' x : opened s = Some x -> s_uid s' = s_uid s ->
  s_dir s' !! RECOVERY_FILE = s_dir s !! RECOVERY_FILE -> opened s' = Some x \/ opened s' = None.
Proof.
  unfold opened, open_record, stored_recovery. intros Ho -> Hd.
  assert (object_if_exists rec_limit (s_dir s') (s_uid s) RECOVERY_FILE MAX_RECOVERY_BYTES (u "recovery") =
          object_if_exists rec_limit (s_dir s) (s_uid s) RECOVERY_FILE MAX_RECOVERY_BYTES (u "recovery")) as ->
    by (unfold object_if_exists, file_object; by rewrite Hd).
  destruct (object_if_exists _ _ _ _ _ _) as [[p|]|]; [|done..]. cbn [rbind] in *.
  destruct (_decode p recovery_from_dict) as [y|]; [|done]. cbn [rbind] in *.
  destruct (finished rec_limit (s_dir s) _ _) as [[]|]; [done| |done]. injection Ho as ->.
  destruct (finished rec_limit (s_dir s') _ _) as [[]|]; auto.
Qed.

Lemma torn_settled s s' G : dir_invariant s (s_uid s) G s' -> settled s s' /\ G (s_dir s').
Proof. by intros (? & ? & ? & _). Qed.

(** Saving a record: it is the open one afterwards, or nothing has changed. *)
Lemma save_moves x s r s' : recovery_wf x -> real_time (created_at x) -> save_recovery rec_limit x s = (r, s') ->
  let saved := match finished rec_limit (s_dir s) (s_uid s) (workspace_id x) with Ok false => Some x | _ => None end in
  settled s s' /\ (opened s' = opened s \/ opened s' = saved) /\ (r = Ok tt -> opened s' = saved).
Proof.
  intros Hwf Ht E saved. unfold save_recovery in E.
  apply slift_inv in E as [(v & Hv & E)|(e & _ & -> & ->)]; [|split; [done|split; [by left|done]]].
  destruct (recovery_value_ok x v Ht Hv) as (d & -> & Hok).
  pose proof (state_file_not_temporary RECOVERY_FILE s ltac:(done)) as Hne.
  destruct (atomic_write_moves _ _ _ _ _ _ _ _ _ Hne E)
    as [(Hd & e & ->)|(raw & p & y & He & Hl & _ & _ & Hinv & Hpub)].
  { split; [by apply same_disk_settled|]. split; [left; by apply same_disk_opened|done]. }
  apply torn_settled in Hinv as [Hs [Hother Hdest]]. pose proof Hs as [Huid _].
  assert (Hnew : s_dir s' !! RECOVERY_FILE = Some (whole_file (s_uid s) raw) -> opened s' = saved).
  { intros Hf. rewrite (opened_holds s' x).
    - exists raw. rewrite Huid. split; [|done]. split; [done|]. split; [by apply real_time_float|]. split; [done|].
      exists d. done.
    - rewrite Huid. unfold saved. rewrite (finished_other rec_limit (s_dir s') (s_dir s)); [..|done];
        apply Hother; (done || by apply state_file_not_temporary). }
  split; [done|]. split; [|intros Hr; apply Hnew; by destruct (Hpub Hr)].
  destruct Hdest as [Hsame|Hf]; [left|right; by apply Hnew].
  unfold opened. rewrite Huid. apply open_record_other. intros n Hn.
  destruct (decide (n = RECOVERY_FILE)) as [->|Hn']; [done|]. apply Hother; [done|].
  apply state_file_not_temporary.
  apply elem_of_cons in Hn as [->|[->|[->|Hn]%elem_of_cons]%elem_of_cons]; [done..|by apply not_elem_of_nil in Hn].
Qed.

Lemma transaction_inv {A} (body : store A) s r s' : _transaction body s = (r, s') ->
  (s_closed s = false /\ body s = (r, s')) \/ (s_closed s = true /\ s' = s /\ exists e, r = Err e).
Proof.
  unfold _transaction, sbind, sread, sguard, slift. destruct (s_closed s); cbn; [|by left].
  intros [= <- <-]. right. by eauto.
Qed.

(** Loading through the public operation. *)
Lemma load_recovery_moves s r s' : load_recovery rec_limit s = (r, s') ->
  settled s s' /\ opened s' = opened s /\
  (forall o, r = Ok o -> opened s = o) /\ (forall x, r = Ok (Some x) -> same_disk s s').
Proof.
  intros [[_ E]|(_ & -> & e & ->)]%transaction_inv; [by apply load_moves|done].
Qed.

(** A record is written only where none is open. *)
Lemma write_recovery_moves x s r s' : recovery_wf x -> real_time (created_at x) ->
  write_recovery rec_limit x s = (r, s') ->
  settled s s' /\ (opened s' = opened s \/ opened s = None /\ opened s' = Some x).
Proof.
  intros Hwf Ht [[_ E]|(_ & -> & e & ->)]%transaction_inv; [|split; [done|by left]].
  unfold _write_recovery_if_absent_unlocked, read_recovery in E.
  destruct (reads_if_exists RECOVERY_FILE MAX_RECOVERY_BYTES (u "recovery") s) as [Hd Hr].
  apply sbind_inv in E as [(p & s1 & E1 & E)|(e & E1 & ->)]; rewrite E1 in Hd, Hr; cbn [fst snd] in Hd, Hr;
    [|split; [by apply same_disk_settled|left; by apply same_disk_opened]].
  destruct Hr as [Hr|[? ?]]; [|done]. destruct p as [p|].
  { injection E as <- <-. split; [by apply same_disk_settled|left; by apply same_disk_opened]. }
  assert (Ho : opened s = None) by (unfold opened, open_record, stored_recovery; by rewrite -Hr).
  apply save_moves in E as (Hs & Hm & _); [|done..].
  split; [exact (settled_trans _ _ _ (same_disk_settled _ _ Hd) Hs)|].
  rewrite (same_disk_opened _ _ Hd) in Hm. destruct Hm as [->| ->]; [by left|].
  destruct (finished _ _ _ _) as [[]|]; [left|right|left]; by rewrite ?Ho.
Qed.

(** The end of a commit: the loaded record is replaced if it has not changed. *)
Lemma update_moves x y s r s' : opened s = Some x -> recovery_wf y -> real_time (created_at y) ->
  workspace_id y = workspace_id x ->
  _update_recovery_unlocked rec_limit y (workspace_id x) (source_generation x) s = (r, s') ->
  settled s s' /\ (opened s' = Some x \/ opened s' = Some y) /\ (r = Ok tt -> opened s' = Some y).
Proof.
  intros Ho Hwf Ht Hw E. unfold _update_recovery_unlocked in E.
  apply sbind_inv in E as [(c & s1 & E1 & E)|(e & E1 & ->)]; apply load_moves in E1 as (Hs1 & Ho1 & Hc & Hx).
  2: { split; [done|]. split; [left; congruence|done]. }
  rewrite Ho in Hc. pose proof (Hc c eq_refl) as <-. pose proof (Hx x eq_refl) as Hd1.
  do 3 (apply slift_inv in E as [(? & _ & E)|(? & _ & -> & ->)];
        [|split; [done|split; [left; congruence|done]]]).
  apply save_moves in E as (Hs2 & Hm & Hok); [|done..].
  split; [exact (settled_trans _ _ _ Hs1 Hs2)|].
  assert (Hf : finished rec_limit (s_dir s1) (s_uid s1) (workspace_id y) = Ok false).
  { rewrite Hw. apply opened_unfinished. congruence. }
  rewrite Hf in Hm, Hok. split; [|exact Hok]. destruct Hm as [Hm|Hm]; [left; congruence|by right].
Qed.

Lemma commit_moves ws a outs s r s' : Forall outcome_wf outs ->
  (forall x, opened s = Some x -> real_time (created_at x)) ->
  commit_outcomes rec_limit ws a outs s = (r, s') ->
  settled s s' /\
  (opened s' = opened s \/
   exists x x', opened s = Some x /\ committed x ws a outs = Ok x' /\ opened s' = Some x') /\
  (forall x', r = Ok x' -> opened s' = Some x' /\ exists x, opened s = Some x /\ committed x ws a outs = Ok x').
Proof.
  intros Hout Htime [[_ E]|(_ & -> & e & ->)]%transaction_inv; [|split; [done|split; [by left|done]]].
  unfold _commit_outcomes_unlocked in E.
  apply sbind_inv in E as [(c & s1 & E1 & E)|(e & E1 & ->)]; apply load_moves in E1 as (Hs1 & Ho1 & Hc & Hx).
  2: { split; [done|]. split; [left; congruence|done]. }
  pose proof (Hc c eq_refl) as Ho. destruct c as [x|].
  2: { injection E as <- <-. split; [done|]. split; [left; congruence|done]. }
  apply slift_inv in E as [(x' & Hcom & E)|(? & _ & -> & ->)].
  2: { split; [done|]. split; [left; congruence|done]. }
  pose proof (committed_Ok _ _ _ _ _ Hcom) as (Hx' & -> & _).
  assert (Hwf : recovery_wf x') by (eapply committed_wf; [exact (open_record_wf _ _ _ Ho)|exact Hout|exact Hcom]).
  assert (Hup : forall r2 s2, _update_recovery_unlocked rec_limit x' (workspace_id x) (source_generation x) s1 = (r2, s2) ->
    settled s1 s2 /\ (opened s2 = Some x \/ opened s2 = Some x') /\ (r2 = Ok tt -> opened s2 = Some x')).
  { intros r2 s2. apply update_moves; [congruence|done|subst x'; exact (Htime x Ho)|by subst x']. }
  rewrite Ho. apply sbind_inv in E as [([] & s2 & E2 & E)|(e & E2 & ->)]; apply Hup in E2 as (Hs2 & Hm & Hok).
  - injection E as <- <-. split; [exact (settled_trans _ _ _ Hs1 Hs2)|]. rewrite (Hok eq_refl).
    split; [right; by eauto|]. intros ? [= <-]. by eauto.
  - split; [exact (settled_trans _ _ _ Hs1 Hs2)|]. split; [|done].
    destruct Hm as [Hm|Hm]; rewrite Hm; [by left|right; by eauto].
Qed.

Lemma complete_moves ws discard now s r s' : complete_or_discard rec_limit ws discard now s = (r, s') ->
  settled s s' /\
  (opened s' = opened s \/
   exists x, opened s = Some x /\ workspace_id x = ws /\ opened s' = None /\
     (discard = true \/ set_eqb (completed_item_ids x) (map rec_item_id (items x)) = true)).
Proof.
  intros [[_ E]|(_ & -> & e & ->)]%transaction_inv; [|split; [done|by left]].
  unfold _complete_or_discard_unlocked in E.
  apply sbind_inv in E as [(c & s1 & E1 & E)|(e & E1 & ->)]; apply load_moves in E1 as (Hs1 & Ho1 & Hc & Hx).
  2: { split; [done|]. by left. }
  pose proof (Hc c eq_refl) as Ho. destruct c as [x|].
  2: { injection E as <- <-. split; [done|]. by left. }
  apply slift_inv in E as [(? & Hws & E)|(? & _ & -> & ->)]; [|split; [done|by left]].
  apply slift_inv in E as [(? & Hall & E)|(? & _ & -> & ->)]; [|split; [done|by left]].
  apply raise_if_Ok, negb_false_iff, str_eqb_eq in Hws. apply raise_if_Ok in Hall.
  assert (Hdone : discard = true \/ set_eqb (completed_item_ids x) (map rec_item_id (items x)) = true)
    by (destruct discard; [by left|right; by apply negb_false_iff in Hall]).
  assert (Hend : forall s2 : StoreState, settled s1 s2 -> opened s2 = Some x \/ opened s2 = None ->
    settled s s2 /\ (opened s2 = opened s \/ exists y, opened s = Some y /\ workspace_id y = ws /\ opened s2 = None /\
      (discard = true \/ set_eqb (completed_item_ids y) (map rec_item_id (items y)) = true))).
  { intros s2 Hs2 Hm. split; [exact (settled_trans _ _ _ Hs1 Hs2)|]. rewrite Ho.
    destruct Hm as [Hm|Hm]; [by left|right; by eauto]. }
  assert (Hfile : (if discard then DISCARD_FILE else COMPLETION_FILE) = tombstone_file discard) by done.
  rewrite Hfile in E.
  assert (Htomb : forall r2 s2, _atomic_json_write rec_limit (tombstone_file discard) (tombstone ws discard now)
      _validate_tombstone MAX_TOMBSTONE_BYTES (u "tombstone") s1 = (r2, s2) ->
    settled s1 s2 /\ (opened s2 = Some x \/ opened s2 = None)).
  { intros r2 s2 E2. destruct (tombstone_file_name discard) as [Hn1 Hn2].
    destruct (atomic_write_moves _ _ _ _ _ _ _ _ _ (state_file_not_temporary _ s1 Hn2) E2)
      as [(Hd & _)|(raw & p & y & _ & _ & _ & _ & Hinv & _)].
    - split; [by apply same_disk_settled|]. left. rewrite (same_disk_opened _ _ Hd). congruence.
    - apply torn_settled in Hinv as [Hs2 [Hother _]]. split; [done|]. destruct Hs2 as [Hu2 _].
      apply (opened_same_file s1); [congruence|done|]. apply Hother; [by apply not_eq_sym|by apply state_file_not_temporary]. }
  apply sbind_inv in E as [(? & s2 & E2 & E)|(e & E2 & ->)]; apply Htomb in E2 as [Hs2 Hm]; [|by apply Hend].
  apply drop_moves in E as [Hs3 H3]. apply Hend; [exact (settled_trans _ _ _ Hs2 Hs3)|].
  destruct H3 as [[H3 _]|H3]; [by rewrite (same_disk_opened _ _ H3)|right; exact (dropped_opened s2 s' Hs3 H3)].
Qed.

(** ** Checkpoints leave the record alone *)
Definition record_files : list pystr := [RECOVERY_FILE; COMPLETION_FILE; DISCARD_FILE].

(** [spares m]: whatever [m] does, the files of the recovery record stay. *)
Definition spares {A} (m : store A) : Prop := forall s r s', m s = (r, s') ->
  settled s s' /\ forall n, n ∈ record_files -> s_dir s' !! n = s_dir s !! n.

Lemma spares_opened {A} (m : store A) s r s' : spares m -> m s = (r, s') -> settled s s' /\ opened s' = opened s.
Proof.
  intros Hm E. destruct (Hm _ _ _ E) as [Hs Hf]. split; [done|]. destruct Hs as [Hu _]. unfold opened. rewrite Hu.
  by apply open_record_other.
Qed.

Lemma spares_frame {A} (m : store A) : (forall s, same_disk s (m s).2) -> spares m.
Proof.
  intros Hm s r s' E. specialize (Hm s). rewrite E in Hm. cbn [snd] in Hm. split; [by apply same_disk_settled|].
  by destruct Hm as (-> & _).
Qed.

Lemma spares_reads {A} (m : store A) f : reads m f -> spares m.
Proof. intros Hm. apply spares_frame. intros s. by destruct (Hm s). Qed.

Lemma spares_bind {A B} (m : store A) (k : A -> store B) : spares m -> (forall a, spares (k a)) -> spares (sbind m k).
Proof.
  intros Hm Hk s r s' [(a & s1 & E1 & E)|(e & E1 & ->)]%sbind_inv; [|exact (Hm _ _ _ E1)].
  destruct (Hm _ _ _ E1) as [Hs1 H1]. destruct (Hk a _ _ _ E) as [Hs2 H2].
  split; [exact (settled_trans _ _ _ Hs1 Hs2)|]. intros n Hn. by rewrite H2 // H1.
Qed.

Lemma spares_catch {A} (m : store A) h : spares m -> (forall e, spares (h e)) -> spares (scatch m h).
Proof.
  intros Hm Hh s r s' E. unfold scatch in E. destruct (m s) as [[a|e] s1] eqn:E1.
  - injection E as <- <-. exact (Hm _ _ _ E1).
  - destruct (Hm _ _ _ E1) as [Hs1 H1]. destruct (Hh e _ _ _ E) as [Hs2 H2].
    split; [exact (settled_trans _ _ _ Hs1 Hs2)|]. intros n Hn. by rewrite H2 // H1.
Qed.

Lemma record_file_name n : n ∈ record_files -> is_checkpoint_name n = false /\ head n <> Some 46 /\ head n <> Some 99.
Proof.
  intros Hn. apply elem_of_cons in Hn as [->|[->|[->|Hn]%elem_of_cons]%elem_of_cons]; [done..|].
  by apply not_elem_of_nil in Hn.
Qed.

Lemma spares_unlink name : is_checkpoint_name name = true -> spares (sys_unlink name).
Proof.
  intros Hc s r s' [Hs [[Hd _]|Hd]]%unlink_moves; (split; [done|]); intros n Hn.
  - by destruct Hd as (-> & _).
  - rewrite Hd lookup_delete_ne; [|done]. intros ->. apply record_file_name in Hn as [Hn _]. congruence.
Qed.

Lemma load_checkpoint_reads name : spares (load_checkpoint rec_limit name).
Proof.
  eapply spares_reads. unfold load_checkpoint. eapply reads_bind; [apply reads_json|intros p].
  exact (reads_lift _).
Qed.

Lemma valid_names_spares names : spares (valid_names rec_limit names) /\
  forall s l s', valid_names rec_limit names s = (Ok l, s') -> l ⊆ names.
Proof.
  induction names as [|name names [IH IHl]]; cbn [valid_names].
  - split; [by apply (spares_reads _ _ (reads_ret []))|]. by intros s l s' [= <- _].
  - split.
    + apply spares_bind; [apply spares_catch|].
      * apply spares_bind; [apply load_checkpoint_reads|intros ?; apply (spares_reads _ _ (reads_ret true))].
      * intros e. destruct (is_invalid_checkpoint e);
          [apply (spares_reads _ _ (reads_ret false))|apply (spares_reads _ _ (reads_lift (Err e)))].
      * intros ok. apply spares_bind; [exact IH|]. intros others. destruct ok; eapply spares_reads, reads_ret.
    + intros s l s' [(ok & s1 & _ & [(others & s2 & E2 & E)|(? & _ & ?)]%sbind_inv)|(? & _ & ?)]%sbind_inv;
        [|done..]. injection E as <- _. apply IHl in E2. destruct ok; set_solver.
Qed.

Lemma remove_names_spares names : Forall (fun n => is_checkpoint_name n = true) names -> spares (remove_names names).
Proof.
  induction 1 as [|name names Hn _ IH]; cbn [remove_names]; [by apply (spares_reads _ _ (reads_ret false))|].
  apply spares_bind; [apply spares_catch|].
  - apply spares_bind; [by apply spares_unlink|intros ?; apply (spares_reads _ _ (reads_ret true))].
  - intros e. destruct (is_not_found e);
      [apply (spares_reads _ _ (reads_ret false))|apply (spares_reads _ _ (reads_lift (Err e)))].
  - intros r. apply spares_bind; [exact IH|]. intros others. eapply spares_reads, reads_ret.
Qed.

Lemma checkpoint_names_spares : spares _checkpoint_names /\
  forall s l s', _checkpoint_names s = (Ok l, s') -> Forall (fun n => is_checkpoint_name n = true) l.
Proof.
  split.
  - apply spares_bind; [apply (spares_reads _ _ reads_syscall)|intros ?]. by apply spares_frame.
  - intros s l s' [(? & s1 & _ & E)|(? & _ & ?)]%sbind_inv; [|done]. injection E as <- _.
    apply Forall_forall. intros n Hn. rewrite sort_by_perm in Hn. by apply list_elem_of_filter in Hn as [? _].
Qed.

Lemma prune_spares : spares (_prune_checkpoints_unlocked rec_limit).
Proof.
  intros s r s' [(names & s1 & E1 & E)|(e & E1 & ->)]%sbind_inv; [|exact (proj1 checkpoint_names_spares _ _ _ E1)].
  pose proof (proj2 checkpoint_names_spares _ _ _ E1) as Hall.
  destruct (proj1 checkpoint_names_spares _ _ _ E1) as [Hs1 H1].
  assert (Hgoal : settled s1 s' /\ forall n, n ∈ record_files -> s_dir s' !! n = s_dir s1 !! n).
  { apply sbind_inv in E as [(valid & s2 & E2 & E)|(e & E2 & ->)]; [|exact (proj1 (valid_names_spares _) _ _ _ E2)].
    destruct (proj1 (valid_names_spares _) _ _ _ E2) as [Hs2 H2]. apply (valid_names_spares names) in E2.
    assert (spares (let! removed := remove_names (drop _MAX_CHECKPOINTS valid) in
                    if removed : bool then syscall else sret tt)) as Hrest.
    { apply spares_bind.
      - apply remove_names_spares. apply Forall_forall. intros n Hn. rewrite Forall_forall in Hall.
        apply Hall, E2. rewrite -(take_drop _MAX_CHECKPOINTS valid). apply elem_of_app. by right.
      - intros []; [apply (spares_reads _ _ reads_syscall)|apply (spares_reads _ _ (reads_ret tt))]. }
    destruct (Hrest _ _ _ E) as [Hs3 H3]. split; [exact (settled_trans _ _ _ Hs2 Hs3)|].
    intros n Hn. by rewrite H3 // H2. }
  destruct Hgoal as [Hs' H']. split; [exact (settled_trans _ _ _ Hs1 Hs')|]. intros n Hn. by rewrite H' // H1.
Qed.

Lemma checkpoint_write_spares snapshot : spares (write rec_limit snapshot).
Proof.
  intros s r s' [[_ E]|(_ & -> & e & ->)]%transaction_inv; [|done]. revert s r s' E.
  change (spares (_write_unlocked rec_limit snapshot)). unfold _write_unlocked.
  apply spares_bind; [apply (spares_reads _ _ (reads_lift _))|intros payload].
  apply spares_bind; [|intros ?; apply spares_bind; [apply prune_spares|intros ?; eapply spares_reads, reads_ret]].
  intros s r s' E.
  assert (Hne : checkpoint_name (generation snapshot) <> next_temporary s) by (by apply state_file_not_temporary).
  destruct (atomic_write_moves _ _ _ _ _ _ _ _ _ Hne E) as [(Hd & _)|(raw & p & y & _ & _ & _ & _ & Hinv & _)].
  - split; [by apply same_disk_settled|]. by destruct Hd as (-> & _).
  - apply torn_settled in Hinv as [Hs [Hother _]]. split; [done|]. intros n Hn.
    destruct (record_file_name n Hn) as (_ & H1 & H2). apply Hother; [by intros ->|by apply state_file_not_temporary].
Qed.

End Reading.
