(* ===== verification/StoreCheckpoints.v ===== *)
(** * The snapshot store: checkpoints

    A checkpoint that is written is the one that is loaded, whatever else is in
    the directory, and at most ten checkpoints stay. *)
From S2P Require Import Prelude PyText PyVal PyFloat Json Codec Model Store StateCodec StoreProofs.
#[local] Open Scope store_scope.

(** ** Sorting *)
Lemma sort_by_head {A} (leb : A -> A -> bool) x l :
  (forall y, y ∈ l -> y = x \/ leb x y = true /\ leb y x = false) -> x ∈ l ->
  exists rest, sort_by leb l = x :: rest.
Proof.
  induction l as [|y l IH]; intros Hmax Hin; [by apply not_elem_of_nil in Hin|].
  change (sort_by leb (y :: l)) with (insert_by leb y (sort_by leb l)).
  assert (Hl : forall z, z ∈ l -> z = x \/ leb x z = true /\ leb z x = false)
    by (intros z Hz; apply Hmax; by right).
  assert (Hp : forall z, z ∈ sort_by leb l -> z ∈ l) by (intros z; by rewrite sort_by_perm).
  destruct (Hmax y ltac:(left)) as [->|[Hxy Hyx]].
  - destruct (sort_by leb l) as [|z t] eqn:E; [by exists []|]. simpl.
    destruct (Hl z (Hp z ltac:(left))) as [->|[-> _]]; [|by eexists].
    destruct (leb x x); by eexists.
  - apply elem_of_cons in Hin as [->|Hin].
    + destruct (sort_by leb l) as [|z t] eqn:E; [by exists []|]. congruence.
    + destruct (IH Hl Hin) as [t ->]. simpl. rewrite Hyx. by eexists.
Qed.

(** Digit strings of one length are ordered as the numbers they write. *)
Lemma digits_ordered a b : length a = length b -> forallb is_digit a = true -> forallb is_digit b = true ->
  dec_value a < dec_value b -> str_leb a b = true /\ str_leb b a = false.
Proof.
  revert b. induction a as [|x a IH]; intros [|y b] Hl Ha Hb Hlt; simpl in Hl; try lia.
  simpl in Ha, Hb. apply andb_true_iff in Ha as [Hx Ha], Hb as [Hy Hb].
  pose proof (dec_value_bound a Ha). pose proof (dec_value_bound b Hb).
  change (x :: a) with ([x] ++ a) in Hlt. change (y :: b) with ([y] ++ b) in Hlt.
  rewrite !dec_value_app in Hlt. change (dec_value [x]) with (x - 48) in Hlt. change (dec_value [y]) with (y - 48) in Hlt.
  assert (len b = len a) as E by (unfold len; lia). rewrite E in H0 Hlt.
  set (p := 10 ^ len a) in *. cbn [str_leb].
  destruct (Z.ltb_spec x y).
  - split; [done|]. destruct (Z.ltb_spec y x); [lia|]. done.
  - assert (x = y) as -> by nia. rewrite Z.ltb_irrefl. apply IH; [lia|done..|lia].
Qed.

Lemma str_leb_app p a b : str_leb (p ++ a) (p ++ b) = str_leb a b.
Proof. induction p as [|c p IH]; [done|]. simpl. by rewrite Z.ltb_irrefl. Qed.

Lemma str_leb_refl a : str_leb a a = true.
Proof. induction a as [|c a IH]; [done|]. simpl. by rewrite Z.ltb_irrefl. Qed.

Lemma str_leb_suffix a b t : length a = length b -> a <> b -> str_leb (a ++ t) (b ++ t) = str_leb a b.
Proof.
  revert b. induction a as [|x a IH]; intros [|y b] Hl Hne; simpl in *; try done.
  destruct (Z.ltb_spec x y), (Z.ltb_spec y x); try done. apply IH; [lia|]. assert (x = y) by lia. congruence.
Qed.

(** ** Checkpoint names *)
Definition checkpoint_number (name : pystr) : Z := dec_value (checkpoint_digits name).

Lemma checkpoint_digits_of ds : checkpoint_digits (_CHECKPOINT_PREFIX ++ ds ++ _CHECKPOINT_SUFFIX) = ds.
Proof.
  unfold checkpoint_digits. rewrite drop_app_length length_app.
  replace (length ds + length _CHECKPOINT_SUFFIX - length _CHECKPOINT_SUFFIX)%nat with (length ds) by lia.
  apply take_app_length.
Qed.

(** A checkpoint name is its prefix, its digits and its suffix. *)
Lemma checkpoint_name_shape n : is_checkpoint_name n = true ->
  n = _CHECKPOINT_PREFIX ++ checkpoint_digits n ++ _CHECKPOINT_SUFFIX /\
  length (checkpoint_digits n) = 20%nat /\ forallb is_digit (checkpoint_digits n) = true.
Proof.
  unfold is_checkpoint_name. rewrite !andb_true_iff. intros [[[Hp Hs] Hl] Hd].
  apply Z.eqb_eq in Hl. unfold len, _CHECKPOINT_DIGITS in Hl.
  assert (Hlen : length (checkpoint_digits n) = 20%nat) by lia. split; [|done].
  apply is_prefix_spec in Hp as [rest ->]. unfold ends_with in Hs. apply is_prefix_spec in Hs as [t Ht].
  unfold checkpoint_digits in *. rewrite drop_app_length in Hlen |- *. f_equal.
  assert (Hend : _CHECKPOINT_PREFIX ++ rest = rev t ++ _CHECKPOINT_SUFFIX).
  { rewrite -(rev_involutive (_CHECKPOINT_PREFIX ++ rest)) Ht rev_app_distr rev_involutive. done. }
  rewrite length_take in Hlen.
  assert (Hr : length rest = (20 + length _CHECKPOINT_SUFFIX)%nat) by (cbn in *; lia).
  rewrite -{1}(take_drop (length rest - length _CHECKPOINT_SUFFIX) rest). f_equal.
  assert (Hdrop : drop (length _CHECKPOINT_PREFIX + (length rest - length _CHECKPOINT_SUFFIX)) (_CHECKPOINT_PREFIX ++ rest)
    = _CHECKPOINT_SUFFIX).
  { rewrite Hend. replace (_ + _)%nat with (length (rev t)); [apply drop_app_length|].
    apply (f_equal length) in Hend. rewrite !length_app in Hend. lia. }
  etransitivity; [|exact Hdrop]. by rewrite -drop_drop drop_app_length.
Qed.

Lemma digits20_spec g : 0 <= g < 10 ^ 20 ->
  length (digits20 g) = 20%nat /\ forallb is_digit (digits20 g) = true /\ dec_value (digits20 g) = g.
Proof.
  intros Hg. unfold digits20, str_of_int. rewrite ltb_false; [lia|].
  pose proof (digits_spec g ltac:(lia)) as Hd.
  assert (Hl : (length (digits g) <= 20)%nat) by (by apply digits_length; [|lia]).
  destruct (pad_left_spec 20 (digits g) (dm_digits _ _ Hd) Hl) as (H1 & H2 & H3).
  split; [done|]. split; [done|]. rewrite H2. apply Hd.
Qed.

Lemma checkpoint_name_is g : 0 <= g < 10 ^ 20 ->
  is_checkpoint_name (checkpoint_name g) = true /\ checkpoint_number (checkpoint_name g) = g.
Proof.
  intros Hg. destruct (digits20_spec g Hg) as (Hl & Hd & Hv). unfold checkpoint_number, is_checkpoint_name, checkpoint_name.
  rewrite checkpoint_digits_of is_prefix_app Hd Hv. unfold len. rewrite Hl.
  unfold ends_with. rewrite !rev_app_distr -app_assoc is_prefix_app. done.
Qed.

(** The order of names is the order of numbers. *)
Lemma checkpoint_order a b : is_checkpoint_name a = true -> is_checkpoint_name b = true ->
  checkpoint_number a < checkpoint_number b -> str_leb a b = true /\ str_leb b a = false.
Proof.
  intros (Ha & Hla & Hda)%checkpoint_name_shape (Hb & Hlb & Hdb)%checkpoint_name_shape Hlt.
  unfold checkpoint_number in Hlt.
  assert (Hne : checkpoint_digits a <> checkpoint_digits b) by (intros E; rewrite E in Hlt; lia).
  remember (checkpoint_digits a) as da. remember (checkpoint_digits b) as db.
  rewrite Ha Hb !str_leb_app. rewrite !str_leb_suffix; [by congruence || lia..|].
  apply digits_ordered; [congruence|done..].
Qed.

Lemma checkpoint_head g : head (checkpoint_name g) <> Some 46.
Proof. assert (head (checkpoint_name g) = Some 99) as -> by reflexivity. discriminate. Qed.

Lemma generation_range x : snapshot_wf x -> generation x < 10 ^ 20 -> 0 <= generation x < 10 ^ 20.
Proof.
  intros [H _] Hg. unfold snapshot_post_init, _require_non_negative_integer in H. r_inv. lia.
Qed.

(** ** Runs without kernel errors *)
Section Checkpoints.
Context (rec_limit : nat) (Hrec : (16 <= rec_limit)%nat).

(** The snapshot of a checkpoint file. *)
Definition checkpoint_of (d : directory) (uid : Z) (name : pystr) : result Snapshot :=
  let? p := file_object rec_limit d uid name MAX_SNAPSHOT_BYTES (u "snapshot") in _decode p snapshot_from_dict.

Definition valid_checkpoint (d : directory) (uid : Z) (name : pystr) : bool := is_ok (checkpoint_of d uid name).

(** Loading it either succeeds or raises an error that the store skips. *)
Definition skippable (d : directory) (uid : Z) (name : pystr) : Prop :=
  match checkpoint_of d uid name with Ok _ => True | Err e => is_invalid_checkpoint e = true end.

(** The checkpoint names of a directory, latest first. *)
Definition checkpoint_names (d : directory) : list pystr :=
  sort_by (fun a b => str_leb b a) (filter (fun n => is_checkpoint_name n = true) (map fst (map_to_list d))).

Lemma checkpoint_names_elem d n : n ∈ checkpoint_names d <-> is_checkpoint_name n = true /\ is_Some (d !! n).
Proof.
  unfold checkpoint_names. rewrite sort_by_perm list_elem_of_filter. f_equiv.
  rewrite (list_elem_of_fmap fst). split.
  - intros ([k f] & -> & Hin). apply elem_of_map_to_list in Hin. by exists f.
  - intros [f Hf]. exists (n, f). split; [done|]. by apply elem_of_map_to_list.
Qed.

Lemma checkpoint_names_nodup d : NoDup (checkpoint_names d).
Proof. unfold checkpoint_names. rewrite sort_by_perm. apply NoDup_filter, NoDup_fst_map_to_list. Qed.

Lemma checkpoint_names_quiet s : quiet s -> _checkpoint_names s = (Ok (checkpoint_names (s_dir s)), s).
Proof. intros Hq. unfold _checkpoint_names, sbind. by rewrite syscall_quiet. Qed.

Lemma load_checkpoint_quiet name s : quiet s ->
  load_checkpoint rec_limit name s = (checkpoint_of (s_dir s) (s_uid s) name, s).
Proof.
  intros Hq. unfold load_checkpoint, sbind, checkpoint_of. rewrite read_json_quiet //.
  by destruct (file_object _ _ _ _ _ _).
Qed.

Definition option_of {A} (r : result A) : option A := match r with Ok a => Some a | Err _ => None end.

Lemma load_valid_quiet names valid s : quiet s -> valid <> [] ->
  Forall (skippable (s_dir s) (s_uid s)) names ->
  exists s', load_valid rec_limit names valid s =
      (Ok (valid ++ omap (fun n => option_of (checkpoint_of (s_dir s) (s_uid s) n)) names), s') /\
    quiet s' /\ s_dir s' = s_dir s.
Proof.
  revert valid s. induction names as [|name names IH]; intros valid s Hq Hv Hall.
  { exists s. by rewrite app_nil_r. }
  apply Forall_cons in Hall as [Hname Hall]. cbn [load_valid omap list_omap]. unfold sbind at 1, scatch, sbind at 1.
  rewrite load_checkpoint_quiet //. unfold skippable in Hname.
  destruct (checkpoint_of (s_dir s) (s_uid s) name) as [x|e]; cbn [option_of].
  - unfold sret. destruct (IH (valid ++ [x]) s Hq) as (s' & Hs & Hrest); [by destruct valid|done|].
    exists s'. rewrite -app_assoc in Hs. done.
  - assert (Hrun : forall s1, quiet s1 -> s_dir s1 = s_dir s -> s_uid s1 = s_uid s -> exists s',
      load_valid rec_limit names valid s1 = (Ok (valid ++ omap (fun n => option_of (checkpoint_of (s_dir s) (s_uid s) n)) names), s') /\
      quiet s' /\ s_dir s' = s_dir s).
    { intros s1 Hq1 Hd1 Hu1. rewrite -Hd1 -Hu1. apply IH; [done|done|]. by rewrite Hd1 Hu1. }
    destruct e; cbn [is_invalid_checkpoint is_os_error is_type_or_value_error is_value_error orb] in *; try done;
      try (rewrite bool_decide_eq_false_2; [done|]); unfold sbind, diagnose, sret; cbv beta iota;
      by apply Hrun.
Qed.

Lemma valid_names_quiet names s : quiet s -> Forall (skippable (s_dir s) (s_uid s)) names ->
  valid_names rec_limit names s = (Ok (filter (fun n => valid_checkpoint (s_dir s) (s_uid s) n = true) names), s).
Proof.
  intros Hq Hall. induction Hall as [|name names Hname Hall IH]; [done|].
  cbn [valid_names]. unfold sbind at 1, scatch, sbind at 1. rewrite load_checkpoint_quiet //.
  unfold skippable in Hname. rewrite filter_cons.
  destruct (decide (valid_checkpoint (s_dir s) (s_uid s) name = true)) as [Hv|Hv]; unfold valid_checkpoint in Hv;
    destruct (checkpoint_of (s_dir s) (s_uid s) name) as [x|e]; try done.
  - unfold sret, sbind. by rewrite IH.
  - rewrite Hname. unfold sret, sbind. by rewrite IH.
Qed.

Lemma remove_names_quiet names s : quiet s -> NoDup names -> (forall n, n ∈ names -> is_Some (s_dir s !! n)) ->
  exists b s', remove_names names s = (Ok b, s') /\ same_settings s s' /\
    (forall n, n ∈ names -> s_dir s' !! n = None) /\ (forall n, n ∉ names -> s_dir s' !! n = s_dir s !! n).
Proof.
  revert s. induction names as [|name names IH]; intros s Hq Hnd Hall.
  { exists false, s. split; [done|]. split; [done|]. split; [|done]. intros n Hn. by apply not_elem_of_nil in Hn. }
  apply NoDup_cons in Hnd as [Hni Hnd]. destruct (Hall name ltac:(left)) as [f Hf].
  cbn [remove_names]. unfold sbind at 1, scatch, sbind at 1. rewrite (unlink_quiet _ _ _ Hq Hf). unfold sret at 1.
  set (s1 := with_dir _ s). destruct (IH s1) as (b & s' & Hs & Hset & Hin & Hout); [done|done| |].
  { intros n Hn. subst s1. simpl. rewrite lookup_delete_ne; [by intros ->|]. apply Hall. by right. }
  exists true, s'. unfold sbind. rewrite Hs. split; [done|]. split; [exact Hset|]. split.
  - intros n [->|Hn]%elem_of_cons; [|by apply Hin]. rewrite Hout //. apply lookup_delete_eq.
  - intros n [Hne Hn]%not_elem_of_cons. rewrite Hout //. simpl. rewrite lookup_delete_ne; [congruence|done].
Qed.

(** The names that pruning keeps. *)
Definition valid_of (d : directory) (uid : Z) : list pystr :=
  filter (fun n => valid_checkpoint d uid n = true) (checkpoint_names d).

Lemma prune_quiet s : quiet s -> Forall (skippable (s_dir s) (s_uid s)) (checkpoint_names (s_dir s)) ->
  let dropped := drop _MAX_CHECKPOINTS (valid_of (s_dir s) (s_uid s)) in
  exists s', _prune_checkpoints_unlocked rec_limit s = (Ok tt, s') /\ same_settings s s' /\
    (forall n, n ∈ dropped -> s_dir s' !! n = None) /\ (forall n, n ∉ dropped -> s_dir s' !! n = s_dir s !! n).
Proof.
  intros Hq Hall dropped. unfold _prune_checkpoints_unlocked, sbind at 1. rewrite checkpoint_names_quiet //.
  unfold sbind at 1. rewrite valid_names_quiet //. fold (valid_of (s_dir s) (s_uid s)). fold dropped.
  destruct (remove_names_quiet dropped s Hq) as (b & s' & Hs & Hset & Hin & Hout).
  - assert (Hnd : NoDup (valid_of (s_dir s) (s_uid s))) by apply NoDup_filter, checkpoint_names_nodup.
    rewrite -(take_drop _MAX_CHECKPOINTS (valid_of _ _)) in Hnd. by apply NoDup_app in Hnd as (_ & _ & ?).
  - intros n Hn. assert (Hn' : n ∈ valid_of (s_dir s) (s_uid s))
      by (rewrite -(take_drop _MAX_CHECKPOINTS (valid_of _ _)); apply elem_of_app; by right).
    apply list_elem_of_filter in Hn' as [_ Hn']. by apply checkpoint_names_elem in Hn' as [_ ?].
  - exists s'. unfold sbind. rewrite Hs. split; [|done].
    destruct Hset as [Hq' _]. destruct b; [by apply syscall_quiet|done].
Qed.

Lemma checkpoint_of_same d d' uid n : d !! n = d' !! n -> checkpoint_of d uid n = checkpoint_of d' uid n.
Proof. intros E. unfold checkpoint_of, file_object. by rewrite E. Qed.

(** After pruning, the valid checkpoints are among the ten latest. *)
Lemma pruned_bound d d' uid :
  (forall n, n ∈ drop _MAX_CHECKPOINTS (valid_of d uid) -> d' !! n = None) ->
  (forall n, n ∉ drop _MAX_CHECKPOINTS (valid_of d uid) -> d' !! n = d !! n) ->
  (length (valid_of d' uid) <= _MAX_CHECKPOINTS)%nat.
Proof.
  intros Hin Hout. etransitivity; [|exact (firstn_le_length _MAX_CHECKPOINTS (valid_of d uid))].
  apply submseteq_length. apply NoDup_submseteq; [apply NoDup_filter, checkpoint_names_nodup|].
  intros n Hn. apply list_elem_of_filter in Hn as [Hv Hn]. apply checkpoint_names_elem in Hn as [Hname [f Hf]].
  destruct (decide (n ∈ drop _MAX_CHECKPOINTS (valid_of d uid))) as [Hd|Hd]; [rewrite Hin // in Hf|].
  pose proof (Hout n Hd) as E. assert (Hm : n ∈ valid_of d uid).
  { apply list_elem_of_filter. split; [|apply checkpoint_names_elem; split; [done|exists f; congruence]].
    unfold valid_checkpoint in *. by rewrite (checkpoint_of_same d d'). }
  rewrite -(take_drop _MAX_CHECKPOINTS (valid_of d uid)) in Hm. by apply elem_of_app in Hm as [|].
Qed.

(** A directory whose latest checkpoint holds [x]. *)
Definition latest_is (d : directory) (uid : Z) (x : Snapshot) : Prop :=
  exists rest, checkpoint_names d = checkpoint_name (generation x) :: rest /\
    checkpoint_of d uid (checkpoint_name (generation x)) = Ok x /\ Forall (skippable d uid) rest.

Lemma omap_valid d uid names :
  length (omap (fun n => option_of (checkpoint_of d uid n)) names) =
  length (filter (fun n => valid_checkpoint d uid n = true) names).
Proof.
  induction names as [|n names IH]; [done|]. rewrite filter_cons.
  destruct (decide (valid_checkpoint d uid n = true)) as [Hv|Hv]; unfold valid_checkpoint in Hv;
    cbn [omap list_omap]; destruct (checkpoint_of d uid n); try done. simpl. by rewrite -IH.
Qed.

Lemma load_all_quiet s x : quiet s -> latest_is (s_dir s) (s_uid s) x ->
  exists older s', _load_valid_checkpoints_unlocked rec_limit s = (Ok (x :: older), s') /\
    quiet s' /\ s_dir s' = s_dir s /\ length (x :: older) = length (valid_of (s_dir s) (s_uid s)).
Proof.
  intros Hq (rest & Hn & Hx & Hall). unfold _load_valid_checkpoints_unlocked, sbind. rewrite checkpoint_names_quiet //.
  rewrite Hn. cbn [load_valid]. unfold sbind at 1, scatch, sbind at 1. rewrite load_checkpoint_quiet // Hx.
  unfold sret. cbn [app]. destruct (load_valid_quiet rest [x] s Hq) as (s' & Hs & Hq' & Hd); [done|done|].
  rewrite Hs. eexists _, s'. split; [done|]. split; [done|]. split; [done|].
  unfold valid_of. rewrite Hn -omap_valid. cbn [omap list_omap]. by rewrite Hx.
Qed.

(** The others are older, and none of them stops the loader. *)
Definition older_than (d : directory) (uid : Z) (x : Snapshot) : Prop :=
  forall n, is_checkpoint_name n = true -> is_Some (d !! n) -> n <> checkpoint_name (generation x) ->
    checkpoint_number n < generation x /\ skippable d uid n.

Lemma latest_stored d uid x raw : snapshot_text x raw -> generation x < 10 ^ 20 -> older_than d uid x ->
  d !! checkpoint_name (generation x) = Some (whole_file uid raw) -> latest_is d uid x.
Proof.
  intros Ht Hsmall Hold Hd. pose proof (generation_range x (proj1 Ht) Hsmall) as Hg.
  destruct (checkpoint_name_is _ Hg) as [Hname Hnum].
  destruct (snapshot_text_reads rec_limit x raw (u "persisted state must be an object") Hrec Ht) as (p & Hp & Hx).
  destruct (sort_by_head (fun a b => str_leb b a) (checkpoint_name (generation x))
    (filter (fun n => is_checkpoint_name n = true) (map fst (map_to_list d)))) as [rest Hrest].
  - intros y Hy. destruct (decide (y = checkpoint_name (generation x))) as [|Hne]; [by left|right].
    assert (Hy' : y ∈ checkpoint_names d) by (unfold checkpoint_names; by rewrite sort_by_perm).
    apply checkpoint_names_elem in Hy' as [Hyn Hys]. apply checkpoint_order; [done|done|].
    rewrite Hnum. by apply Hold.
  - assert (Hin : checkpoint_name (generation x) ∈ checkpoint_names d) by (apply checkpoint_names_elem; by eauto).
    unfold checkpoint_names in Hin. by rewrite sort_by_perm in Hin.
  - exists rest. split; [done|]. split.
    + unfold checkpoint_of.
      by rewrite (stored_object rec_limit d uid _ raw _ (u "snapshot") p Hd (proj1 (proj2 (proj2 Ht))) Hp).
    + pose proof (checkpoint_names_nodup d) as Hnd. unfold checkpoint_names in Hnd. rewrite Hrest in Hnd.
      apply NoDup_cons in Hnd as [Hni _]. apply Forall_forall. intros n Hn.
      assert (Hn' : n ∈ checkpoint_names d) by (unfold checkpoint_names; rewrite Hrest; by right).
      apply checkpoint_names_elem in Hn' as [??]. apply Hold; [done..|]. by intros ->.
Qed.

Lemma latest_skippable d uid x : latest_is d uid x -> Forall (skippable d uid) (checkpoint_names d).
Proof. intros (rest & -> & Hx & Hall). constructor; [|done]. unfold skippable. by rewrite Hx. Qed.

Lemma latest_kept d uid x : latest_is d uid x ->
  checkpoint_name (generation x) ∉ drop _MAX_CHECKPOINTS (valid_of d uid).
Proof.
  intros (rest & Hn & Hx & _) Hin. pose proof (checkpoint_names_nodup d) as Hnd. unfold valid_of in Hin.
  rewrite Hn in Hin, Hnd. apply NoDup_cons in Hnd as [Hni _].
  rewrite filter_cons decide_True in Hin; [unfold valid_checkpoint; by rewrite Hx|].
  change _MAX_CHECKPOINTS with (S 9) in Hin. cbn [drop] in Hin. apply Hni.
  assert (Hf : checkpoint_name (generation x) ∈ filter (fun n => valid_checkpoint d uid n = true) rest)
    by (rewrite -(take_drop 9 (filter _ rest)); apply elem_of_app; by right).
  by apply list_elem_of_filter in Hf as [_ ?].
Qed.

Lemma older_kept d d' uid x : older_than d uid x ->
  (forall n, is_checkpoint_name n = true -> n <> checkpoint_name (generation x) -> d' !! n = None \/ d' !! n = d !! n) ->
  older_than d' uid x.
Proof.
  intros Hold Hsub n Hn [f Hf] Hne. destruct (Hsub n Hn Hne) as [E|E]; [congruence|].
  destruct (Hold n Hn ltac:(exists f; congruence) Hne) as [Hlt Hs]. split; [done|].
  unfold skippable in *. by rewrite (checkpoint_of_same d' d).
Qed.

End Checkpoints.

(** ** Claims *)


(** ** Witness *)
Definition sample_snapshot : Snapshot := mkSnapshot 1 7 sample_time [sample_shell].
Definition sample_snapshot_text : pybytes := text_of (snapshot_to_dict sample_snapshot).

(** An older checkpoint that does not parse. *)
Definition damaged_store : StoreState :=
  mkStore {[ checkpoint_name 3 := whole_file 1000 [123] ]} 1000 false [] [] [] [u "00"] [].

Lemma sample_snapshot_reads : snapshot_text sample_snapshot sample_snapshot_text.
Proof.
  split; [split; [done|by repeat constructor]|]. split; [done|]. split; [by vm_compute|].
  eexists. split; [reflexivity|]. split; [by vm_compute|]. by vm_compute.
Qed.

Lemma damaged_older : older_than 16 (s_dir damaged_store) (s_uid damaged_store) sample_snapshot.
Proof.
  intros n Hn [f Hf] _. unfold damaged_store in Hf. cbn [s_dir] in Hf. apply lookup_singleton_Some in Hf as [<- _]. split; [by vm_compute|].
  unfold skippable. assert (checkpoint_of 16 (s_dir damaged_store) (s_uid damaged_store) (checkpoint_name 3) =
    Err JSONDecodeError) as -> by (vm_compute; reflexivity). done.
Qed.

