(* ===== verification/Checkpoint.v ===== *)
(** * The checkpoint manager ([checkpoint.py])

    Snapshot writes are coalesced: a burst of changes is written once, soon
    after it starts, and never later than a fixed delay after its first change.
    The coroutines are cut at their suspension points: between two of them the
    manager is changed by one operation at a time.  Times are integers in one
    unit; the code's floats are sums of a clock reading and fixed delays. *)
From S2P Require Import Prelude PyText PyVal Model.

Record CheckpointStatus := mkCheckpointStatus {
  cs_dirty_generation : Z;
  cs_durable_generation : Z;
  cs_write_active : bool;
  cs_last_error : option pystr;
  cs_next_retry_at : option Z;
}.

Record CheckpointManager := mkManager {
  cm_start_delay : Z;
  cm_deadline : Z;
  cm_backoff : list Z;
  cm_dirty_generation : Z;
  cm_durable_generation : Z;
  cm_write_active : bool;
  cm_last_error : option pystr;
  cm_next_retry_at : option Z;
  cm_first_dirty_at : option Z;
  cm_write_at : option Z;
  cm_retry_index : nat;
  cm_flush_generation : Z;
  cm_running : bool;
  cm_changed : bool;                        (* the event [_changed] *)
  cm_writing : option (Z * Snapshot);       (* [target] and [snapshot] of a suspended [_write_once] *)
}.

(** [CheckpointManager(...)] *)
Definition new_manager (start_delay deadline : Z) (backoff : list Z) : result CheckpointManager :=
  raise_if ((start_delay <? 0) || (deadline <? 0))
    (ValueError (u "checkpoint delays must be non-negative")) ;?
  raise_if (bool_decide (backoff = []) || existsb (fun d => d <? 0) backoff)
    (ValueError (u "checkpoint backoff must contain non-negative delays")) ;?
  Ok (mkManager start_delay deadline backoff 0 0 false None None None None 0 0 false false None).

Definition status (m : CheckpointManager) : CheckpointStatus :=
  mkCheckpointStatus (cm_dirty_generation m) (cm_durable_generation m) (cm_write_active m)
    (cm_last_error m) (cm_next_retry_at m).

(** [_notify_state_changed] *)
Definition notify (m : CheckpointManager) : CheckpointManager :=
  mkManager (cm_start_delay m) (cm_deadline m) (cm_backoff m) (cm_dirty_generation m) (cm_durable_generation m)
    (cm_write_active m) (cm_last_error m) (cm_next_retry_at m) (cm_first_dirty_at m) (cm_write_at m)
    (cm_retry_index m) (cm_flush_generation m) (cm_running m) true (cm_writing m).

(** [mark_dirty], [now] being what the clock reads. *)
Definition mark_dirty (m : CheckpointManager) (generation now : Z) : result CheckpointManager :=
  raise_if (generation <? 0) (ValueError (u "generation must be a non-negative integer")) ;?
  if generation <=? cm_dirty_generation m then Ok m
  else
    let starts := cm_dirty_generation m <=? cm_durable_generation m in
    let first := if starts then Some now else cm_first_dirty_at m in
    let write_at :=
      if starts && bool_decide (cm_next_retry_at m = None)
      then Some (Z.min (now + cm_start_delay m) (now + cm_deadline m)) else cm_write_at m in
    Ok (notify (mkManager (cm_start_delay m) (cm_deadline m) (cm_backoff m) generation (cm_durable_generation m)
      (cm_write_active m) (cm_last_error m) (cm_next_retry_at m) first write_at
      (cm_retry_index m) (cm_flush_generation m) (cm_running m) (cm_changed m) (cm_writing m))).

(** [flush] up to its wait: an answer, or the generation it waits for. *)
Definition flush_begin (m : CheckpointManager) : result ((CheckpointStatus + Z) * CheckpointManager) :=
  let target := cm_dirty_generation m in
  if target <=? cm_durable_generation m then Ok (inl (status m), m)
  else
    raise_if (negb (cm_running m)) (RuntimeError (u "checkpoint manager is not running")) ;?
    Ok (inr target,
        notify (mkManager (cm_start_delay m) (cm_deadline m) (cm_backoff m) (cm_dirty_generation m)
          (cm_durable_generation m) (cm_write_active m) (cm_last_error m) (cm_next_retry_at m) (cm_first_dirty_at m)
          (cm_write_at m) (cm_retry_index m) (Z.max (cm_flush_generation m) target) (cm_running m) (cm_changed m)
          (cm_writing m))).

(** What the wait is for, and the end of [flush]. *)
Definition flush_ready (m : CheckpointManager) (target : Z) : bool :=
  (target <=? cm_durable_generation m) || negb (cm_running m).

Definition flush_end (m : CheckpointManager) (target : Z) : result CheckpointStatus :=
  raise_if (cm_durable_generation m <? target)
    (RuntimeError (u "checkpoint manager stopped before flush completed")) ;?
  Ok (status m).

(** [run]: its entry, and its [finally]. *)
Definition set_running (m : CheckpointManager) (running active : bool) : CheckpointManager :=
  notify (mkManager (cm_start_delay m) (cm_deadline m) (cm_backoff m) (cm_dirty_generation m) (cm_durable_generation m)
    active (cm_last_error m) (cm_next_retry_at m) (cm_first_dirty_at m) (cm_write_at m)
    (cm_retry_index m) (cm_flush_generation m) running (cm_changed m) (cm_writing m)).

Definition run_begin (m : CheckpointManager) : result CheckpointManager :=
  raise_if (cm_running m) (RuntimeError (u "checkpoint manager is already running")) ;?
  Ok (set_running m true (cm_write_active m)).

Definition run_end (m : CheckpointManager) : CheckpointManager := set_running m false false.

(** [_next_write_time] *)
Definition _next_write_time (m : CheckpointManager) (now : Z) : option Z :=
  if cm_write_active m || (cm_dirty_generation m <=? cm_durable_generation m) then None
  else
    match cm_next_retry_at m with
    | Some t => Some t
    | None => if cm_durable_generation m <? cm_flush_generation m then Some now else cm_write_at m
    end.

(** One turn of the loop of [run]: [self._changed.clear()], then what to wait for. *)
Inductive loop_action :=
| WaitForChange                (* [_wait_for_change_or_stop(stop, None)] *)
| WaitAtMost (delay : Z)       (* the same with a delay; the loop turns again if something changed *)
| WriteNow.                    (* [_write_once()] *)

Definition clear_changed (m : CheckpointManager) : CheckpointManager :=
  mkManager (cm_start_delay m) (cm_deadline m) (cm_backoff m) (cm_dirty_generation m) (cm_durable_generation m)
    (cm_write_active m) (cm_last_error m) (cm_next_retry_at m) (cm_first_dirty_at m) (cm_write_at m)
    (cm_retry_index m) (cm_flush_generation m) (cm_running m) false (cm_writing m).

Definition loop_turn (m : CheckpointManager) (now : Z) : loop_action * CheckpointManager :=
  let m := clear_changed m in
  match _next_write_time m now with
  | None => (WaitForChange, m)
  | Some due => let delay := Z.max 0 (due - now) in
                (if 0 <? delay then WaitAtMost delay else WriteNow, m)
  end.

(** [_write_once] up to its wait: the snapshot to write, if any. *)
Definition write_begin (m : CheckpointManager) (snapshot : Snapshot) : option Snapshot * CheckpointManager :=
  if cm_write_active m || (cm_dirty_generation m <=? cm_durable_generation m) then (None, m)
  else
    (Some snapshot,
     notify (mkManager (cm_start_delay m) (cm_deadline m) (cm_backoff m) (cm_dirty_generation m)
       (cm_durable_generation m) true (cm_last_error m) (cm_next_retry_at m) (cm_first_dirty_at m) (cm_write_at m)
       (cm_retry_index m) (cm_flush_generation m) (cm_running m) (cm_changed m)
       (Some (cm_dirty_generation m, snapshot)))).

Definition retry_delay (m : CheckpointManager) : Z :=
  default 0 (cm_backoff m !! Nat.min (cm_retry_index m) (length (cm_backoff m) - 1)).

(** The rest of [_write_once] when the write raised [name]. *)
Definition write_failed (m : CheckpointManager) (name : pystr) (now : Z) : CheckpointManager :=
  notify (mkManager (cm_start_delay m) (cm_deadline m) (cm_backoff m) (cm_dirty_generation m) (cm_durable_generation m)
    false (Some (name ++ u ": checkpoint write failed")) (Some (now + retry_delay m)) (cm_first_dirty_at m)
    (cm_write_at m) (S (cm_retry_index m)) (cm_flush_generation m) (cm_running m) (cm_changed m) None).

(** The rest of [_write_once] when the write succeeded. *)
Definition write_succeeded (m : CheckpointManager) (target now : Z) : CheckpointManager :=
  let durable := Z.max (cm_durable_generation m) target in
  let caught_up := cm_dirty_generation m <=? durable in
  let first_dirty := default now (cm_first_dirty_at m) in
  notify (mkManager (cm_start_delay m) (cm_deadline m) (cm_backoff m) (cm_dirty_generation m) durable
    false None None (if caught_up then None else cm_first_dirty_at m)
    (if caught_up then None else Some (Z.min (now + cm_start_delay m) (first_dirty + cm_deadline m)))
    0 (if cm_flush_generation m <=? durable then 0 else cm_flush_generation m)
    (cm_running m) (cm_changed m) None).

Definition write_end (m : CheckpointManager) (failure : option pystr) (now : Z) : CheckpointManager :=
  match cm_writing m with
  | None => m
  | Some (target, _) =>
      match failure with
      | Some name => write_failed m name now
      | None => write_succeeded m target now
      end
  end.

(** ** Runs

    What may happen to a manager, with the clock reading at which it happens. *)
Inductive checkpoint_event :=
| EvMark (generation : Z)
| EvFlush
| EvRun
| EvRunEnd
| EvTurn
| EvWriteBegin (snapshot : Snapshot)
| EvWriteEnd (failure : option pystr).

Definition checkpoint_step (m : CheckpointManager) (ev : checkpoint_event * Z) : CheckpointManager :=
  let '(e, now) := ev in
  match e with
  | EvMark g => match mark_dirty m g now with Ok m' => m' | Err _ => m end
  | EvFlush => match flush_begin m with Ok (_, m') => m' | Err _ => m end
  | EvRun => match run_begin m with Ok m' => m' | Err _ => m end
  | EvRunEnd => match cm_writing m with None => run_end m | Some _ => m end  (* [run] awaits [_write_once] *)
  | EvTurn => (loop_turn m now).2
  | EvWriteBegin snapshot => (write_begin m snapshot).2
  | EvWriteEnd failure => write_end m failure now
  end.

Definition checkpoint_run (m : CheckpointManager) (evs : list (checkpoint_event * Z)) : CheckpointManager :=
  foldl checkpoint_step m evs.
