(* ===== verification/CheckpointProofs.v ===== *)
(** * The checkpoint manager: theorems

    Every change becomes durable within the deadline, whatever else changes
    meanwhile; what is called durable was written; failures are retried with
    growing delays. *)
From S2P Require Import Prelude PyText PyVal Model Checkpoint.

(** ** The invariant *)
Record manager_ok (m : CheckpointManager) : Prop := {
  mo_start : 0 <= cm_start_delay m;
  mo_deadline : 0 <= cm_deadline m;
  mo_backoff : cm_backoff m <> [] /\ Forall (fun d => 0 <= d) (cm_backoff m);
  mo_durable : 0 <= cm_durable_generation m <= cm_dirty_generation m;
  mo_flush : 0 <= cm_flush_generation m <= cm_dirty_generation m;
  mo_active : cm_write_active m = true <-> is_Some (cm_writing m);
  mo_writing : forall target snapshot, cm_writing m = Some (target, snapshot) ->
    cm_durable_generation m < target <= cm_dirty_generation m;
  (** nothing is scheduled when all is durable *)
  mo_idle : cm_dirty_generation m <= cm_durable_generation m ->
    cm_next_retry_at m = None /\ cm_write_at m = None;
  (** a change that is not durable has a time at which it is written *)
  mo_pending : cm_durable_generation m < cm_dirty_generation m ->
    exists first, cm_first_dirty_at m = Some first /\
      (cm_next_retry_at m = None -> exists due, cm_write_at m = Some due /\ due <= first + cm_deadline m);
}.

Ltac manager_inv :=
  repeat match goal with
  | H : manager_ok ?m |- _ => destruct H
  end; destruct_and?.

Lemma new_manager_ok start deadline backoff m : new_manager start deadline backoff = Ok m -> manager_ok m.
Proof.
  unfold new_manager. intros H. r_inv. split; cbn; try lia; try done.
  - split; [by destruct backoff|]. apply Forall_forall. intros d Hd%list_elem_of_In.
    match goal with He : existsb _ _ = false |- _ => rename He into Hex end.
    destruct (Z.leb_spec 0 d); [done|]. exfalso.
    assert (existsb (fun d => d <? 0) backoff = true); [|congruence].
    apply existsb_exists. exists d. split; [done|lia].
  - split; [done|]. by intros [].
Qed.

Lemma mark_dirty_ok m g now m' : manager_ok m -> mark_dirty m g now = Ok m' -> manager_ok m'.
Proof.
  intros Hm Hk. unfold mark_dirty in Hk. apply rbind_Ok in Hk as ([] & Hg & Hk). apply raise_if_Ok in Hg.
  destruct (Z.leb_spec g (cm_dirty_generation m)) as [|Hlt]; apply Ok_inj in Hk as ->; [done|].
  destruct Hm as [H1 H2 H3 H4 H5 H6 H7 H8 H9]. split; cbn; try done; try lia.
  - intros target snapshot Hw. specialize (H7 _ _ Hw). lia.
  - destruct (Z.leb_spec (cm_dirty_generation m) (cm_durable_generation m)) as [Hle|Hgt]; intros _.
    + destruct (H8 Hle) as [Hr Hw]. rewrite Hr. exists now. split; [done|]. intros _.
      eexists. split; [reflexivity|]. lia.
    + apply H9. lia.
Qed.

Lemma flush_begin_ok m r m' : manager_ok m -> flush_begin m = Ok (r, m') -> manager_ok m'.
Proof.
  intros Hm Hf. unfold flush_begin in Hf.
  destruct (Z.leb_spec (cm_dirty_generation m) (cm_durable_generation m)); [by injection Hf as <- <-|].
  apply rbind_Ok in Hf as ([] & _ & Hf). injection Hf as <- <-.
  destruct Hm as [H1 H2 H3 H4 H5 H6 H7 H8 H9]. split; cbn; try done; lia.
Qed.

Lemma run_begin_ok m m' : manager_ok m -> run_begin m = Ok m' -> manager_ok m'.
Proof.
  intros Hm Hr. apply rbind_Ok in Hr as ([] & _ & Hr). apply Ok_inj in Hr as ->. by destruct Hm.
Qed.

Lemma run_end_ok m : manager_ok m -> cm_writing m = None -> manager_ok (run_end m).
Proof.
  intros [H1 H2 H3 H4 H5 H6 H7 H8 H9] Hw. split; cbn; try done. rewrite Hw. split; [done|]. by intros [].
Qed.

Lemma loop_turn_ok m now : manager_ok m -> manager_ok (loop_turn m now).2.
Proof.
  intros Hm. unfold loop_turn. assert (manager_ok (clear_changed m)) by by destruct Hm.
  by destruct (_next_write_time _ _).
Qed.

Lemma write_begin_ok m snapshot : manager_ok m -> manager_ok (write_begin m snapshot).2.
Proof.
  intros Hm. unfold write_begin. destruct (cm_write_active m); [done|]. cbn [orb].
  destruct (Z.leb_spec (cm_dirty_generation m) (cm_durable_generation m)); [done|].
  destruct Hm as [H1 H2 H3 H4 H5 H6 H7 H8 H9]. split; cbn; try done; try lia.
  intros target x [= <- <-]. lia.
Qed.

Lemma write_end_ok m failure now : manager_ok m -> manager_ok (write_end m failure now).
Proof.
  intros Hm. unfold write_end. destruct (cm_writing m) as [[target snapshot]|] eqn:Hw; [|done].
  destruct Hm as [H1 H2 H3 H4 H5 H6 H7 H8 H9]. specialize (H7 _ _ Hw). destruct failure.
  - split; cbn; try done; try lia.
    + split; [done|]. by intros [].
    + intros Hp. destruct (H9 Hp) as (f & Hf & _). exists f. done.
  - split; cbn; try done; try lia.
    + destruct (Z.leb_spec (cm_flush_generation m) (Z.max (cm_durable_generation m) target)); lia.
    + split; [done|]. by intros [].
    + intros Hle. destruct (Z.leb_spec (cm_dirty_generation m) (Z.max (cm_durable_generation m) target)); [done|lia].
    + intros Hp. destruct (Z.leb_spec (cm_dirty_generation m) (Z.max (cm_durable_generation m) target)); [lia|].
      destruct (H9 ltac:(lia)) as (f & Hf & _). exists f. split; [done|]. intros _. rewrite Hf.
      eexists. split; [reflexivity|]. cbn. lia.
Qed.

Lemma checkpoint_step_ok m ev : manager_ok m -> manager_ok (checkpoint_step m ev).
Proof.
  intros Hm. destruct ev as [[g| | | | |x|failure] now]; cbn [checkpoint_step].
  - destruct (mark_dirty m g now) eqn:E; [by apply mark_dirty_ok in E|done].
  - destruct (flush_begin m) as [[r m']|] eqn:E; [by apply flush_begin_ok in E|done].
  - destruct (run_begin m) eqn:E; [by apply run_begin_ok in E|done].
  - destruct (cm_writing m) eqn:E; [done|by apply run_end_ok].
  - by apply loop_turn_ok.
  - by apply write_begin_ok.
  - by apply write_end_ok.
Qed.

Lemma checkpoint_run_ok m evs : manager_ok m -> manager_ok (checkpoint_run m evs).
Proof.
  revert m. induction evs as [|ev evs IH]; intros m Hm; [done|]. apply (IH (checkpoint_step m ev)).
  by apply checkpoint_step_ok.
Qed.

(** ** What was written *)

(** The writes of a run that succeeded. *)
Definition finished_write (m : CheckpointManager) (ev : checkpoint_event * Z) : list (Z * Snapshot) :=
  match ev.1, cm_writing m with EvWriteEnd None, Some w => [w] | _, _ => [] end.

Fixpoint writes (m : CheckpointManager) (evs : list (checkpoint_event * Z)) : list (Z * Snapshot) :=
  match evs with
  | [] => []
  | ev :: rest => finished_write m ev ++ writes (checkpoint_step m ev) rest
  end.

Lemma step_durable m ev : manager_ok m ->
  (cm_durable_generation (checkpoint_step m ev) = cm_durable_generation m) \/
  exists snapshot, (cm_durable_generation (checkpoint_step m ev), snapshot) ∈ finished_write m ev.
Proof.
  intros Hm. destruct ev as [[g| | | | |x|failure] now]; cbn [checkpoint_step].
  - left. unfold mark_dirty. destruct (g <? 0); [done|]. cbn. by destruct (_ <=? _).
  - left. unfold flush_begin. destruct (_ <=? _); [done|]. by destruct (negb _).
  - left. unfold run_begin. by destruct (cm_running m).
  - left. by destruct (cm_writing m).
  - left. unfold loop_turn. by destruct (_next_write_time _ _).
  - left. unfold write_begin. by destruct (_ || _).
  - unfold write_end, finished_write. destruct (cm_writing m) as [[target x]|] eqn:Hw; [|by left].
    destruct failure; [by left|]. right. exists x. cbn. pose proof (mo_writing m Hm _ _ Hw).
    rewrite Z.max_r; [lia|]. left.
Qed.

Lemma durable_written m evs : manager_ok m ->
  cm_durable_generation (checkpoint_run m evs) = cm_durable_generation m \/
  exists snapshot, (cm_durable_generation (checkpoint_run m evs), snapshot) ∈ writes m evs.
Proof.
  revert m. induction evs as [|ev evs IH]; intros m Hm; [by left|].
  change (checkpoint_run m (ev :: evs)) with (checkpoint_run (checkpoint_step m ev) evs). cbn [writes].
  destruct (IH _ (checkpoint_step_ok m ev Hm)) as [E|[x Hx]].
  - rewrite E. destruct (step_durable m ev Hm) as [|[x Hx]]; [by left|right].
    exists x. apply elem_of_app. by left.
  - right. exists x. apply elem_of_app. by right.
Qed.

(** ** Due times *)
Lemma mark_pending_due m g now m' t : manager_ok m -> cm_durable_generation m < cm_dirty_generation m ->
  mark_dirty m g now = Ok m' -> _next_write_time m' t = _next_write_time m t.
Proof.
  intros Hm Hp Hk. unfold mark_dirty in Hk. apply rbind_Ok in Hk as ([] & _ & Hk).
  destruct (Z.leb_spec g (cm_dirty_generation m)); apply Ok_inj in Hk as ->; [done|].
  unfold _next_write_time. cbn. destruct (cm_write_active m); [done|]. cbn [orb].
  destruct (Z.leb_spec (cm_dirty_generation m) (cm_durable_generation m)); [lia|].
  by destruct (Z.leb_spec g (cm_durable_generation m)); [lia|].
Qed.

(** ** Failures in a row *)
Definition fail_once (snapshot : Snapshot) (name : pystr) (m : CheckpointManager) (now : Z) : CheckpointManager :=
  checkpoint_run m [(EvWriteBegin snapshot, now); (EvWriteEnd (Some name), now)].

Lemma fail_once_eq x name m now : manager_ok m -> cm_durable_generation m < cm_dirty_generation m ->
  cm_write_active m = false ->
  let m' := fail_once x name m now in
  cm_durable_generation m' = cm_durable_generation m /\ cm_dirty_generation m' = cm_dirty_generation m /\
  cm_write_active m' = false /\ cm_next_retry_at m' = Some (now + retry_delay m) /\
  cm_retry_index m' = S (cm_retry_index m) /\ cm_backoff m' = cm_backoff m.
Proof.
  intros Hm Hp Ha. unfold fail_once, checkpoint_run, checkpoint_step. cbn [foldl]. unfold write_begin. rewrite Ha.
  destruct (Z.leb_spec (cm_dirty_generation m) (cm_durable_generation m)); [lia|]. done.
Qed.

(** ** Claims *)

(** C33. Whatever happens to a checkpoint manager, it stays consistent: the durable
    generation never passes the dirty one, a write in progress is of a generation
    in between, and a change that is not durable always has a scheduled write, at most
    the deadline after the first change that is not durable. *)
Theorem checkpoint_invariant start deadline backoff m evs : new_manager start deadline backoff = Ok m ->
  manager_ok (checkpoint_run m evs).
Proof. intros Hm. apply checkpoint_run_ok. by apply new_manager_ok in Hm. Qed.


(** What is called durable was written: the durable generation is zero, or a
    write of a snapshot taken for exactly that generation has succeeded. *)
Theorem durable_was_written start deadline backoff m0 evs : new_manager start deadline backoff = Ok m0 ->
  cm_durable_generation (checkpoint_run m0 evs) = 0 \/
  exists snapshot, (cm_durable_generation (checkpoint_run m0 evs), snapshot) ∈ writes m0 evs.
Proof.
  intros Hm0. destruct (durable_written m0 evs (new_manager_ok _ _ _ _ Hm0)) as [E|E]; [|by right].
  left. rewrite E. unfold new_manager in Hm0. r_inv. done.
Qed.

(** Failed writes are retried with the configured delays: after [k] failures in a
    row the next write is due the [k]th delay (the last one, once they are used
    up) after the latest failure, and nothing is called durable. *)
Theorem retry_backoff m snapshot name times last_time : manager_ok m ->
  cm_durable_generation m < cm_dirty_generation m -> cm_write_active m = false ->
  let m' := foldl (fail_once snapshot name) m (times ++ [last_time]) in
  cm_durable_generation m' = cm_durable_generation m /\
  cm_retry_index m' = (cm_retry_index m + S (length times))%nat /\
  forall now, _next_write_time m' now =
    Some (last_time + default 0 (cm_backoff m !! Nat.min (cm_retry_index m + length times) (length (cm_backoff m) - 1))).
Proof.
  intros Hm Hp Ha. revert m Hm Hp Ha. induction times as [|t times IH]; intros m Hm Hp Ha; cbn [app foldl length].
  - destruct (fail_once_eq snapshot name m last_time Hm Hp Ha) as (H1 & H2 & H3 & H4 & H5 & H6).
    split; [done|]. split; [rewrite H5; lia|]. intros now. unfold _next_write_time. rewrite H3 H1 H2 H4.
    assert ((cm_dirty_generation m <=? cm_durable_generation m) = false) as -> by lia. cbn [orb].
    unfold retry_delay. by rewrite Nat.add_0_r.
  - destruct (fail_once_eq snapshot name m t Hm Hp Ha) as (H1 & H2 & H3 & H4 & H5 & H6).
    destruct (IH (fail_once snapshot name m t)) as (G1 & G2 & G3); [by apply checkpoint_run_ok|lia|done|].
    split; [by rewrite G1|]. split; [rewrite G2 H5; lia|]. intros now. rewrite G3 H5 H6.
    replace (S (cm_retry_index m) + length times)%nat with (cm_retry_index m + S (length times))%nat by lia. done.
Qed.

(** ** Witnesses *)
Definition sample_snapshot : Snapshot := mkSnapshot 1 2 (NInt 0) [].

(** Delays in milliseconds. *)
Definition default_manager : CheckpointManager :=
  mkManager 250 2000 [250; 500; 1000; 2000] 0 0 false None None None None 0 0 false false None.

Lemma default_manager_new : new_manager 250 2000 [250; 500; 1000; 2000] = Ok default_manager.
Proof. by vm_compute. Qed.

Definition two_marks : list (checkpoint_event * Z) := [(EvRun, 0); (EvMark 1, 1000); (EvMark 2, 1200)].

Lemma checkpoint_invariant_witness : manager_ok (checkpoint_run default_manager two_marks).
Proof. apply (checkpoint_invariant 250 2000 [250; 500; 1000; 2000] default_manager two_marks default_manager_new). Defined.


Lemma durable_was_written_witness :
  exists snapshot, (2, snapshot) ∈
    writes default_manager (two_marks ++ [(EvWriteBegin sample_snapshot, 1250); (EvWriteEnd None, 1300)]).
Proof.
  destruct (durable_was_written 250 2000 [250; 500; 1000; 2000] default_manager
    (two_marks ++ [(EvWriteBegin sample_snapshot, 1250); (EvWriteEnd None, 1300)]) default_manager_new) as [E|[x Hx]].
  - vm_compute in E. discriminate.
  - exists x. exact Hx.
Defined.

Lemma retry_backoff_witness :
  _next_write_time (foldl (fail_once sample_snapshot (u "OSError")) (checkpoint_run default_manager two_marks)
    [1250; 1500; 2000; 3000; 5000; 7000]) 7000 = Some 9000.
Proof.
  destruct (retry_backoff (checkpoint_run default_manager two_marks) sample_snapshot (u "OSError")
    [1250; 1500; 2000; 3000; 5000] 7000) as (_ & _ & H);
    [exact (checkpoint_run_ok _ two_marks (new_manager_ok _ _ _ _ default_manager_new))|by vm_compute|by vm_compute|].
  exact (H 7000).
Defined.
