(* ===== verification/RecoveryProofs.v ===== *)
(** * Recovery: theorems

    Where a shell restarts, which shells a workspace offers, what survives being
    stored, and what a restore attempt launches. *)
From S2P Require Import Prelude PyText PyVal PyFloat Json Codec Model StateCodec Shlex Classifier Protocol.
From S2P Require Import Resume ResumeProofs Recovery.

(** ** Directories *)

(** A path and the directories above it, nearest first. *)
Definition ancestors (p : posix_path) : list posix_path :=
  map (fun k => mkPath (path_root p) (take k (path_tail p))) (rev (seq 0 (S (length (path_tail p))))).

Lemma removelast_take {A} (l : list A) : removelast l = take (length l - 1) l.
Proof.
  induction l as [|x l IH] using rev_ind; [done|].
  rewrite removelast_last length_app. simpl. rewrite Nat.add_sub take_app_length. done.
Qed.

Lemma ancestors_step p : path_parent p <> p -> ancestors p = p :: ancestors (path_parent p).
Proof.
  destruct p as [root tail]. intros Hne. unfold ancestors, path_parent. cbn [path_root path_tail].
  assert (Ht : tail <> []) by (intros ->; by apply Hne).
  assert (Hn : length tail = S (length (removelast tail))).
  { rewrite removelast_take length_take. destruct tail; [done|]. simpl. lia. }
  rewrite {1}Hn seq_S rev_app_distr. cbn [rev app map]. rewrite Nat.add_0_l -Hn firstn_all. f_equal.
  apply map_ext_in. intros k Hk%in_rev%in_seq. f_equal. rewrite removelast_take take_take. f_equal. lia.
Qed.

Lemma ancestors_root p : path_parent p = p -> ancestors p = [p].
Proof. intros Hp. apply path_parent_fixed in Hp. destruct p as [root tail]. simpl in Hp. by subst. Qed.

Section Directories.
Context (w : World).

(** [lstat] fails with an [OSError] if it fails. *)
Definition lstat_sane : Prop := forall p e, w_lstat w p = Err e -> is_os_error e = true.

Definition usable (p : posix_path) : bool :=
  match w_lstat w p with Ok mode => is_directory_mode mode && w_access w p | Err _ => false end.

Lemma usable_directory p : lstat_sane -> _usable_directory w p = Ok (usable p).
Proof.
  intros Hs. unfold _usable_directory, usable. destruct (w_lstat w p) as [m|e] eqn:E; [done|]. by rewrite (Hs _ _ E).
Qed.

(** Where to go from [recorded] when the directories of [candidates] are tried in order. *)
Definition first_usable (recorded home : posix_path) (candidates : list posix_path)
  : result (posix_path * option pystr) :=
  match List.find usable candidates with
  | Some d => Ok (d, if bool_decide (d = recorded) then None else Some (missing_text recorded d))
  | None => if usable home then Ok (home, Some (missing_text recorded home))
            else Err (ValueError (u "home directory is not usable"))
  end.

Lemma climb_spec fuel recorded home p : lstat_sane -> (length (path_tail p) < fuel)%nat ->
  climb w fuel recorded home p = first_usable recorded home (ancestors p).
Proof.
  intros Hs. revert p. induction fuel as [|fuel IH]; intros p Hf; [lia|]. cbn [climb].
  rewrite usable_directory //. cbn [rbind]. unfold first_usable.
  destruct (decide (path_parent p = p)) as [Hp|Hp].
  - rewrite ancestors_root // (bool_decide_eq_true_2 (path_parent p = p)) //. cbn [List.find].
    destruct (usable p); [done|]. rewrite usable_directory //. cbn [rbind]. by destruct (usable home).
  - rewrite ancestors_step // (bool_decide_eq_false_2 (path_parent p = p)) //. cbn [List.find]. destruct (usable p); [done|].
    apply IH. pose proof (path_parent_shorter p Hp). lia.
Qed.

Lemma resolve_directory_first recorded home : lstat_sane ->
  resolve_directory w recorded home = first_usable recorded home (ancestors recorded).
Proof. intros Hs. apply climb_spec; [done|lia]. Qed.

End Directories.

(** ** Order *)
Definition key_le {A} (key : A -> pystr) (a b : A) : Prop := str_leb (key a) (key b) = true.

Lemma key_sorted {A} (key : A -> pystr) l : StronglySorted (key_le key) (sort_by (fun a b => str_leb (key a) (key b)) l).
Proof. apply sort_by_sorted; [intros a b; apply str_leb_total|intros a b c; apply str_leb_trans]. Qed.

Lemma sorted_map {A B} (R : B -> B -> Prop) (f : A -> B) l :
  StronglySorted R (map f l) <-> StronglySorted (fun a b => R (f a) (f b)) l.
Proof.
  induction l as [|x l IH]; simpl; [by split; constructor|].
  split; inversion 1; subst; constructor; try tauto; by apply Forall_map.
Qed.

Lemma sorted_filter {A} (R : A -> A -> Prop) (P : A -> Prop) `{forall x, Decision (P x)} l :
  StronglySorted R l -> StronglySorted R (filter P l).
Proof.
  induction 1 as [|x l Hl IH Hx]; [constructor|]. rewrite filter_cons. case_decide; [|done].
  constructor; [done|]. apply Forall_forall. intros y [_ Hy]%list_elem_of_filter. rewrite Forall_forall in Hx. auto.
Qed.

(** ** Reconciliation *)
Section Reconcile.
Context (w : World) (boot : pystr) (probe : ProcessIdentity -> ProcessProbe) (home : posix_path).

(** Why a shell can be recovered: it has not exited, and its boot or its process is over. *)
Definition recoverable (s : ShellRecord) (r : RecoveryReason) : Prop :=
  termination s <> Some EXPLICIT_EXIT /\
  ((r = PREVIOUS_BOOT /\ boot_id (identity s) <> boot) \/
   (r = SAME_BOOT_DEAD /\ boot_id (identity s) = boot /\ probe_status (probe (identity s)) = DEAD)).

(** A shell of which nothing can be said. *)
Definition undetermined (s : ShellRecord) : Prop :=
  termination s <> Some EXPLICIT_EXIT /\ boot_id (identity s) = boot /\
  probe_status (probe (identity s)) = UNKNOWN.

Lemma exit_test s :
  bool_decide (enum_value <$> termination s = Some (enum_value REASON_EXPLICIT_EXIT)) =
  bool_decide (termination s = Some EXPLICIT_EXIT).
Proof. apply bool_decide_ext. destruct (termination s) as [[]|]; split; by vm_compute. Qed.

(** The reason for which [triage] offers a shell. *)
Definition fate (s : ShellRecord) : option RecoveryReason := head (map snd (triage boot probe s).1).

Lemma triage_fate s :
  (triage boot probe s).1 = match fate s with Some r => [(s, r)] | None => [] end /\
  (forall r, fate s = Some r <-> recoverable s r) /\
  ((triage boot probe s).2 <> [] <-> undetermined s).
Proof.
  unfold fate, triage, recoverable, undetermined. rewrite exit_test.
  destruct (bool_decide_reflect (termination s = Some EXPLICIT_EXIT)) as [Ht|Ht]; [naive_solver|].
  destruct (str_eqb (boot_id (identity s)) boot) eqn:Hb.
  - apply str_eqb_eq in Hb. cbn [negb]. destruct (probe_status _); simpl; naive_solver.
  - apply str_eqb_neq in Hb. simpl. naive_solver.
Qed.

Lemma candidates_eq l :
  (map (triage boot probe) l ≫= fst) = omap (fun s => r ← fate s; Some (s, r)) l.
Proof.
  induction l as [|s l IH]; [done|]. cbn [map omap list_omap]. rewrite bind_cons IH.
  rewrite (proj1 (triage_fate s)). by destruct (fate s).
Qed.

Lemma candidates_elem (l : list ShellRecord) s r :
  (s, r) ∈ omap (fun s => r ← fate s; Some (s, r)) l <-> s ∈ l /\ recoverable s r.
Proof.
  rewrite list_elem_of_omap. split.
  - intros (s' & Hs & (r' & Hr & [= -> ->])%bind_Some). split; [done|]. by apply triage_fate.
  - intros [Hs Hr]. exists s. split; [done|]. apply (proj1 (proj2 (triage_fate s)) r) in Hr. by rewrite Hr.
Qed.

Lemma candidates_shells (l : list ShellRecord) :
  map fst (omap (fun s => r ← fate s; Some (s, r)) l) = filter (fun s => fate s <> None) l.
Proof.
  induction l as [|s l IH]; [done|]. rewrite filter_cons. cbn [omap list_omap].
  destruct (fate s); simpl; [by rewrite IH|done].
Qed.

End Reconcile.

Lemma ancestors_head p : p ∈ ancestors p.
Proof.
  destruct (decide (path_parent p = p)) as [Hp|Hp]; [rewrite ancestors_root //|rewrite ancestors_step //]; left.
Qed.

Lemma resolve_directory_Ok w recorded home d warning : lstat_sane w ->
  resolve_directory w recorded home = Ok (d, warning) ->
  usable w d = true /\ (warning = None <-> d = recorded).
Proof.
  intros Hs. rewrite resolve_directory_first //. unfold first_usable.
  destruct (List.find (usable w) (ancestors recorded)) as [d'|] eqn:E.
  - apply List.find_some in E as [_ E]. intros [= <- <-]. split; [done|].
    destruct (bool_decide_reflect (d' = recorded)); naive_solver.
  - destruct (usable w home) eqn:Hh; [|done]. intros [= <- <-]. split; [done|]. split; [done|]. intros ->.
    pose proof (List.find_none _ _ E recorded) as Hn. rewrite Hn in Hh; [apply list_elem_of_In, ancestors_head|done].
Qed.

(** The items of a workspace, one for each candidate. *)
Record item_for (w : World) (home : posix_path) (id : pystr) (s : ShellRecord) (r : RecoveryReason)
    (i : RecoveryItem) : Prop := {
  if_id : item_id i = id;
  if_shell : item_shell i = s;
  if_reason : item_reason i = r;
  if_level : item_level i = restoration_level s;
  if_eligible : item_replay_eligible i = replay_eligible s;
  if_usable : usable w (item_directory i) = true;
  if_warning : item_warning i = None <-> item_directory i = parse_path (cwd s);
}.

Lemma recovery_item_Ok w home id s r i : lstat_sane w -> recovery_item w home id s r = Ok i ->
  item_for w home id s r i.
Proof.
  intros Hs Hi. unfold recovery_item in Hi. apply rbind_Ok in Hi as ([d warning] & Hd & Hi).
  apply Ok_inj in Hi as ->. apply resolve_directory_Ok in Hd as [Hu Hw]; [|done]. by split.
Qed.

Lemma level_eligible s : replay_eligible s = true <-> restoration_level s = RECONSTRUCTED.
Proof.
  unfold restoration_level, replay_eligible. destruct (str_in (adapter s) SUPPORTED_ADAPTERS); simpl; [|done].
  destruct (command s) as [c|]; [|done]. by destruct (_ && _).
Qed.

Section Workspace.
Context (w : World) (Hsane : lstat_sane w) (boot : pystr) (probe : ProcessIdentity -> ProcessProbe) (home : posix_path).

(** The candidates of a snapshot, with the reason each is offered for. *)
Definition candidates (snapshot : Snapshot) : list (ShellRecord * RecoveryReason) :=
  omap (fun s => r ← fate boot probe s; Some (s, r)) (shells_by_id (shells snapshot)).

Definition reconcile_diagnostics (snapshot : Snapshot) : list pystr :=
  map (triage boot probe) (shells_by_id (shells snapshot)) ≫= snd.

Lemma reconcile_eq snapshot : reconcile w snapshot boot probe home =
  match candidates snapshot, reconcile_diagnostics snapshot with
  | [], [] => Ok None
  | cs, ds =>
      let? workspace_id := derive_workspace_id snapshot cs in
      let? items := rmap (fun c => recovery_item w home (shell_id c.1) c.1 c.2) cs in
      Ok (Some (mkWorkspace workspace_id items ds))
  end.
Proof.
  unfold reconcile. rewrite candidates_eq. fold (candidates snapshot). fold (reconcile_diagnostics snapshot).
  by destruct (candidates snapshot), (reconcile_diagnostics snapshot).
Qed.

Lemma reconcile_Some snapshot ws : reconcile w snapshot boot probe home = Ok (Some ws) ->
  ws_diagnostics ws = reconcile_diagnostics snapshot /\
  rmap (fun c => recovery_item w home (shell_id c.1) c.1 c.2) (candidates snapshot) = Ok (ws_items ws) /\
  Forall2 (fun c i => item_for w home (shell_id c.1) c.1 c.2 i) (candidates snapshot) (ws_items ws).
Proof.
  rewrite reconcile_eq. intros H.
  assert (Hr : (let? workspace_id := derive_workspace_id snapshot (candidates snapshot) in
      let? items := rmap (fun c => recovery_item w home (shell_id c.1) c.1 c.2) (candidates snapshot) in
      Ok (Some (mkWorkspace workspace_id items (reconcile_diagnostics snapshot)))) = Ok (Some ws)).
  { destruct (candidates snapshot), (reconcile_diagnostics snapshot); try done. }
  clear H. apply rbind_Ok in Hr as (id & _ & Hr). apply rbind_Ok in Hr as (found & Hi & Hr).
  injection Hr as <-. split; [done|]. split; [exact Hi|]. cbn [ws_items]. apply rmap_Ok in Hi.
  eapply Forall2_impl; [exact Hi|]. intros c i. by apply recovery_item_Ok.
Qed.

(** The diagnostics name the shells of which nothing can be said. *)
Lemma diagnostics_elem snapshot : reconcile_diagnostics snapshot <> [] <->
  exists s, s ∈ shells snapshot /\ undetermined boot probe s.
Proof.
  unfold reconcile_diagnostics.
  assert (Hm : forall s, s ∈ shells snapshot <-> s ∈ shells_by_id (shells snapshot))
    by (intros s; unfold shells_by_id; by rewrite sort_by_perm).
  setoid_rewrite Hm. clear Hm. generalize (shells_by_id (shells snapshot)). intros l.
  induction l as [|s l IH]; [split; [done|]; intros (s & Hs & _); by apply not_elem_of_nil in Hs|].
  cbn [map]. rewrite bind_cons. setoid_rewrite elem_of_cons.
  pose proof (proj2 (proj2 (triage_fate boot probe s))) as Hu.
  destruct ((triage boot probe s).2) as [|t ts]; simpl.
  - rewrite IH. naive_solver.
  - split; [|done]. intros _. exists s. split; [by left|]. by apply Hu.
Qed.

End Workspace.

(** ** Digests *)

(** Values without floats, small integers, strings of code points. *)
Fixpoint digest_ok (v : pyval) : bool :=
  match v with
  | VNone | VBool _ => true
  | VInt z => Z.abs z <? 10 ^ 100
  | VFloat _ => false
  | VStr s => forallb code_point s
  | VList l => forallb digest_ok l
  | VDict d => forallb (fun kv => forallb code_point kv.1 && digest_ok kv.2) d
  end.

Lemma digest_sorted v : digest_ok v = true -> digest_ok (sorted_keys v) = true.
Proof.
  induction v as [|b|z|f|s|l IH|d IH] using pyval_nested_ind; try done.
  - cbn [sorted_keys digest_ok]. rewrite forallb_map. apply forallb_impl. exact IH.
  - rewrite sorted_keys_dict. cbn [digest_ok]. unfold sorted_dict.
    rewrite (forallb_perm _ _ _ (sort_by_perm _ _)) forallb_map. apply forallb_impl.
    eapply Forall_impl; [exact IH|]. intros [k v] Hv [Hk Hd]%andb_true_iff. cbn in *. by rewrite Hk Hv.
Qed.

Lemma ascii_join {A} (f : A -> result pystr) l :
  Forall (fun x => exists t, f x = Ok t /\ forallb is_ascii t = true) l ->
  exists t, rmap_join f l = Ok t /\ forallb is_ascii t = true.
Proof.
  induction l as [|x l IH]; intros Hl; [by exists []|].
  apply Forall_cons in Hl as [(t & Ht & Hp) Hl]. cbn [rmap_join].
  destruct l as [|y l]; [by exists t|]. destruct (IH Hl) as (t' & Ht' & Hp').
  rewrite Ht Ht'. eexists. split; [done|]. by rewrite forallb_app Hp /= Hp'.
Qed.

Lemma hex_digit_ascii d : 0 <= d < 16 -> is_ascii (hex_digit d) = true.
Proof. intros Hd. unfold hex_digit, is_ascii. destruct (Z.ltb_spec d 10); lia. Qed.

Lemma unicode_escape_ascii c : forallb is_ascii (unicode_escape c) = true.
Proof.
  unfold unicode_escape, hex4. cbn [forallb]. by rewrite !hex_digit_ascii; [apply Z.mod_pos_bound; lia..|].
Qed.

Lemma escape_ascii c : code_point c = true -> forallb is_ascii (escape_char true c) = true.
Proof.
  unfold code_point, escape_char. intros Hc. repeat (case_match; [done|]).
  assert ((0 <=? c) = true) as -> by lia. cbn [andb].
  destruct (Z.ltb_spec c 32); [apply unicode_escape_ascii|].
  destruct (Z.ltb_spec 126 c).
  - case_match; [apply unicode_escape_ascii|]. by rewrite forallb_app !unicode_escape_ascii.
  - cbn [forallb]. unfold is_ascii. lia.
Qed.

Lemma json_string_ascii s : forallb code_point s = true -> forallb is_ascii (json_string true s) = true.
Proof.
  intros Hs. unfold json_string. cbn [forallb app]. rewrite forallb_app. cbn [forallb].
  assert (forallb is_ascii (flat_map (escape_char true) s) = true) as ->; [|done].
  induction s as [|c s IH]; [done|]. cbn [forallb flat_map] in *. apply andb_true_iff in Hs as [Hc Hs].
  by rewrite forallb_app escape_ascii // IH.
Qed.

Lemma number_char_ascii t : forallb number_char t = true -> forallb is_ascii t = true.
Proof.
  rewrite !forallb_forall. intros H c Hc. apply H in Hc.
  unfold number_char, char_in, is_digit, is_ascii in *. cbn in *. lia.
Qed.

Lemma digest_dumps v : digest_ok v = true ->
  exists t, json_dumps canonical_options v = Ok t /\ forallb is_ascii t = true.
Proof.
  induction v as [|b|z|f|s|l IH|d IH] using pyval_nested_ind; cbn [digest_ok json_dumps]; intros Hok.
  - by eexists.
  - by destruct b; eexists.
  - rewrite int_text_small; [lia|]. eexists. split; [done|]. apply number_char_ascii, str_of_int_chars.
  - done.
  - eexists. split; [done|]. by apply json_string_ascii.
  - destruct (ascii_join (json_dumps canonical_options) l) as (t & -> & Ht).
    { apply forallb_Forall in Hok. rewrite Forall_forall in IH. rewrite Forall_forall in Hok.
      apply Forall_forall. intros x Hx. by apply IH, Hok. }
    eexists. split; [done|]. cbn [forallb app]. by rewrite forallb_app Ht.
  - match goal with |- context [rmap_join ?f d] => destruct (ascii_join f d) as (t & Ht & Hp) end.
    { apply forallb_Forall in Hok. rewrite Forall_forall in IH. rewrite Forall_forall in Hok.
      apply Forall_forall. intros [k v] Hx. pose proof (Hok _ Hx) as [Hk Hv]%andb_true_iff.
      destruct (IH _ Hx Hv) as (t & Ht & Hp). cbn [fst snd] in *. rewrite Ht. eexists. split; [done|].
      by rewrite forallb_app json_string_ascii //= Hp. }
    rewrite Ht. eexists. split; [done|]. cbn [rbind forallb app]. by rewrite forallb_app Hp.
Qed.

Lemma digest_total v : digest_ok v = true -> exists d, short_digest v = Ok d.
Proof.
  intros Hv. unfold short_digest, _canonical_json.
  destruct (digest_dumps _ (digest_sorted v Hv)) as (t & -> & Ht). cbn [rbind]. unfold encode_ascii. rewrite Ht. by eexists.
Qed.

(** What the identifier of a workspace is computed from. *)
Definition shell_plain (s : ShellRecord) : Prop :=
  forallb code_point (shell_id s) = true /\ forallb code_point (boot_id (identity s)) = true /\
  Z.abs (pid (identity s)) < 10 ^ 100 /\ Z.abs (start_time (identity s)) < 10 ^ 100.

Definition snapshot_plain (x : Snapshot) : Prop :=
  Z.abs (generation x) < 10 ^ 100 /\ Forall shell_plain (shells x).

Lemma shells_by_id_elem l s : s ∈ shells_by_id l <-> s ∈ l.
Proof. unfold shells_by_id. by rewrite sort_by_perm. Qed.

Lemma workspace_id_total boot probe x : snapshot_plain x ->
  exists id, derive_workspace_id x (candidates boot probe x) = Ok id.
Proof.
  intros [Hg Hs]. unfold derive_workspace_id. apply digest_total. cbn [digest_ok forallb fst snd].
  assert (forallb digest_ok (map candidate_val (candidates boot probe x)) = true) as ->; [|].
  { apply forallb_forall. intros v Hv%in_map_iff. destruct Hv as ([s r] & <- & Hin%list_elem_of_In).
    unfold candidates in Hin. apply candidates_elem in Hin as [Hin _].
    apply (proj1 (shells_by_id_elem _ _)) in Hin.
    rewrite Forall_forall in Hs. destruct (Hs s Hin) as (H1 & H2 & H3 & H4).
    unfold candidate_val. cbn [digest_ok forallb fst snd]. rewrite H1 H2.
    apply Z.ltb_lt in H3, H4. rewrite H3 H4. by destruct r. }
  apply Z.ltb_lt in Hg. by rewrite Hg.
Qed.

Lemma resolve_total w recorded home : lstat_sane w -> usable w home = true ->
  exists d warning, resolve_directory w recorded home = Ok (d, warning).
Proof.
  intros Hs Hh. rewrite resolve_directory_first //. unfold first_usable.
  destruct (List.find _ _); [by eexists _, _|]. rewrite Hh. by eexists _, _.
Qed.

Lemma items_total w home (cs : list (ShellRecord * RecoveryReason)) : lstat_sane w -> usable w home = true ->
  exists l, rmap (fun c => recovery_item w home (shell_id c.1) c.1 c.2) cs = Ok l.
Proof.
  intros Hs Hh. induction cs as [|[s r] cs [l IH]]; [by exists []|]. cbn [rmap]. rewrite IH.
  unfold recovery_item. cbn [fst snd].
  destruct (resolve_total w (parse_path (cwd s)) home Hs Hh) as (d & warning & ->). by eexists.
Qed.

(** ** Storing a workspace *)
Lemma stored_reason_value r : stored_reason (enum_value r) = r.
Proof. unfold stored_reason. by rewrite enum_of_value_value. Qed.

Lemma candidates_sorted boot probe x : StronglySorted (key_le (fun c => shell_id c.1)) (candidates boot probe x).
Proof.
  assert (H : StronglySorted (key_le shell_id) (map fst (candidates boot probe x))).
  { unfold candidates. rewrite candidates_shells. apply sorted_filter, (key_sorted shell_id). }
  exact (proj1 (sorted_map (key_le shell_id) fst _) H).
Qed.

Lemma Forall2_sorted {A B} (R : A -> A -> Prop) (S : B -> B -> Prop) (P : A -> B -> Prop) l k :
  (forall a a' b b', P a b -> P a' b' -> R a a' -> S b b') -> Forall2 P l k ->
  StronglySorted R l -> StronglySorted S k.
Proof.
  intros H Hf. induction Hf as [|a b l k Hab Hf IH]; intros Hs; [constructor|]. inversion Hs as [|? ? Hs' Ha]; subst.
  constructor; [auto|]. apply Forall_forall. intros b' Hb'. apply list_elem_of_lookup in Hb' as [i Hi].
  destruct (Forall2_lookup_r _ _ _ _ _ Hf Hi) as (a' & Hi' & Hab'). rewrite Forall_forall in Ha.
  apply (H a a' b b' Hab Hab'), Ha. exact (list_elem_of_lookup_2 _ _ _ Hi').
Qed.

Lemma rmap_map {A B C} (f : B -> result C) (g : A -> B) l : rmap f (map g l) = rmap (fun x => f (g x)) l.
Proof. induction l as [|x l IH]; [done|]. cbn [map rmap]. by rewrite IH. Qed.

Lemma rmap_ext_Forall2 {A B C} (f : A -> result C) (g : B -> result C) l k :
  Forall2 (fun a b => f a = g b) l k -> rmap f l = rmap g k.
Proof. induction 1 as [|a b l k Hab _ IH]; [done|]. cbn [rmap]. by rewrite Hab IH. Qed.

Lemma record_from_workspace_Ok ws x r : record_from_workspace ws x = Ok r ->
  workspace_id r = ws_id ws /\ source_generation r = generation x /\ recovery_post_init r = Ok tt /\
  items r = map (fun i => mkItemRecord (item_id i) (item_shell i) (enum_value (item_reason i))) (ws_items ws).
Proof.
  intros H. apply rbind_Ok in H as (l & Hl & H). apply construct_Ok in H as [-> Hp].
  split; [done|]. split; [done|]. split; [done|]. cbn [items]. apply rmap_Ok in Hl. clear Hp.
  induction Hl as [|i y l k Hy _ IH]; [done|]. cbn [map]. rewrite IH. by apply construct_Ok in Hy as [-> _].
Qed.

(** ** Attempts *)
Section Attempts.
Context `{Unicode} (w : World).

(** A command line that a restore may run for a shell: its recorded replayable
    command, or the resumption of a session by a known convention. *)
Definition command_justified (s : ShellRecord) (text : pystr) : Prop :=
  exists c, command s = Some c /\ active c = true /\
    ((disposition c = REPLAYABLE /\ executable c = Some text) \/
     (exists m session_id argv, rm_contract m ∈ _CONTRACTS /\ build_resume_argv m session_id = Ok argv /\
        text = join (u " ") argv)).

Lemma find_resume_contract cache exe m cache' :
  find_resume_adapter (w_which w) (w_help w) cache exe = Ok (Some m, cache') -> rm_contract m ∈ _CONTRACTS.
Proof.
  unfold find_resume_adapter. intros E. destruct (_ || _); [done|]. cbn [find] in E.
  match type of E with match ?x with _ => _ end = _ => change x with (@None ResumeContract) in E end.
  cbv iota in E. apply rbind_Ok in E as ([text cache1] & _ & E). destruct (bool_decide _); [done|].
  match type of E with match List.find ?f _ with _ => _ end = _ => destruct (List.find f _CONTRACTS) as [c|] eqn:Hf; [|done] end.
  injection E as <- _. apply List.find_some in Hf as [Hf _]. by apply list_elem_of_In.
Qed.

Lemma approve_command_Ok cache s c text cache' : command s = Some c -> active c = true ->
  approve_command w cache s c = Ok (Some (Some text), cache') -> command_justified s text.
Proof.
  intros Hc Ha Hap. exists c. split; [done|]. split; [done|]. unfold approve_command in Hap.
  apply rbind_Ok in Hap as (name & _ & Hap). apply rbind_Ok in Hap as ([m cache1] & Hm & Hap).
  destruct m as [m|].
  - right. apply rbind_Ok in Hap as (so & _ & Hap). apply rbind_Ok in Hap as (argv & Hargv & Hap).
    exists m, so, argv. split; [|split; [done|]].
    + destruct name as [[|x name]|]; [done| |done]. by apply find_resume_contract in Hm.
    + destruct (head argv); [destruct (_ && _); [done|]|]; by injection Hap as <- _.
  - left. destruct (bool_decide_reflect (disposition c = REPLAYABLE)) as [Hd|]; [|done].
    destruct (executable c) as [e|]; [|done]. apply rbind_Ok in Hap as ([p|] & _ & Hap); [|done].
    destruct (_ || _); [done|]. by injection Hap as <- _.
Qed.

Section Plan.
Context (record : RecoveryRecord) (approved : list pystr) (home : posix_path).

Definition stored_item (id : pystr) : option RecoveryItemRecord :=
  List.find (fun i => str_eqb (rec_item_id i) id) (rev (items record)).

(** The item's terminal can be driven. *)
Definition supported_item (id : pystr) : bool :=
  match stored_item id with Some i => str_in (adapter (rec_shell i)) SUPPORTED_ADAPTERS | None => false end.

(** What a launch may be. *)
Definition launch_justified (l : LaunchItem) : Prop :=
  exists i, i ∈ items record /\ rec_item_id i = li_item_id l /\ usable w (li_cwd l) = true /\
    forall text, approved_command l = Some text ->
      li_item_id l ∈ approved /\ command_justified (rec_shell i) text.

Lemma stored_item_Some id i : stored_item id = Some i -> i ∈ items record /\ rec_item_id i = id.
Proof.
  intros E. apply List.find_some in E as [Hin He]. apply str_eqb_eq in He. split; [|done].
  by apply list_elem_of_In, in_rev.
Qed.

Lemma plan_item_Ok cache plan id plan' cache' : lstat_sane w ->
  plan_item w record approved home cache plan id = Ok (plan', cache') ->
  is_Some (stored_item id) /\
  if supported_item id
  then exists l, launch_justified l /\ li_item_id l = id /\ launches plan' = launches plan ++ [l] /\
                 unsupported_adapter plan' = unsupported_adapter plan
  else launches plan' = launches plan /\ unsupported_adapter plan' = unsupported_adapter plan ++ [id].
Proof.
  intros Hs Hp. unfold plan_item in Hp. apply rbind_Ok in Hp as (i & Hi & Hp).
  apply result_of_option_Ok in Hi. fold (stored_item id) in Hi. split; [by exists i|].
  unfold supported_item. rewrite Hi. destruct (str_in _ _); cbn [negb] in Hp; [|by injection Hp as <- _].
  apply rbind_Ok in Hp as ([outcome cache1] & Ho & Hp). apply rbind_Ok in Hp as ([d warning] & Hd & Hp).
  injection Hp as <- _. apply resolve_directory_Ok in Hd as [Hu _]; [|done]. apply stored_item_Some in Hi as [Hin Hid].
  eexists. split; [|split; [|done]; done]. exists i. split; [done|]. split; [done|]. split; [done|]. cbn [approved_command li_item_id].
  intros text Ht. destruct outcome as [o|]; [subst o|done].
  destruct (command (rec_shell i)) as [c|] eqn:Hc; [|done].
  destruct (str_in id approved && active c) eqn:Hap; [|done]. apply andb_true_iff in Hap as [Hap%str_in_spec Hact].
  split; [done|]. by apply approve_command_Ok in Ho.
Qed.

Lemma plan_items_Ok selected cache plan plan' cache' : lstat_sane w ->
  plan_items w record approved home cache plan selected = Ok (plan', cache') ->
  exists ls, launches plan' = launches plan ++ ls /\ Forall launch_justified ls /\
    map li_item_id ls = filter (fun id => supported_item id = true) selected /\
    unsupported_adapter plan' = unsupported_adapter plan ++ filter (fun id => ~ supported_item id = true) selected /\
    Forall (fun id => is_Some (stored_item id)) selected.
Proof.
  intros Hs. revert cache plan. induction selected as [|id selected IH]; intros cache plan Hp.
  { injection Hp as <- _. exists []. rewrite !app_nil_r. by repeat split. }
  cbn [plan_items] in Hp. apply rbind_Ok in Hp as ([plan1 cache1] & H1 & Hp).
  apply plan_item_Ok in H1 as [Hstored H1]; [|done]. destruct (IH _ _ Hp) as (ls & Hl & Hj & Hids & Hu & Hall).
  destruct (supported_item id) eqn:E.
  - destruct H1 as (l & Hlj & Hid & Hl1 & Hu1). exists (l :: ls). rewrite Hl Hl1 Hu Hu1 -app_assoc.
    rewrite filter_cons_True // filter_cons_False; [by intros []|]. cbn [map]. rewrite Hid Hids.
    repeat split; by constructor.
  - destruct H1 as [Hl1 Hu1]. exists ls. rewrite Hl Hl1 Hu Hu1 -app_assoc.
    rewrite filter_cons_False; [by rewrite E|]. rewrite filter_cons_True; [by rewrite E|].
    repeat split; [done..|]. by constructor.
Qed.

End Plan.

Lemma warn_missing_ids missing actions : map item_ids (map (warn_missing missing) actions) = map item_ids actions.
Proof.
  rewrite map_map. apply map_ext. intros a. unfold warn_missing. by destruct (existsb _ _).
Qed.

Lemma concat_singletons {A} (l : list A) : concat (map (fun x => [x]) l) = l.
Proof. induction l as [|x l IH]; [done|]. cbn. by rewrite IH. Qed.

Lemma filter_ext_in {A} (P Q : A -> Prop) `{forall x, Decision (P x)} `{forall x, Decision (Q x)} (l : list A) :
  (forall x, x ∈ l -> P x <-> Q x) -> filter P l = filter Q l.
Proof.
  intros E. induction l as [|x l IH]; [done|]. rewrite !filter_cons (IH ltac:(intros y Hy; apply E; by right)).
  pose proof (E x ltac:(left)) as Ex. do 2 case_decide; naive_solver.
Qed.

Lemma bind_ids actions : (actions ≫= item_ids) = concat (map item_ids actions).
Proof. induction actions as [|a l IH]; [done|]. rewrite bind_cons IH. done. Qed.

End Attempts.

(** ** Claims *)

(** Looking for a directory walks from the recorded one towards the root and
    takes the first usable one, the home directory if there is none, with a
    warning exactly if the recorded one was not taken; it always comes to an
    end, and fails only if nothing on the way and not even the home directory is
    usable. *)
Theorem resolve_directory_nearest w recorded home : lstat_sane w ->
  resolve_directory w recorded home =
  match List.find (usable w) (ancestors recorded) with
  | Some d => Ok (d, if bool_decide (d = recorded) then None else Some (missing_text recorded d))
  | None => if usable w home then Ok (home, Some (missing_text recorded home))
            else Err (ValueError (u "home directory is not usable"))
  end.
Proof. apply resolve_directory_first. Qed.

(** C35. A workspace offers exactly the shells that can be recovered: those that did
    not exit and whose boot or process is over, each with its reason, in the
    order of their identifiers and each once; every offered shell restarts in a usable
    directory, with a warning exactly if it is not its own, and is promised its
    command exactly if the command may be replayed. *)
Theorem reconcile_offers w snapshot boot probe home ws : lstat_sane w ->
  NoDup (map shell_id (shells snapshot)) -> reconcile w snapshot boot probe home = Ok (Some ws) ->
  (forall s r, (exists i, i ∈ ws_items ws /\ item_shell i = s /\ item_reason i = r) <->
               s ∈ shells snapshot /\ recoverable boot probe s r) /\
  StronglySorted (key_le item_id) (ws_items ws) /\ NoDup (map item_id (ws_items ws)) /\
  Forall (fun i => item_id i = shell_id (item_shell i) /\ usable w (item_directory i) = true /\
            (item_warning i = None <-> item_directory i = parse_path (cwd (item_shell i))) /\
            (item_level i = RECONSTRUCTED <-> item_replay_eligible i = true)) (ws_items ws).
Proof.
  intros Hs Hnd Hr. destruct (reconcile_Some w Hs boot probe home snapshot ws Hr) as (_ & _ & Hf).
  split; [|split; [|split]].
  - intros s r. transitivity ((s, r) ∈ candidates boot probe snapshot).
    + split.
      * intros (i & Hi & <- & <-). apply list_elem_of_lookup in Hi as [k Hk].
        destruct (Forall2_lookup_r _ _ _ _ _ Hf Hk) as ([s r] & Hc & Hfor).
        rewrite (if_shell _ _ _ _ _ _ Hfor) (if_reason _ _ _ _ _ _ Hfor). exact (list_elem_of_lookup_2 _ _ _ Hc).
      * intros Hc. apply list_elem_of_lookup in Hc as [k Hk].
        destruct (Forall2_lookup_l _ _ _ _ _ Hf Hk) as (i & Hi & Hfor). exists i.
        split; [exact (list_elem_of_lookup_2 _ _ _ Hi)|]. by destruct Hfor.
    + unfold candidates. by rewrite candidates_elem shells_by_id_elem.
  - eapply Forall2_sorted; [|exact Hf|apply candidates_sorted].
    intros c c' i i' Hi Hi'. unfold key_le. by rewrite (if_id _ _ _ _ _ _ Hi) (if_id _ _ _ _ _ _ Hi').
  - assert (map item_id (ws_items ws) = map shell_id (map fst (candidates boot probe snapshot))) as ->.
    { clear -Hf. induction Hf as [|c i l k Hi _ IH]; [done|]. cbn [map]. by rewrite IH (if_id _ _ _ _ _ _ Hi). }
    unfold candidates. rewrite candidates_shells.
    assert (Hnd' : NoDup (map shell_id (shells_by_id (shells snapshot)))) by (unfold shells_by_id; by rewrite sort_by_perm).
    eapply sublist_NoDup; [exact Hnd'|].
    exact (fmap_sublist shell_id _ _ (sublist_filter _ _)).
  - apply Forall_forall. intros i Hi. apply list_elem_of_lookup in Hi as [k Hk].
    destruct (Forall2_lookup_r _ _ _ _ _ Hf Hk) as ([s r] & Hc & [H1 H2 H3 H4 H5 H6 H7]). cbn [fst snd] in *.
    rewrite H1 H2 H4 H5. split; [done|]. split; [done|]. split; [done|]. symmetry. apply level_eligible.
Qed.

(** C36. Reconciliation comes to a result whenever the home directory is usable: no
    workspace exactly if no shell can be recovered and nothing is undetermined. *)
Theorem reconcile_total w snapshot boot probe home : lstat_sane w -> usable w home = true ->
  snapshot_plain snapshot ->
  exists o, reconcile w snapshot boot probe home = Ok o /\
    (o = None <-> forall s, s ∈ shells snapshot ->
       (forall r, ~ recoverable boot probe s r) /\ ~ undetermined boot probe s).
Proof.
  intros Hs Hh Hp. rewrite reconcile_eq.
  destruct (workspace_id_total boot probe snapshot Hp) as [id Hid].
  destruct (items_total w home (candidates boot probe snapshot) Hs Hh) as [l Hl].
  assert (Hgo : forall ds,
    (let? workspace_id := derive_workspace_id snapshot (candidates boot probe snapshot) in
     let? items := rmap (fun c => recovery_item w home (shell_id c.1) c.1 c.2) (candidates boot probe snapshot) in
     Ok (Some (mkWorkspace workspace_id items ds))) = Ok (Some (mkWorkspace id l ds))) by (intros ds; by rewrite Hid Hl).
  clear Hid Hl.
  assert (Hc : candidates boot probe snapshot = [] <-> forall s r, s ∈ shells snapshot -> ~ recoverable boot probe s r).
  { split.
    - intros E s r Hin Hrec. apply (not_elem_of_nil (s, r)). rewrite -E. unfold candidates.
      by rewrite candidates_elem shells_by_id_elem.
    - intros Hn. apply elem_of_nil_inv. intros [s r] Hin. unfold candidates in Hin.
      rewrite candidates_elem shells_by_id_elem in Hin. destruct Hin as [Hin Hrec]. exact (Hn s r Hin Hrec). }
  pose proof (diagnostics_elem boot probe snapshot) as Hd.
  destruct (candidates boot probe snapshot) as [|c cs] eqn:Ec, (reconcile_diagnostics boot probe snapshot) as [|d ds] eqn:Ed;
    eexists; (split; [first [exact (Hgo _)|reflexivity]|]).
  - split; [intros _ s Hin; split; [intros r; by apply Hc|]|done]. intros Hund. apply Hd; [by exists s|done].
  - split; [done|]. intros Hall. destruct (proj1 Hd) as (s & Hin & Hund); [done|]. by destruct (Hall s Hin).
  - split; [done|]. intros Hall. discriminate (proj2 Hc (fun s r Hin => proj1 (Hall s Hin) r)).
  - split; [done|]. intros Hall. discriminate (proj2 Hc (fun s r Hin => proj1 (Hall s Hin) r)).
Qed.

(** A workspace that is stored is the one that is read back: the record of a
    reconciled workspace gives the same items in the same order, with the same
    reasons, directories and levels, on the same file system. *)
Theorem workspace_round_trip w snapshot boot probe home ws r : lstat_sane w ->
  reconcile w snapshot boot probe home = Ok (Some ws) -> record_from_workspace ws snapshot = Ok r ->
  workspace_from_record w r home = Ok (mkWorkspace (ws_id ws) (ws_items ws) []).
Proof.
  intros Hs Hr Hrec. destruct (reconcile_Some w Hs boot probe home snapshot ws Hr) as (_ & Hitems & Hf).
  destruct (record_from_workspace_Ok _ _ _ Hrec) as (Hid & _ & _ & Hi). unfold workspace_from_record.
  rewrite Hid Hi. rewrite sort_by_id.
  - apply (sorted_map (fun a b => key_le rec_item_id a b)). eapply Forall2_sorted; [|exact Hf|apply candidates_sorted].
    intros c c' i i' Hci Hci'. unfold key_le. cbn [rec_item_id].
    by rewrite (if_id _ _ _ _ _ _ Hci) (if_id _ _ _ _ _ _ Hci').
  - rewrite rmap_map. cbn [rec_item_id rec_shell rec_reason].
    match goal with |- rbind ?x _ = _ => assert (x = Ok (ws_items ws)) as -> end; [|done].
    etransitivity; [symmetry; eapply rmap_ext_Forall2|exact Hitems].
    eapply Forall2_impl; [exact Hf|]. intros c i Hci. cbn beta. rewrite stored_reason_value.
    by rewrite (if_id _ _ _ _ _ _ Hci) (if_shell _ _ _ _ _ _ Hci) (if_reason _ _ _ _ _ _ Hci).
Qed.


(** The actions of an attempt account for every selected item exactly once,
    whatever terminal they are planned for, and the attempt record lists the
    selection in order, the approvals among it, and no outcome yet. *)
Theorem attempt_covers_selection `{Unicode} w record selected approved adapter source home cache
    attempt actions cache' : lstat_sane w -> AdapterLaws adapter ->
  build_attempt w record selected approved adapter source home cache = Ok ((attempt, actions), cache') ->
  (actions ≫= item_ids) ≡ₚ selected /\ NoDup selected /\
  (forall id, id ∈ selected -> exists i, i ∈ items record /\ rec_item_id i = id) /\
  attempt_post_init attempt = Ok tt /\ selected_item_ids attempt = selected /\ outcomes attempt = [] /\
  att_workspace_id attempt = workspace_id record /\ (forall id, id ∈ approved_item_ids attempt <-> id ∈ approved).
Proof.
  intros Hs Ha Hb. unfold build_attempt in Hb. apply rbind_Ok in Hb as ([plan cache1] & Hp & Hb).
  apply rbind_Ok in Hb as (id & _ & Hb). apply rbind_Ok in Hb as (att & Hatt & Hb).
  apply rbind_Ok in Hb as (planned & Hplan & Hb). injection Hb as <- <- _.
  apply construct_Ok in Hatt as [-> Hpost]. cbn [selected_item_ids approved_item_ids outcomes att_workspace_id].
  apply plan_items_Ok in Hp as (ls & Hl & Hj & Hids & Hu & Hstored); [|done].
  cbn [launches unsupported_adapter app] in Hl, Hu. apply plan_covers in Hplan. rewrite Hl Hids in Hplan.
  split; [|split; [|split; [|split; [done|split; [done|split; [done|split; [done|]]]]]]].
  - rewrite bind_ids. transitivity (concat (map item_ids
      (planned ++ map (fun id => mkAction [id] [] UNAVAILABLE [u "unsupported adapter"])
        (filter (fun id => str_in id (unsupported_adapter plan) = true) selected)))).
    { destruct (missing_executable plan); [done|]. by rewrite warn_missing_ids. }
    rewrite map_app concat_app -bind_ids Hplan map_map concat_singletons.
    rewrite (filter_ext_in (fun id => str_in id (unsupported_adapter plan) = true)
      (fun id => ~ supported_item record id = true)).
    { intros x Hx. rewrite str_in_spec Hu list_elem_of_filter. tauto. }
    apply filter_app_complement.
  - unfold attempt_post_init, _require_unique in Hpost. r_inv. apply nodupb_spec. done.
  - intros x Hx. rewrite Forall_forall in Hstored. destruct (Hstored x Hx) as [i Hi]. exists i. by apply stored_item_Some.
  - intros x. unfold sorted_set. rewrite sorted_strs_perm. apply elem_of_remove_dups.
Qed.

(** ** Witnesses *)
Section Witnesses.
#[local] Existing Instance ascii_unicode.

(** A machine on which only the root, [/home] and [/home/u] are directories. *)
Definition sample_world : World := {|
  w_lstat p := if str_in (path_str p) [u "/"; u "/home"; u "/home/u"] then Ok 0x41C0 else Err (OSError ENOENT);
  w_access _ := true;
  w_which name := Some (u "/usr/bin/" ++ name);
  w_help _ := Ok ([], []);
  w_active_session _ := Ok None;
  w_sessions _ := Ok [];
|}.

Lemma sample_world_sane : lstat_sane sample_world.
Proof.
  intros p e. cbn [w_lstat sample_world]. destruct (str_in (path_str p) [u "/"; u "/home"; u "/home/u"]); [done|].
  by intros [= <-].
Qed.

Definition home_u : posix_path := parse_path (u "/home/u").
Definition shell_of (id boot : pystr) (t : option TerminationKind) : ShellRecord :=
  mkShell id (mkIdentity boot 10 20) (u "kitty") (u "/home/u/gone/work") 4
    (Some (mkCommand 3 (u "htop") (Some (u "htop -d 5")) REPLAYABLE true)) t.
Definition three_shells : Snapshot :=
  mkSnapshot 1 7 (NFloat (FFin false 3 0))
    [shell_of (u "s2") (u "boot-2") None; shell_of (u "s1") (u "boot-1") None;
     shell_of (u "s3") (u "boot-1") (Some EXPLICIT_EXIT)].
Definition dead_probe (_ : ProcessIdentity) : ProcessProbe := mkProbe DEAD None.

Lemma resolve_directory_nearest_witness :
  resolve_directory sample_world (parse_path (u "/home/u/gone/work")) (parse_path (u "/")) =
  Ok (home_u, Some (u "/home/u/gone/work missing; using /home/u")).
Proof.
  rewrite (resolve_directory_nearest sample_world _ _ sample_world_sane). by vm_compute.
Defined.

Lemma three_shells_nodup : NoDup (map shell_id (shells three_shells)).
Proof. by apply nodupb_spec. Qed.

Lemma sample_offers :
  match reconcile sample_world three_shells (u "boot-2") dead_probe home_u with
  | Ok (Some ws) => (map item_id (ws_items ws), is_ok (record_from_workspace ws three_shells))
  | _ => ([], false)
  end = ([u "s1"; u "s2"], true).
Proof. vm_compute. reflexivity. Qed.

Lemma reconcile_offers_witness :
  exists ws, reconcile sample_world three_shells (u "boot-2") dead_probe home_u = Ok (Some ws) /\
    map item_id (ws_items ws) = [u "s1"; u "s2"] /\ NoDup (map item_id (ws_items ws)).
Proof.
  pose proof sample_offers as Hs.
  destruct (reconcile sample_world three_shells (u "boot-2") dead_probe home_u) as [[ws|]|] eqn:E; [|discriminate Hs..].
  exists ws. injection Hs as Hids _. split; [reflexivity|]. split; [exact Hids|].
  apply (reconcile_offers sample_world three_shells (u "boot-2") dead_probe home_u ws sample_world_sane three_shells_nodup E).
Defined.

Lemma reconcile_total_witness :
  exists o, reconcile sample_world three_shells (u "boot-2") dead_probe home_u = Ok o.
Proof.
  destruct (reconcile_total sample_world three_shells (u "boot-2") dead_probe home_u) as (o & Ho & _);
    [exact sample_world_sane|by vm_compute| |by exists o].
  split; [done|]. by repeat constructor.
Defined.

Lemma workspace_round_trip_witness :
  exists ws r, reconcile sample_world three_shells (u "boot-2") dead_probe home_u = Ok (Some ws) /\
    record_from_workspace ws three_shells = Ok r /\
    workspace_from_record sample_world r home_u = Ok (mkWorkspace (ws_id ws) (ws_items ws) []).
Proof.
  pose proof sample_offers as Hs.
  destruct (reconcile sample_world three_shells (u "boot-2") dead_probe home_u) as [[ws|]|] eqn:E; [|discriminate Hs..].
  destruct (record_from_workspace ws three_shells) as [r|] eqn:Er; [|discriminate Hs].
  exists ws, r. split; [reflexivity|]. split; [exact Er|].
  exact (workspace_round_trip sample_world three_shells (u "boot-2") dead_probe home_u ws r sample_world_sane E Er).
Defined.

(** A terminal that opens one tab for each item. *)
Definition tab_adapter : TerminalAdapter := {|
  ad_name := u "tabs";
  ad_detect := Ok true;
  ad_plan l := Ok (map (fun i => mkAction [li_item_id i] [u "tab"; path_str (li_cwd i)] EXACT []) l);
  ad_execute l _ := Ok (map (fun i => mkOutcome i SUCCESS (u "restored")) (l ≫= item_ids));
|}.

#[export] Instance tab_adapter_laws : AdapterLaws tab_adapter.
Proof.
  split.
  - intros l actions [= <-]. induction l as [|i l IH]; [done|]. cbn [map]. rewrite bind_cons IH. done.
  - intros actions attempt outs [= <-]. rewrite map_map map_id. done.
Qed.

Definition recovery_of_shells : RecoveryRecord :=
  mkRecovery 1 (u "w1") 7 (NFloat (FFin false 3 0))
    [mkItemRecord (u "s1") (shell_of (u "s1") (u "boot-1") None) (u "previous_boot");
     mkItemRecord (u "s2") (shell_of (u "s2") (u "boot-1") None) (u "previous_boot")] [] [].

#[local] Notation sample_build :=
  (build_attempt sample_world recovery_of_shells [u "s1"; u "s2"] [u "s2"] tab_adapter None home_u []).

Lemma sample_build_ok : is_ok sample_build = true.
Proof. vm_compute. reflexivity. Qed.


Lemma attempt_covers_selection_witness :
  exists attempt actions cache', sample_build = Ok ((attempt, actions), cache') /\
    (actions ≫= item_ids) ≡ₚ [u "s1"; u "s2"].
Proof.
  pose proof sample_build_ok as Hs. destruct sample_build as [[[attempt actions] cache']|] eqn:E; [|discriminate Hs].
  exists attempt, actions, cache'. split; [reflexivity|].
  apply (attempt_covers_selection sample_world recovery_of_shells [u "s1"; u "s2"] [u "s2"] tab_adapter None
    home_u [] attempt actions cache' sample_world_sane tab_adapter_laws E).
Defined.

End Witnesses.
