(* ===== verification/Processes.v ===== *)
(** * Process identity ([processes.py], [paths.py])

    A shell is the process that had a PID at a start time of a boot.  Whether it
    still runs is read from [/proc]; what the kernel answers there is the record
    [ProcFs].  The parser of [stat] and the verdict on a recorded identity are
    total: an answer that proves nothing is [UNKNOWN], never an exception. *)
From S2P Require Import Prelude PyText PyVal Codec Model Protocol Recovery.

Definition _MAX_STAT_BYTES : Z := 65536.

Definition inspection_error (m : pystr) : exn := RuntimeError m.

(** What opening [/proc], [/proc/<pid>] and its [stat] answers, and what one read of it gives. *)
Record ProcFs := mkProc {
  pf_root : option oserror;
  pf_dir : Z -> option oserror;
  pf_stat : Z -> option oserror;
  pf_read : Z -> result pybytes;
}.

(** ** Parsing [stat] *)
Definition ascii_text (data : pybytes) : result pystr :=
  if forallb is_ascii data then Ok data else Err (inspection_error (u "process stat is not ASCII")).

Definition int_field (text m : pystr) : result Z := result_of_option (int_of_str text) (inspection_error m).

Definition _parse_process_stat (pid : Z) (data : pybytes) : result Z :=
  let? text := ascii_text data in
  let? close_paren := result_of_option (rfind_char 41 text)
                        (inspection_error (u "process stat has no command terminator")) in
  let prefix := take close_paren text in
  let? open_paren := result_of_option (find_char 40 prefix)
                       (inspection_error (u "process stat has no command opener")) in
  let? stat_pid := int_field (strip (take open_paren prefix)) (u "process stat has an invalid PID") in
  raise_if (negb (stat_pid =? pid)) (inspection_error (u "process stat PID does not match")) ;?
  let suffix := fields (drop (S close_paren) text) in
  raise_if (len suffix <=? 19) (inspection_error (u "process stat is truncated")) ;?
  let? start := int_field (default [] (suffix !! 19%nat)) (u "process stat has an invalid start time") in
  raise_if (start <? 0) (inspection_error (u "process stat has a negative start time")) ;?
  Ok start.

(** [os.open] below an open directory: absence is told apart from every other failure. *)
Definition opened_below (e : option oserror) (m : pystr) : result unit :=
  match e with
  | None => Ok tt
  | Some ENOENT => Err (OSError ENOENT)
  | Some _ => Err (inspection_error m)
  end.

Definition read_process_start_time (pf : ProcFs) (pid : Z) : result Z :=
  raise_if (pid <=? 0) (inspection_error (u "process PID must be a positive integer")) ;?
  raise_if (bool_decide (pf_root pf <> None)) (inspection_error (u "unable to open process filesystem")) ;?
  opened_below (pf_dir pf pid) (u "unable to open process directory") ;?
  opened_below (pf_stat pf pid) (u "unable to open process stat") ;?
  match pf_read pf pid with
  | Err (OSError _) => Err (inspection_error (u "unable to read process stat"))
  | Err e => Err e
  | Ok data =>
      raise_if (_MAX_STAT_BYTES <? len data) (inspection_error (u "process stat is oversized")) ;?
      _parse_process_stat pid data
  end.

(** ** The verdict on an identity *)
Definition identity_status (pf : ProcFs) (i : ProcessIdentity) (current_boot_id : pystr) : result ProcessProbe :=
  let who := u "process " ++ str_of_int (pid i) in
  if negb (str_eqb (boot_id i) current_boot_id)
  then Ok (mkProbe UNKNOWN (Some (who ++ u " status unknown: boot ID differs")))
  else
    match read_process_start_time pf (pid i) with
    | Err (OSError ENOENT) => Ok (mkProbe DEAD (Some (who ++ u " is dead: process path is absent")))
    | Err (RuntimeError _) => Ok (mkProbe UNKNOWN (Some (who ++ u " status unknown: inspection was inconclusive")))
    | Err e => Err e
    | Ok start =>
        if negb (start =? start_time i)
        then Ok (mkProbe DEAD (Some (who ++ u " is dead: start time differs")))
        else Ok (mkProbe ALIVE None)
    end.

(** ** Paths and the boot *)

(** [read_boot_id]: what the file holds, as canonical UUID text. *)
Definition read_boot_id (content : result pystr) : result pystr :=
  let? text := content in
  result_of_option (uuid_canonical (strip text)) (ValueError (u "invalid Linux boot ID")).

Definition current_identity (pf : ProcFs) (boot : result pystr) (pid : Z) : result ProcessIdentity :=
  let? b := read_boot_id boot in
  let? start := read_process_start_time pf pid in
  new_ProcessIdentity b pid start.

Record XDGPaths := mkXDG {
  runtime_dir : posix_path;
  state_dir : posix_path;
  config_dir : posix_path;
}.

Definition resolve_paths (env : pystr -> option pystr) (home : posix_path) : result XDGPaths :=
  match env (u "XDG_RUNTIME_DIR") with
  | None | Some [] => Err (ValueError (u "XDG_RUNTIME_DIR is required for the per-user socket"))
  | Some runtime_root =>
      let state_root := match env (u "XDG_STATE_HOME") with
                        | Some s => parse_path s | None => path_join home (u ".local/state") end in
      let config_root := match env (u "XDG_CONFIG_HOME") with
                         | Some s => parse_path s | None => path_join home (u ".config") end in
      Ok (mkXDG (path_join (parse_path runtime_root) (u "termrecall"))
            (path_join state_root (u "termrecall")) (path_join config_root (u "termrecall")))
  end.
