(* ===== verification/ProcessesProofs.v ===== *)
(** * Process identity: theorems

    The start time the kernel prints is the one that is read, whatever the
    process is called, and the verdict on an identity is exact. *)
From S2P Require Import Prelude PyText PyVal PyFloat Codec Model Protocol Recovery Processes.

(** ** Text *)
Lemma int_digits_run ds acc b : forallb is_digit ds = true -> ds <> [] \/ b = true ->
  int_digits ds acc b = Some (foldl (fun a c => a * 10 + (c - 48)) acc ds).
Proof.
  revert acc b. induction ds as [|c ds IH]; intros acc b Hd Hne.
  - by destruct Hne as [| ->].
  - simpl in Hd |- *. apply andb_true_iff in Hd as [-> Hd]. apply IH; [done|by right].
Qed.

Lemma digit_not_space c : is_digit c = true -> is_space c = false.
Proof. unfold is_digit, is_space. lia. Qed.

Lemma drop_while_head p c s : p c = false -> drop_while p (c :: s) = c :: s.
Proof. simpl. by intros ->. Qed.

Lemma strip_digits ds : forallb is_digit ds = true -> strip ds = ds.
Proof.
  intros Hd. unfold strip. destruct ds as [|c ds]; [done|].
  rewrite drop_while_head; [apply digit_not_space; by apply andb_true_iff in Hd as [? _]|].
  destruct (rev (c :: ds)) as [|e l] eqn:E.
  - apply (f_equal length) in E. by rewrite length_rev in E.
  - rewrite drop_while_head; [|by rewrite -E rev_involutive]. apply digit_not_space.
    rewrite forallb_forall in Hd. apply Hd. rewrite in_rev E. by left.
Qed.

Lemma int_of_digits ds : forallb is_digit ds = true -> ds <> [] -> len ds <= 4300 ->
  int_of_str ds = Some (dec_value ds).
Proof.
  intros Hd Hne Hl. unfold int_of_str. rewrite strip_digits //. destruct ds as [|c ds]; [done|].
  assert (filter (fun d => is_digit d = true) (c :: ds) = c :: ds) as ->.
  { clear -Hd. induction (c :: ds) as [|x l IH]; [done|]. simpl in Hd. apply andb_true_iff in Hd as [Hx Hd].
    rewrite filter_cons_True //. by rewrite IH. }
  rewrite (proj2 (Z.ltb_ge _ _) Hl). pose proof Hd as Hd'. simpl in Hd'. apply andb_true_iff in Hd' as [Hc _].
  unfold is_digit in Hc. destruct (Z.eqb_spec c 45); [lia|]. destruct (Z.eqb_spec c 43); [lia|].
  apply int_digits_run; [done|by left].
Qed.

Lemma int_of_number n k : 0 <= n < 10 ^ Z.of_nat k -> (0 < k)%nat -> Z.of_nat k <= 4300 ->
  int_of_str (str_of_int n) = Some n.
Proof.
  intros Hn Hk Hb. unfold str_of_int. rewrite ltb_false; [lia|]. destruct (digits_spec n ltac:(lia)) as [Hd Hv _].
  pose proof (digits_length n k Hn Hk). rewrite -{2}Hv. apply int_of_digits; [done|apply digits_nonempty; lia|unfold len; lia].
Qed.

Lemma find_char_app c a b : c ∉ a -> find_char c (a ++ c :: b) = Some (length a).
Proof.
  induction a as [|x a IH]; intros Hc; simpl; [by rewrite Z.eqb_refl|].
  apply not_elem_of_cons in Hc as [Hx Hc]. destruct (Z.eqb_spec x c); [congruence|]. by rewrite IH.
Qed.

Lemma rfind_char_app c a b : c ∉ b -> rfind_char c (a ++ c :: b) = Some (length a).
Proof.
  intros Hc. unfold rfind_char. rewrite rev_app_distr. simpl. rewrite -app_assoc. simpl.
  rewrite find_char_app; [rewrite list_elem_of_In -in_rev; by rewrite -list_elem_of_In|]. simpl.
  f_equal. rewrite length_rev length_app. simpl. lia.
Qed.

Lemma fields_go_word acc w s : forallb (fun c => negb (is_space c)) w = true -> fields_go acc (w ++ s) = fields_go (rev w ++ acc) s.
Proof.
  revert acc. induction w as [|c w IH]; intros acc; [done|]. cbn [forallb app fields_go rev].
  intros [Hc Hw]%andb_true_iff. apply negb_true_iff in Hc. rewrite Hc IH //. by rewrite -app_assoc.
Qed.

Lemma fields_join fs sp : Forall (fun w => w <> [] /\ forallb (fun c => negb (is_space c)) w = true) fs ->
  forallb is_space sp = true -> sp <> [] -> fields (join [32] fs ++ sp) = fs.
Proof.
  intros Hf Hsp Hne.
  assert (Hblank : forall l, forallb is_space l = true -> fields_go [] l = []).
  { induction l as [|c l IH]; [done|]. cbn [forallb fields_go]. intros [-> Hl]%andb_true_iff. by apply IH. }
  assert (Hend : forall w c l, w <> [] -> is_space c = true -> fields_go (rev w) (c :: l) = w :: fields_go [] l).
  { intros w c l Hw Hc. cbn [fields_go]. rewrite Hc. destruct (rev w) eqn:E; [|by rewrite -E rev_involutive].
    apply (f_equal (@rev Z)) in E. rewrite rev_involutive in E. by subst. }
  unfold fields. induction Hf as [|w fs [Hw Hws] _ IH]; [by apply Hblank|].
  destruct fs as [|w2 fs].
  - cbn [join]. rewrite fields_go_word // app_nil_r. destruct sp as [|c sp]; [done|].
    cbn [forallb] in Hsp. apply andb_true_iff in Hsp as [Hc Hsp]. rewrite Hend //. by rewrite Hblank.
  - change (join [32] (w :: w2 :: fs)) with (w ++ [32] ++ join [32] (w2 :: fs)).
    rewrite -!app_assoc fields_go_word // app_nil_r. cbn [app]. rewrite Hend //. by rewrite IH.
Qed.

(** ** Reading [stat] *)

(** A line of [/proc/<pid>/stat]: the name of the process may be anything. *)
Definition stat_line (pid : Z) (comm : pystr) (fs : list pystr) : pybytes :=
  str_of_int pid ++ u " (" ++ comm ++ u ")" ++ u " " ++ join [32] fs ++ [10].

Definition stat_field (w : pystr) : Prop :=
  w <> [] /\ forallb (fun c => is_ascii c && negb (is_space c) && negb (c =? 41)) w = true.

Lemma stat_field_spec w : stat_field w ->
  (w <> [] /\ forallb (fun c => negb (is_space c)) w = true) /\ forallb is_ascii w = true /\ 41 ∉ w.
Proof.
  intros [Hw Hall]. rewrite forallb_forall in Hall. split; [split; [done|]|split].
  - apply forallb_forall. intros c Hc. by apply Hall, andb_true_iff, proj1, andb_true_iff, proj2 in Hc.
  - apply forallb_forall. intros c Hc. by apply Hall, andb_true_iff, proj1, andb_true_iff, proj1 in Hc.
  - intros Hc%list_elem_of_In. apply Hall, andb_true_iff, proj2 in Hc. done.
Qed.

Lemma digits_ascii n : 0 <= n -> forallb is_ascii (str_of_int n) = true /\ 40 ∉ str_of_int n.
Proof.
  intros Hn. unfold str_of_int. rewrite ltb_false; [lia|]. destruct (digits_spec n Hn) as [Hd _ _].
  rewrite forallb_forall in Hd. split.
  - apply forallb_forall. intros c Hc. specialize (Hd c Hc). revert Hd. clear. unfold is_digit, is_ascii. lia.
  - intros Hc%list_elem_of_In. by apply Hd in Hc.
Qed.

Lemma join_all (P : Z -> bool) fs : P 32 = true -> Forall (fun w => forallb P w = true) fs ->
  forallb P (join [32] fs) = true.
Proof.
  intros Hp Hf. induction Hf as [|w fs Hw _ IH]; [done|]. destruct fs as [|w2 fs]; [done|].
  change (join [32] (w :: w2 :: fs)) with (w ++ [32] ++ join [32] (w2 :: fs)).
  by rewrite !forallb_app Hw IH /= Hp.
Qed.

Lemma fields_ascii fs : Forall stat_field fs -> forallb is_ascii (join [32] fs) = true /\ 41 ∉ join [32] fs.
Proof.
  intros Hf. split; [apply join_all; [done|]; eapply Forall_impl; [exact Hf|]; intros w Hw; apply stat_field_spec, Hw|].
  assert (Hn : forallb (fun c => negb (c =? 41)) (join [32] fs) = true).
  { apply join_all; [done|]. eapply Forall_impl; [exact Hf|]. intros w Hw.
    apply stat_field_spec in Hw as (_ & _ & Hw). apply forallb_forall. intros c Hcw%list_elem_of_In.
    apply negb_true_iff, Z.eqb_neq. congruence. }
  rewrite forallb_forall in Hn. intros Hin%list_elem_of_In. by apply Hn in Hin.
Qed.

Lemma stat_line_split p comm fs :
  stat_line p comm fs = ((str_of_int p ++ [32]) ++ 40 :: comm) ++ 41 :: 32 :: join [32] fs ++ [10].
Proof. unfold stat_line. change (u ")") with [41]. change (u " (") with [32; 40]. change (u " ") with [32]. by rewrite -!app_assoc. Qed.

Lemma strip_blank ds : forallb is_digit ds = true -> strip (ds ++ [32]) = ds.
Proof.
  intros Hd. rewrite -{2}(strip_digits ds Hd). unfold strip. destruct ds as [|c ds]; [done|].
  assert (Hc : is_space c = false) by (apply digit_not_space; by apply andb_true_iff in Hd as [? _]).
  cbn [app]. rewrite !drop_while_head //. f_equal. change (c :: ds ++ [32]) with ((c :: ds) ++ [32]).
  by rewrite rev_app_distr.
Qed.

Lemma parse_stat_line p comm fs start : 0 < p < 2 ^ 31 -> 0 <= start < 2 ^ 64 ->
  forallb is_ascii comm = true -> Forall stat_field fs -> fs !! 19%nat = Some (str_of_int start) ->
  _parse_process_stat p (stat_line p comm fs) = Ok start.
Proof.
  intros Hp Hs Hc Hf H19. destruct (digits_ascii p ltac:(lia)) as [Hpa Hp40]. destruct (fields_ascii fs Hf) as [Hfa H41].
  rewrite stat_line_split. unfold _parse_process_stat, ascii_text.
  assert (forallb is_ascii (((str_of_int p ++ [32]) ++ 40 :: comm) ++ 41 :: 32 :: join [32] fs ++ [10]) = true) as ->
    by (rewrite !forallb_app /= !forallb_app Hpa Hc Hfa; done).
  cbn [rbind]. rewrite rfind_char_app; [set_solver|]. cbn [result_of_option rbind]. rewrite take_app_length.
  rewrite find_char_app; [set_solver|]. cbn [result_of_option rbind]. rewrite take_app_length.
  unfold int_field. rewrite strip_blank.
  { unfold str_of_int. rewrite ltb_false; [lia|]. apply digits_spec; lia. }
  rewrite (int_of_number p 10); [lia|lia|lia|]. cbn [result_of_option rbind]. rewrite Z.eqb_refl. cbn [negb raise_if rbind].
  replace (drop _ _) with (32 :: join [32] fs ++ [10])
    by (rewrite -(Nat.add_1_r (length _)) -drop_drop drop_app_length; done).
  assert (fields (32 :: join [32] fs ++ [10]) = fs) as ->.
  { change (fields (32 :: ?l)) with (fields l). apply fields_join; [|done|done].
    eapply Forall_impl; [exact Hf|]. intros w Hw. apply stat_field_spec, Hw. }
  pose proof (lookup_lt_Some _ _ _ H19) as Hlen. unfold len. rewrite (proj2 (Z.leb_gt _ _)); [lia|]. cbn [raise_if rbind].
  rewrite H19. cbn [default from_option id]. rewrite (int_of_number start 20); [lia|lia|lia|].
  cbn [result_of_option rbind]. rewrite ltb_false; [lia|]. done.
Qed.

(** Whatever the process is called - its name may hold parentheses, blanks
    and line ends - the start time in field 22 of the line the kernel prints is
    the one that is read. *)
Theorem start_time_read pf p comm fs start : 0 < p < 2 ^ 31 -> 0 <= start < 2 ^ 64 ->
  forallb is_ascii comm = true -> Forall stat_field fs -> fs !! 19%nat = Some (str_of_int start) ->
  pf_root pf = None -> pf_dir pf p = None -> pf_stat pf p = None ->
  pf_read pf p = Ok (stat_line p comm fs) -> len (stat_line p comm fs) <= _MAX_STAT_BYTES ->
  read_process_start_time pf p = Ok start.
Proof.
  intros Hp Hs Hc Hf H19 Hroot Hdir Hstat Hread Hlen. unfold read_process_start_time.
  rewrite (proj2 (Z.leb_gt _ _)); [lia|]. cbn [raise_if rbind].
  rewrite bool_decide_eq_false_2; [by rewrite Hroot|]. rewrite Hdir Hstat Hread. cbn [raise_if rbind opened_below].
  rewrite (proj2 (Z.ltb_ge _ _) Hlen). cbn [raise_if rbind]. by apply parse_stat_line.
Qed.

(** ** The verdict *)

(** [/proc] says that there is no such process. *)
Definition absent (pf : ProcFs) (p : Z) : Prop :=
  pf_root pf = None /\ (pf_dir pf p = Some ENOENT \/ pf_dir pf p = None /\ pf_stat pf p = Some ENOENT).

(** A computation that fails only with an inspection error. *)
Definition inspects {A} (r : result A) : Prop := forall e, r = Err e -> exists m, e = RuntimeError m.

Lemma inspects_bind {A B} (m : result A) (f : A -> result B) :
  inspects m -> (forall a, inspects (f a)) -> inspects (rbind m f).
Proof. intros Hm Hf e. destruct m as [a|e']; cbn [rbind]; [apply Hf|]. intros [= ->]. by apply Hm. Qed.

Lemma inspects_option {A} (o : option A) m : inspects (result_of_option o (inspection_error m)).
Proof. intros e. destruct o; [done|]. intros [= <-]. by eexists. Qed.

Lemma inspects_raise b m : inspects (raise_if b (inspection_error m)).
Proof. intros e. destruct b; [|done]. intros [= <-]. by eexists. Qed.

Lemma parse_fails p data : inspects (_parse_process_stat p data).
Proof.
  unfold _parse_process_stat, ascii_text, int_field.
  repeat first [apply inspects_bind; [|intros ?] | apply inspects_option | apply inspects_raise].
  - intros e. destruct (forallb _ _); [done|]. intros [= <-]. by eexists.
  - by intros e.
Qed.

Lemma read_fails pf p e : 0 < p -> (forall e', pf_read pf p = Err e' -> is_os_error e' = true) ->
  read_process_start_time pf p = Err e -> (e = OSError ENOENT /\ absent pf p) \/ ((exists m, e = RuntimeError m) /\ ~ absent pf p).
Proof.
  intros Hp Hr. unfold read_process_start_time, absent.
  rewrite (proj2 (Z.leb_gt _ _) Hp). cbn [raise_if rbind].
  case_bool_decide as Hroot; cbn [raise_if rbind]; [intros [= <-]; right; split; [by eexists|naive_solver]|].
  destruct (pf_dir pf p) as [[]|] eqn:Hd; cbn [opened_below rbind];
    try (intros [= <-]; left; split; [done|split; [done|by auto]]); try (intros [= <-]; right; split; [by eexists|naive_solver]).
  destruct (pf_stat pf p) as [[]|] eqn:Hst; cbn [opened_below rbind];
    try (intros [= <-]; left; split; [done|split; [done|by auto]]); try (intros [= <-]; right; split; [by eexists|naive_solver]).
  intros He. right. split; [|by intros (_ & [Hx|[_ Hx]])]. destruct (pf_read pf p) as [data|e'] eqn:Hrd.
  - destruct (_ <? _); cbn [raise_if rbind] in He; [injection He as <-; by eexists|]. exact (parse_fails _ _ _ He).
  - specialize (Hr e' eq_refl). destruct e'; try done. injection He as <-. by eexists.
Qed.

(** The verdict on a recorded identity is exact and never an exception: alive
    means the same boot and a process whose start time is the recorded one; dead
    means the same boot and a proof of death, that is no such process or another
    start time; everything else is unknown. *)
Theorem identity_status_exact pf i boot : 0 < pid i ->
  (forall e, pf_read pf (pid i) = Err e -> is_os_error e = true) ->
  exists p, identity_status pf i boot = Ok p /\
    (probe_status p = ALIVE <-> boot_id i = boot /\ read_process_start_time pf (pid i) = Ok (start_time i)) /\
    (probe_status p = DEAD <-> boot_id i = boot /\
       (absent pf (pid i) \/ exists start, read_process_start_time pf (pid i) = Ok start /\ start <> start_time i)).
Proof.
  intros Hp Hr. unfold identity_status. destruct (str_eqb (boot_id i) boot) eqn:Hb; cbn [negb].
  2: { apply str_eqb_neq in Hb. eexists. split; [done|]. cbn [probe_status]. naive_solver. }
  apply str_eqb_eq in Hb. destruct (read_process_start_time pf (pid i)) as [start|e] eqn:E.
  - assert (Hnot : ~ absent pf (pid i)).
    { unfold absent. intros (Hroot & Ha). unfold read_process_start_time in E.
      rewrite (proj2 (Z.leb_gt _ _) Hp) Hroot in E. cbn [raise_if rbind] in E.
      destruct Ha as [Ha|[Ha Ha2]]; [by rewrite Ha in E|]. by rewrite Ha Ha2 in E. }
    destruct (Z.eqb_spec start (start_time i)) as [->|Hne]; cbn [negb]; eexists; (split; [done|]); cbn [probe_status]; naive_solver.
  - destruct (read_fails pf (pid i) e Hp Hr E) as [[-> Ha]|[[m ->] Ha]]; eexists; (split; [done|]); cbn [probe_status]; naive_solver.
Qed.

(** ** Witnesses *)
Definition sample_proc : ProcFs := mkProc None (fun _ => None) (fun _ => None)
  (fun _ => Ok (stat_line 42 (u "sh) S (x") (repeat (u "0") 19 ++ [u "77"; u "5"]))).

Lemma start_time_read_witness : read_process_start_time sample_proc 42 = Ok 77.
Proof.
  apply (start_time_read sample_proc 42 (u "sh) S (x") (repeat (u "0") 19 ++ [u "77"; u "5"]));
    try (vm_compute; by repeat split). by repeat constructor.
Defined.

Lemma identity_status_exact_witness : exists p,
  identity_status sample_proc (mkIdentity (u "boot") 42 77) (u "boot") = Ok p /\ probe_status p = ALIVE.
Proof.
  destruct (identity_status_exact sample_proc (mkIdentity (u "boot") 42 77) (u "boot")) as (p & Hp & Ha & _);
    [done|done|]. exists p. split; [exact Hp|]. apply Ha. split; [done|by vm_compute].
Defined.
