(* ===== verification/Adapters.v ===== *)
(** * Terminal adapters ([adapters/])

    How each supported terminal emulator is started.  GNOME Terminal, Xfce
    Terminal and Konsole get one command line with a tab for each item, kitty a
    session file, Ghostty one window for each item.  What an adapter sees of the
    machine is the section's context: the executable resolver, which directories
    exist, the runner of command lines, and how a session file is created. *)
From S2P Require Import Prelude PyText Model Shlex Protocol Resume Recovery.

(** ['exec "$@"; status=$?; exec bash -i'] *)
Definition _COMMAND_WRAPPER : pystr := u "exec " ++ [34] ++ u "$@" ++ [34] ++ u "; status=$?; exec bash -i".

Record AdapterCapabilities := mkCapabilities {
  tabs : bool;
  directories : bool;
  windows : bool;
  panes : bool;
  scrollback : bool;
  command_launch : bool;
  deterministic_grouping : bool;
}.

Definition _UNAVAILABLE_WARNING : pystr := u "terminal executable unavailable".
Definition _GHOSTTY_MULTIWINDOW_NOTE : pystr := u "ghostty: opened in separate windows (no CLI multi-tab)".

Section Machine.
Context (which : pystr -> option pystr).
Context (is_dir : posix_path -> bool).
(** The exit status of the n-th command line that is run, or why there is none. *)
Context (run : nat -> list pystr -> result Z).
(** The path of a new session file with the given text. *)
Context (mkstemp : pystr -> result pystr).

(** [item.cwd.is_absolute() and item.cwd.is_dir()] *)
Definition usable (i : LaunchItem) : bool := is_absolute (li_cwd i) && is_dir (li_cwd i).

(** The tokens that run an approved command: its words are arguments, never shell text. *)
Definition wrapped (command : pystr) : result (list pystr) :=
  let? tokens := shlex_split command in
  Ok ([u "bash"; u "-c"; _COMMAND_WRAPPER; u "bash"] ++ tokens).

Definition _tab_argv_for (i : LaunchItem) (wrapper : pystr) (wrapper_args : list pystr) : result (list pystr) :=
  if negb (usable i) then Ok []
  else match approved_command i with
       | Some c => let? tokens := shlex_split c in Ok ([u "bash"; u "-c"; wrapper] ++ wrapper_args ++ tokens)
       | None => Ok []
       end.

Definition item_level (i : LaunchItem) : RestorationLevel :=
  match approved_command i with Some _ => RECONSTRUCTED | None => PARTIAL end.

Definition unavailable (warning id : pystr) : LaunchAction := mkAction [id] [] UNAVAILABLE [warning].

(** ** One launch for all items *)
Record group := mkGroup {
  gr_ids : list pystr;
  gr_argv : list pystr;
  gr_levels : list RestorationLevel;
  gr_missing : list pystr;
}.

(** The loop of [plan]: [tab index item] is what an item adds. *)
Fixpoint group_items (tab : nat -> LaunchItem -> result (list pystr)) (index : nat) (items : list LaunchItem)
    (g : group) : result group :=
  match items with
  | [] => Ok g
  | i :: rest =>
      if negb (usable i) then
        group_items tab (S index) rest (mkGroup (gr_ids g) (gr_argv g) (gr_levels g) (gr_missing g ++ [li_item_id i]))
      else
        let? words := tab index i in
        group_items tab (S index) rest
          (mkGroup (gr_ids g ++ [li_item_id i]) (gr_argv g ++ words) (gr_levels g ++ [item_level i]) (gr_missing g))
  end.

Definition group_level (levels : list RestorationLevel) : RestorationLevel :=
  if bool_decide (RECONSTRUCTED ∈ levels) then RECONSTRUCTED
  else if bool_decide (PARTIAL ∈ levels) then PARTIAL else UNAVAILABLE.

(** The end of [plan]: one action, or none of the items can be opened. *)
Definition grouped (items : list LaunchItem) (g : group) (argv : result (list pystr)) : result (list LaunchAction) :=
  match gr_ids g with
  | [] => Ok (map (unavailable _UNAVAILABLE_WARNING)
                (match gr_missing g with [] => map li_item_id items | missing => missing end))
  | ids =>
      let? argv := argv in
      Ok [mkAction ids argv (group_level (gr_levels g))
            (map (fun id => id ++ u ": directory unavailable") (gr_missing g))]
  end.

Definition plan_group (name : pystr) (tab : nat -> LaunchItem -> result (list pystr)) (items : list LaunchItem)
  : result (list LaunchAction) :=
  match which name with
  | None => Ok (map (fun i => unavailable _UNAVAILABLE_WARNING (li_item_id i)) items)
  | Some exe =>
      let? g := group_items tab 0 items (mkGroup [] [exe] [] []) in
      grouped items g (Ok (gr_argv g))
  end.

(** The words of an optional command behind the option that introduces it. *)
Definition command_words (option : list pystr) (i : LaunchItem) : result (list pystr) :=
  match approved_command i with
  | Some c => let? words := wrapped c in Ok (option ++ words)
  | None => Ok []
  end.

Definition gnome_tab (index : nat) (i : LaunchItem) : result (list pystr) :=
  let? words := command_words [u "--"] i in
  Ok ([if (index =? 0)%nat then u "--window" else u "--tab"; u "--working-directory"; path_str (li_cwd i)] ++ words).

Definition konsole_tab (index : nat) (i : LaunchItem) : result (list pystr) :=
  let? words := command_words [u "-e"] i in
  Ok ((if (0 <? index)%nat then [u "--new-tab"] else []) ++ [u "--workdir"; path_str (li_cwd i)] ++ words).

Definition xfce4_tab (index : nat) (i : LaunchItem) : result (list pystr) :=
  let? words := command_words [u "--hold"] i in
  Ok ([if (index =? 0)%nat then u "--window" else u "--tab"; u "--working-directory=" ++ path_str (li_cwd i)] ++ words).

Definition gnome_plan := plan_group (u "gnome-terminal") gnome_tab.
Definition konsole_plan := plan_group (u "konsole") konsole_tab.
Definition xfce4_plan := plan_group (u "xfce4-terminal") xfce4_tab.

(** ** The session file of kitty *)
Definition _shell_escape (token : pystr) : pystr :=
  [39] ++ str_replace [39] [39; 92; 39; 39] token ++ [39].

(** The text behind [launch]; [repr] of the wrapper quotes it, as it holds no single quote. *)
Definition launch_words (tokens : list pystr) : pystr :=
  u "bash -c '" ++ _COMMAND_WRAPPER ++ u "' bash " ++ join (u " ") (map _shell_escape tokens).

(** The lines of one tab. *)
Definition kitty_tab (_ : nat) (i : LaunchItem) : result (list pystr) :=
  let? launch := match approved_command i with
                 | Some c => let? tokens := shlex_split c in Ok [u "launch " ++ launch_words tokens]
                 | None => Ok []
                 end in
  Ok ([u "new_tab"; u "cd " ++ path_str (li_cwd i)] ++ launch).

Definition session_text (lines : list pystr) : pystr := join [10] lines ++ [10].

Definition kitty_plan (items : list LaunchItem) : result (list LaunchAction) :=
  match which (u "kitty") with
  | None => Ok (map (fun i => unavailable _UNAVAILABLE_WARNING (li_item_id i)) items)
  | Some exe =>
      let? g := group_items kitty_tab 0 items (mkGroup [] [] [] []) in
      grouped items g (let? path := mkstemp (session_text (gr_argv g)) in Ok [exe; u "--session"; path])
  end.

(** ** One launch for each item *)
Definition ghostty_action (exe : pystr) (many : bool) (i : LaunchItem) : result LaunchAction :=
  if negb (usable i) then Ok (unavailable (li_item_id i ++ u ": directory unavailable") (li_item_id i))
  else
    let? words := command_words [u "-e"] i in
    Ok (mkAction [li_item_id i] ([exe; u "--working-directory=" ++ path_str (li_cwd i)] ++ words) (item_level i)
          (if many then [_GHOSTTY_MULTIWINDOW_NOTE] else [])).

Definition ghostty_plan (items : list LaunchItem) : result (list LaunchAction) :=
  match which (u "ghostty") with
  | None => Ok (map (fun i => unavailable _UNAVAILABLE_WARNING (li_item_id i)) items)
  | Some exe => rmap (ghostty_action exe (1 <? len items)) items
  end.

(** ** Running a plan, the same in every adapter *)
Definition report (kind : OutcomeKind) (message : pystr) (ids : list pystr) : result (list Outcome) :=
  rmap (fun id => new_Outcome id kind (id ++ u ": " ++ message)) ids.

Definition launch_report (returned : result Z) (ids : list pystr) : result (list Outcome) :=
  match returned with
  | Ok status =>
      if status =? 0 then report SUCCESS (u "terminal launch succeeded") ids
      else report FAILURE (u "terminal launch failed with status " ++ str_of_int status) ids
  | Err (OSError ENOENT) => report SKIP (u "terminal unavailable") ids
  | Err SubprocessError => report FAILURE (u "terminal launch timed out; retryable") ids
  | Err e => Err e
  end.

(** [execute]; [n] command lines were run before. *)
Fixpoint execute_from (n : nat) (actions : list LaunchAction) : result (list Outcome) :=
  match actions with
  | [] => Ok []
  | a :: rest =>
      let? '(outs, n) :=
        match argv a with
        | [] => let? outs := report SKIP (u "terminal unavailable") (item_ids a) in Ok (outs, n)
        | words => let? outs := launch_report (run n words) (item_ids a) in Ok (outs, S n)
        end in
      let? more := execute_from n rest in
      Ok (outs ++ more)
  end.

Definition execute (actions : list LaunchAction) (attempt_id : pystr) : result (list Outcome) := execute_from 0 actions.

(** ** The adapters *)
Definition detect (name : pystr) : bool := bool_decide (which name <> None).

Definition gnome_capabilities := mkCapabilities true true true false false true true.
Definition konsole_capabilities := mkCapabilities true true false false false true true.
Definition xfce4_capabilities := mkCapabilities true true false false false true true.
Definition kitty_capabilities := mkCapabilities false true false false false true true.
Definition ghostty_capabilities := mkCapabilities false true false false false true false.

Definition GnomeTerminalAdapter : TerminalAdapter :=
  mkAdapter (u "GnomeTerminalAdapter") (Ok (detect (u "gnome-terminal"))) gnome_plan execute.
Definition KonsoleAdapter : TerminalAdapter :=
  mkAdapter (u "konsole") (Ok (detect (u "konsole"))) konsole_plan execute.
Definition Xfce4TerminalAdapter : TerminalAdapter :=
  mkAdapter (u "xfce4-terminal") (Ok (detect (u "xfce4-terminal"))) xfce4_plan execute.
Definition KittyAdapter : TerminalAdapter :=
  mkAdapter (u "kitty") (Ok (detect (u "kitty"))) kitty_plan execute.
Definition GhosttyAdapter : TerminalAdapter :=
  mkAdapter (u "ghostty") (Ok (detect (u "ghostty"))) ghostty_plan execute.

(** ** The registry *)
Definition _ADAPTER_FACTORIES : list (pystr * TerminalAdapter) :=
  [(u "gnome-terminal", GnomeTerminalAdapter); (u "kitty", KittyAdapter); (u "ghostty", GhosttyAdapter);
   (u "xfce4-terminal", Xfce4TerminalAdapter); (u "konsole", KonsoleAdapter)].

Definition create_adapter (name : pystr) : result TerminalAdapter :=
  match find (fun kv => str_eqb kv.1 name) _ADAPTER_FACTORIES with
  | Some (_, a) => Ok a
  | None => Err (ValueError (u "unsupported adapter"))
  end.

Definition get_adapter_for_shell (name : pystr) : result TerminalAdapter := create_adapter name.

(** The first supported adapter that is installed. *)
Fixpoint detect_first (names : list pystr) : result (option pystr) :=
  match names with
  | [] => Ok None
  | n :: rest =>
      let? a := create_adapter n in
      let? here := ad_detect a in
      if here then Ok (Some n) else detect_first rest
  end.

Definition detect_adapter : result (option pystr) :=
  detect_first [u "gnome-terminal"; u "kitty"; u "ghostty"; u "xfce4-terminal"; u "konsole"].

End Machine.
