(* ===== verification/AdaptersProofs.v ===== *)
(** * Terminal adapters: theorems

    What a plan accounts for, which adapters keep the contract the service relies
    on, and that a kitty session runs exactly the approved words. *)
From S2P Require Import Prelude PyText Model Shlex Protocol Resume Recovery Adapters.

(** ** Words in single quotes *)
Definition escaped (t : pystr) : pystr := t ≫= fun c => if c =? 39 then [39; 92; 39; 39] else [c].

Lemma shell_escape_eq t : _shell_escape t = 39 :: escaped t ++ [39].
Proof.
  unfold _shell_escape, escaped, str_replace. cbn [app]. f_equal. f_equal.
  induction t as [|c t IH]; [done|]. rewrite bind_cons -IH. cbn [replace_go is_prefix length Nat.sub].
  rewrite andb_true_r Z.eqb_sym. by destruct (c =? 39).
Qed.

Lemma escaped_lexes t tok acc s :
  shlex_go (SQuote 39) tok acc (escaped t ++ 39 :: s) = shlex_go SWord (rev t ++ tok) acc s.
Proof.
  revert tok. induction t as [|c t IH]; intros tok; [done|].
  unfold escaped. rewrite bind_cons. fold (escaped t). destruct (Z.eqb_spec c 39) as [->|Hne].
  - cbn. rewrite IH. by rewrite -app_assoc.
  - cbn [app shlex_go]. rewrite (proj2 (Z.eqb_neq _ _) Hne) andb_false_r IH. cbn [rev]. by rewrite -app_assoc.
Qed.

(** An escaped token is one word, whatever it holds. *)
Lemma escape_lexes t : lexes_to (_shell_escape t) t.
Proof.
  assert (H : forall acc s, shlex_go SSpace [] acc (_shell_escape t ++ s) = shlex_go SWord (rev t) acc s).
  { intros acc s. rewrite shell_escape_eq. cbn [app shlex_go]. rewrite -app_assoc. cbn [app].
    change (shlex_go (SQuote 39) [] acc (escaped t ++ 39 :: s) = shlex_go SWord (rev t) acc s).
    by rewrite escaped_lexes app_nil_r. }
  intros acc. split; [|intros s].
  - rewrite -(app_nil_r (_shell_escape t)) H. simpl. by rewrite rev_involutive.
  - rewrite H. simpl. by rewrite rev_involutive.
Qed.

Lemma launch_words_eq tokens : launch_words tokens =
  join [32] ([u "bash"; u "-c"; _shell_escape _COMMAND_WRAPPER; u "bash"] ++
             match tokens with [] => [[]] | _ => map _shell_escape tokens end).
Proof. destruct tokens; [by vm_compute|]. unfold launch_words. vm_compute (_shell_escape _COMMAND_WRAPPER). reflexivity. Qed.

Lemma launch_words_split tokens :
  shlex_split (launch_words tokens) = Ok ([u "bash"; u "-c"; _COMMAND_WRAPPER; u "bash"] ++ tokens).
Proof.
  destruct tokens as [|t tokens]; [by vm_compute|]. rewrite launch_words_eq. unfold shlex_split.
  rewrite (shlex_join_lexes _ ([u "bash"; u "-c"; _COMMAND_WRAPPER; u "bash"] ++ t :: tokens)); [|done].
  repeat (constructor; [first [apply escape_lexes | by apply lexes_plain]|]).
  induction tokens as [|t' tokens IH]; constructor; [apply escape_lexes|exact IH].
Qed.

(** ** Lines *)
Lemma session_lines lines : lines <> [] -> Forall (fun l => 10 ∉ l) lines ->
  split_on 10 (session_text lines) = lines ++ [[]].
Proof.
  intros Hne Hl. unfold session_text. induction Hl as [|l lines Hl Hlines IH]; [done|].
  destruct lines as [|l2 lines]; [by rewrite split_on_app|].
  change (join [10] (l :: l2 :: lines)) with (l ++ [10] ++ join [10] (l2 :: lines)).
  rewrite -!app_assoc. cbn [app]. by rewrite split_on_app // IH.
Qed.

(** The lexer makes no line ends. *)
Lemma shlex_go_lines st tok acc s ts : shlex_go st tok acc s = Ok ts ->
  10 ∉ tok -> Forall (fun w => 10 ∉ w) acc -> 10 ∉ s -> Forall (fun w => 10 ∉ w) ts.
Proof.
  assert (Hrev : forall l : list Z, 10 ∉ l -> 10 ∉ rev l)
    by (intros l Hl; by rewrite list_elem_of_In -in_rev -list_elem_of_In).
  assert (Hall : forall l : list pystr, Forall (fun w => 10 ∉ w) l -> Forall (fun w => 10 ∉ w) (rev l))
    by (intros l Hl; rewrite rev_alt; by apply Forall_reverse).
  revert st tok acc. induction s as [|c s IH]; intros st tok acc Hgo Ht Ha Hs.
  - destruct st; cbn [shlex_go] in Hgo; try discriminate Hgo; injection Hgo as <-; [by apply Hall|].
    apply (Hall (rev tok :: acc)). constructor; [by apply Hrev|done].
  - apply not_elem_of_cons in Hs as [Hc Hs].
    assert (Hct : forall t : pystr, 10 ∉ t -> 10 ∉ c :: t) by (intros t Hct; by apply not_elem_of_cons).
    assert (Hnil : 10 ∉ @nil Z) by (by intros ?%not_elem_of_nil).
    destruct st as [| |q|[|q]]; cbn [shlex_go] in Hgo;
      repeat match type of Hgo with context [if ?b then _ else _] => destruct b end;
      (eapply IH; [exact Hgo| | |exact Hs]); auto.
    apply Hct, not_elem_of_cons. by split.
Qed.

Lemma escaped_line t : 10 ∉ t -> 10 ∉ _shell_escape t.
Proof.
  intros Ht. rewrite shell_escape_eq. rewrite not_elem_of_cons not_elem_of_app. split; [done|]. split; [|set_solver].
  unfold escaped. intros (c & Hc & Hin)%list_elem_of_bind. destruct (c =? 39) in Hc; set_solver.
Qed.

Lemma join_lines sep ls : 10 ∉ sep -> Forall (fun l => 10 ∉ l) ls -> 10 ∉ join sep ls.
Proof.
  intros Hsep Hl. induction Hl as [|l ls Hl _ IH]; [by intros ?%not_elem_of_nil|]. destruct ls as [|l2 ls]; [done|].
  change (join sep (l :: l2 :: ls)) with (l ++ sep ++ join sep (l2 :: ls)). rewrite !not_elem_of_app. auto.
Qed.

Lemma no_line_end (s : pystr) : forallb (fun c => negb (c =? 10)) s = true -> 10 ∉ s.
Proof. intros Hs Hin%list_elem_of_In. rewrite forallb_forall in Hs. by apply Hs in Hin. Qed.

Lemma launch_words_line tokens : Forall (fun w => 10 ∉ w) tokens -> 10 ∉ launch_words tokens.
Proof.
  intros Ht. unfold launch_words. generalize _COMMAND_WRAPPER (eq_refl : forallb (fun c => negb (c =? 10)) _COMMAND_WRAPPER = true).
  intros wrapper Hwrapper. rewrite !not_elem_of_app.
  split; [by apply no_line_end|]. split; [by apply no_line_end|]. split; [by apply no_line_end|].
  apply join_lines; [by apply no_line_end|]. apply Forall_forall. intros w (t & -> & Hin)%list_elem_of_fmap.
  apply escaped_line. rewrite Forall_forall in Ht. by apply Ht.
Qed.

(** ** What a plan accounts for *)
Section Machine.
Context (which : pystr -> option pystr) (is_dir : posix_path -> bool) (run : nat -> list pystr -> result Z)
  (mkstemp : pystr -> result pystr).
#[local] Notation usable := (usable is_dir).

Definition usable_items (items : list LaunchItem) : list LaunchItem := filter (fun i => usable i = true) items.

(** The items a grouped plan mentions: the usable ones, or all when there is none. *)
Definition accounted (items : list LaunchItem) : list LaunchItem :=
  match usable_items items with [] => items | l => l end.

Lemma group_items_spec tab n items g g' : group_items is_dir tab n items g = Ok g' ->
  exists segments, gr_ids g' = gr_ids g ++ map li_item_id (usable_items items) /\
    gr_missing g' = gr_missing g ++ map li_item_id (filter (fun i => usable i = false) items) /\
    gr_argv g' = gr_argv g ++ concat segments /\
    Forall2 (fun i words => exists k, tab k i = Ok words) (usable_items items) segments.
Proof.
  unfold usable_items. revert n g. induction items as [|i items IH]; intros n g; cbn [group_items].
  - intros [= <-]. exists []. by rewrite !app_nil_r.
  - destruct (usable i) eqn:Hu; cbn [negb].
    + intros (words & Hw & Hg)%rbind_Ok. destruct (IH _ _ Hg) as (segs & -> & -> & -> & Hs). exists (words :: segs).
      rewrite filter_cons_True // filter_cons_False; [by rewrite Hu|]. cbn [map gr_ids gr_missing gr_argv concat].
      rewrite -!app_assoc. repeat (split; [done|]). constructor; [by exists n|done].
    + intros Hg. destruct (IH _ _ Hg) as (segs & -> & -> & -> & Hs). exists segs.
      rewrite filter_cons_False; [by rewrite Hu|]. rewrite filter_cons_True //. cbn [map gr_ids gr_missing gr_argv].
      by rewrite -!app_assoc.
Qed.

Lemma unavailable_ids ids w : map (unavailable w) ids ≫= item_ids = ids.
Proof. induction ids as [|id ids IH]; [done|]. cbn [map]. rewrite bind_cons IH. done. Qed.

Lemma none_usable items : usable_items items = [] -> filter (fun i => usable i = false) items = items.
Proof.
  unfold usable_items. induction items as [|i items IH]; [done|]. destruct (usable i) eqn:Hu.
  - rewrite filter_cons_True //.
  - rewrite filter_cons_False; [by rewrite Hu|]. rewrite filter_cons_True //. intros Hf. by rewrite IH.
Qed.

Lemma grouped_ids tab n items argv0 g argv actions : group_items is_dir tab n items (mkGroup [] argv0 [] []) = Ok g ->
  grouped items g argv = Ok actions -> actions ≫= item_ids = map li_item_id (accounted items).
Proof.
  intros (segs & Hids & Hm & _)%group_items_spec. cbn [gr_ids gr_missing app] in Hids, Hm.
  unfold grouped, accounted. rewrite Hids Hm. destruct (usable_items items) as [|i l] eqn:Hu.
  - rewrite (none_usable items Hu). intros [= <-]. destruct items; by rewrite unavailable_ids.
  - intros (a & _ & [= <-])%rbind_Ok. by rewrite bind_cons app_nil_r.
Qed.

(** No terminal: every item is reported unavailable. *)
Lemma no_terminal_ids w items : map (fun i => unavailable w (li_item_id i)) items ≫= item_ids = map li_item_id items.
Proof. rewrite -(map_map li_item_id (unavailable w)). apply unavailable_ids. Qed.

Lemma plan_group_ids name tab items actions : plan_group which is_dir name tab items = Ok actions ->
  actions ≫= item_ids = map li_item_id (if which name then accounted items else items).
Proof.
  unfold plan_group. destruct (which name) as [exe|].
  - intros (g & Hg & Hx)%rbind_Ok. exact (grouped_ids _ _ _ _ _ _ _ Hg Hx).
  - intros [= <-]. apply no_terminal_ids.
Qed.

Lemma kitty_ids items actions : kitty_plan which is_dir mkstemp items = Ok actions ->
  actions ≫= item_ids = map li_item_id (if which (u "kitty") then accounted items else items).
Proof.
  unfold kitty_plan. destruct (which _) as [exe|].
  - intros (g & Hg & Hx)%rbind_Ok. exact (grouped_ids _ _ _ _ _ _ _ Hg Hx).
  - intros [= <-]. apply no_terminal_ids.
Qed.

Lemma ghostty_ids items actions : ghostty_plan which is_dir items = Ok actions ->
  actions ≫= item_ids = map li_item_id items.
Proof.
  unfold ghostty_plan. destruct (which _) as [exe|]; [|intros [= <-]; apply no_terminal_ids].
  generalize (1 <? len items). intros many Hm%rmap_Ok. induction Hm as [|i a items actions Ha _ IH]; [done|].
  rewrite bind_cons IH. cbn [map]. f_equal. unfold ghostty_action in Ha. destruct (negb _); [by injection Ha as <-|].
  by apply rbind_Ok in Ha as (w & _ & [= <-]).
Qed.

(** ** What an execution reports *)
Lemma report_ids kind m ids outs : report kind m ids = Ok outs -> map out_item_id outs = ids.
Proof.
  intros Hm%rmap_Ok. induction Hm as [|id o ids outs Ho _ IH]; [done|]. apply construct_Ok in Ho as [-> _].
  cbn [map]. by rewrite IH.
Qed.

Lemma launch_report_ids r ids outs : launch_report r ids = Ok outs -> map out_item_id outs = ids.
Proof.
  unfold launch_report. destruct r as [s|[]]; try done; try (by apply report_ids); [|].
  - destruct (s =? 0); apply report_ids.
  - destruct e; try done. apply report_ids.
Qed.

Lemma execute_ids n actions outs : execute_from run n actions = Ok outs -> map out_item_id outs = actions ≫= item_ids.
Proof.
  revert n outs. induction actions as [|a actions IH]; intros n outs; cbn [execute_from]; [by intros [= <-]|].
  intros ([os k] & Ha & (more & Hm & [= <-])%rbind_Ok)%rbind_Ok. rewrite map_app (IH _ _ Hm) bind_cons. f_equal.
  destruct (argv a); apply rbind_Ok in Ha as (os' & Ha & [= -> _]); [exact (report_ids _ _ _ _ Ha)|exact (launch_report_ids _ _ _ Ha)].
Qed.

(** Ghostty keeps the contract on any machine. *)
#[export] Instance ghostty_laws : AdapterLaws (GhosttyAdapter which is_dir run).
Proof.
  split; cbn [ad_plan ad_execute GhosttyAdapter].
  - intros items actions H. by rewrite (ghostty_ids _ _ H).
  - intros actions attempt outs H. by rewrite (execute_ids _ _ _ H).
Qed.

End Machine.

(** ** The claims *)
Lemma created_adapter which is_dir run mkstemp name a : create_adapter which is_dir run mkstemp name = Ok a ->
  a = GnomeTerminalAdapter which is_dir run \/ a = KittyAdapter which is_dir run mkstemp \/
  a = GhosttyAdapter which is_dir run \/ a = Xfce4TerminalAdapter which is_dir run \/ a = KonsoleAdapter which is_dir run.
Proof. unfold create_adapter, _ADAPTER_FACTORIES. cbn [find fst]. repeat (destruct (str_eqb _ name); [intros [= <-]; tauto|]). done. Qed.

(** Which adapter is chosen: a supported one that is installed, if there is any. *)
Lemma detect_adapter_spec which is_dir run mkstemp : exists o, detect_adapter which is_dir run mkstemp = Ok o /\
  match o with
  | Some n => n ∈ SUPPORTED_ADAPTERS /\ which n <> None
  | None => forall n, n ∈ SUPPORTED_ADAPTERS -> which n = None
  end.
Proof.
  assert (detect_adapter which is_dir run mkstemp =
    if detect which (u "gnome-terminal") then Ok (Some (u "gnome-terminal"))
    else if detect which (u "kitty") then Ok (Some (u "kitty"))
    else if detect which (u "ghostty") then Ok (Some (u "ghostty"))
    else if detect which (u "xfce4-terminal") then Ok (Some (u "xfce4-terminal"))
    else if detect which (u "konsole") then Ok (Some (u "konsole")) else Ok None) as -> by reflexivity.
  assert (Hd : forall n, detect which n = false -> which n = None)
    by (intros n Hn; by apply bool_decide_eq_false, dec_stable in Hn).
  assert (Ht : forall n, detect which n = true -> which n <> None) by (intros n Hn; by apply bool_decide_eq_true in Hn).
  assert (Hin : forall n, str_in n SUPPORTED_ADAPTERS = true -> n ∈ SUPPORTED_ADAPTERS) by (intros n; apply str_in_spec).
  repeat match goal with
  | |- context [if detect which ?n then _ else _] =>
      destruct (detect which n) eqn:?; [eexists; split; [reflexivity|]; split; [apply Hin; reflexivity|by apply Ht]|]
  end.
  exists None. split; [done|]. intros n Hn. apply Hd. unfold SUPPORTED_ADAPTERS in Hn.
  repeat (apply elem_of_cons in Hn as [->|Hn]; [done|]). by apply not_elem_of_nil in Hn.
Qed.

(** C38. Whatever terminal is used, a plan accounts for items in the order they
    were selected, each at most once: for all of them, or - when a shared window
    is opened and some directories are gone - for exactly those whose directory
    is usable; for all of them whenever every directory is.  What is reported
    after the launch is one outcome for each item of the plan, in its order. *)
Theorem adapters_account which is_dir run mkstemp name a :
  create_adapter which is_dir run mkstemp name = Ok a ->
  (forall items actions, ad_plan a items = Ok actions ->
     actions ≫= item_ids = map li_item_id items \/
     actions ≫= item_ids = map li_item_id (usable_items is_dir items)) /\
  (forall items actions, Forall (fun i => usable is_dir i = true) items -> ad_plan a items = Ok actions ->
     actions ≫= item_ids = map li_item_id items) /\
  (forall actions attempt outs, ad_execute a actions attempt = Ok outs ->
     map out_item_id outs = actions ≫= item_ids).
Proof.
  intros Ha%created_adapter.
  assert (Hplan : forall items actions, ad_plan a items = Ok actions ->
    actions ≫= item_ids = map li_item_id items \/ actions ≫= item_ids = map li_item_id (accounted is_dir items)).
  { intros items actions Hp.
    destruct Ha as [->|[->|[->|[->| ->]]]]; cbn [ad_plan] in Hp;
      [apply plan_group_ids in Hp|apply kitty_ids in Hp|apply ghostty_ids in Hp|apply plan_group_ids in Hp|apply plan_group_ids in Hp];
      rewrite Hp; try (case_match; tauto); tauto. }
  split; [|split].
  - intros items actions Hp. destruct (Hplan _ _ Hp) as [Hi|Hi]; [by left|]. unfold accounted in Hi.
    destruct (usable_items is_dir items) as [|i l]; [by left|by right].
  - intros items actions Hall Hp.
    assert (usable_items is_dir items = items) as Heq
      by (unfold usable_items; clear -Hall; induction Hall as [|i l Hi _ IH]; [done|]; by rewrite filter_cons_True // IH).
    destruct (Hplan _ _ Hp) as [Hi|Hi]; [done|]. rewrite Hi. unfold accounted. rewrite Heq. by destruct items.
  - intros actions attempt outs. destruct Ha as [->|[->|[->|[->| ->]]]]; apply execute_ids.
Qed.

(** The lines of a tab of a kitty session: the directory, and the approved words. *)
Definition literal_tab (i : LaunchItem) (lines : list pystr) : Prop :=
  match approved_command i with
  | None => lines = [u "new_tab"; u "cd " ++ path_str (li_cwd i)]
  | Some c => exists tokens launch, shlex_split c = Ok tokens /\
      shlex_split launch = Ok ([u "bash"; u "-c"; _COMMAND_WRAPPER; u "bash"] ++ tokens) /\
      lines = [u "new_tab"; u "cd " ++ path_str (li_cwd i); u "launch " ++ launch]
  end.

Definition one_line (i : LaunchItem) : Prop :=
  10 ∉ path_str (li_cwd i) /\ forall c, approved_command i = Some c -> 10 ∉ c.

Lemma kitty_tab_literal k i words : one_line i -> kitty_tab k i = Ok words ->
  literal_tab i words /\ Forall (fun l => 10 ∉ l) words.
Proof.
  intros [Hp Hc] (launch & Hl & Hw)%rbind_Ok. apply Ok_inj in Hw as ->. unfold literal_tab.
  assert (Hconst : 10 ∉ u "new_tab" /\ 10 ∉ u "cd " ++ path_str (li_cwd i)).
  { split; [by apply no_line_end|]. apply not_elem_of_app. split; [by apply no_line_end|done]. }
  destruct Hconst as [H1 H2]. destruct (approved_command i) as [c|]; [|apply Ok_inj in Hl as ->; split; [done|by repeat constructor]].
  apply rbind_Ok in Hl as (tokens & Ht & Hl). apply Ok_inj in Hl as ->. split.
  - exists tokens, (launch_words tokens). split; [exact Ht|]. split; [apply launch_words_split|done].
  - do 2 (apply Forall_cons; split; [done|]). apply Forall_cons; split; [|done]. apply not_elem_of_app. split; [by apply no_line_end|].
    apply launch_words_line. apply (shlex_go_lines _ _ _ _ _ Ht); [by intros ?%not_elem_of_nil|constructor|by apply Hc].
Qed.

(** A kitty session file says nothing but what was approved: read line by line
    it is one tab for each item with a usable directory, in that directory, and
    where a command was approved kitty's reading of the launch line gives the
    wrapper followed by exactly the words of the command, whatever quotes,
    blanks or metacharacters they hold. *)
Theorem kitty_session_literal which is_dir mkstemp exe items actions : which (u "kitty") = Some exe ->
  Forall one_line items -> usable_items is_dir items <> [] ->
  kitty_plan which is_dir mkstemp items = Ok actions ->
  exists session path tabs,
    mkstemp session = Ok path /\ map argv actions = [[exe; u "--session"; path]] /\
    split_on 10 session = concat tabs ++ [[]] /\ Forall2 literal_tab (usable_items is_dir items) tabs.
Proof.
  intros Hexe Hlines Hne. unfold kitty_plan. rewrite Hexe. intros (g & Hg & Hx)%rbind_Ok.
  destruct (group_items_spec _ _ _ _ _ _ Hg) as (tabs & Hids & _ & Hargv & Hs). cbn [gr_ids gr_argv app] in *.
  assert (Hus : Forall one_line (usable_items is_dir items)) by (apply Forall_forall; intros i [_ Hi]%list_elem_of_filter; rewrite Forall_forall in Hlines; by apply Hlines).
  assert (Htabs : Forall2 literal_tab (usable_items is_dir items) tabs /\ Forall (fun l => 10 ∉ l) (concat tabs)).
  { clear -Hs Hus. induction Hs as [|i words its tabs (k & Hk) _ IH]; [by split|].
    apply Forall_cons in Hus as [Hi Hus]. destruct (kitty_tab_literal k i words Hi Hk) as [H1 H2].
    destruct (IH Hus) as [H3 H4]. split; [by constructor|]. cbn [concat]. by apply Forall_app. }
  destruct Htabs as [Htabs Hclean]. unfold grouped in Hx. rewrite Hids in Hx.
  destruct (usable_items is_dir items) as [|i l] eqn:Hu; [done|]. cbn [map] in Hx.
  apply rbind_Ok in Hx as (argv & Hargv' & [= <-]). apply rbind_Ok in Hargv' as (path & Hpath & [= <-]).
  exists (session_text (gr_argv g)), path, tabs. split; [exact Hpath|]. split; [done|]. split; [|exact Htabs].
  rewrite Hargv. apply session_lines; [|done]. inversion Htabs as [|? words ? ? Hw]; subst. unfold literal_tab in Hw.
  destruct (approved_command i); [destruct Hw as (? & ? & _ & _ & ->)|subst]; done.
Qed.

(** ** Witnesses *)
Definition any_terminal (name : pystr) : option pystr := Some (u "/usr/bin/" ++ name).
Definition home_only (p : posix_path) : bool := str_eqb (path_str p) (u "/home/u").
Definition launches : list LaunchItem :=
  [mkLaunch (u "s1") (parse_path (u "/home/u")) (Some (u "vim 'a b' $(x)")); mkLaunch (u "s2") (parse_path (u "/home/u")) None].
Definition saved (_ : pystr) : result pystr := Ok (u "/tmp/session").

Lemma adapters_account_witness : exists actions,
  gnome_plan any_terminal home_only launches = Ok actions /\ actions ≫= item_ids = [u "s1"; u "s2"].
Proof.
  destruct (gnome_plan any_terminal home_only launches) as [actions|] eqn:E; [|exfalso; vm_compute in E; discriminate E].
  exists actions. split; [reflexivity|].
  apply (proj1 (proj2 (adapters_account any_terminal home_only (fun _ _ => Ok 0) saved (u "gnome-terminal") _ eq_refl))
    launches actions); [by repeat constructor|exact E].
Defined.

Lemma kitty_session_literal_witness : exists actions session path tabs,
  kitty_plan any_terminal home_only saved launches = Ok actions /\ saved session = Ok path /\
  split_on 10 session = concat tabs ++ [[]] /\ Forall2 literal_tab launches tabs.
Proof.
  destruct (kitty_plan any_terminal home_only saved launches) as [actions|] eqn:E; [|exfalso; vm_compute in E; discriminate E].
  destruct (kitty_session_literal any_terminal home_only saved (u "/usr/bin/kitty") launches actions)
    as (session & path & tabs & H1 & _ & H2 & H3); [reflexivity| |discriminate|exact E|].
  - repeat constructor; try (by apply no_line_end); intros c [= <-]; by apply no_line_end.
  - exists actions, session, path, tabs. split; [reflexivity|]. split; [exact H1|]. split; [exact H2|exact H3].
Defined.
