(* ===== verification/Bridge.v ===== *)
(** * The shell bridge ([bridge.py])

    A small process beside each shell: it reads the frames the shell writes, and
    turns each into one request on an authenticated stream to the service.  The
    service is seen through a [Network], whose operations may fail or answer
    anything; times are integers in milliseconds. *)
From S2P Require Import Prelude PyText PyVal PyFloat Json Codec Model Shlex Classifier Protocol.

Definition _RETRY_DELAYS : list Z := [50; 100; 250; 500; 1000].

Record Bridge := mkBridge {
  br_shell_id : pystr;
  br_identity : ProcessIdentity;
  br_adapter : pystr;
  br_capability : option pystr;
  br_next_sequence : Z;
  br_cwd : option pystr;
  br_connected : bool;
  br_receive_buffer : pybytes;
  br_retry_index : nat;
  br_retry_at : Z;
}.

Definition new_Bridge (shell_id : pystr) (i : ProcessIdentity) (adapter : pystr) : Bridge :=
  mkBridge shell_id i adapter None 1 None false [] 0 0.

(** The other side: its state is anything. *)
Record Network (W : Type) := mkNetwork {
  nt_connect : W -> result unit * W;
  nt_sendall : pybytes -> W -> result unit * W;
  nt_recv : Z -> W -> result pybytes * W;
  nt_monotonic : W -> Z * W;
}.
Arguments nt_connect {W}. Arguments nt_sendall {W}. Arguments nt_recv {W}. Arguments nt_monotonic {W}.

Section WithNetwork.
Context {W : Type} (net : Network W) (rec_limit : nat).

(** ** The monad: the bridge and the network as they are *)
Definition bstate : Type := Bridge * W.
Definition bridge (A : Type) : Type := bstate -> result A * bstate.
Definition bret {A} (a : A) : bridge A := fun s => (Ok a, s).
Definition blift {A} (r : result A) : bridge A := fun s => (r, s).
Definition bbind {A B} (m : bridge A) (f : A -> bridge B) : bridge B :=
  fun s => match m s with (Ok a, s') => f a s' | (Err e, s') => (Err e, s') end.
Definition bget : bridge Bridge := fun s => (Ok s.1, s).
Definition bset (f : Bridge -> Bridge) : bridge unit := fun s => (Ok tt, (f s.1, s.2)).
Definition bnet {A} (f : W -> result A * W) : bridge A := fun s => let '(r, w) := f s.2 in (r, (s.1, w)).
Definition bguard (b : bool) (e : exn) : bridge unit := blift (raise_if b e).

#[local] Notation "'let#' x := m 'in' k" := (bbind m (fun x => k)) (at level 10, x name, m at level 100, k at level 200).
#[local] Notation "m ;# k" := (bbind m (fun _ => k)) (at level 110, right associativity).

Definition set_buffer (b : pybytes) (x : Bridge) : Bridge :=
  mkBridge (br_shell_id x) (br_identity x) (br_adapter x) (br_capability x) (br_next_sequence x) (br_cwd x)
    (br_connected x) b (br_retry_index x) (br_retry_at x).
Definition set_connected (x : Bridge) : Bridge :=
  mkBridge (br_shell_id x) (br_identity x) (br_adapter x) (br_capability x) (br_next_sequence x) (br_cwd x)
    true (br_receive_buffer x) (br_retry_index x) (br_retry_at x).
Definition set_cwd (d : pystr) (x : Bridge) : Bridge :=
  mkBridge (br_shell_id x) (br_identity x) (br_adapter x) (br_capability x) (br_next_sequence x) (Some d)
    (br_connected x) (br_receive_buffer x) (br_retry_index x) (br_retry_at x).
Definition set_sequence (n : Z) (x : Bridge) : Bridge :=
  mkBridge (br_shell_id x) (br_identity x) (br_adapter x) (br_capability x) n (br_cwd x)
    (br_connected x) (br_receive_buffer x) (br_retry_index x) (br_retry_at x).

(** ** Connection *)

(** [close]: the sequence number stays. *)
Definition close_bridge (x : Bridge) : Bridge :=
  mkBridge (br_shell_id x) (br_identity x) (br_adapter x) None (br_next_sequence x) (br_cwd x)
    false [] (br_retry_index x) (br_retry_at x).

Definition _fail : bridge unit :=
  bset close_bridge ;#
  let# now := bnet (fun w => let '(t, w') := nt_monotonic net w in (Ok t, w')) in
  bset (fun x =>
    let delay := default 0 (_RETRY_DELAYS !! Nat.min (br_retry_index x) (length _RETRY_DELAYS - 1)) in
    mkBridge (br_shell_id x) (br_identity x) (br_adapter x) (br_capability x) (br_next_sequence x) (br_cwd x)
      (br_connected x) (br_receive_buffer x) (Nat.min (br_retry_index x + 1) (length _RETRY_DELAYS - 1)) (now + delay)).

Definition _connect : bridge unit :=
  let# x := bget in
  if br_connected x then bret tt else bnet (nt_connect net) ;# bset set_connected.

(** [while b"\n" not in self._receive_buffer]: a chunk is never empty, and the
    buffer is bounded, so the fuel is more than enough. *)
Fixpoint receive (fuel : nat) : bridge unit :=
  match fuel with
  | O => blift (Err (ValueError (u "response too large")))
  | S k =>
      let# x := bget in
      if char_in 10 (br_receive_buffer x) then bret tt
      else
        let room := MAX_RESPONSE_BYTES + 1 - len (br_receive_buffer x) in
        let# received := bnet (nt_recv net room) in
        let chunk := take (Z.to_nat room) received in
        bguard (bool_decide (chunk = [])) EOFError ;#
        let buffer := br_receive_buffer x ++ chunk in
        bset (set_buffer buffer) ;#
        bguard (MAX_RESPONSE_BYTES <? len buffer) (ValueError (u "response too large")) ;#
        receive k
  end.

Definition receive_fuel : nat := Z.to_nat MAX_RESPONSE_BYTES + 2.

(** [partition(b"\n")] of a buffer that holds a line end. *)
Definition first_line (buffer : pybytes) : pybytes * pybytes :=
  let n := default (length buffer) (find_char 10 buffer) in (take n buffer, drop (S n) buffer).

Definition request_bytes (request : pydict) : result pybytes :=
  let? text := json_dumps {| ensure_ascii := true; allow_nan := true |} (VDict request) in
  let? raw := encode_ascii text in
  Ok (raw ++ [10]).

Definition _exchange (request : pydict) : bridge pydict :=
  _connect ;#
  let# raw := blift (request_bytes request) in
  bguard (MAX_MESSAGE_BYTES <? len raw) (ValueError (u "request too large")) ;#
  bnet (nt_sendall net raw) ;#
  receive receive_fuel ;#
  let# x := bget in
  let '(line, remainder) := first_line (br_receive_buffer x) in
  bset (set_buffer remainder) ;#
  let# payload := blift (json_loads_bytes rec_limit line) in
  match payload with
  | VDict d => bret d
  | _ => blift (Err (ValueError (u "response must be an object")))
  end.

(** ** Requests *)
Definition register_request (x : Bridge) (cwd : pystr) : pydict :=
  [(u "schema_version", VInt 1); (u "operation", VStr (u "register")); (u "shell_id", VStr (br_shell_id x));
   (u "identity", _identity_dict (br_identity x)); (u "adapter", VStr (br_adapter x)); (u "cwd", VStr cwd);
   (u "sequence", VInt 0)].

(** The checks on the answer of a registration: the capability, and where to resume. *)
Definition register_answer (d : pydict) : result (pystr * Z) :=
  let fields := [u "schema_version"; u "ok"; u "response"; u "capability"; u "resume_sequence"] in
  raise_if (negb (set_eqb (dict_keys d) fields)) (ValueError (u "invalid register response")) ;?
  match dict_get_none d (u "capability") with
  | VStr capability =>
      raise_if (negb (py_eqb (dict_get_none d (u "schema_version")) (VInt 1)) ||
                match dict_get_none d (u "ok") with VBool true => false | _ => true end ||
                negb (py_eqb (dict_get_none d (u "response")) (VStr (u "register"))) ||
                (len capability <? 32) || (128 <? len capability))
        (ValueError (u "invalid register response")) ;?
      let resume := match dict_get_none d (u "resume_sequence") with
                    | VInt n => if n <? 0 then 0 else n
                    | VBool b => bool_int b
                    | _ => 0
                    end in
      Ok (capability, resume)
  | _ => Err (ValueError (u "invalid register response"))
  end.

Definition _register_bridge : bridge unit :=
  let# x := bget in
  match br_cwd x with
  | None => blift (Err (ValueError (u "registration requires cwd")))
  | Some cwd =>
      let# response := _exchange (register_request x cwd) in
      let# answer := blift (register_answer response) in
      bset (fun x => mkBridge (br_shell_id x) (br_identity x) (br_adapter x) (Some answer.1) (answer.2 + 1) (br_cwd x)
                       (br_connected x) (br_receive_buffer x) 0 0)
  end.

Definition _event_request (x : Bridge) (capability : pystr) (event : LocalEvent) : pydict :=
  [(u "schema_version", VInt 1); (u "operation", VStr (enum_value (le_type event)));
   (u "shell_id", VStr (br_shell_id x)); (u "capability", VStr capability);
   (u "identity", _identity_dict (br_identity x)); (u "sequence", VInt (br_next_sequence x))] ++
  match le_type event with
  | ET_PROMPT_READY | ET_CWD_CHANGED => [(u "cwd", opt_val VStr (le_cwd event))]
  | ET_COMMAND_STARTED =>
      [(u "command_sequence", opt_val VInt (le_command_sequence event));
       (u "command", opt_val VStr (le_command event))]
  | ET_COMMAND_FINISHED =>
      [(u "command_sequence", opt_val VInt (le_command_sequence event));
       (u "exit_status", opt_val VInt (le_exit_status event))]
  | ET_EXPLICIT_EXIT => []
  end.

Definition event_answer (expected : Z) : pydict :=
  [(u "schema_version", VInt 1); (u "ok", VBool true); (u "response", VStr (u "event")); (u "sequence", VInt expected)].

(** ** Frames *)

(** The exchange of one event: registers first if it must. *)
Definition send_event (event : LocalEvent) : bridge unit :=
  let# x := bget in
  (if bool_decide (br_capability x = None) then _register_bridge else bret tt) ;#
  let# x := bget in
  match br_capability x with
  | None => blift (Err AssertionError)
  | Some capability =>
      let# response := _exchange (_event_request x capability event) in
      bguard (negb (py_eqb (VDict response) (VDict (event_answer (br_next_sequence x)))))
        (ValueError (u "invalid event response")) ;#
      bset (set_sequence (br_next_sequence x + 1))
  end.

(** [except (OSError, EOFError, TimeoutError, ValueError, json.JSONDecodeError)] *)
Definition is_exchange_error (e : exn) : bool :=
  is_os_error e || is_value_error e || match e with EOFError => true | _ => false end.

(** [except (ValueError, TypeError, UnicodeError)] *)
Definition is_frame_error (e : exn) : bool := is_value_error e || match e with TypeError _ => true | _ => false end.

Definition process_frame (raw : pybytes) : bridge bool :=
  let# x := bget in
  match decode_local_frame rec_limit raw with
  | Err e => if is_frame_error e then bret false else blift (Err e)
  | Ok event =>
      if negb (str_eqb (le_shell_id event) (br_shell_id x)) then bret false
      else
        (match le_cwd event with Some d => bset (set_cwd d) | None => bret tt end) ;#
        let# x := bget in
        if bool_decide (br_cwd x = None) then bret false
        else
          let# now := bnet (fun w => let '(t, w') := nt_monotonic net w in (Ok t, w')) in
          if now <? br_retry_at x then bret false
          else fun s =>
            match send_event event s with
            | (Ok _, s') => (Ok true, s')
            | (Err e, s') => if is_exchange_error e then (_fail ;# bret false) s' else (Err e, s')
            end
  end.

(** ** The input stream *)

(** [stream.readline(n)]: what is read, and what is left. *)
Fixpoint readline (n : nat) (s : pybytes) : pybytes * pybytes :=
  match n, s with
  | S n', c :: s' => if c =? 10 then ([c], s') else let '(line, rest) := readline n' s' in (c :: line, rest)
  | _, _ => ([], s)
  end.

Definition read_limit : nat := Z.to_nat (MAX_LOCAL_FRAME_BYTES + 1).

(** [_discard_to_newline]: what is left, or none at the end of the stream. *)
Fixpoint _discard_to_newline (fuel : nat) (s : pybytes) : option pybytes :=
  match fuel with
  | O => None
  | S k =>
      let '(chunk, rest) := readline read_limit s in
      if bool_decide (chunk = []) then None
      else if ends_with [10] chunk then Some rest else _discard_to_newline k rest
  end.

(** The loop of [run]: the stream is finite, and every turn consumes some of it. *)
Fixpoint run_frames (fuel : nat) (s : pybytes) : bridge unit :=
  match fuel with
  | O => bret tt
  | S k =>
      let '(raw, rest) := readline read_limit s in
      if bool_decide (raw = []) then bret tt
      else if (len raw <=? MAX_LOCAL_FRAME_BYTES) && ends_with [10] raw then process_frame raw ;# run_frames k rest
      else if ends_with [10] raw then run_frames k rest
      else match _discard_to_newline (S (length rest)) rest with
           | None => bret tt
           | Some rest => run_frames k rest
           end
  end.

(** [run]: the connection is closed in any case. *)
Definition run (stream : pybytes) : bridge unit := fun s =>
  let '(r, (x, w)) := run_frames (S (length stream)) stream s in (r, (close_bridge x, w)).

End WithNetwork.
