(* ===== verification/BridgeProofs.v ===== *)
(** * The shell bridge: theorems

    Which frames of the input stream are processed, however the stream is
    chunked and whatever the service does. *)
From S2P Require Import Prelude PyText PyVal PyFloat Json Codec Model Shlex Classifier Protocol Bridge.

(** ** Lines *)

(** The lines of a stream that have ended, each with its line end. *)
Definition ended_lines (s : pybytes) : list pybytes := map (fun l => l ++ [10]) (removelast (split_on 10 s)).

(** The frames of a stream: its lines that fit. *)
Definition frames (s : pybytes) : list pybytes := filter (fun l => len l <= MAX_LOCAL_FRAME_BYTES) (ended_lines s).

Lemma frames_absent s : 10 ∉ s -> frames s = [].
Proof. intros Hs. unfold frames, ended_lines. by rewrite split_on_absent. Qed.

Lemma frames_line l s : 10 ∉ l ->
  frames (l ++ 10 :: s) = if len (l ++ [10]) <=? MAX_LOCAL_FRAME_BYTES then (l ++ [10]) :: frames s else frames s.
Proof.
  intros Hl. unfold frames, ended_lines. rewrite split_on_app //.
  pose proof (split_on_nonempty 10 s). destruct (split_on 10 s) as [|w ws] eqn:E; [done|].
  change (removelast (l :: w :: ws)) with (l :: removelast (w :: ws)). cbn [map]. rewrite filter_cons.
  case_decide as Hd; [by rewrite (proj2 (Z.leb_le _ _) Hd)|]. by rewrite (proj2 (Z.leb_gt _ _)); [lia|].
Qed.

(** The first line end of a stream, if there is one. *)
Lemma first_line_end (s : pybytes) : 10 ∉ s \/ exists l r, s = l ++ 10 :: r /\ 10 ∉ l.
Proof.
  induction s as [|c s IH]; [left; by intros ?%not_elem_of_nil|].
  destruct (decide (c = 10)) as [->|Hc].
  - right. exists [], s. split; [done|]. by intros ?%not_elem_of_nil.
  - destruct IH as [IH|(l & r & -> & Hl)]; [left|right; exists (c :: l), r; split; [done|]]; (apply not_elem_of_cons; split; [congruence|done]).
Qed.

(** What [readline] gives: a line that fits, or a chunk without a line end. *)
Lemma readline_line n l s : 10 ∉ l -> (length l < n)%nat -> readline n (l ++ 10 :: s) = (l ++ [10], s).
Proof.
  revert n. induction l as [|c l IH]; intros [|n] Hl Hn; cbn [length] in Hn; try lia; cbn [app readline]; [done|].
  apply not_elem_of_cons in Hl as [Hc Hl]. destruct (Z.eqb_spec c 10); [congruence|]. rewrite IH; [done|lia|done].
Qed.

Lemma readline_chunk n l s : 10 ∉ l -> length l = n -> readline n (l ++ s) = (l, s).
Proof.
  revert n. induction l as [|c l IH]; intros n Hl <-; cbn [length app]; [by destruct s|]. cbn [readline].
  apply not_elem_of_cons in Hl as [Hc Hl]. destruct (Z.eqb_spec c 10); [congruence|]. by rewrite IH.
Qed.

Lemma readline_rest n s : 10 ∉ s -> (length s <= n)%nat -> readline n s = (s, []).
Proof.
  revert n. induction s as [|c s IH]; intros [|n] Hs Hn; cbn [length] in Hn; try lia; try done. cbn [readline].
  apply not_elem_of_cons in Hs as [Hc Hs]. destruct (Z.eqb_spec c 10); [congruence|]. rewrite IH; [done|lia|done].
Qed.

Lemma ends_with_line l : ends_with [10] (l ++ [10]) = true.
Proof. unfold ends_with. by rewrite rev_app_distr. Qed.

Lemma ends_with_no_line l : 10 ∉ l -> ends_with [10] l = false.
Proof.
  intros Hl. unfold ends_with. destruct (rev l) as [|c r] eqn:E; [done|]. change ((10 =? c) && true = false).
  rewrite andb_true_r. apply Z.eqb_neq. intros <-. apply Hl. by rewrite list_elem_of_In in_rev E; left.
Qed.

(** A chunk that does not end its line: a prefix of the line as long as the limit. *)
Lemma long_line n l : (n <= length l)%nat -> 10 ∉ l -> exists a b, l = a ++ b /\ length a = n /\ 10 ∉ a /\ 10 ∉ b.
Proof.
  intros Hn Hl. exists (take n l), (drop n l). rewrite take_drop length_take. split; [done|]. split; [lia|].
  rewrite -(take_drop n l) in Hl. by apply not_elem_of_app in Hl.
Qed.

Lemma read_limit_pos : (0 < read_limit)%nat.
Proof. unfold read_limit, MAX_LOCAL_FRAME_BYTES. lia. Qed.

Lemma discard_line fuel l s : 10 ∉ l -> (length l < fuel)%nat -> _discard_to_newline fuel (l ++ 10 :: s) = Some s.
Proof.
  pose proof read_limit_pos as Hpos. revert l. induction fuel as [|k IH]; intros l Hl Hn; [lia|]. cbn [_discard_to_newline].
  destruct (decide (length l < read_limit)%nat) as [Hlt|Hge].
  - rewrite readline_line //. rewrite bool_decide_eq_false_2; [by destruct l|]. by rewrite ends_with_line.
  - destruct (long_line read_limit l ltac:(lia) Hl) as (a & b & -> & Ha & Hna & Hnb). rewrite -app_assoc readline_chunk //.
    rewrite bool_decide_eq_false_2; [by intros ->; simpl in Ha; lia|]. rewrite ends_with_no_line //.
    rewrite length_app in Hn. apply IH; [done|lia].
Qed.

Lemma discard_rest fuel s : 10 ∉ s -> _discard_to_newline fuel s = None.
Proof.
  pose proof read_limit_pos as Hpos. revert s. induction fuel as [|k IH]; intros s Hs; [done|]. cbn [_discard_to_newline].
  destruct (decide (length s <= read_limit)%nat) as [Hle|Hgt].
  - rewrite readline_rest //. case_bool_decide; [done|]. rewrite ends_with_no_line //. apply IH. by intros ?%not_elem_of_nil.
  - destruct (long_line read_limit s ltac:(lia) Hs) as (a & b & -> & Ha & Hna & Hnb). rewrite readline_chunk //.
    rewrite bool_decide_eq_false_2; [by intros ->; simpl in Ha; lia|]. rewrite ends_with_no_line //. by apply IH.
Qed.

(** ** Frames *)
Section WithNetwork.
Context {W : Type} (net : Network W) (rec_limit : nat).

Definition process_all (l : list pybytes) : bridge (W := W) unit :=
  foldr (fun raw k => bbind (process_frame net rec_limit raw) (fun _ => k)) (bret tt) l.

Lemma bbind_ext {A B} (m : bridge (W := W) A) (f g : A -> bridge B) s : (forall a s', f a s' = g a s') ->
  bbind m f s = bbind m g s.
Proof. intros Hfg. unfold bbind. destruct (m s) as [[]]; [apply Hfg|done]. Qed.

Lemma run_frames_eq fuel s : (length s < fuel)%nat -> forall st, run_frames net rec_limit fuel s st = process_all (frames s) st.
Proof.
  pose proof read_limit_pos as Hpos.
  assert (Hlimit : Z.of_nat read_limit = MAX_LOCAL_FRAME_BYTES + 1) by (unfold read_limit, MAX_LOCAL_FRAME_BYTES; lia).
  revert s. induction fuel as [|k IH]; intros s Hn st; [lia|]. cbn [run_frames].
  destruct (first_line_end s) as [Hs|(l & r & -> & Hl)].
  - rewrite frames_absent //. destruct (decide (length s <= read_limit)%nat) as [Hle|Hgt].
    + rewrite readline_rest //. case_bool_decide as He; [done|]. rewrite ends_with_no_line // andb_false_r.
      rewrite discard_rest; [by intros ?%not_elem_of_nil|done].
    + destruct (long_line read_limit s ltac:(lia) Hs) as (a & b & -> & Ha & Hna & Hnb). rewrite readline_chunk //.
      rewrite bool_decide_eq_false_2; [by intros ->; simpl in Ha; lia|]. rewrite ends_with_no_line // andb_false_r.
      by rewrite discard_rest.
  - rewrite frames_line //. rewrite length_app in Hn. cbn [length] in Hn.
    destruct (decide (length l < read_limit)%nat) as [Hlt|Hge].
    + rewrite readline_line //. rewrite bool_decide_eq_false_2; [by destruct l|]. rewrite ends_with_line andb_true_r.
      destruct (len (l ++ [10]) <=? MAX_LOCAL_FRAME_BYTES).
      * apply bbind_ext. intros _ st'. apply IH. lia.
      * apply IH. lia.
    + destruct (long_line read_limit l ltac:(lia) Hl) as (a & b & -> & Ha & Hna & Hnb). rewrite -app_assoc readline_chunk //.
      rewrite bool_decide_eq_false_2; [by intros ->; simpl in Ha; lia|]. rewrite ends_with_no_line // andb_false_r.
      rewrite length_app in Hn. rewrite discard_line; [done|rewrite length_app; lia|].
      rewrite (proj2 (Z.leb_gt _ _)); [|apply IH; lia]. unfold len. rewrite !length_app. simpl. lia.
Qed.

End WithNetwork.

