(* ===== verification/Sessions.v ===== *)
(** * Session discovery ([sessions.py])

    Which sessions of agent tools ran in a directory, read from the files those
    tools leave below the home directory.  The home directory is a tree of
    files; the two SQLite stores are their rows; a directory is listed in the
    order of its entries, and a recursive listing visits a directory before what
    is below it. *)
From S2P Require Import Prelude PyText PyVal PyFloat Json Codec Protocol.

(** ** The home directory *)
Inductive node :=
| NFile (content : result pybytes)         (* what opening and reading it gives *)
| NDir (entries : list (pystr * node)).

(** A row of a session table; [None] for the rows of a database that cannot be read. *)
Record Row := mkRow { row_id : pyval; row_cwd : pyval; row_title : pyval; row_updated_at : pyval }.

Record Home := mkHome {
  h_path : pystr;                           (* [str(home)] *)
  h_entries : list (pystr * node);
  h_opencode : option (option (list Row));  (* the database file, if it is one *)
  h_hermes : option (option (list Row));
  h_mtime : Z;                              (* [home.stat().st_mtime] *)
}.

Record SessionRecord := mkSession {
  tool : pystr;
  session_id : pystr;
  session_cwd : pystr;
  title : pystr;
  summary : pystr;
  first_activity : pystr;
  last_activity : pystr;
  record_count : Z;
  source_path : pystr;
}.

Definition lookup_entry (name : pystr) (entries : list (pystr * node)) : option node :=
  snd <$> find (fun e => str_eqb e.1 name) entries.

Fixpoint lookup_path (names : list pystr) (entries : list (pystr * node)) : option node :=
  match names with
  | [] => Some (NDir entries)
  | [n] => lookup_entry n entries
  | n :: rest => match lookup_entry n entries with Some (NDir es) => lookup_path rest es | _ => None end
  end.

(** The entries of a directory below home, if there is one. *)
Definition directory_at (names : list pystr) (h : Home) : option (list (pystr * node)) :=
  match lookup_path names (h_entries h) with Some (NDir es) => Some es | _ => None end.

(** [str(dir / name)] *)
Definition below (dir name : pystr) : pystr := dir ++ [47] ++ name.

(** Everything below a directory whose name passes a test, as [rglob]: name, path, node. *)
Fixpoint rglob_node (test : pystr -> bool) (dir : pystr) (n : node) : list (pystr * pystr * node) :=
  match n with
  | NFile _ => []
  | NDir entries =>
      flat_map (fun e => if test e.1 then [(e.1, below dir e.1, e.2)] else []) entries ++
      flat_map (fun e => rglob_node test (below dir e.1) e.2) entries
  end.

(** ** Python odds and ends *)
Definition truthy (v : pyval) : bool :=
  match v with
  | VNone => false
  | VBool b => b
  | VInt n => negb (n =? 0)
  | VFloat f => negb (float_is_int f 0)
  | VStr s => negb (bool_decide (s = []))
  | VList l => negb (bool_decide (length l = 0%nat))
  | VDict d => negb (bool_decide (length d = 0%nat))
  end.

(** [a or b] *)
Definition py_or (a b : pyval) : pyval := if truthy a then a else b.

Section Text.
(** [repr] of a list or dict, [str.casefold], and the characters of [\d]: tables of the interpreter. *)
Context (repr_container : pyval -> pystr) (casefold : pystr -> pystr) (uc_digit : Z -> bool) (rec_limit : nat).

(** [str(v)] *)
Definition py_str (v : pyval) : pystr :=
  match v with
  | VNone => u "None"
  | VBool b => if b then u "True" else u "False"
  | VInt n => str_of_int n
  | VFloat f => float_repr f
  | VStr s => s
  | VList _ | VDict _ => repr_container v
  end.

(** ** Patterns *)
Definition hex_lower (c : Z) : bool := is_digit c || ((97 <=? c) && (c <=? 102)).
Definition hex_any (c : Z) : bool := hex_lower (ascii_lower c).

Definition uuid_pattern (hex : Z -> bool) : re :=
  seqs [times 8 (Cls hex); lit 45; times 4 (Cls hex); lit 45; times 4 (Cls hex); lit 45; times 4 (Cls hex); lit 45;
        times 12 (Cls hex)].
Definition _UUID_RE : re := uuid_pattern hex_any.

Definition _CODEX_ROLLOUT_RE : re :=
  let d n := times n (Cls uc_digit) in
  seqs [word (u "rollout-"); d 4%nat; lit 45; d 2%nat; lit 45; d 2%nat; lit 84; d 2%nat; lit 45; d 2%nat; lit 45; d 2%nat;
        opt (seqs [lit 45; d 3%nat; opt (lit 90)]); opt (lit 45); uuid_pattern hex_lower; word (u ".jsonl"); at_end].

Definition _PI_SESSION_RE : re :=
  let d n := times n (Cls uc_digit) in
  seqs [d 4%nat; lit 45; d 2%nat; lit 45; d 2%nat; lit 84; plus (Cls (fun c => uc_digit c || (c =? 45))); lit 90; lit 95;
        uuid_pattern hex_lower; word (u ".jsonl"); at_end].

(** The UUID in front of the [.jsonl] at the end of a name. *)
Definition name_uuid (name : pystr) : pystr :=
  let stem := if ends_with [10] name then removelast name else name in
  take 36 (drop (length stem - 42) stem).

(** [_UUID_RE.search(s).group(0)] *)
Fixpoint first_uuid (s : pystr) : option pystr :=
  if prefix_match _UUID_RE s then Some (take 36 s)
  else match s with [] => None | _ :: s' => first_uuid s' end.

(** ** Scanning a session file *)

(** [bytes.strip] *)
Definition byte_space (c : Z) : bool := ((9 <=? c) && (c <=? 13)) || (c =? 32).
Definition byte_strip (s : pybytes) : pybytes := rev (drop_while byte_space (rev (drop_while byte_space s))).

(** The lines [readline] gives until it gives none. *)
Fixpoint file_lines (s : pybytes) : list pybytes :=
  match s with
  | [] => []
  | c :: s' =>
      if c =? 10 then [c] :: file_lines s'
      else match file_lines s' with
           | l :: ls => (c :: l) :: ls
           | [] => [[c]]
           end
  end.

(** One record of a file: [None] if the line holds no JSON object. *)
Definition line_record (line : pybytes) : result (option pydict) :=
  match byte_strip line with
  | [] => Ok None
  | stripped =>
      match json_loads_bytes rec_limit stripped with
      | Ok (VDict d) => Ok (Some d)
      | Ok _ => Ok None
      | Err JSONDecodeError => Ok None
      | Err e => Err e
      end
  end.

Definition item_text (v : pyval) : list pystr :=
  match v with
  | VDict d => match py_or (dict_get_none d (u "text")) (dict_get_none d (u "input_text")) with VStr t => [t] | _ => [] end
  | _ => []
  end.

Definition _extract_text (v : pyval) : pystr :=
  match v with
  | VStr s => s
  | VList l => join (u " ") (flat_map item_text l)
  | _ => []
  end.

Definition lstrip (s : pystr) : pystr := drop_while is_space s.

Definition _is_real_prompt (text : pystr) : bool :=
  match text with
  | [] => false
  | _ =>
      let stripped := lstrip text in
      if is_prefix (u "<environment_context") stripped || is_prefix (u "<") stripped then false
      else
        let lower := casefold (take 80 stripped) in
        if is_prefix (u "the following is the codex agent history") lower then false
        else if is_prefix (u "the following is the") lower then false
        else 3 <=? len (strip stripped)
  end.

Definition sub_dict (d : pydict) (k : pystr) : option pydict :=
  match dict_get_none d k with VDict p => Some p | _ => None end.

Definition payload_of (record : pydict) : pydict := default record (sub_dict record (u "payload")).

Definition is_none (v : pyval) : bool := match v with VNone => true | _ => false end.

(** The role of the speaker of a record. *)
Definition record_role (record payload : pydict) : pyval :=
  let role := py_or (dict_get_none payload (u "role")) (dict_get_none record (u "role")) in
  let role := match is_none role, sub_dict record (u "message") with
              | true, Some msg => dict_get_none msg (u "role")
              | _, _ => role
              end in
  if is_none role && py_eqb (dict_get_none record (u "type")) (VStr (u "user")) then VStr (u "user") else role.

(** The summary a record gives, if it is a prompt of the user. *)
Definition record_summary (record payload : pydict) : pystr :=
  if py_eqb (record_role record payload) (VStr (u "user")) then
    let text := _extract_text (dict_get_none payload (u "content")) in
    let text := match text, sub_dict record (u "message") with
                | [], Some msg => _extract_text (dict_get_none msg (u "content"))
                | _, _ => text
                end in
    if _is_real_prompt text then take 160 text else []
  else [].

Record Scan := mkScan {
  sc_session_id : option pystr;
  sc_cwd : option pystr;
  sc_summary : pystr;
  sc_first_ts : pystr;
  sc_last_ts : pystr;
  sc_count : Z;
}.

Definition empty_scan : Scan := mkScan None None [] [] [] 0.

Definition _SUMMARY_SCAN_LIMIT : nat := 40.

(** A string that is a UUID under one of the keys, the first of them. *)
Fixpoint first_string {A} (test : pystr -> option A) (keys : list pystr) (d : pydict) : option A :=
  match keys with
  | [] => None
  | k :: rest =>
      match (match dict_get_none d k with VStr s => test s | _ => None end) with
      | Some x => Some x
      | None => first_string test rest d
      end
  end.

Definition uuid_text (s : pystr) : option pystr := if fullmatch _UUID_RE s then Some s else None.

(** An absolute path, or the path of a [file://] address. *)
Definition without_scheme (s : pystr) : pystr := if is_prefix (u "file://") s then drop 7 s else s.
Definition path_text (s : pystr) : option pystr :=
  let s := without_scheme s in if is_prefix [47] s then Some s else None.

Definition nested_id (payload : pydict) : option pystr :=
  match dict_get_none (default [] (sub_dict payload (u "payload"))) (u "id") with
  | VStr s => uuid_text s
  | _ => None
  end.

Definition id_keys : list pystr := [u "sessionId"; u "session_id"; u "id"].
Definition cwd_keys : list pystr := [u "cwd"; u "directory"; u "workdir"; u "project_path"].

Definition or_else {A} (a b : option A) : option A := match a with Some _ => a | None => b end.

Definition stamped (record : pydict) (s : Scan) : pystr * pystr :=
  match dict_get_none record (u "timestamp") with
  | VStr ts => (match sc_first_ts s with [] => ts | first => first end, ts)
  | _ => (sc_first_ts s, sc_last_ts s)
  end.

(** What one record adds to the single-pass scan. *)
Definition scan_record (record : pydict) (s : Scan) : Scan :=
  let payload := payload_of record in
  mkScan (or_else (sc_session_id s) (or_else (first_string uuid_text id_keys payload) (nested_id payload)))
    (or_else (sc_cwd s) (first_string path_text cwd_keys payload))
    (match sc_summary s with [] => record_summary record payload | found => found end)
    (stamped record s).1 (stamped record s).2 (sc_count s).

Definition counted (s : Scan) : Scan :=
  mkScan (sc_session_id s) (sc_cwd s) (sc_summary s) (sc_first_ts s) (sc_last_ts s) (sc_count s + 1).

Definition scan_complete (s : Scan) : bool :=
  match sc_session_id s, sc_cwd s, sc_summary s with Some (_ :: _), Some (_ :: _), _ :: _ => true | _, _, _ => false end.

(** The loop of [_scan_session_full] over the lines it may read. *)
Fixpoint scan_lines (lines : list pybytes) (s : Scan) : result Scan :=
  match lines with
  | [] => Ok s
  | line :: rest =>
      let? record := line_record line in
      match record with
      | None => scan_lines rest (counted s)
      | Some d =>
          let s := scan_record d (counted s) in
          if scan_complete s then Ok s else scan_lines rest s
      end
  end.

(** The content of a file: [OSError] ends a scan with what there is, here nothing. *)
Definition with_content {A} (n : node) (none : A) (f : pybytes -> result A) : result A :=
  match n with
  | NFile (Ok content) => f content
  | NFile (Err e) => if is_os_error e then Ok none else Err e
  | NDir _ => Ok none
  end.

Definition _scan_session_full (n : node) : result Scan :=
  with_content n empty_scan (fun content => scan_lines (take _SUMMARY_SCAN_LIMIT (file_lines content)) empty_scan).

(** The loop of [_summarize_session_file]. *)
Definition summarize_record (record : pydict) (s : Scan) : Scan :=
  mkScan None None (match sc_summary s with [] => record_summary record (payload_of record) | found => found end)
    (stamped record s).1 (stamped record s).2 (sc_count s).

Fixpoint summarize_lines (lines : list pybytes) (s : Scan) : result Scan :=
  match lines with
  | [] => Ok s
  | line :: rest =>
      let? record := line_record line in
      summarize_lines rest (match record with None => counted s | Some d => summarize_record d (counted s) end)
  end.

Definition _summarize_session_file (n : node) : result Scan :=
  with_content n empty_scan (fun content => summarize_lines (take _SUMMARY_SCAN_LIMIT (file_lines content)) empty_scan).

(** ** The readers *)
Definition _make_file_record (name sid path cwd t : pystr) (n : node) : result SessionRecord :=
  let? s := _summarize_session_file n in
  Ok (mkSession name sid cwd t (sc_summary s) (sc_first_ts s) (sc_last_ts s) (sc_count s) path).

(** The first line of a rollout file, as the metadata of the session. *)
Definition codex_meta (n : node) : result (option (pydict * pydict)) :=
  match n with
  | NDir _ => Ok None
  | NFile (Err e) => if is_os_error e then Ok None else Err e
  | NFile (Ok content) =>
      match file_lines content with
      | [] => Ok None
      | line :: _ =>
          match json_loads_bytes rec_limit line with
          | Ok (VDict meta) =>
              Ok (if py_eqb (dict_get_none meta (u "type")) (VStr (u "session_meta"))
                  then (fun p => (meta, p)) <$> sub_dict meta (u "payload") else None)
          | Ok _ => Ok None
          | Err JSONDecodeError => Ok None
          | Err e => Err e
          end
      end
  end.

Definition codex_record (file : pystr * pystr * node) : result (list SessionRecord) :=
  let '(name, path, n) := file in
  if negb (search _CODEX_ROLLOUT_RE name) then Ok []
  else
    let? meta := codex_meta n in
    match meta with
    | None => Ok []
    | Some (_, payload) =>
        let sid := py_str (py_or (dict_get_none payload (u "id")) (VStr (name_uuid name))) in
        let cwd := without_scheme (py_str (py_or (dict_get_none payload (u "cwd")) (VStr []))) in
        let t := py_str (py_or (dict_get_none payload (u "thread_name")) (VStr [])) in
        let? r := _make_file_record (u "codex") sid path cwd t n in
        Ok [r]
    end.

Definition rollout_name (name : pystr) : bool :=
  is_prefix (u "rollout-") name && ends_with (u ".jsonl") name && (14 <=? len name).

(** [[f(x) for x in l]], for computations that give any number of records. *)
Fixpoint collect {A} (f : A -> result (list SessionRecord)) (l : list A) : result (list SessionRecord) :=
  match l with
  | [] => Ok []
  | x :: rest => let? here := f x in let? more := collect f rest in Ok (here ++ more)
  end.

Definition _read_codex_sessions (h : Home) : result (list SessionRecord) :=
  match directory_at [u ".codex"; u "sessions"] h with
  | None => Ok []
  | Some es => collect codex_record (rglob_node rollout_name (h_path h ++ u "/.codex/sessions") (NDir es))
  end.

Definition _slug_to_path (slug : pystr) : pystr :=
  let s := if is_prefix (u "--") slug then drop 2 slug else slug in
  let s := if ends_with (u "--") s then take (length s - 2) s else s in
  match s with [] => [47] | _ => 47 :: map (fun c => if c =? 45 then 47 else c) s end.

Definition pi_record (dir_name : pystr) (file : pystr * pystr * node) : result (list SessionRecord) :=
  let '(name, path, n) := file in
  if negb (search _PI_SESSION_RE name) then Ok []
  else
    let? s := _scan_session_full n in
    let cwd := match sc_cwd s with Some ((_ :: _) as c) => c | _ => _slug_to_path dir_name end in
    Ok [mkSession (u "pi") (default (name_uuid name) (sc_session_id s)) cwd [] (sc_summary s) (sc_first_ts s) (sc_last_ts s)
          (sc_count s) path].

Definition pi_directory (root : pystr) (e : pystr * node) : result (list SessionRecord) :=
  match e.2 with
  | NDir es => collect (pi_record e.1) (map (fun f => (f.1, below (below root e.1) f.1, f.2)) es)
  | NFile _ => Ok []
  end.

Definition _read_pi_sessions (h : Home) : result (list SessionRecord) :=
  match directory_at [u ".pi"; u "agent"; u "sessions"] h with
  | None => Ok []
  | Some es => collect (pi_directory (h_path h ++ u "/.pi/agent/sessions")) es
  end.

Definition row_record (name db : pystr) (id : pyval) (r : Row) : SessionRecord :=
  mkSession name (py_str id) (py_str (row_cwd r)) (py_str (py_or (row_title r) (VStr []))) [] []
    (py_str (py_or (row_updated_at r) (VStr []))) 0 db.

Definition _read_opencode_sessions (h : Home) : result (list SessionRecord) :=
  Ok (match h_opencode h with
      | Some (Some rows) =>
          map (fun r => row_record (u "opencode") (h_path h ++ u "/.local/share/opencode/opencode.db") (row_id r) r) rows
      | _ => []
      end).

(** The id of a session is taken from the directory column. *)
Definition _read_hermes_sessions (h : Home) : result (list SessionRecord) :=
  Ok (match h_hermes h with
      | Some (Some rows) => map (fun r => row_record (u "hermes") (h_path h ++ u "/.hermes/state.db") (row_cwd r) r) rows
      | _ => []
      end).

Definition _NON_AGENT_DOTDIRS : list pystr :=
  [u ".cache"; u ".config"; u ".local"; u ".gnupg"; u ".ssh"; u ".bashrc"; u ".mozilla"; u ".thunderbird"; u ".steam";
   u ".wine"; u ".npm"; u ".cargo"; u ".rustup"; u ".nvm"; u ".pyenv"; u ".rbenv"; u ".gradle"; u ".android"; u ".java";
   u ".docker"; u ".vscode"; u ".idea"; u ".git"; u ".pip"; u ".conda"; u ".virtualenvs"; u ".fontconfig"; u ".pki";
   u ".local/share"; u ".local/state"].

Definition generic_record (name : pystr) (file : pystr * pystr * node) : result (list SessionRecord) :=
  let '(file_name, path, n) := file in
  if negb (search _UUID_RE path) then Ok []
  else
    let? s := _scan_session_full n in
    match or_else (sc_session_id s) (first_uuid file_name) with
    | None => Ok []
    | Some sid => Ok [mkSession name sid (default [] (sc_cwd s)) [] (sc_summary s) (sc_first_ts s) (sc_last_ts s) (sc_count s) path]
    end.

Definition generic_directory (home : pystr) (e : pystr * node) : result (list SessionRecord) :=
  match e.2 with
  | NFile _ => Ok []
  | NDir _ =>
      if negb (is_prefix (u ".") e.1) || str_in e.1 _NON_AGENT_DOTDIRS then Ok []
      else
        let files := rglob_node (ends_with (u ".jsonl")) (below home e.1) e.2 in
        if 2000 <? len files then Ok [] else collect (generic_record (drop 1 e.1)) files
  end.

Definition _discover_generic_sessions (h : Home) : result (list SessionRecord) :=
  collect (generic_directory (h_path h)) (h_entries h).

(** ** Listing *)
Definition _READERS : list (pystr * (Home -> result (list SessionRecord))) :=
  [(u "codex", _read_codex_sessions); (u "pi", _read_pi_sessions); (u "opencode", _read_opencode_sessions);
   (u "hermes", _read_hermes_sessions)].

(** The records that are not listed yet: one for each tool and id, the first. *)
Definition same_session (a b : SessionRecord) : bool :=
  str_eqb (tool a) (tool b) && str_eqb (session_id a) (session_id b).

Definition add_new (records found : list SessionRecord) : list SessionRecord :=
  foldl (fun acc r => if existsb (same_session r) acc then acc else acc ++ [r]) records found.

Fixpoint read_tools (names : list pystr) (h : Home) (records : list SessionRecord) : result (list SessionRecord) :=
  match names with
  | [] => Ok records
  | n :: rest =>
      match find (fun kv => str_eqb kv.1 n) _READERS with
      | None => read_tools rest h records
      | Some (_, reader) => let? found := reader h in read_tools rest h (add_new records found)
      end
  end.

Definition list_sessions (wanted : option pystr) (h : Home) : result (list SessionRecord) :=
  let names := match wanted with Some ((_ :: _) as t) => [t] | _ => map fst _READERS end in
  let? records := read_tools names h [] in
  match wanted with
  | Some _ => Ok records
  | None => let? found := _discover_generic_sessions h in Ok (add_new records found)
  end.

Definition session_cache : Type := list ((pystr * Z) * list SessionRecord).

Definition _list_sessions_cached (cache : session_cache) (h : Home) : result (list SessionRecord * session_cache) :=
  match find (fun kv => str_eqb kv.1.1 (h_path h) && (kv.1.2 =? h_mtime h)) cache with
  | Some (_, records) => Ok (records, cache)
  | None => let? records := list_sessions None h in Ok (records, ((h_path h, h_mtime h), records) :: cache)
  end.

Definition latest_first (a b : SessionRecord) : bool := str_leb (last_activity b) (last_activity a).

Definition matching (target : pystr) (records : list SessionRecord) : list SessionRecord :=
  filter (fun r => negb (bool_decide (session_cwd r = [])) && str_eqb (normpath (session_cwd r)) target = true) records.

Definition find_sessions_for_cwd (cache : session_cache) (cwd : pystr) (wanted : option pystr) (h : Home)
  : result (list SessionRecord * session_cache) :=
  let? '(records, cache) :=
    match wanted with
    | None => _list_sessions_cached cache h
    | Some t => let? records := list_sessions (Some t) h in Ok (records, cache)
    end in
  Ok (sort_by latest_first (matching (normpath cwd) records), cache).

Definition find_active_session_id (environ : pystr -> option pystr) (wanted : pystr) : option pystr :=
  if str_eqb wanted (u "codex") then environ (u "CODEX_SESSION_ID") else None.

End Text.
