(* ===== verification/SessionsProofs.v ===== *)
(** * Session discovery: theorems

    What the search for the sessions of a directory returns, and that reading
    each file once finds the same summary as reading it twice. *)
From S2P Require Import Prelude PyText PyVal PyFloat Json Codec Protocol Sessions.

Section Text.
Context (repr_container : pyval -> pystr) (casefold : pystr -> pystr) (uc_digit : Z -> bool) (rec_limit : nat).

(** ** One session each *)
Definition session_key (r : SessionRecord) : pystr * pystr := (tool r, session_id r).

Lemma same_session_spec a b : same_session a b = true <-> session_key a = session_key b.
Proof.
  unfold same_session, session_key. rewrite andb_true_iff !str_eqb_eq.
  split; [by intros [-> ->]|by intros [= -> ->]].
Qed.

Lemma add_new_keys records found : NoDup (map session_key records) -> NoDup (map session_key (add_new records found)).
Proof.
  unfold add_new. revert records. induction found as [|r found IH]; intros records Hn; [done|]. cbn [foldl]. apply IH.
  destruct (existsb (same_session r) records) eqn:E; [done|]. rewrite map_app. apply NoDup_app. split; [done|].
  split; [|cbn; apply NoDup_singleton]. intros k (x & -> & Hx)%list_elem_of_fmap. cbn [map]. intros Hin%list_elem_of_singleton.
  assert (existsb (same_session r) records = true); [|congruence]. apply existsb_exists. exists x.
  split; [by apply list_elem_of_In|]. by apply same_session_spec.
Qed.

Lemma read_tools_keys names h records found : NoDup (map session_key records) ->
  read_tools repr_container casefold uc_digit rec_limit names h records = Ok found -> NoDup (map session_key found).
Proof.
  revert records. induction names as [|n names IH]; intros records Hn; cbn [read_tools]; [by intros [= <-]|].
  destruct (find _ _) as [[k reader]|]; [|by apply IH]. intros (l & _ & Hr)%rbind_Ok.
  eapply IH; [|exact Hr]. by apply add_new_keys.
Qed.

Lemma list_sessions_keys wanted h found : list_sessions repr_container casefold uc_digit rec_limit wanted h = Ok found ->
  NoDup (map session_key found).
Proof.
  unfold list_sessions. intros (records & Hr & Hf)%rbind_Ok. apply read_tools_keys in Hr; [|by constructor].
  destruct wanted; [by injection Hf as <-|]. apply rbind_Ok in Hf as (l & _ & [= <-]). by apply add_new_keys.
Qed.

Lemma latest_first_total a b : latest_first a b = true \/ latest_first b a = true.
Proof. apply str_leb_total. Qed.

Lemma latest_first_trans a b c : latest_first a b = true -> latest_first b c = true -> latest_first a c = true.
Proof. intros H1 H2. exact (str_leb_trans _ _ _ H2 H1). Qed.


(** ** Reading a file once *)

(** Both scanners see a prefix of the records; what the single pass leaves out
    cannot change a summary it has found. *)
Lemma summarize_found lines s b : sc_summary s <> [] -> summarize_lines casefold rec_limit lines s = Ok b ->
  sc_summary b = sc_summary s.
Proof.
  revert s. induction lines as [|line lines IH]; intros s Hs; cbn [summarize_lines]; [by intros [= <-]|].
  intros (record & _ & Hr)%rbind_Ok. destruct record as [d|].
  - rewrite (IH (summarize_record casefold d (counted s)) ltac:(cbn; by destruct (sc_summary s)) Hr).
    cbn. by destruct (sc_summary s).
  - by rewrite (IH (counted s) Hs Hr).
Qed.

Lemma scans_agree lines s t a b : sc_summary s = sc_summary t ->
  scan_lines casefold rec_limit lines s = Ok a -> summarize_lines casefold rec_limit lines t = Ok b ->
  sc_summary a = sc_summary b.
Proof.
  revert s t. induction lines as [|line lines IH]; intros s t Hst; cbn [scan_lines summarize_lines].
  - by intros [= <-] [= <-].
  - intros (record & Hrec & Ha)%rbind_Ok (record' & Hrec' & Hb)%rbind_Ok.
    rewrite Hrec in Hrec'. injection Hrec' as <-. destruct record as [d|].
    + assert (Hsum : sc_summary (scan_record casefold d (counted s)) = sc_summary (summarize_record casefold d (counted t)))
        by (cbn; by rewrite Hst).
      destruct (scan_complete (scan_record casefold d (counted s))) eqn:E; [|exact (IH _ _ Hsum Ha Hb)].
      injection Ha as <-. rewrite Hsum. symmetry. eapply summarize_found; [|exact Hb]. rewrite -Hsum.
      unfold scan_complete in E. destruct (sc_session_id _) as [[]|]; try done. destruct (sc_cwd _) as [[]|]; try done.
      by destruct (sc_summary (scan_record casefold d (counted s))).
    + exact (IH _ _ (Hst : sc_summary (counted s) = sc_summary (counted t)) Ha Hb).
Qed.

(** Reading a session file in one pass, which stops as soon as an id, a
    directory and a prompt are known, gives the summary that reading it for the
    summary alone gives. *)
Theorem single_pass_summary n a b : _scan_session_full casefold rec_limit n = Ok a ->
  _summarize_session_file casefold rec_limit n = Ok b -> sc_summary a = sc_summary b.
Proof.
  unfold _scan_session_full, _summarize_session_file, with_content. destruct n as [[content|e]|entries].
  - by apply scans_agree.
  - destruct (is_os_error e); by intros [= <-] [= <-].
  - by intros [= <-] [= <-].
Qed.

End Text.

(** ** Witnesses *)
Definition no_repr (_ : pyval) : pystr := u "...".
Definition claude_lines : pybytes :=
  let q := [34] in
  let field k v := q ++ u k ++ q ++ u ":" ++ q ++ u v ++ q in
  u "{" ++ field "cwd"%string "/work/x"%string ++ u "," ++ field "sessionId"%string "01234567-89ab-cdef-0123-456789abcdef"%string ++
  u "," ++ field "timestamp"%string "2026-01-02"%string ++ u "}" ++ [10] ++
  u "{" ++ field "type"%string "user"%string ++ u "," ++ field "content"%string "fix the tests"%string ++ u "," ++
  field "timestamp"%string "2026-01-03"%string ++ u "}" ++ [10] ++ u "garbage" ++ [10].
Definition claude_home : Home :=
  mkHome (u "/home/u")
    [(u ".claude", NDir [(u "p", NDir [(u "01234567-89ab-cdef-0123-456789abcdef.jsonl", NFile (Ok claude_lines))])])]
    None None 5.


Lemma single_pass_summary_witness : exists a b,
  _scan_session_full id 16 (NFile (Ok claude_lines)) = Ok a /\
  _summarize_session_file id 16 (NFile (Ok claude_lines)) = Ok b /\
  sc_count a = 2 /\ sc_count b = 3 /\ sc_summary a = sc_summary b.
Proof.
  destruct (_scan_session_full id 16 (NFile (Ok claude_lines))) as [a|] eqn:Ea; [|exfalso; vm_compute in Ea; discriminate Ea].
  destruct (_summarize_session_file id 16 (NFile (Ok claude_lines))) as [b|] eqn:Eb; [|exfalso; vm_compute in Eb; discriminate Eb].
  exists a, b. split; [reflexivity|]. split; [reflexivity|].
  split; [vm_compute in Ea; by injection Ea as <-|]. split; [vm_compute in Eb; by injection Eb as <-|].
  exact (single_pass_summary id 16 (NFile (Ok claude_lines)) a b Ea Eb).
Defined.
