(* ===== verification/Server.v ===== *)
(** * The service ([server.py])

    One request at a time against the engine, the checkpoint manager and the
    store.  A handler returns a response or an exception, and the server it
    leaves behind.  Handlers that release the dispatch lock are cut where they
    do: a restore is prepared, launched and recorded in three steps, a snapshot
    request waits between its two. *)
From S2P Require Import Prelude PyText PyVal PyFloat Json Codec Model Shlex Classifier Protocol.
From S2P Require Import Engine Resume Recovery Store Checkpoint.

(** ** State and environment *)
Record Server := mkServer {
  sv_state : EngineState;
  sv_checkpoints : CheckpointManager;
  sv_store : StoreState;
  sv_cache : probe_cache;                   (* the help texts [adapters/resume.py] remembers *)
}.

(** What does not change while the service runs: the arguments of [TermRecallServer]. *)
Record Setup := mkSetup {
  su_uid : Z;
  su_adapter : option TerminalAdapter;
  su_boot_id : pystr;
  su_home : posix_path;
  su_probe : ProcessIdentity -> ProcessProbe;
  su_world : World;
  su_rec_limit : nat;                       (* the interpreter's recursion limit *)
}.

(** What the clocks and the capability factory answer while a request is served. *)
Record Moment := mkMoment {
  at_clock : Z;
  at_time : pyfloat;
  at_capability : pystr;
}.

(** ** The monad *)
Definition serve (A : Type) : Type := Server -> result A * Server.

Definition vret {A} (a : A) : serve A := fun s => (Ok a, s).
Definition vlift {A} (r : result A) : serve A := fun s => (r, s).
Definition vbind {A B} (m : serve A) (f : A -> serve B) : serve B :=
  fun s => match m s with (Ok a, s') => f a s' | (Err e, s') => (Err e, s') end.
Definition vcatch {A} (m : serve A) (h : exn -> serve A) : serve A :=
  fun s => match m s with (Ok a, s') => (Ok a, s') | (Err e, s') => h e s' end.
Definition vread {A} (f : Server -> A) : serve A := fun s => (Ok (f s), s).

Declare Scope serve_scope.
Delimit Scope serve_scope with serve.
Notation "'let@' x := m 'in' k" := (vbind m (fun x => k))
  (at level 10, x name, m at level 100, k at level 200) : serve_scope.
Notation "'let@' ' p := m 'in' k" := (vbind m (fun y => match y with p => k end))
  (at level 10, p pattern, m at level 100, k at level 200) : serve_scope.
#[local] Open Scope serve_scope.

Definition set_state (x : EngineState) : serve unit := fun s =>
  (Ok tt, mkServer x (sv_checkpoints s) (sv_store s) (sv_cache s)).

(** [await self.checkpoints.<operation>(...)] *)
Definition on_checkpoints {A} (m : CheckpointManager -> result (A * CheckpointManager)) : serve A := fun s =>
  match m (sv_checkpoints s) with
  | Ok (a, c) => (Ok a, mkServer (sv_state s) c (sv_store s) (sv_cache s))
  | Err e => (Err e, s)
  end.

(** [await asyncio.to_thread(self.store.<operation>, ...)] *)
Definition on_store {A} (m : store A) : serve A := fun s =>
  let '(r, st) := m (sv_store s) in (r, mkServer (sv_state s) (sv_checkpoints s) st (sv_cache s)).

(** A computation that may remember help texts. *)
Definition on_cache {A} (m : probe_cache -> result (A * probe_cache)) : serve A := fun s =>
  match m (sv_cache s) with
  | Ok (a, c) => (Ok a, mkServer (sv_state s) (sv_checkpoints s) (sv_store s) c)
  | Err e => (Err e, s)
  end.

Definition mark_changed (generation clock : Z) : serve unit :=
  on_checkpoints (fun m => let? m' := mark_dirty m generation clock in Ok (tt, m')).

(** ** Errors *)
Definition _error (code : ErrorCode) : ServiceResponse := error_response code.

(** [except (OSError, ValueError)] *)
Definition is_persistence_error (e : exn) : bool := is_os_error e || is_value_error e.

(** [except (OSError, ValueError): return _error(PERSISTENCE_FAILED)] *)
Definition or_not_saved {A} (m : serve A) (k : A -> serve ServiceResponse) : serve ServiceResponse :=
  let@ r := vcatch (let@ a := m in vret (inl a))
              (fun e => if is_persistence_error e then vret (inr tt) else vlift (Err e)) in
  match r with
  | inl a => k a
  | inr _ => vret (_error PERSISTENCE_FAILED)
  end.

(** [str(exc)] of the exceptions the engine raises. *)
Definition exn_text (e : exn) : pystr :=
  match e with ValueError m | UnsupportedSchemaVersion m | ResponseEncodingError m => m | _ => [] end.

(** The code of an event the engine refuses, by the wording of its exception. *)
Definition event_error_code (message : pystr) : ErrorCode :=
  if contains (u "sequence") message then SEQUENCE_REJECTED
  else if contains (u "registration") message || contains (u "authority") message ||
          contains (u "identity") message then UNAUTHORIZED
  else INVALID_REQUEST.

(** ** Restore attempts in progress *)
Record Pending := mkPending {
  pd_record : RecoveryRecord;
  pd_selected : list pystr;
  pd_approved : list pystr;
  pd_source : option pystr;
}.

Section Handlers.
Context `{Unicode} (env : Setup).
#[local] Notation rec_limit := (su_rec_limit env).

(** ** Shell lifecycle *)
Definition dispatch_register (request : RegisterRequest) (now : Moment) (peer_pid : option Z)
  : serve ServiceResponse :=
  let@ state := vread sv_state in
  match register_shell state request (at_capability now) peer_pid with
  | Err e => if is_value_error e then vret (_error INVALID_REQUEST) else vlift (Err e)
  | Ok (updated, capability) =>
      let@ _ := mark_changed (es_dirty_generation updated) (at_clock now) in
      let@ _ := set_state updated in
      let@ registration := vlift (result_of_option
        (es_registrations updated !! reg_shell_id request) KeyError) in
      vret (RegisterResponse capability (rg_last_sequence registration))
  end.

Definition dispatch_event (request : EventRequest) (now : Moment) : serve ServiceResponse :=
  let@ state := vread sv_state in
  match apply_event state request with
  | Err e => if is_value_error e then vret (_error (event_error_code (exn_text e))) else vlift (Err e)
  | Ok updated =>
      let@ _ := mark_changed (es_dirty_generation updated) (at_clock now) in
      let@ _ := set_state updated in
      vret (EventResponse (ev_sequence request))
  end.

(** ** Status and snapshots *)
Definition recovery_count : serve Z :=
  vcatch
    (let@ recovery := on_store (load_recovery rec_limit) in
     vret (match recovery with
           | Some r => Z.max 0 (len (items r) - len (completed_item_ids r))
           | None => 0
           end))
    (fun _ => vret 0).

Definition dispatch_status : serve ServiceResponse :=
  let@ st := vread (fun s => status (sv_checkpoints s)) in
  let@ count := recovery_count in
  let@ diagnostics := vread (fun s => map (fun _ => sanitize) (s_diagnostics (sv_store s))) in
  let@ registered := vread (fun s => Z.of_nat (size (es_registrations (sv_state s)))) in
  vret (StatusResp (mkStatus true registered (cs_dirty_generation st) (cs_durable_generation st)
    (cs_write_active st) (bool_decide (cs_last_error st <> None)) ((fun _ => sanitize) <$> cs_last_error st)
    count diagnostics)).

Definition snapshot_answer (required : Z) (st : CheckpointStatus) : ServiceResponse :=
  if cs_durable_generation st <? required then _error PERSISTENCE_FAILED
  else SnapshotResponse (cs_durable_generation st).

(** A snapshot request up to the wait of [flush]: an answer, or what it waits
    for (the generation the client is owed, and the one flushed). *)
Definition snapshot_begin : serve (ServiceResponse + Z * Z) :=
  let@ required := vread (fun s => es_dirty_generation (sv_state s)) in
  let@ flushed := on_checkpoints flush_begin in
  vret (match flushed with
        | inl st => inl (snapshot_answer required st)
        | inr target => inr (required, target)
        end).

Definition snapshot_end (required target : Z) : serve ServiceResponse :=
  let@ m := vread sv_checkpoints in
  let@ st := vlift (flush_end m target) in
  vret (snapshot_answer required st).

(** ** Listing what can be restored *)

(** [" ".join(build_resume_argv(match, session_id))], empty if it is refused. *)
Definition resume_command_text (m : ResumeMatch) (session_id : option pystr) : result pystr :=
  match build_resume_argv m session_id with
  | Ok words => Ok (join (u " ") words)
  | Err e => if is_value_error e then Ok [] else Err e
  end.

(** The session to resume, the summary shown and how many sessions there are. *)
Definition view_session (executable cwd : pystr) : result (option pystr * pystr * Z) :=
  let found :=
    let? live := w_active_session (su_world env) executable in
    let? matches := w_sessions (su_world env) cwd in
    Ok (match live, matches with
        | Some s, _ => Some s
        | None, m :: _ => Some (sm_session_id m)
        | None, [] => None
        end,
        match matches with m :: _ => sm_summary m | [] => [] end, len matches) in
  match found with
  | Ok r => Ok r
  | Err e => if is_store_error e then Ok (None, [], 0) else Err e
  end.

(** The executable of a recorded command, empty if it does not parse. *)
Definition view_executable (command : CommandRecord) : result pystr :=
  match executable command with
  | Some ((_ :: _) as text) =>
      if active command then
        match _parse_one_simple_command text None with
        | Ok p => Ok (pc_executable p)
        | Err e => if is_value_error e then Ok [] else Err e
        end
      else Ok []
  | _ => Ok []
  end.

Definition view_resume (cache : probe_cache) (i : RecoveryItem) (name : pystr)
  : result ((pystr * pystr * Z) * probe_cache) :=
  let? '(found, cache) :=
    if bool_decide (name = []) then Ok (None, cache)
    else find_resume_adapter (w_which (su_world env)) (w_help (su_world env)) cache name in
  match found with
  | None => Ok ([], [], 0, cache)
  | Some m =>
      let? '(session_id, summary, count) := view_session name (path_str (item_directory i)) in
      let? text := resume_command_text m session_id in
      Ok (text, summary, count, cache)
  end.

Definition _recovery_view (cache : probe_cache) (i : RecoveryItem) : result (RecoveryItemView * probe_cache) :=
  let? shown :=
    match command (item_shell i) with
    | Some c => if item_replay_eligible i then let? d := from_command_record c in Ok (Some d) else Ok None
    | None => Ok None
    end in
  let? name := match command (item_shell i) with Some c => view_executable c | None => Ok [] end in
  let? '(text, summary, count, cache) := view_resume cache i name in
  let? reason := safe_recovery_reason (item_reason i) in
  Ok (mkView (item_id i) (shell_id (item_shell i)) reason (item_level i) (path_str (item_directory i))
        ((fun _ => sanitize) <$> item_warning i) shown (item_replay_eligible i) text summary count, cache).

Fixpoint recovery_views (its : list RecoveryItem) (cache : probe_cache)
  : result (list RecoveryItemView * probe_cache) :=
  match its with
  | [] => Ok ([], cache)
  | i :: rest =>
      let? '(v, cache) := _recovery_view cache i in
      let? '(vs, cache) := recovery_views rest cache in
      Ok (v :: vs, cache)
  end.

Definition _validate_workspace (record : option RecoveryRecord) (workspace : pystr)
  : ServiceResponse + RecoveryRecord :=
  match record with
  | Some r => if str_eqb (workspace_id r) workspace then inr r else inl (_error WORKSPACE_MISMATCH)
  | None => inl (_error WORKSPACE_MISMATCH)
  end.

(** [outcome.kind in (SKIP, FAILURE) and outcome.item_id not in record.completed_item_ids] *)
Definition is_retryable (record : RecoveryRecord) (o : Outcome) : bool :=
  (bool_decide (out_kind o = SKIP) || bool_decide (out_kind o = FAILURE)) &&
  negb (str_in (out_item_id o) (completed_item_ids record)).

Definition find_attempt (record : RecoveryRecord) (attempt : pystr) : option RestoreAttempt :=
  find (fun a => str_eqb (attempt_id a) attempt) (attempts record).

Definition open_item_ids (record : RecoveryRecord) : list pystr :=
  filter (fun i => str_in i (completed_item_ids record) = false) (map rec_item_id (items record)).

(** Which items a listing shows: the open ones, or those an attempt left over. *)
Definition included_ids (record : RecoveryRecord) (request : RestoreListRequest) : ServiceResponse + list pystr :=
  match rl_workspace_id request with
  | Some workspace =>
      match _validate_workspace (Some record) workspace with
      | inl mismatch => inl mismatch
      | inr _ =>
          match (a ← rl_attempt_id request; find_attempt record a) with
          | None => inl (_error ATTEMPT_MISMATCH)
          | Some source =>
              match filter (fun o => is_retryable record o = true) (outcomes source) with
              | [] => inl (_error ATTEMPT_MISMATCH)
              | remaining => inr (map out_item_id remaining)
              end
          end
      end
  | None => inr (open_item_ids record)
  end.

(** The record to list: the stored one, or a new one for what the snapshot offers. *)
Definition listed_record : serve (ServiceResponse + RecoveryRecord * list pystr) :=
  let@ record := on_store (load_recovery rec_limit) in
  match record with
  | Some r => vret (inr (r, []))
  | None =>
      let@ state := vread sv_state in
      let@ workspace := vlift (reconcile (su_world env) (es_snapshot state) (su_boot_id env) (su_probe env)
                                 (su_home env)) in
      match workspace with
      | None => vret (inl (RestoreListResponse None [] []))
      | Some x =>
          match ws_items x with
          | [] => vret (inl (RestoreListResponse None [] (map (fun _ => sanitize) (ws_diagnostics x))))
          | _ :: _ =>
              let@ candidate := vlift (record_from_workspace x (es_snapshot state)) in
              let@ _ := on_store (write_recovery rec_limit candidate) in
              let@ written := on_store (load_recovery rec_limit) in
              vret (match written with
                    | Some r => inr (r, ws_diagnostics x)
                    | None => inl (RestoreListResponse None [] [])
                    end)
          end
      end
  end.

Definition _restore_list (request : RestoreListRequest) : serve ServiceResponse :=
  or_not_saved
    (let@ found := listed_record in
     match found with
     | inl response => vret response
     | inr (record, diagnostics) =>
         match included_ids record request with
         | inl response => vret response
         | inr included =>
             let@ workspace := vlift (workspace_from_record (su_world env) record (su_home env)) in
             let@ views := on_cache (recovery_views
               (filter (fun i => str_in (item_id i) included = true) (ws_items workspace))) in
             vret (RestoreListResponse (Some (workspace_id record)) views (map (fun _ => sanitize) diagnostics))
         end
     end)
    vret.

(** ** Restoring *)
Definition outcome_view (o : Outcome) : result OutcomeView :=
  let? message := if str_eqb (out_message o) (u "restored") then catalog (out_message o) else Ok sanitize in
  Ok (mkOutcomeView (out_item_id o) (out_kind o) message).

Definition _result (record : RecoveryRecord) (attempt : pystr) (outs : list Outcome) : result ServiceResponse :=
  let? views := rmap outcome_view outs in
  Ok (RestoreResultResponse (workspace_id record) attempt views (open_item_ids record)).

(** The stored attempt of the same selection and approvals, the latest first. *)
Definition _matching_attempt (record : RecoveryRecord) (selected approved : list pystr)
  : result (option RestoreAttempt) :=
  match su_adapter env with
  | None => Ok None
  | Some adapter =>
      let? expected := derive_attempt_id (workspace_id record) selected approved adapter None in
      Ok (find (fun a => str_eqb (attempt_id a) expected &&
                         bool_decide (sorted_strs (selected_item_ids a) = sorted_strs selected) &&
                         bool_decide (sorted_strs (approved_item_ids a) = sorted_strs approved))
            (rev (attempts record)))
  end.

Definition all_completed (record : RecoveryRecord) : bool :=
  set_eqb (completed_item_ids record) (map rec_item_id (items record)).

(** A request whose items are all completed is answered from the record. *)
Definition answer_again (record : RecoveryRecord) (request : RestoreExecuteRequest) (now : Moment)
  : serve ServiceResponse :=
  let selected := re_selected_item_ids request in
  let@ prior := vlift (_matching_attempt record selected (re_approved_item_ids request)) in
  match prior with
  | None => vret (_error UNKNOWN_ITEM)
  | Some attempt =>
      or_not_saved
        (if all_completed record
         then on_store (complete_or_discard rec_limit (workspace_id record) false (at_time now)) else vret tt)
        (fun _ => vlift (_result record (attempt_id attempt)
           (filter (fun o => str_in (out_item_id o) selected = true) (outcomes attempt))))
  end.

(** [_restore_execute] under the dispatch lock. *)
Definition execute_begin (request : RestoreExecuteRequest) (now : Moment) : serve (ServiceResponse + Pending) :=
  let@ loaded := vcatch (let@ r := on_store (load_recovery rec_limit) in vret (inr r))
    (fun e => if is_persistence_error e then vret (inl (_error PERSISTENCE_FAILED)) else vlift (Err e)) in
  match loaded with
  | inl response => vret (inl response)
  | inr loaded =>
      match _validate_workspace loaded (re_workspace_id request) with
      | inl mismatch => vret (inl mismatch)
      | inr record =>
          let selected := re_selected_item_ids request in
          if negb (nodupb selected) || negb (subsetb selected (map rec_item_id (items record))) ||
             negb (subsetb (re_approved_item_ids request) selected)
          then vret (inl (_error UNKNOWN_ITEM))
          else
            match filter (fun i => str_in i (completed_item_ids record) = false) selected with
            | [] => let@ response := answer_again record request now in vret (inl response)
            | effective =>
                vret (inr (mkPending record effective
                  (filter (fun i => str_in i effective = true) (re_approved_item_ids request)) None))
            end
      end
  end.

(** [_restore_retry] under the dispatch lock. *)
Definition retry_begin (request : RestoreRetryRequest) : serve (ServiceResponse + Pending) :=
  let@ loaded := vcatch (let@ r := on_store (load_recovery rec_limit) in vret (inr r))
    (fun e => if is_persistence_error e then vret (inl (_error PERSISTENCE_FAILED)) else vlift (Err e)) in
  match loaded with
  | inl response => vret (inl response)
  | inr loaded =>
      match _validate_workspace loaded (rr_workspace_id request) with
      | inl mismatch => vret (inl mismatch)
      | inr record =>
          match find_attempt record (rr_attempt_id request) with
          | None => vret (inl (_error ATTEMPT_MISMATCH))
          | Some source =>
              let retryable := map out_item_id (filter (fun o => is_retryable record o = true) (outcomes source)) in
              vret (if negb (subsetb (rr_approved_item_ids request) retryable) then inl (_error UNKNOWN_ITEM)
                    else match retryable with
                         | [] => inl (_error ATTEMPT_MISMATCH)
                         | _ => inr (mkPending record retryable (rr_approved_item_ids request)
                                       (Some (rr_attempt_id request)))
                         end)
          end
      end
  end.

(** The handlers at the end of [_run_attempt]. *)
Definition attempt_error {A} (e : exn) : serve (ServiceResponse + A) :=
  vret (inl (_error (if is_persistence_error e then PERSISTENCE_FAILED else INTERNAL_ERROR))).

Definition truncate_outcome (o : Outcome) : result Outcome :=
  new_Outcome (out_item_id o) (out_kind o) (take (Z.to_nat MAX_OUTCOME_MESSAGE_CHARS) (out_message o)).

(** [_run_attempt] up to the commit: the terminals are launched without the lock. *)
Definition attempt_launch (p : Pending) : serve (ServiceResponse + RestoreAttempt * list Outcome) :=
  match su_adapter env with
  | None => vret (inl (_error ADAPTER_UNAVAILABLE))
  | Some adapter =>
      match ad_detect adapter with
      | Ok true =>
          vcatch
            (let@ '(attempt, actions) := on_cache (build_attempt (su_world env) (pd_record p) (pd_selected p)
               (pd_approved p) adapter (pd_source p) (su_home env)) in
             let@ raw := vlift (ad_execute adapter actions (attempt_id attempt)) in
             let ids := map out_item_id raw in
             if negb (nodupb ids) || negb (set_eqb ids (pd_selected p)) then vret (inl (_error INTERNAL_ERROR))
             else
               let@ outs := vlift (rmap truncate_outcome raw) in
               vret (inr (attempt, outs)))
            attempt_error
      | _ => vret (inl (_error ADAPTER_UNAVAILABLE))
      end
  end.

(** The rest of [_run_attempt], under the lock again. *)
Definition attempt_commit (p : Pending) (attempt : RestoreAttempt) (outs : list Outcome) (now : Moment)
  : serve ServiceResponse :=
  let@ r := vcatch
    (let@ updated := on_store (commit_outcomes rec_limit (workspace_id (pd_record p)) attempt outs) in
     let@ _ := (if all_completed updated
                then on_store (complete_or_discard rec_limit (workspace_id (pd_record p)) false (at_time now))
                else vret tt) in
     let@ response := vlift (_result updated (attempt_id attempt) outs) in
     vret (inr response))
    attempt_error in
  vret (match r with inl response => response | inr response => response end).

Definition _run_attempt (p : Pending) (now : Moment) : serve ServiceResponse :=
  let@ launched := attempt_launch p in
  match launched with
  | inl response => vret response
  | inr (attempt, outs) => attempt_commit p attempt outs now
  end.

Definition run_if_pending (m : serve (ServiceResponse + Pending)) (now : Moment) : serve ServiceResponse :=
  let@ started := m in
  match started with
  | inl response => vret response
  | inr p => _run_attempt p now
  end.

Definition _restore_execute (request : RestoreExecuteRequest) (now : Moment) : serve ServiceResponse :=
  run_if_pending (execute_begin request now) now.

Definition _restore_retry (request : RestoreRetryRequest) (now : Moment) : serve ServiceResponse :=
  run_if_pending (retry_begin request) now.

Definition _discard (request : DiscardRequest) (now : Moment) : serve ServiceResponse :=
  or_not_saved (on_store (load_recovery rec_limit)) (fun loaded =>
  match _validate_workspace loaded (dr_workspace_id request) with
  | inl mismatch => vret mismatch
  | inr _ =>
      or_not_saved (on_store (complete_or_discard rec_limit (dr_workspace_id request) true (at_time now)))
        (fun _ => vret (DiscardResponse (dr_workspace_id request) true))
  end).

(** ** One request *)

(** What a request has become when the dispatch lock is released. *)
Inductive progress :=
| Replied (response : ServiceResponse)
| WaitFlush (required target : Z)          (* [flush] waits for the checkpoint loop *)
| Starting (p : Pending).                  (* the terminals are to be launched *)

(** [_dispatch] and [_dispatch_workspace_operation], up to their first wait. *)
Definition _dispatch (request : ServiceRequest) (now : Moment) (peer_pid : option Z) : serve progress :=
  match request with
  | RegisterReq r => let@ x := dispatch_register r now peer_pid in vret (Replied x)
  | EventReq r => let@ x := dispatch_event r now in vret (Replied x)
  | StatusReq => let@ x := dispatch_status in vret (Replied x)
  | SnapshotReq =>
      let@ x := snapshot_begin in
      vret (match x with inl response => Replied response | inr (required, target) => WaitFlush required target end)
  | RestoreListReq r => let@ x := _restore_list r in vret (Replied x)
  | RestoreExecuteReq r =>
      let@ x := execute_begin r now in
      vret (match x with inl response => Replied response | inr p => Starting p end)
  | RestoreRetryReq r =>
      let@ x := retry_begin r in
      vret (match x with inl response => Replied response | inr p => Starting p end)
  | DiscardReq r => let@ x := _discard r now in vret (Replied x)
  end.

(** ** Connections *)
Definition FALLBACK_ERROR_BYTES : pybytes :=
  match encode_response rec_limit (error_response INTERNAL_ERROR) with Ok raw => raw | Err _ => [] end.

(** [_write_response]: what is sent for a response. *)
Definition _write_response (response : ServiceResponse) : pybytes :=
  match encode_response rec_limit response with
  | Ok encoded => if MAX_MESSAGE_BYTES <? len encoded then FALLBACK_ERROR_BYTES else encoded
  | Err _ => FALLBACK_ERROR_BYTES
  end.

Record PeerCredentials := mkPeer { peer_pid : Z; peer_uid : Z }.

(** What [readline] gives: a line ([b""] at the end of the stream), or a timeout or an overlong line. *)
Inductive incoming := Received (raw : pybytes) | NotReceived.

(** What one turn of the loop of [handle_connection] comes to. *)
Inductive turn :=
| Closed
| Sent (raw : pybytes) (continues : bool)
| Waiting (p : progress).

Definition continues_after (request : ServiceRequest) : bool :=
  match request with RegisterReq _ | EventReq _ => true | _ => false end.

Definition handle_line (peer : PeerCredentials) (input : incoming) (now : Moment) (s : Server) : turn * Server :=
  let refuse := Sent (_write_response (_error INVALID_REQUEST)) false in
  match input with
  | NotReceived => (refuse, s)
  | Received [] => (Closed, s)
  | Received raw =>
      match decode_request rec_limit raw with
      | Err e => if is_value_error e then (refuse, s)
                 else (Sent (_write_response (_error INTERNAL_ERROR)) false, s)
      | Ok request =>
          match _dispatch request now (Some (peer_pid peer)) s with
          | (Ok (Replied response), s') => (Sent (_write_response response) (continues_after request), s')
          | (Ok p, s') => (Waiting p, s')
          | (Err _, s') => (Sent (_write_response (_error INTERNAL_ERROR)) false, s')
          end
      end
  end.

(** The end of a turn that waited. *)
Definition finish_line (answer : serve ServiceResponse) (s : Server) : turn * Server :=
  match answer s with
  | (Ok response, s') => (Sent (_write_response response) false, s')
  | (Err _, s') => (Sent (_write_response (_error INTERNAL_ERROR)) false, s')
  end.

(** [handle_connection] on the peer the kernel reports: the lines of a connection
    that never waits, in order. *)
Fixpoint handle_lines (peer : PeerCredentials) (inputs : list (incoming * Moment)) (s : Server)
  : list pybytes * Server :=
  match inputs with
  | [] => ([], s)
  | (input, now) :: rest =>
      match handle_line peer input now s with
      | (Sent raw true, s') => let '(raws, s'') := handle_lines peer rest s' in (raw :: raws, s'')
      | (Sent raw false, s') => ([raw], s')
      | (Closed, s') | (Waiting _, s') => ([], s')
      end
  end.

Definition handle_connection (peer : option PeerCredentials) (inputs : list (incoming * Moment)) (s : Server)
  : list pybytes * Server :=
  match peer with
  | Some p => if peer_uid p =? su_uid env then handle_lines p inputs s
              else ([_write_response (_error PEER_REJECTED)], s)
  | None => ([_write_response (_error PEER_REJECTED)], s)
  end.

(** [close]: the last snapshot is written if something is not durable; an error is only noted. *)
Definition close_flush : serve unit :=
  let@ st := vread (fun s => status (sv_checkpoints s)) in
  if cs_durable_generation st <? cs_dirty_generation st then
    let@ snapshot := vread (fun s => es_snapshot (sv_state s)) in
    vcatch (let@ _ := on_store (Store.write rec_limit snapshot) in vret tt) (fun _ => vret tt)
  else vret tt.

Definition close_server : serve unit :=
  let@ _ := close_flush in on_store Store.close.

(** ** The running service

    Requests interleave with restore attempts, which release the dispatch lock
    while the terminals start, and with the checkpoint loop.  A request on a
    workspace waits while an attempt on it is in flight ([_workspace_locks]). *)
Record Flight := mkFlight {
  fl_pending : Pending;
  fl_launched : option (RestoreAttempt * list Outcome);
}.

Record Service := mkService {
  sc_server : Server;
  sc_flights : list Flight;
}.

Definition workspace_of (request : ServiceRequest) : option pystr :=
  match request with
  | RestoreExecuteReq r => Some (re_workspace_id r)
  | RestoreRetryReq r => Some (rr_workspace_id r)
  | DiscardReq r => Some (dr_workspace_id r)
  | _ => None
  end.

Definition workspace_locked (flights : list Flight) (request : ServiceRequest) : bool :=
  match workspace_of request with
  | Some w => existsb (fun f => str_eqb (workspace_id (pd_record (fl_pending f))) w) flights
  | None => false
  end.

Inductive service_op :=
| OpRequest (request : ServiceRequest) (now : Moment) (peer : option Z)
| OpLaunch (n : nat)
| OpCommit (n : nat) (now : Moment)
| OpLoop (e : checkpoint_event) (clock : Z)      (* the checkpoint loop, between its writes *)
| OpBeginWrite
| OpFinishWrite (clock : Z).

Definition with_server (f : Server -> Server) (c : Service) : Service := mkService (f (sc_server c)) (sc_flights c).

(** [type(exc).__name__] *)
Definition exn_name (e : exn) : pystr :=
  match e with
  | ValueError _ => u "ValueError"
  | UnsupportedSchemaVersion _ => u "UnsupportedSchemaVersion"
  | JSONDecodeError => u "JSONDecodeError"
  | UnicodeError => u "UnicodeEncodeError"
  | ResponseEncodingError _ => u "ResponseEncodingError"
  | PolicyRejection => u "_PolicyRejection"
  | TypeError _ => u "TypeError"
  | KeyError => u "KeyError"
  | AttributeError => u "AttributeError"
  | OverflowError => u "OverflowError"
  | RecursionError => u "RecursionError"
  | AssertionError => u "AssertionError"
  | SubprocessError => u "TimeoutExpired"
  | EOFError => u "EOFError"
  | OSError ENOENT => u "FileNotFoundError"
  | OSError EEXIST => u "FileExistsError"
  | OSError EACCES => u "PermissionError"
  | OSError ENOTDIR => u "NotADirectoryError"
  | OSError EISDIR => u "IsADirectoryError"
  | OSError ETIMEDOUT => u "TimeoutError"
  | OSError ECONNREFUSED => u "ConnectionRefusedError"
  | OSError EWOULDBLOCK => u "BlockingIOError"
  | OSError _ => u "OSError"
  | RuntimeError _ => u "RuntimeError"
  | UnsafeStatePath _ => u "UnsafeStatePath"
  | UnsafeLifecyclePath => u "UnsafeLifecyclePath"
  | ConcurrentLifecycleChange => u "ConcurrentLifecycleChange"
  | CleanupFailure => u "CleanupFailure"
  | LifecycleError _ => u "LifecycleError"
  | InjectedFailure => u "_InjectedFailure"
  | ServiceUnavailable _ => u "ServiceUnavailable"
  | KeyboardInterrupt => u "KeyboardInterrupt"
  end.

(** [_write_once] takes the snapshot the service has when the write begins. *)
Definition begin_write (s : Server) : Server :=
  mkServer (sv_state s) (write_begin (sv_checkpoints s) (es_snapshot (sv_state s))).2 (sv_store s) (sv_cache s).

(** The store writes it, and the manager learns how it went. *)
Definition finish_write (clock : Z) (s : Server) : Server :=
  match cm_writing (sv_checkpoints s) with
  | None => s
  | Some (_, snapshot) =>
      let '(r, st) := Store.write rec_limit snapshot (sv_store s) in
      mkServer (sv_state s)
        (write_end (sv_checkpoints s) (match r with Ok _ => None | Err e => Some (exn_name e) end) clock)
        st (sv_cache s)
  end.

Definition service_step (c : Service) (op : service_op) : Service :=
  match op with
  | OpRequest request now peer =>
      if workspace_locked (sc_flights c) request then c
      else
        match _dispatch request now peer (sc_server c) with
        | (Ok (Starting p), s) => mkService s (sc_flights c ++ [mkFlight p None])
        | (_, s) => mkService s (sc_flights c)
        end
  | OpLaunch n =>
      match sc_flights c !! n with
      | Some (mkFlight p None) =>
          match attempt_launch p (sc_server c) with
          | (Ok (inr launched), s) => mkService s (<[n := mkFlight p (Some launched)]> (sc_flights c))
          | (_, s) => mkService s (delete n (sc_flights c))
          end
      | _ => c
      end
  | OpCommit n now =>
      match sc_flights c !! n with
      | Some (mkFlight p (Some (attempt, outs))) =>
          mkService (attempt_commit p attempt outs now (sc_server c)).2 (delete n (sc_flights c))
      | _ => c
      end
  | OpLoop e clock =>
      match e with
      | EvWriteBegin _ | EvWriteEnd _ => c
      | _ => with_server (fun s => mkServer (sv_state s) (checkpoint_step (sv_checkpoints s) (e, clock))
                                     (sv_store s) (sv_cache s)) c
      end
  | OpBeginWrite => with_server begin_write c
  | OpFinishWrite clock => with_server (finish_write clock) c
  end.

End Handlers.

Definition with_world (env : Setup) (w : World) : Setup :=
  mkSetup (su_uid env) (su_adapter env) (su_boot_id env) (su_home env) (su_probe env) w (su_rec_limit env).

(** A run: what the file system and the session stores say may change at every step. *)
Definition service_run `{Unicode} (env : Setup) (c : Service) (ops : list (World * service_op)) : Service :=
  foldl (fun c op => service_step (with_world env op.1) c op.2) c ops.
