(* ===== verification/ServerProofs.v ===== *)
(** * The service: theorems about requests and connections

    What an event is answered with, and what a connection can see and change. *)
From S2P Require Import Prelude PyText PyVal PyFloat Json Codec Model Shlex Classifier Protocol.
From S2P Require Import Wire Engine EngineProofs Resume Recovery Store Checkpoint Server.
#[local] Open Scope serve_scope.

(** ** Which code a refused event gets *)

(** A command event that does not fit what the shell runs. *)
Definition command_stale (r : EventRequest) (x : Registration) (s : ShellRecord) : bool :=
  match ev_operation r with
  | COMMAND_STARTED => default 0 (ev_command_sequence r) <=? rg_last_command_sequence x
  | COMMAND_FINISHED =>
      match command s with Some c => negb (cmd_sequence c =? default 0 (ev_command_sequence r)) | None => true end
  | _ => false
  end.

Definition event_refusal (st : EngineState) (r : EventRequest) : option ErrorCode :=
  match es_registrations st !! ev_shell_id r, shell_of st (ev_shell_id r) with
  | Some x, Some s =>
      if negb (str_eqb (rg_capability x) (ev_capability r)) then Some UNAUTHORIZED
      else if negb (bool_decide (rg_identity x = ev_identity r)) then Some UNAUTHORIZED
      else if ev_sequence r <=? rg_last_sequence x then Some SEQUENCE_REJECTED
      else if bool_decide (termination s = Some EXPLICIT_EXIT) then Some UNAUTHORIZED
      else if command_stale r x s then Some SEQUENCE_REJECTED
      else None
  | _, _ => Some UNAUTHORIZED
  end.

Section Requests.
Context `{Unicode}.

Lemma stale_spec r x s : event_ok r -> command_stale r x s = false -> command_admissible r x s.
Proof.
  intros (_ & _ & _ & _ & Hf). unfold command_stale, command_admissible, event_fields_ok in *.
  destruct (ev_operation r); try done.
  - destruct Hf as (_ & (n & Hn & _) & _). rewrite Hn. cbn [default]. intros Hlt%Z.leb_gt. by exists n.
  - destruct Hf as (_ & (n & Hn & _) & _). rewrite Hn. destruct (command s) as [c|]; [|done].
    cbn [default]. intros Hc%negb_false_iff%Z.eqb_eq. by exists n, c.
Qed.

Lemma registered_capability x : registration_post_init x = Ok tt -> _CAPABILITY_RE (rg_capability x) = true.
Proof. intros (? & Hx & _)%rbind_Ok. by apply raise_if_Ok, negb_false_iff in Hx. Qed.

(** How the engine words a stale command. *)
Lemma stale_worded r x s : event_ok r -> command_stale r x s = true ->
  _reduce_shell s x r = Err (ValueError (u "command sequence rejected")).
Proof.
  intros (_ & _ & _ & _ & Hf). unfold command_stale, _reduce_shell, event_fields_ok in *.
  destruct (ev_operation r); try done.
  - destruct Hf as (_ & (n & -> & _) & (text & -> & _) & _). cbn [default id from_option]. by intros ->.
  - destruct Hf as (_ & (n & -> & _) & _). cbn [default id from_option]. by intros ->.
Qed.

(** How the engine words a refusal. *)
Lemma refusal_worded st r code : engine_ok st -> event_ok r -> event_refusal st r = Some code ->
  exists m, apply_event st r = Err (ValueError m) /\ event_error_code m = code.
Proof.
  intros Hst Hr. unfold event_refusal, apply_event.
  destruct (es_registrations st !! ev_shell_id r) as [x|] eqn:Hx;
    [|intros [= <-]; eexists; split; [reflexivity|by vm_compute]].
  destruct (ok_registrations st Hst _ _ Hx) as (Hxp & s & Hs & _). rewrite Hs. cbn [result_of_option rbind].
  rewrite compare_digest_run; [by apply registered_capability|apply Hr|]. cbn [rbind].
  destruct (str_eqb _ _); cbn [negb raise_if rbind]; [|intros [= <-]; eexists; split; [reflexivity|by vm_compute]].
  case_bool_decide; cbn [negb raise_if rbind]; [|intros [= <-]; eexists; split; [reflexivity|by vm_compute]].
  destruct (ev_sequence r <=? rg_last_sequence x); cbn [raise_if rbind];
    [intros [= <-]; eexists; split; [reflexivity|by vm_compute]|].
  destruct (find_shell_Some _ _ _ Hs) as [i ->]. cbn [rbind].
  case_bool_decide; cbn [raise_if rbind]; [intros [= <-]; eexists; split; [reflexivity|by vm_compute]|].
  destruct (command_stale r x s) eqn:Hstale; [|done]. intros [= <-]. rewrite (stale_worded _ _ _ Hr Hstale).
  cbn [rbind]. eexists; split; [reflexivity|by vm_compute].
Qed.

Lemma unrefused_admissible st r : engine_ok st -> event_ok r -> event_refusal st r = None ->
  exists x s, admissible st r x s.
Proof.
  intros Hst Hr. unfold event_refusal.
  destruct (es_registrations st !! ev_shell_id r) as [x|] eqn:Hx; [|done].
  destruct (shell_of st (ev_shell_id r)) as [s|] eqn:Hs; [|done].
  destruct (str_eqb _ _) eqn:Hcap; [|done]. case_bool_decide as Hid; [|done]. cbn [negb].
  destruct (Z.leb_spec (ev_sequence r) (rg_last_sequence x)) as [|Hseq]; [done|].
  case_bool_decide as Ht; [done|]. destruct (command_stale r x s) eqn:Hstale; [done|]. intros _.
  exists x, s. apply str_eqb_eq in Hcap. split; try done. exact (stale_spec _ _ _ Hr Hstale).
Qed.

Lemma mark_dirty_total m g clock : 0 <= g -> exists m', mark_dirty m g clock = Ok m'.
Proof. intros Hg. unfold mark_dirty. rewrite (proj2 (Z.ltb_ge _ _) Hg). cbn [raise_if rbind]. destruct (_ <=? _); by eexists. Qed.

(** C22. An event is answered with its own sequence number exactly when nothing
    speaks against it, and then the new state is taken and marked dirty; every
    other event is refused with the code its first defect calls for - no
    registration, a foreign capability or identity, or a shell that has exited:
    unauthorized; a stale event or command number: sequence rejected - and leaves
    the server as it was.  No event can make the handler fail otherwise. *)
Theorem event_answered env s r now peer : engine_ok (sv_state s) -> event_ok r ->
  match event_refusal (sv_state s) r with
  | Some code => _dispatch env (EventReq r) now peer s = (Ok (Replied (_error code)), s)
  | None => exists st m, apply_event (sv_state s) r = Ok st /\
      mark_dirty (sv_checkpoints s) (es_dirty_generation st) (at_clock now) = Ok m /\
      es_dirty_generation st = es_dirty_generation (sv_state s) + 1 /\
      _dispatch env (EventReq r) now peer s =
        (Ok (Replied (EventResponse (ev_sequence r))), mkServer st m (sv_store s) (sv_cache s))
  end.
Proof.
  intros Hst Hr. destruct (event_refusal (sv_state s) r) as [code|] eqn:Href.
  - destruct (refusal_worded _ _ _ Hst Hr Href) as (m & Hm & Hcode).
    cbn [_dispatch]. unfold dispatch_event, vbind, vread. rewrite Hm. cbn [is_value_error exn_text]. by rewrite Hcode.
  - destruct (unrefused_admissible _ _ Hst Hr Href) as (x & sh & Ha).
    destruct (apply_event_run _ _ _ _ Hst Hr Ha) as [st Hrun].
    assert (Hgen : es_dirty_generation st = es_dirty_generation (sv_state s) + 1)
      by (apply apply_event_Ok in Hrun as (? & ? & ? & _ & _ & _ & _ & _ & ->); done).
    destruct (mark_dirty_total (sv_checkpoints s) (es_dirty_generation st) (at_clock now)) as [m Hm].
    { pose proof (ok_generation _ (engine_ok_event _ _ _ Hst Hrun)) as <-.
      destruct (ok_snapshot _ (engine_ok_event _ _ _ Hst Hrun)) as [Hsp _]. by apply snapshot_post_init_Ok in Hsp as [? _]. }
    exists st, m. split; [done|]. split; [done|]. split; [done|].
    cbn [_dispatch]. unfold dispatch_event, vbind, vread. rewrite Hrun.
    unfold mark_changed, on_checkpoints. by rewrite Hm.
Qed.

End Requests.

(** ** What a connection can do *)
Section Connections.
Context `{Unicode} (env : Setup) (Hrec : (16 <= su_rec_limit env)%nat).
#[local] Notation rec_limit := (su_rec_limit env).

(** A line the client can read. *)
Definition readable_line (raw : pybytes) : Prop :=
  len raw <= MAX_MESSAGE_BYTES /\ is_ok (decode_response rec_limit raw) = true.

Lemma encoded_readable r raw : encode_response rec_limit r = Ok raw -> is_ok (decode_response rec_limit raw) = true.
Proof.
  unfold encode_response. destruct (rbind _ _) as [raw'|e] eqn:E.
  - intros [= ->]. apply rbind_Ok in E as (p & _ & E). apply rbind_Ok in E as (? & _ & E).
    apply rbind_Ok in E as (z & _ & E). apply rbind_Ok in E as (y & E & Hx). apply Ok_inj in Hx as ->. by rewrite E.
  - by destruct e; repeat case_match.
Qed.

(** Every fixed error answer fits. *)
Lemma error_encoded code : exists raw, encode_response rec_limit (error_response code) = Ok raw /\ len raw <= MAX_MESSAGE_BYTES.
Proof.
  assert (exists k, rec_limit = (16 + k)%nat) as [k ->] by (exists (rec_limit - 16)%nat; lia).
  destruct code; eexists; (split; [vm_compute; reflexivity|vm_compute; discriminate]).
Qed.

Lemma written_readable r : readable_line (_write_response env r).
Proof.
  assert (Hfall : readable_line (FALLBACK_ERROR_BYTES env)).
  { unfold FALLBACK_ERROR_BYTES. destruct (error_encoded INTERNAL_ERROR) as (raw & Hraw & Hl). rewrite Hraw.
    split; [exact Hl|exact (encoded_readable _ _ Hraw)]. }
  unfold _write_response. destruct (encode_response rec_limit r) as [raw|] eqn:E; [|exact Hfall].
  destruct (Z.ltb_spec MAX_MESSAGE_BYTES (len raw)); [exact Hfall|]. split; [done|exact (encoded_readable _ _ E)].
Qed.

(** The server after a sequence of requests of one peer. *)
Definition served (peer : PeerCredentials) (rqs : list (ServiceRequest * Moment)) (s : Server) : Server :=
  foldl (fun s q => (_dispatch env q.1 q.2 (Some (peer_pid peer)) s).2) s rqs.

(** [q] is what the input line says. *)
Definition line_of (q : ServiceRequest * Moment) (input : incoming * Moment) : Prop :=
  exists raw, input = (Received raw, q.2) /\ decode_request rec_limit raw = Ok q.1.

Lemma handle_line_served peer input now s t s' : handle_line env peer input now s = (t, s') ->
  (forall raw c, t = Sent raw c -> readable_line raw) /\
  ((s' = s /\ forall raw, t <> Sent raw true) \/
   exists q, line_of (q, now) (input, now) /\ s' = served peer [(q, now)] s /\
     forall raw, t = Sent raw true -> continues_after q = true).
Proof.
  unfold handle_line. destruct input as [[|b line]|].
  - intros [= <- <-]. split; [done|by left].
  - destruct (decode_request rec_limit (b :: line)) as [q|e] eqn:Hq.
    + destruct (_dispatch env q now _ s) as [r s1] eqn:E. intros Ht.
      assert (s' = s1) as -> by (destruct r as [[]|]; by injection Ht as _ <-).
      split; [destruct r as [[]|]; injection Ht as <-; intros ? ? [= <- <-]; apply written_readable|].
      right. exists q. split; [by exists (b :: line)|]. split; [unfold served; cbn; by rewrite E|].
      by destruct r as [[]|]; injection Ht as <-; intros ? [= _ ?].
    + intros Ht. split.
      * destruct (is_value_error e); injection Ht as <- _; intros ? ? [= <- <-]; apply written_readable.
      * left. by destruct (is_value_error e); injection Ht as <- <-.
  - intros [= <- <-]. split; [intros ? ? [= <- <-]; apply written_readable|by left].
Qed.

Lemma handle_lines_served peer inputs s raws s' : handle_lines env peer inputs s = (raws, s') ->
  Forall readable_line raws /\ (length raws <= length inputs)%nat /\
  exists rqs, s' = served peer rqs s /\ Forall2 line_of rqs (take (length rqs) inputs) /\
    Forall (fun q => continues_after q.1 = true) (removelast rqs).
Proof.
  revert s raws s'. induction inputs as [|[input now] inputs IH]; intros s raws s' E.
  { injection E as <- <-. split; [done|]. split; [done|]. by exists []. }
  cbn [handle_lines] in E. destruct (handle_line env peer input now s) as [t s1] eqn:Hl.
  apply handle_line_served in Hl as [Hr Hs].
  assert (Hstop : raws = [] \/ (exists raw c, t = Sent raw c /\ raws = [raw]) -> s' = s1 ->
    Forall readable_line raws /\ (length raws <= length ((input, now) :: inputs))%nat /\
    exists rqs, s' = served peer rqs s /\ Forall2 line_of rqs (take (length rqs) ((input, now) :: inputs)) /\
      Forall (fun q => continues_after q.1 = true) (removelast rqs)).
  { intros Hraws ->. split; [|split].
    - destruct Hraws as [->|(raw & c & -> & ->)]; [done|]. constructor; [exact (Hr _ _ eq_refl)|done].
    - destruct Hraws as [->|(raw & c & _ & ->)]; cbn; lia.
    - destruct Hs as [[-> _]|(q & Hq & -> & _)]; [by exists []|]. exists [(q, now)]. split; [done|].
      split; [by constructor|done]. }
  destruct t as [|raw [|]|p]; try (injection E as <- <-; apply Hstop; [by eauto 10|done]).
  destruct (handle_lines env peer inputs s1) as [raws' s2] eqn:Hrest. injection E as <- <-.
  destruct (IH _ _ _ Hrest) as (Hall & Hlen & rqs & -> & Hf & Hc).
  split; [constructor; [exact (Hr _ _ eq_refl)|exact Hall]|]. split; [cbn; lia|].
  destruct Hs as [[_ Hno]|(q & Hq & -> & Hcont)]; [by destruct (Hno raw)|].
  exists ((q, now) :: rqs). split; [done|]. split; [by constructor|].
  destruct rqs as [|q' rqs]; [done|]. constructor; [exact (Hcont _ eq_refl)|exact Hc].
Qed.

(** C37. A connection of another user is refused and changes nothing.  Otherwise
    the server ends where dispatching the requests of a prefix of the lines takes
    it, one after the other, all but the last being registrations or events: a
    line that is not a request changes nothing and ends the connection.  There is
    at most one answer for each line, and whatever was asked, each answer fits
    the message limit and is one the client decodes. *)
Theorem connection_serves peer inputs s raws s' : handle_connection env peer inputs s = (raws, s') ->
  Forall readable_line raws /\
  match peer with
  | Some p =>
      if peer_uid p =? su_uid env then
        (length raws <= length inputs)%nat /\
        exists rqs, s' = served p rqs s /\ Forall2 line_of rqs (take (length rqs) inputs) /\
          Forall (fun q => continues_after q.1 = true) (removelast rqs)
      else s' = s /\ raws = [_write_response env (_error PEER_REJECTED)]
  | None => s' = s /\ raws = [_write_response env (_error PEER_REJECTED)]
  end.
Proof.
  assert (Hrefused : forall r s0 : _, ([_write_response env (_error PEER_REJECTED)], s) = (r, s0) ->
    Forall readable_line r /\ s0 = s /\ r = [_write_response env (_error PEER_REJECTED)]).
  { intros r s0 [= <- <-]. split; [|done]. constructor; [apply written_readable|done]. }
  unfold handle_connection. destruct peer as [p|]; [|apply Hrefused].
  destruct (peer_uid p =? su_uid env); [apply handle_lines_served|apply Hrefused].
Qed.

End Connections.

(** ** Witnesses *)
Section Witnesses.
#[local] Existing Instance ascii_unicode.

Definition bare_world : World := {|
  w_lstat _ := Err (OSError ENOENT); w_access _ := false; w_which _ := None; w_help _ := Ok ([], []);
  w_active_session _ := Ok None; w_sessions _ := Ok [] |}.
Definition bare_setup : Setup :=
  mkSetup 1000 None (u "boot") (parse_path (u "/")) (fun _ => mkProbe DEAD None) bare_world 16.
Definition bare_server (st : EngineState) : Server :=
  mkServer st (mkManager 2 10 [1] 0 0 false None None None None 0 0 false false None)
    (mkStore ∅ 1000 false [] [] [] [u "00"] []) [].
Definition some_moment : Moment := mkMoment 100 (FFin false 9 0) (ev_capability sample_event).

(** An event is accepted once: the second time its number is stale. *)
Lemma event_answered_witness :
  let s := bare_server registered_state in
  let again := (_dispatch bare_setup (EventReq sample_event) some_moment None s).2 in
  (_dispatch bare_setup (EventReq sample_event) some_moment None s).1 =
    Ok (Replied (EventResponse (ev_sequence sample_event))) /\
  _dispatch bare_setup (EventReq sample_event) some_moment None again =
    (Ok (Replied (_error SEQUENCE_REJECTED)), again).
Proof.
  intros s again.
  pose proof (event_answered bare_setup s sample_event some_moment None registered_state_ok sample_event_ok) as H1.
  assert (event_refusal registered_state sample_event = None) as E1 by (vm_compute; reflexivity).
  change (sv_state s) with registered_state in H1. rewrite E1 in H1.
  destruct H1 as (st & m & Hst & _ & _ & Hd). split; [by rewrite Hd|].
  assert (Hag : sv_state again = st) by (unfold again; by rewrite Hd).
  assert (Hok : engine_ok (sv_state again)) by (rewrite Hag; exact (engine_ok_event _ _ _ registered_state_ok Hst)).
  pose proof (event_answered bare_setup again sample_event some_moment None Hok sample_event_ok) as H2.
  assert (event_refusal (sv_state again) sample_event = Some SEQUENCE_REJECTED) as E2 by (vm_compute; reflexivity).
  by rewrite E2 in H2.
Defined.

Definition request_line (r : ServiceRequest) : pybytes := match encode_request 16 r with Ok raw => raw | Err _ => [] end.

(** A shell registers, then sends garbage. *)
Definition sample_lines : list (incoming * Moment) :=
  [(Received (request_line (RegisterReq sample_register)), some_moment); (Received [123; 10], some_moment);
   (Received (request_line StatusReq), some_moment)].

Lemma sample_connection :
  let '(raws, s') := handle_connection bare_setup (Some (mkPeer 42 1000)) sample_lines (bare_server start_state) in
  length raws = 2%nat /\ size (es_registrations (sv_state s')) = 1%nat.
Proof. vm_compute. by split. Qed.

Lemma connection_serves_witness : exists raws s',
  handle_connection bare_setup (Some (mkPeer 42 1000)) sample_lines (bare_server start_state) = (raws, s') /\
  length raws = 2%nat /\ Forall (readable_line bare_setup) raws /\
  size (es_registrations (sv_state s')) = 1%nat.
Proof.
  destruct (handle_connection bare_setup (Some (mkPeer 42 1000)) sample_lines (bare_server start_state))
    as [raws s'] eqn:E.
  pose proof sample_connection as Hs. rewrite E in Hs. destruct Hs as [Hl Hn].
  exists raws, s'. split; [reflexivity|]. split; [exact Hl|]. split; [|exact Hn].
  refine (proj1 (connection_serves bare_setup _ _ _ _ _ _ E)). cbn. lia.
Defined.

End Witnesses.
