(* ===== verification/ServiceProofs.v ===== *)
(** * The running service: theorems about restores

    However requests, restore attempts and the checkpoint loop interleave, and
    whatever system calls fail, the stored recovery record follows a small
    abstract protocol, and only open items are ever launched. *)
From S2P Require Import Prelude PyText PyVal PyFloat Json Codec Model Shlex Classifier Protocol.
From S2P Require Import Engine EngineProofs Resume Recovery RecoveryProofs Store StateCodec StoreProofs StoreFaults.
From S2P Require Import Checkpoint Server.
#[local] Open Scope serve_scope.

(** ** The abstract protocol

    A listing opens a workspace with nothing done; it moves on by committed attempts
    on items that are still open, and ends when all is completed or the user
    discards it. *)
Inductive recovery_move (opens : bool) (discards : option pystr)
  : option RecoveryRecord -> option RecoveryRecord -> Prop :=
| move_open x : opens = true -> attempts x = [] -> completed_item_ids x = [] ->
    recovery_move opens discards None (Some x)
| move_commit x a outs x' : committed x (workspace_id x) a outs = Ok x' ->
    (forall o, o ∈ outs -> out_item_id o ∉ completed_item_ids x) ->
    recovery_move opens discards (Some x) (Some x')
| move_end x : all_completed x = true \/ discards = Some (workspace_id x) -> recovery_move opens discards (Some x) None.

(** ** Computations of the server *)
Lemma vbind_inv {A B} (m : serve A) (f : A -> serve B) s r s' : vbind m f s = (r, s') ->
  (exists a s1, m s = (Ok a, s1) /\ f a s1 = (r, s')) \/ (exists e, m s = (Err e, s') /\ r = Err e).
Proof. unfold vbind. destruct (m s) as [[a|e] s1]; [by eauto|]. intros [= <- <-]. eauto. Qed.

Lemma vcatch_inv {A} (m : serve A) h s r s' : vcatch m h s = (r, s') ->
  (exists a, m s = (Ok a, s') /\ r = Ok a) \/ (exists e s1, m s = (Err e, s1) /\ h e s1 = (r, s')).
Proof. unfold vcatch. destruct (m s) as [[a|e] s1]; [|by eauto]. intros [= <- <-]. eauto. Qed.

Lemma flights_at_most_one (fs : list Flight) n f : (length fs <= 1)%nat -> fs !! n = Some f -> n = O /\ fs = [f].
Proof.
  destruct fs as [|g [|]]; cbn [length]; [done| |lia]. destruct n; [|done]. by intros _ [= ->].
Qed.

Section Moves.
Context (rec_limit : nat) (Hrec : (16 <= rec_limit)%nat).

(** The open record of a server. *)
Definition record_of_server (s : Server) : option RecoveryRecord := opened rec_limit (sv_store s).

(** What a server keeps: a well-formed engine, and time stamps that are doubles. *)
Record server_ok (s : Server) : Prop := {
  so_engine : engine_ok (sv_state s);
  so_captured : real_time (captured_at (es_snapshot (sv_state s)));
  so_created : forall x, record_of_server s = Some x -> real_time (created_at x);
}.

(** [moves R m]: [m] keeps [server_ok] and moves the open record by [R]. *)
Definition moves {A} (R : option RecoveryRecord -> option RecoveryRecord -> Prop) (m : serve A) : Prop :=
  forall s r s', server_ok s -> m s = (r, s') -> server_ok s' /\ R (record_of_server s) (record_of_server s').

Section Combinators.
Context (R : option RecoveryRecord -> option RecoveryRecord -> Prop) `{!PreOrder R}.

Lemma moves_same {A} (m : serve A) :
  (forall s r s', m s = (r, s') -> sv_state s' = sv_state s /\ record_of_server s' = record_of_server s) -> moves R m.
Proof.
  intros Hm s r s' [H1 H2 H3] E. destruct (Hm _ _ _ E) as [He Ho]. rewrite Ho. split; [|reflexivity].
  split; [by rewrite He..|]. intros x. rewrite Ho. apply H3.
Qed.

Lemma moves_ret {A} (a : A) : moves R (vret a).
Proof. apply moves_same. intros s r s' E. by injection E as _ <-. Qed.

Lemma moves_lift {A} (x : result A) : moves R (vlift x).
Proof. apply moves_same. intros s r s' E. by injection E as _ <-. Qed.

Lemma moves_read {A} (f : Server -> A) : moves R (vread f).
Proof. apply moves_same. intros s r s' E. by injection E as _ <-. Qed.

Lemma moves_checkpoints {A} (m : CheckpointManager -> result (A * CheckpointManager)) : moves R (on_checkpoints m).
Proof.
  apply moves_same. intros s r s'. unfold on_checkpoints. destruct (m _) as [[a c]|e]; by intros [= _ <-].
Qed.

Lemma moves_cache {A} (m : probe_cache -> result (A * probe_cache)) : moves R (on_cache m).
Proof. apply moves_same. intros s r s'. unfold on_cache. destruct (m _) as [[a c]|e]; by intros [= _ <-]. Qed.

Lemma moves_bind {A B} (m : serve A) (f : A -> serve B) : moves R m -> (forall a, moves R (f a)) -> moves R (vbind m f).
Proof.
  intros Hm Hf s r s' Hs [(a & s1 & E1 & E)|(e & E1 & ->)]%vbind_inv.
  - destruct (Hm _ _ _ Hs E1) as [Hs1 H1]. destruct (Hf a _ _ _ Hs1 E) as [Hs2 H2]. split; [done|]. etransitivity; [exact H1|exact H2].
  - exact (Hm _ _ _ Hs E1).
Qed.

Lemma moves_catch {A} (m : serve A) h : moves R m -> (forall e, moves R (h e)) -> moves R (vcatch m h).
Proof.
  intros Hm Hh s r s' Hs [(a & E1 & ->)|(e & s1 & E1 & E)]%vcatch_inv; [exact (Hm _ _ _ Hs E1)|].
  destruct (Hm _ _ _ Hs E1) as [Hs1 H1]. destruct (Hh e _ _ _ Hs1 E) as [Hs2 H2]. split; [done|]. etransitivity; [exact H1|exact H2].
Qed.

Lemma moves_not_saved {A} (m : serve A) k : moves R m -> (forall a, moves R (k a)) -> moves R (or_not_saved m k).
Proof.
  intros Hm Hk. unfold or_not_saved. apply moves_bind.
  - apply moves_catch; [apply moves_bind; [exact Hm|intros ?; apply moves_ret]|].
    intros e. destruct (is_persistence_error e); [apply moves_ret|apply moves_lift].
  - intros [a|[]]; [apply Hk|apply moves_ret].
Qed.

Lemma on_store_inv {A} (m : store A) s r s' : on_store m s = (r, s') ->
  m (sv_store s) = (r, sv_store s') /\ sv_state s' = sv_state s.
Proof. unfold on_store. destruct (m (sv_store s)) as [r1 st]. by intros [= <- <-]. Qed.

Lemma moves_load : moves R (on_store (load_recovery rec_limit)).
Proof.
  apply moves_same. intros s r s' [E ?]%on_store_inv. split; [done|].
  by apply load_recovery_moves in E as (_ & ? & _).
Qed.

End Combinators.

#[local] Hint Resolve moves_ret moves_lift moves_read moves_checkpoints moves_cache moves_load : moves.

(** A server whose engine and store are those of an accepted operation is as good. *)
Lemma server_ok_state s st : server_ok s -> engine_ok st ->
  captured_at (es_snapshot st) = captured_at (es_snapshot (sv_state s)) ->
  server_ok (mkServer st (sv_checkpoints s) (sv_store s) (sv_cache s)).
Proof. intros [H1 H2 H3] Hst Hc. split; [done|by rewrite /= Hc|exact H3]. Qed.

Context `{Unicode} (env : Setup) (Henv : su_rec_limit env = rec_limit).

(** ** Handlers that do not touch the record *)
Lemma register_captured st rq cap peer st' c : register_shell st rq cap peer = Ok (st', c) ->
  captured_at (es_snapshot st') = captured_at (es_snapshot st).
Proof. by intros (_ & _ & _ & _ & _ & _ & _ & _ & ->)%register_shell_Ok. Qed.

Lemma event_captured st r st' : apply_event st r = Ok st' ->
  captured_at (es_snapshot st') = captured_at (es_snapshot st).
Proof. intros (x & s & i & _ & _ & _ & _ & _ & ->)%apply_event_Ok. done. Qed.

(** The end of an accepted request: the new state is marked dirty, then taken. *)
Lemma accepted_moves {A} R `{!PreOrder R} st clock (k : unit -> serve A) s r s' :
  (let@ _ := mark_changed (es_dirty_generation st) clock in let@ x := set_state st in k x) s = (r, s') ->
  server_ok s -> engine_ok st -> captured_at (es_snapshot st) = captured_at (es_snapshot (sv_state s)) ->
  moves R (k tt) -> server_ok s' /\ R (record_of_server s) (record_of_server s').
Proof.
  intros E Hs Hst Hcap Hk.
  apply vbind_inv in E as [([] & s1 & E1 & E)|(e & E1 & ->)]; [|exact (moves_checkpoints R _ _ _ _ Hs E1)].
  destruct (moves_checkpoints R _ _ _ _ Hs E1) as [Hs1 H1].
  assert (Hst1 : sv_state s1 = sv_state s).
  { unfold mark_changed, on_checkpoints in E1. destruct (rbind _ _) as [[]|]; by injection E1 as _ <-. }
  apply vbind_inv in E as [([] & s2 & E2 & E)|(e & E2 & ->)]; [injection E2 as <-|done].
  destruct (Hk _ _ _ (server_ok_state s1 st Hs1 Hst ltac:(congruence)) E) as [Hs' H2].
  split; [done|]. etransitivity; [exact H1|exact H2].
Qed.

Lemma register_moves R `{!PreOrder R} rq now peer : identity_wf (reg_identity rq) ->
  moves R (dispatch_register rq now peer).
Proof.
  intros Hid s r s' Hs E. unfold dispatch_register in E. unfold vbind at 1, vread in E.
  destruct (register_shell (sv_state s) rq (at_capability now) peer) as [[st c]|e] eqn:Er.
  2: { destruct (is_value_error e); injection E as _ <-; (split; [done|reflexivity]). }
  apply (accepted_moves R st _ _ s r s' E Hs).
  - exact (engine_ok_register _ _ _ _ _ _ (so_engine s Hs) Hid Er).
  - exact (register_captured _ _ _ _ _ _ Er).
  - apply moves_bind; [done|apply moves_lift|intros ?; apply moves_ret]; done.
Qed.

Lemma event_moves R `{!PreOrder R} rq now : moves R (dispatch_event rq now).
Proof.
  intros s r s' Hs E. unfold dispatch_event in E. unfold vbind at 1, vread in E.
  destruct (apply_event (sv_state s) rq) as [st|e] eqn:Er.
  2: { destruct (is_value_error e); injection E as _ <-; (split; [done|reflexivity]). }
  apply (accepted_moves R st _ _ s r s' E Hs).
  - exact (engine_ok_event _ _ _ (so_engine s Hs) Er).
  - exact (event_captured _ _ _ Er).
  - by apply moves_ret.
Qed.

(** Reads and pure steps whose result matters. *)
Lemma moves_bind_read {A B} R `{!PreOrder R} (f : Server -> A) (k : A -> serve B) :
  (forall s, server_ok s -> moves R (k (f s))) -> moves R (vbind (vread f) k).
Proof. intros Hk s r s' Hs E. exact (Hk s Hs s r s' Hs E). Qed.

Lemma moves_bind_lift {A B} R `{!PreOrder R} (x : result A) (k : A -> serve B) :
  (forall a, x = Ok a -> moves R (k a)) -> moves R (vbind (vlift x) k).
Proof.
  intros Hk s r s' Hs E. unfold vbind, vlift in E. destruct x as [a|e] eqn:Hx; [exact (Hk a eq_refl _ _ _ Hs E)|].
  injection E as _ <-. split; [done|reflexivity].
Qed.

(** One step of a handler's structure. *)
Ltac step_moves :=
  match goal with
  | |- moves _ (vbind _ _) => apply moves_bind; [typeclasses eauto| |intros ?]
  | |- moves _ (vcatch _ _) => apply moves_catch; [typeclasses eauto| |intros ?]
  | |- moves _ (or_not_saved _ _) => apply moves_not_saved; [typeclasses eauto| |intros ?]
  | |- moves _ (vret _) => by apply moves_ret, _
  | |- moves _ (vlift _) => by apply moves_lift, _
  | |- moves _ (vread _) => by apply moves_read, _
  | |- moves _ (on_checkpoints _) => by apply moves_checkpoints, _
  | |- moves _ (on_cache _) => by apply moves_cache, _
  | |- moves _ (on_store (load_recovery _)) => by apply moves_load, _
  | |- moves _ (match ?x with _ => _ end) => destruct x
  end.

(** ** Handlers that may *)
Section Protocol.
Context (opens : bool) (discards : option pystr).
#[local] Notation R := (rtc (recovery_move opens discards)).

Lemma write_moves x : opens = true -> recovery_wf x -> real_time (created_at x) -> attempts x = [] -> completed_item_ids x = [] ->
  moves R (on_store (write_recovery rec_limit x)).
Proof.
  intros Hop Hwf Ht Ha Hc s r s' [H1 H2 H3] [E He]%on_store_inv.
  apply write_recovery_moves in E as [_ Hm]; [|done..]. fold (record_of_server s) in Hm. fold (record_of_server s') in Hm.
  split; [split; [by rewrite He..|]|].
  - intros y Hy. destruct Hm as [Hm|[_ Hm]]; [apply H3; congruence|]. rewrite Hm in Hy. by injection Hy as <-.
  - destruct Hm as [->|[-> ->]]; [reflexivity|]. apply rtc_once. by apply move_open.
Qed.

Lemma finish_moves ws discard now : (discard = true -> discards = Some ws) ->
  moves R (on_store (complete_or_discard rec_limit ws discard now)).
Proof.
  intros Hd s r s' [H1 H2 H3] [E He]%on_store_inv.
  apply complete_moves in E as [_ Hm]. fold (record_of_server s) in Hm. fold (record_of_server s') in Hm.
  split; [split; [by rewrite He..|]|].
  - intros y Hy. destruct Hm as [Hm|(x & _ & _ & Hm & _)]; [apply H3|]; congruence.
  - destruct Hm as [->|(x & -> & Hws & -> & Hdone)]; [reflexivity|]. apply rtc_once, move_end.
    destruct Hdone as [Hdone|Hdone]; [right|by left]. rewrite Hws. by apply Hd.
Qed.

Lemma commit_record_moves ws attempt outs s r s' x : server_ok s -> record_of_server s = Some x ->
  Forall outcome_wf outs -> (forall o, o ∈ outs -> out_item_id o ∉ completed_item_ids x) ->
  on_store (commit_outcomes rec_limit ws attempt outs) s = (r, s') ->
  server_ok s' /\ R (record_of_server s) (record_of_server s').
Proof.
  intros [H1 H2 H3] Hx Ho Hopen [E He]%on_store_inv.
  apply commit_moves in E as (_ & Hm & _); [|done..]. fold (record_of_server s) in Hm. fold (record_of_server s') in Hm.
  assert (Hcase : record_of_server s' = record_of_server s \/
    exists x', committed x ws attempt outs = Ok x' /\ record_of_server s' = Some x').
  { destruct Hm as [Hm|(y & x' & Hy & Hc & Hm)]; [by left|right]. rewrite Hx in Hy. injection Hy as <-. by eauto. }
  split; [split; [by rewrite He..|]|].
  - intros y Hy. destruct Hcase as [Hs|(x' & Hc & Hs)]; rewrite Hs in Hy; [exact (H3 y Hy)|]. injection Hy as <-.
    apply committed_Ok in Hc as (-> & _). exact (H3 x Hx).
  - destruct Hcase as [->|(x' & Hc & ->)]; [reflexivity|]. rewrite Hx. apply rtc_once.
    pose proof (committed_Ok _ _ _ _ _ Hc) as (_ & -> & _). exact (move_commit _ _ x attempt outs x' Hc Hopen).
Qed.

(** A new record of a reconciled workspace. *)
Lemma reconciled_shells w snapshot boot probe home ws i : reconcile w snapshot boot probe home = Ok (Some ws) ->
  i ∈ ws_items ws -> item_shell i ∈ shells snapshot.
Proof.
  rewrite reconcile_eq. intros Hr Hi.
  assert (exists id its, rmap (fun c => recovery_item w home (shell_id c.1) c.1 c.2) (candidates boot probe snapshot) =
    Ok its /\ ws = mkWorkspace id its (reconcile_diagnostics boot probe snapshot)) as (id & its & Hits & ->).
  { destruct (candidates boot probe snapshot), (reconcile_diagnostics boot probe snapshot); try done;
      apply rbind_Ok in Hr as (id & _ & Hr); apply rbind_Ok in Hr as (its & Hits & Hr); injection Hr as <-; by eauto. }
  apply rmap_Ok in Hits. apply list_elem_of_lookup in Hi as [n Hn].
  destruct (Forall2_lookup_r _ _ _ _ _ Hits Hn) as ([s r] & Hs & Hit).
  apply list_elem_of_lookup_2 in Hs. apply candidates_elem in Hs as [Hs _]. apply (proj1 (shells_by_id_elem _ _)) in Hs.
  unfold recovery_item in Hit. apply rbind_Ok in Hit as ([d wn] & _ & Hit). apply Ok_inj in Hit as ->. exact Hs.
Qed.

Lemma new_record_ok w snapshot boot probe home ws x : snapshot_wf snapshot ->
  reconcile w snapshot boot probe home = Ok (Some ws) -> record_from_workspace ws snapshot = Ok x ->
  recovery_wf x /\ created_at x = captured_at snapshot /\ attempts x = [] /\ completed_item_ids x = [].
Proof.
  intros [_ Hall] Hr Hx. pose proof (record_from_workspace_Ok _ _ _ Hx) as (_ & _ & Hp & _).
  apply rbind_Ok in Hx as (l & Hl & Hx). apply construct_Ok in Hx as [-> _].
  split; [|done]. split; [done|]. split; [|constructor]. cbn [items]. apply rmap_Ok in Hl.
  apply Forall_forall. intros y Hy. apply list_elem_of_lookup in Hy as [n Hn].
  destruct (Forall2_lookup_r _ _ _ _ _ Hl Hn) as (i & Hi & Hy). apply construct_Ok in Hy as [-> Hy].
  split; [done|]. cbn [rec_shell]. rewrite Forall_forall in Hall. apply Hall.
  eapply reconciled_shells; [exact Hr|]. exact (list_elem_of_lookup_2 _ _ _ Hi).
Qed.

Lemma listed_record_moves : opens = true -> moves R (listed_record env).
Proof.
  intros Hop. unfold listed_record. rewrite Henv. apply moves_bind; [typeclasses eauto|by apply moves_load, _|].
  intros [r|]; [by apply moves_ret, _|]. apply moves_bind_read; [typeclasses eauto|]. intros s Hs.
  apply moves_bind_lift; [typeclasses eauto|]. intros [ws|] Hws; [|by apply moves_ret, _].
  destruct (ws_items ws) eqn:Hi; [by apply moves_ret, _|].
  apply moves_bind_lift; [typeclasses eauto|]. intros x Hx.
  destruct (new_record_ok _ _ _ _ _ _ _ (ok_snapshot _ (so_engine s Hs)) Hws Hx) as (Hwf & Hc & Ha & Hd).
  apply moves_bind; [typeclasses eauto| |].
  - apply write_moves; [done|done|rewrite Hc; by apply so_captured|done..].
  - intros _. apply moves_bind; [typeclasses eauto|by apply moves_load, _|]. intros ?. by apply moves_ret, _.
Qed.

Lemma status_moves R' `{!PreOrder R'} : moves R' (dispatch_status env).
Proof. unfold dispatch_status, recovery_count. rewrite Henv. repeat step_moves. Qed.

Lemma snapshot_moves R' `{!PreOrder R'} : moves R' snapshot_begin.
Proof. unfold snapshot_begin. repeat step_moves. Qed.

Lemma list_moves rq : opens = true -> moves R (_restore_list env rq).
Proof.
  intros Hop. unfold _restore_list. apply moves_not_saved; [typeclasses eauto| |intros ?; by step_moves].
  apply moves_bind; [typeclasses eauto|by apply listed_record_moves|]. intros []; repeat step_moves.
Qed.

Lemma answer_again_moves x rq now : moves R (answer_again env x rq now).
Proof.
  unfold answer_again. rewrite Henv. repeat first [step_moves | by apply finish_moves].
Qed.

Lemma execute_begin_moves rq now : moves R (execute_begin env rq now).
Proof.
  unfold execute_begin. rewrite Henv. cbv zeta.
  repeat first [apply answer_again_moves | step_moves].
Qed.

Lemma retry_begin_moves rq : moves R (retry_begin env rq).
Proof. unfold retry_begin. rewrite Henv. cbv zeta. repeat step_moves. Qed.

Lemma discard_moves rq now : discards = Some (dr_workspace_id rq) -> moves R (_discard env rq now).
Proof. intros Hd. unfold _discard. rewrite Henv. repeat first [step_moves | by apply finish_moves]. Qed.

End Protocol.

(** The workspace a request may discard. *)
Definition discarded_by (request : ServiceRequest) : option pystr :=
  match request with DiscardReq r => Some (dr_workspace_id r) | _ => None end.

(** Only a listing opens a workspace. *)
Definition opened_by (request : ServiceRequest) : bool :=
  match request with RestoreListReq _ => true | _ => false end.

Definition request_identity_ok (request : ServiceRequest) : Prop :=
  match request with RegisterReq r => identity_wf (reg_identity r) | _ => True end.

Lemma dispatch_moves rq now peer : request_identity_ok rq ->
  moves (rtc (recovery_move (opened_by rq) (discarded_by rq))) (_dispatch env rq now peer).
Proof.
  intros Hid. destruct rq; cbn [_dispatch discarded_by opened_by].
  - apply moves_bind; [typeclasses eauto|exact (register_moves _ _ _ _ Hid)|intros ?; by step_moves].
  - apply moves_bind; [typeclasses eauto|exact (event_moves _ _ _)|intros ?; by step_moves].
  - apply moves_bind; [typeclasses eauto|exact (status_moves _)|intros ?; by step_moves].
  - apply moves_bind; [typeclasses eauto|exact (snapshot_moves _)|intros ?; by step_moves].
  - apply moves_bind; [typeclasses eauto|exact (list_moves _ _ _ eq_refl)|intros ?; by step_moves].
  - apply moves_bind; [typeclasses eauto|exact (execute_begin_moves _ _ _ _)|intros ?; by step_moves].
  - apply moves_bind; [typeclasses eauto|exact (retry_begin_moves _ _ _)|intros ?; by step_moves].
  - apply moves_bind; [typeclasses eauto|exact (discard_moves _ _ _ _ eq_refl)|intros ?; by step_moves].
Qed.

(** ** What an attempt is started with *)
Record pending_ok (p : Pending) : Prop := {
  po_selected : pd_selected p <> [] /\ NoDup (pd_selected p);
  po_open : forall i, i ∈ pd_selected p -> i ∈ map rec_item_id (items (pd_record p)) /\
    i ∉ completed_item_ids (pd_record p);
  po_approved : pd_approved p ⊆ pd_selected p;
}.

(** The first step of both restore requests: the loaded record, or an error. *)
Lemma loaded_inv s (k : ServiceResponse + option RecoveryRecord -> serve (ServiceResponse + Pending)) r s' :
  (let@ loaded := vcatch (let@ r := on_store (load_recovery rec_limit) in vret (inr r))
     (fun e => if is_persistence_error e then vret (inl (_error PERSISTENCE_FAILED)) else vlift (Err e)) in
   k loaded) s = (r, s') ->
  exists s1, record_of_server s1 = record_of_server s /\ sv_state s1 = sv_state s /\
    (k (inr (record_of_server s)) s1 = (r, s') \/ k (inl (_error PERSISTENCE_FAILED)) s1 = (r, s') \/
     (s1 = s' /\ exists e, r = Err e)).
Proof.
  unfold vbind at 1, vcatch. unfold vbind, on_store.
  destruct (load_recovery rec_limit (sv_store s)) as [rl st] eqn:El. intros E.
  apply load_recovery_moves in El as (_ & Ho & Ha & _). set (s1 := mkServer _ _ st _) in E.
  exists s1. split; [done|]. split; [done|]. destruct rl as [o|e].
  - left. unfold vret in E. unfold record_of_server. by rewrite (Ha o eq_refl).
  - destruct (is_persistence_error e); [by right; left|]. right. right. unfold vlift in E. injection E as <- <-. by eauto.
Qed.

Lemma validate_inr o ws x : _validate_workspace o ws = inr x -> o = Some x /\ workspace_id x = ws.
Proof.
  unfold _validate_workspace. destruct o as [y|]; [|done]. destruct (str_eqb (workspace_id y) ws) eqn:E; [|done].
  apply str_eqb_eq in E. by intros [= ->].
Qed.

Lemma execute_begin_pending rq now s p s' : execute_begin env rq now s = (Ok (inr p), s') ->
  record_of_server s' = Some (pd_record p) /\ pending_ok p.
Proof.
  unfold execute_begin. rewrite Henv. intros (s1 & Ho & _ & [E|[E|(_ & e & ?)]])%loaded_inv; [|done..].
  destruct (_validate_workspace (record_of_server s) (re_workspace_id rq)) as [|x] eqn:Hv; [done|].
  apply validate_inr in Hv as [Hx _]. cbv zeta in E.
  destruct (nodupb (re_selected_item_ids rq)) eqn:Hn; [|done].
  destruct (subsetb (re_selected_item_ids rq) (map rec_item_id (items x))) eqn:Hsub; [|done].
  destruct (subsetb (re_approved_item_ids rq) (re_selected_item_ids rq)) eqn:Happ; [|done].
  cbn [negb orb] in E.
  destruct (filter (fun i => str_in i (completed_item_ids x) = false) (re_selected_item_ids rq)) as [|i l] eqn:Hf.
  { apply vbind_inv in E as [(? & ? & _ & [=])|(? & _ & ?)]; done. }
  injection E as <- <-. split; [by rewrite Ho|]. rewrite -Hf. split; cbn [pd_selected pd_record pd_approved].
  - split; [by rewrite Hf|]. apply NoDup_filter. by apply nodupb_spec.
  - intros j [Hj Hin]%list_elem_of_filter. apply str_in_false in Hj. split; [|done].
    by apply (proj1 (subsetb_spec _ _) Hsub).
  - intros j Hj. apply list_elem_of_filter in Hj as [Hj _]. rewrite Hf. exact (proj1 (str_in_spec j (i :: l)) Hj).
Qed.

(** An outcome of an attempt of a record is about one of its items. *)
Lemma attempt_outcome_item x a o : recovery_post_init x = Ok tt -> attempt_post_init a = Ok tt ->
  a ∈ attempts x -> o ∈ outcomes a -> out_item_id o ∈ map rec_item_id (items x).
Proof.
  intros Hx Ha Hin Ho. unfold attempt_post_init in Ha. unfold recovery_post_init in Hx. post_inv Ha. post_inv Hx.
  assert (Hsel : out_item_id o ∈ selected_item_ids a).
  { match goal with H : raise_if (existsb _ (outcomes a)) _ = Ok _ |- _ => apply raise_if_Ok in H; rename H into He end.
    apply str_in_spec. destruct (str_in (out_item_id o) (selected_item_ids a)) eqn:E; [done|]. exfalso.
    assert (existsb (fun o => negb (str_in (out_item_id o) (selected_item_ids a))) (outcomes a) = true); [|congruence].
    apply existsb_exists. exists o. split; [by apply list_elem_of_In|]. by rewrite E. }
  match goal with H : rforeach _ (attempts x) = Ok _ |- _ => apply rforeach_Ok in H; rename H into Hall end.
  rewrite Forall_forall in Hall. specialize (Hall a Hin). apply rbind_Ok in Hall as (? & _ & Hsub).
  apply raise_if_Ok, negb_false_iff in Hsub. by apply (proj1 (subsetb_spec _ _) Hsub).
Qed.

Lemma retry_begin_pending rq s p s' : retry_begin env rq s = (Ok (inr p), s') ->
  record_of_server s' = Some (pd_record p) /\ pending_ok p.
Proof.
  unfold retry_begin. rewrite Henv. intros (s1 & Ho & _ & [E|[E|(_ & e & ?)]])%loaded_inv; [|done..].
  destruct (_validate_workspace (record_of_server s) (rr_workspace_id rq)) as [|x] eqn:Hv; [done|].
  apply validate_inr in Hv as [Hx _].
  destruct (find_attempt x (rr_attempt_id rq)) as [source|] eqn:Hsrc; [|done]. cbv zeta in E.
  set (retryable := map out_item_id (filter (fun o => is_retryable x o = true) (outcomes source))) in *.
  destruct (subsetb (rr_approved_item_ids rq) retryable) eqn:Happ; [|done]. cbn [negb] in E.
  assert (retryable <> [] /\ p = mkPending x retryable (rr_approved_item_ids rq) (Some (rr_attempt_id rq)) /\ s' = s1)
    as (Hne & -> & ->) by (destruct retryable; [done|]; by injection E as <- <-).
  split; [by rewrite Ho|]. unfold find_attempt in Hsrc. apply find_some in Hsrc as [Hin _].
  apply list_elem_of_In in Hin. destruct (open_record_wf _ _ _ _ Hx) as (Hp & _ & Hatt).
  rewrite Forall_forall in Hatt. destruct (Hatt _ Hin) as [Ha _].
  split; cbn [pd_selected pd_record pd_approved].
  - split; [done|]. unfold attempt_post_init, _require_unique in Ha. r_inv.
    assert (NoDup (map out_item_id (outcomes source))) as Hnd.
    { apply nodupb_spec. by match goal with Hn : nodupb (map out_item_id _) = true |- _ => rewrite Hn end. }
    unfold retryable. clear -Hnd. induction (outcomes source) as [|o l IH]; [constructor|].
    inversion_clear Hnd as [|? ? Hn Hnd']. rewrite filter_cons. case_decide; [|by apply IH]. cbn [map].
    constructor; [|by apply IH]. intros Hm. apply Hn. apply list_elem_of_fmap in Hm as (y & -> & Hy).
    apply list_elem_of_filter in Hy as [_ Hy]. by apply list_elem_of_fmap_2.
  - intros i (o & -> & [Hr Ho']%list_elem_of_filter)%list_elem_of_fmap.
    unfold is_retryable in Hr. apply andb_true_iff in Hr as [_ Hr]. apply negb_true_iff, str_in_false in Hr.
    split; [|done]. exact (attempt_outcome_item x source o Hp Ha Hin Ho').
  - exact (proj1 (subsetb_spec _ _) Happ).
Qed.

(** ** While a record is open

    [keeps x P m]: with [x] open, [m] leaves it open, and answers in [P]. *)
Definition keeps {A} (x : RecoveryRecord) (P : A -> Prop) (m : serve A) : Prop := forall s r s',
  server_ok s -> record_of_server s = Some x -> m s = (r, s') ->
  server_ok s' /\ record_of_server s' = Some x /\ forall a, r = Ok a -> P a.

Section Keeping.
Context (x : RecoveryRecord).

Lemma serve_moves {A} (m : serve A) : moves eq m -> keeps x (fun _ => True) m.
Proof. intros Hm s r s' Hs Hx E. destruct (Hm _ _ _ Hs E) as [Hs' He]. split; [done|]. split; [congruence|done]. Qed.

Lemma serve_ret {A} (P : A -> Prop) a : P a -> keeps x P (vret a).
Proof. intros Ha s r s' Hs Hx E. injection E as <- <-. split; [done|]. split; [done|]. by intros b [= <-]. Qed.

Lemma serve_err {A} (P : A -> Prop) e : keeps x P (vlift (Err e)).
Proof. intros s r s' Hs Hx E. by injection E as <- <-. Qed.

Lemma serve_bind {A B} (Q : A -> Prop) (P : B -> Prop) (m : serve A) f :
  keeps x Q m -> (forall a, Q a -> keeps x P (f a)) -> keeps x P (vbind m f).
Proof.
  intros Hm Hf s r s' Hs Hx [(a & s1 & E1 & E)|(e & E1 & ->)]%vbind_inv;
    destruct (Hm _ _ _ Hs Hx E1) as (Hs1 & Hx1 & Ha); [|done].
  exact (Hf a (Ha a eq_refl) _ _ _ Hs1 Hx1 E).
Qed.

Lemma serve_catch {A} (P : A -> Prop) (m : serve A) h :
  keeps x P m -> (forall e, keeps x P (h e)) -> keeps x P (vcatch m h).
Proof.
  intros Hm Hh s r s' Hs Hx [(a & E1 & ->)|(e & s1 & E1 & E)]%vcatch_inv;
    destruct (Hm _ _ _ Hs Hx E1) as (Hs1 & Hx1 & Ha).
  - split; [done|]. split; [done|]. intros b [= <-]. by apply Ha.
  - exact (Hh e _ _ _ Hs1 Hx1 E).
Qed.

Lemma keeps_not_saved {A} (Q : A -> Prop) (m : serve A) k :
  keeps x Q m -> (forall a, Q a -> keeps x (fun _ => True) (k a)) -> keeps x (fun _ => True) (or_not_saved m k).
Proof.
  intros Hm Hk. unfold or_not_saved.
  apply (serve_bind (fun r => forall a, r = inl a -> Q a)).
  - apply serve_catch.
    + apply (serve_bind Q); [exact Hm|]. intros a Ha. apply serve_ret. by intros b [= <-].
    + intros e. destruct (is_persistence_error e); [by apply serve_ret|apply serve_err].
  - intros [a|[]] Ha; [by apply Hk, Ha|by apply serve_ret].
Qed.

Lemma keeps_load : keeps x (fun o => o = Some x) (on_store (load_recovery rec_limit)).
Proof.
  intros s r s' Hs Hx E. destruct (moves_load eq _ _ _ Hs E) as [Hs' He]. split; [done|]. split; [congruence|].
  apply on_store_inv in E as [E _]. apply load_recovery_moves in E as (_ & _ & Ha & _).
  intros o Ho. rewrite -(Ha o Ho). exact Hx.
Qed.

Lemma keeps_true {A} (P Q : A -> Prop) m : (forall a, Q a -> P a) -> keeps x Q m -> keeps x P m.
Proof.
  intros HPQ Hm s r s' Hs Hx E. destruct (Hm _ _ _ Hs Hx E) as (? & ? & Ha). split; [done|]. split; [done|]. auto.
Qed.

Lemma keeps_list rq : keeps x (fun _ => True) (_restore_list env rq).
Proof.
  unfold _restore_list. apply (keeps_not_saved (fun _ => True)); [|intros ? _; by apply serve_ret].
  apply (serve_bind (fun _ => True)); [|intros [] _; apply serve_moves; repeat step_moves].
  unfold listed_record. rewrite Henv. apply (serve_bind (fun o => o = Some x)); [apply keeps_load|].
  intros o ->. by apply serve_ret.
Qed.

(** The record a workspace operation finds is [x]. *)
Lemma keeps_loaded (k : ServiceResponse + option RecoveryRecord -> serve (ServiceResponse + Pending)) P :
  (forall l, l = inr (Some x) \/ (exists r, l = inl r) -> keeps x P (k l)) ->
  keeps x P
    (let@ loaded := vcatch (let@ r := on_store (load_recovery rec_limit) in vret (inr r))
       (fun e => if is_persistence_error e then vret (inl (_error PERSISTENCE_FAILED)) else vlift (Err e)) in
     k loaded).
Proof.
  intros Hk. apply (serve_bind (fun l => l = inr (Some x) \/ exists r, l = inl r)); [|exact Hk].
  apply serve_catch.
  - apply (serve_bind (fun o => o = Some x)); [apply keeps_load|]. intros o ->. apply serve_ret. by left.
  - intros e. destruct (is_persistence_error e); [apply serve_ret; right; by eauto|apply serve_err].
Qed.

Lemma other_workspace ws : Some ws <> Some (workspace_id x) ->
  _validate_workspace (Some x) ws = inl (_error WORKSPACE_MISMATCH).
Proof.
  intros Hne. unfold _validate_workspace. destruct (str_eqb (workspace_id x) ws) eqn:Ew; [|done].
  apply str_eqb_eq in Ew. congruence.
Qed.

Definition refused (r : ServiceResponse + Pending) : Prop := exists response, r = inl response.

Lemma keeps_execute rq now : Some (re_workspace_id rq) <> Some (workspace_id x) ->
  keeps x refused (execute_begin env rq now).
Proof.
  intros Hw. unfold execute_begin. rewrite Henv. apply keeps_loaded. intros l [->|[r ->]].
  - rewrite (other_workspace _ Hw). apply serve_ret. by eexists.
  - apply serve_ret. by eexists.
Qed.

Lemma keeps_retry rq : Some (rr_workspace_id rq) <> Some (workspace_id x) -> keeps x refused (retry_begin env rq).
Proof.
  intros Hw. unfold retry_begin. rewrite Henv. apply keeps_loaded. intros l [->|[r ->]].
  - rewrite (other_workspace _ Hw). apply serve_ret. by eexists.
  - apply serve_ret. by eexists.
Qed.

Lemma keeps_discard rq now : Some (dr_workspace_id rq) <> Some (workspace_id x) ->
  keeps x (fun _ => True) (_discard env rq now).
Proof.
  intros Hw. unfold _discard. rewrite Henv. apply (keeps_not_saved (fun o => o = Some x)); [apply keeps_load|].
  intros o ->. rewrite (other_workspace _ Hw). by apply serve_ret.
Qed.

(** A request on another workspace, or on none, leaves the open record and starts nothing. *)
Lemma other_request_keeps rq now peer : request_identity_ok rq -> workspace_of rq <> Some (workspace_id x) ->
  keeps x (fun r => forall p, r <> Starting p) (_dispatch env rq now peer).
Proof.
  intros Hid Hw.
  assert (Hreply : forall m, keeps x (fun _ => True) m ->
    keeps x (fun r => forall p, r <> Starting p) (let@ a := m in vret (Replied a))).
  { intros m Hm. apply (serve_bind (fun _ => True)); [exact Hm|]. intros a _. by apply serve_ret. }
  destruct rq as [rq|rq| | |rq|rq|rq|rq]; cbn [_dispatch workspace_of] in *.
  - apply Hreply, serve_moves, register_moves; [typeclasses eauto|done].
  - apply Hreply, serve_moves, event_moves, _.
  - apply Hreply, serve_moves, status_moves, _.
  - apply (serve_bind (fun _ => True)); [apply serve_moves, snapshot_moves, _|].
    intros a _. apply serve_ret. by destruct a as [|[]].
  - apply Hreply, keeps_list.
  - apply (serve_bind refused); [by apply keeps_execute|]. intros a [r ->]. by apply serve_ret.
  - apply (serve_bind refused); [by apply keeps_retry|]. intros a [r ->]. by apply serve_ret.
  - by apply Hreply, keeps_discard.
Qed.

End Keeping.

(** ** Launching and committing *)
Definition launched_ok (p : Pending) (l : RestoreAttempt * list Outcome) : Prop :=
  Forall outcome_wf l.2 /\ forall o, o ∈ l.2 -> out_item_id o ∈ pd_selected p.

Lemma launch_moves R `{!PreOrder R} p : moves R (attempt_launch env p).
Proof. unfold attempt_launch, attempt_error. repeat step_moves. Qed.

Lemma truncated_ok raw outs : rmap truncate_outcome raw = Ok outs ->
  Forall outcome_wf outs /\ map out_item_id outs = map out_item_id raw.
Proof.
  intros Hm%rmap_Ok. induction Hm as [|o o' raw outs Ho _ [IH1 IH2]]; [done|].
  apply construct_Ok in Ho as [-> Ho]. split; [by constructor|]. cbn [map]. by rewrite IH2.
Qed.

Lemma launch_ok p s l s' : attempt_launch env p s = (Ok (inr l), s') -> launched_ok p l.
Proof.
  unfold attempt_launch, attempt_error. destruct (su_adapter env) as [a|]; [|done]. destruct (ad_detect a) as [[]|]; [|done..].
  intros [(r & E & Hr)|(e & s1 & _ & E)]%vcatch_inv; [|done]. injection Hr as <-.
  apply vbind_inv in E as [([attempt actions] & s1 & _ & E)|(e & _ & ?)]; [|done].
  apply vbind_inv in E as [(raw & s2 & _ & E)|(e & _ & ?)]; [|done]. cbv zeta in E.
  destruct (nodupb (map out_item_id raw)); [|done]. destruct (set_eqb (map out_item_id raw) (pd_selected p)) eqn:Hset; [|done].
  cbn [negb orb] in E. apply vbind_inv in E as [(outs & s3 & E3 & E)|(e & _ & ?)]; [|done].
  injection E as <- _. injection E3 as E3 _. apply truncated_ok in E3 as [Hwf Hids]. split; [exact Hwf|].
  cbn [snd]. intros o Ho. apply (proj1 (set_eqb_spec _ _) Hset). rewrite -Hids. by apply list_elem_of_fmap_2.
Qed.

Lemma commit_attempt_moves opens d p attempt outs now s r s' : server_ok s ->
  record_of_server s = Some (pd_record p) -> pending_ok p -> launched_ok p (attempt, outs) ->
  attempt_commit env p attempt outs now s = (r, s') ->
  server_ok s' /\ rtc (recovery_move opens d) (record_of_server s) (record_of_server s').
Proof.
  intros Hs Hx Hp [Hwf Hin] E. unfold attempt_commit in E. rewrite Henv in E.
  assert (Hopen : forall o, o ∈ outs -> out_item_id o ∉ completed_item_ids (pd_record p))
    by (intros o Ho; by apply (po_open p Hp), Hin).
  apply vbind_inv in E as [(a & s1 & E & E1)|(e & E & ->)]; [injection E1 as _ <-|];
    (apply vcatch_inv in E as [(a' & E & _)|(e' & s2 & E & E2)]; [|injection E2 as _ <-]);
    (apply vbind_inv in E as [(y & s3 & E & E3)|(e3 & E & _)];
     destruct (commit_record_moves opens d _ _ _ _ _ _ _ Hs Hx Hwf Hopen E) as [Hs3 H3]; [|done]);
    (assert (Hrest : moves (rtc (recovery_move opens d))
       (let@ _ := (if all_completed y
                   then on_store (complete_or_discard rec_limit (workspace_id (pd_record p)) false (at_time now))
                   else vret tt) in
        let@ response := vlift (_result y (attempt_id attempt) outs) in vret (A := ServiceResponse + ServiceResponse) (inr response)))
      by (repeat first [step_moves | by apply finish_moves]));
    destruct (Hrest _ _ _ Hs3 E3) as [Hs4 H4]; (split; [exact Hs4|etransitivity; [exact H3|exact H4]]).
Qed.

(** ** The running service *)
Definition flight_ok (s : Server) (f : Flight) : Prop :=
  record_of_server s = Some (pd_record (fl_pending f)) /\ pending_ok (fl_pending f) /\
  forall l, fl_launched f = Some l -> launched_ok (fl_pending f) l.

(** At most one attempt is in flight, and it is about the open record. *)
Record service_ok (c : Service) : Prop := {
  sk_server : server_ok (sc_server c);
  sk_flights : Forall (flight_ok (sc_server c)) (sc_flights c);
  sk_one : (length (sc_flights c) <= 1)%nat;
}.

Definition op_ok (op : service_op) : Prop :=
  match op with OpRequest rq _ _ => request_identity_ok rq | _ => True end.

Definition op_discards (op : service_op) : option pystr :=
  match op with OpRequest rq _ _ => discarded_by rq | _ => None end.

Definition op_opens (op : service_op) : bool :=
  match op with OpRequest rq _ _ => opened_by rq | _ => false end.

Lemma flight_ok_same s s' f : record_of_server s' = record_of_server s -> flight_ok s f -> flight_ok s' f.
Proof. intros He (H1 & H2). split; [congruence|done]. Qed.

(** A change of the server that leaves the engine and the open record as they are. *)
Lemma service_same c s' fs : service_ok c -> server_ok s' ->
  record_of_server s' = record_of_server (sc_server c) ->
  Forall (flight_ok (sc_server c)) fs -> (length fs <= 1)%nat -> service_ok (mkService s' fs).
Proof.
  intros Hc Hs He Hf Hl. split; [done| |done]. eapply Forall_impl; [exact Hf|]. intros f. by apply flight_ok_same.
Qed.

Lemma request_step c rq now peer : service_ok c -> request_identity_ok rq ->
  let c' := service_step env c (OpRequest rq now peer) in
  service_ok c' /\
  rtc (recovery_move (opened_by rq) (discarded_by rq)) (record_of_server (sc_server c)) (record_of_server (sc_server c')).
Proof.
  intros Hc Hid. cbn [service_step]. destruct (workspace_locked (sc_flights c) rq) eqn:Hlock; [split; [done|reflexivity]|].
  destruct (_dispatch env rq now peer (sc_server c)) as [r s'] eqn:E.
  destruct (dispatch_moves rq now peer Hid _ _ _ (sk_server c Hc) E) as [Hs' HR].
  destruct (sc_flights c) as [|f fs] eqn:Hfl.
  - assert (Hnone : service_ok (mkService s' []) /\
      rtc (recovery_move (opened_by rq) (discarded_by rq)) (record_of_server (sc_server c)) (record_of_server s'))
      by (split; [split; [done|constructor|cbn; lia]|exact HR]).
    destruct r as [[|required target|p]|e]; try exact Hnone. split; [|exact HR]. split; [done| |cbn; lia].
    constructor; [|constructor].
    assert (Hp : record_of_server s' = Some (pd_record p) /\ pending_ok p).
    { destruct rq; cbn [_dispatch] in E; (apply vbind_inv in E as [(a & s1 & E & E1)|(e & _ & ?)]; [|done]);
        unfold vret in E1; try discriminate E1.
      - by destruct a as [|[]].
      - destruct a as [|q]; [done|]. injection E1 as <- <-. exact (execute_begin_pending _ _ _ _ _ E).
      - destruct a as [|q]; [done|]. injection E1 as <- <-. exact (retry_begin_pending _ _ _ _ E). }
    destruct Hp as [Hp1 Hp2]. by split.
  - pose proof (sk_one c Hc) as Hone. rewrite Hfl in Hone. destruct fs; [|cbn in Hone; lia].
    pose proof (sk_flights c Hc) as Hall. rewrite Hfl in Hall. inversion Hall as [|? ? (Hx & Hpend) _]; subst.
    set (x := pd_record (fl_pending f)) in *.
    assert (Hw : workspace_of rq <> Some (workspace_id x)).
    { intros Hw. unfold workspace_locked in Hlock. rewrite Hw in Hlock. cbn [existsb] in Hlock.
      by rewrite str_eqb_refl in Hlock. }
    destruct (other_request_keeps x rq now peer Hid Hw _ _ _ (sk_server c Hc) Hx E) as (_ & Hx' & Hno).
    assert (Hgoal : service_ok (mkService s' [f]) /\
      rtc (recovery_move (opened_by rq) (discarded_by rq)) (record_of_server (sc_server c)) (record_of_server s')).
    { split; [|exact HR]. apply (service_same c); [done|done|congruence|exact Hall|cbn; lia]. }
    destruct r as [[|required target|p]|e]; try exact Hgoal. by destruct (Hno _ eq_refl p).
Qed.

Lemma launch_step c n : service_ok c ->
  let c' := service_step env c (OpLaunch n) in
  service_ok c' /\ record_of_server (sc_server c') = record_of_server (sc_server c).
Proof.
  intros Hc. cbn [service_step]. destruct (sc_flights c !! n) as [[p [l|]]|] eqn:Hn; [done| |done].
  destruct (flights_at_most_one _ _ _ (sk_one c Hc) Hn) as [-> Hfl].
  pose proof (sk_flights c Hc) as Hall. rewrite Hfl in Hall. apply Forall_cons in Hall as [(Hx & Hp & _) _].
  destruct (attempt_launch env p (sc_server c)) as [r s'] eqn:E.
  destruct (launch_moves eq p _ _ _ (sk_server c Hc) E) as [Hs' He].
  assert (Hgone : service_ok (mkService s' (delete 0%nat (sc_flights c))) /\
    record_of_server s' = record_of_server (sc_server c)).
  { split; [|done]. rewrite Hfl. split; [done|constructor|cbn; lia]. }
  destruct r as [[response|l]|e]; try exact Hgone. split; [|done]. rewrite Hfl. split; [done| |cbn; lia].
  constructor; [|constructor]. split; [rewrite -He; exact Hx|]. split; [done|].
  intros l' [= <-]. exact (launch_ok _ _ _ _ E).
Qed.

Lemma commit_step opens d c n now : service_ok c ->
  let c' := service_step env c (OpCommit n now) in
  service_ok c' /\ rtc (recovery_move opens d) (record_of_server (sc_server c)) (record_of_server (sc_server c')).
Proof.
  intros Hc. cbn [service_step]. destruct (sc_flights c !! n) as [[p [[attempt outs]|]]|] eqn:Hn;
    [|split; [done|reflexivity]..].
  destruct (flights_at_most_one _ _ _ (sk_one c Hc) Hn) as [-> Hfl].
  pose proof (sk_flights c Hc) as Hall. rewrite Hfl in Hall. apply Forall_cons in Hall as [(Hx & Hp & Hl) _].
  destruct (attempt_commit env p attempt outs now (sc_server c)) as [r s'] eqn:E.
  destruct (commit_attempt_moves opens d _ _ _ _ _ _ _ (sk_server c Hc) Hx Hp (Hl _ eq_refl) E) as [Hs' HR].
  split; [|exact HR]. rewrite Hfl. split; [done|constructor|cbn; lia].
Qed.

Lemma loop_keeps s m st cache : server_ok s -> opened rec_limit st = record_of_server s ->
  server_ok (mkServer (sv_state s) m st cache).
Proof. intros [H1 H2 H3] Ho. split; [done|done|]. unfold record_of_server. cbn [sv_store]. rewrite Ho. exact H3. Qed.

Lemma finish_write_keeps clock s : server_ok s ->
  server_ok (finish_write env clock s) /\ record_of_server (finish_write env clock s) = record_of_server s.
Proof.
  intros Hs. unfold finish_write. destruct (cm_writing (sv_checkpoints s)) as [[g snapshot]|]; [|done].
  rewrite Henv. destruct (Store.write rec_limit snapshot (sv_store s)) as [r st] eqn:E.
  apply (spares_opened rec_limit) in E as [_ Ho]; [|apply checkpoint_write_spares; exact Hrec].
  split; [by apply loop_keeps|exact Ho].
Qed.

Lemma service_step_ok c op : service_ok c -> op_ok op ->
  service_ok (service_step env c op) /\
  rtc (recovery_move (op_opens op) (op_discards op)) (record_of_server (sc_server c))
    (record_of_server (sc_server (service_step env c op))).
Proof.
  intros Hc Hop.
  assert (Hkeep : forall f, server_ok (f (sc_server c)) ->
    record_of_server (f (sc_server c)) = record_of_server (sc_server c) ->
    service_ok (with_server f c) /\ rtc (recovery_move (op_opens op) (op_discards op)) (record_of_server (sc_server c))
      (record_of_server (sc_server (with_server f c)))).
  { intros f Hs He. cbn. rewrite He. split; [|reflexivity].
    apply (service_same c); [done|done|done|apply sk_flights, Hc|apply sk_one, Hc]. }
  destruct op as [rq now peer|n|n now|e clock| |clock].
  - by apply request_step.
  - destruct (launch_step c n Hc) as [H1 ->]. split; [done|reflexivity].
  - by apply commit_step.
  - destruct e; try (split; [exact Hc|reflexivity]); (apply Hkeep; [apply loop_keeps; [apply Hc|done]|done]).
  - apply Hkeep; [|done]. apply loop_keeps; [apply Hc|done].
  - apply Hkeep; apply finish_write_keeps, Hc.
Qed.

End Moves.

Lemma service_run_cons `{Unicode} env c op ops :
  service_run env c (op :: ops) = service_run env (service_step (with_world env op.1) c op.2) ops.
Proof. reflexivity. Qed.

Lemma service_run_ok `{Unicode} env c ops : (16 <= su_rec_limit env)%nat -> service_ok (su_rec_limit env) c ->
  Forall (fun o => op_ok o.2) ops -> service_ok (su_rec_limit env) (service_run env c ops).
Proof.
  intros Hrec Hc Hops. revert c Hc. induction Hops as [|op ops Hop _ IH]; intros c Hc; [done|].
  rewrite service_run_cons. apply IH.
  exact (proj1 (service_step_ok (su_rec_limit env) Hrec (with_world env op.1) eq_refl c op.2 Hc Hop)).
Qed.

(** How far a record has come: a workspace with its items and what is completed. *)
Definition advances (x y : RecoveryRecord) : Prop :=
  workspace_id y = workspace_id x /\ items y = items x /\ completed_item_ids x ⊆ completed_item_ids y.

#[export] Instance advances_preorder : PreOrder advances.
Proof.
  split; [by intros x|]. intros x y z (H1 & H2 & H3) (H4 & H5 & H6). split; [congruence|]. split; [congruence|]. set_solver.
Qed.

Lemma committed_advances x ws a outs x' : committed x ws a outs = Ok x' -> advances x x'.
Proof.
  intros (-> & _)%committed_Ok. split; [done|]. split; [done|]. cbn [completed_item_ids record_after].
  intros i Hi. apply add_completed_elem. by left.
Qed.

(** ** Runs *)
Lemma service_run_app `{Unicode} env c ops1 ops2 :
  service_run env c (ops1 ++ ops2) = service_run env (service_run env c ops1) ops2.
Proof. apply foldl_app. Qed.

Lemma nothing_opens d o : rtc (recovery_move false d) None o -> o = None.
Proof. intros Hr. remember None as n eqn:En. induction Hr as [|? ? ? Hm _ _]; [done|]. subst. by inversion Hm. Qed.

Lemma moves_advance d o o' : rtc (recovery_move false d) o o' -> forall x, o = Some x ->
  o' = None \/ exists y, o' = Some y /\ advances x y.
Proof.
  induction 1 as [o|o o1 o' Hm Hrest IH]; intros x ->; [right; exists x; by split|].
  inversion Hm as [|? a outs x' Hc _|]; subst; [|left; exact (nothing_opens d o' Hrest)].
  destruct (IH x' eq_refl) as [->|(y & -> & Hy)]; [by left|right]. exists y. split; [done|].
  etransitivity; [exact (committed_advances _ _ _ _ _ Hc)|exact Hy].
Qed.

Section Runs.
Context `{Unicode} (env : Setup) (Hrec : (16 <= su_rec_limit env)%nat).
#[local] Notation opened_in c := (record_of_server (su_rec_limit env) (sc_server c)).

(** A step with a record open: it is closed, or it has advanced. *)
Lemma step_advances w c op x : service_ok (su_rec_limit env) c -> op_ok op -> opened_in c = Some x ->
  let c' := service_step (with_world env w) c op in
  opened_in c' = None \/ exists y, opened_in c' = Some y /\ advances x y.
Proof.
  intros Hc Hop Hx.
  destruct (service_step_ok (su_rec_limit env) Hrec (with_world env w) eq_refl c op Hc Hop) as [_ Hm].
  destruct (op_opens op) eqn:Hopens; [|by apply (moves_advance _ _ _ Hm)].
  right. exists x. split; [|reflexivity]. clear Hm.
  destruct op as [[]| | | | |]; try discriminate Hopens. cbn [service_step workspace_locked workspace_of].
  destruct (_dispatch _ _ _ _ _) as [answer s'] eqn:E.
  destruct (other_request_keeps (su_rec_limit env) (with_world env w) eq_refl x _ _ _ Hop ltac:(done) _ _ _
    (sk_server _ c Hc) Hx E) as (_ & Hx' & _).
  by destruct answer as [[]|].
Qed.

Lemma run_advances c ops x : service_ok (su_rec_limit env) c -> Forall (fun o => op_ok o.2) ops ->
  opened_in c = Some x -> (forall n, opened_in (service_run env c (take n ops)) <> None) ->
  exists y, opened_in (service_run env c ops) = Some y /\ advances x y.
Proof.
  intros Hc Hops. revert c Hc x. induction Hops as [|op ops Hop Hops IH]; intros c Hc x Hx Hopen; [exists x; by split|].
  rewrite service_run_cons.
  pose proof (proj1 (service_step_ok (su_rec_limit env) Hrec (with_world env op.1) eq_refl c op.2 Hc Hop)) as Hc'.
  destruct (step_advances op.1 c op.2 x Hc Hop Hx) as [Hno|(y & Hy & Hxy)]; [destruct (Hopen 1%nat); exact Hno|].
  destruct (IH _ Hc' y Hy) as (z & Hz & Hyz); [intros n; exact (Hopen (S n))|].
  exists z. split; [exact Hz|]. etransitivity; [exact Hxy|exact Hyz].
Qed.

End Runs.

(** ** The claims *)

(** C4. The stored recovery record follows the abstract protocol whatever the
    clients ask for, however requests interleave with the restores in flight and
    with the checkpoint loop, and whichever system calls of the store fail: at
    every step of a run the record moves only by [recovery_move], so it is opened
    only by a listing, changes only by committing outcomes of items that were
    still open, and ends only when everything is completed or on a discard of
    that very workspace. *)
Theorem service_refines_recovery `{Unicode} (env : Setup) (c : Service) (ops : list (World * service_op)) w op :
  (16 <= su_rec_limit env)%nat -> service_ok (su_rec_limit env) c -> Forall (fun o => op_ok o.2) ops -> op_ok op ->
  rtc (recovery_move (op_opens op) (op_discards op))
    (record_of_server (su_rec_limit env) (sc_server (service_run env c ops)))
    (record_of_server (su_rec_limit env) (sc_server (service_run env c (ops ++ [(w, op)])))).
Proof.
  intros Hrec Hc Hops Hop. rewrite service_run_app.
  exact (proj2 (service_step_ok (su_rec_limit env) Hrec (with_world env w) eq_refl _ op
    (service_run_ok env c ops Hrec Hc Hops) Hop)).
Qed.

(** C5. What is launched is open: in every reachable state at most one restore
    is in flight, it holds the record that is stored, and every item it launches
    belongs to the record, is selected once and is not completed.  An item once
    completed is never launched again, as long as the workspace stays open. *)
Theorem launched_items_open `{Unicode} (env : Setup) (c : Service) (ops later : list (World * service_op)) f :
  (16 <= su_rec_limit env)%nat -> service_ok (su_rec_limit env) c ->
  Forall (fun o => op_ok o.2) ops -> Forall (fun o => op_ok o.2) later ->
  let at_ n := service_run env (service_run env c ops) (take n later) in
  let record n := record_of_server (su_rec_limit env) (sc_server (at_ n)) in
  let last := length later in
  f ∈ sc_flights (at_ last) ->
  sc_flights (at_ last) = [f] /\ record last = Some (pd_record (fl_pending f)) /\
  pd_selected (fl_pending f) <> [] /\ NoDup (pd_selected (fl_pending f)) /\
  pd_approved (fl_pending f) ⊆ pd_selected (fl_pending f) /\
  (forall i, i ∈ pd_selected (fl_pending f) ->
     i ∈ map rec_item_id (items (pd_record (fl_pending f))) /\
     i ∉ completed_item_ids (pd_record (fl_pending f))) /\
  (forall x i, record 0%nat = Some x -> i ∈ completed_item_ids x -> (forall n, record n <> None) ->
     i ∉ pd_selected (fl_pending f)).
Proof.
  intros Hrec Hc Hops Hlater at_ record last Hf.
  pose proof (service_run_ok env c ops Hrec Hc Hops) as Hmid.
  assert (Hat : at_ last = service_run env (service_run env c ops) later)
    by (unfold at_, last; by rewrite take_ge).
  pose proof (service_run_ok env _ later Hrec Hmid Hlater) as Hend. rewrite -Hat in Hend.
  apply list_elem_of_lookup in Hf as [n Hn].
  destruct (flights_at_most_one _ _ _ (sk_one _ _ Hend) Hn) as [-> Hone].
  pose proof (sk_flights _ _ Hend) as Hall. rewrite Hone in Hall. apply Forall_cons in Hall as [(Hx & Hp & _) _].
  destruct (po_selected _ Hp) as [Hne Hnd].
  do 2 (split; [done|]). split; [exact Hne|]. split; [exact Hnd|]. split; [exact (po_approved _ Hp)|].
  split; [exact (po_open _ Hp)|].
  intros x i Hx0 Hi Hopen Hsel. destruct (po_open _ Hp i Hsel) as [_ Hnot]. apply Hnot.
  destruct (run_advances env Hrec _ later x Hmid Hlater) as (y & Hy & Hxy); [exact Hx0|exact Hopen|].
  rewrite -Hat Hx in Hy. injection Hy as ->. by apply Hxy.
Qed.

(** ** Witnesses

    A service that starts with three recorded shells and an empty store: two are
    listed, one is restored, then both are asked for. *)
Section Witnesses.
#[local] Existing Instance ascii_unicode.

Definition sample_setup : Setup := mkSetup 1000 (Some tab_adapter) (u "boot-2") home_u dead_probe sample_world 16.
Definition sample_server : Server :=
  mkServer (mkEngine three_shells ∅ 7) (mkManager 2 10 [1] 7 7 false None None None None 0 0 false false None)
    empty_store [].
Definition sample_service : Service := mkService sample_server [].
Definition sample_now : Moment := mkMoment 100 (FFin false 9 0) (u "capability").
Definition ask (r : ServiceRequest) : World * service_op := (sample_world, OpRequest r sample_now None).
Definition sample_workspace : pystr := Eval vm_compute in
  match record_of_server 16 (sc_server
    (service_run sample_setup sample_service [ask (RestoreListReq (mkRestoreList None None))])) with
  | Some x => workspace_id x
  | None => []
  end.
Definition restore_first : list (World * service_op) :=
  [ask (RestoreListReq (mkRestoreList None None));
   ask (RestoreExecuteReq (mkExecute sample_workspace [u "s1"] [u "s1"]));
   (sample_world, OpLaunch 0); (sample_world, OpCommit 0 sample_now)].
Definition restore_rest : list (World * service_op) :=
  [ask (RestoreExecuteReq (mkExecute sample_workspace [u "s1"; u "s2"] []))].

Lemma sample_service_ok : service_ok 16 sample_service.
Proof.
  assert (Hnone : record_of_server 16 sample_server = None) by (vm_compute; reflexivity).
  split; [|constructor|cbn; lia]. split.
  - split; [split; [reflexivity|by repeat constructor]|done|exact three_shells_nodup|done|done].
  - done.
  - intros x. cbn [sample_service sc_server]. by rewrite Hnone.
Qed.

Lemma restore_first_ok : Forall (fun o => op_ok o.2) restore_first.
Proof. by repeat constructor. Qed.

Lemma restore_rest_ok : Forall (fun o => op_ok o.2) restore_rest.
Proof. by repeat constructor. Qed.

Lemma service_refines_recovery_witness :
  let record c := record_of_server 16 (sc_server c) in
  let before := record (service_run sample_setup sample_service (take 3 restore_first)) in
  let after := record (service_run sample_setup sample_service restore_first) in
  completed_item_ids <$> before = Some [] /\ completed_item_ids <$> after = Some [u "s1"] /\
  rtc (recovery_move false None) before after.
Proof.
  split; [vm_compute; reflexivity|]. split; [vm_compute; reflexivity|].
  apply (service_refines_recovery sample_setup sample_service (take 3 restore_first) sample_world (OpCommit 0 sample_now));
    [done|exact sample_service_ok|exact (Forall_take _ 3 _ restore_first_ok)|done].
Defined.

Lemma last_flight : exists f,
  sc_flights (service_run sample_setup (service_run sample_setup sample_service restore_first) restore_rest) = [f] /\
  pd_selected (fl_pending f) = [u "s2"].
Proof. eexists. vm_compute. by split. Qed.

Lemma launched_items_open_witness : exists f,
  sc_flights (service_run sample_setup (service_run sample_setup sample_service restore_first) restore_rest) = [f] /\
  pd_selected (fl_pending f) = [u "s2"] /\ u "s1" ∉ pd_selected (fl_pending f).
Proof.
  destruct last_flight as (f & Hf & Hsel). exists f. split; [exact Hf|]. split; [exact Hsel|].
  destruct (launched_items_open sample_setup sample_service restore_first restore_rest f) as (_ & _ & _ & _ & _ & _ & H);
    [done|exact sample_service_ok|exact restore_first_ok|exact restore_rest_ok| |].
  - change (take (length restore_rest) restore_rest) with restore_rest. rewrite Hf. by constructor.
  - assert (exists x, record_of_server 16 (sc_server (service_run sample_setup sample_service restore_first)) = Some x /\
      completed_item_ids x = [u "s1"]) as (x & Hx & Hc) by (eexists; vm_compute; by split).
    apply (H x); [exact Hx|rewrite Hc; by constructor|].
    intros n. destruct n as [|n]; [vm_compute; discriminate|].
    replace (take (S n) restore_rest) with restore_rest by (by destruct n). vm_compute. discriminate.
Defined.

End Witnesses.
