(* ===== verification/Effect.v ===== *)
(** * Stateful code that may raise

    A program over a state [S]: it returns a value or raises, and leaves a state
    either way.  The lifecycle modules are written in this monad; [triple] is its
    program logic, with one postcondition for returning and one for raising. *)
From S2P Require Import Prelude.

Definition eff (S A : Type) : Type := S -> result A * S.

Section Operations.
Context {S : Type}.

Definition eret {A} (a : A) : eff S A := fun s => (Ok a, s).
Definition eraise {A} (e : exn) : eff S A := fun s => (Err e, s).
Definition elift {A} (r : result A) : eff S A := fun s => (r, s).
Definition ebind {A B} (m : eff S A) (f : A -> eff S B) : eff S B :=
  fun s => match m s with (Ok a, s') => f a s' | (Err e, s') => (Err e, s') end.
(** [try: m except: h] *)
Definition ecatch {A} (m : eff S A) (h : exn -> eff S A) : eff S A :=
  fun s => match m s with (Ok a, s') => (Ok a, s') | (Err e, s') => h e s' end.
(** [try: m finally: c]: what [c] raises wins. *)
Definition efinally {A} (m : eff S A) (c : eff S unit) : eff S A :=
  fun s => let '(r, s') := m s in match c s' with (Ok _, s'') => (r, s'') | (Err e, s'') => (Err e, s'') end.
(** [try: m except BaseException: c; raise] *)
Definition eon_error {A} (m : eff S A) (c : eff S unit) : eff S A := ecatch m (fun e => ebind c (fun _ => eraise e)).
Definition eget {A} (f : S -> A) : eff S A := fun s => (Ok (f s), s).
Definition eput (f : S -> S) : eff S unit := fun s => (Ok tt, f s).
Definition eguard (b : bool) (e : exn) : eff S unit := elift (raise_if b e).

Fixpoint eforeach {A} (f : A -> eff S unit) (l : list A) : eff S unit :=
  match l with
  | [] => eret tt
  | x :: l' => ebind (f x) (fun _ => eforeach f l')
  end.

Fixpoint emap {A B} (f : A -> eff S B) (l : list A) : eff S (list B) :=
  match l with
  | [] => eret []
  | x :: l' => ebind (f x) (fun y => ebind (emap f l') (fun ys => eret (y :: ys)))
  end.
End Operations.

Declare Scope eff_scope.
Delimit Scope eff_scope with eff.
Notation "'do!' x := m 'in' k" := (ebind m (fun x => k))
  (at level 10, x name, m at level 100, k at level 200) : eff_scope.
Notation "'do!' ' p := m 'in' k" := (ebind m (fun y => match y with p => k end))
  (at level 10, p pattern, m at level 100, k at level 200) : eff_scope.
Notation "m ;; k" := (ebind m (fun _ => k)) (at level 100, k at level 200, right associativity) : eff_scope.
Notation "'try' m 'except' h" := (ecatch m h) (at level 10, m at level 100, h at level 200) : eff_scope.

(** [except FileNotFoundError: h], [except OSError: h], [except Exception: h] *)
Definition on_missing {S A} (h : eff S A) (e : exn) : eff S A := if bool_decide (e = OSError ENOENT) then h else eraise e.
Definition on_os_error {S A} (h : eff S A) (e : exn) : eff S A := if is_os_error e then h else eraise e.

(** ** Program logic *)
Section Logic.
Context {S : Type}.
Implicit Types P : S -> Prop.

(** Started in [P], the program ends in [Q] with what it returns, or in [E] with what
    it raises. *)
Definition triple {A} P (m : eff S A) (Q : A -> S -> Prop) (E : exn -> S -> Prop) : Prop :=
  forall s, P s -> match m s with (Ok a, s') => Q a s' | (Err e, s') => E e s' end.

Lemma triple_ret {A} P (a : A) Q E : (forall s, P s -> Q a s) -> triple P (eret a) Q E.
Proof. intros H s Hs. by apply H. Qed.

Lemma triple_raise {A} P e (Q : A -> S -> Prop) E : (forall s, P s -> E e s) -> triple P (eraise e) Q E.
Proof. intros H s Hs. by apply H. Qed.

Lemma triple_lift {A} P (r : result A) Q E :
  (forall s a, P s -> r = Ok a -> Q a s) -> (forall s e, P s -> r = Err e -> E e s) -> triple P (elift r) Q E.
Proof. intros HQ HE s Hs. unfold elift. destruct r; eauto. Qed.

Lemma triple_get {A} P (f : S -> A) Q E : (forall s, P s -> Q (f s) s) -> triple P (eget f) Q E.
Proof. intros H s Hs. by apply H. Qed.

Lemma triple_put P (f : S -> S) Q E : (forall s, P s -> Q tt (f s)) -> triple P (eput f) Q E.
Proof. intros H s Hs. by apply H. Qed.

Lemma triple_guard P b e Q E : (forall s, P s -> b = false -> Q tt s) -> (forall s, P s -> b = true -> E e s) ->
  triple P (eguard b e) Q E.
Proof. intros HQ HE s Hs. unfold eguard, elift. destruct b; cbn; auto. Qed.

Lemma triple_bind {A B} P (m : eff S A) (f : A -> eff S B) R Q E :
  triple P m R E -> (forall a, triple (R a) (f a) Q E) -> triple P (ebind m f) Q E.
Proof.
  intros Hm Hf s Hs. unfold ebind. specialize (Hm s Hs). destruct (m s) as [[a|e] s']; [|done]. by apply Hf.
Qed.

Lemma triple_catch {A} P (m : eff S A) h Q E E' :
  triple P m Q E -> (forall e, triple (E e) (h e) Q E') -> triple P (ecatch m h) Q E'.
Proof.
  intros Hm Hh s Hs. unfold ecatch. specialize (Hm s Hs). destruct (m s) as [[a|e] s']; [done|]. by apply Hh.
Qed.

Lemma triple_finally {A} P (m : eff S A) c Q E Q' E' :
  triple P m Q' E' -> (forall a, triple (Q' a) c (fun _ => Q a) E) -> (forall e, triple (E' e) c (fun _ => E e) E) ->
  triple P (efinally m c) Q E.
Proof.
  intros Hm Hq He s Hs. unfold efinally. specialize (Hm s Hs). destruct (m s) as [[a|e] s'].
  - specialize (Hq a s' Hm). by destruct (c s') as [[]].
  - specialize (He e s' Hm). by destruct (c s') as [[]].
Qed.

Lemma triple_weaken {A} P P' (m : eff S A) Q Q' E E' : triple P' m Q' E' ->
  (forall s, P s -> P' s) -> (forall a s, Q' a s -> Q a s) -> (forall e s, E' e s -> E e s) -> triple P m Q E.
Proof.
  intros Hm HP HQ HE s Hs. specialize (Hm s (HP s Hs)). destruct (m s) as [[a|e] s']; auto.
Qed.

(** An invariant: kept whatever happens. *)
Definition keeps {A} (I : S -> Prop) (m : eff S A) : Prop := triple I m (fun _ => I) (fun _ => I).

Lemma keeps_run {A} I (m : eff S A) s : keeps I m -> I s -> I (m s).2.
Proof. intros H Hs. specialize (H s Hs). by destruct (m s) as [[]]. Qed.

Lemma keeps_intro {A} (I : S -> Prop) (m : eff S A) : (forall s, I s -> I (m s).2) -> keeps I m.
Proof. intros H s Hs. specialize (H s Hs). by destruct (m s) as [[]]. Qed.

Lemma keeps_ret {A} I (a : A) : keeps I (eret a).
Proof. by apply triple_ret. Qed.
Lemma keeps_raise {A} I e : keeps I (eraise e : eff S A).
Proof. by apply triple_raise. Qed.
Lemma keeps_lift {A} I (r : result A) : keeps I (elift r).
Proof. by apply triple_lift. Qed.
Lemma keeps_get {A} I (f : S -> A) : keeps I (eget f).
Proof. by apply triple_get. Qed.
Lemma keeps_guard I b e : keeps I (eguard b e).
Proof. by apply triple_guard. Qed.
Lemma keeps_bind {A B} I (m : eff S A) (f : A -> eff S B) : keeps I m -> (forall a, keeps I (f a)) -> keeps I (ebind m f).
Proof. intros Hm Hf. exact (triple_bind _ _ _ _ _ _ Hm Hf). Qed.
Lemma keeps_catch {A} I (m : eff S A) h : keeps I m -> (forall e, keeps I (h e)) -> keeps I (ecatch m h).
Proof. intros Hm Hh. exact (triple_catch _ _ _ _ _ _ Hm Hh). Qed.
Lemma keeps_finally {A} I (m : eff S A) c : keeps I m -> keeps I c -> keeps I (efinally m c).
Proof. intros Hm Hc. exact (triple_finally _ _ _ _ _ _ _ Hm (fun _ => Hc) (fun _ => Hc)). Qed.
Lemma keeps_on_error {A} I (m : eff S A) c : keeps I m -> keeps I c -> keeps I (eon_error m c).
Proof. intros Hm Hc. apply keeps_catch; [done|]. intros e. apply keeps_bind; [done|]. intros. apply keeps_raise. Qed.
Lemma keeps_foreach {A} I (f : A -> eff S unit) l : (forall x, x ∈ l -> keeps I (f x)) -> keeps I (eforeach f l).
Proof.
  induction l as [|x l IH]; intros H; [apply keeps_ret|]. apply keeps_bind; [apply H; by left|].
  intros _. apply IH. intros y Hy. apply H. by right.
Qed.
Lemma keeps_map {A B} I (f : A -> eff S B) l : (forall x, keeps I (f x)) -> keeps I (emap f l).
Proof.
  intros H. induction l as [|x l IH]; [apply keeps_ret|]. apply keeps_bind; [done|]. intros y.
  apply keeps_bind; [done|]. intros. apply keeps_ret.
Qed.

Lemma keeps_missing {A} I (h : eff S A) e : keeps I h -> keeps I (on_missing h e).
Proof. intros. unfold on_missing. case_bool_decide; [done|apply keeps_raise]. Qed.
Lemma keeps_os_error {A} I (h : eff S A) e : keeps I h -> keeps I (on_os_error h e).
Proof. intros. unfold on_os_error. destruct (is_os_error e); [done|apply keeps_raise]. Qed.

(** What returned [Ok], step by step. *)
Lemma ebind_Ok {A B} (m : eff S A) (f : A -> eff S B) s b s' :
  ebind m f s = (Ok b, s') <-> exists a s1, m s = (Ok a, s1) /\ f a s1 = (Ok b, s').
Proof. unfold ebind. destruct (m s) as [[a|e] s1]; naive_solver. Qed.

Lemma elift_Ok {A} (r : result A) (s : S) a s' : elift r s = (Ok a, s') <-> r = Ok a /\ s' = s.
Proof. unfold elift. naive_solver. Qed.

Lemma eguard_Ok b e (s : S) v s' : eguard b e s = (Ok v, s') <-> b = false /\ s' = s.
Proof. unfold eguard. rewrite elift_Ok raise_if_Ok. done. Qed.

Lemma ecatch_Ok {A} (m : eff S A) h s a s' :
  ecatch m h s = (Ok a, s') <-> m s = (Ok a, s') \/ exists e s1, m s = (Err e, s1) /\ h e s1 = (Ok a, s').
Proof. unfold ecatch. destruct (m s) as [[b|e] s1]; naive_solver. Qed.

Lemma efinally_Ok {A} (m : eff S A) c s a s' :
  efinally m c s = (Ok a, s') <-> exists s1, m s = (Ok a, s1) /\ c s1 = (Ok tt, s').
Proof.
  unfold efinally. destruct (m s) as [r s1] eqn:E. destruct (c s1) as [[[]|e] s2] eqn:Ec; split.
  - intros [= -> ->]. by exists s1.
  - by intros (? & [= -> ->] & [= ->]%(eq_trans (eq_sym Ec))).
  - done.
  - intros (? & [= -> ->] & H). congruence.
Qed.
End Logic.

Create HintDb keeps.
#[export] Hint Resolve keeps_ret keeps_raise keeps_lift keeps_get keeps_guard keeps_bind keeps_catch keeps_finally keeps_on_error
  keeps_foreach keeps_map keeps_missing keeps_os_error : keeps.

(** Invariants, statement by statement. *)
Ltac keeps_all := repeat (intros; match goal with
  | |- keeps _ (ebind _ _) => apply keeps_bind
  | |- keeps _ (ecatch _ _) => apply keeps_catch
  | |- keeps _ (eforeach _ _) => apply keeps_foreach
  | |- keeps _ (emap _ _) => apply keeps_map
  | |- keeps _ (match ?x with _ => _ end) => destruct x
  | |- _ => solve [auto with keeps nocore]
  end).
