(* ===== verification/Client.v ===== *)
(** * The service client ([client.py])

    One request on a fresh connection and its one-line answer.  The other side is a
    [Network]: each of its operations may fail or take or deliver any part. *)
From S2P Require Import Prelude PyText PyVal PyFloat Json Codec Model Shlex Classifier Protocol Effect Bridge.
#[local] Open Scope eff_scope.

Definition ended_early : exn := ServiceUnavailable (u "service response ended before newline").
Definition extra_bytes : exn := ServiceUnavailable (u "service response contains extra bytes").

Section WithNetwork.
Context {W : Type} (net : Network W) (rec_limit : nat).

(** [while b"\n" not in raw and len(raw) <= MAX_RESPONSE_BYTES] *)
Fixpoint receive_raw (fuel : nat) (raw : pybytes) : eff W pybytes :=
  if char_in 10 raw || (MAX_RESPONSE_BYTES <? len raw) then eret raw
  else
    match fuel with
    | O => eret raw
    | S fuel' =>
        do! chunk := nt_recv net (MAX_RESPONSE_BYTES + 1 - len raw) in
        eguard (bool_decide (chunk = [])) ended_early ;;
        receive_raw fuel' (raw ++ chunk)
    end.
(** Every turn adds a byte. *)
Definition raw_fuel : nat := Z.to_nat MAX_RESPONSE_BYTES + 1.

Definition _receive_response : eff W pybytes :=
  do! raw := receive_raw raw_fuel [] in
  eguard (MAX_RESPONSE_BYTES <? len raw) (ServiceUnavailable (u "service response is too large")) ;;
  match find_char 10 raw with
  | None => eraise ended_early
  | Some newline =>
      eguard (negb (Z.of_nat newline =? len raw - 1)) extra_bytes ;;
      do! more := nt_recv net 1 in
      eguard (negb (bool_decide (more = []))) extra_bytes ;;
      eret raw
  end.

(** [connect], [sendall] and the answer. *)
Definition exchange (payload : pybytes) : eff W pybytes :=
  ecatch (nt_connect net ;; nt_sendall net payload ;; _receive_response)
    (fun e => match e with
              | OSError ETIMEDOUT => eraise (ServiceUnavailable (u "service request timed out"))
              | OSError _ => eraise (ServiceUnavailable (u "service is not available"))
              | _ => eraise e
              end).

Definition client_request (request : ServiceRequest) : eff W ServiceResponse :=
  do! payload := elift (encode_request rec_limit request) in
  do! raw := exchange payload in
  elift (match decode_response rec_limit raw with
         | Ok response => Ok response
         | Err e =>
             if is_value_error e || match e with TypeError _ => true | _ => false end
             then Err (ServiceUnavailable (u "service returned a malformed response")) else Err e
         end).
End WithNetwork.
