(* ===== verification/ClientProofs.v ===== *)
(** * The service client: what it accepts, and that it understands the server

    Whatever the network does, the client takes one whole line for an answer or
    raises; connected to the modelled server, it returns the server's answer however
    the bytes are cut. *)
From S2P Require Import Prelude PyText PyVal PyFloat Json Codec Model Shlex Classifier Protocol Effect Bridge Client.
From S2P Require Import Engine EngineProofs Resume Recovery Store Checkpoint Server ServerProofs.
#[local] Open Scope eff_scope.

(** ** Lines *)
Lemma find_char_Some c s n : find_char c s = Some n -> exists b, s = take n s ++ c :: b /\ c ∉ take n s /\ (n < length s)%nat.
Proof.
  revert n. induction s as [|x s IH]; intros n H; [done|]. simpl in H. destruct (Z.eqb_spec x c) as [->|Hne].
  - injection H as <-. exists s. split; [done|]. split; [apply not_elem_of_nil|simpl; lia].
  - destruct (find_char c s) as [m|]; [|done]. injection H as <-. destruct (IH m eq_refl) as (b & Hs & Hc & Hl).
    exists b. simpl. split; [by rewrite -Hs|]. split; [|lia]. apply not_elem_of_cons. split; [congruence|done].
Qed.

Lemma find_char_first c a b : c ∉ a -> find_char c (a ++ c :: b) = Some (length a).
Proof.
  induction a as [|x a IH]; intros Hc; simpl; [by rewrite Z.eqb_refl|].
  apply not_elem_of_cons in Hc as [Hx Hc]. destruct (Z.eqb_spec x c); [congruence|]. by rewrite IH.
Qed.

Lemma char_in_elem c s : char_in c s = true <-> c ∈ s.
Proof.
  unfold char_in. rewrite existsb_exists. split.
  - intros (x & Hx & E%Z.eqb_eq). rewrite E. by apply list_elem_of_In.
  - intros H. exists c. split; [by apply list_elem_of_In|apply Z.eqb_refl].
Qed.

(** One line and its end. *)
Definition one_line (raw : pybytes) : Prop := exists body, raw = body ++ [10] /\ 10 ∉ body.

Lemma one_line_newline raw : one_trailing_newline raw = true -> one_line raw.
Proof.
  unfold one_trailing_newline. intros [He Hn]%andb_true_iff. destruct raw as [|x a _] using rev_ind; [done|].
  unfold ends_with in He. rewrite rev_app_distr in He. cbn [rev app is_prefix] in He. apply andb_true_iff in He as [He%Z.eqb_eq _].
  exists a. split; [by rewrite -He|]. apply Z.eqb_eq in Hn. rewrite filter_app in Hn. unfold len in Hn. rewrite length_app in Hn.
  assert (Hx : filter (fun b => b = newline) [x] = [x]) by by rewrite -He.
  rewrite Hx in Hn. simpl in Hn. intros H.
  assert (Hin : 10 ∈ filter (fun b => b = newline) a) by by apply list_elem_of_filter.
  destruct (filter (fun b => b = newline) a); [by apply elem_of_nil in Hin|simpl in Hn; lia].
Qed.

Lemma decoded_one_line rec_limit raw r : decode_response rec_limit raw = Ok r -> one_line raw /\ len raw <= MAX_RESPONSE_BYTES.
Proof.
  unfold decode_response, _decode_json_line. intros (d & H & _)%rbind_Ok. apply rbind_Ok in H as (u1 & H1%raise_if_Ok & H).
  apply rbind_Ok in H as (u2 & H2%raise_if_Ok%negb_false_iff & _). split; [by apply one_line_newline|]. by apply Z.ltb_ge.
Qed.

(** ** What the client takes for an answer *)
Section AnyNetwork.
Context {W : Type} (net : Network W) (rec_limit : nat).

Lemma receive_response_line w raw w' : _receive_response net w = (Ok raw, w') -> one_line raw /\ len raw <= MAX_RESPONSE_BYTES.
Proof.
  unfold _receive_response, ebind at 1. destruct (receive_raw net raw_fuel [] w) as [[got|e] w1]; [|done].
  unfold ebind at 1, eguard, elift. destruct (Z.ltb_spec MAX_RESPONSE_BYTES (len got)) as [|Hl]; [done|]. cbn [raise_if].
  destruct (find_char 10 got) as [n|] eqn:Hn; [|done]. apply find_char_Some in Hn as (b & Hgot & Hno & Hlt).
  unfold ebind, elift, eraise, eret. destruct (Z.eqb_spec (Z.of_nat n) (len got - 1)) as [E|]; [|done]. cbn [negb raise_if].
  destruct (nt_recv net 1 w1) as [[more|e] w2]; [|done]. case_bool_decide; [|done]. cbn [negb raise_if].
  intros [= <- <-]. split; [|done]. exists (take n got). split; [|done].
  enough (b = []) as -> by done. apply (f_equal length) in Hgot. unfold len in E. rewrite length_app length_take /= in Hgot.
  apply nil_length_inv. lia.
Qed.

Lemma client_sound request w r w' : client_request net rec_limit request w = (Ok r, w') ->
  exists raw, decode_response rec_limit raw = Ok r /\ one_line raw /\ len raw <= MAX_RESPONSE_BYTES.
Proof.
  unfold client_request, ebind at 1, elift at 1. destruct (encode_request rec_limit request) as [payload|]; [|done].
  unfold ebind at 1. destruct (exchange net payload w) as [[raw|e] w1]; [|done]. unfold elift.
  destruct (decode_response rec_limit raw) as [r'|e] eqn:E; [|by case_match]. intros [= <- _]. exists raw.
  split; [done|]. exact (decoded_one_line _ _ _ E).
Qed.
End AnyNetwork.

(** ** The client and the server *)

(** A connection to the modelled server: [cn_pending] is on its way to the client,
    and arrives in pieces of at most [cn_sizes]. *)
Record connection := mkConn { cn_server : Server; cn_pending : pybytes; cn_sizes : list nat }.

Section WithServer.
Context `{Unicode} (env : Setup) (Hrec : (16 <= su_rec_limit env)%nat) (peer : PeerCredentials)
  (now : Moment).
#[local] Notation rec_limit := (su_rec_limit env).

Definition deliver (n : Z) (c : connection) : result pybytes * connection :=
  let k := match cn_sizes c with x :: _ => Nat.min (Z.to_nat n) (S x) | [] => Z.to_nat n end in
  (Ok (take k (cn_pending c)), mkConn (cn_server c) (drop k (cn_pending c)) (tail (cn_sizes c))).

Definition server_network : Network connection := {|
  nt_connect c := (Ok tt, c);
  nt_sendall payload c :=
    let '(raws, s) := handle_connection env (Some peer) [(Received payload, now)] (cn_server c) in
    (Ok tt, mkConn s (concat raws) (cn_sizes c));
  nt_recv := deliver;
  nt_monotonic c := (0, c) |}.

(** The loop takes the line, however it is cut. *)
Lemma receive_raw_stream fuel raw c body : (length (cn_pending c) <= fuel)%nat -> raw ++ cn_pending c = body ++ [10] -> 10 ∉ body ->
  len (body ++ [10]) <= MAX_RESPONSE_BYTES ->
  exists sizes, receive_raw server_network fuel raw c = (Ok (body ++ [10]), mkConn (cn_server c) [] sizes).
Proof.
  revert raw c. induction fuel as [|fuel IH]; intros raw [s pending sizes] Hf Hraw Hno Hlen; cbn [cn_pending cn_server] in *.
  - apply Nat.le_0_r, nil_length_inv in Hf as ->. rewrite app_nil_r in Hraw. subst raw. exists sizes. cbn [receive_raw].
    rewrite (proj2 (char_in_elem _ _)); [apply elem_of_app; right; by left|done].
  - destruct pending as [|p pending _] using rev_ind.
    { rewrite app_nil_r in Hraw. subst raw. exists sizes. cbn [receive_raw].
      rewrite (proj2 (char_in_elem _ _)); [apply elem_of_app; right; by left|done]. }
    pose proof Hraw as Hsplit. rewrite app_assoc in Hsplit. apply app_inj_tail in Hsplit as [Hbody ->].
    assert (Hin : char_in 10 raw = false).
    { apply not_true_is_false. rewrite char_in_elem. intros Hr. apply Hno. rewrite -Hbody. apply elem_of_app. by left. }
    assert (Hshort : (MAX_RESPONSE_BYTES <? len raw) = false).
    { apply Z.ltb_ge. rewrite -Hbody /len !length_app in Hlen. unfold len. lia. }
    cbn [receive_raw]. rewrite Hin Hshort. cbn [orb]. unfold ebind at 1. cbn [nt_recv server_network]. unfold deliver.
    cbn [cn_sizes cn_pending cn_server].
    set (n := Z.to_nat (MAX_RESPONSE_BYTES + 1 - len raw)). set (k := match sizes with [] => n | x :: _ => Nat.min n (S x) end).
    assert (Hk : (0 < k)%nat) by (unfold k, n; apply Z.ltb_ge in Hshort; destruct sizes; lia).
    assert (Hne : take k (pending ++ [10]) <> []).
    { intros E%(f_equal length). rewrite length_take length_app /= in E. lia. }
    unfold ebind at 1, eguard, elift. rewrite bool_decide_eq_false_2 //. cbn [raise_if].
    apply (IH _ (mkConn s (drop k (pending ++ [10])) (tail sizes))); cbn [cn_pending]; [|by rewrite -app_assoc take_drop|done|done].
    rewrite length_drop length_app /=. rewrite length_app /= in Hf. lia.
Qed.

(** C13. Whatever the request and however its answer is cut on the way, the client of
    the modelled server returns the answer that the server made, as the wire carries
    it, and leaves the server as that request does. *)
Theorem client_reads_answer request payload q response c s' :
  encode_request rec_limit request = Ok payload -> decode_request rec_limit payload = Ok q -> continues_after q = false ->
  peer_uid peer = su_uid env ->
  _dispatch env q now (Some (peer_pid peer)) (cn_server c) = (Ok (Replied response), s') ->
  exists answer sizes, decode_response rec_limit (_write_response env response) = Ok answer /\
    client_request server_network rec_limit request c = (Ok answer, mkConn s' [] sizes).
Proof.
  intros Henc Hdec Hends Hpeer Hs.
  destruct (written_readable env Hrec response) as [_ Hread].
  destruct (decode_response rec_limit (_write_response env response)) as [answer|] eqn:Ha; [|done].
  destruct (decoded_one_line _ _ _ Ha) as [(body & Hraw & Hno) Hlen].
  assert (Hserve : handle_connection env (Some peer) [(Received payload, now)] (cn_server c) = ([_write_response env response], s')).
  { unfold handle_connection. rewrite Hpeer Z.eqb_refl. cbn [handle_lines]. unfold handle_line.
    destruct payload as [|b payload]; [done|]. rewrite Hdec Hs Hends. done. }
  destruct (receive_raw_stream raw_fuel [] (mkConn s' (_write_response env response) (cn_sizes c)) body) as [sizes Hgot];
    cbn [cn_pending app]; [|done|done|by rewrite -Hraw|].
  { unfold raw_fuel. unfold len in Hlen. lia. }
  exists answer, (tail sizes). split; [done|].
  unfold client_request, ebind at 1, elift at 1. rewrite Henc. unfold ebind at 1, exchange, ecatch, ebind at 1.
  cbn [nt_connect server_network]. unfold ebind at 1. cbn [nt_sendall server_network]. rewrite Hserve. cbn [concat]. rewrite app_nil_r.
  unfold _receive_response, ebind at 1. rewrite Hgot. unfold ebind at 1, eguard, elift. rewrite -Hraw.
  rewrite (proj2 (Z.ltb_ge _ _) Hlen). cbn [raise_if]. rewrite {1}Hraw (find_char_first 10 body [] Hno).
  unfold ebind at 1. rewrite Hraw /len length_app /=. rewrite (proj2 (Z.eqb_eq _ _)); [lia|]. cbn [negb raise_if].
  unfold ebind at 1. cbn [nt_recv server_network]. unfold deliver. cbn [cn_pending cn_sizes cn_server].
  unfold ebind, elift, eret. rewrite take_nil drop_nil. rewrite bool_decide_eq_true_2 //. cbn [negb raise_if].
  by rewrite -Hraw Ha.
Qed.
End WithServer.

(** ** Witness *)
Section Witness.
#[local] Existing Instance ascii_unicode.

(** A status request, whose answer arrives in pieces of 3, 1 and as it comes. *)
Definition status_peer : PeerCredentials := mkPeer 42 1000.
Definition status_connection : connection := mkConn (bare_server registered_state) [] [2; 0]%nat.

Definition status_answer : ServiceResponse := StatusResp (mkStatus true 1 0 0 false false None 0 []).
Definition status_turn : result progress * Server :=
  _dispatch bare_setup StatusReq some_moment (Some (peer_pid status_peer)) (bare_server registered_state).

Lemma client_reads_answer_witness : exists c,
  client_request (server_network bare_setup status_peer some_moment) 16 StatusReq status_connection = (Ok status_answer, c) /\
  sv_state (cn_server c) = registered_state.
Proof.
  assert (He : encode_request 16 StatusReq = Ok (request_line StatusReq)) by (vm_compute; reflexivity).
  assert (Hd : decode_request 16 (request_line StatusReq) = Ok StatusReq) by (vm_compute; reflexivity).
  assert (Hs : status_turn = (Ok (Replied status_answer), status_turn.2)).
  { rewrite {1}(surjective_pairing status_turn). assert (E : status_turn.1 = Ok (Replied status_answer)) by (vm_compute; reflexivity). by rewrite E. }
  assert (Hst : sv_state status_turn.2 = registered_state) by (vm_compute; reflexivity).
  assert (Hread : decode_response 16 (_write_response bare_setup status_answer) = Ok status_answer) by (vm_compute; reflexivity).
  destruct (client_reads_answer bare_setup (le_n _) status_peer some_moment StatusReq _ _ _ status_connection _ He Hd eq_refl eq_refl Hs)
    as (answer & sizes & Ha & Hrun).
  cbn [su_rec_limit bare_setup] in Ha. rewrite Hread in Ha. injection Ha as <-.
  exists (mkConn status_turn.2 [] sizes). split; [exact Hrun|exact Hst].
Defined.
End Witness.
