(* ===== verification/Base64.v ===== *)
(** * Base64

    [base64.b64encode] and [base64.b64decode(..., validate=True)], which is the
    strict mode of [binascii.a2b_base64]: the digits of a group are consumed one
    by one, a pad counts once two digits of a group were seen. *)
From S2P Require Import Prelude.

Definition digit64 (d : Z) : Z :=
  if d <? 26 then 65 + d else if d <? 52 then 71 + d else if d <? 62 then d - 4
  else if d =? 62 then 43 else 47.

Definition value64 (c : Z) : option Z :=
  if (65 <=? c) && (c <=? 90) then Some (c - 65)
  else if (97 <=? c) && (c <=? 122) then Some (c - 71)
  else if (48 <=? c) && (c <=? 57) then Some (c + 4)
  else if c =? 43 then Some 62 else if c =? 47 then Some 63 else None.

(** Three bytes at a time, as ASCII text. *)
Fixpoint b64encode (b : pybytes) : pystr :=
  match b with
  | x :: y :: z :: rest =>
      digit64 (x / 4) :: digit64 (x mod 4 * 16 + y / 16) :: digit64 (y mod 16 * 4 + z / 64) ::
      digit64 (z mod 64) :: b64encode rest
  | [x; y] => [digit64 (x / 4); digit64 (x mod 4 * 16 + y / 16); digit64 (y mod 16 * 4); 61]
  | [x] => [digit64 (x / 4); digit64 (x mod 4 * 16); 61; 61]
  | [] => []
  end.

(** The loop of [a2b_base64] in strict mode: [quad] digits of the current group
    were read, [left] holds the bits not written yet, [pads] pads were counted,
    [padded] tells that a pad was seen at all. *)
Fixpoint a2b_loop (s : pystr) (quad left pads : Z) (padded : bool) : result pybytes :=
  match s with
  | [] => raise_if (negb (quad =? 0)) (ValueError (u "Incorrect padding")) ;? Ok []
  | c :: rest =>
      if c =? 61 then
        if (2 <=? quad) && (4 <=? quad + (pads + 1)) then
          raise_if (negb (bool_decide (rest = []))) (ValueError (u "Excess data after padding")) ;? Ok []
        else a2b_loop rest quad left (if 2 <=? quad then pads + 1 else pads) true
      else
        match value64 c with
        | None => Err (ValueError (u "Only base64 data is allowed"))
        | Some v =>
            raise_if padded (ValueError (u "Discontinuous padding not allowed")) ;?
            if quad =? 0 then a2b_loop rest 1 v 0 padded
            else if quad =? 1 then
              let? out := a2b_loop rest 2 (v mod 16) 0 padded in Ok (left * 4 + v / 16 :: out)
            else if quad =? 2 then
              let? out := a2b_loop rest 3 (v mod 4) 0 padded in Ok (left * 16 + v / 4 :: out)
            else
              let? out := a2b_loop rest 0 0 0 padded in Ok (left * 64 + v :: out)
        end
  end.

Definition b64decode_strict (s : pystr) : result pybytes :=
  raise_if (negb (forallb (fun c => (0 <=? c) && (c <? 128)) s))
    (ValueError (u "string argument should contain only ASCII characters")) ;?
  raise_if (match s with c :: _ => c =? 61 | [] => false end) (ValueError (u "Leading padding not allowed")) ;?
  a2b_loop s 0 0 0 false.

(** ** Round trip *)
Definition is_byte (b : Z) : bool := (0 <=? b) && (b <? 256).

Lemma value64_digit d : 0 <= d < 64 -> value64 (digit64 d) = Some d /\ digit64 d <> 61 /\ 0 <= digit64 d < 128.
Proof.
  intros H. unfold value64, digit64.
  repeat case_match; split_and?; try lia; try (f_equal; lia).
Qed.

Lemma a2b_digit d rest quad left pads : 0 <= d < 64 ->
  a2b_loop (digit64 d :: rest) quad left pads false =
  if quad =? 0 then a2b_loop rest 1 d 0 false
  else if quad =? 1 then
    let? out := a2b_loop rest 2 (d mod 16) 0 false in Ok (left * 4 + d / 16 :: out)
  else if quad =? 2 then
    let? out := a2b_loop rest 3 (d mod 4) 0 false in Ok (left * 16 + d / 4 :: out)
  else let? out := a2b_loop rest 0 0 0 false in Ok (left * 64 + d :: out).
Proof.
  intros H. destruct (value64_digit d H) as (Hv & Hp & _). cbn [a2b_loop].
  apply Z.eqb_neq in Hp. by rewrite Hp Hv.
Qed.

Lemma triple_ind (P : pybytes -> Prop) : P [] -> (forall x, P [x]) -> (forall x y, P [x; y]) ->
  (forall x y z r, P r -> P (x :: y :: z :: r)) -> forall b, P b.
Proof.
  intros H0 H1 H2 H3. fix go 1. intros [|x [|y [|z r]]]; [exact H0|exact (H1 x)|exact (H2 x y)|].
  exact (H3 x y z r (go r)).
Qed.

(** Bounds of the digits cut out of bytes. *)
Ltac byte_bounds :=
  repeat match goal with
  | H : is_byte ?x = true |- _ =>
      assert (0 <= x < 256) by (unfold is_byte in H; lia);
      pose proof (Z.div_mod x 4 ltac:(lia)); pose proof (Z.mod_pos_bound x 4 ltac:(lia));
      pose proof (Z.div_mod x 16 ltac:(lia)); pose proof (Z.mod_pos_bound x 16 ltac:(lia));
      pose proof (Z.div_mod x 64 ltac:(lia)); pose proof (Z.mod_pos_bound x 64 ltac:(lia)); clear H
  end.

Lemma group_div a q b : 0 <= q < b -> (a * b + q) / b = a /\ (a * b + q) mod b = q.
Proof.
  intros Hq. split.
  - rewrite Z.div_add_l; [lia|]. rewrite Z.div_small; lia.
  - rewrite Z.add_comm Z.mod_add; [lia|]. by apply Z.mod_small.
Qed.

(** The digits of a group carry its bytes. *)
Lemma regroup x y : 0 <= x < 256 -> 0 <= y < 256 ->
  x / 4 * 4 + (x mod 4 * 16 + y / 16) / 16 = x /\ (x mod 4 * 16 + y / 16) mod 16 = y / 16 /\
  y / 16 * 16 + (y mod 16 * 4 + x / 64) / 4 = y /\ (y mod 16 * 4 + x / 64) mod 4 = x / 64.
Proof.
  intros Hx Hy.
  pose proof (Z.mod_pos_bound x 4 ltac:(lia)). pose proof (Z.mod_pos_bound y 16 ltac:(lia)).
  assert (0 <= y / 16 < 16) by (split; [apply Z.div_pos; lia|apply Z.div_lt_upper_bound; lia]).
  assert (0 <= x / 64 < 4) by (split; [apply Z.div_pos; lia|apply Z.div_lt_upper_bound; lia]).
  pose proof (Z.div_mod x 4 ltac:(lia)). pose proof (Z.div_mod y 16 ltac:(lia)).
  destruct (group_div (x mod 4) (y / 16) 16) as [-> ->]; [lia|].
  destruct (group_div (y mod 16) (x / 64) 4) as [-> ->]; [lia|]. lia.
Qed.

Lemma a2b_encode b : forallb is_byte b = true -> a2b_loop (b64encode b) 0 0 0 false = Ok b.
Proof.
  induction b as [|x|x y|x y z r IH] using triple_ind; cbn [forallb b64encode]; intros Hb;
    repeat (apply andb_true_iff in Hb as [? Hb]); try done.
  - destruct (regroup x 0) as (E & _); [unfold is_byte in *; lia..|]. rewrite Z.add_0_r in E.
    byte_bounds. rewrite !a2b_digit; [lia..|]. cbn [Z.eqb Pos.eqb Z.leb Z.add Z.compare andb a2b_loop rbind raise_if].
    cbn. by rewrite E.
  - destruct (regroup x y) as (E & F & _); [unfold is_byte in *; lia..|].
    destruct (regroup 0 y) as (_ & _ & G & _); [unfold is_byte in *; lia..|]. rewrite Z.add_0_r in G.
    byte_bounds. rewrite !a2b_digit; [lia..|]. cbn. by rewrite E F G.
  - destruct (regroup x y) as (E & F & _); [unfold is_byte in *; lia..|].
    destruct (regroup z y) as (_ & _ & G & I); [unfold is_byte in *; lia..|].
    specialize (IH Hb). byte_bounds. rewrite !a2b_digit; [lia..|].
    cbn [Z.eqb Pos.eqb rbind]. rewrite IH. cbn [rbind]. rewrite E F G I. do 4 f_equal. lia.
Qed.

Lemma b64encode_ascii b : forallb is_byte b = true ->
  forallb (fun c => (0 <=? c) && (c <? 128)) (b64encode b) = true.
Proof.
  assert (Hd : forall d, 0 <= d < 64 -> (0 <=? digit64 d) && (digit64 d <? 128) = true)
    by (intros d Hd; destruct (value64_digit d Hd) as (_ & _ & ?); lia).
  induction b as [|x|x y|x y z r IH] using triple_ind; cbn [forallb b64encode]; intros Hb;
    repeat (apply andb_true_iff in Hb as [? Hb]); try done;
    [| |rewrite (IH Hb); clear IH]; byte_bounds; rewrite !Hd; done || lia.
Qed.

Lemma b64_round_trip b : forallb is_byte b = true -> b64decode_strict (b64encode b) = Ok b.
Proof.
  intros Hb. unfold b64decode_strict. rewrite b64encode_ascii // a2b_encode //.
  destruct b as [|x [|y [|z r]]]; try done; cbn [forallb b64encode] in *; apply andb_true_iff in Hb as [Hx _];
    (assert (0 <= x / 4 < 64) as Hq by (unfold is_byte in Hx; split; [apply Z.div_pos; lia|apply Z.div_lt_upper_bound; lia]));
    destruct (value64_digit _ Hq) as (_ & Hp & _); apply Z.eqb_neq in Hp; by rewrite Hp.
Qed.

(** The encoding of a non-empty text is a non-empty text without a null. *)
Lemma b64encode_text b : forallb is_byte b = true -> b <> [] -> b64encode b <> [] /\ char_in 0 (b64encode b) = false.
Proof.
  intros Hb Hne. split; [by destruct b as [|x [|y [|z r]]]|]. clear Hne.
  assert (Hd : forall d, 0 <= d < 64 -> (0 =? digit64 d) = false).
  { intros d Hd. unfold digit64. repeat case_match; lia. }
  unfold char_in.
  induction b as [|x|x y|x y z r IH] using triple_ind; cbn [forallb b64encode existsb] in *;
    repeat (apply andb_true_iff in Hb as [? Hb]); try done;
    [| |rewrite (IH Hb); clear IH]; byte_bounds; rewrite !Hd; done || lia.
Qed.

Example b64_samples :
  b64encode (u "any carnal") = u "YW55IGNhcm5hbA==" /\
  b64decode_strict (u "YW55IGNhcm5hbA==") = Ok (u "any carnal") /\
  b64decode_strict (u "QR==") = Ok (u "A") /\ b64decode_strict (u "AAAA=") = Ok [0; 0; 0] /\
  is_ok (b64decode_strict (u "AA=")) = false /\ is_ok (b64decode_strict (u "AAA==")) = false.
Proof. by vm_compute. Qed.
