(* ===== verification/Contract.v ===== *)
(** * The installer contract ([installer_contract.py])

    The values the installer's parts exchange: requests, the canonical paths of
    an installation, and the install manifest with its canonical JSON form. *)
From S2P Require Import Prelude PyText PyVal PyFloat Json Codec Base64 Model.

Definition MANIFEST_SCHEMA : Z := 2.
Definition PROBE_SCHEMA : Z := 1.
Definition PLAN_SCHEMA : Z := 2.
Definition REQUEST_SCHEMA : Z := 1.
Definition MAX_PAYLOAD_BYTES : Z := 65536.
Definition _SHA256_LENGTH : Z := 64.
Definition MARKER_NAME : pystr := u ".termrecall-generation.json".

(** ** Enumerations *)
Inductive LifecycleExit := OK | INTERNAL | USAGE | PREREQUISITE | REFUSED | ROLLED_BACK | ROLLBACK_INCOMPLETE | WARNING.
Inductive SetupMode := INTERACTIVE | FULL | NO_AUTOSTART | COMMANDS_ONLY | UPGRADE.
Inductive DesiredState := ENABLE | DISABLE | PRESERVE.
Inductive ObjectKind := ABSENT | FILE | SYMLINK.

Definition exit_code (e : LifecycleExit) : Z :=
  match e with
  | OK => 0 | INTERNAL => 1 | USAGE => 2 | PREREQUISITE => 3
  | REFUSED => 4 | ROLLED_BACK => 5 | ROLLBACK_INCOMPLETE => 6 | WARNING => 7
  end.

#[export] Instance LifecycleExit_eq_dec : EqDecision LifecycleExit.
Proof. solve_decision. Defined.
#[export] Instance SetupMode_eq_dec : EqDecision SetupMode.
Proof. solve_decision. Defined.
#[export] Instance DesiredState_eq_dec : EqDecision DesiredState.
Proof. solve_decision. Defined.
#[export] Instance ObjectKind_eq_dec : EqDecision ObjectKind.
Proof. solve_decision. Defined.

#[export] Instance SetupMode_enum : StrEnum SetupMode := {|
  enum_members := [INTERACTIVE; FULL; NO_AUTOSTART; COMMANDS_ONLY; UPGRADE];
  enum_value x := match x with
    | INTERACTIVE => u "interactive" | FULL => u "full" | NO_AUTOSTART => u "no-autostart"
    | COMMANDS_ONLY => u "commands-only" | UPGRADE => u "upgrade" end |}.
#[export] Instance DesiredState_enum : StrEnum DesiredState := {|
  enum_members := [ENABLE; DISABLE; PRESERVE];
  enum_value x := match x with
    | ENABLE => u "enable" | DISABLE => u "disable" | PRESERVE => u "preserve" end |}.
#[export] Instance ObjectKind_enum : StrEnum ObjectKind := {|
  enum_members := [ABSENT; FILE; SYMLINK];
  enum_value x := match x with
    | ABSENT => u "absent" | FILE => u "file" | SYMLINK => u "symlink" end |}.

(** ** Requests *)
Record SetupRequest := mkSetup {
  sr_mode : SetupMode;
  sr_dry_run : bool;
  sr_bash : DesiredState;
  sr_autostart : DesiredState;
  sr_chooser : DesiredState;
  sr_source_root : posix_path;
  sr_wheel : option posix_path;
  sr_probe_request : option pybytes;
  sr_probe_plan : option pybytes;
  sr_probe_plan_digest : option pystr;
}.

Record IntegrationSetupRequest := mkIntegration {
  ir_dry_run : bool;
  ir_bash : DesiredState;
  ir_autostart : DesiredState;
  ir_chooser : DesiredState;
}.

Record UninstallRequest := mkUninstall {
  remove_application : bool;
  remove_bash : bool;
  remove_autostart : bool;
  restore_chooser : bool;
  purge_state : bool;
  assume_yes : bool;
}.

Definition states_valid (mode : SetupMode) (bash autostart chooser : DesiredState) : bool :=
  match mode with
  | INTERACTIVE | FULL => true
  | NO_AUTOSTART => negb (bool_decide (autostart = ENABLE))
  | COMMANDS_ONLY | UPGRADE => bool_decide ((bash, autostart, chooser) = (PRESERVE, PRESERVE, PRESERVE))
  end.

(** The fields have their types by construction. *)
Definition validate_setup_request (request : SetupRequest) : result SetupRequest :=
  raise_if (negb (states_valid (sr_mode request) (sr_bash request) (sr_autostart request) (sr_chooser request)))
    (ValueError (u "integration states conflict with setup mode")) ;?
  Ok request.

Definition validate_integration_setup_request (request : IntegrationSetupRequest) : result IntegrationSetupRequest :=
  Ok request.

(** ** Paths *)
Record LifecyclePaths := mkPaths {
  home : posix_path;
  xdg_data_home : posix_path;
  xdg_config_home : posix_path;
  xdg_state_home : posix_path;
  data_root : posix_path;
  config_root : posix_path;
  state_root : posix_path;
  bin_root : posix_path;
  generations : posix_path;
  current : posix_path;
  manifest : posix_path;
  lifecycle_lock : posix_path;
  bash_integration : posix_path;
  bashrc : posix_path;
  autostart : posix_path;
  chooser : posix_path;
  command_links : list posix_path;
}.

Notation "p / s" := (path_join p (u s)) : path_scope.
Delimit Scope path_scope with path.

Definition _absolute_root (path : posix_path) (name : pystr) : result posix_path :=
  raise_if (negb (is_absolute path) || negb (str_eqb (normpath (path_str path)) (path_str path)))
    (ValueError (name ++ u " must be a canonical absolute path")) ;?
  Ok path.

Definition command_names : list pystr := [u "termrecall"; u "termrecall-bridge"; u "termrecall-nonblock"].

(** [env.get(name, default)], as a path. *)
Definition env_root (env : pystr -> option pystr) (name : pystr) (default : posix_path) : result posix_path :=
  _absolute_root (match env name with Some v => parse_path v | None => default end) name.

Definition resolve_lifecycle_paths (env : pystr -> option pystr) (home0 : posix_path) : result LifecyclePaths :=
  let? home := _absolute_root home0 (u "home") in
  let? data_home := env_root env (u "XDG_DATA_HOME") (home / ".local/share")%path in
  let? config_home := env_root env (u "XDG_CONFIG_HOME") (home / ".config")%path in
  let? state_home := env_root env (u "XDG_STATE_HOME") (home / ".local/state")%path in
  let data_root := (data_home / "termrecall")%path in
  let config_root := (config_home / "termrecall")%path in
  let state_root := (state_home / "termrecall")%path in
  let bin_root := (home / ".local/bin")%path in
  Ok (mkPaths home data_home config_home state_home data_root config_root state_root bin_root
        (data_root / "generations")%path (data_root / "current")%path
        (config_root / "install-manifest.json")%path (config_root / "lifecycle.lock")%path
        (config_root / "bash-integration.bash")%path (home / ".bashrc")%path
        (config_home / "autostart/termrecall.desktop")%path (config_root / "config.json")%path
        (map (path_join bin_root) command_names)).

(** The executable a command link leads to. *)
Definition command_target (paths : LifecyclePaths) (link : posix_path) : posix_path :=
  path_join (current paths) (u "venv/bin/" ++ path_name link).

(** ** The manifest *)
Record BeforeImage := mkBefore {
  bi_path : pystr;
  bi_kind : ObjectKind;
  bi_mode : option Z;
  bi_target : option pystr;
  bi_content : option pybytes;
  bi_sha256 : option pystr;
}.

Record OwnedObject := mkOwned {
  oo_path : pystr;
  oo_kind : ObjectKind;
  oo_mode : Z;
  oo_sha256 : option pystr;
  oo_target : option pystr;
}.

Record MarkerIdentity := mkMarker { mi_path : pystr; mi_sha256 : pystr; mi_mode : Z }.

Record ChooserOwnership := mkChooser {
  co_original : BeforeImage;
  co_post : option BeforeImage;
  co_changed : bool;
}.

Record InstallManifest := mkManifest {
  im_schema_version : Z;
  im_installer_version : pystr;
  im_application_version : pystr;
  im_install_id : pystr;
  im_generation_id : pystr;
  im_roots : pydict;
  im_marker : MarkerIdentity;
  im_owned : list OwnedObject;
  im_created_parents : list pystr;
  im_bash_enabled : bool;
  im_autostart_enabled : bool;
  im_chooser : ChooserOwnership;
  im_rollback_images : list BeforeImage;
  im_bash_backup : option OwnedObject;
}.

(** The manifest as the dict [asdict] makes of it, its bytes in base64
    ([_json_default]). *)
Definition before_val (b : BeforeImage) : pyval :=
  VDict [(u "path", VStr (bi_path b)); (u "kind", VStr (enum_value (bi_kind b)));
         (u "mode", opt_val VInt (bi_mode b)); (u "literal_target", opt_val VStr (bi_target b));
         (u "content", opt_val (fun c => VStr (b64encode c)) (bi_content b));
         (u "content_sha256", opt_val VStr (bi_sha256 b))].

Definition owned_val (o : OwnedObject) : pyval :=
  VDict [(u "path", VStr (oo_path o)); (u "kind", VStr (enum_value (oo_kind o))); (u "mode", VInt (oo_mode o));
         (u "content_sha256", opt_val VStr (oo_sha256 o)); (u "literal_target", opt_val VStr (oo_target o))].

Definition marker_val (m : MarkerIdentity) : pyval :=
  VDict [(u "path", VStr (mi_path m)); (u "content_sha256", VStr (mi_sha256 m)); (u "mode", VInt (mi_mode m))].

Definition chooser_val (c : ChooserOwnership) : pyval :=
  VDict [(u "original", before_val (co_original c)); (u "post", opt_val before_val (co_post c));
         (u "changed", VBool (co_changed c))].

Definition manifest_dict (m : InstallManifest) : pydict :=
  [(u "schema_version", VInt (im_schema_version m));
   (u "installer_version", VStr (im_installer_version m));
   (u "application_version", VStr (im_application_version m));
   (u "install_id", VStr (im_install_id m)); (u "generation_id", VStr (im_generation_id m));
   (u "roots", VDict (im_roots m)); (u "marker", marker_val (im_marker m));
   (u "owned", VList (map owned_val (im_owned m)));
   (u "created_parents", VList (map VStr (im_created_parents m)));
   (u "bash_enabled", VBool (im_bash_enabled m)); (u "autostart_enabled", VBool (im_autostart_enabled m));
   (u "chooser", chooser_val (im_chooser m));
   (u "rollback_images", VList (map before_val (im_rollback_images m)));
   (u "bash_backup", opt_val owned_val (im_bash_backup m))].

(** ** Canonical JSON *)
Definition canonical_options : dump_options := {| ensure_ascii := false; allow_nan := true |}.

Definition _canonical_json (value : pyval) : result pybytes :=
  let? text := json_dumps canonical_options (sorted_keys value) in
  let? raw := utf8_encode text in
  Ok (raw ++ [10]).

Definition manifest_to_bytes (value : InstallManifest) : result pybytes :=
  raise_if (negb (im_schema_version value =? MANIFEST_SCHEMA)) (ValueError (u "unsupported manifest schema")) ;?
  let? raw := _canonical_json (VDict (manifest_dict value)) in
  raise_if (MAX_PAYLOAD_BYTES <? len raw) (ValueError (u "manifest exceeds 65,536 bytes")) ;?
  Ok raw.

Fixpoint pairs_go (result : pydict) (pairs : pydict) : Prelude.result pydict :=
  match pairs with
  | [] => Ok result
  | (key, value) :: rest =>
      raise_if (str_in key (dict_keys result)) (ValueError (u "duplicate JSON key: " ++ key)) ;?
      pairs_go (dict_set key value result) rest
  end.
Definition _pairs (pairs : pydict) : result pyval :=
  let? d := pairs_go [] pairs in Ok (VDict d).

Section Decoding.
Context (rec_limit : nat).

(** [json.loads(raw.decode("utf-8"), object_pairs_hook=_pairs)]; undecodable text
    and text that is not JSON are reported alike. *)
Definition load_object (raw : pybytes) (message : pystr) : result pyval :=
  match (let? text := utf8_decode false raw in json_loads _pairs rec_limit text) with
  | Ok value => Ok value
  | Err UnicodeError | Err JSONDecodeError => Err (ValueError message)
  | Err e => Err e
  end.

Definition _decode_json (raw : pybytes) : result pyval :=
  raise_if (MAX_PAYLOAD_BYTES <? len raw) (ValueError (u "payload exceeds 65,536 bytes")) ;?
  let? value := load_object raw (u "invalid JSON") in
  let? again := _canonical_json value in
  raise_if (negb (bool_decide (again = raw))) (ValueError (u "JSON is not canonical")) ;?
  Ok value.

(** ** Field readers *)
Definition invalid (name : pystr) : exn := ValueError (u "invalid " ++ name).

Definition _exact_keys (value : pydict) (keys : list pystr) (name : pystr) : result unit :=
  raise_if (negb (set_eqb (dict_keys value) keys)) (invalid (name ++ u " keys")).

Definition _string (value : pyval) (name : pystr) : result pystr :=
  match value with
  | VStr s => raise_if (bool_decide (s = []) || char_in 0 s) (invalid name) ;? Ok s
  | _ => Err (invalid name)
  end.

Definition _integer (value : pyval) (name : pystr) (minimum maximum : Z) : result Z :=
  match value with
  | VInt z => raise_if (negb ((minimum <=? z) && (z <=? maximum))) (invalid name) ;? Ok z
  | _ => Err (invalid name)
  end.
(** [_integer] with the default bounds, those of a file mode. *)
Definition mode_integer (value : pyval) (name : pystr) : result Z := _integer value name 0 0xFFF.

Definition _boolean (value : pyval) (name : pystr) : result bool :=
  match value with VBool b => Ok b | _ => Err (invalid name) end.

Definition hex_lower_char (c : Z) : bool := is_digit c || ((97 <=? c) && (c <=? 102)).

Definition _hash (value : pyval) (name : pystr) : result pystr :=
  let? text := _string value name in
  raise_if (negb (len text =? _SHA256_LENGTH) || negb (forallb hex_lower_char text)) (invalid (name ++ u " hash")) ;?
  Ok text.

Definition _path (value : pyval) (name : pystr) : result pystr :=
  let? text := _string value name in
  raise_if (negb (is_absolute (parse_path text)) || negb (str_eqb (normpath text) text)) (invalid (name ++ u " path")) ;?
  Ok text.

Definition _optional {A} (value : pyval) (decoder : pyval -> pystr -> result A) (name : pystr) : result (option A) :=
  match value with VNone => Ok None | _ => let? x := decoder value name in Ok (Some x) end.

Definition _sequence (value : pyval) (name : pystr) : result (list pyval) :=
  match value with
  | VList l => raise_if (128 <? len l) (invalid (name ++ u " collection")) ;? Ok l
  | _ => Err (invalid (name ++ u " collection"))
  end.

Definition as_dict (value : pyval) (name : pystr) : result pydict :=
  match value with VDict d => Ok d | _ => Err (invalid name) end.

(** [ObjectKind(value["kind"])] *)
Definition object_kind (value : pyval) (name : pystr) : result ObjectKind :=
  match value with
  | VStr s => result_of_option (enum_of_value s) (invalid name)
  | _ => Err (invalid name)
  end.

Definition is_some {A} (o : option A) : bool := bool_decide (is_Some o).

Definition before_content (encoded : pyval) : result (option pybytes) :=
  match encoded with
  | VNone => Ok None
  | _ =>
      match (let? s := _string encoded (u "before image content base64") in b64decode_strict s) with
      | Ok content => Ok (Some content)
      | Err e => if is_value_error e then Err (invalid (u "before image content base64")) else Err e
      end
  end.

(** What an image of each kind holds. *)
Definition before_consistent (kind : ObjectKind) (mode : option Z) (target : option pystr) (content : option pybytes)
    (digest : option pystr) : result unit :=
  match kind with
  | ABSENT => raise_if (is_some mode || is_some target || is_some content || is_some digest)
                (ValueError (u "absent before image has metadata"))
  | FILE => raise_if (negb (is_some mode) || is_some target ||
                      match content with None => true | Some c => negb (bool_decide (digest = Some (Sha256.hexdigest c))) end)
              (ValueError (u "invalid file before image content"))
  | SYMLINK => raise_if (negb (is_some mode) || negb (is_some target) || is_some content || is_some digest)
                 (ValueError (u "invalid symlink before image"))
  end.

Definition BEFORE_KEYS : list pystr :=
  [u "path"; u "kind"; u "mode"; u "literal_target"; u "content"; u "content_sha256"].

Definition _decode_before (value : pyval) : result BeforeImage :=
  let? d := as_dict value (u "before image") in
  _exact_keys d BEFORE_KEYS (u "before image") ;?
  let? kind_v := dict_index d (u "kind") in
  let? kind := object_kind kind_v (u "before image kind") in
  let? path_v := dict_index d (u "path") in
  let? path := _path path_v (u "before image") in
  let? mode_v := dict_index d (u "mode") in
  let? mode := _optional mode_v mode_integer (u "before image mode") in
  let? target_v := dict_index d (u "literal_target") in
  let? target := _optional target_v _string (u "before image target") in
  let? digest_v := dict_index d (u "content_sha256") in
  let? digest := _optional digest_v _hash (u "before image content") in
  let? encoded := dict_index d (u "content") in
  let? content := before_content encoded in
  before_consistent kind mode target content digest ;?
  Ok (mkBefore path kind mode target content digest).

Definition OWNED_KEYS : list pystr := [u "path"; u "kind"; u "mode"; u "content_sha256"; u "literal_target"].

Definition owned_consistent (kind : ObjectKind) (digest target : option pystr) : result unit :=
  match kind with
  | ABSENT => Err (ValueError (u "owned object cannot be absent"))
  | FILE => raise_if (negb (is_some digest) || is_some target) (invalid (u "owned file"))
  | SYMLINK => raise_if (negb (is_some target) || is_some digest) (invalid (u "owned symlink"))
  end.

Definition _decode_owned (value : pyval) : result OwnedObject :=
  let? d := as_dict value (u "owned object") in
  _exact_keys d OWNED_KEYS (u "owned object") ;?
  let? kind_v := dict_index d (u "kind") in
  let? kind := object_kind kind_v (u "owned object kind") in
  raise_if (bool_decide (kind = ABSENT)) (ValueError (u "owned object cannot be absent")) ;?
  let? path_v := dict_index d (u "path") in
  let? path := _path path_v (u "owned object") in
  let? mode_v := dict_index d (u "mode") in
  let? mode := mode_integer mode_v (u "owned object mode") in
  let? digest_v := dict_index d (u "content_sha256") in
  let? digest := _optional digest_v _hash (u "owned content") in
  let? target_v := dict_index d (u "literal_target") in
  let? target := _optional target_v _string (u "owned target") in
  owned_consistent kind digest target ;?
  Ok (mkOwned path kind mode digest target).

(** ** Reading a manifest *)
Definition MANIFEST_KEYS : list pystr :=
  [u "schema_version"; u "installer_version"; u "application_version"; u "install_id"; u "generation_id"; u "roots";
   u "marker"; u "owned"; u "created_parents"; u "bash_enabled"; u "autostart_enabled"; u "chooser";
   u "rollback_images"; u "bash_backup"].

Definition expected_roots (paths : LifecyclePaths) (uid : Z) : pydict :=
  [(u "uid", VInt uid); (u "data", VStr (path_str (data_root paths))); (u "config", VStr (path_str (config_root paths)));
   (u "state", VStr (path_str (state_root paths))); (u "bin", VStr (path_str (bin_root paths)))].

Definition read_roots (value : pyval) (paths : LifecyclePaths) (uid : Z) : result pydict :=
  let? roots := as_dict value (u "roots") in
  _exact_keys roots [u "uid"; u "data"; u "config"; u "state"; u "bin"] (u "roots") ;?
  raise_if (negb (py_eqb (VDict roots) (VDict (expected_roots paths uid))) ||
            match dict_get_none roots (u "uid") with VInt _ => false | _ => true end)
    (ValueError (u "manifest roots or uid do not match configured paths")) ;?
  rforeach (fun name => let? v := dict_index roots name in _path v (u "root " ++ name) ;? Ok tt)
    [u "data"; u "config"; u "state"; u "bin"] ;?
  Ok roots.

Definition read_generation_id (value : pyval) : result pystr :=
  let? generation_id := _string value (u "generation_id") in
  raise_if (char_in 47 generation_id || str_in generation_id [u "."; u ".."]) (invalid (u "generation_id")) ;?
  Ok generation_id.

Definition read_marker (marker_raw : pydict) (paths : LifecyclePaths) (generation_id : pystr) : result MarkerIdentity :=
  _exact_keys marker_raw [u "path"; u "content_sha256"; u "mode"] (u "marker") ;?
  let? path_v := dict_index marker_raw (u "path") in
  let? path := _path path_v (u "marker") in
  let? digest_v := dict_index marker_raw (u "content_sha256") in
  let? digest := _hash digest_v (u "marker") in
  let? mode_v := dict_index marker_raw (u "mode") in
  let? mode := mode_integer mode_v (u "marker mode") in
  raise_if (negb (str_eqb path (path_str (path_join (path_join (generations paths) generation_id) MARKER_NAME))) ||
            negb (mode =? 0x180))
    (invalid (u "generation marker")) ;?
  Ok (mkMarker path digest mode).

Definition read_chooser (chooser_raw : pydict) (paths : LifecyclePaths) : result ChooserOwnership :=
  _exact_keys chooser_raw [u "original"; u "post"; u "changed"] (u "chooser") ;?
  let? original_v := dict_index chooser_raw (u "original") in
  let? original := _decode_before original_v in
  let? post_v := dict_index chooser_raw (u "post") in
  let? post := match post_v with VNone => Ok None | _ => let? b := _decode_before post_v in Ok (Some b) end in
  let? changed_v := dict_index chooser_raw (u "changed") in
  let? changed := _boolean changed_v (u "chooser changed") in
  raise_if (negb (str_eqb (bi_path original) (path_str (chooser paths))) ||
            match post with Some b => negb (str_eqb (bi_path b) (path_str (chooser paths))) | None => false end)
    (invalid (u "chooser path")) ;?
  raise_if (negb (Bool.eqb changed (is_some post))) (invalid (u "chooser ownership state")) ;?
  Ok (mkChooser original post changed).

(** [{item.path: item for item in owned}.get(path)]: the last one wins. *)
Definition owned_at (owned : list OwnedObject) (path : pystr) : option OwnedObject :=
  find (fun item => str_eqb (oo_path item) path) (rev owned).

(** The link at [path] is owned and leads to [target]. *)
Definition owns_link (owned : list OwnedObject) (path target : posix_path) : bool :=
  match owned_at owned (path_str path) with
  | Some item => bool_decide (oo_kind item = SYMLINK) && bool_decide (oo_target item = Some (path_str target))
  | None => false
  end.

(** What ties the objects of a manifest together. *)
Definition check_ownership (paths : LifecyclePaths) (m : InstallManifest) : result unit :=
  raise_if (negb (nodupb (map oo_path (im_owned m))) || negb (nodupb (map bi_path (im_rollback_images m))) ||
            negb (nodupb (im_created_parents m)))
    (ValueError (u "duplicate owned, rollback, or parent path")) ;?
  raise_if (negb (owns_link (im_owned m) (current paths) (path_join (generations paths) (im_generation_id m))))
    (invalid (u "current link ownership")) ;?
  rforeach (fun link => raise_if (negb (owns_link (im_owned m) link (command_target paths link)))
                          (invalid (u "command link ownership"))) (command_links paths).

Definition manifest_from_bytes (raw : pybytes) (paths : LifecyclePaths) (uid : Z) : result InstallManifest :=
  let? value := _decode_json raw in
  let? d := match value with VDict d => Ok d | _ => Err (ValueError (u "manifest must be an object")) end in
  _exact_keys d MANIFEST_KEYS (u "manifest") ;?
  let? schema_v := dict_index d (u "schema_version") in
  raise_if (match schema_v with VInt z => negb (z =? MANIFEST_SCHEMA) | _ => true end)
    (ValueError (u "unsupported manifest schema")) ;?
  let? roots_v := dict_index d (u "roots") in
  let? roots := read_roots roots_v paths uid in
  let? installer_v := dict_index d (u "installer_version") in
  let? installer_version := _string installer_v (u "installer_version") in
  let? application_v := dict_index d (u "application_version") in
  let? application_version := _string application_v (u "application_version") in
  let? install_v := dict_index d (u "install_id") in
  let? install_id := _string install_v (u "install_id") in
  let? generation_v := dict_index d (u "generation_id") in
  let? generation_id := read_generation_id generation_v in
  let? marker_v := dict_index d (u "marker") in
  let? marker_raw := as_dict marker_v (u "manifest model") in
  let? chooser_v := dict_index d (u "chooser") in
  let? chooser_raw := as_dict chooser_v (u "manifest model") in
  let? marker := read_marker marker_raw paths generation_id in
  let? chooser := read_chooser chooser_raw paths in
  let? owned_v := dict_index d (u "owned") in
  let? owned_l := _sequence owned_v (u "owned") in
  let? owned := rmap _decode_owned owned_l in
  let? rollback_v := dict_index d (u "rollback_images") in
  let? rollback_l := _sequence rollback_v (u "rollback_images") in
  let? rollback := rmap _decode_before rollback_l in
  let? parents_v := dict_index d (u "created_parents") in
  let? parents_l := _sequence parents_v (u "created_parents") in
  let? parents := rmap (fun item => _path item (u "created parent")) parents_l in
  let? backup_v := dict_index d (u "bash_backup") in
  let? backup := match backup_v with VNone => Ok None | _ => let? o := _decode_owned backup_v in Ok (Some o) end in
  let? bash_v := dict_index d (u "bash_enabled") in
  let? bash := _boolean bash_v (u "bash_enabled") in
  let? autostart_v := dict_index d (u "autostart_enabled") in
  let? autostart := _boolean autostart_v (u "autostart_enabled") in
  let m := mkManifest MANIFEST_SCHEMA installer_version application_version install_id generation_id roots marker owned
             parents bash autostart chooser rollback backup in
  check_ownership paths m ;?
  Ok m.

End Decoding.
