(* ===== verification/ContractProofs.v ===== *)
(** * The install manifest: theorems

    What [manifest_to_bytes] wrote, [manifest_from_bytes] reads back; and what
    [manifest_from_bytes] accepts satisfies [manifest_ok], the conditions under
    which the rest of the lifecycle code may rely on a manifest. *)
From S2P Require Import Prelude PyText PyVal PyFloat Json Codec Base64 Model Store StateCodec Contract.

(** ** Canonical JSON *)
Lemma pairs_go_fresh d acc : NoDup (map fst (acc ++ d)) -> pairs_go acc d = Ok (acc ++ d).
Proof.
  revert acc. induction d as [|[k v] d IH]; intros acc Hnd; cbn [pairs_go]; [by rewrite app_nil_r|].
  pose proof Hnd as Hnd'. rewrite map_app in Hnd'. apply NoDup_app in Hnd' as (_ & Hx & _).
  assert (k ∉ map fst acc) as Hk by (intros Hin; by apply (Hx k Hin); left).
  rewrite (proj2 (str_in_false k (dict_keys acc)) Hk). cbn [raise_if rbind].
  rewrite dict_set_fresh // IH -app_assoc //.
Qed.

Lemma pairs_nodup d : NoDup (map fst d) -> _pairs d = Ok (VDict d).
Proof. intros Hd. unfold _pairs. by rewrite (pairs_go_fresh d []). Qed.

Lemma after_newline : after_number [10].
Proof. unfold after_number, is_digit. lia. Qed.

Lemma loads_dumps_line o hook rec_limit v t :
  (forall d, NoDup (map fst d) -> hook d = Ok (VDict d)) ->
  json_ok v = true -> (nesting v <= rec_limit)%nat -> json_dumps o v = Ok t ->
  json_loads hook rec_limit (t ++ [10]) = Ok v.
Proof.
  intros Hhook Hok Hn Hd.
  pose proof (read_value_dumps o hook v Hhook rec_limit t [10] Hok Hd Hn after_newline) as Hr.
  destruct (dumps_start o v t Hok Hd) as (c & t' & -> & Hc). cbn [app] in *.
  unfold json_loads. rewrite skip_start // Hr.
  assert ((c =? 0xFEFF) = false) as -> by (unfold value_start, is_digit, char_in in Hc; cbn in Hc; lia).
  done.
Qed.

Definition key_leb (a b : pystr * pyval) : bool := str_leb a.1 b.1.

Lemma sort_map_key (f : pyval -> pyval) (d : pydict) : Forall (fun kv => f kv.2 = kv.2) d -> map (fun kv => (kv.1, f kv.2)) d = d.
Proof. induction 1 as [|[k v] d Hv _ IH]; cbn in *; [done|]. by rewrite Hv IH. Qed.

Lemma sorted_keys_idem v : sorted_keys (sorted_keys v) = sorted_keys v.
Proof.
  induction v as [| | | | |l IH|d IH] using pyval_nested_ind; try done.
  - cbn. f_equal. rewrite map_map. apply map_ext_in. intros x Hx. rewrite Forall_forall in IH.
    by apply IH, list_elem_of_In.
  - rewrite !sorted_keys_dict. f_equal. unfold sorted_dict at 1. rewrite sort_map_key.
    + apply Forall_forall. intros kv Hkv. unfold sorted_dict in Hkv. rewrite sort_by_perm in Hkv.
      apply list_elem_of_fmap in Hkv as (kv' & -> & Hin). rewrite Forall_forall in IH. exact (IH kv' Hin).
    + apply sort_by_id. unfold sorted_dict. apply (sort_by_sorted key_leb);
        unfold key_leb; [intros; apply str_leb_total|intros a b c; apply str_leb_trans].
Qed.

(** A value that was written is read as its sorted form. *)
Lemma canonical_read rec_limit v raw : value_ok v = true -> (nesting v <= rec_limit)%nat ->
  _canonical_json v = Ok raw -> len raw <= MAX_PAYLOAD_BYTES -> _decode_json rec_limit raw = Ok (sorted_keys v).
Proof.
  intros Hv Hn Hc Hlen. pose proof Hc as Hc'. unfold _canonical_json in Hc.
  apply rbind_Ok in Hc as (t & Ht & Hc). apply rbind_Ok in Hc as (b & Hb & Hc). apply Ok_inj in Hc as ->.
  assert (forallb is_scalar t = true) as Hs by (unfold utf8_encode in Hb; by destruct (forallb is_scalar t)).
  assert (utf8_encode (t ++ [10]) = Ok (b ++ [10])) as Hline.
  { unfold utf8_encode in *. rewrite Hs in Hb. apply Ok_inj in Hb as ->.
    rewrite forallb_app Hs flat_map_app. done. }
  unfold _decode_json. rewrite ltb_false //. cbn [raise_if rbind]. unfold load_object.
  rewrite (utf8_round_trip false _ _ Hline). cbn [rbind].
  rewrite (loads_dumps_line canonical_options _pairs rec_limit (sorted_keys v) t pairs_nodup) //.
  - eapply dumped_json_ok; [|exact Ht|done|by apply sorted_value_ok]. done.
  - by rewrite sorted_nesting.
  - cbn [rbind]. unfold _canonical_json. rewrite sorted_keys_idem. fold (_canonical_json v). rewrite Hc'.
    cbn [rbind]. rewrite bool_decide_true //.
Qed.

(** What is accepted is the canonical text of its value. *)
Lemma decode_canonical rec_limit raw v : _decode_json rec_limit raw = Ok v ->
  _canonical_json v = Ok raw /\ len raw <= MAX_PAYLOAD_BYTES.
Proof.
  unfold _decode_json. intros H. apply rbind_Ok in H as (? & Hlen & H). apply raise_if_Ok in Hlen.
  apply rbind_Ok in H as (w & _ & H). apply rbind_Ok in H as (again & Ha & H).
  apply rbind_Ok in H as (? & Hr & H). apply Ok_inj in H as ->. apply raise_if_Ok, negb_false_iff, bool_decide_eq_true in Hr.
  subst again. split; [done|lia].
Qed.

(** ** What the readers accept *)
Definition text_ok (s : pystr) : bool := negb (bool_decide (s = [])) && negb (char_in 0 s).
Definition path_ok (s : pystr) : bool := text_ok s && is_absolute (parse_path s) && str_eqb (normpath s) s.
Definition hash_ok (s : pystr) : bool := text_ok s && (len s =? 64) && forallb hex_lower_char s.
Definition mode_ok (m : Z) : bool := (0 <=? m) && (m <=? 0xFFF).
Definition opt_ok {A} (f : A -> bool) (o : option A) : bool := match o with Some a => f a | None => true end.

Lemma text_ok_intro s : s <> [] -> char_in 0 s = false -> text_ok s = true.
Proof. intros Hs Hc. unfold text_ok. by rewrite bool_decide_false // Hc. Qed.

Lemma string_spec v n s : _string v n = Ok s <-> v = VStr s /\ text_ok s = true.
Proof.
  unfold _string, text_ok. destruct v as [| | | |t| |]; try naive_solver. rewrite rbind_Ok. split.
  - intros (? & H%raise_if_Ok & E). apply Ok_inj in E as ->. apply orb_false_iff in H as [-> ->]. done.
  - intros [E H]. injection E as ->. exists tt. apply andb_true_iff in H as [H1 H2].
    apply negb_true_iff in H1, H2. by rewrite H1 H2.
Qed.

Lemma path_spec v n s : Contract._path v n = Ok s <-> v = VStr s /\ path_ok s = true.
Proof.
  unfold Contract._path, path_ok. rewrite rbind_Ok. setoid_rewrite string_spec. setoid_rewrite rbind_Ok. split.
  - intros (t & [-> Ht] & ? & H%raise_if_Ok & E). apply Ok_inj in E as ->.
    apply orb_false_iff in H as [H1%negb_false_iff H2%negb_false_iff]. by rewrite Ht H1 H2.
  - intros [-> [[H1 H2]%andb_true_iff H3]%andb_true_iff]. exists s. split; [done|]. exists tt. by rewrite H2 H3.
Qed.

Lemma hash_spec v n s : _hash v n = Ok s <-> v = VStr s /\ hash_ok s = true.
Proof.
  unfold _hash, hash_ok. rewrite rbind_Ok. setoid_rewrite string_spec. setoid_rewrite rbind_Ok. split.
  - intros (t & [-> Ht] & ? & H%raise_if_Ok & E). apply Ok_inj in E as ->.
    apply orb_false_iff in H as [H1%negb_false_iff H2%negb_false_iff]. unfold _SHA256_LENGTH in H1. by rewrite Ht H1 H2.
  - intros [-> [[H1 H2]%andb_true_iff H3]%andb_true_iff]. exists s. split; [done|]. exists tt.
    unfold _SHA256_LENGTH. by rewrite H2 H3.
Qed.

Lemma mode_spec v n m : mode_integer v n = Ok m <-> v = VInt m /\ mode_ok m = true.
Proof.
  unfold mode_integer, Contract._integer, mode_ok. destruct v as [| |z| | | |]; try naive_solver. rewrite rbind_Ok. split.
  - intros (? & H%raise_if_Ok%negb_false_iff & E). by apply Ok_inj in E as ->.
  - intros [E H]. injection E as ->. exists tt. by rewrite H.
Qed.

Lemma boolean_spec v n b : Contract._boolean v n = Ok b <-> v = VBool b.
Proof. unfold Contract._boolean. destruct v; naive_solver. Qed.

Lemma optional_spec {A} (dec : pyval -> pystr -> result A) (enc : A -> pyval) (ok : A -> bool) v n o :
  (forall v n a, dec v n = Ok a <-> v = enc a /\ ok a = true) -> (forall a, enc a <> VNone) ->
  _optional v dec n = Ok o <-> v = opt_val enc o /\ opt_ok ok o = true.
Proof.
  intros Hdec Hne. unfold _optional.
  assert (Hsome : v <> VNone -> rbind (dec v n) (fun x => Ok (Some x)) = Ok o <-> v = opt_val enc o /\ opt_ok ok o = true).
  { intros Hv. rewrite rbind_Ok. setoid_rewrite Hdec. split.
    - intros (a & [-> Ha] & E). by apply Ok_inj in E as ->.
    - destruct o as [a|]; [intros [-> Ha]; by exists a|by intros [-> _]]. }
  destruct v; try (by apply Hsome). split.
  - intros E. by apply Ok_inj in E as ->.
  - intros [E _]. destruct o as [a|]; [by destruct (Hne a)|done].
Qed.

(** ** Records *)
#[local] Opaque text_ok path_ok hash_ok mode_ok.

Lemma sorted_opt {A} (enc : A -> pyval) o : (forall a, sorted_keys (enc a) = enc a) ->
  sorted_keys (opt_val enc o) = opt_val enc o.
Proof. destruct o; cbn; auto. Qed.

Lemma sorted_strings l : map sorted_keys (map VStr l) = map VStr l.
Proof. rewrite map_map. done. Qed.

Lemma exact_keys_sorted d keys n : set_eqb (dict_keys d) keys = true -> _exact_keys (sorted_dict d) keys n = Ok tt.
Proof.
  intros H. unfold _exact_keys. assert (set_eqb (dict_keys (sorted_dict d)) keys = true) as ->; [|done].
  rewrite set_eqb_spec in H. apply set_eqb_spec. intros x. by rewrite sorted_dict_keys.
Qed.

Lemma exact_keys_spec d keys n r : _exact_keys d keys n = Ok r <-> set_eqb (dict_keys d) keys = true.
Proof. unfold _exact_keys. destruct r. rewrite raise_if_Ok negb_false_iff. done. Qed.

(** Reading the field [k] of a literal dict whose keys were sorted. *)
Ltac read_sorted Hnd :=
  match goal with
  | |- context [dict_index (sorted_dict ?d) ?k] =>
      rewrite (sorted_index d k _ Hnd eq_refl); cbn [rbind]
  end.

Ltac distinct_keys d := apply nodupb_spec; reflexivity.

Definition before_ok (b : BeforeImage) : bool :=
  path_ok (bi_path b) && opt_ok mode_ok (bi_mode b) && opt_ok text_ok (bi_target b) && opt_ok hash_ok (bi_sha256 b) &&
  opt_ok (fun c => forallb is_byte c && negb (bool_decide (c = []))) (bi_content b) &&
  is_ok (before_consistent (bi_kind b) (bi_mode b) (bi_target b) (bi_content b) (bi_sha256 b)).

Definition owned_ok (o : OwnedObject) : bool :=
  path_ok (oo_path o) && mode_ok (oo_mode o) && opt_ok hash_ok (oo_sha256 o) && opt_ok text_ok (oo_target o) &&
  is_ok (owned_consistent (oo_kind o) (oo_sha256 o) (oo_target o)).

Lemma is_ok_unit (r : result unit) : is_ok r = true <-> r = Ok tt.
Proof. destruct r as [[]|]; naive_solver. Qed.

Lemma object_kind_spec v n k : object_kind v n = Ok k <-> v = VStr (enum_value k).
Proof.
  unfold object_kind. destruct v as [| | | |s| |]; try (split; [done|by destruct k]).
  rewrite result_of_option_Ok. split.
  - intros H. by rewrite (enum_of_value_inv _ _ H).
  - intros [= ->]. by destruct k.
Qed.

(** The bytes of a text the strict decoder takes. *)
Lemma a2b_bytes s quad left pads padded b : 0 <= left < (if quad =? 0 then 1 else if quad =? 1 then 64 else if quad =? 2 then 16 else 4) ->
  a2b_loop s quad left pads padded = Ok b -> forallb is_byte b = true /\ (quad = 1 -> b <> []).
Proof.
  revert quad left pads padded b. induction s as [|c s IH]; intros quad left pads padded b Hl; cbn [a2b_loop].
  - intros H. r_inv. split; [done|]. lia.
  - assert (Hv : forall v, value64 c = Some v -> 0 <= v < 64).
    { unfold value64. intros v. repeat case_match; intros H'; try done; injection H' as <-; lia. }
    destruct (c =? 61).
    + destruct ((2 <=? quad) && (4 <=? quad + (pads + 1))) eqn:E; [|by apply IH].
      intros H. r_inv. split; [done|]. lia.
    + destruct (value64 c) as [v|] eqn:Ev; [|done]. specialize (Hv v eq_refl).
      pose proof (Z.mod_pos_bound v 16 ltac:(lia)). pose proof (Z.mod_pos_bound v 4 ltac:(lia)).
      assert (0 <= v / 16 < 4) by (split; [apply Z.div_pos; lia|apply Z.div_lt_upper_bound; lia]).
      assert (0 <= v / 4 < 16) by (split; [apply Z.div_pos; lia|apply Z.div_lt_upper_bound; lia]).
      intros H'. apply rbind_Ok in H' as (? & _ & H').
      destruct (quad =? 0) eqn:E0; [|destruct (quad =? 1) eqn:E1; [|destruct (quad =? 2) eqn:E2]];
        [apply IH in H' as [H' _]; [split; [done|lia]|cbn; lia]|..];
        apply rbind_Ok in H' as (out & Ho & H'); apply Ok_inj in H' as ->; apply IH in Ho as [Ho _];
        try (cbn; lia); (split; [cbn [forallb]; rewrite Ho andb_true_r; unfold is_byte; lia|done]).
Qed.

Lemma b64decode_bytes s b : b64decode_strict s = Ok b -> s <> [] -> forallb is_byte b = true /\ b <> [].
Proof.
  unfold b64decode_strict. intros H Hs. apply rbind_Ok in H as (? & _ & H). apply rbind_Ok in H as (? & Hp & H).
  apply raise_if_Ok in Hp. destruct s as [|c s]; [done|]. cbn [a2b_loop] in H. rewrite Hp in H.
  destruct (value64 c) as [v|] eqn:Ev; [|done]. cbn in H. eapply a2b_bytes in H; [naive_solver|].
  unfold value64 in Ev. cbn. revert Ev. repeat case_match; intros H'; try done; injection H' as <-; lia.
Qed.

Definition content_ok (c : pybytes) : bool := forallb is_byte c && negb (bool_decide (c = [])).

Lemma content_written o : opt_ok content_ok o = true -> before_content (opt_val (fun c => VStr (b64encode c)) o) = Ok o.
Proof.
  destruct o as [c|]; [|done]. cbn [opt_ok opt_val before_content].
  intros [Hc Hne%negb_true_iff%bool_decide_eq_false]%andb_true_iff.
  destruct (b64encode_text c Hc Hne) as [H1 H2].
  assert (text_ok (b64encode c) = true) as Ht by (by apply text_ok_intro).
  rewrite (proj2 (string_spec (VStr (b64encode c)) _ (b64encode c)) (conj eq_refl Ht)). cbn [rbind].
  by rewrite b64_round_trip.
Qed.

Lemma content_read v o : before_content v = Ok o -> opt_ok content_ok o = true.
Proof.
  unfold before_content. assert (Hgen : match (let? s := Contract._string v (u "before image content base64") in b64decode_strict s) with
      | Ok content => Ok (Some content)
      | Err e => if is_value_error e then Err (invalid (u "before image content base64")) else Err e
      end = Ok o -> opt_ok content_ok o = true).
  { destruct (rbind _ _) as [c|e] eqn:E; [|by destruct (is_value_error e)].
    intros H. apply Ok_inj in H as ->. apply rbind_Ok in E as (s & [-> Hs]%string_spec & Hb). cbn [opt_ok]. unfold content_ok.
    assert (s <> []) as Hne by (by intros ->). destruct (b64decode_bytes s c Hb Hne) as [-> Hc]. by rewrite bool_decide_false. }
  destruct v; try exact Hgen. intros H. by apply Ok_inj in H as ->.
Qed.

Definition optional_path := fun v n o => optional_spec (A := pystr) Contract._path VStr path_ok v n o path_spec ltac:(done).
Definition optional_hash := fun v n o => optional_spec (A := pystr) _hash VStr hash_ok v n o hash_spec ltac:(done).
Definition optional_text := fun v n o => optional_spec (A := pystr) Contract._string VStr text_ok v n o string_spec ltac:(done).
Definition optional_mode := fun v n o => optional_spec (A := Z) mode_integer VInt mode_ok v n o mode_spec ltac:(done).

(** A reader applied to the encoding of a value that satisfies its condition. *)
Ltac read_value_ok :=
  match goal with
  | |- context [_optional (opt_val VInt ?o) mode_integer ?n] =>
      rewrite (proj2 (optional_mode (opt_val VInt o) n o)); [by split|]
  | |- context [_optional (opt_val VStr ?o) Contract._string ?n] =>
      rewrite (proj2 (optional_text (opt_val VStr o) n o)); [by split|]
  | |- context [_optional (opt_val VStr ?o) _hash ?n] =>
      rewrite (proj2 (optional_hash (opt_val VStr o) n o)); [by split|]
  | |- context [object_kind (VStr (enum_value ?k)) ?n] => rewrite (proj2 (object_kind_spec (VStr (enum_value k)) n k) eq_refl)
  | |- context [Contract._path (VStr ?s) ?n] => rewrite (proj2 (path_spec (VStr s) n s)); [by split|]
  | |- context [_hash (VStr ?s) ?n] => rewrite (proj2 (hash_spec (VStr s) n s)); [by split|]
  | |- context [Contract._string (VStr ?s) ?n] => rewrite (proj2 (string_spec (VStr s) n s)); [by split|]
  | |- context [mode_integer (VInt ?m) ?n] => rewrite (proj2 (mode_spec (VInt m) n m)); [by split|]
  | |- context [before_content (opt_val _ ?o)] => rewrite (content_written o); [assumption|]
  end; cbn [rbind].

(** Opens the conditions of a record and the fields of its sorted encoding. *)
Ltac split_ok := repeat match goal with H : andb _ _ = true |- _ => apply andb_true_iff in H; destruct H end.
Ltac read_field Hnd := read_sorted Hnd; rewrite ?sorted_opt; try done; cbn [sorted_keys snd]; try read_value_ok.

Lemma before_read b : before_ok b = true -> _decode_before (sorted_keys (before_val b)) = Ok b.
Proof.
  intros H. unfold before_ok in H. split_ok. match goal with Hc : is_ok _ = true |- _ => apply is_ok_unit in Hc as Hc' end.
  unfold before_val. rewrite sorted_keys_dict. match goal with |- context [sorted_dict ?d] =>
    assert (NoDup (map fst d)) as Hnd by (distinct_keys d) end.
  unfold _decode_before. cbn [as_dict rbind]. rewrite exact_keys_sorted //. cbn [rbind].
  do 6 read_field Hnd. rewrite Hc'. cbn [rbind]. by destruct b.
Qed.

Lemma before_accepted v b : _decode_before v = Ok b -> before_ok b = true.
Proof.
  unfold _decode_before. intros H. r_inv. unfold before_ok. cbn [bi_path bi_kind bi_mode bi_target bi_content bi_sha256].
  repeat match goal with
  | Hp : Contract._path _ _ = Ok _ |- _ => apply path_spec in Hp as [_ ->]
  | Hp : _optional _ mode_integer _ = Ok _ |- _ => apply optional_mode in Hp as [_ ->]
  | Hp : _optional _ Contract._string _ = Ok _ |- _ => apply optional_text in Hp as [_ ->]
  | Hp : _optional _ _hash _ = Ok _ |- _ => apply optional_hash in Hp as [_ ->]
  | Hp : before_content _ = Ok _ |- _ => apply content_read in Hp; unfold content_ok in Hp; rewrite Hp
  | Hp : before_consistent _ _ _ _ _ = Ok _ |- _ => rewrite Hp
  end. done.
Qed.

Lemma owned_read o : owned_ok o = true -> _decode_owned (sorted_keys (owned_val o)) = Ok o.
Proof.
  intros H. unfold owned_ok in H. split_ok. match goal with Hc : is_ok _ = true |- _ => apply is_ok_unit in Hc as Hc' end.
  assert (bool_decide (oo_kind o = ABSENT) = false) as Hk.
  { apply bool_decide_eq_false. intros Hk. by rewrite Hk in Hc'. }
  unfold owned_val. rewrite sorted_keys_dict. match goal with |- context [sorted_dict ?d] =>
    assert (NoDup (map fst d)) as Hnd by (distinct_keys d) end.
  unfold _decode_owned. cbn [as_dict rbind]. rewrite exact_keys_sorted //. cbn [rbind].
  read_field Hnd. rewrite Hk. cbn [raise_if rbind]. do 4 read_field Hnd. rewrite Hc'. cbn [rbind]. by destruct o.
Qed.

Lemma owned_accepted v o : _decode_owned v = Ok o -> owned_ok o = true.
Proof.
  unfold _decode_owned. intros H. r_inv. unfold owned_ok. cbn [oo_path oo_kind oo_mode oo_sha256 oo_target].
  repeat match goal with
  | Hp : Contract._path _ _ = Ok _ |- _ => apply path_spec in Hp as [_ ->]
  | Hp : mode_integer _ _ = Ok _ |- _ => apply mode_spec in Hp as [_ ->]
  | Hp : _optional _ Contract._string _ = Ok _ |- _ => apply optional_text in Hp as [_ ->]
  | Hp : _optional _ _hash _ = Ok _ |- _ => apply optional_hash in Hp as [_ ->]
  | Hp : owned_consistent _ _ _ = Ok _ |- _ => rewrite Hp
  end. done.
Qed.

(** ** The roots *)
Definition root_names : list pystr := [u "uid"; u "data"; u "config"; u "state"; u "bin"].

Lemma expected_keys paths uid : dict_keys (expected_roots paths uid) = root_names.
Proof. done. Qed.

Lemma root_names_nodup : NoDup root_names.
Proof. by apply nodupb_spec. Qed.

Lemma py_eqb_str v s : py_eqb v (VStr s) = true -> v = VStr s.
Proof. destruct v; cbn; try done. by intros ->%str_eqb_eq. Qed.

Lemma py_eqb_dict d e : py_eqb (VDict d) (VDict e) = true <->
  length d = length e /\ Forall (fun kv => exists w, dict_get kv.1 e = Some w /\ py_eqb kv.2 w = true) d.
Proof.
  cbn [py_eqb]. rewrite andb_true_iff Nat.eqb_eq.
  assert (forall x, (fix go (x : pydict) : bool := match x with [] => true
         | (k, v) :: x' => match dict_get k e with Some w => py_eqb v w | None => false end && go x' end) x = true <->
    Forall (fun kv => exists w, dict_get kv.1 e = Some w /\ py_eqb kv.2 w = true) x) as ->; [|done].
  induction x as [|[k v] x IH]; [split; [constructor|done]|]. rewrite andb_true_iff IH Forall_cons. cbn [fst snd].
  destruct (dict_get k e) as [w|]; naive_solver.
Qed.

Lemma roots_permuted R paths uid : set_eqb (dict_keys R) root_names = true ->
  py_eqb (VDict R) (VDict (expected_roots paths uid)) = true ->
  (exists z, dict_get_none R (u "uid") = VInt z) -> R ≡ₚ expected_roots paths uid.
Proof.
  intros Hk [Hlen Hall]%py_eqb_dict [z Hz]. rewrite set_eqb_spec in Hk.
  assert (root_names ≡ₚ dict_keys R) as Hp.
  { apply submseteq_length_Permutation; [apply NoDup_submseteq; [exact root_names_nodup|naive_solver]|].
    unfold dict_keys. by rewrite length_map Hlen. }
  assert (NoDup (map fst R)) as Hnd by (change (NoDup (dict_keys R)); rewrite -Hp; exact root_names_nodup).
  apply submseteq_length_Permutation; [|by rewrite Hlen].
  apply NoDup_submseteq; [exact (NoDup_fmap_1 fst R Hnd)|].
  intros [k v] Hin. rewrite Forall_forall in Hall. destruct (Hall _ Hin) as (w & Hw & He). cbn [fst snd] in *.
  apply dict_get_Some in Hw; [|exact root_names_nodup]. pose proof Hw as Hw'.
  unfold expected_roots in Hw'. rewrite !elem_of_cons elem_of_nil in Hw'.
  destruct Hw' as [E|[E|[E|[E|[E|[]]]]]]; injection E as -> ->; try by (apply py_eqb_str in He as ->).
  apply dict_get_Some in Hin; [|done]. unfold dict_get_none in Hz. rewrite Hin in Hz. cbn in Hz. subst v.
  cbn in He. by apply Z.eqb_eq in He as ->.
Qed.

Lemma roots_equal R paths uid : R ≡ₚ expected_roots paths uid ->
  py_eqb (VDict R) (VDict (expected_roots paths uid)) = true.
Proof.
  intros Hp. apply py_eqb_dict. split; [by rewrite Hp|]. rewrite Hp.
  unfold expected_roots. repeat constructor; (eexists; split; [reflexivity|]); cbn;
    rewrite ?str_eqb_refl ?Z.eqb_refl //.
Qed.

Definition roots_canonical (paths : LifecyclePaths) : bool :=
  forallb (fun p => path_ok (path_str p)) [data_root paths; config_root paths; state_root paths; bin_root paths].

Lemma roots_read R paths uid : R ≡ₚ expected_roots paths uid -> roots_canonical paths = true ->
  read_roots (VDict R) paths uid = Ok R.
Proof.
  intros Hp Hc. unfold read_roots. cbn [as_dict rbind].
  assert (Hnd : NoDup (map fst R)).
  { change (NoDup (dict_keys R)). unfold dict_keys. rewrite Hp. exact root_names_nodup. }
  assert (Hget : forall k, dict_get k R = dict_get k (expected_roots paths uid)) by (intros k; by apply dict_get_perm).
  assert (_exact_keys R root_names (u "roots") = Ok tt) as Hk.
  { unfold _exact_keys. rewrite (proj2 (set_eqb_spec _ _)); [|done]. intros k. unfold dict_keys. by rewrite Hp. }
  fold root_names. rewrite Hk. cbn [rbind]. rewrite roots_equal //. unfold dict_get_none, dict_index.
  rewrite Hget. cbn [negb orb raise_if rbind default].
  change (dict_get (u "uid") (expected_roots paths uid)) with (Some (VInt uid)). cbn [default id raise_if rbind].
  unfold roots_canonical in Hc. cbn [forallb] in Hc. split_ok.
  cbn [rforeach]. rewrite !Hget.
  change (dict_get (u "data") (expected_roots paths uid)) with (Some (VStr (path_str (data_root paths)))).
  change (dict_get (u "config") (expected_roots paths uid)) with (Some (VStr (path_str (config_root paths)))).
  change (dict_get (u "state") (expected_roots paths uid)) with (Some (VStr (path_str (state_root paths)))).
  change (dict_get (u "bin") (expected_roots paths uid)) with (Some (VStr (path_str (bin_root paths)))).
  cbn [result_of_option rbind]. do 4 read_value_ok. done.
Qed.

Lemma roots_accepted v paths uid R : read_roots v paths uid = Ok R ->
  R ≡ₚ expected_roots paths uid /\ roots_canonical paths = true.
Proof.
  unfold read_roots. intros H. apply rbind_Ok in H as (d & _ & H). apply rbind_Ok in H as (? & Hk%exact_keys_spec & H).
  apply rbind_Ok in H as (? & Hr%raise_if_Ok & H). apply rbind_Ok in H as (? & Hp%rforeach_Ok & H). apply Ok_inj in H. subst d.
  apply orb_false_iff in Hr as [He%negb_false_iff Hu].
  assert (R ≡ₚ expected_roots paths uid) as Hperm.
  { apply roots_permuted; [done|done|]. destruct (dict_get_none _ _); try done. by eexists. }
  split; [done|].
  assert (Hnd : NoDup (map fst R)) by (rewrite Hperm; exact root_names_nodup).
  assert (Hone : forall k s, dict_get k (expected_roots paths uid) = Some (VStr s) ->
    (let? v := dict_index R k in Contract._path v (u "root " ++ k) ;? Ok tt) = Ok tt -> path_ok s = true).
  { intros k s Hs Hr. unfold dict_index in Hr. rewrite (dict_get_perm _ _ _ Hnd Hperm) Hs in Hr. cbn [result_of_option rbind] in Hr.
    apply rbind_Ok in Hr as (? & [E Hr]%path_spec & _). by injection E as <-. }
  rewrite !Forall_cons in Hp. destruct Hp as (H1 & H2 & H3 & H4 & _).
  unfold roots_canonical. cbn [forallb].
  rewrite (Hone (u "data") _ eq_refl H1) (Hone (u "config") _ eq_refl H2) (Hone (u "state") _ eq_refl H3)
    (Hone (u "bin") _ eq_refl H4). done.
Qed.

(** ** Links *)

(** Some owned object is the link at [path], and it leads to [target]. *)
Definition owns (owned : list OwnedObject) (path target : posix_path) : Prop :=
  exists o, o ∈ owned /\ oo_path o = path_str path /\ oo_kind o = SYMLINK /\ oo_target o = Some (path_str target).

Lemma find_key {A} (key : A -> pystr) (l : list A) x : NoDup (map key l) -> x ∈ l ->
  find (fun y => str_eqb (key y) (key x)) l = Some x.
Proof.
  induction l as [|y l IH]; [by intros _ ?%elem_of_nil|]. cbn. intros [Hy Hnd]%NoDup_cons [->|Hin]%elem_of_cons;
    [by rewrite str_eqb_refl|]. destruct (str_eqb (key y) (key x)) eqn:E; [|by apply IH].
  apply str_eqb_eq in E. destruct Hy. rewrite E. by apply (list_elem_of_fmap_2 key).
Qed.

Lemma owned_at_spec owned p o : NoDup (map oo_path owned) -> owned_at owned p = Some o <-> o ∈ owned /\ oo_path o = p.
Proof.
  intros Hnd. unfold owned_at. split.
  - intros H. apply List.find_some in H as [Hin Hp]. rewrite -in_rev in Hin. apply list_elem_of_In in Hin. by apply str_eqb_eq in Hp.
  - intros [Hin <-]. apply find_key.
    + change (NoDup (oo_path <$> rev owned)). by rewrite -Permutation_rev.
    + by rewrite -Permutation_rev.
Qed.

Lemma owns_link_spec owned p t : NoDup (map oo_path owned) -> owns_link owned p t = true <-> owns owned p t.
Proof.
  intros Hnd. unfold owns_link, owns. destruct (owned_at owned (path_str p)) as [o|] eqn:E.
  - apply owned_at_spec in E as [Hin Hp]; [|done]. rewrite andb_true_iff !bool_decide_eq_true. split.
    + intros [Hk Ht]. by exists o.
    + intros (o' & Hin' & Hp' & Hk & Ht). assert (o' = o) as ->; [|done].
      assert (owned_at owned (path_str p) = Some o') as E1 by by apply owned_at_spec.
      assert (owned_at owned (path_str p) = Some o) as E2 by by apply owned_at_spec. congruence.
  - split; [done|]. intros (o & Hin & Hp & _). assert (owned_at owned (path_str p) = Some o); [by apply owned_at_spec|congruence].
Qed.

(** ** The manifest *)

(** What makes a manifest usable: its roots are the configured ones, its texts are
    texts, its marker belongs to its generation, the chooser's images belong to
    the chooser, no path is listed twice, and the links are owned and lead to
    the generation. *)
Record manifest_ok (paths : LifecyclePaths) (uid : Z) (m : InstallManifest) : Prop := {
  mo_schema : im_schema_version m = 2;
  mo_roots : im_roots m ≡ₚ expected_roots paths uid;
  mo_canonical : roots_canonical paths = true;
  mo_texts : forallb text_ok [im_installer_version m; im_application_version m; im_install_id m; im_generation_id m] = true;
  mo_generation : 47 ∉ im_generation_id m /\ im_generation_id m <> u "." /\ im_generation_id m <> u "..";
  mo_marker : im_marker m = mkMarker (path_str (path_join (path_join (generations paths) (im_generation_id m)) MARKER_NAME))
                (mi_sha256 (im_marker m)) 0x180;
  mo_marker_path : path_ok (mi_path (im_marker m)) = true;
  mo_marker_hash : hash_ok (mi_sha256 (im_marker m)) = true;
  mo_original : before_ok (co_original (im_chooser m)) = true /\ bi_path (co_original (im_chooser m)) = path_str (chooser paths);
  mo_post : forall b, co_post (im_chooser m) = Some b -> before_ok b = true /\ bi_path b = path_str (chooser paths);
  mo_changed : co_changed (im_chooser m) = is_some (co_post (im_chooser m));
  mo_owned : Forall (fun o => owned_ok o = true) (im_owned m);
  mo_rollback : Forall (fun b => before_ok b = true) (im_rollback_images m);
  mo_parents : Forall (fun p => path_ok p = true) (im_created_parents m);
  mo_backup : opt_ok owned_ok (im_bash_backup m) = true;
  mo_sizes : len (im_owned m) <= 128 /\ len (im_rollback_images m) <= 128 /\ len (im_created_parents m) <= 128;
  mo_distinct : NoDup (map oo_path (im_owned m)) /\ NoDup (map bi_path (im_rollback_images m)) /\ NoDup (im_created_parents m);
  mo_current : owns (im_owned m) (current paths) (path_join (generations paths) (im_generation_id m));
  mo_links : Forall (fun link => owns (im_owned m) link (command_target paths link)) (command_links paths);
}.

(** The order in which a decoded manifest has its roots. *)
Definition with_sorted_roots (m : InstallManifest) : InstallManifest :=
  mkManifest (im_schema_version m) (im_installer_version m) (im_application_version m) (im_install_id m) (im_generation_id m)
    (sorted_dict (im_roots m)) (im_marker m) (im_owned m) (im_created_parents m) (im_bash_enabled m)
    (im_autostart_enabled m) (im_chooser m) (im_rollback_images m) (im_bash_backup m).

Lemma ownership_spec paths m : check_ownership paths m = Ok tt <->
  (NoDup (map oo_path (im_owned m)) /\ NoDup (map bi_path (im_rollback_images m)) /\ NoDup (im_created_parents m)) /\
  owns (im_owned m) (current paths) (path_join (generations paths) (im_generation_id m)) /\
  Forall (fun link => owns (im_owned m) link (command_target paths link)) (command_links paths).
Proof.
  unfold check_ownership.
  assert (Hl : NoDup (map oo_path (im_owned m)) ->
    rforeach (fun link => raise_if (negb (owns_link (im_owned m) link (command_target paths link)))
      (invalid (u "command link ownership"))) (command_links paths) = Ok tt <->
    Forall (fun link => owns (im_owned m) link (command_target paths link)) (command_links paths)).
  { intros Hnd. rewrite rforeach_Ok. apply Forall_iff. intros link. rewrite raise_if_Ok negb_false_iff. by apply owns_link_spec. }
  split.
  - intros H. apply rbind_Ok in H as (? & H1%raise_if_Ok & H). apply rbind_Ok in H as (? & H2%raise_if_Ok & H).
    rewrite !orb_false_iff !negb_false_iff !nodupb_spec in H1. destruct H1 as [[H1 H3] H4].
    apply negb_false_iff, owns_link_spec in H2; [|done]. apply Hl in H; [|done]. done.
  - intros ((H1 & H2 & H3) & Hc & Hls%Hl); [|done]. apply owns_link_spec in Hc; [|done].
    rewrite (proj2 (nodupb_spec _) H1) (proj2 (nodupb_spec _) H2) (proj2 (nodupb_spec _) H3) Hc Hls. done.
Qed.

Definition marker_dict (m : MarkerIdentity) : pydict :=
  [(u "path", VStr (mi_path m)); (u "content_sha256", VStr (mi_sha256 m)); (u "mode", VInt (mi_mode m))].
Definition chooser_dict (c : ChooserOwnership) : pydict :=
  [(u "original", before_val (co_original c)); (u "post", opt_val before_val (co_post c)); (u "changed", VBool (co_changed c))].

Lemma generation_spec v g : read_generation_id v = Ok g <->
  v = VStr g /\ text_ok g = true /\ 47 ∉ g /\ g <> u "." /\ g <> u "..".
Proof.
  unfold read_generation_id. rewrite rbind_Ok. setoid_rewrite string_spec.
  assert (Hin : forall s, char_in 47 s = false <-> 47 ∉ s).
  { intros s. unfold char_in. rewrite -not_true_iff_false existsb_exists. setoid_rewrite list_elem_of_In. split.
    - intros H Hs. apply H. exists 47. done.
    - intros H (x & Hx & <-%Z.eqb_eq). done. }
  split.
  - intros (s & [-> Hs] & H). apply rbind_Ok in H as (? & H%raise_if_Ok & E). apply Ok_inj in E. subst s.
    apply orb_false_iff in H as [H1%Hin H2]. cbn [str_in existsb] in H2.
    rewrite !orb_false_iff !str_eqb_neq in H2. naive_solver.
  - intros (-> & Hs & H1%Hin & H2 & H3). exists g. split; [done|]. cbn [str_in existsb].
    apply str_eqb_neq in H2, H3. by rewrite H1 H2 H3.
Qed.

Lemma marker_read paths uid m : manifest_ok paths uid m ->
  read_marker (sorted_dict (marker_dict (im_marker m))) paths (im_generation_id m) = Ok (im_marker m).
Proof.
  intros Hm. pose proof (mo_marker_path _ _ _ Hm). pose proof (mo_marker_hash _ _ _ Hm).
  assert (mode_ok (mi_mode (im_marker m)) = true) as Hmode by (by rewrite (mo_marker _ _ _ Hm)).
  assert (NoDup (map fst (marker_dict (im_marker m)))) as Hnd by (distinct_keys tt).
  unfold read_marker. rewrite exact_keys_sorted //. cbn [rbind]. do 3 read_field Hnd.
  rewrite [in X in raise_if X](mo_marker _ _ _ Hm). cbn [mi_path mi_mode]. rewrite str_eqb_refl. cbn. by destruct (im_marker m).
Qed.

Lemma marker_accepted d paths g m : read_marker d paths g = Ok m ->
  m = mkMarker (path_str (path_join (path_join (generations paths) g) MARKER_NAME)) (mi_sha256 m) 0x180 /\
  path_ok (mi_path m) = true /\ hash_ok (mi_sha256 m) = true.
Proof.
  unfold read_marker. intros H.
  repeat match type of H with rbind _ _ = Ok _ => let E := fresh "E" in apply rbind_Ok in H as (? & E & H) end.
  apply Ok_inj in H as ->. cbn [mi_path mi_sha256 mi_mode].
  repeat match goal with
  | Hp : Contract._path _ _ = Ok _ |- _ => apply path_spec in Hp as [_ ?]
  | Hp : _hash _ _ = Ok _ |- _ => apply hash_spec in Hp as [_ ?]
  | Hp : raise_if _ _ = Ok _ |- _ => apply raise_if_Ok, orb_false_iff in Hp as [?%negb_false_iff%str_eqb_eq ?%negb_false_iff%Z.eqb_eq]
  end. by subst.
Qed.

(** An optional record, [None] being written as null. *)
Lemma record_or_null {A} (enc : A -> pyval) (dec : pyval -> result A) (ok : A -> bool) o :
  (forall a, ok a = true -> dec (sorted_keys (enc a)) = Ok a) -> (forall a, exists d, enc a = VDict d) ->
  opt_ok ok o = true ->
  match sorted_keys (opt_val enc o) with
  | VNone => Ok None
  | _ => let? x := dec (sorted_keys (opt_val enc o)) in Ok (Some x)
  end = Ok o.
Proof.
  intros Hdec Henc Ho. destruct o as [a|]; [|done]. cbn [opt_val opt_ok] in *. specialize (Hdec a Ho).
  destruct (Henc a) as [d Hd]. rewrite Hd sorted_keys_dict in Hdec |- *. by rewrite Hdec.
Qed.

Lemma null_or_record {A} (dec : pyval -> result A) (ok : A -> bool) v o :
  (forall w a, dec w = Ok a -> ok a = true) ->
  match v with VNone => Ok None | _ => let? x := dec v in Ok (Some x) end = Ok o -> opt_ok ok o = true.
Proof.
  intros Hdec. assert (Hgen : forall w, (let? x := dec w in Ok (Some x)) = Ok o -> opt_ok ok o = true).
  { intros w H. apply rbind_Ok in H as (a & Ha & E). apply Ok_inj in E as ->. exact (Hdec _ _ Ha). }
  destruct v; try exact (Hgen _). intros H. by apply Ok_inj in H as ->.
Qed.

Lemma chooser_read paths uid m : manifest_ok paths uid m ->
  read_chooser (sorted_dict (chooser_dict (im_chooser m))) paths = Ok (im_chooser m).
Proof.
  intros Hm. destruct (mo_original _ _ _ Hm) as [Ho Hop]. pose proof (mo_post _ _ _ Hm) as Hpost. pose proof (mo_changed _ _ _ Hm) as Hch.
  assert (NoDup (map fst (chooser_dict (im_chooser m)))) as Hnd by (distinct_keys tt).
  unfold read_chooser. rewrite exact_keys_sorted //. cbn [rbind].
  read_sorted Hnd. cbn [snd]. rewrite before_read //. cbn [rbind]. do 2 read_sorted Hnd. cbn [snd].
  rewrite (record_or_null before_val _decode_before before_ok); [exact before_read|by eexists| |].
  { destruct (co_post (im_chooser m)); [by apply Hpost|done]. }
  cbn [rbind sorted_keys Contract._boolean]. rewrite Hop str_eqb_refl Hch eqb_reflx.
  destruct (im_chooser m) as [original post changed]. cbn [co_original co_post co_changed] in *. subst changed.
  destruct post as [b|]; [|done]. destruct (Hpost b eq_refl) as [_ ->]. by rewrite str_eqb_refl.
Qed.

Lemma chooser_accepted d paths c : read_chooser d paths = Ok c ->
  (before_ok (co_original c) = true /\ bi_path (co_original c) = path_str (chooser paths)) /\
  (forall b, co_post c = Some b -> before_ok b = true /\ bi_path b = path_str (chooser paths)) /\
  co_changed c = is_some (co_post c).
Proof.
  unfold read_chooser. intros H.
  apply rbind_Ok in H as (? & _ & H). apply rbind_Ok in H as (? & _ & H). apply rbind_Ok in H as (original & Ho%before_accepted & H).
  apply rbind_Ok in H as (post_v & _ & H). apply rbind_Ok in H as (post & Hpost & H).
  apply rbind_Ok in H as (? & _ & H). apply rbind_Ok in H as (changed & _ & H).
  apply rbind_Ok in H as (? & H1%raise_if_Ok & H). apply rbind_Ok in H as (? & H2%raise_if_Ok & H). apply Ok_inj in H as ->.
  cbn [co_original co_post co_changed]. apply orb_false_iff in H1 as [H1%negb_false_iff%str_eqb_eq H3].
  apply negb_false_iff, Bool.eqb_prop in H2. split; [done|]. split; [|done].
  intros b ->. apply negb_false_iff, str_eqb_eq in H3. split; [|done].
  exact (null_or_record _decode_before before_ok _ (Some b) before_accepted Hpost).
Qed.

Lemma sequence_read v n l : Contract._sequence v n = Ok l <-> v = VList l /\ len l <= 128.
Proof.
  unfold Contract._sequence. destruct v as [| | | | |l'|]; try naive_solver. rewrite rbind_Ok. split.
  - intros (? & H%raise_if_Ok & E). apply Ok_inj in E. subst l'. split; [done|lia].
  - intros [[= ->] H]. exists tt. by rewrite ltb_false.
Qed.

(** A list of records: each read by [dec] from its sorted encoding. *)
Lemma records_read {A} (enc : A -> pyval) (dec : pyval -> result A) (ok : A -> bool) l :
  (forall a, ok a = true -> dec (sorted_keys (enc a)) = Ok a) -> Forall (fun a => ok a = true) l ->
  rmap dec (map sorted_keys (map enc l)) = Ok l.
Proof.
  intros Hdec Hl. rewrite map_map. apply rmap_map_Ok. eapply Forall_impl; [exact Hl|]. auto.
Qed.

Lemma records_accepted {A} (dec : pyval -> result A) (ok : A -> bool) l r :
  (forall v a, dec v = Ok a -> ok a = true) -> rmap dec l = Ok r -> Forall (fun a => ok a = true) r /\ len r = len l.
Proof.
  intros Hdec Hr. pose proof (rmap_length _ _ _ Hr) as Hlen. split; [|unfold len; lia].
  apply rmap_Ok in Hr. clear Hlen. induction Hr; constructor; eauto.
Qed.

Lemma before_value_ok b : value_ok (before_val b) = true.
Proof. by destruct b as [? ? [] [] [] []]. Qed.
Lemma owned_value_ok o : value_ok (owned_val o) = true.
Proof. by destruct o as [? ? ? [] []]. Qed.

Lemma records_value_ok {A} (enc : A -> pyval) l : (forall a, value_ok (enc a) = true) -> forallb value_ok (map enc l) = true.
Proof. intros H. apply forallb_forall. intros v Hv. apply in_map_iff in Hv as (a & <- & _). apply H. Qed.

Lemma manifest_value_ok paths uid m : im_roots m ≡ₚ expected_roots paths uid -> value_ok (VDict (manifest_dict m)) = true.
Proof.
  intros Hroots. cbn [value_ok manifest_dict forallb snd].
  rewrite (records_value_ok before_val _ before_value_ok) (records_value_ok owned_val _ owned_value_ok) (records_value_ok VStr) //.
  assert (nodupb (map fst (im_roots m)) = true) as -> by (apply nodupb_spec; rewrite Hroots; exact root_names_nodup).
  rewrite (forallb_perm _ _ _ Hroots).
  unfold chooser_val. cbn [value_ok forallb snd]. rewrite before_value_ok.
  assert (value_ok (opt_val before_val (co_post (im_chooser m))) = true) as ->.
  { destruct (co_post _); [apply before_value_ok|done]. }
  assert (value_ok (opt_val owned_val (im_bash_backup m)) = true) as ->; [|done].
  destruct (im_bash_backup m); [apply owned_value_ok|done].
Qed.

Lemma max_all l n : Forall (fun x => (x <= n)%nat) l -> (foldr Nat.max O l <= n)%nat.
Proof. apply fold_max_le. Qed.

Lemma before_nesting b : (nesting (before_val b) <= 1)%nat.
Proof. by destruct b as [? ? [] [] [] []]; cbn; lia. Qed.
Lemma owned_nesting o : (nesting (owned_val o) <= 1)%nat.
Proof. by destruct o as [? ? ? [] []]; cbn; lia. Qed.

Lemma manifest_nesting paths uid m : im_roots m ≡ₚ expected_roots paths uid -> (nesting (VDict (manifest_dict m)) <= 3)%nat.
Proof.
  intros Hroots. cbn [nesting manifest_dict map snd]. apply le_n_S, max_all.
  assert (Hlist : forall A (enc : A -> pyval) l, (forall a, nesting (enc a) <= 1)%nat -> (foldr Nat.max 0%nat (map nesting (map enc l)) <= 1)%nat).
  { intros A enc l H. apply max_all, Forall_map, Forall_map, Forall_true. auto. }
  assert (Hopt : forall A (enc : A -> pyval) o, (forall a, nesting (enc a) <= 1)%nat -> (nesting (opt_val enc o) <= 1)%nat)
    by (intros A enc [a|] H; cbn; [apply H|lia]).
  pose proof (Hlist _ _ (im_rollback_images m) before_nesting). pose proof (Hlist _ _ (im_owned m) owned_nesting).
  pose proof (Hlist _ VStr (im_created_parents m) ltac:(cbn; lia)). pose proof (Hopt _ _ (im_bash_backup m) owned_nesting).
  assert (nesting (VDict (im_roots m)) <= 1)%nat.
  { cbn [nesting]. apply le_n_S, max_all, Forall_map. rewrite Hroots. by repeat constructor. }
  assert (nesting (chooser_val (im_chooser m)) <= 2)%nat.
  { unfold chooser_val. cbn [nesting map snd]. apply le_n_S, max_all.
    rewrite !Forall_cons Forall_nil. split_and!; [apply before_nesting|by apply (Hopt _ before_val _ before_nesting)|cbn; lia|done]. }
  assert (nesting (marker_val (im_marker m)) <= 1)%nat by (cbn; lia).
  rewrite !Forall_cons Forall_nil. cbn [nesting] in *. split_and!; lia || done.
Qed.

Lemma sorted_roots R paths uid : R ≡ₚ expected_roots paths uid -> sorted_dict R ≡ₚ expected_roots paths uid.
Proof.
  intros Hp. unfold sorted_dict. rewrite sort_by_perm. rewrite sort_map_key; [|done]. rewrite Hp. by repeat constructor.
Qed.


Lemma is_ok_true (r : result unit) v : r = Ok v -> r = Ok tt.
Proof. by destruct v. Qed.

(** C29. Whatever [manifest_from_bytes] accepts is usable: its roots are the
    configured ones, every path is canonical, every before image and owned object
    holds what its kind needs, a file image has the digest of its content, no
    path is listed twice, and the current link and the command links are owned
    and lead to the generation of the marker. *)
Theorem accepted_manifest_ok (rec_limit : nat) (raw : pybytes) (paths : LifecyclePaths) (uid : Z) (m : InstallManifest)
  (Hread : manifest_from_bytes rec_limit raw paths uid = Ok m) : manifest_ok paths uid m /\ len raw <= MAX_PAYLOAD_BYTES.
Proof.
  unfold manifest_from_bytes in Hread. rename Hread into H.
  repeat match type of H with rbind _ _ = Ok _ => let E := fresh "E" in apply rbind_Ok in H as (? & E & H) end.
  apply Ok_inj in H as ->.
  repeat match goal with
  | Hp : _decode_json _ _ = Ok _ |- _ => apply decode_canonical in Hp as [_ ?]
  | Hp : Contract._string _ _ = Ok _ |- _ => apply string_spec in Hp as [_ ?]
  | Hp : read_generation_id _ = Ok _ |- _ => apply generation_spec in Hp as (_ & ? & ?)
  | Hp : read_roots _ _ _ = Ok _ |- _ => apply roots_accepted in Hp as [? ?]
  | Hp : read_marker _ _ _ = Ok _ |- _ => apply marker_accepted in Hp as (? & ? & ?)
  | Hp : read_chooser _ _ = Ok _ |- _ => apply chooser_accepted in Hp as (? & ? & ?)
  | Hp : Contract._sequence _ _ = Ok _ |- _ => apply sequence_read in Hp as [_ ?]
  | Hp : rmap _decode_owned _ = Ok _ |- _ => apply (records_accepted _ _ _ _ owned_accepted) in Hp as [? ?]
  | Hp : rmap _decode_before _ = Ok _ |- _ => apply (records_accepted _ _ _ _ before_accepted) in Hp as [? ?]
  | Hp : rmap (fun item => Contract._path item ?n) _ = Ok _ |- _ =>
      apply (records_accepted _ path_ok) in Hp as [? ?]; [|by intros v a [_ Ha]%path_spec]
  | Hp : check_ownership _ _ = Ok _ |- _ => apply is_ok_true, ownership_spec in Hp as (? & ? & ?)
  end.
  split; [|done].
  constructor; cbn [im_schema_version im_installer_version im_application_version im_install_id im_generation_id im_roots im_marker
    im_owned im_created_parents im_chooser im_rollback_images im_bash_backup forallb] in *; try assumption.
  - done.
  - repeat match goal with Ht : text_ok _ = true |- _ => rewrite Ht; clear Ht end. done.
  - by eapply (null_or_record _decode_owned), E30; exact owned_accepted.
  - split_and!; congruence.
Qed.

#[local] Transparent text_ok path_ok hash_ok mode_ok.

(** An installation of [/home/a] with its default directories. *)
Definition sample_paths : LifecyclePaths :=
  Eval vm_compute in match resolve_lifecycle_paths (fun _ => None) (parse_path (u "/home/a")) with
    | Ok p => p | Err _ => mkPaths (mkPath [] []) (mkPath [] []) (mkPath [] []) (mkPath [] []) (mkPath [] []) (mkPath [] [])
        (mkPath [] []) (mkPath [] []) (mkPath [] []) (mkPath [] []) (mkPath [] []) (mkPath [] []) (mkPath [] []) (mkPath [] [])
        (mkPath [] []) (mkPath [] []) [] end.

Definition sample_file (path : pystr) (content : pybytes) : BeforeImage :=
  mkBefore path FILE (Some 0x180) None (Some content) (Some (Sha256.hexdigest content)).

Definition sample_manifest (original : pybytes) : InstallManifest :=
  mkManifest 2 (u "1.0") (u "0.1.0") (u "install-1") (u "0a1b")
    (sorted_dict (expected_roots sample_paths 1000))
    (mkMarker (u "/home/a/.local/share/termrecall/generations/0a1b/.termrecall-generation.json") (Sha256.hexdigest []) 0x180)
    (mkOwned (path_str (current sample_paths)) SYMLINK 0x1FF None (Some (u "/home/a/.local/share/termrecall/generations/0a1b")) ::
     map (fun link => mkOwned (path_str link) SYMLINK 0x1FF None (Some (path_str (command_target sample_paths link)))) (command_links sample_paths))
    [] true false
    (mkChooser (sample_file (path_str (chooser sample_paths)) original)
       (Some (sample_file (path_str (chooser sample_paths)) (u "{}"))) true)
    [mkBefore (path_str (current sample_paths)) ABSENT None None None None] None.

Definition sample_bytes (original : pybytes) : pybytes :=
  match manifest_to_bytes (sample_manifest original) with Ok raw => raw | Err _ => [] end.

Lemma sample_manifest_ok : manifest_ok sample_paths 1000 (sample_manifest (u "x")).
Proof.
  assert (Hpaths : forall l, nodupb l = true -> NoDup l) by (intros l; apply nodupb_spec).
  constructor.
  - reflexivity.
  - by apply sorted_roots.
  - vm_compute; reflexivity.
  - vm_compute; reflexivity.
  - apply (proj1 (generation_spec (VStr (u "0a1b")) (u "0a1b"))). vm_compute; reflexivity.
  - vm_compute; reflexivity.
  - vm_compute; reflexivity.
  - vm_compute; reflexivity.
  - split; vm_compute; reflexivity.
  - intros b E. injection E as <-. split; vm_compute; reflexivity.
  - vm_compute; reflexivity.
  - apply forallb_Forall. vm_compute; reflexivity.
  - apply forallb_Forall. vm_compute; reflexivity.
  - constructor.
  - vm_compute; reflexivity.
  - split_and!; vm_compute; discriminate.
  - split_and!; apply Hpaths; vm_compute; reflexivity.
  - apply owns_link_spec; [apply Hpaths|]; vm_compute; reflexivity.
  - assert (H : Forall (fun link => owns_link (im_owned (sample_manifest (u "x"))) link (command_target sample_paths link) = true)
      (command_links sample_paths)) by (apply forallb_Forall; vm_compute; reflexivity).
    eapply Forall_impl; [exact H|]. intros link Hl. apply owns_link_spec; [apply Hpaths; vm_compute; reflexivity|exact Hl].
Qed.


Lemma accepted_manifest_ok_witness :
  manifest_ok sample_paths 1000 (with_sorted_roots (sample_manifest (u "x"))).
Proof.
  refine (proj1 (accepted_manifest_ok 10 (sample_bytes (u "x")) sample_paths 1000 _ _)). vm_compute. reflexivity.
Defined.
