(* ===== verification/Files.v ===== *)
(** * The file system

    Inodes, directories that map names to them, and the system calls of the
    lifecycle code.  A directory descriptor is the inode it was opened on, so it
    survives a rename.  Before each call another process may change the file
    system, and any call may fail ([kernel]). *)
From S2P Require Import Prelude PyText Effect.
#[local] Open Scope eff_scope.

(** ** Inodes *)
Inductive node :=
| Dir (entries : gmap pystr Z)
| Reg (data : pybytes)
| Lnk (target : pystr)
| Sock
| Special.                       (* pipes and devices *)

Record inode := mkInode {
  i_dev : Z;
  i_uid : Z;
  i_mode : Z;                    (* the permission bits, [stat.S_IMODE] *)
  i_nlink : Z;
  i_node : node;
}.

Record fs := mkFs { f_nodes : gmap Z inode; f_root : Z; f_next : Z }.

Definition is_dir_node (n : node) : bool := match n with Dir _ => true | _ => false end.
Definition is_reg_node (n : node) : bool := match n with Reg _ => true | _ => false end.
Definition is_lnk_node (n : node) : bool := match n with Lnk _ => true | _ => false end.
Definition is_sock_node (n : node) : bool := match n with Sock => true | _ => false end.

Definition with_node (n : node) (i : inode) : inode := mkInode (i_dev i) (i_uid i) (i_mode i) (i_nlink i) n.
Definition with_mode (m : Z) (i : inode) : inode := mkInode (i_dev i) (i_uid i) m (i_nlink i) (i_node i).
Definition add_links (k : Z) (i : inode) : inode := mkInode (i_dev i) (i_uid i) (i_mode i) (i_nlink i + k) (i_node i).

Definition set_node (x : Z) (i : inode) (f : fs) : fs := mkFs (<[x := i]> (f_nodes f)) (f_root f) (f_next f).
Definition alter_node (g : inode -> inode) (x : Z) (f : fs) : fs := mkFs (alter g x (f_nodes f)) (f_root f) (f_next f).

Definition entries_of (f : fs) (d : Z) : option (gmap pystr Z) :=
  match f_nodes f !! d with Some (mkInode _ _ _ _ (Dir e)) => Some e | _ => None end.

Definition set_entries (e : gmap pystr Z) : inode -> inode := with_node (Dir e).

Definition lookup_at (f : fs) (d : Z) (name : pystr) : result Z :=
  match entries_of f d with
  | Some e => result_of_option (e !! name) (OSError ENOENT)
  | None => Err (OSError ENOTDIR)
  end.

(** The kind of what [stat] answers: the inode and its number. *)
Definition stat : Type := Z * inode.
Definition st_ino (st : stat) : Z := st.1.
Definition st_dev (st : stat) : Z := i_dev st.2.
Definition st_uid (st : stat) : Z := i_uid st.2.
Definition st_mode (st : stat) : Z := i_mode st.2.
Definition st_nlink (st : stat) : Z := i_nlink st.2.
(** A directory takes one block. *)
Definition st_size (st : stat) : Z := match i_node st.2 with Reg data => len data | Lnk t => len t | _ => 0 end.
Definition S_ISDIR (st : stat) : bool := is_dir_node (i_node st.2).
Definition S_ISREG (st : stat) : bool := is_reg_node (i_node st.2).
Definition S_ISLNK (st : stat) : bool := is_lnk_node (i_node st.2).
Definition S_ISSOCK (st : stat) : bool := is_sock_node (i_node st.2).
(** [st.st_mode & 0o022] *)
Definition others_write (st : stat) : bool := negb (Z.land (st_mode st) 0x12 =? 0).

Definition node_at (f : fs) (x : Z) : result stat :=
  match f_nodes f !! x with Some i => Ok (x, i) | None => Err (OSError EIO) end.

(** ** Changes of the file system *)

(** A new inode under [name] in the directory [d]. *)
Definition add_node (f : fs) (d : Z) (name : pystr) (uid mode nlink : Z) (n : node) : result (fs * Z) :=
  match f_nodes f !! d with
  | Some (mkInode dev u m l (Dir e)) =>
      raise_if (bool_decide (is_Some (e !! name))) (OSError EEXIST) ;?
      let x := f_next f in
      let parent := mkInode dev u m (if is_dir_node n then l + 1 else l) (Dir (<[name := x]> e)) in
      Ok (mkFs (<[x := mkInode dev uid mode nlink n]> (<[d := parent]> (f_nodes f))) (f_root f) (x + 1), x)
  | _ => Err (OSError ENOTDIR)
  end.

Definition remove_entry (f : fs) (d : Z) (name : pystr) : fs :=
  alter_node (fun i => match i_node i with Dir e => with_node (Dir (delete name e)) i | _ => i end) d f.
Definition add_entry (f : fs) (d : Z) (name : pystr) (x : Z) : fs :=
  alter_node (fun i => match i_node i with Dir e => with_node (Dir (<[name := x]> e)) i | _ => i end) d f.

Definition unlink_node (f : fs) (d : Z) (name : pystr) : result fs :=
  let? x := lookup_at f d name in
  let? st := node_at f x in
  raise_if (S_ISDIR st) (OSError EISDIR) ;?
  Ok (alter_node (add_links (-1)) x (remove_entry f d name)).

Definition rmdir_node (f : fs) (d : Z) (name : pystr) : result fs :=
  let? x := lookup_at f d name in
  match entries_of f x with
  | Some e =>
      raise_if (negb (bool_decide (e = ∅))) (OSError ENOTEMPTY) ;?
      Ok (alter_node (add_links (-1)) d (alter_node (add_links (-2)) x (remove_entry f d name)))
  | None => Err (OSError ENOTDIR)
  end.

(** [rename] of [n1] in [d1] to [n2] in [d2], replacing what is there. *)
Definition rename_node (f : fs) (d1 : Z) (n1 : pystr) (d2 : Z) (n2 : pystr) : result fs :=
  let? x := lookup_at f d1 n1 in
  let? st := node_at f x in
  let? parent := node_at f d2 in
  raise_if (negb (st_dev st =? st_dev parent)) (OSError EXDEV) ;?
  raise_if (x =? d2) (OSError EINVAL) ;?
  let move (f : fs) :=
    let f := add_entry (remove_entry f d1 n1) d2 n2 x in
    if S_ISDIR st then alter_node (add_links 1) d2 (alter_node (add_links (-1)) d1 f) else f in
  match lookup_at f d2 n2 with
  | Ok y =>
      if y =? x then Ok f
      else
        let? old := node_at f y in
        if S_ISDIR st then
          raise_if (negb (S_ISDIR old)) (OSError ENOTDIR) ;?
          let? f := rmdir_node f d2 n2 in Ok (move f)
        else
          raise_if (S_ISDIR old) (OSError EISDIR) ;?
          Ok (move (alter_node (add_links (-1)) y f))
  | Err (OSError ENOENT) => Ok (move f)
  | Err e => Err e
  end.

(** ** Path resolution *)
Definition path_words (s : pystr) : list pystr := filter (fun w => w <> []) (split_on 47 s).

(** Resolves [words] from the directory on top of [stack], the directories passed so
    far; at most [links] symbolic links are followed. *)
Fixpoint walk (links : nat) (f : fs) : list pystr -> list Z -> bool -> result Z :=
  fix go (words : list pystr) (stack : list Z) (follow : bool) {struct words} : result Z :=
    let here := default (f_root f) (head stack) in
    match words with
    | [] => Ok here
    | w :: rest =>
        if str_eqb w (u ".") then go rest stack follow
        else if str_eqb w (u "..") then go rest (tail stack) follow
        else
          let? x := lookup_at f here w in
          let? st := node_at f x in
          match i_node st.2 with
          | Lnk target =>
              if bool_decide (rest = []) && negb follow then Ok x
              else
                match links with
                | O => Err (OSError ELOOP)
                | S links' =>
                    raise_if (bool_decide (target = [])) (OSError ENOENT) ;?
                    walk links' f (path_words target ++ rest) (if is_prefix [47] target then [] else stack) follow
                end
          | _ => go rest (x :: stack) follow
          end
    end.

(** Linux follows at most 40 links. *)
Definition resolve (f : fs) (p : posix_path) (follow : bool) : result Z := walk 40 f (path_tail p) [] follow.

(** The directory a path's last name is looked up in, and that name. *)
Definition resolve_parent (f : fs) (p : posix_path) : result (Z * pystr) :=
  let? d := resolve f (path_parent p) true in Ok (d, path_name p).

(** ** System calls *)

(** What the kernel does with the next system call: serve it, refuse it, let
    another process change the file system first, or transfer fewer bytes than
    asked for. *)
Inductive kernel :=
| Serves
| Fails (e : oserror)
| Interferes (change : fs -> fs)
| Transfers (n : nat).

Record world := mkWorld {
  w_fs : fs;
  w_uid : Z;                     (* of the process: the owner of what it creates *)
  w_umask : Z;
  w_script : list kernel;        (* about the next system calls; each is served once exhausted *)
  w_tokens : list pystr;         (* what [secrets.token_hex] returns *)
}.

Definition set_fs (f : fs) (w : world) : world := mkWorld f (w_uid w) (w_umask w) (w_script w) (w_tokens w).
Definition set_script (k : list kernel) (w : world) : world := mkWorld (w_fs w) (w_uid w) (w_umask w) k (w_tokens w).

Definition io (A : Type) : Type := eff world A.

(** One system call: how many bytes it may transfer. *)
Definition transfer : io (option nat) := fun w =>
  match w_script w with
  | [] => (Ok None, w)
  | Serves :: k => (Ok None, set_script k w)
  | Fails e :: k => (Err (OSError e), set_script k w)
  | Interferes change :: k => (Ok None, set_fs (change (w_fs w)) (set_script k w))
  | Transfers n :: k => (Ok (Some n), set_script k w)
  end.
Definition syscall : io unit := transfer ;; eret tt.

(** A call that answers a question, and one that changes the file system. *)
Definition query {A} (q : fs -> result A) : io A := syscall ;; do! f := eget w_fs in elift (q f).
Definition change {A} (q : fs -> result (fs * A)) : io A :=
  syscall ;;
  do! f := eget w_fs in
  do! '(f', a) := elift (q f) in
  eput (set_fs f') ;; eret a.
Definition change_ (q : fs -> result fs) : io unit := change (fun f => let? f' := q f in Ok (f', tt)).

(** [secrets.token_hex(n)] *)
Definition token_hex : io pystr := fun w =>
  (Ok (default [] (head (w_tokens w))), mkWorld (w_fs w) (w_uid w) (w_umask w) (w_script w) (tail (w_tokens w))).

Definition created_mode (w : world) (mode : Z) : Z := Z.land mode (Z.lnot (w_umask w)).

(** *** On descriptors *)
Definition os_open_root : io Z := query (fun f => Ok (f_root f)).
(** [os.open(name, O_RDONLY | O_DIRECTORY | O_NOFOLLOW, dir_fd=d)] *)
Definition os_open_dir (d : Z) (name : pystr) : io Z :=
  query (fun f => let? x := lookup_at f d name in let? st := node_at f x in
                  raise_if (negb (S_ISDIR st)) (OSError ENOTDIR) ;? Ok x).
(** [os.open(name, O_RDONLY | O_NOFOLLOW, dir_fd=d)], and with [O_RDWR]. *)
Definition os_open_reg (d : Z) (name : pystr) : io Z :=
  query (fun f => let? x := lookup_at f d name in let? st := node_at f x in
                  raise_if (S_ISLNK st) (OSError ELOOP) ;? Ok x).
Definition os_open_rw (d : Z) (name : pystr) : io Z :=
  query (fun f => let? x := lookup_at f d name in let? st := node_at f x in
                  raise_if (S_ISLNK st) (OSError ELOOP) ;? raise_if (S_ISDIR st) (OSError EISDIR) ;? Ok x).
Definition os_lstat_at (d : Z) (name : pystr) : io stat := query (fun f => let? x := lookup_at f d name in node_at f x).
Definition os_fstat (fd : Z) : io stat := query (fun f => node_at f fd).
Definition os_listdir (fd : Z) : io (list pystr) :=
  query (fun f => match entries_of f fd with Some e => Ok (map fst (map_to_list e)) | None => Err (OSError ENOTDIR) end).
Definition readlink_node (st : stat) : result pystr :=
  match i_node st.2 with Lnk t => Ok t | _ => Err (OSError EINVAL) end.
Definition os_readlink_at (d : Z) (name : pystr) : io pystr :=
  query (fun f => let? x := lookup_at f d name in let? st := node_at f x in readlink_node st).
(** [os.open(name, O_CREAT | O_EXCL | O_NOFOLLOW, mode=mode, dir_fd=d)] *)
Definition os_create (d : Z) (name : pystr) (mode : Z) : io Z := fun w =>
  change (fun f => add_node f d name (w_uid w) (created_mode w mode) 1 (Reg [])) w.
Definition os_fchmod (fd mode : Z) : io unit := change_ (fun f => Ok (alter_node (with_mode mode) fd f)).
Definition os_fsync (fd : Z) : io unit := syscall.
Definition os_rename (d1 : Z) (n1 : pystr) (d2 : Z) (n2 : pystr) : io unit := change_ (fun f => rename_node f d1 n1 d2 n2).
Definition os_unlink_at (d : Z) (name : pystr) : io unit := change_ (fun f => unlink_node f d name).
Definition os_rmdir_at (d : Z) (name : pystr) : io unit := change_ (fun f => rmdir_node f d name).
Definition os_symlink_at (target : pystr) (d : Z) (name : pystr) : io unit := fun w =>
  change_ (fun f => let? '(f', _) := add_node f d name (w_uid w) 0x1FF 1 (Lnk target) in Ok f') w.
Definition os_mkdir_at (d : Z) (name : pystr) (mode : Z) : io unit := fun w =>
  change_ (fun f => let? '(f', _) := add_node f d name (w_uid w) (created_mode w mode) 2 (Dir ∅) in Ok f') w.

Definition file_data (f : fs) (fd : Z) : result pybytes :=
  match f_nodes f !! fd with Some (mkInode _ _ _ _ (Reg data)) => Ok data | _ => Err (OSError EISDIR) end.

(** [os.read(fd, n)] and [os.write(fd, data)], the descriptor being at [offset]. *)
Definition os_read (fd offset n : Z) : io pybytes :=
  do! limit := transfer in
  do! f := eget w_fs in
  do! data := elift (file_data f fd) in
  let available := take (Z.to_nat n) (drop (Z.to_nat offset) data) in
  eret (match limit with Some k => take k available | None => available end).

Definition os_write (fd : Z) (data : pybytes) : io Z :=
  do! limit := transfer in
  do! f := eget w_fs in
  do! old := elift (file_data f fd) in
  let written := match limit with Some k => take k data | None => data end in
  eput (set_fs (alter_node (with_node (Reg (old ++ written))) fd f)) ;;
  eret (len written).

(** *** On paths *)
Definition os_lstat (p : posix_path) : io stat := query (fun f => let? x := resolve f p false in node_at f x).
Definition os_stat (p : posix_path) : io stat := query (fun f => let? x := resolve f p true in node_at f x).
Definition os_readlink (p : posix_path) : io pystr :=
  query (fun f => let? x := resolve f p false in let? st := node_at f x in readlink_node st).

(** [os.listdir(path)], [path.iterdir()] *)
Definition os_listdir_path (p : posix_path) : io (list pystr) :=
  query (fun f => let? x := resolve f p true in
                  match entries_of f x with Some e => Ok (map fst (map_to_list e)) | None => Err (OSError ENOTDIR) end).

(** [path.exists()] and [path.is_dir()] answer [False] when the path leads nowhere. *)
Definition leads_nowhere (e : exn) : bool :=
  match e with OSError (ENOENT | ENOTDIR | ELOOP) => true | _ => false end.
Definition or_nowhere (m : io bool) : io bool :=
  ecatch m (fun e => if leads_nowhere e then eret false else eraise e).
Definition exists_path (p : posix_path) : io bool := or_nowhere (os_stat p ;; eret true).
Definition is_dir_path (p : posix_path) : io bool := or_nowhere (do! st := os_stat p in eret (S_ISDIR st)).
(** [os.path.lexists(p)]: no error escapes. *)
Definition lexists (p : posix_path) : io bool :=
  ecatch (os_lstat p ;; eret true) (on_os_error (eret false)).

(** A change at the last name of a path. *)
Definition change_at (p : posix_path) (q : fs -> Z -> pystr -> result fs) : io unit :=
  change_ (fun f => let? '(d, name) := resolve_parent f p in q f d name).
Definition os_unlink (p : posix_path) : io unit := change_at p unlink_node.
Definition os_mkdir (p : posix_path) (mode : Z) : io unit := fun w =>
  change_at p (fun f d name =>
    let? '(f', _) := add_node f d name (w_uid w) (created_mode w mode) 2 (Dir ∅) in Ok f') w.
Definition os_chmod (p : posix_path) (mode : Z) : io unit :=
  change_ (fun f => let? x := resolve f p true in Ok (alter_node (with_mode mode) x f)).
Definition os_rename_path (src dst : posix_path) : io unit :=
  change_ (fun f =>
    let? '(d1, n1) := resolve_parent f src in
    let? '(d2, n2) := resolve_parent f dst in
    rename_node f d1 n1 d2 n2).

(** [path.read_bytes()] *)
Definition read_bytes (p : posix_path) : io pybytes :=
  query (fun f => let? x := resolve f p true in file_data f x).

(** [path.write_bytes(data)] where no file is: it is created with mode 0666. *)
Definition write_bytes (p : posix_path) (data : pybytes) : io unit := fun w =>
  change_ (fun f =>
    match resolve f p true with
    | Ok x => let? old := file_data f x in Ok (alter_node (with_node (Reg data)) x f)
    | Err (OSError ENOENT) =>
        let? '(d, name) := resolve_parent f p in
        let? '(f', _) := add_node f d name (w_uid w) (created_mode w 0x1B6) 1 (Reg data) in Ok f'
    | Err e => Err e
    end) w.

(** [path.mkdir(mode=mode, exist_ok=exist_ok)], with [missing] for a missing parent. *)
Definition mkdir_with (exist_ok : bool) (missing : io unit) (p : posix_path) (mode : Z) : io unit :=
  ecatch (os_mkdir p mode)
    (fun e =>
       if bool_decide (e = OSError ENOENT) then missing
       else on_os_error (if exist_ok then do! dir := is_dir_path p in if dir then eret tt else eraise e else eraise e) e).

(** [path.mkdir(mode=mode, parents=True, exist_ok=exist_ok)]: missing parents get the
    default mode. *)
Fixpoint mkdir_parents (fuel : nat) (exist_ok : bool) (p : posix_path) (mode : Z) : io unit :=
  mkdir_with exist_ok
    (match fuel with
     | O => eraise (OSError ENOENT)
     | S fuel' =>
         if bool_decide (path_parent p = p) then eraise (OSError ENOENT)
         else mkdir_parents fuel' true (path_parent p) 0x1FF ;; mkdir_with exist_ok (eraise (OSError ENOENT)) p mode
     end) p mode.
(** Every turn drops a name of the path. *)
Definition mkdir_p (exist_ok : bool) (p : posix_path) (mode : Z) : io unit := mkdir_parents (length (path_tail p)) exist_ok p mode.
