(* ===== verification/LifecycleFs.v ===== *)
(** * Lifecycle file operations ([lifecycle_fs.py])

    Descriptor-relative operations that never follow a symbolic link: capturing
    and restoring before images, atomic writes and links, the structural deletion
    of a tree, and the quarantine of the state directory.  Closing a descriptor
    is not modelled. *)
From S2P Require Import Prelude PyText PyVal PyFloat Json Codec Model Contract Effect Files.
#[local] Open Scope eff_scope.

Definition _MAX_READ_BYTES : Z := 1048576.

Record NodeIdentity := mkIdentity { ni_device : Z; ni_inode : Z; ni_uid : Z; ni_mode : Z; ni_nlink : Z }.
#[export] Instance NodeIdentity_eq_dec : EqDecision NodeIdentity.
Proof. solve_decision. Defined.

Record SafeSnapshot := mkSnapshot { sn_images : list BeforeImage; sn_ancestors : list (posix_path * NodeIdentity) }.

Record TreePolicy := mkPolicy {
  tp_root_device : Z;
  tp_uid : Z;
  tp_allowlist : list pystr;
  tp_leaf_symlinks : bool;
}.

Record QuarantinedTree := mkQuarantined {
  qt_source_parent : NodeIdentity;
  qt_destination_parent : NodeIdentity;
  qt_root : NodeIdentity;
  qt_source_name : pystr;
  qt_quarantine_name : pystr;
  qt_quarantine_parent : posix_path;
  qt_created_parent : bool;
}.

(** ** Helpers *)
Definition _identity (st : stat) : NodeIdentity :=
  mkIdentity (st_dev st) (st_ino st) (st_uid st) (st_mode st) (st_nlink st).

Definition unsafe {A} : io A := eraise UnsafeLifecyclePath.
Definition concurrent {A} : io A := eraise ConcurrentLifecycleChange.
Definition refuse (b : bool) : io unit := eguard b UnsafeLifecyclePath.
Definition raced (b : bool) : io unit := eguard b ConcurrentLifecycleChange.

(** [except OSError as exc: raise UnsafeLifecyclePath(...) from exc] *)
Definition or_unsafe {A} (m : io A) : io A := ecatch m (on_os_error unsafe).
Definition or_concurrent {A} (m : io A) : io A := ecatch m (on_os_error concurrent).
(** [except FileNotFoundError: raise e], then as above. *)
Definition or_missing_unsafe {A} (missing : exn) (m : io A) : io A :=
  ecatch m (fun e => if bool_decide (e = OSError ENOENT) then eraise missing else on_os_error unsafe e).

Definition _validate_canonical_abs (path : posix_path) : io unit :=
  let text := path_str path in
  refuse (negb (is_prefix [47] text) || negb (str_eqb (normpath text) text)).

Fixpoint open_chain (fd : Z) (parts : list pystr) : io Z :=
  match parts with
  | [] => eret fd
  | part :: rest =>
      do! child := ecatch (os_open_dir fd part)
                     (fun e => if bool_decide (e = OSError ENOENT) then eraise e else on_os_error unsafe e) in
      open_chain child rest
  end.

Definition _open_dir_chain (path : posix_path) : io (Z * NodeIdentity) :=
  _validate_canonical_abs path ;;
  do! root := os_open_root in
  do! fd := open_chain root (path_tail path) in
  do! st := os_fstat fd in
  eret (fd, _identity st).

(** The descriptor only. *)
Definition open_dir (path : posix_path) : io Z := do! '(fd, _) := _open_dir_chain path in eret fd.

(** Each turn of the loop reads at least a byte. *)
Fixpoint read_loop (fuel : nat) (fd offset remaining : Z) : io pybytes :=
  match fuel with
  | O => eret []
  | S fuel' =>
      do! chunk := os_read fd offset remaining in
      refuse (bool_decide (chunk = [])) ;;
      do! rest := (if remaining - len chunk <=? 0 then eret []
                   else read_loop fuel' fd (offset + len chunk) (remaining - len chunk)) in
      eret (chunk ++ rest)
  end.

Definition _read_fd (fd size max_bytes : Z) : io pybytes :=
  refuse ((size <? 0) || (max_bytes <? size)) ;;
  if size <=? 0 then eret [] else read_loop (Z.to_nat size) fd 0 size.

Fixpoint write_loop (fuel : nat) (fd : Z) (data : pybytes) : io unit :=
  match data, fuel with
  | [], _ => eret tt
  | _, O => eret tt
  | _, S fuel' =>
      do! n := os_write fd data in
      refuse (n <=? 0) ;;
      write_loop fuel' fd (drop (Z.to_nat n) data)
  end.
Definition _write_all (fd : Z) (data : pybytes) : io unit := write_loop (length data) fd data.

Definition _unique_name (prefix : pystr) : io pystr := do! t := token_hex in eret (prefix ++ t).

Definition _validate_parent_fd (parent_fd uid : Z) : io unit :=
  do! st := os_fstat parent_fd in
  refuse (negb (S_ISDIR st)) ;;
  refuse (negb (st_uid st =? uid)) ;;
  refuse (others_write st).

(** ** Capture, inspection, revalidation *)
Definition absent_image (p : pystr) : BeforeImage := mkBefore p ABSENT None None None None.

(** [try: m except FileNotFoundError]: [None] if there is nothing. *)
Definition if_present {A} (m : io A) : io (option A) := ecatch (do! x := m in eret (Some x)) (on_missing (eret None)).

Definition capture_leaf (p : pystr) (parent_fd : Z) (name : pystr) (max_bytes : Z) : io BeforeImage :=
  do! found := if_present (os_lstat_at parent_fd name) in
  match found with
  | None => eret (absent_image p)
  | Some st =>
      if S_ISLNK st then
        do! target := os_readlink_at parent_fd name in
        eret (mkBefore p SYMLINK (Some (st_mode st)) (Some target) None None)
      else
        refuse (negb (S_ISREG st)) ;;
        refuse (max_bytes <? st_size st) ;;
        do! fd := os_open_reg parent_fd name in
        do! fst := os_fstat fd in
        raced (negb (S_ISREG fst) || negb (st_ino fst =? st_ino st) || negb (st_dev fst =? st_dev st)) ;;
        do! raw := _read_fd fd (st_size fst) max_bytes in
        eret (mkBefore p FILE (Some (st_mode st)) None (Some raw) (Some (Sha256.hexdigest raw)))
  end.

Definition capture_before (path : posix_path) (uid : Z) : io BeforeImage :=
  let p := path_str path in
  _validate_canonical_abs path ;;
  do! parent := if_present (open_dir (path_parent path)) in
  match parent with
  | None => eret (absent_image p)
  | Some parent_fd => capture_leaf p parent_fd (path_name path) _MAX_READ_BYTES
  end.

(** One path of [inspect_paths]: its ancestors from below, up to the first one
    missing or already seen. *)
Fixpoint ancestors_of (fuel : nat) (seen : list (posix_path * NodeIdentity)) (current : posix_path)
  : io (list (posix_path * NodeIdentity)) :=
  match fuel with
  | O => eret seen
  | S fuel' =>
      if bool_decide (current ∈ map fst seen) then eret seen
      else
        do! found := if_present (os_lstat current) in
        match found with
        | None => eret seen
        | Some st =>
            let seen' := seen ++ [(current, _identity st)] in
            if bool_decide (path_parent current = current) then eret seen'
            else ancestors_of fuel' seen' (path_parent current)
        end
  end.

Fixpoint all_ancestors (seen : list (posix_path * NodeIdentity)) (paths : list posix_path)
  : io (list (posix_path * NodeIdentity)) :=
  match paths with
  | [] => eret seen
  | p :: rest => do! seen' := ancestors_of (S (length (path_tail p))) seen p in all_ancestors seen' rest
  end.

Definition inspect_paths (paths : list posix_path) (uid : Z) : io SafeSnapshot :=
  do! images := emap (fun p => capture_before p uid) paths in
  do! ancestors := all_ancestors [] paths in
  eret (mkSnapshot images ancestors).

Definition revalidate (snapshot : SafeSnapshot) (uid : Z) : io unit :=
  eforeach (fun '(name, ident) =>
    do! st := ecatch (os_lstat name) (on_missing concurrent) in
    raced (negb (bool_decide (_identity st = ident)))) (sn_ancestors snapshot).

(** ** Atomic replacement *)
Definition unlink_if_present (fd : Z) (name : pystr) : io unit := ecatch (os_unlink_at fd name) (on_missing (eret tt)).

Definition perm_bits (mode : Z) : Z := Z.land mode 0xFFF.

(** The temporary file, with its final mode and content. *)
Definition fill_temp (parent_fd : Z) (temp_name : pystr) (data : pybytes) (mode uid : Z) : io unit :=
  do! temp_fd := or_unsafe (os_create parent_fd temp_name (perm_bits mode)) in
  os_fchmod temp_fd (perm_bits mode) ;;
  do! st := os_fstat temp_fd in
  refuse (negb (S_ISREG st) || negb (st_mode st =? perm_bits mode) || negb (st_uid st =? uid) || negb (st_nlink st =? 1)) ;;
  _write_all temp_fd data ;;
  os_fsync temp_fd.

Definition atomic_write (path : posix_path) (data : pybytes) (mode uid : Z) : io unit :=
  _validate_canonical_abs path ;;
  do! parent_fd := open_dir (path_parent path) in
  do! temp_name := _unique_name (u ".tr-write-") in
  eon_error
    (_validate_parent_fd parent_fd uid ;;
     fill_temp parent_fd temp_name data mode uid ;;
     or_unsafe (os_rename parent_fd temp_name parent_fd (path_name path)))
    (unlink_if_present parent_fd temp_name) ;;
  os_fsync parent_fd.

Definition atomic_symlink (path : posix_path) (literal_target : pystr) (uid : Z) : io unit :=
  _validate_canonical_abs path ;;
  do! parent_fd := open_dir (path_parent path) in
  do! temp_name := _unique_name (u ".tr-link-") in
  _validate_parent_fd parent_fd uid ;;
  or_unsafe (os_symlink_at literal_target parent_fd temp_name) ;;
  eon_error
    (do! actual := os_readlink_at parent_fd temp_name in
     raced (negb (str_eqb actual literal_target)) ;;
     or_unsafe (os_rename parent_fd temp_name parent_fd (path_name path)))
    (unlink_if_present parent_fd temp_name) ;;
  os_fsync parent_fd.

Definition atomic_rename (source destination : posix_path) (expected : NodeIdentity) (uid : Z) : io NodeIdentity :=
  _validate_canonical_abs source ;;
  _validate_canonical_abs destination ;;
  refuse (negb (bool_decide (path_parent source = path_parent destination))) ;;
  do! parent_fd := open_dir (path_parent destination) in
  _validate_parent_fd parent_fd uid ;;
  do! dst_st := ecatch (os_lstat_at parent_fd (path_name destination)) (on_missing concurrent) in
  raced (negb (bool_decide (_identity dst_st = expected))) ;;
  do! src_st := ecatch (os_lstat_at parent_fd (path_name source)) (on_missing concurrent) in
  refuse (negb (st_uid src_st =? uid) || negb (st_nlink src_st =? 1)) ;;
  or_unsafe (os_rename parent_fd (path_name source) parent_fd (path_name destination)) ;;
  os_fsync parent_fd ;;
  do! st := os_lstat_at parent_fd (path_name destination) in
  eret (_identity st).

(** ** The structural walker *)
Definition _safe_unlink_symlink (parent_fd : Z) (name : pystr) (policy : TreePolicy) : io unit :=
  do! rst := os_lstat_at parent_fd name in
  raced (negb (S_ISLNK rst)) ;;
  refuse (negb (st_uid rst =? tp_uid policy) || negb (st_dev rst =? tp_root_device policy)) ;;
  os_unlink_at parent_fd name.

Definition _safe_unlink_regular (parent_fd : Z) (name : pystr) (expected : stat) (policy : TreePolicy) : io unit :=
  do! fd := os_open_reg parent_fd name in
  do! fst := os_fstat fd in
  raced (negb (st_ino fst =? st_ino expected) || negb (st_dev fst =? st_dev expected)) ;;
  refuse (negb (st_uid fst =? tp_uid policy)) ;;
  refuse (negb (st_dev fst =? tp_root_device policy)) ;;
  refuse (negb (st_nlink fst =? 1)) ;;
  do! rst := os_lstat_at parent_fd name in
  raced (negb (st_ino rst =? st_ino fst) || negb (st_dev rst =? st_dev fst)) ;;
  os_unlink_at parent_fd name ;;
  do! pst := os_fstat fd in
  raced (negb (st_nlink pst =? 0)).

Section Walk.
Context (walk_dir : Z -> TreePolicy -> bool -> bool -> io unit).

Definition walk_symlink (parent_fd : Z) (name : pystr) (st : stat) (policy : TreePolicy) (delete : bool) : io unit :=
  refuse (negb (tp_leaf_symlinks policy)) ;;
  refuse (negb (st_uid st =? tp_uid policy) || negb (st_dev st =? tp_root_device policy)) ;;
  if delete then _safe_unlink_symlink parent_fd name policy else eret tt.

Definition walk_subdir (parent_fd : Z) (name : pystr) (policy : TreePolicy) (delete : bool) : io unit :=
  do! child_fd := or_unsafe (os_open_dir parent_fd name) in
  do! cst := os_fstat child_fd in
  refuse (negb (st_uid cst =? tp_uid policy)) ;;
  refuse (negb (st_dev cst =? tp_root_device policy)) ;;
  do! rst := os_lstat_at parent_fd name in
  raced (negb (st_ino rst =? st_ino cst) || negb (st_dev rst =? st_dev cst)) ;;
  walk_dir child_fd policy false delete ;;
  if delete then os_fsync child_fd ;; or_concurrent (os_rmdir_at parent_fd name) else eret tt.

Definition walk_file (parent_fd : Z) (name : pystr) (st : stat) (policy : TreePolicy) (delete : bool) : io unit :=
  refuse (negb (st_uid st =? tp_uid policy)) ;;
  refuse (negb (st_dev st =? tp_root_device policy)) ;;
  refuse (negb (st_nlink st =? 1)) ;;
  if delete then _safe_unlink_regular parent_fd name st policy else eret tt.

Definition _walk_entry (parent_fd : Z) (name : pystr) (st : stat) (policy : TreePolicy) (delete : bool) : io unit :=
  if S_ISLNK st then walk_symlink parent_fd name st policy delete
  else if S_ISDIR st then walk_subdir parent_fd name policy delete
  else if S_ISREG st then walk_file parent_fd name st policy delete
  else unsafe.
End Walk.

(** [depth] is how deep directories may be nested before the interpreter raises
    [RecursionError]. *)
Fixpoint _walk_dir (depth : nat) (dir_fd : Z) (policy : TreePolicy) (top_level delete : bool) : io unit :=
  match depth with
  | O => eraise RecursionError
  | S depth' =>
      do! listed := os_listdir dir_fd in
      let names := sorted_strs listed in
      refuse (top_level && negb (set_eqb names (tp_allowlist policy))) ;;
      eforeach (fun name =>
        do! st := os_lstat_at dir_fd name in
        _walk_entry (_walk_dir depth') dir_fd name st policy delete) names ;;
      if delete then os_fsync dir_fd else eret tt
  end.

(** ** Leaves *)
Definition _unlink_leaf_if_present (path : posix_path) (uid : Z) : io unit :=
  _validate_canonical_abs path ;;
  do! parent := if_present (open_dir (path_parent path)) in
  match parent with
  | None => eret tt
  | Some parent_fd =>
      _validate_parent_fd parent_fd uid ;;
      do! found := if_present (os_lstat_at parent_fd (path_name path)) in
      match found with
      | None => eret tt
      | Some st =>
          refuse (S_ISDIR st) ;;
          let policy := mkPolicy (st_dev st) uid [] true in
          if S_ISLNK st then _safe_unlink_symlink parent_fd (path_name path) policy
          else if S_ISREG st then
            refuse (negb (st_uid st =? uid) || negb (st_nlink st =? 1)) ;;
            _safe_unlink_regular parent_fd (path_name path) st policy
          else unsafe
      end
  end.

(** [x or default] for a number: 0 counts as missing. *)
Definition mode_or (mode : option Z) (default : Z) : Z :=
  match mode with Some m => if m =? 0 then default else m | None => default end.

Definition restore_before (image : BeforeImage) (uid : Z) : io unit :=
  let path := parse_path (bi_path image) in
  _validate_canonical_abs path ;;
  match bi_kind image with
  | ABSENT => _unlink_leaf_if_present path uid
  | FILE => atomic_write path (default [] (bi_content image)) (mode_or (bi_mode image) 0x180) uid
  | SYMLINK => atomic_symlink path (default [] (bi_target image)) uid
  end.

(** ** Lock infrastructure *)
Record LockInfrastructurePlan := mkLockPlan {
  lp_directory_path : posix_path;
  lp_lock_path : posix_path;
  lp_directory_absent : bool;
  lp_lock_absent : bool;
  lp_may_create_directory : bool;
  lp_may_create_lock : bool;
  lp_directory_mode : Z;
  lp_lock_mode : Z;
}.

Definition _validate_lock_dir (dir_fd : Z) (plan : LockInfrastructurePlan) (uid : Z) : io unit :=
  do! st := os_fstat dir_fd in
  refuse (negb (S_ISDIR st)) ;;
  refuse (negb (st_mode st =? lp_directory_mode plan)) ;;
  refuse (negb (st_uid st =? uid)) ;;
  refuse (others_write st).

Definition open_lock_infrastructure (plan : LockInfrastructurePlan) (uid : Z) : io (Z * Z) :=
  let dir_path := lp_directory_path plan in
  let lock_path := lp_lock_path plan in
  _validate_canonical_abs dir_path ;;
  _validate_canonical_abs lock_path ;;
  refuse (negb (bool_decide (path_parent lock_path = dir_path))) ;;
  refuse (negb (lp_directory_mode plan =? 0x1C0) || negb (lp_lock_mode plan =? 0x180)) ;;
  do! dir_parent_fd := open_dir (path_parent dir_path) in
  (if lp_may_create_directory plan
   then or_unsafe (os_mkdir_at dir_parent_fd (path_name dir_path) (perm_bits (lp_directory_mode plan)))
   else eret tt) ;;
  do! dir_fd := or_unsafe (os_open_dir dir_parent_fd (path_name dir_path)) in
  _validate_lock_dir dir_fd plan uid ;;
  do! lock_fd := (if lp_may_create_lock plan
                  then or_unsafe (os_create dir_fd (path_name lock_path) (perm_bits (lp_lock_mode plan)))
                  else or_unsafe (os_open_rw dir_fd (path_name lock_path))) in
  do! lst := os_fstat lock_fd in
  refuse (negb (S_ISREG lst)) ;;
  eret (dir_fd, lock_fd).

Definition validate_lock_infrastructure (plan : LockInfrastructurePlan) (directory_fd lock_fd uid : Z) : io unit :=
  do! dst := os_fstat directory_fd in
  do! lst := os_fstat lock_fd in
  do! dir_lstat := or_unsafe (os_lstat (lp_directory_path plan)) in
  do! lock_lstat := or_unsafe (os_lstat (lp_lock_path plan)) in
  raced (negb (st_dev dst =? st_dev dir_lstat) || negb (st_ino dst =? st_ino dir_lstat)) ;;
  raced (negb (st_dev lst =? st_dev lock_lstat) || negb (st_ino lst =? st_ino lock_lstat)) ;;
  refuse (negb (S_ISDIR dst)) ;;
  refuse (negb (st_mode dst =? lp_directory_mode plan)) ;;
  refuse (negb (st_uid dst =? uid) || negb (st_uid dir_lstat =? uid)) ;;
  refuse (others_write dst) ;;
  refuse (negb (S_ISREG lst)) ;;
  refuse (negb (st_mode lst =? lp_lock_mode plan)) ;;
  refuse (negb (st_uid lst =? uid) || negb (st_uid lock_lstat =? uid)) ;;
  refuse (negb (st_nlink lst =? 1)).

(** [with acquire_lifecycle_lock(lock_fd): body].  Waiting for the lock is the
    call; what others do meanwhile is its [Interferes]. *)
Definition acquire_lifecycle_lock {A} (lock_fd : Z) (body : io A) : io A := syscall ;; efinally body syscall.

(** ** Trees *)
Section Trees.
Context (depth : nat).

(** The root of a tree, opened and identified. *)
Definition delete_tree_structural (root : posix_path) (expected : NodeIdentity) (policy : TreePolicy) : io unit :=
  _validate_canonical_abs root ;;
  do! parent_fd := open_dir (path_parent root) in
  do! root_fd := or_missing_unsafe ConcurrentLifecycleChange (os_open_dir parent_fd (path_name root)) in
  do! st := os_fstat root_fd in
  raced (negb (bool_decide (_identity st = expected))) ;;
  refuse (negb (S_ISDIR st)) ;;
  refuse (negb (st_uid st =? tp_uid policy)) ;;
  refuse (negb (st_dev st =? tp_root_device policy)) ;;
  refuse (others_write st) ;;
  _walk_dir depth root_fd policy true true ;;
  os_fsync root_fd ;;
  or_concurrent (os_rmdir_at parent_fd (path_name root)) ;;
  os_fsync parent_fd.

(** [json.loads(raw.decode("utf-8"))] must give back [raw] when written canonically. *)
Definition canonical_marker (rec_limit : nat) (raw : pybytes) : result unit :=
  let? parsed := match (let? text := utf8_decode false raw in json_loads plain_hook rec_limit text) with
    | Ok value => Ok value
    | Err UnicodeError | Err JSONDecodeError => Err UnsafeLifecyclePath
    | Err e => Err e
    end in
  let? canonical := _canonical_json parsed in
  raise_if (negb (bool_decide (canonical = raw))) UnsafeLifecyclePath.

Context (rec_limit : nat).

Definition _validate_marker (root_fd : Z) (root : posix_path) (marker : MarkerIdentity) (root_device uid : Z) : io unit :=
  do! mst := ecatch (os_lstat_at root_fd MARKER_NAME) (on_missing unsafe) in
  refuse (negb (S_ISREG mst)) ;;
  refuse (negb (st_mode mst =? 0x180)) ;;
  refuse (negb (st_uid mst =? uid)) ;;
  refuse (negb (st_dev mst =? root_device)) ;;
  refuse (negb (st_nlink mst =? 1)) ;;
  refuse (negb (mi_mode marker =? 0x180)) ;;
  refuse (negb (str_eqb (path_str (path_join root MARKER_NAME)) (mi_path marker))) ;;
  do! mfd := os_open_reg root_fd MARKER_NAME in
  do! fst := os_fstat mfd in
  raced (negb (st_ino fst =? st_ino mst) || negb (st_dev fst =? st_dev mst)) ;;
  refuse (negb (st_nlink fst =? 1)) ;;
  do! raw := _read_fd mfd (st_size fst) _MAX_READ_BYTES in
  refuse (negb (str_eqb (Sha256.hexdigest raw) (mi_sha256 marker))) ;;
  elift (canonical_marker rec_limit raw) ;;
  do! pst := os_fstat mfd in
  raced (negb (st_ino pst =? st_ino fst) || negb (st_size pst =? len raw)).

Definition verified_delete_generation (root : posix_path) (marker : MarkerIdentity) (uid : Z) : io unit :=
  _validate_canonical_abs root ;;
  do! parent_fd := open_dir (path_parent root) in
  do! root_fd := or_missing_unsafe UnsafeLifecyclePath (os_open_dir parent_fd (path_name root)) in
  do! st := os_fstat root_fd in
  refuse (negb (S_ISDIR st)) ;;
  refuse (negb (st_uid st =? uid)) ;;
  refuse (negb (st_mode st =? 0x1C0)) ;;
  let allowlist := [MARKER_NAME; u "venv"] in
  do! names := os_listdir root_fd in
  refuse (negb (set_eqb names allowlist)) ;;
  _validate_marker root_fd root marker (st_dev st) uid ;;
  do! vst := os_lstat_at root_fd (u "venv") in
  refuse (negb (S_ISDIR vst)) ;;
  _walk_dir depth root_fd (mkPolicy (st_dev st) uid allowlist true) true true ;;
  os_fsync root_fd ;;
  os_rmdir_at parent_fd (path_name root) ;;
  os_fsync parent_fd.

(** ** Created parents *)
Definition deeper_first (a b : posix_path) : bool := (length (path_tail b) <=? length (path_tail a))%nat.
Definition by_depth (l : list posix_path) : list posix_path := sort_by deeper_first l.

(** Whether [path] may go: [None] when nothing may. *)
Definition removable_path (created removable : list posix_path) (path : posix_path) (uid : Z) : io (option (list posix_path)) :=
  _validate_canonical_abs path ;;
  do! parent := if_present (open_dir (path_parent path)) in
  match parent with
  | None => eret (Some removable)
  | Some parent_fd =>
      do! opened := ecatch (do! fd := os_open_dir parent_fd (path_name path) in eret (Some (Some fd)))
                      (fun e => if bool_decide (e = OSError ENOENT) then eret (Some None) else on_os_error (eret None) e) in
      match opened with
      | None => eret None
      | Some None => eret (Some removable)
      | Some (Some fd) =>
          do! st := os_fstat fd in
          if negb (S_ISDIR st) || negb (st_uid st =? uid) then eret None
          else
            do! entries := os_listdir fd in
            let children := map (path_join path) entries in
            eret (if forallb (fun child => bool_decide (child ∈ created) && bool_decide (child ∈ removable)) children
                  then Some (removable ++ [path]) else None)
      end
  end.

Fixpoint find_removable (created removable : list posix_path) (ordered : list posix_path) (uid : Z)
  : io (option (list posix_path)) :=
  match ordered with
  | [] => eret (Some removable)
  | path :: rest =>
      do! found := removable_path created removable path uid in
      match found with
      | None => eret None
      | Some removable' => find_removable created removable' rest uid
      end
  end.

Fixpoint remove_paths (removed ordered : list posix_path) : io (list posix_path) :=
  match ordered with
  | [] => eret removed
  | path :: rest =>
      do! parent := if_present (open_dir (path_parent path)) in
      match parent with
      | None => eret removed
      | Some parent_fd =>
          do! gone := ecatch (os_rmdir_at parent_fd (path_name path) ;; os_fsync parent_fd ;; eret true)
                        (on_os_error (eret false)) in
          if gone then remove_paths (removed ++ [path]) rest else eret removed
      end
  end.

Definition remove_created_parents (paths : list posix_path) (uid : Z) : io (list posix_path) :=
  let created := remove_dups paths in
  do! found := find_removable created [] (by_depth created) uid in
  match found with
  | None => eret []
  | Some removable => remove_paths [] (by_depth removable)
  end.

(** ** Quarantine *)
Definition _open_or_create_quarantine_parent (path : posix_path) (expected_device uid : Z) : io (Z * NodeIdentity * bool) :=
  do! grandparent_fd := open_dir (path_parent path) in
  do! '(qfd, created) := ecatch (do! qfd := os_open_dir grandparent_fd (path_name path) in eret (qfd, false))
    (fun e => if bool_decide (e = OSError ENOENT) then
        or_unsafe (os_mkdir_at grandparent_fd (path_name path) 0x1C0) ;;
        do! qfd := or_unsafe (os_open_dir grandparent_fd (path_name path)) in
        eret (qfd, true)
      else on_os_error unsafe e) in
  do! st := os_fstat qfd in
  refuse (negb (S_ISDIR st)) ;;
  refuse (negb (st_uid st =? uid)) ;;
  refuse (negb (st_dev st =? expected_device)) ;;
  refuse (negb (st_mode st =? 0x1C0)) ;;
  refuse (others_write st) ;;
  eret (qfd, _identity st, created).

Fixpoint reserve_loop (attempts : nat) (q_parent_fd : Z) (install_id : pystr) : io pystr :=
  match attempts with
  | O => unsafe
  | S attempts' =>
      do! t := token_hex in
      let name := u ".termrecall-" ++ install_id ++ u "-" ++ t in
      do! found := if_present (os_lstat_at q_parent_fd name) in
      match found with
      | None => eret name
      | Some _ => reserve_loop attempts' q_parent_fd install_id
      end
  end.
Definition _reserve_leaf (q_parent_fd : Z) (install_id : pystr) : io pystr := reserve_loop 512 q_parent_fd install_id.

Definition quarantine_state (state_root quarantine_parent : posix_path) (install_id : pystr) (uid : Z) : io QuarantinedTree :=
  _validate_canonical_abs state_root ;;
  _validate_canonical_abs quarantine_parent ;;
  refuse (negb (bool_decide (path_parent quarantine_parent = path_parent state_root))) ;;
  do! src_parent_fd := open_dir (path_parent state_root) in
  do! root_fd := or_missing_unsafe UnsafeLifecyclePath (os_open_dir src_parent_fd (path_name state_root)) in
  do! st := os_fstat root_fd in
  refuse (negb (S_ISDIR st)) ;;
  refuse (negb (st_uid st =? uid)) ;;
  refuse (negb (st_mode st =? 0x1C0)) ;;
  refuse (others_write st) ;;
  do! listed := os_listdir root_fd in
  _walk_dir depth root_fd (mkPolicy (st_dev st) uid (sorted_strs listed) true) true false ;;
  do! '(q_parent_fd, _, created_parent) := _open_or_create_quarantine_parent quarantine_parent (st_dev st) uid in
  do! quarantine_name := _reserve_leaf q_parent_fd install_id in
  or_unsafe (os_rename src_parent_fd (path_name state_root) q_parent_fd quarantine_name) ;;
  os_fsync src_parent_fd ;;
  os_fsync q_parent_fd ;;
  do! src_st := os_fstat src_parent_fd in
  do! q_st := os_fstat q_parent_fd in
  eret (mkQuarantined (_identity src_st) (_identity q_st) (_identity st) (path_name state_root) quarantine_name
          quarantine_parent created_parent).

Definition _open_quarantine_parent (tree : QuarantinedTree) (uid : Z) : io (Z * NodeIdentity) :=
  do! grandparent_fd := open_dir (path_parent (qt_quarantine_parent tree)) in
  do! qfd := or_unsafe (os_open_dir grandparent_fd (path_name (qt_quarantine_parent tree))) in
  do! st := os_fstat qfd in
  refuse (negb (S_ISDIR st)) ;;
  refuse (negb (st_uid st =? uid)) ;;
  refuse (others_write st) ;;
  eret (qfd, _identity st).

Definition _open_source_parent (tree : QuarantinedTree) (uid : Z) : io (Z * NodeIdentity) :=
  do! parent_fd := open_dir (path_parent (qt_quarantine_parent tree)) in
  do! st := os_fstat parent_fd in
  refuse (negb (S_ISDIR st)) ;;
  refuse (negb (st_uid st =? uid)) ;;
  refuse (others_write st) ;;
  eret (parent_fd, _identity st).

Definition restore_quarantine (tree : QuarantinedTree) (uid : Z) : io unit :=
  do! '(q_parent_fd, q_parent_ident) := _open_quarantine_parent tree uid in
  raced (negb (bool_decide (q_parent_ident = qt_destination_parent tree))) ;;
  do! '(src_parent_fd, src_parent_ident) := _open_source_parent tree uid in
  raced (negb (bool_decide (src_parent_ident = qt_source_parent tree))) ;;
  do! occupied := if_present (os_lstat_at src_parent_fd (qt_source_name tree)) in
  raced (match occupied with Some _ => true | None => false end) ;;
  do! qroot_fd := or_missing_unsafe ConcurrentLifecycleChange (os_open_dir q_parent_fd (qt_quarantine_name tree)) in
  do! qst := os_fstat qroot_fd in
  raced (negb (bool_decide (_identity qst = qt_root tree))) ;;
  or_unsafe (os_rename q_parent_fd (qt_quarantine_name tree) src_parent_fd (qt_source_name tree)) ;;
  os_fsync q_parent_fd ;;
  os_fsync src_parent_fd.

Definition same_object (st : stat) (ident : NodeIdentity) : bool :=
  (st_dev st =? ni_device ident) && (st_ino st =? ni_inode ident) && (st_uid st =? ni_uid ident).

Definition _maybe_remove_quarantine_parent (qpath : posix_path) (expected_ident : NodeIdentity) (uid : Z) : io unit :=
  do! grandparent_fd := open_dir (path_parent qpath) in
  do! opened := ecatch (do! qfd := os_open_dir grandparent_fd (path_name qpath) in eret (Some qfd)) (on_os_error (eret None)) in
  match opened with
  | None => eret tt
  | Some qfd =>
      do! st := os_fstat qfd in
      if negb (same_object st expected_ident) then eret tt
      else if others_write st then eret tt
      else
        do! names := os_listdir qfd in
        if negb (bool_decide (names = [])) then eret tt
        else ecatch (os_rmdir_at grandparent_fd (path_name qpath) ;; os_fsync grandparent_fd) (on_os_error (eret tt))
  end.

Definition delete_quarantine (tree : QuarantinedTree) (uid : Z) : io unit :=
  do! '(q_parent_fd, q_parent_ident) := _open_quarantine_parent tree uid in
  eguard (negb (bool_decide (q_parent_ident = qt_destination_parent tree))) CleanupFailure ;;
  do! qroot_fd := or_missing_unsafe CleanupFailure (os_open_dir q_parent_fd (qt_quarantine_name tree)) in
  do! qst := os_fstat qroot_fd in
  eguard (negb (bool_decide (_identity qst = qt_root tree))) CleanupFailure ;;
  do! listed := os_listdir qroot_fd in
  _walk_dir depth qroot_fd (mkPolicy (st_dev qst) uid (sorted_strs listed) true) true true ;;
  os_fsync qroot_fd ;;
  ecatch (os_rmdir_at q_parent_fd (qt_quarantine_name tree)) (on_os_error (eraise CleanupFailure)) ;;
  os_fsync q_parent_fd ;;
  if qt_created_parent tree
  then _maybe_remove_quarantine_parent (qt_quarantine_parent tree) (qt_destination_parent tree) uid
  else eret tt.
End Trees.
