(* ===== verification/Integrations.v ===== *)
(** * Integration planning ([lifecycle_integrations.py])

    The transforms of [.bashrc], the autostart entry and the chooser file, and the
    plans made of them.  Planning captures before images and writes nothing. *)
From S2P Require Import Prelude PyText PyVal PyFloat Json Codec Model Contract Effect Files LifecycleFs.
#[local] Open Scope eff_scope.

(** ** Byte strings *)

(** [os.fsencode]: UTF-8, an escaped byte (a surrogate from U+DC80) standing for
    itself. *)
Definition fs_char (c : Z) : result pybytes :=
  if is_scalar c then Ok (utf8_char c)
  else if (0xDC80 <=? c) && (c <=? 0xDCFF) then Ok [c - 0xDC00]
  else Err UnicodeError.
Definition fsencode (s : pystr) : result pybytes := let? l := rmap fs_char s in Ok (concat l).

(** [raw.index(sub)] for a non-empty [sub], and [raw.count(sub)]: occurrences that do
    not overlap. *)
Fixpoint find_sub (sub raw : pybytes) : option nat :=
  if is_prefix sub raw then Some O
  else match raw with [] => None | _ :: rest => S <$> find_sub sub rest end.

Fixpoint count_fuel (fuel : nat) (sub raw : pybytes) : nat :=
  match fuel with
  | O => O
  | S fuel' =>
      match find_sub sub raw with
      | None => O
      | Some i => S (count_fuel fuel' sub (drop (i + length sub) raw))
      end
  end.
(** Every occurrence takes a byte, so the length is fuel enough. *)
Definition count_sub (sub raw : pybytes) : nat := count_fuel (length raw) sub raw.

(** [raw[:idx] + by + raw[idx + len(sub):]] *)
Definition splice (raw : pybytes) (idx : nat) (by_ : pybytes) (n : nat) : pybytes := take idx raw ++ by_ ++ drop (idx + n) raw.

(** ** Renderers *)
Definition nl : pybytes := [10].
Definition _V1_BEGIN : pybytes := u "# >>> termrecall v1 >>>".
Definition _V1_END : pybytes := u "# <<< termrecall v1 <<<".
Definition _LEGACY_BEGIN : pybytes := u "# BEGIN termrecall".
Definition _LEGACY_END : pybytes := u "# END termrecall".

Definition quote_char (c : Z) : pybytes := if c =? 39 then [39; 34; 39; 34; 39] else [c].
Definition shell_single_quote (path : posix_path) : result pybytes :=
  let? raw := fsencode (path_str path) in Ok (39 :: flat_map quote_char raw ++ [39]).

Definition _source_line (integration : posix_path) : result pybytes :=
  let? quoted := shell_single_quote integration in Ok (u "[ -f " ++ quoted ++ u " ] && . " ++ quoted).
Definition _legacy_source_line (integration : posix_path) : result pybytes :=
  let? quoted := shell_single_quote integration in Ok (u "source " ++ quoted).
Definition _v1_block (integration : posix_path) : result pybytes :=
  let? line := _source_line integration in Ok (_V1_BEGIN ++ nl ++ line ++ nl ++ _V1_END ++ nl).
Definition _legacy_block (integration : posix_path) : result pybytes :=
  let? line := _legacy_source_line integration in Ok (_LEGACY_BEGIN ++ nl ++ line ++ nl ++ _LEGACY_END ++ nl).

(** [_DESKTOP_TEMPLATE], cut at its placeholder. *)
Definition desktop_head : pybytes :=
  u "[Desktop Entry]" ++ nl ++ u "Type=Application" ++ nl ++ u "Name=TermRecall" ++ nl ++ u "Exec=".
Definition desktop_tail : pybytes :=
  u " login-coordinator" ++ nl ++ u "OnlyShowIn=X-Cinnamon;Cinnamon;" ++ nl ++ u "X-GNOME-Autostart-enabled=true" ++ nl ++
  u "Terminal=false" ++ nl ++ u "NoDisplay=true" ++ nl.
Definition render_desktop (executable : posix_path) : result pybytes :=
  let? raw := fsencode (path_str executable) in Ok (desktop_head ++ raw ++ desktop_tail).

(** The text around the flag is [{"schema_version":1,"login_chooser_enabled":]. *)
Definition chooser_head : pybytes :=
  123 :: json_string false (u "schema_version") ++ u ":1," ++ json_string false (u "login_chooser_enabled") ++ u ":".
Definition render_chooser (enabled : bool) : pybytes :=
  chooser_head ++ (if enabled then u "true" else u "false") ++ u "}" ++ nl.

(** ** The Bash block *)
Definition _marker_counts (raw begin_ end_ : pybytes) : nat * nat := (count_sub (begin_ ++ nl) raw, count_sub (end_ ++ nl) raw).

(** The block is there exactly once, as the installer writes it. *)
Definition well_formed_block (counts : nat * nat) (block raw : pybytes) (kind : pystr) : result unit :=
  raise_if (negb (counts.1 =? 1)%nat || negb (counts.2 =? 1)%nat || negb (contains block raw))
    (ValueError (u ".bashrc " ++ kind ++ u " markers are malformed or handwritten")).

(** [raw[:idx] + raw[idx+len(v1):]], with the separator newline before the block. *)
Definition remove_block (v1 raw : pybytes) (idx : nat) : pybytes :=
  if (0 <? idx)%nat && bool_decide (raw !! (idx - 1)%nat = Some 10)
  then take (idx - 1) raw ++ drop (idx + length v1) raw
  else take idx raw ++ drop (idx + length v1) raw.

Definition transform_bashrc (raw : pybytes) (integration : posix_path) (state : DesiredState) : result pybytes :=
  if bool_decide (state = PRESERVE) then Ok raw
  else
    let? v1 := _v1_block integration in
    let? legacy := _legacy_block integration in
    let v1_counts := _marker_counts raw _V1_BEGIN _V1_END in
    let leg_counts := _marker_counts raw _LEGACY_BEGIN _LEGACY_END in
    let v1_markers := (0 <? v1_counts.1 + v1_counts.2)%nat in
    let leg_markers := (0 <? leg_counts.1 + leg_counts.2)%nat in
    raise_if (v1_markers && leg_markers) (ValueError (u ".bashrc contains both V1 and legacy termrecall markers")) ;?
    if bool_decide (state = ENABLE) then
      if v1_markers then well_formed_block v1_counts v1 raw (u "V1") ;? Ok raw
      else if leg_markers then
        well_formed_block leg_counts legacy raw (u "legacy") ;?
        let? idx := result_of_option (find_sub legacy raw) (ValueError (u "subsection not found")) in
        Ok (splice raw idx v1 (length legacy))
      else if bool_decide (raw = []) then Ok v1
      else Ok (raw ++ nl ++ v1)
    else if v1_markers then
      well_formed_block v1_counts v1 raw (u "V1") ;?
      let? idx := result_of_option (find_sub v1 raw) (ValueError (u "subsection not found")) in
      Ok (remove_block v1 raw idx)
    else
      raise_if leg_markers (ValueError (u ".bashrc legacy markers present without a V1 block to remove")) ;?
      Ok raw.

(** ** Plans *)
Record PlannedMutation := mkMutation { pm_path : posix_path; pm_before : BeforeImage; pm_after : BeforeImage }.

Record IntegrationPlan := mkPlan {
  ip_bash : list PlannedMutation;
  ip_autostart : list PlannedMutation;
  ip_chooser : list PlannedMutation;
  ip_chooser_ownership : ChooserOwnership;
  ip_bash_backup : option OwnedObject;
}.

Definition _file_after (path : posix_path) (before : BeforeImage) (content : pybytes) : BeforeImage :=
  mkBefore (path_str path) FILE (if bool_decide (bi_kind before = FILE) then bi_mode before else Some 0x180) None
    (Some content) (Some (Sha256.hexdigest content)).
Definition _absent_after (path : posix_path) : BeforeImage := absent_image (path_str path).

Definition backup_path (paths : LifecyclePaths) : posix_path := path_join (config_root paths) (u "bashrc.backup").

Definition _bash_backup (paths : LifecyclePaths) (prior : option InstallManifest) (before : BeforeImage) : OwnedObject :=
  match prior ≫= im_bash_backup with
  | Some backup => backup
  | None =>
      let original := if bool_decide (bi_kind before = ABSENT) then [] else default [] (bi_content before) in
      mkOwned (path_str (backup_path paths)) FILE 0x180 (Some (Sha256.hexdigest original)) None
  end.

Definition _plan_bash (state : DesiredState) (paths : LifecyclePaths) (prior : option InstallManifest) (uid : Z)
  : io (list PlannedMutation * option OwnedObject) :=
  if bool_decide (state = PRESERVE) then eret ([], prior ≫= im_bash_backup)
  else
    do! before := capture_before (bashrc paths) uid in
    let current := default [] (bi_content before) in
    do! transformed := elift (transform_bashrc current (bash_integration paths) state) in
    let after := _file_after (bashrc paths) before transformed in
    eret ([mkMutation (bashrc paths) before after], Some (_bash_backup paths prior before)).

Definition _owned_for (prior : option InstallManifest) (target : posix_path) : option OwnedObject :=
  match prior with
  | None => None
  | Some m => find (fun item => str_eqb (oo_path item) (path_str target)) (im_owned m)
  end.

(** The entry is the one the manifest owns, unchanged. *)
Definition exactly_owned (prior : option InstallManifest) (target : posix_path) (before : BeforeImage) : bool :=
  match _owned_for prior target with
  | None => false
  | Some owned =>
      bool_decide (oo_kind owned = FILE) && (oo_mode owned =? default 0 (bi_mode before)) &&
      bool_decide (oo_sha256 owned = bi_sha256 before)
  end.

Definition _plan_autostart (state : DesiredState) (paths : LifecyclePaths) (prior : option InstallManifest) (uid : Z)
  : io (list PlannedMutation) :=
  do! expected := elift (render_desktop (path_join (current paths) (u "venv/bin/termrecall"))) in
  do! before := capture_before (autostart paths) uid in
  let mutation after := [mkMutation (autostart paths) before after] in
  match state with
  | PRESERVE => eret []
  | ENABLE =>
      eguard (negb (bool_decide (bi_kind before = ABSENT)) && negb (exactly_owned prior (autostart paths) before))
        (ValueError (u "autostart entry exists but is not owned by the manifest")) ;;
      eret (mutation (_file_after (autostart paths) before expected))
  | DISABLE =>
      if bool_decide (bi_kind before = ABSENT) then eret []
      else
        eguard (negb (exactly_owned prior (autostart paths) before))
          (ValueError (u "autostart disable requires exact manifest hash and mode")) ;;
        eret (mutation (_absent_after (autostart paths)))
  end.

Definition _chooser_after_image (paths : LifecyclePaths) (enabled : bool) : BeforeImage :=
  let content := render_chooser enabled in
  mkBefore (path_str (chooser paths)) FILE (Some 0x180) None (Some content) (Some (Sha256.hexdigest content)).

Definition _plan_chooser (state : DesiredState) (paths : LifecyclePaths) (prior : option InstallManifest) (uid : Z)
  : io (list PlannedMutation * ChooserOwnership) :=
  do! before := capture_before (chooser paths) uid in
  match state with
  | PRESERVE =>
      eret ([], match prior with
                | Some m => im_chooser m
                | None => mkChooser (absent_image (path_str (chooser paths))) None false
                end)
  | _ =>
      let after := _chooser_after_image paths (bool_decide (state = ENABLE)) in
      do! original :=
        match prior with
        | Some m =>
            if co_changed (im_chooser m) then
              let expected := default (co_original (im_chooser m)) (co_post (im_chooser m)) in
              eguard (negb (bool_decide (bi_kind before = bi_kind expected)) ||
                      negb (bool_decide (bi_sha256 before = bi_sha256 expected)))
                (ValueError (u "chooser was modified externally since the last installer change")) ;;
              eret (co_original (im_chooser m))
            else eret before
        | None => eret before
        end in
      eret ([mkMutation (chooser paths) before after], mkChooser original (Some after) true)
  end.

Definition _plan_integrations_core (bash_state autostart_state chooser_state : DesiredState) (paths : LifecyclePaths)
    (prior : option InstallManifest) (uid : Z) : io IntegrationPlan :=
  do! '(bash, bash_backup) := _plan_bash bash_state paths prior uid in
  do! autostart := _plan_autostart autostart_state paths prior uid in
  do! '(chooser, ownership) := _plan_chooser chooser_state paths prior uid in
  eret (mkPlan bash autostart chooser ownership bash_backup).

Definition plan_integrations (request : SetupRequest) (paths : LifecyclePaths) (prior : option InstallManifest) (uid : Z)
  : io IntegrationPlan :=
  elift (validate_setup_request request) ;;
  _plan_integrations_core (sr_bash request) (sr_autostart request) (sr_chooser request) paths prior uid.

Definition plan_installed_integrations (request : IntegrationSetupRequest) (paths : LifecyclePaths)
    (prior : InstallManifest) (uid : Z) : io IntegrationPlan :=
  elift (validate_integration_setup_request request) ;;
  _plan_integrations_core (ir_bash request) (ir_autostart request) (ir_chooser request) paths (Some prior) uid.

(** All its mutations, in the order in which they are made. *)
Definition all_mutations (plan : IntegrationPlan) : list PlannedMutation := ip_bash plan ++ ip_autostart plan ++ ip_chooser plan.
