(* ===== verification/Probe.v ===== *)
(** * The probe plan ([installer_probe.py], [probe_plan_from_bytes])

    The plan that the read-only probe prints and that the lifecycle code reads
    back: its validation, its rendering and its digest. *)
From S2P Require Import Prelude PyText PyVal PyFloat Json Codec Model Contract Effect Files LifecycleFs.

Definition REQUEST_KEYS : list pystr :=
  [u "request_schema"; u "source_root"; u "home"; u "xdg_data_home"; u "xdg_config_home"; u "xdg_state_home";
   u "mode"; u "bash"; u "autostart"; u "chooser"; u "dry_run"].
Definition PLAN_KEYS : list pystr :=
  [u "probe_schema"; u "plan_schema"; u "request"; u "prerequisites"; u "source"; u "prior"; u "effective"; u "actions";
   u "lock_infrastructure"; u "state_fingerprint"; u "rendered"; u "plan_digest"].
Definition LOCK_KEYS : list pystr :=
  [u "directory_path"; u "lock_path"; u "directory_absent"; u "lock_absent"; u "may_create_directory";
   u "may_create_lock"; u "directory_mode"; u "lock_mode"].
Definition MODES : list pystr := [u "interactive"; u "full"; u "no-autostart"; u "commands-only"; u "upgrade"].
Definition STATES : list pystr := [u "enable"; u "disable"; u "preserve"].

(** ** Canonical payloads *)
Definition _sha256 (value : pyval) : result pystr := let? raw := _canonical_json value in Ok (Sha256.hexdigest raw).

Definition without_digest (plan : pydict) : pydict := filter (fun kv => kv.1 <> u "plan_digest") plan.
Definition compute_plan_digest (plan : pydict) : result pystr := _sha256 (VDict (without_digest plan)).

Definition plan_to_bytes (plan : pydict) : result pybytes :=
  let? raw := _canonical_json (VDict plan) in
  raise_if (MAX_PAYLOAD_BYTES <? len raw) (ValueError (u "plan exceeds 65,536 bytes")) ;?
  Ok raw.

(** [f"{value}"] of the values a valid plan has in those places. *)
Definition py_format (v : pyval) : pystr :=
  match v with
  | VNone => u "None"
  | VBool b => if b then u "True" else u "False"
  | VInt z => str_of_int z
  | VFloat f => float_repr f
  | VStr s => s
  | _ => []
  end.

Definition py_truth (v : pyval) : bool :=
  match v with
  | VNone => false | VBool b => b | VInt z => negb (z =? 0)
  | VFloat (FFin _ m _) => negb (m =? 0) | VFloat _ => true
  | VStr s => negb (bool_decide (s = [])) | VList l => negb (Nat.eqb (length l) 0) | VDict d => negb (Nat.eqb (length d) 0)
  end.

Definition render_action (action : pyval) : result pystr :=
  match action with
  | VDict d =>
      let field k := py_format (dict_get_none d k) in
      Ok (u "  " ++ field (u "sequence") ++ u ". " ++ field (u "kind") ++ u ": " ++ field (u "disposition") ++ u " " ++
          field (u "path_or_token"))
  | _ => Err (ValueError (u "invalid action for rendering"))
  end.

Definition render_plan (plan : pydict) : result pystr :=
  match dict_get (u "request") plan, dict_get (u "actions") plan with
  | Some (VDict request), Some (VList actions) =>
      let field k := py_format (dict_get_none request k) in
      let? lines := rmap render_action actions in
      Ok (join [10]
        ([u "TermRecall installer plan"; u "Mode: " ++ field (u "mode");
          u "Dry run: " ++ (if py_truth (dict_get_none request (u "dry_run")) then u "yes" else u "no");
          u "Requested integrations: bash=" ++ field (u "bash") ++ u ", autostart=" ++ field (u "autostart") ++
            u ", chooser=" ++ field (u "chooser");
          u "Actions:"] ++ lines) ++ [10])
  | _, _ => Err (ValueError (u "invalid plan for rendering"))
  end.

(** ** Readers *)
Definition _canonical_path (value : pyval) (name : pystr) : result pystr :=
  match value with
  | VStr s =>
      raise_if (bool_decide (s = []) || char_in 0 s) (invalid name) ;?
      raise_if (negb (is_absolute (parse_path s)) || negb (str_eqb (normpath s) s))
        (ValueError (name ++ u " must be a canonical absolute path")) ;?
      Ok s
  | _ => Err (invalid name)
  end.

(** [value in set_of_strings]: a list or a dict cannot be looked up. *)
Definition in_strings (value : pyval) (l : list pystr) : result bool :=
  match value with
  | VStr s => Ok (str_in s l)
  | VList _ | VDict _ => Err (TypeError (u "unhashable type"))
  | _ => Ok false
  end.
Definition require_in (value : pyval) (l : list pystr) (name : pystr) : result unit :=
  let? found := in_strings value l in raise_if (negb found) (invalid name).

Definition plan_object (value : pyval) (keys : list pystr) (name : pystr) : result pydict :=
  match value with
  | VDict d => raise_if (negb (set_eqb (dict_keys d) keys)) (invalid (name ++ u " keys")) ;? Ok d
  | _ => Err (invalid (name ++ u " keys"))
  end.

Definition plan_states_valid (mode bash autostart chooser : pyval) : bool :=
  let eqs v s := py_eqb v (VStr s) in
  eqs mode (u "interactive") || eqs mode (u "full") ||
  (eqs mode (u "no-autostart") && negb (eqs autostart (u "enable"))) ||
  ((eqs mode (u "commands-only") || eqs mode (u "upgrade")) &&
   eqs bash (u "preserve") && eqs autostart (u "preserve") && eqs chooser (u "preserve")).

Definition _validate_request (value : pyval) : result pydict :=
  let? d := plan_object value REQUEST_KEYS (u "request") in
  let get k := dict_get_none d k in
  raise_if (negb (py_eqb (get (u "request_schema")) (VInt REQUEST_SCHEMA))) (ValueError (u "unknown request schema")) ;?
  rforeach (fun name => _canonical_path (get name) name ;? Ok tt)
    [u "source_root"; u "home"; u "xdg_data_home"; u "xdg_config_home"; u "xdg_state_home"] ;?
  raise_if (match get (u "dry_run") with VBool _ => false | _ => true end) (invalid (u "dry_run type")) ;?
  require_in (get (u "mode")) MODES (u "mode") ;?
  rforeach (fun name => require_in (get name) STATES (name ++ u " state")) [u "bash"; u "autostart"; u "chooser"] ;?
  raise_if (negb (plan_states_valid (get (u "mode")) (get (u "bash")) (get (u "autostart")) (get (u "chooser"))))
    (ValueError (u "request states conflict with mode")) ;?
  Ok d.

Definition _validate_hash (value : pyval) (name : pystr) : result unit :=
  match value with
  | VStr s => raise_if (negb (len s =? 64) || negb (forallb hex_lower_char s)) (invalid (name ++ u " hash"))
  | _ => Err (invalid (name ++ u " hash"))
  end.
Definition _exact_bool (value : pyval) (name : pystr) : result bool :=
  match value with VBool b => Ok b | _ => Err (invalid (name ++ u " boolean")) end.
Definition _exact_int (value : pyval) (name : pystr) : result Z :=
  match value with
  | VInt z => raise_if (z <? 0) (invalid (name ++ u " integer")) ;? Ok z
  | _ => Err (invalid (name ++ u " integer"))
  end.
Definition _exact_string (value : pyval) (name : pystr) : result pystr := Contract._string value (name ++ u " string").

(** [if value is not None: check] *)
Definition unless_none (value : pyval) (check : pyval -> result unit) : result unit :=
  match value with VNone => Ok tt | _ => check value end.
Definition is_int_or_none (value : pyval) : bool := match value with VNone | VInt _ => true | _ => false end.

(** [tuple(version) < (3, 12, 0)] *)
Definition version_old (v : list Z) : bool :=
  match v with
  | [major; minor; _] => (major <? 3) || ((major =? 3) && (minor <? 12))
  | _ => false
  end.

Definition _validate_prerequisites (value : pyval) : result unit :=
  let? d := plan_object value [u "uid"; u "python"; u "python_version"; u "venv"; u "cc"; u "bash"] (u "prerequisites") in
  let get k := dict_get_none d k in
  _exact_int (get (u "uid")) (u "prerequisite uid") ;?
  _canonical_path (get (u "python")) (u "python prerequisite") ;?
  let? version := match get (u "python_version") with
    | VList [VInt a; VInt b; VInt c] => Ok [a; b; c]
    | _ => Err (invalid (u "python version"))
    end in
  raise_if (negb (forallb (fun x => 0 <=? x) version)) (invalid (u "python version")) ;?
  raise_if (version_old version) (ValueError (u "python 3.12 or newer is required")) ;?
  _exact_bool (get (u "venv")) (u "venv prerequisite") ;?
  _canonical_path (get (u "cc")) (u "compiler prerequisite") ;?
  _canonical_path (get (u "bash")) (u "bash prerequisite") ;?
  Ok tt.

Definition _validate_source (value : pyval) (request : pydict) : result unit :=
  let? d := plan_object value [u "root"; u "device"; u "inode"; u "probe_device"; u "probe_inode"; u "manifest"] (u "source") in
  let get k := dict_get_none d k in
  let? root := _canonical_path (get (u "root")) (u "source root") in
  raise_if (negb (py_eqb (VStr root) (dict_get_none request (u "source_root")))) (ValueError (u "source root mismatch")) ;?
  rforeach (fun name => _exact_int (get name) (u "source " ++ name) ;? Ok tt)
    [u "device"; u "inode"; u "probe_device"; u "probe_inode"] ;?
  let? entries := match get (u "manifest") with VDict m => Ok m | _ => Err (invalid (u "source manifest")) end in
  raise_if (negb (forallb (fun kv => negb (bool_decide (kv.1 = [])) && match kv.2 with VStr _ => true | _ => false end) entries))
    (invalid (u "source manifest")) ;?
  rforeach (fun kv => _validate_hash kv.2 (u "source manifest")) entries.

Definition _validate_prior (value : pyval) : result unit :=
  let? d := plan_object value [u "present"; u "schema_version"; u "manifest_sha256"; u "manifest"] (u "prior") in
  let get k := dict_get_none d k in
  let? present := _exact_bool (get (u "present")) (u "prior present") in
  if present then
    raise_if (match get (u "schema_version"), get (u "manifest") with VInt z, VDict _ => negb (z =? 2) | _, _ => true end)
      (invalid (u "prior manifest")) ;?
    _validate_hash (get (u "manifest_sha256")) (u "prior manifest")
  else
    raise_if (negb (forallb (fun k => match get k with VNone => true | _ => false end)
                      [u "schema_version"; u "manifest_sha256"; u "manifest"]))
      (ValueError (u "absent prior has manifest metadata")).

Definition _validate_effective (value : pyval) : result unit :=
  let? d := plan_object value [u "bash"; u "autostart"; u "chooser"] (u "effective") in
  rforeach (fun kv => _exact_bool kv.2 (u "effective " ++ kv.1) ;? Ok tt) d.

Definition _validate_rollback (value : pyval) : result unit :=
  unless_none value (fun value =>
    let? d := plan_object value BEFORE_KEYS (u "rollback") in
    let get k := dict_get_none d k in
    _canonical_path (get (u "path")) (u "rollback path") ;?
    require_in (get (u "kind")) [u "absent"; u "file"; u "symlink"] (u "rollback kind") ;?
    raise_if (negb (is_int_or_none (get (u "mode")))) (invalid (u "rollback mode")) ;?
    unless_none (get (u "literal_target")) (fun v => _exact_string v (u "rollback target") ;? Ok tt) ;?
    unless_none (get (u "content")) (fun v => _exact_string v (u "rollback content") ;? Ok tt) ;?
    unless_none (get (u "content_sha256")) (fun v => _validate_hash v (u "rollback content"))).

Definition ACTION_KEYS : list pystr :=
  [u "sequence"; u "kind"; u "disposition"; u "path_or_token"; u "mode"; u "literal_target"; u "content_sha256";
   u "prerequisite"; u "rollback"].
Definition ACTION_KINDS : list pystr :=
  [u "source-build"; u "wheel-build"; u "delegate-staging"; u "generation-staging"; u "generation-self-check";
   u "activation-link"; u "command-link"; u "bash"; u "autostart"; u "chooser"; u "manifest"; u "rollback"; u "cleanup"].
Definition DISPOSITIONS : list pystr := [u "create"; u "replace"; u "remove"; u "preserve"; u "skip"].

(** [Path(str(request[name]))] *)
Definition request_path (request : pydict) (name : pystr) : posix_path := parse_path (py_format (dict_get_none request name)).
Definition plan_current (request : pydict) : posix_path := path_join (request_path request (u "xdg_data_home")) (u "termrecall/current").

(** The link [path] of a command and what it must lead to. *)
Definition expected_link (request : pydict) (path : pyval) : option pystr :=
  snd <$> find (fun kv => py_eqb path (VStr kv.1))
    (map (fun name => (path_str (path_join (path_join (request_path request (u "home")) (u ".local/bin")) name),
                       path_str (path_join (plan_current request) (u "venv/bin/" ++ name)))) command_names).

Definition _validate_action (value : pyval) (sequence : Z) (request : pydict) : result unit :=
  let? d := plan_object value ACTION_KEYS (u "action") in
  let get k := dict_get_none d k in
  raise_if (negb (py_eqb (get (u "sequence")) (VInt sequence))) (invalid (u "action keys or sequence")) ;?
  require_in (get (u "kind")) ACTION_KINDS (u "action type") ;?
  require_in (get (u "disposition")) DISPOSITIONS (u "action type") ;?
  let? token := in_strings (get (u "path_or_token")) [u "$BUILD_ROOT"; u "$GENERATION_STAGE"] in
  (if token then Ok tt else _canonical_path (get (u "path_or_token")) (u "action path") ;? Ok tt) ;?
  raise_if (negb (is_int_or_none (get (u "mode")))) (invalid (u "action mode")) ;?
  unless_none (get (u "literal_target")) (fun v => _exact_string v (u "action target") ;? Ok tt) ;?
  unless_none (get (u "content_sha256")) (fun v => _validate_hash v (u "action content")) ;?
  unless_none (get (u "prerequisite")) (fun v => _exact_string v (u "action prerequisite") ;? Ok tt) ;?
  _validate_rollback (get (u "rollback")) ;?
  raise_if (py_eqb (get (u "kind")) (VStr (u "command-link")) &&
            match expected_link request (get (u "path_or_token")) with
            | Some target => negb (py_eqb (get (u "literal_target")) (VStr target))
            | None => true
            end)
    (invalid (u "command link target")) ;?
  raise_if (py_eqb (get (u "kind")) (VStr (u "activation-link")) &&
            (negb (py_eqb (get (u "path_or_token")) (VStr (path_str (plan_current request)))) ||
             negb (py_eqb (get (u "literal_target")) (VStr (u "$GENERATION_STAGE")))))
    (invalid (u "current activation target")).

Definition _validate_lock (value : pyval) (request : pydict) : result unit :=
  let? d := plan_object value LOCK_KEYS (u "lock plan") in
  let get k := dict_get_none d k in
  let config_root := path_join (request_path request (u "xdg_config_home")) (u "termrecall") in
  raise_if (negb (py_eqb (get (u "directory_path")) (VStr (path_str config_root))) ||
            negb (py_eqb (get (u "lock_path")) (VStr (path_str (path_join config_root (u "lifecycle.lock"))))))
    (invalid (u "lock plan paths")) ;?
  rforeach (fun name => raise_if (match get name with VBool _ => false | _ => true end) (invalid (u "lock plan boolean")))
    [u "directory_absent"; u "lock_absent"; u "may_create_directory"; u "may_create_lock"] ;?
  raise_if (negb (py_eqb (get (u "may_create_directory")) (get (u "directory_absent"))) ||
            negb (py_eqb (get (u "may_create_lock")) (get (u "lock_absent"))))
    (ValueError (u "lock plan absence and creation permission disagree")) ;?
  raise_if (match get (u "directory_mode"), get (u "lock_mode") with
            | VInt a, VInt b => negb (a =? 0x1C0) || negb (b =? 0x180)
            | _, _ => true
            end) (invalid (u "lock plan modes")).

Fixpoint validate_actions (actions : list pyval) (sequence : Z) (request : pydict) : result unit :=
  match actions with
  | [] => Ok tt
  | a :: rest => _validate_action a sequence request ;? validate_actions rest (sequence + 1) request
  end.

Section Reading.
Context (rec_limit : nat).

Definition _load (raw : pybytes) : result pyval :=
  raise_if (MAX_PAYLOAD_BYTES <? len raw) (ValueError (u "payload exceeds 65,536 bytes")) ;?
  let? value := load_object rec_limit raw (u "invalid JSON payload") in
  let? again := _canonical_json value in
  raise_if (negb (bool_decide (again = raw))) (ValueError (u "payload is not canonical JSON")) ;?
  Ok value.

Definition plan_from_bytes (raw : pybytes) (expected_request : pydict) : result pydict :=
  let? value := _load raw in
  let? d := plan_object value PLAN_KEYS (u "plan") in
  let get k := dict_get_none d k in
  raise_if (negb (py_eqb (get (u "probe_schema")) (VInt PROBE_SCHEMA)) || negb (py_eqb (get (u "plan_schema")) (VInt PLAN_SCHEMA)))
    (ValueError (u "unknown probe or plan schema")) ;?
  let? request := _validate_request (get (u "request")) in
  let? expected := _validate_request (VDict expected_request) in
  raise_if (negb (py_eqb (VDict request) (VDict expected))) (ValueError (u "plan request does not match expected request")) ;?
  _validate_prerequisites (get (u "prerequisites")) ;?
  _validate_source (get (u "source")) request ;?
  _validate_prior (get (u "prior")) ;?
  _validate_effective (get (u "effective")) ;?
  let? actions := match get (u "actions") with VList l => Ok l | _ => Err (invalid (u "actions")) end in
  raise_if (64 <? len actions) (invalid (u "actions")) ;?
  validate_actions actions 1 request ;?
  _validate_lock (get (u "lock_infrastructure")) request ;?
  _validate_hash (get (u "state_fingerprint")) (u "state fingerprint") ;?
  _validate_hash (get (u "plan_digest")) (u "plan digest") ;?
  let? rendered := render_plan d in
  raise_if (negb (py_eqb (get (u "rendered")) (VStr rendered))) (ValueError (u "rendered plan disagrees with plan")) ;?
  let? digest := compute_plan_digest d in
  raise_if (negb (py_eqb (get (u "plan_digest")) (VStr digest))) (ValueError (u "plan digest disagrees with plan")) ;?
  Ok d.

(** ** The plan as the lifecycle code has it *)
Record ProbeAction := mkAction {
  pa_sequence : pyval;
  pa_kind : pyval;
  pa_disposition : pyval;
  pa_path_or_token : pyval;
  pa_mode : pyval;
  pa_literal_target : pyval;
  pa_content_sha256 : pyval;
  pa_prerequisite : pyval;
  pa_rollback : option BeforeImage;
}.

Record ProbePlan := mkProbePlan {
  pp_request : pydict;
  pp_prior : option InstallManifest;   (* [ProbePrior]: present, with the manifest *)
  pp_actions : list ProbeAction;
  pp_lock : LockInfrastructurePlan;
  pp_state_fingerprint : pystr;
  pp_plan_digest : pystr;
}.

Definition probe_action (value : pyval) : result ProbeAction :=
  let? d := as_dict value (u "action") in
  let get k := dict_get_none d k in
  let? rollback := match get (u "rollback") with VNone => Ok None | v => let? b := _decode_before v in Ok (Some b) end in
  Ok (mkAction (get (u "sequence")) (get (u "kind")) (get (u "disposition")) (get (u "path_or_token")) (get (u "mode"))
        (get (u "literal_target")) (get (u "content_sha256")) (get (u "prerequisite")) rollback).

Definition as_bool (v : pyval) : bool := match v with VBool b => b | _ => false end.
Definition as_int (v : pyval) : Z := match v with VInt z => z | _ => 0 end.
Definition as_str (v : pyval) : pystr := match v with VStr s => s | _ => [] end.

(** [LockInfrastructurePlan] of the validated dict. *)
Definition lock_plan (value : pyval) : result LockInfrastructurePlan :=
  let? d := as_dict value (u "lock plan") in
  let get k := dict_get_none d k in
  Ok (mkLockPlan (parse_path (as_str (get (u "directory_path")))) (parse_path (as_str (get (u "lock_path"))))
        (as_bool (get (u "directory_absent"))) (as_bool (get (u "lock_absent"))) (as_bool (get (u "may_create_directory")))
        (as_bool (get (u "may_create_lock"))) (as_int (get (u "directory_mode"))) (as_int (get (u "lock_mode")))).

Definition request_env (request : pydict) (name : pystr) : option pystr :=
  if str_eqb name (u "XDG_DATA_HOME") then Some (as_str (dict_get_none request (u "xdg_data_home")))
  else if str_eqb name (u "XDG_CONFIG_HOME") then Some (as_str (dict_get_none request (u "xdg_config_home")))
  else if str_eqb name (u "XDG_STATE_HOME") then Some (as_str (dict_get_none request (u "xdg_state_home")))
  else None.

Definition probe_plan_from_bytes (raw : pybytes) (expected_request : pydict) : result ProbePlan :=
  let? value := plan_from_bytes raw expected_request in
  let get k := dict_get_none value k in
  let? request := as_dict (get (u "request")) (u "request") in
  let? paths := resolve_lifecycle_paths (request_env request) (parse_path (as_str (dict_get_none request (u "home")))) in
  let? prior_raw := as_dict (get (u "prior")) (u "prior") in
  let? prerequisites := as_dict (get (u "prerequisites")) (u "prerequisites") in
  let? prior :=
    (if as_bool (dict_get_none prior_raw (u "present")) then
       let? manifest_raw := _canonical_json (dict_get_none prior_raw (u "manifest")) in
       let? m := manifest_from_bytes rec_limit manifest_raw paths (as_int (dict_get_none prerequisites (u "uid"))) in
       Ok (Some m)
     else Ok None) in
  let? actions := match get (u "actions") with VList l => rmap probe_action l | _ => Ok [] end in
  let? lock := lock_plan (get (u "lock_infrastructure")) in
  Ok (mkProbePlan request prior actions lock (as_str (get (u "state_fingerprint"))) (as_str (get (u "plan_digest")))).
End Reading.
