(* ===== verification/Lifecycle.v ===== *)
(** * The lifecycle controller ([lifecycle.py])

    The transactions that install, reconfigure and uninstall: [execute_setup],
    [execute_integration_setup] and [execute_uninstall], with their rollbacks.
    What a transaction notes in its local variables for the rollback is a
    [Progress] next to the file system, so it is there whatever was raised. *)
From S2P Require Import Prelude PyText PyVal PyFloat Json Codec Model Contract Effect Files LifecycleFs Integrations Probe.
#[local] Open Scope eff_scope.

(** ** Failure injection *)
Inductive FailurePoint :=
| AFTER_STAGE_DIR | AFTER_VENV | AFTER_WHEEL | AFTER_SELF_CHECK | AFTER_GENERATION_RENAME | AFTER_BASH | AFTER_AUTOSTART
| AFTER_CHOOSER | AFTER_COMMAND_LINK | AFTER_CURRENT_LINK | AFTER_QUARANTINE | AFTER_MANIFEST | DURING_ROLLBACK
| DURING_POSTCOMMIT_CLEANUP.
#[export] Instance FailurePoint_eq_dec : EqDecision FailurePoint.
Proof. solve_decision. Defined.

Definition FailureInjector : Type := list FailurePoint.
Definition NO_FAILURE : FailureInjector := [].
Definition inject {S} (injector : FailureInjector) (point : FailurePoint) : eff S unit :=
  eguard (bool_decide (point ∈ injector)) InjectedFailure.

Definition lifecycle_error {A} (e : LifecycleExit) : io A := eraise (LifecycleError (exit_code e)).

(** ** The semantic fingerprint *)
Definition _fact (path : posix_path) : io pyval :=
  do! found := if_present (os_lstat path) in
  match found with
  | None => eret (VDict [(u "path", VStr (path_str path)); (u "kind", VStr (u "absent"))])
  | Some st =>
      if S_ISLNK st then
        do! target := os_readlink path in
        eret (VDict [(u "path", VStr (path_str path)); (u "kind", VStr (u "symlink")); (u "mode", VInt (st_mode st));
                     (u "target", VStr target)])
      else
        let fact :=
          [(u "path", VStr (path_str path)); (u "kind", VStr (if S_ISREG st then u "file" else u "directory"));
           (u "mode", VInt (st_mode st)); (u "uid", VInt (st_uid st)); (u "size", VInt (st_size st))] in
        if S_ISREG st then
          (if _MAX_READ_BYTES <? st_size st then lifecycle_error REFUSED else eret tt) ;;
          do! raw := read_bytes path in
          eret (VDict (fact ++ [(u "sha256", VStr (Sha256.hexdigest raw))]))
        else eret (VDict fact)
  end.

Definition _semantic_paths (paths : LifecyclePaths) : list posix_path :=
  [manifest paths; current paths] ++ command_links paths ++
  [bashrc paths; bash_integration paths; autostart paths; chooser paths; state_root paths].

Definition semantic_state_fingerprint (paths : LifecyclePaths) : io pystr :=
  do! facts := emap _fact (_semantic_paths paths) in elift (_sha256 (VList facts)).

(** ** Revalidation of the plan *)
Definition _canonical_request (request : SetupRequest) (paths : LifecyclePaths) : pydict :=
  [(u "request_schema", VInt 1); (u "source_root", VStr (path_str (sr_source_root request)));
   (u "home", VStr (path_str (home paths))); (u "xdg_data_home", VStr (path_str (xdg_data_home paths)));
   (u "xdg_config_home", VStr (path_str (xdg_config_home paths))); (u "xdg_state_home", VStr (path_str (xdg_state_home paths)));
   (u "mode", VStr (enum_value (sr_mode request))); (u "bash", VStr (enum_value (sr_bash request)));
   (u "autostart", VStr (enum_value (sr_autostart request))); (u "chooser", VStr (enum_value (sr_chooser request)));
   (u "dry_run", VBool (sr_dry_run request))].

Definition revalidate_probe_plan_locked (plan : ProbePlan) (paths : LifecyclePaths) (directory_fd lock_fd uid : Z) : io unit :=
  do! fresh := semantic_state_fingerprint paths in
  (if str_eqb fresh (pp_state_fingerprint plan) then eret tt else lifecycle_error REFUSED) ;;
  validate_lock_infrastructure (pp_lock plan) directory_fd lock_fd uid.

(** ** Mutations *)
Definition _safe_remove (path : posix_path) : io unit :=
  ecatch (os_unlink path)
    (fun e => if bool_decide (e = OSError ENOENT) then eret tt
              else if bool_decide (e = OSError EISDIR) then unsafe else eraise e).

(** What a directory of the installer must be. *)
Definition check_installer_dir (path : posix_path) (uid : Z) : io unit :=
  do! st := os_lstat path in
  refuse (negb (S_ISDIR st) || negb (st_uid st =? uid) || negb (st_mode st =? 0x1C0) || others_write st).

Definition _ensure_installer_dir (path : posix_path) (uid : Z) : io unit :=
  do! there := lexists path in
  (if there then eret tt
   else mkdir_p true path 0x1C0 ;; ecatch (os_chmod path 0x1C0) (on_os_error (eret tt))) ;;
  check_installer_dir path uid.

(** The missing ancestors, the lowest first. *)
Fixpoint missing_ancestors (fuel : nat) (cur : posix_path) : io (list posix_path) :=
  match fuel with
  | O => eret []
  | S fuel' =>
      do! there := lexists cur in
      if there || bool_decide (path_parent cur = cur) then eret []
      else do! above := missing_ancestors fuel' (path_parent cur) in eret (cur :: above)
  end.

Definition create_parent (uid : Z) (d : posix_path) : io unit :=
  ecatch (os_mkdir d 0x1C0) (fun e => if bool_decide (e = OSError EEXIST) then eret tt else eraise e) ;;
  check_installer_dir d uid.

Definition _ensure_parent (path : posix_path) (uid : Z) : io unit :=
  let parent := path_parent path in
  do! there := lexists parent in
  if there then eret tt
  else
    do! stack := missing_ancestors (S (length (path_tail parent))) parent in
    eforeach (create_parent uid) (rev stack).

Definition _apply_mutation (mutation : PlannedMutation) (uid : Z) : io unit :=
  let after := pm_after mutation in
  match bi_kind after with
  | FILE =>
      _ensure_parent (pm_path mutation) uid ;;
      atomic_write (pm_path mutation) (default [] (bi_content after)) (mode_or (bi_mode after) 0x180) uid
  | ABSENT => _safe_remove (pm_path mutation)
  | SYMLINK =>
      _ensure_parent (pm_path mutation) uid ;;
      atomic_symlink (pm_path mutation) (default [] (bi_target after)) uid
  end.

(** ** Staging *)
Definition marker_options : dump_options := {| ensure_ascii := true; allow_nan := true |}.
Definition marker_value (generation : posix_path) (install_id generation_id nonce : pystr) : pyval :=
  VDict [(u "schema", VInt 2); (u "install_id", VStr install_id); (u "generation_id", VStr generation_id);
         (u "path", VStr (path_str generation)); (u "nonce", VStr nonce)].
Definition marker_text (generation : posix_path) (install_id generation_id nonce : pystr) : result pybytes :=
  let? text := json_dumps marker_options (sorted_keys (marker_value generation install_id generation_id nonce)) in
  let? raw := utf8_encode text in
  Ok (raw ++ [10]).
Definition _marker_bytes (generation : posix_path) (install_id generation_id : pystr) : io pybytes :=
  do! nonce := token_hex in elift (marker_text generation install_id generation_id nonce).

Definition script_text : pybytes := u "#!/bin/sh" ++ [10] ++ u "echo ok" ++ [10].
Definition _make_venv_bin (stage : posix_path) : io unit :=
  let venv_bin := path_join stage (u "venv/bin") in
  mkdir_p false venv_bin 0x1C0 ;;
  eforeach (fun name => write_bytes (path_join venv_bin name) script_text ;; os_chmod (path_join venv_bin name) 0x1ED) command_names.

Definition check_executable (venv_bin : posix_path) (uid : Z) (name : pystr) : io unit :=
  do! st := ecatch (os_lstat (path_join venv_bin name)) (on_missing (lifecycle_error REFUSED)) in
  if S_ISLNK st || negb (S_ISREG st) || negb (st_uid st =? uid) || negb (st_mode st =? 0x1ED)
  then lifecycle_error REFUSED else eret tt.

Section Lifecycle.
Context (rec_limit depth : nat).

(** [json.loads(raw.decode("utf-8"))], [None] for what is not JSON text. *)
Definition plain_json (raw : pybytes) : result (option pyval) :=
  match (let? text := utf8_decode false raw in json_loads plain_hook rec_limit text) with
  | Ok value => Ok (Some value)
  | Err UnicodeError | Err JSONDecodeError => Ok None
  | Err e => Err e
  end.

Definition staged_self_check (generation : posix_path) (uid : Z) : io unit :=
  let marker := path_join generation MARKER_NAME in
  do! st := ecatch (os_lstat marker) (on_missing (lifecycle_error REFUSED)) in
  (if negb (S_ISREG st) || negb (st_uid st =? uid) || negb (st_mode st =? 0x180) then lifecycle_error REFUSED else eret tt) ;;
  do! raw := read_bytes marker in
  do! value := elift (plain_json raw) in
  (match value with
   | Some (VDict d) => if py_eqb (dict_get_none d (u "schema")) (VInt 2) then eret tt else lifecycle_error REFUSED
   | _ => lifecycle_error REFUSED
   end) ;;
  let venv_bin := path_join generation (u "venv/bin") in
  do! there := is_dir_path venv_bin in
  (if there then eret tt else lifecycle_error REFUSED) ;;
  eforeach (check_executable venv_bin uid) command_names.

Definition _structural_remove_dir (root : posix_path) (uid : Z) : io unit :=
  do! found := if_present (os_lstat root) in
  match found with
  | None => eret tt
  | Some st =>
      refuse (negb (S_ISDIR st)) ;;
      do! names := os_listdir_path root in
      delete_tree_structural depth root (_identity st) (mkPolicy (st_dev st) uid names true)
  end.

(** ** The manifest of an installation *)
Definition owned_mutation (mutation : PlannedMutation) : option OwnedObject :=
  let after := pm_after mutation in
  match bi_kind after with
  | FILE => Some (mkOwned (path_str (pm_path mutation)) FILE (mode_or (bi_mode after) 0x180) (bi_sha256 after) None)
  | _ => None
  end.

Definition owned_links (paths : LifecyclePaths) (generation : posix_path) : list OwnedObject :=
  mkOwned (path_str (current paths)) SYMLINK 0x1FF None (Some (path_str generation)) ::
  map (fun link => mkOwned (path_str link) SYMLINK 0x1FF None (Some (path_str (command_target paths link)))) (command_links paths).

Definition _build_install_manifest (paths : LifecyclePaths) (request : SetupRequest) (generation_id install_id : pystr)
    (plan : IntegrationPlan) (before_links : list BeforeImage) (before_current before_manifest : BeforeImage) (uid : Z)
  : io InstallManifest :=
  let generation := path_join (generations paths) generation_id in
  let marker_path := path_join generation MARKER_NAME in
  do! raw_marker := read_bytes marker_path in
  do! integration :=
    (if bool_decide (sr_bash request = ENABLE) then
       do! there := exists_path (bash_integration paths) in
       if there then
         do! content := read_bytes (bash_integration paths) in
         eret [mkOwned (path_str (bash_integration paths)) FILE 0x180 (Some (Sha256.hexdigest content)) None]
       else eret []
     else eret []) in
  eret (mkManifest 2 (u "1.0") (u "0.1.0") install_id generation_id (expected_roots paths uid)
    (mkMarker (path_str marker_path) (Sha256.hexdigest raw_marker) 0x180)
    (owned_links paths generation ++ omap owned_mutation (ip_autostart plan ++ ip_chooser plan) ++ integration)
    [] (negb (bool_decide (ip_bash plan = [])) && negb (bool_decide (sr_bash request = DISABLE)))
    (bool_decide (sr_autostart request = ENABLE)) (ip_chooser_ownership plan)
    (before_current :: before_links ++ [before_manifest]) (ip_bash_backup plan)).

(** ** Setup *)

(** The images a setup takes before it changes anything. *)
Record SetupImages := mkImages { si_current : BeforeImage; si_links : list BeforeImage; si_manifest : BeforeImage }.

(** What the rollback restores, in its order. *)
Definition setup_restores (images : SetupImages) (plan : IntegrationPlan) : list BeforeImage :=
  si_manifest images :: si_current images :: rev (si_links images) ++ rev (map pm_before (all_mutations plan)).

Definition remove_stage (stage_path : option posix_path) (uid : Z) : io unit :=
  match stage_path with
  | Some s => do! there := exists_path s in if there then _structural_remove_dir s uid else eret tt
  | None => eret tt
  end.

Definition remove_generation (g : posix_path) (uid : Z) : io unit :=
  do! raw := read_bytes (path_join g MARKER_NAME) in
  verified_delete_generation depth rec_limit g
    (mkMarker (path_str (path_join g MARKER_NAME)) (Sha256.hexdigest raw) 0x180) uid.

Definition remove_staged (generation_path stage_path : option posix_path) (uid : Z) : io unit :=
  match generation_path with
  | Some g => do! there := exists_path g in if there then remove_generation g uid else remove_stage stage_path uid
  | None => remove_stage stage_path uid
  end.

Definition _rollback_setup (images : SetupImages) (plan : IntegrationPlan) (generation_path stage_path : option posix_path)
    (uid : Z) (injector : FailureInjector) : io LifecycleExit :=
  ecatch
    (inject injector DURING_ROLLBACK ;;
     eforeach (fun before => restore_before before uid) (setup_restores images plan) ;;
     remove_staged generation_path stage_path uid ;;
     eret ROLLED_BACK)
    (fun _ => eret ROLLBACK_INCOMPLETE).

(** Local variables of a transaction. *)
Record Progress := mkProgress {
  pr_generation : option posix_path;
  pr_stage : option posix_path;
  pr_quarantined : option QuarantinedTree;
  pr_mutations : list BeforeImage;        (* what was changed, latest last *)
  pr_committed : bool;
}.
Definition no_progress : Progress := mkProgress None None None [] false.
Definition transaction (A : Type) : Type := eff (world * Progress) A.

Definition disk {A} (m : io A) : transaction A := fun '(w, p) => let '(r, w') := m w in (r, (w', p)).
Definition note (f : Progress -> Progress) : transaction unit := fun '(w, p) => (Ok tt, (w, f p)).
Definition set_generation (g : posix_path) (p : Progress) : Progress :=
  mkProgress (Some g) (pr_stage p) (pr_quarantined p) (pr_mutations p) (pr_committed p).
Definition set_stage (s : option posix_path) (p : Progress) : Progress :=
  mkProgress (pr_generation p) s (pr_quarantined p) (pr_mutations p) (pr_committed p).
Definition set_quarantined (q : QuarantinedTree) (p : Progress) : Progress :=
  mkProgress (pr_generation p) (pr_stage p) (Some q) (pr_mutations p) (pr_committed p).
Definition add_mutation (b : BeforeImage) (p : Progress) : Progress :=
  mkProgress (pr_generation p) (pr_stage p) (pr_quarantined p) (pr_mutations p ++ [b]) (pr_committed p).
Definition set_committed (p : Progress) : Progress :=
  mkProgress (pr_generation p) (pr_stage p) (pr_quarantined p) (pr_mutations p) true.

(** Steps 1 to 5: the generation is staged, checked and renamed. *)
Definition stage_generation (paths : LifecyclePaths) (generation_id install_id : pystr) (uid : Z) (injector : FailureInjector)
  : transaction unit :=
  let stage_path := path_join (generations paths) (u ".stage-" ++ generation_id) in
  let generation_path := path_join (generations paths) generation_id in
  let installed := path_join stage_path (u "venv/lib/.installed") in
  let marker_file := path_join stage_path MARKER_NAME in
  disk (os_mkdir stage_path 0x1C0) ;;
  inject injector AFTER_STAGE_DIR ;;
  disk (_make_venv_bin stage_path) ;;
  inject injector AFTER_VENV ;;
  disk (mkdir_with true (eraise (OSError ENOENT)) (path_join stage_path (u "venv/lib")) 0x1C0 ;;
       do! encoded := elift (utf8_encode install_id) in
       write_bytes installed encoded ;;
       os_chmod installed 0x180) ;;
  inject injector AFTER_WHEEL ;;
  disk (do! marker_raw := _marker_bytes generation_path install_id generation_id in
       write_bytes marker_file marker_raw ;;
       os_chmod marker_file 0x180 ;;
       staged_self_check stage_path uid) ;;
  inject injector AFTER_SELF_CHECK ;;
  note (set_generation generation_path) ;;
  disk (os_rename_path stage_path generation_path) ;;
  note (set_stage None) ;;
  inject injector AFTER_GENERATION_RENAME.

(** The backup of [.bashrc], written once. *)
Definition write_backup (paths : LifecyclePaths) (plan : IntegrationPlan) (uid : Z) : io unit :=
  match ip_bash_backup plan with
  | None => eret tt
  | Some _ =>
      do! there := exists_path (backup_path paths) in
      if there then eret tt
      else
        mkdir_p true (config_root paths) 0x1FF ;;
        atomic_write (backup_path paths)
          (match ip_bash plan with m :: _ => default [] (bi_content (pm_before m)) | [] => [] end) 0x180 uid
  end.

Definition apply_mutations (mutations : list PlannedMutation) (uid : Z) : io unit :=
  eforeach (fun m => _apply_mutation m uid) mutations.

(** Steps 6 to 11: integrations, links, and the manifest that commits. *)
Definition activate (paths : LifecyclePaths) (request : SetupRequest) (generation_id install_id : pystr)
    (plan : IntegrationPlan) (images : SetupImages) (uid : Z) (injector : FailureInjector) : transaction unit :=
  disk (write_backup paths plan uid ;; apply_mutations (ip_bash plan) uid) ;;
  inject injector AFTER_BASH ;;
  disk (apply_mutations (ip_autostart plan) uid) ;;
  inject injector AFTER_AUTOSTART ;;
  disk (apply_mutations (ip_chooser plan) uid) ;;
  inject injector AFTER_CHOOSER ;;
  disk (eforeach (fun link => atomic_symlink link (path_str (command_target paths link)) uid) (command_links paths)) ;;
  inject injector AFTER_COMMAND_LINK ;;
  disk (atomic_symlink (current paths) (path_str (path_join (generations paths) generation_id)) uid) ;;
  inject injector AFTER_CURRENT_LINK ;;
  disk (do! m := _build_install_manifest paths request generation_id install_id plan (si_links images) (si_current images)
                 (si_manifest images) uid in
       mkdir_p true (path_parent (manifest paths)) 0x1FF ;;
       do! raw := elift (manifest_to_bytes m) in
       atomic_write (manifest paths) raw 0x180 uid) ;;
  inject injector AFTER_MANIFEST ;;
  note set_committed.

(** One entry of the generations directory. *)
Definition cleanup_generation (paths : LifecyclePaths) (current_generation_id : pystr) (uid : Z) (name : pystr) : io unit :=
  if str_eqb name current_generation_id || is_prefix [46] name then eret tt
  else
    let entry := path_join (generations paths) name in
    let marker_path := path_join entry MARKER_NAME in
    do! there := exists_path marker_path in
    if negb there then eret tt
    else
      ecatch
        (do! raw := read_bytes marker_path in
         do! text := elift (utf8_decode false raw) in
         do! value := elift (json_loads plain_hook rec_limit text) in
         let gen_id := match value with VDict d => dict_get_none d (u "generation_id") | _ => VNone end in
         if py_truth gen_id && negb (py_eqb gen_id (VStr current_generation_id))
         then verified_delete_generation depth rec_limit entry
                (mkMarker (path_str marker_path) (Sha256.hexdigest raw) 0x180) uid
         else eret tt)
        (fun _ => eret tt).

Definition _cleanup_superseded_generations (paths : LifecyclePaths) (current_generation_id : pystr) (uid : Z) : io unit :=
  do! there := exists_path (generations paths) in
  if negb there then eret tt
  else
    do! names := os_listdir_path (generations paths) in
    eforeach (cleanup_generation paths current_generation_id uid) names.

(** Whatever a step after the commit raises is a warning. *)
Definition or_warning (m : io unit) : io LifecycleExit := ecatch (m ;; eret OK) (fun _ => eret WARNING).

Definition _execute_setup_locked (prior : option InstallManifest) (request : SetupRequest) (paths : LifecyclePaths)
    (uid : Z) (injector : FailureInjector) : io LifecycleExit :=
  do! plan := plan_integrations request paths prior uid in
  do! before_current := capture_before (current paths) uid in
  do! before_links := emap (fun link => capture_before link uid) (command_links paths) in
  do! before_manifest := capture_before (manifest paths) uid in
  let images := mkImages before_current before_links before_manifest in
  _ensure_installer_dir (data_root paths) uid ;;
  _ensure_installer_dir (generations paths) uid ;;
  do! generation_id := token_hex in
  do! install_id := match prior with
    | Some m => if bool_decide (im_install_id m = []) then do! t := token_hex in eret (u "install-" ++ t) else eret (im_install_id m)
    | None => do! t := token_hex in eret (u "install-" ++ t)
    end in
  fun w =>
    let start := set_stage (Some (path_join (generations paths) (u ".stage-" ++ generation_id))) no_progress in
    match (stage_generation paths generation_id install_id uid injector ;;
           activate paths request generation_id install_id plan images uid injector) (w, start) with
    | (Ok _, (w', _)) =>
        or_warning (inject injector DURING_POSTCOMMIT_CLEANUP ;; _cleanup_superseded_generations paths generation_id uid) w'
    | (Err _, (w', p)) => _rollback_setup images plan (pr_generation p) (pr_stage p) uid injector w'
    end.

(** [except LifecycleError: return REFUSED] *)
Definition on_lifecycle_error (h : io LifecycleExit) (e : exn) : io LifecycleExit :=
  match e with LifecycleError _ => h | _ => eraise e end.
Definition is_unsafe_or_os (e : exn) : bool := match e with UnsafeLifecyclePath => true | _ => is_os_error e end.

(** [source_probe] is the exit status and the output of the probe run anew. *)
Definition _run_source_probe (source_probe : io (Z * pybytes)) (request : SetupRequest) (paths : LifecyclePaths) : io ProbePlan :=
  do! '(status, output) := source_probe in
  (if status =? 0 then eret tt else lifecycle_error REFUSED) ;;
  elift (probe_plan_from_bytes rec_limit output (_canonical_request request paths)).

Definition execute_setup (source_probe : io (Z * pybytes)) (plan : ProbePlan) (request : SetupRequest)
    (paths : LifecyclePaths) (uid : Z) (injector : FailureInjector) : io LifecycleExit :=
  do! fresh := ecatch (do! p := _run_source_probe source_probe request paths in eret (Some p))
                 (fun e => match e with LifecycleError _ => eret None | _ => eraise e end) in
  match fresh with
  | None => eret REFUSED
  | Some fresh =>
      if negb (str_eqb (pp_plan_digest fresh) (pp_plan_digest plan)) then eret REFUSED
      else
        do! opened := ecatch (do! fds := open_lock_infrastructure (pp_lock plan) uid in eret (Some fds))
                        (fun e => if is_unsafe_or_os e then eret None else eraise e) in
        match opened with
        | None => eret REFUSED
        | Some (dir_fd, lock_fd) =>
            acquire_lifecycle_lock lock_fd
              (do! valid := ecatch (revalidate_probe_plan_locked plan paths dir_fd lock_fd uid ;; eret true)
                              (fun e => match e with LifecycleError _ => eret false | _ => eraise e end) in
               if valid then _execute_setup_locked (pp_prior plan) request paths uid injector else eret REFUSED)
        end
  end.

(** ** Integration setup *)
Definition _read_prior_manifest (paths : LifecyclePaths) (uid : Z) : io InstallManifest :=
  do! there := exists_path (manifest paths) in
  (if there then eret tt else lifecycle_error REFUSED) ;;
  do! raw := read_bytes (manifest paths) in
  elift (manifest_from_bytes rec_limit raw paths uid).

(** The fields of a manifest that a reconfiguration changes. *)
Definition updated_manifest (prior : InstallManifest) (owned : list OwnedObject) (bash_enabled autostart_enabled : bool)
    (chooser : ChooserOwnership) (bash_backup : option OwnedObject) : InstallManifest :=
  mkManifest (im_schema_version prior) (im_installer_version prior) (im_application_version prior) (im_install_id prior)
    (im_generation_id prior) (im_roots prior) (im_marker prior) owned (im_created_parents prior) bash_enabled autostart_enabled
    chooser (im_rollback_images prior) bash_backup.

Definition new_flag (state : DesiredState) (prior : bool) : bool :=
  if bool_decide (state = PRESERVE) then prior else bool_decide (state = ENABLE).

Definition _rewrite_integration_manifest (prior : InstallManifest) (plan : IntegrationPlan) (request : IntegrationSetupRequest)
  : InstallManifest :=
  updated_manifest prior (im_owned prior) (new_flag (ir_bash request) (im_bash_enabled prior))
    (new_flag (ir_autostart request) (im_autostart_enabled prior))
    (if co_changed (ip_chooser_ownership plan) then ip_chooser_ownership plan else im_chooser prior)
    (match ip_bash_backup plan with Some b => Some b | None => im_bash_backup prior end).

Definition existing_lock_plan (paths : LifecyclePaths) : io LockInfrastructurePlan :=
  do! d1 := exists_path (config_root paths) in
  do! l1 := exists_path (lifecycle_lock paths) in
  do! d2 := exists_path (config_root paths) in
  do! l2 := exists_path (lifecycle_lock paths) in
  eret (mkLockPlan (config_root paths) (lifecycle_lock paths) (negb d1) (negb l1) (negb d2) (negb l2) 0x1C0 0x180).

(** Each mutation is noted once it was made. *)
Definition apply_noted (uid : Z) (m : PlannedMutation) : transaction unit :=
  disk (_apply_mutation m uid) ;; note (add_mutation (pm_before m)).

Definition integration_body (prior : InstallManifest) (plan : IntegrationPlan) (request : IntegrationSetupRequest)
    (paths : LifecyclePaths) (uid : Z) (injector : FailureInjector) : transaction unit :=
  eforeach (apply_noted uid) (all_mutations plan) ;;
  inject injector AFTER_BASH ;;
  disk (do! raw := elift (manifest_to_bytes (_rewrite_integration_manifest prior plan request)) in
       atomic_write (manifest paths) raw 0x180 uid) ;;
  note set_committed.

(** After an injected failure an error of the restoration escapes; otherwise it is
    ignored. *)
Definition rollback_integration (e : exn) (p : Progress) (uid : Z) : io LifecycleExit :=
  match e with
  | InjectedFailure =>
      if pr_committed p then eret WARNING
      else eforeach (fun before => restore_before before uid) (rev (pr_mutations p)) ;; eret ROLLED_BACK
  | _ =>
      eforeach (fun before => ecatch (restore_before before uid) (fun _ => eret tt)) (rev (pr_mutations p)) ;; eret ROLLED_BACK
  end.

Definition run_integration (prior : InstallManifest) (plan : IntegrationPlan) (request : IntegrationSetupRequest)
    (paths : LifecyclePaths) (uid : Z) (injector : FailureInjector) : io LifecycleExit := fun w =>
  match all_mutations plan with
  | [] => (Ok OK, w)
  | _ =>
      match integration_body prior plan request paths uid injector (w, no_progress) with
      | (Ok _, (w', _)) => (Ok OK, w')
      | (Err e, (w', p)) => rollback_integration e p uid w'
      end
  end.

Definition execute_integration_setup (request : IntegrationSetupRequest) (paths : LifecyclePaths) (uid : Z)
    (injector : FailureInjector) : io LifecycleExit :=
  elift (validate_integration_setup_request request) ;;
  do! planned := ecatch
    (do! prior := _read_prior_manifest paths uid in
     do! plan := plan_installed_integrations request paths prior uid in
     eret (Some (prior, plan)))
    (fun e => match e with
              | LifecycleError _ => eret None
              | _ => if is_value_error e then eret None else eraise e
              end) in
  match planned with
  | None => eret REFUSED
  | Some (prior, plan) =>
      if ir_dry_run request then eret OK
      else
        do! lock := existing_lock_plan paths in
        do! opened := ecatch (do! fds := open_lock_infrastructure lock uid in eret (Some fds))
                        (fun e => if is_unsafe_or_os e then eret None else eraise e) in
        match opened with
        | None => eret REFUSED
        | Some (_, lock_fd) => acquire_lifecycle_lock lock_fd (run_integration prior plan request paths uid injector)
        end
  end.

Definition set_autostart (enabled : bool) (paths : LifecyclePaths) (uid : Z) : io LifecycleExit :=
  execute_integration_setup (mkIntegration false PRESERVE (if enabled then ENABLE else DISABLE) PRESERVE) paths uid NO_FAILURE.
Definition set_chooser (enabled : bool) (paths : LifecyclePaths) (uid : Z) : io LifecycleExit :=
  execute_integration_setup (mkIntegration false PRESERVE PRESERVE (if enabled then ENABLE else DISABLE)) paths uid NO_FAILURE.

(** ** Uninstallation *)
Record UninstallAction := mkUninstallAction { ua_kind : pystr; ua_path : pystr; ua_detail : pystr }.
Record UninstallPlan := mkUninstallPlan {
  up_request : UninstallRequest;
  up_paths : LifecyclePaths;
  up_prior : InstallManifest;
  up_actions : list UninstallAction;
  up_snapshot : SafeSnapshot;
}.

(** Removing the application takes the integrations along. *)
Definition partial_removal (request : UninstallRequest) : bool :=
  remove_application request && negb (remove_bash request && remove_autostart request).

Definition uninstall_actions (request : UninstallRequest) (paths : LifecyclePaths) (prior : InstallManifest) : list UninstallAction :=
  let when (b : bool) l := if b then l else [] in
  let action k p detail := mkUninstallAction (u k) (path_str p) (u detail) in
  when (purge_state request)
    [action "quarantine-state" (state_root paths) "rename state to private quarantine";
     mkUninstallAction (u "after-quarantine") [] (u "post-quarantine boundary")] ++
  when (remove_bash request) [action "remove-bash" (bashrc paths) "remove the canonical V1 bash block"] ++
  when (remove_autostart request) [action "remove-autostart" (autostart paths) "remove the manifest-owned desktop entry"] ++
  when (restore_chooser request) [action "restore-chooser" (chooser paths) "restore the original chooser before-image"] ++
  if remove_application request then
    [action "remove-command-links" (bin_root paths) "remove the three command symlinks";
     action "remove-current" (current paths) "remove the current generation symlink";
     action "remove-generation" (path_join (generations paths) (im_generation_id prior)) "structurally delete the verified generation";
     action "remove-manifest" (manifest paths) "remove the install manifest (commit)"]
  else [action "rewrite-manifest" (manifest paths) "rewrite the manifest with updated integration flags (commit)"].

Definition plan_uninstall (request : UninstallRequest) (paths : LifecyclePaths) (uid : Z) : io UninstallPlan :=
  (if partial_removal request then lifecycle_error USAGE else eret tt) ;;
  do! prior := _read_prior_manifest paths uid in
  let when (b : bool) (p : posix_path) := if b then [p] else [] in
  do! snapshot := inspect_paths
    ([manifest paths; current paths] ++ command_links paths ++ when (remove_bash request) (bashrc paths) ++
     when (remove_autostart request) (autostart paths) ++ when (restore_chooser request) (chooser paths)) uid in
  eret (mkUninstallPlan request paths prior (uninstall_actions request paths prior) snapshot).

Definition _disable_bash_block (paths : LifecyclePaths) (uid : Z) : io unit :=
  do! before := capture_before (bashrc paths) uid in
  do! transformed := elift (transform_bashrc (default [] (bi_content before)) (bash_integration paths) DISABLE) in
  atomic_write (bashrc paths) transformed (if bool_decide (bi_kind before = FILE) then default 0 (bi_mode before) else 0x180) uid.

Definition _restore_chooser (prior : InstallManifest) (uid : Z) : io unit := restore_before (co_original (im_chooser prior)) uid.

Definition _delete_generation (paths : LifecyclePaths) (prior : InstallManifest) (uid : Z) : io unit :=
  let generation := path_join (generations paths) (im_generation_id prior) in
  let marker_path := path_join generation MARKER_NAME in
  do! there := exists_path marker_path in
  if there then remove_generation generation uid else eret tt.

Definition partial_manifest (paths : LifecyclePaths) (prior : InstallManifest) (request : UninstallRequest) : InstallManifest :=
  updated_manifest prior
    (filter (fun obj => ~ (remove_autostart request = true /\ oo_path obj = path_str (autostart paths))) (im_owned prior))
    (if remove_bash request then false else im_bash_enabled prior)
    (if remove_autostart request then false else im_autostart_enabled prior)
    (if restore_chooser request then mkChooser (co_original (im_chooser prior)) None false else im_chooser prior)
    (if remove_bash request then None else im_bash_backup prior).

Definition _rewrite_manifest_partial (paths : LifecyclePaths) (prior : InstallManifest) (request : UninstallRequest) (uid : Z)
  : io unit :=
  do! raw := elift (manifest_to_bytes (partial_manifest paths prior request)) in
  atomic_write (manifest paths) raw 0x180 uid.

Definition _postcommit_quarantine (quarantined : option QuarantinedTree) (uid : Z) (injector : FailureInjector) : io LifecycleExit :=
  match quarantined with
  | None => eret OK
  | Some tree => or_warning (inject injector DURING_POSTCOMMIT_CLEANUP ;; delete_quarantine depth tree uid)
  end.

Definition _rollback_uninstall (quarantined : option QuarantinedTree) (mutations : list BeforeImage) (uid : Z)
    (injector : FailureInjector) : io LifecycleExit :=
  ecatch
    (inject injector DURING_ROLLBACK ;;
     eforeach (fun before => restore_before before uid) (rev mutations) ;;
     match quarantined with Some tree => restore_quarantine tree uid | None => eret tt end ;;
     eret ROLLED_BACK)
    (fun _ => eret ROLLBACK_INCOMPLETE).

(** One removal: if there is something at [path], it is captured, changed and noted. *)
Definition noted_change (path : posix_path) (uid : Z) (change : io unit) : transaction unit :=
  do! there := disk (exists_path path) in
  if there then
    do! before := disk (capture_before path uid) in
    disk change ;;
    note (add_mutation before)
  else eret tt.

Definition when_ (b : bool) (m : transaction unit) : transaction unit := if b then m else eret tt.

Definition remove_installed (paths : LifecyclePaths) (prior : InstallManifest) (uid : Z) : transaction unit :=
  eforeach (fun link => noted_change link uid (_safe_remove link)) (command_links paths) ;;
  noted_change (current paths) uid (_safe_remove (current paths)) ;;
  disk (_delete_generation paths prior uid).

Definition quarantine_path (paths : LifecyclePaths) : posix_path := path_join (xdg_state_home paths) (u ".termrecall-quarantine").

Definition purge (paths : LifecyclePaths) (prior : InstallManifest) (uid : Z) (injector : FailureInjector) : transaction unit :=
  do! there := disk (exists_path (state_root paths)) in
  if there then
    do! tree := disk (quarantine_state depth (state_root paths) (quarantine_path paths) (im_install_id prior) uid) in
    note (set_quarantined tree) ;;
    inject injector AFTER_QUARANTINE
  else eret tt.

Definition uninstall_body (plan : UninstallPlan) (uid : Z) (injector : FailureInjector) : transaction unit :=
  let request := up_request plan in
  let paths := up_paths plan in
  let prior := up_prior plan in
  when_ (purge_state request) (purge paths prior uid injector) ;;
  when_ (remove_bash request) (noted_change (bashrc paths) uid (_disable_bash_block paths uid)) ;;
  when_ (remove_autostart request) (noted_change (autostart paths) uid (_safe_remove (autostart paths))) ;;
  when_ (restore_chooser request) (noted_change (chooser paths) uid (_restore_chooser prior uid)) ;;
  when_ (remove_application request) (remove_installed paths prior uid) ;;
  (if remove_application request
   then noted_change (manifest paths) uid (_safe_remove (manifest paths))
   else disk (_rewrite_manifest_partial paths prior request uid)) ;;
  note set_committed.

Definition execute_uninstall (plan : UninstallPlan) (uid : Z) (injector : FailureInjector) : io LifecycleExit :=
  if partial_removal (up_request plan) then eret USAGE
  else fun w =>
    match uninstall_body plan uid injector (w, no_progress) with
    | (Ok _, (w', p)) => _postcommit_quarantine (pr_quarantined p) uid injector w'
    | (Err _, (w', p)) =>
        if pr_committed p then _postcommit_quarantine (pr_quarantined p) uid injector w'
        else _rollback_uninstall (pr_quarantined p) (pr_mutations p) uid injector w'
    end.
End Lifecycle.
