(* ===== verification/IntegrationsProofs.v ===== *)
(** * What the transform of [.bashrc] does

    Markers are whole ends of lines: [count_sub] of a marker line is a count over
    lines ([count_lines]).  From this, enabling is idempotent, and disabling
    undoes it whatever was appended to the file since. *)
From S2P Require Import Prelude PyText PyVal Model Contract Effect Files LifecycleFs Integrations.

(** ** Counting marker lines *)
Section Lines.
Context (m : pybytes) (m_line : 10 ∉ m).
Notation sub := (m ++ nl).

(** What follows the last newline of [cur ++ raw]. *)
Fixpoint last_line (cur raw : pybytes) : pybytes :=
  match raw with
  | [] => cur
  | c :: rest => if c =? 10 then last_line [] rest else last_line (cur ++ [c]) rest
  end.

(** The lines of [cur ++ raw] that end in [m] and a newline. *)
Fixpoint count_lines (cur raw : pybytes) : nat :=
  match raw with
  | [] => O
  | c :: rest =>
      if c =? 10 then ((if ends_with m cur then 1 else 0) + count_lines [] rest)%nat else count_lines (cur ++ [c]) rest
  end.

Lemma count_lines_app cur a b : count_lines cur (a ++ b) = (count_lines cur a + count_lines (last_line cur a) b)%nat.
Proof. revert cur. induction a as [|c a IH]; intros cur; simpl; [done|]. destruct (c =? 10); rewrite IH; lia. Qed.

Lemma last_line_app cur a b : last_line cur (a ++ b) = last_line (last_line cur a) b.
Proof. revert cur. induction a as [|c a IH]; intros cur; simpl; [done|]. by destruct (c =? 10). Qed.

Lemma last_line_flat cur a : 10 ∉ a -> last_line cur a = cur ++ a.
Proof.
  revert cur. induction a as [|c a IH]; intros cur H; simpl; [by rewrite app_nil_r|].
  apply not_elem_of_cons in H as [Hc Ha]. destruct (Z.eqb_spec c 10); [congruence|]. rewrite IH //. by rewrite -app_assoc.
Qed.

Lemma count_lines_flat cur a : 10 ∉ a -> count_lines cur a = O.
Proof.
  revert cur. induction a as [|c a IH]; intros cur H; simpl; [done|].
  apply not_elem_of_cons in H as [Hc Ha]. destruct (Z.eqb_spec c 10); [congruence|]. by apply IH.
Qed.

(** A newline-terminated line. *)
Lemma count_lines_line cur x : 10 ∉ x -> count_lines cur (x ++ nl) = if ends_with m (cur ++ x) then 1%nat else O.
Proof. intros H. rewrite count_lines_app count_lines_flat // last_line_flat //=. Qed.

Lemma last_line_nl cur x : last_line cur (x ++ nl) = [].
Proof. by rewrite last_line_app. Qed.

Lemma count_lines_mono cur a b : (count_lines cur a <= count_lines cur (a ++ b))%nat.
Proof. rewrite count_lines_app. lia. Qed.

(** ** [count_sub] counts lines *)
Lemma find_sub_spec (s raw : pybytes) i : find_sub s raw = Some i ->
  raw = take i raw ++ s ++ drop (i + length s) raw /\ (forall a b, raw = a ++ s ++ b -> (i <= length a)%nat).
Proof.
  revert i. induction raw as [|c raw IH]; intros i; simpl; destruct (is_prefix s _) eqn:E.
  - intros [= <-]. apply is_prefix_spec in E as [t E]. split; [|lia]. simpl. rewrite E. by rewrite drop_app_length.
  - done.
  - intros [= <-]. apply is_prefix_spec in E as [t E]. split; [|lia]. simpl. rewrite E. by rewrite drop_app_length.
  - destruct (find_sub s raw) as [j|]; [|done]. intros [= <-]. destruct (IH j eq_refl) as [H1 H2]. split.
    + simpl. by f_equal.
    + intros [|x a] b Hab; simpl in *.
      * exfalso. rewrite Hab is_prefix_app in E. done.
      * injection Hab as -> Hab. apply H2 in Hab. lia.
Qed.

Lemma find_sub_none (s raw : pybytes) : find_sub s raw = None <-> forall a b, raw <> a ++ s ++ b.
Proof.
  induction raw as [|c raw IH]; simpl; destruct (is_prefix s _) eqn:E.
  - split; [done|]. intros H. apply is_prefix_spec in E as [t E]. by destruct (H [] t).
  - split; [|done]. intros _ a b H. symmetry in H. apply app_nil in H as [-> H]. apply app_nil in H as [-> ->]. done.
  - split; [done|]. intros H. apply is_prefix_spec in E as [t E]. by destruct (H [] t).
  - destruct (find_sub s raw) as [j|] eqn:F.
    + split; [done|]. intros H. destruct (find_sub_spec _ _ _ F) as [H1 _].
      destruct (H (c :: take j raw) (drop (j + length s) raw)). simpl. by f_equal.
    + split; [|done]. intros _ [|x a] b Hab; simpl in *; [by rewrite Hab is_prefix_app in E|].
      injection Hab as -> Hab. exact (proj1 IH eq_refl a b Hab).
Qed.

Lemma find_sub_first (s raw a b : pybytes) : raw = a ++ s ++ b ->
  (forall a' b', raw = a' ++ s ++ b' -> (length a <= length a')%nat) -> find_sub s raw = Some (length a).
Proof.
  intros H Hmin. destruct (find_sub s raw) as [i|] eqn:F.
  - destruct (find_sub_spec _ _ _ F) as [H1 H2]. specialize (H2 _ _ H). specialize (Hmin _ _ H1).
    rewrite length_take in Hmin. f_equal. lia.
  - by destruct (proj1 (find_sub_none _ _) F a b).
Qed.

Lemma split_line (x rest a b : pybytes) : 10 ∉ x -> x ++ nl ++ rest = a ++ sub ++ b ->
  (x = a ++ m /\ b = rest) \/ exists a', a = x ++ nl ++ a' /\ rest = a' ++ sub ++ b.
Proof.
  intros Hx. rewrite -app_assoc (app_assoc a). intros [(k & -> & H)|(k & H & Hk)]%app_eq_inv.
  - destruct k as [|c k].
    + rewrite app_nil_r. injection H as ->. by left.
    + injection H as <- H. exfalso. apply Hx. set_solver.
  - destruct k as [|c k].
    + rewrite app_nil_r in H. injection Hk as ->. left. by rewrite H.
    + injection Hk as <- ->. right. apply app_eq_inv in H as [(k' & -> & H)|(k' & -> & H)].
      * destruct k' as [|c' k'].
        -- exfalso. apply m_line. simpl in H. rewrite -H. set_solver.
        -- injection H as <- ->. exists k'. split; [done|]. by rewrite -!app_assoc.
      * exfalso. apply m_line. rewrite H. set_solver.
Qed.

Lemma no_sub_in_flat (x a b : pybytes) : 10 ∉ x -> x <> a ++ sub ++ b.
Proof. intros Hx ->. apply Hx. set_solver. Qed.

Lemma ends_with_spec (s x : pybytes) : ends_with s x = true <-> exists a, x = a ++ s.
Proof.
  unfold ends_with. rewrite is_prefix_spec. split.
  - intros [t H]. exists (rev t). apply (f_equal (@rev Z)) in H. by rewrite rev_involutive rev_app_distr rev_involutive in H.
  - intros [a ->]. exists (rev a). by rewrite rev_app_distr.
Qed.

Lemma find_sub_flat x : 10 ∉ x -> find_sub sub x = None.
Proof. intros Hx. apply find_sub_none. intros a b. by apply no_sub_in_flat. Qed.

Lemma find_sub_here x rest : 10 ∉ x -> ends_with m x = true ->
  find_sub sub (x ++ nl ++ rest) = Some (length x - length m)%nat.
Proof.
  intros Hx [a ->]%ends_with_spec. rewrite length_app Nat.add_sub.
  apply (find_sub_first _ _ _ rest); [by rewrite -!app_assoc|].
  intros a' b' [[H ->]|(a'' & -> & H)]%split_line; [|rewrite !length_app; lia|done].
  apply (f_equal length) in H. rewrite !length_app in H. lia.
Qed.

Lemma find_sub_later x rest : 10 ∉ x -> ends_with m x = false ->
  find_sub sub (x ++ nl ++ rest) = (fun i => length x + 1 + i)%nat <$> find_sub sub rest.
Proof.
  intros Hx He. destruct (find_sub sub rest) as [i|] eqn:F; simpl.
  - destruct (find_sub_spec _ _ _ F) as [H1 H2].
    assert (E : (length x + 1 + i)%nat = length (x ++ nl ++ take i rest)).
    { rewrite !length_app length_take. apply (f_equal length) in H1.
      rewrite !length_app length_take length_drop in H1. simpl in *. lia. }
    rewrite E. apply (find_sub_first _ _ _ (drop (i + length sub) rest)).
    { rewrite {1}H1. by rewrite -!app_assoc. }
    intros a' b' [[H ->]|(a'' & -> & H)]%split_line; [|rewrite -E !length_app; apply H2 in H; simpl; lia|done].
    exfalso. by rewrite (proj2 (ends_with_spec m x) (ex_intro _ a' H)) in He.
  - apply find_sub_none. intros a b [[H ->]|(a'' & -> & H)]%split_line; [| |done].
    + by rewrite (proj2 (ends_with_spec m x) (ex_intro _ a H)) in He.
    + by apply (proj1 (find_sub_none _ _) F a'' b).
Qed.

Lemma find_sub_nil : find_sub sub [] = None.
Proof. apply find_sub_flat. set_solver. Qed.

Lemma count_fuel_enough n raw : (length raw <= n)%nat -> count_fuel n sub raw = count_fuel (length raw) sub raw.
Proof.
  revert raw. induction n as [n IH] using lt_wf_ind. intros raw Hn.
  destruct n as [|n]; [by destruct raw; [|simpl in Hn; lia]|].
  destruct raw as [|c raw]; [cbn [length count_fuel]; by rewrite find_sub_nil|].
  cbn [length count_fuel]. destruct (find_sub sub (c :: raw)) as [i|]; [|done]. f_equal.
  assert (Hd : (length (drop (i + length sub) (c :: raw)) <= length raw)%nat).
  { rewrite length_drop length_app. simpl. lia. }
  simpl in Hn. rewrite (IH n); [lia|lia|]. symmetry. apply (IH (length raw)); lia.
Qed.

Lemma count_sub_step raw : count_sub sub raw =
  match find_sub sub raw with None => O | Some i => S (count_sub sub (drop (i + length sub) raw)) end.
Proof.
  unfold count_sub. destruct raw as [|c raw]; [by rewrite find_sub_nil|].
  cbn [length count_fuel]. destruct (find_sub sub (c :: raw)) as [i|]; [|done]. f_equal.
  apply count_fuel_enough. rewrite length_drop length_app. simpl. lia.
Qed.

Lemma count_sub_cur cur raw : 10 ∉ cur -> count_sub sub (cur ++ raw) = count_lines cur raw.
Proof.
  revert cur. induction raw as [|c raw IH]; intros cur Hcur; simpl.
  { rewrite app_nil_r count_sub_step find_sub_flat //. }
  destruct (Z.eqb_spec c 10) as [->|].
  - rewrite count_sub_step. change (10 :: raw) with (nl ++ raw). rewrite -(IH [] (not_elem_of_nil _)) app_nil_l.
    destruct (ends_with m cur) eqn:He.
    + rewrite find_sub_here //. simpl. f_equal. f_equal.
      apply ends_with_spec in He as [a ->]. rewrite length_app Nat.add_sub.
      rewrite (_ : (a ++ m) ++ nl ++ raw = (a ++ sub) ++ raw); [by rewrite -!app_assoc|].
      apply drop_app_length'. symmetry. apply length_app.
    + rewrite find_sub_later // (count_sub_step raw). destruct (find_sub sub raw) as [i|]; simpl; [|done].
      do 2 f_equal. rewrite (_ : cur ++ 10 :: raw = (cur ++ nl) ++ raw); [by rewrite -app_assoc|].
      rewrite (_ : (length cur + 1 + i + length sub = length (cur ++ nl) + (i + length sub))%nat).
      { rewrite (length_app cur). simpl. lia. }
      by rewrite -drop_drop drop_app_length.
  - change (c :: raw) with ([c] ++ raw). rewrite app_assoc. apply IH. set_solver.
Qed.

Lemma count_sub_lines raw : count_sub sub raw = count_lines [] raw.
Proof. apply (count_sub_cur [] raw), not_elem_of_nil. Qed.
End Lines.

(** ** Occurrences *)
Section Occurrences.
Context (m : pybytes) (m_line : 10 ∉ m).
Notation sub := (m ++ nl).

Lemma count_lines_sub cur b : count_lines m cur (sub ++ b) = S (count_lines m [] b).
Proof.
  rewrite count_lines_app count_lines_line // last_line_nl (proj2 (ends_with_spec _ _)) //. by exists cur.
Qed.

Lemma count_occurrence cur a b : (1 <= count_lines m cur (a ++ sub ++ b))%nat.
Proof. rewrite count_lines_app count_lines_sub. lia. Qed.

(** A marker line counted once is there once. *)
Lemma once_unique raw a b a' b' : count_lines m [] raw = 1%nat -> raw = a ++ sub ++ b -> raw = a' ++ sub ++ b' ->
  (length a <= length a')%nat.
Proof.
  intros Hc -> H. destruct (decide (length a' < length a)%nat) as [Hl|]; [|lia]. exfalso.
  apply app_eq_inv in H as [(k & -> & H)|(k & -> & _)]; [|rewrite length_app in Hl; lia].
  rewrite -app_assoc in H. apply (split_line m m_line) in H as [[H _]|(k' & -> & ->)]; [| |done].
  - assert (k = []) as ->; [|rewrite length_app /= in Hl; lia].
    apply (f_equal length) in H. rewrite length_app in H. destruct k; [done|simpl in H; lia].
  - pose proof (count_occurrence [] a' k') as Hk. rewrite -app_assoc in Hk.
    rewrite count_lines_app count_lines_sub in Hc. lia.
Qed.
End Occurrences.

(** ** The block *)
Definition markers : list pybytes := [_V1_BEGIN; _V1_END; _LEGACY_BEGIN; _LEGACY_END].
Definition unmarked (raw : pybytes) : Prop := forall m, m ∈ markers -> count_sub (m ++ nl) raw = O.

Lemma marker_elems : _V1_BEGIN ∈ markers /\ _V1_END ∈ markers /\ _LEGACY_BEGIN ∈ markers /\ _LEGACY_END ∈ markers.
Proof. unfold markers. rewrite !elem_of_cons. tauto. Qed.
Ltac marker := first [exact (proj1 marker_elems) | exact (proj1 (proj2 marker_elems)) |
  exact (proj1 (proj2 (proj2 marker_elems))) | exact (proj2 (proj2 (proj2 marker_elems)))].

Lemma marker_line m : m ∈ markers -> 10 ∉ m.
Proof. intros H. repeat (apply elem_of_cons in H as [->|H]; [by apply (bool_decide_unpack _)|]). by apply elem_of_nil in H. Qed.

(** The integration file: its name holds no newline. *)
Section Block.
Context (path : posix_path) (q : pybytes) (path_bytes : fsencode (path_str path) = Ok q) (path_line : 10 ∉ q).

Definition quoted : pybytes := 39 :: flat_map quote_char q ++ [39].
Definition v1_line : pybytes := (u "[ -f " ++ quoted ++ u " ] && . " ++ 39 :: flat_map quote_char q) ++ [39].
Definition legacy_line : pybytes := (u "source " ++ 39 :: flat_map quote_char q) ++ [39].
(** A begin marker, a line and an end marker. *)
Definition block (b line e : pybytes) : pybytes := (b ++ nl) ++ (line ++ nl) ++ (e ++ nl).
Definition v1 : pybytes := block _V1_BEGIN v1_line _V1_END.
Definition legacy : pybytes := block _LEGACY_BEGIN legacy_line _LEGACY_END.

Lemma v1_block_eq : _v1_block path = Ok v1.
Proof.
  unfold _v1_block, _source_line, shell_single_quote. rewrite path_bytes /= /v1 /block /v1_line /quoted.
  f_equal. by rewrite -!app_assoc /= -?app_assoc.
Qed.

Lemma legacy_block_eq : _legacy_block path = Ok legacy.
Proof.
  unfold _legacy_block, _legacy_source_line, shell_single_quote. rewrite path_bytes /= /legacy /block /legacy_line.
  f_equal. by rewrite -!app_assoc /= -?app_assoc.
Qed.

Lemma escaped_source_line : 10 ∉ flat_map quote_char q.
Proof.
  rewrite list_elem_of_In in_flat_map. intros (c & Hc & H). unfold quote_char in H.
  destruct (c =? 39); simpl in H; [intuition lia|]. destruct H as [->|[]]. apply path_line. by apply list_elem_of_In.
Qed.

Lemma v1_line_flat : 10 ∉ v1_line.
Proof.
  pose proof escaped_source_line. unfold v1_line, quoted. rewrite !not_elem_of_app !not_elem_of_cons !not_elem_of_app.
  repeat split; try done; by apply (bool_decide_unpack _).
Qed.

Lemma legacy_line_flat : 10 ∉ legacy_line.
Proof.
  pose proof escaped_source_line. unfold legacy_line. rewrite !not_elem_of_app !not_elem_of_cons.
  repeat split; try done; by apply (bool_decide_unpack _).
Qed.
End Block.

(** No marker ends in a quote. *)
Lemma quote_ends_no_marker m cur x : m ∈ markers -> ends_with m (cur ++ x ++ [39]) = false.
Proof.
  intros H. unfold ends_with. rewrite app_assoc rev_app_distr.
  repeat (apply elem_of_cons in H as [->|H]; [done|]). by apply elem_of_nil in H.
Qed.

(** How many lines of a block end in a marker. *)
Lemma block_counts m b line e cur rest : m ∈ markers -> 10 ∉ b -> 10 ∉ e -> 10 ∉ line ++ [39] ->
  count_lines m cur (block b (line ++ [39]) e ++ rest) =
  ((if ends_with m (cur ++ b) then 1 else 0) + (if ends_with m e then 1 else 0) + count_lines m [] rest)%nat.
Proof.
  intros Hm Hb He Hl. unfold block. rewrite -!app_assoc.
  rewrite (app_assoc b) count_lines_app count_lines_line // last_line_nl.
  rewrite (app_assoc line) (app_assoc (line ++ [39])) count_lines_app count_lines_line // last_line_nl quote_ends_no_marker //.
  rewrite (app_assoc e) count_lines_app count_lines_line // last_line_nl. simpl. lia.
Qed.

Lemma remove_own_newline (s pre post : pybytes) : remove_block s (pre ++ nl ++ s ++ post) (length (pre ++ nl)) = pre ++ post.
Proof.
  unfold remove_block. rewrite length_app /= Nat.add_1_r Nat.sub_succ Nat.sub_0_r.
  rewrite lookup_app_r // Nat.sub_diag bool_decide_true //=. rewrite take_app_length. f_equal.
  rewrite (_ : pre ++ 10 :: s ++ post = (pre ++ nl ++ s) ++ post); [by rewrite -!app_assoc|].
  apply drop_app_length'. rewrite !length_app /=. lia.
Qed.

Lemma remove_at_start (s post : pybytes) : remove_block s (s ++ post) O = post.
Proof. unfold remove_block. simpl. by rewrite drop_app_length. Qed.

Section Transform.
Context (path : posix_path) (q : pybytes) (path_bytes : fsencode (path_str path) = Ok q) (path_line : 10 ∉ q).
Notation v1 := (v1 q).
Notation legacy := (legacy q).

Definition in_block (b e m : pybytes) : nat := if str_eqb m b || str_eqb m e then 1%nat else O.

Lemma v1_counts m cur rest : m ∈ markers ->
  count_lines m cur (v1 ++ rest) = (in_block _V1_BEGIN _V1_END m + count_lines m [] rest)%nat.
Proof.
  intros Hm. pose proof (v1_line_flat q path_line). unfold v1, v1_line in *.
  rewrite block_counts //; [by apply (bool_decide_unpack _)..|].
  unfold ends_with. rewrite rev_app_distr.
  repeat (apply elem_of_cons in Hm as [->|Hm]; [done|]). by apply elem_of_nil in Hm.
Qed.

Lemma legacy_counts m cur rest : m ∈ markers ->
  count_lines m cur (legacy ++ rest) = (in_block _LEGACY_BEGIN _LEGACY_END m + count_lines m [] rest)%nat.
Proof.
  intros Hm. pose proof (legacy_line_flat q path_line). unfold legacy, legacy_line in *.
  rewrite block_counts //; [by apply (bool_decide_unpack _)..|].
  unfold ends_with. rewrite rev_app_distr.
  repeat (apply elem_of_cons in Hm as [->|Hm]; [done|]). by apply elem_of_nil in Hm.
Qed.

(** The counts of [transform_bashrc] are counts of lines. *)
Lemma marker_counts_lines raw b e : b ∈ markers -> e ∈ markers ->
  _marker_counts raw b e = (count_lines b [] raw, count_lines e [] raw).
Proof. intros Hb He. unfold _marker_counts. by rewrite !count_sub_lines //; try apply marker_line. Qed.

Lemma unmarked_lines raw : unmarked raw <-> forall m, m ∈ markers -> count_lines m [] raw = O.
Proof. split; intros H m Hm; specialize (H m Hm); [rewrite count_sub_lines in H|rewrite count_sub_lines]; try done; by apply marker_line. Qed.

Lemma find_v1 pre post : count_lines _V1_BEGIN [] (pre ++ v1 ++ post) = 1%nat -> find_sub v1 (pre ++ v1 ++ post) = Some (length pre).
Proof.
  intros Hc. apply (find_sub_first _ _ _ post); [done|]. intros a b H.
  apply (once_unique _V1_BEGIN (marker_line _V1_BEGIN ltac:(marker)) _ pre (drop (length (_V1_BEGIN ++ nl)) v1 ++ post) a
    (drop (length (_V1_BEGIN ++ nl)) v1 ++ b) Hc); [|rewrite H]; do 2 f_equal; unfold v1, block;
    by rewrite drop_app_length -!app_assoc.
Qed.
(** The counts in [pre], the V1 block and [post]. *)
Lemma counts_around pre post m : m ∈ markers -> unmarked pre -> unmarked post ->
  count_lines m [] (pre ++ v1 ++ post) = in_block _V1_BEGIN _V1_END m.
Proof.
  intros Hm Hpre Hpost. rewrite unmarked_lines in Hpre. rewrite unmarked_lines in Hpost.
  rewrite count_lines_app v1_counts // Hpre // Hpost //.
Qed.

Lemma unmarked_prefix a b : unmarked (a ++ b) -> unmarked a.
Proof.
  rewrite !unmarked_lines. intros H m Hm. specialize (H m Hm). pose proof (count_lines_mono m [] a b). lia.
Qed.

Lemma contains_v1 pre post : contains v1 (pre ++ v1 ++ post) = true.
Proof. apply contains_spec. by exists pre, post. Qed.

(** Enabling, branch by branch. *)
Lemma enable_Ok raw r :
  let v1_counts := _marker_counts raw _V1_BEGIN _V1_END in
  let leg_counts := _marker_counts raw _LEGACY_BEGIN _LEGACY_END in
  transform_bashrc raw path ENABLE = Ok r <->
  (v1_counts = (1, 1)%nat /\ leg_counts = (0, 0)%nat /\ contains v1 raw = true /\ r = raw) \/
  (v1_counts = (0, 0)%nat /\ leg_counts = (1, 1)%nat /\ contains legacy raw = true /\
   exists i, find_sub legacy raw = Some i /\ r = splice raw i v1 (length legacy)) \/
  (v1_counts = (0, 0)%nat /\ leg_counts = (0, 0)%nat /\ r = if bool_decide (raw = []) then v1 else raw ++ nl ++ v1).
Proof.
  unfold transform_bashrc, well_formed_block.
  rewrite (v1_block_eq _ _ path_bytes) (legacy_block_eq _ _ path_bytes). cbn [rbind].
  generalize (_marker_counts raw _V1_BEGIN _V1_END) (_marker_counts raw _LEGACY_BEGIN _LEGACY_END).
  intros [a b] [c d]. generalize (contains v1 raw) (contains legacy raw) (find_sub legacy raw). intros h1 h2 o. generalize v1. intros w.
  destruct a as [|[|a]], b as [|[|b]], c as [|[|c]], d as [|[|d]]; cbn; try (split; [done|naive_solver]).
  - rewrite bool_decide_false // bool_decide_true //. case_bool_decide; naive_solver.
  - rewrite bool_decide_false // bool_decide_true //. destruct h2, o; cbn; naive_solver.
  - rewrite bool_decide_false // bool_decide_true //. destruct h1; cbn; naive_solver.
Qed.

(** The two branches of the code that find the block. *)
Lemma transform_at_block raw i : _marker_counts raw _V1_BEGIN _V1_END = (1, 1)%nat ->
  _marker_counts raw _LEGACY_BEGIN _LEGACY_END = (0, 0)%nat -> contains v1 raw = true -> find_sub v1 raw = Some i ->
  transform_bashrc raw path ENABLE = Ok raw /\ transform_bashrc raw path DISABLE = Ok (remove_block v1 raw i).
Proof.
  intros H1 H2 Hc Hf. unfold transform_bashrc, well_formed_block.
  rewrite (v1_block_eq _ _ path_bytes) (legacy_block_eq _ _ path_bytes). cbn [rbind bool_decide]. by rewrite H1 H2 Hc Hf.
Qed.

Lemma block_found pre post : unmarked pre -> unmarked post ->
  transform_bashrc (pre ++ v1 ++ post) path ENABLE = Ok (pre ++ v1 ++ post) /\
  transform_bashrc (pre ++ v1 ++ post) path DISABLE = Ok (remove_block v1 (pre ++ v1 ++ post) (length pre)).
Proof.
  intros Hpre Hpost. apply transform_at_block; [| |apply contains_v1|apply find_v1].
  1,2: rewrite !marker_counts_lines; [marker..|]; by rewrite !counts_around //; marker.
  by rewrite counts_around //; marker.
Qed.

(** An integration migrated from the legacy block. *)
Lemma legacy_around a b : (forall m, m ∈ markers -> count_lines m [] (a ++ legacy ++ b) = in_block _LEGACY_BEGIN _LEGACY_END m) ->
  unmarked a /\ unmarked b.
Proof.
  intros H. rewrite !unmarked_lines.
  split; intros m Hm; specialize (H m Hm); rewrite count_lines_app legacy_counts // in H; lia.
Qed.

Lemma counts_of_pairs raw n k :
  _marker_counts raw _V1_BEGIN _V1_END = (n, n) -> _marker_counts raw _LEGACY_BEGIN _LEGACY_END = (k, k) ->
  count_lines _V1_BEGIN [] raw = n /\ count_lines _V1_END [] raw = n /\
  count_lines _LEGACY_BEGIN [] raw = k /\ count_lines _LEGACY_END [] raw = k.
Proof. rewrite !marker_counts_lines; [marker..|]. intros H1 H2. injection H1 as -> ->. injection H2 as -> ->. auto. Qed.

(** No marker without its newline at the end. *)
Definition complete_end (raw : pybytes) : Prop := forall m, m ∈ markers -> ends_with m (last_line [] raw) = false.

Lemma unmarked_newline raw : unmarked raw -> complete_end raw -> unmarked (raw ++ nl).
Proof.
  rewrite !unmarked_lines. intros H He m Hm. rewrite count_lines_app H //=. by rewrite He.
Qed.

Lemma markers_forall (P : pybytes -> Prop) :
  P _V1_BEGIN -> P _V1_END -> P _LEGACY_BEGIN -> P _LEGACY_END -> forall m, m ∈ markers -> P m.
Proof.
  intros H1 H2 H3 H4 m Hm.
  apply elem_of_cons in Hm as [->|Hm]; [exact H1|]. apply elem_of_cons in Hm as [->|Hm]; [exact H2|].
  apply elem_of_cons in Hm as [->|Hm]; [exact H3|]. apply elem_of_cons in Hm as [->|Hm]; [exact H4|].
  by apply elem_of_nil in Hm.
Qed.
End Transform.


(** Enabling twice is enabling once, for a file without markers, with the block or
    with the legacy block.  A file that ends in the middle of a marker line is
    excluded, and rightly so ([unterminated_marker] in [LifecycleFindings]). *)
Theorem enable_idempotent path q raw r : fsencode (path_str path) = Ok q -> 10 ∉ q -> complete_end raw ->
  transform_bashrc raw path ENABLE = Ok r -> transform_bashrc r path ENABLE = Ok r.
Proof.
  intros Hq Hn He H. pose proof H as H0.
  apply (enable_Ok path q Hq) in H0 as [(_ & _ & _ & ->)|[(H1 & H2 & _ & i & Hi & ->)|(H1 & H2 & ->)]]; [done| |].
  - destruct (find_sub_spec _ _ _ Hi) as [Hraw _]. destruct (counts_of_pairs _ _ _ H1 H2) as (C1 & C2 & C3 & C4).
    destruct (legacy_around q Hn (take i raw) (drop (i + length (legacy q)) raw)) as [Ha Hb].
    { apply markers_forall; rewrite -Hraw; [exact C1|exact C2|exact C3|exact C4]. }
    by apply (block_found path q Hq Hn).
  - destruct (counts_of_pairs _ _ _ H1 H2) as (C1 & C2 & C3 & C4).
    assert (Hu : unmarked raw).
    { apply unmarked_lines, markers_forall; [exact C1|exact C2|exact C3|exact C4]. }
    assert (He' : unmarked []) by done. case_bool_decide.
    + destruct (block_found path q Hq Hn [] []) as [E _]; [done..|]. by rewrite app_nil_r in E.
    + destruct (block_found path q Hq Hn (raw ++ nl) []) as [E _]; [by apply unmarked_newline|done|].
      by rewrite app_nil_r -app_assoc in E.
Qed.

(** Both conditions can be computed. *)
Lemma unmarked_check raw : forallb (fun m => (count_sub (m ++ nl) raw =? 0)%nat) markers = true -> unmarked raw.
Proof. rewrite forallb_forall. intros H m Hm. apply Nat.eqb_eq, H. by apply list_elem_of_In. Qed.
Lemma complete_end_check raw : forallb (fun m => negb (ends_with m (last_line [] raw))) markers = true -> complete_end raw.
Proof. rewrite forallb_forall. intros H m Hm. apply negb_true_iff, H. by apply list_elem_of_In. Qed.

(** ** A concrete file *)
Definition sample_integration : posix_path := parse_path (u "/home/ann/.config/termrecall/bash-integration.bash").
Definition sample_bashrc : pybytes := u "alias ll='ls -l'" ++ nl.


Example enable_idempotent_witness : exists r,
  transform_bashrc sample_bashrc sample_integration ENABLE = Ok r /\ transform_bashrc r sample_integration ENABLE = Ok r.
Proof.
  eexists. split; [vm_compute; reflexivity|].
  apply (enable_idempotent sample_integration (path_str sample_integration) sample_bashrc).
  - vm_compute. reflexivity.
  - apply (bool_decide_unpack _). vm_compute. exact I.
  - apply complete_end_check. vm_compute. reflexivity.
  - vm_compute. reflexivity.
Defined.
