(* ===== verification/FilesProofs.v ===== *)
(** * The file system: its invariant and what a path shows

    [fs_ok] is the shape of a file system (a tree of directories, hard links only
    to what is not a directory), kept by every system call.  [see] is what a path
    shows, links unfollowed; [touched] says that a state differs from another only
    under some names of one directory.  Programs run in [calm] worlds: system calls
    may fail or transfer less than asked for, but no other process interferes. *)
From S2P Require Import Prelude PyText Effect Files.
#[local] Open Scope eff_scope.

(** ** Inodes *)

(** An inode without its link count and, for a directory, its entries. *)
Definition shape (i : inode) : inode :=
  mkInode (i_dev i) (i_uid i) (i_mode i) 0 (match i_node i with Dir _ => Dir ∅ | n => n end).

Definition is_dir_at (f : fs) (x : Z) : Prop := is_Some (entries_of f x).

(** The entry [name] of the directory [d]. *)
Definition entry (f : fs) (d : Z) (name : pystr) : option Z := entries_of f d ≫= (.!! name).

Record fs_ok (f : fs) : Prop := {
  ok_fresh : forall x, is_Some (f_nodes f !! x) -> x < f_next f;
  ok_linked : forall d n y, entry f d n = Some y -> is_Some (f_nodes f !! y);
  ok_tree : forall d1 n1 d2 n2 y, entry f d1 n1 = Some y -> entry f d2 n2 = Some y -> is_dir_at f y -> d1 = d2 /\ n1 = n2;
  ok_root : forall d n, entry f d n <> Some (f_root f);
  ok_root_dir : is_dir_at f (f_root f);
}.

Lemma entries_of_node f x e : entries_of f x = Some e <-> exists i, f_nodes f !! x = Some i /\ i_node i = Dir e.
Proof.
  unfold entries_of. destruct (f_nodes f !! x) as [[dev uid m l []]|]; simpl; naive_solver.
Qed.

Lemma is_dir_node_at f x : is_dir_at f x <-> exists i, f_nodes f !! x = Some i /\ is_dir_node (i_node i) = true.
Proof.
  unfold is_dir_at, entries_of. destruct (f_nodes f !! x) as [[dev uid m l []]|]; simpl; split; try naive_solver; by intros [? [=]].
Qed.

Lemma lookup_at_Ok f d name x : lookup_at f d name = Ok x <-> entry f d name = Some x.
Proof. unfold lookup_at, entry. destruct (entries_of f d) as [e|]; simpl; [|naive_solver]. by rewrite result_of_option_Ok. Qed.

Lemma node_at_Ok f x st : node_at f x = Ok st <-> st.1 = x /\ f_nodes f !! x = Some st.2.
Proof. unfold node_at. destruct (f_nodes f !! x), st; naive_solver. Qed.

Lemma S_ISDIR_at f x st : node_at f x = Ok st -> S_ISDIR st = true <-> is_dir_at f x.
Proof.
  intros [Hx H]%node_at_Ok. rewrite is_dir_node_at H. unfold S_ISDIR. split; [by eexists|]. by intros (i & [= <-] & Hi).
Qed.

Lemma entry_dir f d name x : entry f d name = Some x -> is_dir_at f d.
Proof. unfold entry, is_dir_at. destruct (entries_of f d); [by eexists|done]. Qed.

(** ** Changes of one inode that keep its entries *)
Lemma lookup_alter_node g x f y : f_nodes (alter_node g x f) !! y = if decide (y = x) then g <$> f_nodes f !! y else f_nodes f !! y.
Proof. simpl. case_decide as H; [subst; apply lookup_alter_eq|apply lookup_alter_ne; congruence]. Qed.

(** [g] changes neither a directory's entries nor what is not a directory into one. *)
Definition keeps_entries (g : inode -> inode) : Prop :=
  forall i, match i_node i with Dir e => i_node (g i) = Dir e | _ => is_dir_node (i_node (g i)) = false end.

Lemma entries_alter g x f y : keeps_entries g -> entries_of (alter_node g x f) y = entries_of f y.
Proof.
  intros Hg. unfold entries_of. rewrite lookup_alter_node. case_decide; [|done].
  destruct (f_nodes f !! y) as [i|] eqn:E; simpl; [|done]. specialize (Hg i).
  destruct (g i) as [dev' uid' m' l' n'], i as [dev uid m l n]. simpl in Hg. destruct n, n'; simpl in *; congruence.
Qed.

Lemma entry_alter g x f d n : keeps_entries g -> entry (alter_node g x f) d n = entry f d n.
Proof. intros Hg. unfold entry. by rewrite entries_alter. Qed.

Lemma alter_ok g x f : keeps_entries g -> fs_ok f -> fs_ok (alter_node g x f).
Proof.
  intros Hg [H1 H2 H3 H4 H5].
  assert (Hsome : forall y, is_Some (f_nodes (alter_node g x f) !! y) <-> is_Some (f_nodes f !! y)).
  { intros y. rewrite lookup_alter_node. case_decide; [by rewrite fmap_is_Some|done]. }
  assert (Hdir : forall y, is_dir_at (alter_node g x f) y <-> is_dir_at f y).
  { intros y. unfold is_dir_at. by rewrite entries_alter. }
  split; intros *; rewrite ?entry_alter // ?Hsome ?Hdir; eauto.
Qed.

Lemma add_links_entries k : keeps_entries (add_links k).
Proof. intros i. unfold add_links. simpl. by destruct (i_node i). Qed.
Lemma with_mode_entries m : keeps_entries (with_mode m).
Proof. intros i. unfold with_mode. simpl. by destruct (i_node i). Qed.
Create HintDb fs.
#[export] Hint Resolve add_links_entries with_mode_entries : fs.

(** Other content for a regular file. *)
Lemma with_data_entries_of f x data old y : file_data f x = Ok old -> entries_of (alter_node (with_node (Reg data)) x f) y = entries_of f y.
Proof.
  intros H. unfold file_data in H. unfold entries_of. rewrite lookup_alter_node. case_decide; [subst|done].
  destruct (f_nodes f !! x) as [[? ? ? ? []]|]; naive_solver.
Qed.

(** ** What a change does to entries and shapes *)
Definition shape_at (f : fs) (x : Z) : option inode := shape <$> f_nodes f !! x.

Lemma is_dir_shape f x : is_dir_at f x <-> exists i, shape_at f x = Some i /\ is_dir_node (i_node i) = true.
Proof.
  rewrite is_dir_node_at. unfold shape_at. destruct (f_nodes f !! x) as [[dev uid m l []]|]; simpl; split;
    intros (i & [= <-] & H); (eexists; split; [reflexivity|done]).
Qed.

Lemma shape_some f x : is_Some (shape_at f x) <-> is_Some (f_nodes f !! x).
Proof. unfold shape_at. apply fmap_is_Some. Qed.

(** The entries of [f'] are those of [f] but for [name] in [d]. *)
Definition entry_set (f f' : fs) (d : Z) (name : pystr) (v : option Z) : Prop :=
  forall d' n', entry f' d' n' = if decide (d' = d /\ n' = name) then v else entry f d' n'.

(** The same inodes, in the same shape, under the same root. *)
Record same_inodes (f f' : fs) : Prop := {
  same_root : f_root f' = f_root f;
  same_next : f_next f' = f_next f;
  same_shape : forall x, shape_at f' x = shape_at f x;
}.

#[export] Instance same_inodes_refl : Reflexive same_inodes.
Proof. by split. Qed.
#[export] Instance same_inodes_trans : Transitive same_inodes.
Proof. intros f g h [] []. split; intros; etrans; eauto. Qed.

Lemma same_is_dir f f' x : same_inodes f f' -> is_dir_at f' x <-> is_dir_at f x.
Proof. intros [_ _ H]. by rewrite !is_dir_shape H. Qed.

Lemma entry_set_trans f g h d name v v' : entry_set f g d name v -> entry_set g h d name v' -> entry_set f h d name v'.
Proof. intros H1 H2 d' n'. rewrite H2. case_decide as E; [done|]. rewrite H1. by rewrite decide_False. Qed.

(** An alteration of one inode that keeps its shape. *)
Lemma alter_same g x f : (forall i, shape (g i) = shape i) -> same_inodes f (alter_node g x f).
Proof.
  intros Hg. split; [done..|]. intros y. unfold shape_at. rewrite lookup_alter_node. case_decide; [|done].
  destruct (f_nodes f !! y); simpl; [by rewrite Hg|done].
Qed.

Lemma add_links_same k x f : same_inodes f (alter_node (add_links k) x f) /\
  forall d n, entry (alter_node (add_links k) x f) d n = entry f d n.
Proof. split; [by apply alter_same|]. intros. apply entry_alter, add_links_entries. Qed.

Lemma remove_entry_spec f d name : same_inodes f (remove_entry f d name) /\ entry_set f (remove_entry f d name) d name None.
Proof.
  unfold remove_entry. split.
  - apply alter_same. intros [dev uid m l []]; done.
  - intros d' n'. unfold entry, entries_of. rewrite lookup_alter_node. case_decide as Hd.
    + subst d'. destruct (f_nodes f !! d) as [[dev uid m l []]|]; simpl; try by case_decide.
      case_decide as Hn; [by destruct Hn as [_ ->]; rewrite lookup_delete_eq|].
      rewrite lookup_delete_ne //. intros ->. by apply Hn.
    + rewrite decide_False; [by intros []|done].
Qed.

Lemma add_entry_spec f d name x : is_dir_at f d ->
  same_inodes f (add_entry f d name x) /\ entry_set f (add_entry f d name x) d name (Some x).
Proof.
  intros [e He]. unfold add_entry. split.
  - apply alter_same. intros [dev uid m l []]; done.
  - intros d' n'. unfold entry, entries_of in *. rewrite lookup_alter_node. case_decide as Hd.
    + subst d'. destruct (f_nodes f !! d) as [[dev uid m l []]|]; simpl in *; try done.
      case_decide as Hn; [by destruct Hn as [_ ->]; rewrite lookup_insert_eq|].
      rewrite lookup_insert_ne //. intros ->. by apply Hn.
    + rewrite decide_False; [by intros []|done].
Qed.

Lemma unlink_node_Ok f d name f' : unlink_node f d name = Ok f' ->
  exists x, entry f d name = Some x /\ ~ is_dir_at f x /\ same_inodes f f' /\ entry_set f f' d name None.
Proof.
  unfold unlink_node. rewrite rbind_Ok. intros (x & Hx%lookup_at_Ok & H). exists x. split; [done|].
  apply rbind_Ok in H as (st & Hst & H).
  apply rbind_Ok in H as (v & Hdir%raise_if_Ok & H); apply Ok_inj in H; subst f'. split; [rewrite -(S_ISDIR_at _ _ _ Hst); congruence|].
  destruct (remove_entry_spec f d name) as [Hs He]. destruct (add_links_same (-1) x (remove_entry f d name)) as [Hs' He'].
  split; [exact (transitivity Hs Hs')|]. intros d' n'. by rewrite He' He.
Qed.

Lemma rmdir_node_Ok f d name f' : rmdir_node f d name = Ok f' ->
  exists x, entry f d name = Some x /\ entries_of f x = Some ∅ /\ same_inodes f f' /\ entry_set f f' d name None.
Proof.
  unfold rmdir_node. rewrite rbind_Ok. intros (x & Hx%lookup_at_Ok & H). exists x. split; [done|].
  destruct (entries_of f x) as [e|] eqn:Ee; [|done].
  apply rbind_Ok in H as (v & Hempty%raise_if_Ok & H); apply Ok_inj in H; subst f'. apply negb_false_iff, bool_decide_eq_true in Hempty as ->.
  split; [done|]. destruct (remove_entry_spec f d name) as [Hs He].
  destruct (add_links_same (-2) x (remove_entry f d name)) as [Hs1 He1].
  destruct (add_links_same (-1) d (alter_node (add_links (-2)) x (remove_entry f d name))) as [Hs2 He2].
  split; [exact (transitivity (transitivity Hs Hs1) Hs2)|]. intros d' n'. by rewrite He2 He1 He.
Qed.

(** A new inode. *)
Definition leaf_node (n : node) : Prop := match n with Dir e => e = ∅ | _ => True end.

Lemma add_node_Ok f d name uid mode nlink n f' x : fs_ok f -> leaf_node n -> add_node f d name uid mode nlink n = Ok (f', x) ->
  is_dir_at f d /\ entry f d name = None /\ x = f_next f /\ f_root f' = f_root f /\ f_next f' = x + 1 /\
  entry_set f f' d name (Some x) /\
  (forall y, y <> x -> shape_at f' y = shape_at f y) /\
  (exists dev, shape_at f' x = Some (mkInode dev uid mode 0 n) /\ f_nodes f' !! x = Some (mkInode dev uid mode nlink n)).
Proof.
  intros Hok Hn H. unfold add_node in H. destruct (f_nodes f !! d) as [[dev u m l [e| | | |]]|] eqn:Ed; try done.
  apply rbind_Ok in H as (v & Hfree%raise_if_Ok & [= <- <-]).
  assert (Hd : d <> f_next f) by (pose proof (ok_fresh _ Hok d (mk_is_Some _ _ Ed)); lia).
  pose proof (not_eq_sym Hd) as Hd0.
  assert (Hent : entries_of f d = Some e) by (unfold entries_of; by rewrite Ed).
  assert (Hfresh : f_nodes f !! f_next f = None).
  { apply eq_None_not_Some. intros Hs%(ok_fresh _ Hok). lia. }
  assert (Hnone : entry f d name = None).
  { unfold entry. rewrite Hent /=. apply eq_None_not_Some. intros Hs. by rewrite bool_decide_true in Hfree. }
  split; [by exists e|]. do 4 (split; [done|]). split; [|split].
  - intros d' n'. unfold entry, entries_of. simpl. destruct (decide (d' = d)) as [->|Hd'].
    + rewrite lookup_insert_ne // lookup_insert_eq Ed /=. case_decide as Hnn; [destruct Hnn as [_ ->]; apply lookup_insert_eq|].
      rewrite lookup_insert_ne //. intros ->. by apply Hnn.
    + rewrite decide_False; [by intros []|]. destruct (decide (d' = f_next f)) as [->|].
      * rewrite lookup_insert_eq Hfresh /=. destruct n; simpl in *; try done. subst. apply lookup_empty.
      * rewrite !lookup_insert_ne //; congruence.
  - intros y Hy. unfold shape_at. simpl. rewrite lookup_insert_ne; [congruence|]. destruct (decide (y = d)) as [->|].
    + rewrite lookup_insert_eq Ed /=. done.
    + rewrite lookup_insert_ne //; congruence.
  - exists dev. unfold shape_at. simpl. rewrite lookup_insert_eq. split; [|done]. simpl. f_equal. unfold shape. simpl.
    f_equal. destruct n; try done. by simpl in Hn; subst.
Qed.

(** [x] moves from [n1] in [d1] to [n2] in [d2]. *)
Definition entry_moved (f f' : fs) (x d1 : Z) (n1 : pystr) (d2 : Z) (n2 : pystr) : Prop :=
  forall d n, entry f' d n =
    if decide (d = d2 /\ n = n2) then Some x else if decide (d = d1 /\ n = n1) then None else entry f d n.

Definition move_entry (dir : bool) (d1 : Z) (n1 : pystr) (d2 : Z) (n2 : pystr) (x : Z) (f : fs) : fs :=
  let f := add_entry (remove_entry f d1 n1) d2 n2 x in
  if dir then alter_node (add_links 1) d2 (alter_node (add_links (-1)) d1 f) else f.

Lemma move_entry_spec dir d1 n1 d2 n2 x f : is_dir_at f d2 ->
  same_inodes f (move_entry dir d1 n1 d2 n2 x f) /\ entry_moved f (move_entry dir d1 n1 d2 n2 x f) x d1 n1 d2 n2.
Proof.
  intros Hd. destruct (remove_entry_spec f d1 n1) as [Hs1 He1].
  destruct (add_entry_spec (remove_entry f d1 n1) d2 n2 x) as [Hs2 He2]; [by apply (same_is_dir _ _ _ Hs1)|].
  unfold move_entry. set (g := add_entry _ _ _ _) in *.
  assert (Hg : entry_moved f g x d1 n1 d2 n2) by (intros d n; by rewrite He2 He1).
  pose proof (transitivity Hs1 Hs2) as Hs. destruct dir; [|done].
  destruct (add_links_same (-1) d1 g) as [Hs3 He3].
  destruct (add_links_same 1 d2 (alter_node (add_links (-1)) d1 g)) as [Hs4 He4]. split.
  - exact (transitivity Hs (transitivity Hs3 Hs4)).
  - intros d n. by rewrite He4 He3.
Qed.

(** What was replaced: an empty directory by a directory, another leaf by a leaf. *)
Definition replaceable (f : fs) (x d2 : Z) (n2 : pystr) : Prop :=
  forall y, entry f d2 n2 = Some y ->
    (is_dir_at f x -> entries_of f y = Some ∅) /\ (~ is_dir_at f x -> ~ is_dir_at f y).

Lemma rename_node_Ok f d1 n1 d2 n2 f' : rename_node f d1 n1 d2 n2 = Ok f' ->
  exists x, entry f d1 n1 = Some x /\ x <> d2 /\ is_dir_at f d2 /\ same_inodes f f' /\
    ((f' = f /\ entry f d2 n2 = Some x) \/ (entry_moved f f' x d1 n1 d2 n2 /\ replaceable f x d2 n2)).
Proof.
  unfold rename_node. rewrite rbind_Ok. intros (x & Hx%lookup_at_Ok & H). exists x. split; [done|].
  apply rbind_Ok in H as (st & Hst & H). apply rbind_Ok in H as (parent & _ & H).
  apply rbind_Ok in H as (v1 & _ & H). apply rbind_Ok in H as (v2 & Hne%raise_if_Ok%Z.eqb_neq & H). split; [done|].
  destruct (lookup_at f d2 n2) as [y|[]] eqn:Hy; try done.
  - apply lookup_at_Ok in Hy. pose proof (entry_dir _ _ _ _ Hy) as Hd. split; [done|].
    destruct (Z.eqb_spec y x) as [->|Hyx]; [apply Ok_inj in H as ->; split; [done|]; by left|].
    apply rbind_Ok in H as (old & Hold & H). pose proof (S_ISDIR_at _ _ _ Hst) as Hdir. pose proof (S_ISDIR_at _ _ _ Hold) as Holdd.
    destruct (S_ISDIR st).
    + apply rbind_Ok in H as (v3 & _ & H). apply rbind_Ok in H as (g & Hg & H). apply Ok_inj in H as ->.
      apply rmdir_node_Ok in Hg as (y' & Hy' & Hempty & Hs & He). rewrite Hy in Hy'. injection Hy' as <-.
      destruct (move_entry_spec true d1 n1 d2 n2 x g) as [Hs' He']; [by apply (same_is_dir _ _ _ Hs)|].
      split; [exact (transitivity Hs Hs')|]. right. split.
      * intros d n. etrans; [apply (He' d n)|]. case_decide; [done|]. case_decide; [done|]. rewrite He. by rewrite decide_False.
      * intros z Hz. rewrite Hy in Hz. injection Hz as <-. naive_solver.
    + apply rbind_Ok in H as (v3 & Hf%raise_if_Ok & H). apply Ok_inj in H as ->.
      destruct (add_links_same (-1) y f) as [Hs He].
      destruct (move_entry_spec false d1 n1 d2 n2 x (alter_node (add_links (-1)) y f)) as [Hs' He']; [by apply (same_is_dir _ _ _ Hs)|].
      split; [exact (transitivity Hs Hs')|]. right. split; [by intros d n; etrans; [apply (He' d n)|]; rewrite He|].
      intros z Hz. rewrite Hy in Hz. injection Hz as <-. rewrite Hf in Holdd. naive_solver.
  - destruct e; try done. apply Ok_inj in H as ->.
    assert (Hd : is_dir_at f d2) by (unfold lookup_at in Hy; destruct (entries_of f d2) as [g|] eqn:E; [by exists g|done]).
    destruct (move_entry_spec (S_ISDIR st) d1 n1 d2 n2 x f Hd) as [Hs He]. split; [done|]. split; [done|]. right. split; [done|].
    intros z Hz. apply lookup_at_Ok in Hz. congruence.
Qed.

(** ** The invariant is kept *)
Lemma set_none_ok f f' d name : same_inodes f f' -> entry_set f f' d name None -> fs_ok f -> fs_ok f'.
Proof.
  intros Hs He [H1 H2 H3 H4 H5].
  assert (Hsub : forall d n y, entry f' d n = Some y -> entry f d n = Some y).
  { intros d' n y. rewrite He. by case_decide. }
  split.
  - intros x. rewrite -shape_some (same_shape _ _ Hs) shape_some (same_next _ _ Hs). apply H1.
  - intros d' n y Hy%Hsub. rewrite -shape_some (same_shape _ _ Hs) shape_some. exact (H2 _ _ _ Hy).
  - intros d1 n1 d2 n2 y Ha%Hsub Hb%Hsub. rewrite (same_is_dir _ _ _ Hs). exact (H3 _ _ _ _ _ Ha Hb).
  - intros d' n Hr%Hsub. rewrite (same_root _ _ Hs) in Hr. exact (H4 _ _ Hr).
  - rewrite (same_root _ _ Hs). by apply (same_is_dir _ _ _ Hs).
Qed.

Lemma moved_ok f f' x d1 n1 d2 n2 : same_inodes f f' -> entry_moved f f' x d1 n1 d2 n2 -> entry f d1 n1 = Some x ->
  fs_ok f -> fs_ok f'.
Proof.
  intros Hs He Hx [H1 H2 H3 H4 H5].
  assert (Hsub : forall d n y, entry f' d n = Some y -> (d = d2 /\ n = n2 /\ y = x) \/ (entry f d n = Some y /\ ~ (d = d1 /\ n = n1))).
  { intros d n y. rewrite He. case_decide; [naive_solver|]. case_decide; naive_solver. }
  split.
  - intros y. rewrite -shape_some (same_shape _ _ Hs) shape_some (same_next _ _ Hs). apply H1.
  - intros d n y Hy. rewrite -shape_some (same_shape _ _ Hs) shape_some.
    destruct (Hsub _ _ _ Hy) as [(-> & -> & ->)|[Hf _]]; [exact (H2 _ _ _ Hx)|exact (H2 _ _ _ Hf)].
  - intros da na db nb y Ha Hb. rewrite (same_is_dir _ _ _ Hs). intros Hy.
    destruct (Hsub _ _ _ Ha) as [(-> & -> & ->)|[Ha' Hna]], (Hsub _ _ _ Hb) as [(-> & -> & Hyx)|[Hb' Hnb]]; subst.
    + done.
    + destruct Hnb. exact (H3 _ _ _ _ _ Hb' Hx Hy).
    + destruct Hna. exact (H3 _ _ _ _ _ Ha' Hx Hy).
    + exact (H3 _ _ _ _ _ Ha' Hb' Hy).
  - intros d n Hr. rewrite (same_root _ _ Hs) in Hr. destruct (Hsub _ _ _ Hr) as [(_ & _ & E)|[Hr' _]]; [rewrite -E in Hx; exact (H4 _ _ Hx)|exact (H4 _ _ Hr')].
  - rewrite (same_root _ _ Hs). by apply (same_is_dir _ _ _ Hs).
Qed.

Lemma rename_ok f d1 n1 d2 n2 f' : rename_node f d1 n1 d2 n2 = Ok f' -> fs_ok f -> fs_ok f'.
Proof. intros (x & Hx & _ & _ & Hs & [[-> _]|[He _]])%rename_node_Ok; [done|]. exact (moved_ok _ _ _ _ _ _ _ Hs He Hx). Qed.
Lemma unlink_ok f d name f' : unlink_node f d name = Ok f' -> fs_ok f -> fs_ok f'.
Proof. intros (x & _ & _ & Hs & He)%unlink_node_Ok. exact (set_none_ok _ _ _ _ Hs He). Qed.
Lemma rmdir_ok f d name f' : rmdir_node f d name = Ok f' -> fs_ok f -> fs_ok f'.
Proof. intros (x & _ & _ & Hs & He)%rmdir_node_Ok. exact (set_none_ok _ _ _ _ Hs He). Qed.

Lemma add_dirs f d name uid mode nlink n f' x : fs_ok f -> leaf_node n -> add_node f d name uid mode nlink n = Ok (f', x) ->
  forall y, is_dir_at f' y -> y = x \/ is_dir_at f y.
Proof.
  intros Hok Hn H y. destruct (add_node_Ok _ _ _ _ _ _ _ _ _ Hok Hn H) as (_ & _ & _ & _ & _ & _ & Hs & _).
  destruct (decide (y = x)) as [|Hy]; [by left|]. rewrite !is_dir_shape Hs //. by right.
Qed.

Lemma add_ok f d name uid mode nlink n f' x : leaf_node n -> add_node f d name uid mode nlink n = Ok (f', x) -> fs_ok f -> fs_ok f'.
Proof.
  intros Hn H Hok. pose proof (add_dirs _ _ _ _ _ _ _ _ _ Hok Hn H) as Hdirs.
  apply add_node_Ok in H as (Hd & Hnone & Hx & Hr & Hnext & He & Hs & (dev & Hnew & _)); [|done..].
  pose proof Hok as [H1 H2 H3 H4 H5].
  assert (Hlt : forall d' n' y, entry f d' n' = Some y -> y <> x).
  { intros d' n' y Hy%H2%H1. lia. }
  assert (Hsub : forall d' n' y, entry f' d' n' = Some y -> (d' = d /\ n' = name /\ y = x) \/ (entry f d' n' = Some y /\ y <> x)).
  { intros d' n' y. rewrite He. case_decide; [naive_solver|]. eauto. }
  split.
  - intros y. rewrite -shape_some Hnext. destruct (decide (y = x)) as [->|]; [lia|]. rewrite Hs // shape_some. intros Hy%H1. lia.
  - intros d' n' y Hy. rewrite -shape_some. destruct (Hsub _ _ _ Hy) as [(-> & -> & ->)|[Hy' Hne]]; [by rewrite Hnew|].
    rewrite Hs // shape_some. exact (H2 _ _ _ Hy').
  - intros d1 n1 d2 n2 y Ha Hb Hy.
    destruct (Hsub _ _ _ Ha) as [(-> & -> & ->)|[Ha' Hna]], (Hsub _ _ _ Hb) as [(-> & -> & Hyx)|[Hb' Hnb]]; try done.
    destruct (Hdirs _ Hy) as [|Hy']; [done|]. exact (H3 _ _ _ _ _ Ha' Hb' Hy').
  - intros d' n' Hy. rewrite Hr in Hy. destruct (Hsub _ _ _ Hy) as [(_ & _ & E)|[Hy' _]]; [|exact (H4 _ _ Hy')].
    pose proof (H1 (f_root f)) as Hl. rewrite E Hx in Hl. destruct H5 as [e Hroot]. rewrite E Hx in Hroot.
    apply entries_of_node in Hroot as (i & Hi & _). specialize (Hl (mk_is_Some _ _ Hi)). lia.
  - rewrite Hr is_dir_shape Hs; [|by apply is_dir_shape]. intros E. destruct H5 as [e Hroot].
    apply entries_of_node in Hroot as (i & Hi & _). pose proof (H1 _ (mk_is_Some _ _ Hi)). lia.
Qed.

Lemma data_ok f x data old : file_data f x = Ok old -> fs_ok f -> fs_ok (alter_node (with_node (Reg data)) x f).
Proof.
  intros Hx [H1 H2 H3 H4 H5].
  assert (He : forall d n, entry (alter_node (with_node (Reg data)) x f) d n = entry f d n).
  { intros. unfold entry. by rewrite (with_data_entries_of _ _ _ _ _ Hx). }
  assert (Hsome : forall y, is_Some (f_nodes (alter_node (with_node (Reg data)) x f) !! y) <-> is_Some (f_nodes f !! y)).
  { intros y. rewrite lookup_alter_node. case_decide; [by rewrite fmap_is_Some|done]. }
  assert (Hdir : forall y, is_dir_at (alter_node (with_node (Reg data)) x f) y <-> is_dir_at f y).
  { intros y. unfold is_dir_at. by rewrite (with_data_entries_of _ _ _ _ _ Hx). }
  split; intros *; rewrite ?He // ?Hsome ?Hdir; eauto.
Qed.

(** ** Calm worlds *)

(** An error that tells where a path leads; an injected fault is none. *)
Definition fault_of (e : exn) : Prop := leads_nowhere e = false.
Definition calm_step (k : kernel) : Prop :=
  match k with Interferes _ => False | Fails e => fault_of (OSError e) | _ => True end.
(** Random tokens are names: they hold no slash. *)
Record calm (w : world) : Prop := {
  calm_script : Forall calm_step (w_script w);
  calm_tokens : Forall (fun t => 47 ∉ t) (w_tokens w);
}.

Lemma calm_set_fs f w : calm w -> calm (set_fs f w).
Proof. by intros []. Qed.
#[export] Hint Extern 0 (calm (set_fs _ _)) => apply calm_set_fs; assumption : core.

(** What holds of the file system, in a calm world. *)
Definition holds (P : fs -> Prop) (w : world) : Prop := calm w /\ P (w_fs w).

Section Calm.
Context (P : fs -> Prop).

Lemma transfer_holds : triple (holds P) transfer (fun _ => holds P) (fun e w => holds P w /\ fault_of e).
Proof.
  intros w [[Hc Ht] HP]. unfold transfer, holds. destruct (w_script w) as [|k ks] eqn:E; [by split; [split; [rewrite E|]|]|].
  apply Forall_cons in Hc as [Hk Hks]. clear E.
  destruct k; repeat split; done.
Qed.

Lemma syscall_holds : triple (holds P) syscall (fun _ => holds P) (fun e w => holds P w /\ fault_of e).
Proof. apply (triple_bind _ _ _ _ _ _ transfer_holds). intros a. by apply triple_ret. Qed.

(** A question is answered truthfully, or fails. *)
Lemma query_holds {A} (q : fs -> result A) :
  triple (holds P) (query q) (fun a => holds (fun f => P f /\ q f = Ok a))
    (fun e => holds (fun f => P f /\ (q f = Err e \/ fault_of e))).
Proof.
  apply (triple_bind _ _ _ (fun _ => holds P)).
  { eapply triple_weaken; [apply syscall_holds|done|done|]. intros e w [[Hc HP] He]. by split; [|split; [|right]]. }
  intros _. apply (triple_bind _ _ _ (fun f w => holds P w /\ f = w_fs w)); [by apply triple_get|].
  intros f. apply triple_lift; intros w a [[Hc HP] ->] H; split; auto.
Qed.

(** A change is made, or nothing happens. *)
Lemma change_holds {A} (q : fs -> result (fs * A)) (Q : A -> fs -> Prop) :
  (forall f f' a, P f -> q f = Ok (f', a) -> Q a f') ->
  triple (holds P) (change q) (fun a => holds (Q a)) (fun e => holds (fun f => P f /\ ((exists e', q f = Err e' /\ e = e') \/ fault_of e))).
Proof.
  intros Hq. apply (triple_bind _ _ _ (fun _ => holds P)).
  { eapply triple_weaken; [apply syscall_holds|done|done|]. intros e w [[Hc HP] He]. by split; [|split; [|right]]. }
  intros _. apply (triple_bind _ _ _ (fun f w => holds P w /\ f = w_fs w)); [by apply triple_get|].
  intros f. apply (triple_bind _ _ _ (fun r w => holds P w /\ q (w_fs w) = Ok r)).
  { apply triple_lift; [by intros w a [H ->]|].
    intros w e [[Hc HP] ->] H. split; [done|]. split; [done|]. left. by exists e. }
  intros [f' a]. apply (triple_bind _ _ _ (fun _ => holds (Q a))); [apply triple_put|].
  - intros w [[Hc HP] H]. split; [done|]. exact (Hq _ _ _ HP H).
  - intros _. by apply triple_ret.
Qed.
End Calm.

(** ** What every system call keeps *)
Section Reading.
Context (P : fs -> Prop).
Notation reads m := (keeps (holds P) m).

Lemma keeps_transfer : reads transfer.
Proof. eapply triple_weaken; [exact (transfer_holds P)|done..|]. by intros e w []. Qed.
Lemma keeps_syscall : reads syscall.
Proof. eapply triple_weaken; [exact (syscall_holds P)|done..|]. by intros e w []. Qed.
Lemma keeps_query {A} (q : fs -> result A) : reads (query q).
Proof. eapply triple_weaken; [exact (query_holds P q)|done|..]; intros ? w [Hc [HP _]]; by split. Qed.
Lemma keeps_change {A} (q : fs -> result (fs * A)) : (forall f f' a, P f -> q f = Ok (f', a) -> P f') -> reads (change q).
Proof. intros Hq. eapply triple_weaken; [exact (change_holds P q (fun _ => P) Hq)|done|done|]. intros ? w [Hc [HP _]]; by split. Qed.
Lemma keeps_change_ (q : fs -> result fs) : (forall f f', P f -> q f = Ok f' -> P f') -> reads (change_ q).
Proof. intros Hq. apply keeps_change. intros f f' [] HP (g & Hg & [= <-])%rbind_Ok. exact (Hq _ _ HP Hg). Qed.
Lemma keeps_token : reads token_hex.
Proof. intros w [[Hc Ht] HP]. split; [|done]. split; [done|]. simpl. by destruct (w_tokens w) as [|t ts]; [|apply Forall_cons in Ht as [_ Ht]]. Qed.
Lemma keeps_read fd offset n : reads (os_read fd offset n).
Proof. unfold os_read. apply keeps_bind; [apply keeps_transfer|]. intros. repeat (apply keeps_bind; [auto with keeps|intros]). apply keeps_ret. Qed.
Lemma keeps_nowhere m : reads m -> reads (or_nowhere m).
Proof. intros. apply keeps_catch; [done|]. intros e. destruct (leads_nowhere e); auto with keeps. Qed.
Lemma keeps_exists p : reads (exists_path p).
Proof. apply keeps_nowhere, keeps_bind; [apply keeps_query|intros; apply keeps_ret]. Qed.
Lemma keeps_is_dir p : reads (is_dir_path p).
Proof. apply keeps_nowhere, keeps_bind; [apply keeps_query|intros; apply keeps_ret]. Qed.
Lemma keeps_lexists p : reads (lexists p).
Proof. apply keeps_catch; [apply keeps_bind; [apply keeps_query|intros; apply keeps_ret]|]. intros. auto with keeps. Qed.
End Reading.

(** A change made with what the process is. *)
Lemma keeps_with {A} I (m : world -> io A) : (forall w, keeps I (m w)) -> keeps I (fun w => m w w).
Proof. intros H w Hw. exact (H w w Hw). Qed.

Section Invariant.
Notation ok m := (keeps (holds fs_ok) m).

Lemma keeps_create d name mode : ok (os_create d name mode).
Proof. apply (keeps_with _ (fun w => change _)). intros w. apply keeps_change. intros f f' x Hf H. exact (add_ok _ _ _ _ _ _ (Reg []) _ _ I H Hf). Qed.

Lemma add_named f d name uid mode nlink n f' : leaf_node n ->
  (let? '(f', _) := add_node f d name uid mode nlink n in Ok f') = Ok f' -> fs_ok f -> fs_ok f'.
Proof. intros Hn ([g x] & Hg & [= <-])%rbind_Ok. exact (add_ok _ _ _ _ _ _ _ _ _ Hn Hg). Qed.

Lemma keeps_symlink target d name : ok (os_symlink_at target d name).
Proof. apply (keeps_with _ (fun w => change_ _)). intros w. apply keeps_change_. intros f f' Hf H. eapply add_named; [|exact H|exact Hf]; done. Qed.
Lemma keeps_mkdir_at d name mode : ok (os_mkdir_at d name mode).
Proof. apply (keeps_with _ (fun w => change_ _)). intros w. apply keeps_change_. intros f f' Hf H. eapply add_named; [|exact H|exact Hf]; done. Qed.
Lemma keeps_mkdir p mode : ok (os_mkdir p mode).
Proof.
  apply (keeps_with _ (fun w => change_at p _)). intros w. apply keeps_change_. intros f f' Hf ([d n] & _ & H)%rbind_Ok.
  eapply add_named; [|exact H|exact Hf]; done.
Qed.
Lemma keeps_fchmod fd mode : ok (os_fchmod fd mode).
Proof. apply keeps_change_. intros f f' Hf [= <-]. apply alter_ok; auto with fs. Qed.
Lemma keeps_chmod p mode : ok (os_chmod p mode).
Proof. apply keeps_change_. intros f f' Hf (x & _ & [= <-])%rbind_Ok. apply alter_ok; auto with fs. Qed.
Lemma keeps_rename d1 n1 d2 n2 : ok (os_rename d1 n1 d2 n2).
Proof. apply keeps_change_. intros f f' Hf H. exact (rename_ok _ _ _ _ _ _ H Hf). Qed.
Lemma keeps_rename_path src dst : ok (os_rename_path src dst).
Proof.
  apply keeps_change_. intros f f' Hf ([d1 n1] & _ & ([d2 n2] & _ & H)%rbind_Ok)%rbind_Ok. exact (rename_ok _ _ _ _ _ _ H Hf).
Qed.
Lemma keeps_unlink_at d name : ok (os_unlink_at d name).
Proof. apply keeps_change_. intros f f' Hf H. exact (unlink_ok _ _ _ _ H Hf). Qed.
Lemma keeps_unlink p : ok (os_unlink p).
Proof. apply keeps_change_. intros f f' Hf ([d n] & _ & H)%rbind_Ok. exact (unlink_ok _ _ _ _ H Hf). Qed.
Lemma keeps_rmdir_at d name : ok (os_rmdir_at d name).
Proof. apply keeps_change_. intros f f' Hf H. exact (rmdir_ok _ _ _ _ H Hf). Qed.

Lemma keeps_write fd data : ok (os_write fd data).
Proof.
  unfold os_write. apply (triple_bind _ _ _ (fun _ => holds fs_ok)).
  { exact (keeps_transfer fs_ok). }
  intros limit. apply (triple_bind _ _ _ (fun f w => holds fs_ok w /\ f = w_fs w)); [by apply triple_get|]. intros f.
  apply (triple_bind _ _ _ (fun old w => holds fs_ok w /\ f = w_fs w /\ file_data f fd = Ok old)).
  { apply triple_lift; intros; intuition. }
  intros old. apply (triple_bind _ _ _ (fun _ => holds fs_ok)); [|intros _; apply keeps_ret].
  apply triple_put. intros w ([Hc Hok] & -> & H). split; [done|]. exact (data_ok _ _ _ _ H Hok).
Qed.

Lemma keeps_write_bytes p data : ok (write_bytes p data).
Proof.
  apply (keeps_with _ (fun w => change_ _)). intros w. apply keeps_change_. intros f f' Hf H.
  destruct (resolve f p true) as [x|[]]; try done.
  - apply rbind_Ok in H as (old & Hx & [= <-]). exact (data_ok _ _ _ _ Hx Hf).
  - destruct e; try done. apply rbind_Ok in H as ([d n] & _ & H). eapply add_named; [|exact H|exact Hf]; done.
Qed.
End Invariant.

#[export] Hint Resolve keeps_transfer keeps_syscall keeps_query keeps_token keeps_read keeps_nowhere keeps_exists keeps_is_dir
  keeps_lexists keeps_create keeps_symlink keeps_mkdir_at keeps_mkdir keeps_fchmod keeps_chmod keeps_rename keeps_rename_path
  keeps_unlink_at keeps_unlink keeps_rmdir_at keeps_write keeps_write_bytes : keeps.
