(* ===== verification/FileViews.v ===== *)
(** * What a path shows

    [see f p] is the inode that the path [p] leads to when no symbolic link is
    followed, in the way the lifecycle code opens paths: directory by directory
    from the root.  Two frame relations say which paths an operation may change:
    [touched] (some names of one directory) and [pruned] (deletions below one
    directory); [grown] says that nothing was changed but added. *)
From S2P Require Import Prelude PyText Effect Files FilesProofs.
#[local] Open Scope eff_scope.

(** The directory that [parts] lead to from [d]. *)
Fixpoint chain (f : fs) (d : Z) (parts : list pystr) : option Z :=
  match parts with
  | [] => Some d
  | n :: rest =>
      match entry f d n with
      | Some x => match entries_of f x with Some _ => chain f x rest | None => None end
      | None => None
      end
  end.

Definition directory_of (f : fs) (p : posix_path) : option Z := chain f (f_root f) (path_tail (path_parent p)).
Definition see_at (f : fs) (d : Z) (name : pystr) : option inode := entry f d name ≫= shape_at f.
Definition see (f : fs) (p : posix_path) : option inode := directory_of f p ≫= fun d => see_at f d (path_name p).

Lemma chain_cons f d n rest z :
  chain f d (n :: rest) = Some z <-> exists x, entry f d n = Some x /\ is_dir_at f x /\ chain f x rest = Some z.
Proof.
  simpl. unfold is_dir_at. destruct (entry f d n) as [x|]; [|naive_solver].
  destruct (entries_of f x) eqn:E; split; try done.
  - intros H. exists x. by rewrite E.
  - by intros (y & [= <-] & _ & H).
  - intros (y & [= <-] & [? H] & _). congruence.
Qed.

Lemma chain_app f d a b z : chain f d (a ++ b) = Some z <-> exists x, chain f d a = Some x /\ chain f x b = Some z.
Proof.
  revert d. induction a as [|n a IH]; intros d; [simpl; naive_solver|]. rewrite -app_comm_cons !chain_cons. split.
  - intros (x & Hx & Hd & (y & Hy & Hz)%IH). exists y. split; [|done]. apply chain_cons. by exists x.
  - intros (y & (x & Hx & Hd & Hy)%chain_cons & Hz). exists x. split; [done|]. split; [done|]. apply IH. by exists y.
Qed.

(** In a tree a directory is reached in one way. *)
Lemma chain_unique f a b z : fs_ok f -> chain f (f_root f) a = Some z -> chain f (f_root f) b = Some z -> a = b.
Proof.
  intros Hok. revert b z. induction a as [|m a IH] using rev_ind; intros b z; destruct b as [|n b _] using rev_ind; [done| | |].
  - intros [= <-] (x & _ & (y & Hy & _ & [= ->])%chain_cons)%chain_app. by destruct (ok_root _ Hok _ _ Hy).
  - intros (x & _ & (y & Hy & _ & [= ->])%chain_cons)%chain_app [= <-]. by destruct (ok_root _ Hok _ _ Hy).
  - intros (x & Hx & (y & Hxy & Hd & [= ->])%chain_cons)%chain_app (x' & Hx' & (y' & Hxy' & _ & [= ->])%chain_cons)%chain_app.
    destruct (ok_tree _ Hok _ _ _ _ _ Hxy Hxy' Hd) as [-> ->]. by rewrite (IH _ _ Hx Hx').
Qed.

Lemma see_entry f p d : directory_of f p = Some d -> see f p = see_at f d (path_name p).
Proof. unfold see. by intros ->. Qed.

(** ** Some names of one directory *)
Record touched (f f' : fs) (d : Z) (names : list pystr) : Prop := {
  t_root : f_root f' = f_root f;
  t_next : f_next f <= f_next f';
  t_entry : forall x n, ~ (x = d /\ n ∈ names) -> entry f' x n = entry f x n;
  t_shape : forall x i, shape_at f x = Some i -> shape_at f' x = Some i;
  t_dirs : forall x, is_dir_at f' x -> is_dir_at f x;
  t_links : forall n y, is_dir_at f y -> entry f d n = Some y <-> entry f' d n = Some y;
}.

Section Touched.
Context (d : Z) (names : list pystr).
Notation touched f f' := (touched f f' d names).

Lemma touched_refl f : touched f f.
Proof. split; try done. lia. Qed.

Lemma touched_is_dir f f' x : touched f f' -> is_dir_at f' x <-> is_dir_at f x.
Proof.
  intros H. split; [apply (t_dirs _ _ _ _ H)|]. rewrite !is_dir_shape. intros (i & Hi & Hd). exists i.
  split; [|done]. by apply (t_shape _ _ _ _ H).
Qed.

Lemma touched_trans f g h : touched f g -> touched g h -> touched f h.
Proof.
  intros H1 H2. pose proof (fun x => touched_is_dir f g x H1) as Hd1.
  destruct H1 as [a1 a2 a3 a4 a5 a6], H2 as [b1 b2 b3 b4 b5 b6].
  split; [congruence|lia| | | |].
  - intros x n Hn. by rewrite b3 // a3.
  - intros x i Hi. by apply b4, a4.
  - intros x Hx. by apply a5, b5.
  - intros n y Hy. rewrite a6 // b6 //. by apply Hd1.
Qed.

(** The directories stay where they are. *)
Lemma touched_chain f f' : touched f f' -> forall parts x, chain f' x parts = chain f x parts.
Proof.
  intros H parts. induction parts as [|n rest IH]; intros x; [done|]. apply option_eq. intros z. rewrite !chain_cons.
  assert (He : forall y, is_dir_at f y -> entry f' x n = Some y <-> entry f x n = Some y).
  { intros y Hy. destruct (decide (x = d)) as [->|Hx]; [symmetry; by apply (t_links _ _ _ _ H)|].
    rewrite (t_entry _ _ _ _ H) //. by intros []. }
  pose proof (fun y => touched_is_dir f f' y H) as Hd.
  split; intros (y & Hy & Hyd & Hz); exists y.
  - apply Hd in Hyd. rewrite He // in Hy. by rewrite -IH.
  - rewrite He // Hd IH. done.
Qed.

Lemma touched_directory f f' p : touched f f' -> directory_of f' p = directory_of f p.
Proof. intros H. unfold directory_of. by rewrite (touched_chain _ _ H) (t_root _ _ _ _ H). Qed.

Lemma touched_see_at f f' x n : fs_ok f -> touched f f' -> ~ (x = d /\ n ∈ names) -> see_at f' x n = see_at f x n.
Proof.
  intros Hok H Hn. unfold see_at. rewrite (t_entry _ _ _ _ H) //. destruct (entry f x n) as [y|] eqn:E; [|done]. simpl.
  apply (ok_linked _ Hok), shape_some in E as [i Hi]. by rewrite Hi (t_shape _ _ _ _ H _ _ Hi).
Qed.

(** A path shows what it did, unless it is one of the names. *)
Lemma touched_see f f' p : fs_ok f -> touched f f' -> ~ (directory_of f p = Some d /\ path_name p ∈ names) -> see f' p = see f p.
Proof.
  intros Hok H Hp. unfold see. rewrite (touched_directory _ _ _ H). destruct (directory_of f p) as [x|] eqn:E; [|done].
  simpl. apply touched_see_at; [done..|]. intros [-> ?]. by apply Hp.
Qed.

Lemma touched_same f f' : same_inodes f f' -> (forall x n, ~ (x = d /\ n ∈ names) -> entry f' x n = entry f x n) ->
  (forall n y, is_dir_at f y -> entry f d n = Some y <-> entry f' d n = Some y) -> touched f f'.
Proof.
  intros Hs He Hl. split; [apply (same_root _ _ Hs)|rewrite (same_next _ _ Hs); lia|done| | |done].
  - intros x i. by rewrite (same_shape _ _ Hs).
  - intros x. by apply (same_is_dir _ _ _ Hs).
Qed.
End Touched.

Lemma touched_weaken f f' d a b : (forall n, n ∈ a -> n ∈ b) -> touched f f' d a -> touched f f' d b.
Proof. intros Hab [? ? He ? ? ?]. split; try done. intros x n Hn. apply He. intros [-> Hin]. apply Hn. auto. Qed.

(** ** Programs that only read *)

(** In the file system [f], [m] returns a value of which [Q] holds or raises an error of
    which [E] holds, and changes nothing. *)
Definition asks {A} (f : fs) (m : io A) (Q : A -> Prop) (E : exn -> Prop) : Prop :=
  triple (holds (eq f)) m (fun a w => holds (eq f) w /\ Q a) (fun e w => holds (eq f) w /\ E e).

Section Asks.
Context (f : fs).

Lemma asks_query {A} (q : fs -> result A) : asks f (query q) (fun a => q f = Ok a) (fun e => q f = Err e \/ fault_of e).
Proof. eapply triple_weaken; [exact (query_holds (eq f) q)|done|..]; intros a w [Hc [Hf H]]; rewrite -Hf in H; by split. Qed.

Lemma asks_ret {A} (a : A) (Q : A -> Prop) E : Q a -> asks f (eret a) Q E.
Proof. intros H. by apply triple_ret. Qed.
Lemma asks_raise {A} e (Q : A -> Prop) (E : exn -> Prop) : E e -> asks f (eraise e) Q E.
Proof. intros H. by apply triple_raise. Qed.
Lemma asks_lift {A} (r : result A) (Q : A -> Prop) E : (forall a, r = Ok a -> Q a) -> (forall e, r = Err e -> E e) -> asks f (elift r) Q E.
Proof. intros HQ HE. apply triple_lift; intros w a Hw H; split; eauto. Qed.
Lemma asks_guard b e (Q : unit -> Prop) (E : exn -> Prop) : (b = false -> Q tt) -> (b = true -> E e) -> asks f (eguard b e) Q E.
Proof. intros HQ HE. apply triple_guard; auto. Qed.
Lemma asks_bind {A B} (m : io A) (k : A -> io B) R Q E : asks f m R E -> (forall a, R a -> asks f (k a) Q E) -> asks f (ebind m k) Q E.
Proof. intros Hm Hk. apply (triple_bind _ _ _ _ _ _ Hm). intros a w [Hw Ha]. by apply Hk. Qed.
Lemma asks_catch {A} (m : io A) h Q E E' : asks f m Q E' -> (forall e, E' e -> asks f (h e) Q E) -> asks f (ecatch m h) Q E.
Proof. intros Hm Hh. apply (triple_catch _ _ _ _ _ _ Hm). intros e w [Hw He]. by apply Hh. Qed.
Lemma asks_weaken {A} (m : io A) Q Q' E E' : asks f m Q' E' -> (forall a, Q' a -> Q a) -> (forall e, E' e -> E e) -> asks f m Q E.
Proof. intros Hm HQ HE. apply (triple_weaken _ _ _ _ _ _ _ Hm); [done|..]; intros ? w [Hw H]; eauto. Qed.
Lemma asks_keeps {A} (m : io A) : keeps (holds (eq f)) m -> asks f m (fun _ => True) (fun _ => True).
Proof. intros Hm. apply (triple_weaken _ _ _ _ _ _ _ Hm); auto. Qed.
(** Reading alone, whatever the answer. *)
Lemma keeps_asks {A} (m : io A) Q E : asks f m Q E -> keeps (holds (eq f)) m.
Proof. intros Hm. apply (triple_weaken _ _ _ _ _ _ _ Hm); [done|..]; by intros ? w []. Qed.
End Asks.

(** A file system at a time: from [P], one of its states. *)
Lemma triple_state {A} (P : fs -> Prop) (m : io A) Q E :
  (forall f, P f -> triple (holds (eq f)) m Q E) -> triple (holds P) m Q E.
Proof. intros H w [Hc HP]. by apply (H (w_fs w) HP). Qed.

(** A read in the middle of a program. *)
Lemma triple_asks {A B} (P : fs -> Prop) (m : io A) (k : A -> io B) R Q E E' :
  (forall f, P f -> asks f m (R f) (E' f)) ->
  (forall a f, P f -> R f a -> triple (holds (eq f)) (k a) Q E) ->
  (forall e f w, P f -> E' f e -> holds (eq f) w -> E e w) -> triple (holds P) (ebind m k) Q E.
Proof.
  intros Hm Hk He. apply triple_state. intros f HP. eapply (triple_bind _ _ _ (fun a w => holds (eq f) w /\ R f a)).
  - apply (triple_weaken _ _ _ _ _ _ _ (Hm f HP)); [done|done|]. intros e w [Hw H]. exact (He e f w HP H Hw).
  - intros a w [Hw Ha]. by apply (Hk a f HP Ha).
Qed.

Lemma chain_is_dir f parts d : fs_ok f -> chain f (f_root f) parts = Some d -> is_dir_at f d.
Proof.
  intros Hok. induction parts as [|n parts _] using rev_ind; [intros [= <-]; apply (ok_root_dir _ Hok)|].
  by intros (x & _ & (y & _ & Hd & [= ->])%chain_cons)%chain_app.
Qed.

(** A read, and what it tells, in a program that has [P] until then. *)
Lemma triple_learn {A B} (P : fs -> Prop) (m : io A) (k : A -> io B) R Q E (T : B -> world -> Prop) (F : exn -> world -> Prop) :
  (forall f, P f -> asks f m (Q f) (E f)) -> (forall f a, P f -> Q f a -> R a) ->
  (forall a, R a -> triple (holds P) (k a) T F) -> (forall e w, holds P w -> F e w) -> triple (holds P) (ebind m k) T F.
Proof.
  intros Hm HR Hk HF. eapply triple_asks; [exact Hm| |].
  - intros a f HP HQ w [Hc Hf]. apply (Hk a (HR f a HP HQ) w). split; [done|]. by rewrite -Hf.
  - intros e f w HP _ [Hc Hf]. apply HF. split; [done|]. by rewrite -Hf.
Qed.

Lemma keeps_learn {A B} (P : fs -> Prop) (m : io A) (k : A -> io B) R Q E :
  (forall f, P f -> asks f m (Q f) (E f)) -> (forall f a, P f -> Q f a -> R a) -> (forall a, R a -> keeps (holds P) (k a)) ->
  keeps (holds P) (ebind m k).
Proof. intros Hm HR Hk. eapply triple_learn; [exact Hm|exact HR|exact Hk|done]. Qed.

Lemma triple_then {A B} I (m : io A) (k : A -> io B) Q E :
  keeps I m -> (forall a, triple I (k a) Q E) -> (forall e w, I w -> E e w) -> triple I (ebind m k) Q E.
Proof. intros Hm Hk HE. apply (triple_bind _ _ _ (fun _ => I)); [|done]. eapply triple_weaken; [exact Hm|done..]. Qed.

(** The error handlers of the lifecycle code raise another error. *)
Lemma asks_catch_raise {A} f (m : io A) h Q E : asks f m Q E -> (forall e, exists e', h e = eraise e') ->
  asks f (ecatch m h) Q (fun _ => True).
Proof. intros Hm Hh. eapply asks_catch; [exact Hm|]. intros e _. destruct (Hh e) as [e' ->]. by apply asks_raise. Qed.

(** ** Growth

    Every inode keeps its shape and every entry its inode. *)
Record grown (f f' : fs) : Prop := {
  gr_root : f_root f' = f_root f;
  gr_entry : forall d n x, entry f d n = Some x -> entry f' d n = Some x;
  gr_shape : forall x i, shape_at f x = Some i -> shape_at f' x = Some i;
}.

#[export] Instance grown_refl : Reflexive grown.
Proof. by split. Qed.
#[export] Instance grown_trans : Transitive grown.
Proof. intros f g h [] []. split; [congruence|eauto..]. Qed.

Lemma grown_dir f f' x : grown f f' -> is_dir_at f x -> is_dir_at f' x.
Proof. intros H (i & Hi & Hd)%is_dir_shape. apply is_dir_shape. exists i. split; [|done]. by apply (gr_shape _ _ H). Qed.

Lemma grown_chain f f' parts : grown f f' -> forall d x, chain f d parts = Some x -> chain f' d parts = Some x.
Proof.
  intros H. induction parts as [|n parts IH]; intros d x; [done|]. rewrite !chain_cons. intros (y & Hy & Hd & Hx). exists y.
  split; [by apply (gr_entry _ _ H)|]. split; [exact (grown_dir _ _ _ H Hd)|]. by apply IH.
Qed.

(** A new inode under a new name. *)
Lemma grown_add f d name uid mode nlink n f' x : fs_ok f -> leaf_node n -> add_node f d name uid mode nlink n = Ok (f', x) ->
  grown f f' /\ fs_ok f' /\ entry f' d name = Some x /\ entry f d name = None /\ shape_at f x = None /\
  exists dev, shape_at f' x = Some (mkInode dev uid mode 0 n).
Proof.
  intros Hok Hn H. pose proof (add_ok _ _ _ _ _ _ _ _ _ Hn H Hok) as Hok'.
  apply add_node_Ok in H as (Hd & Hnone & Hx & Hr & Hnx & He & Hs & (dev & Hnew & _)); [|done..].
  assert (Hfresh : shape_at f x = None).
  { apply eq_None_not_Some. rewrite shape_some Hx. intros Hf%(ok_fresh _ Hok). lia. }
  split; [|split; [done|]]; [split; [done| |]|].
  - intros d' n' y Hy. rewrite He. case_decide as E; [|done]. destruct E as [-> ->]. congruence.
  - intros y i Hy. rewrite Hs //. intros ->. congruence.
  - split; [rewrite He decide_True //|]. split; [done|]. split; [done|]. by exists dev.
Qed.

(** An inode that is new since [f0] may change. *)
Lemma grown_alter f0 f g x : grown f0 f -> shape_at f0 x = None -> keeps_entries g -> grown f0 (alter_node g x f).
Proof.
  intros [Hr He Hs] Hx Hg. split; [done| |].
  - intros d n y Hy. rewrite entry_alter //. by apply He.
  - intros y i Hy. unfold shape_at. rewrite lookup_alter_node. case_decide as E; [subst; congruence|]. by apply Hs.
Qed.
