(* ===== verification/Samples.v ===== *)
(** * A sample home directory

    The world in which the witnesses of the file system's theorems run: a user's home
    with a [.bashrc], made with the model's own system calls. *)
From S2P Require Import Prelude PyText PyVal PyFloat Json Codec Model Contract Effect Files FilesProofs.
#[local] Open Scope eff_scope.

Definition home_paths : LifecyclePaths :=
  Eval vm_compute in match resolve_lifecycle_paths (fun _ => None) (parse_path (u "/home/a")) with
    | Ok p => p | Err _ => mkPaths (mkPath [] []) (mkPath [] []) (mkPath [] []) (mkPath [] []) (mkPath [] []) (mkPath [] [])
        (mkPath [] []) (mkPath [] []) (mkPath [] []) (mkPath [] []) (mkPath [] []) (mkPath [] []) (mkPath [] []) (mkPath [] [])
        (mkPath [] []) (mkPath [] []) [] end.

Definition empty_fs : fs := mkFs {[ 0 := mkInode 1 0 0x1ED 2 (Dir ∅) ]} 0 1.

Lemma empty_fs_ok : fs_ok empty_fs.
Proof.
  assert (H : forall d n y, entry empty_fs d n <> Some y).
  { intros d n y. unfold entry, entries_of. simpl. destruct (decide (d = 0)) as [->|Hd].
    - rewrite lookup_singleton_eq /= lookup_empty.  intros E. discriminate E.
    - rewrite lookup_singleton_ne; [intros E; by apply Hd|]. discriminate. }
  split.
  - intros x [i Hi]. simpl in Hi. apply lookup_singleton_Some in Hi as [<- _]. simpl. lia.
  - intros d n y Hy. by destruct (H d n y).
  - intros d1 n1 d2 n2 y Hy. by destruct (H d1 n1 y).
  - intros d n. apply H.
  - unfold is_dir_at, entries_of. simpl. rewrite lookup_singleton_eq. exact (mk_is_Some _ _ eq_refl).
Qed.

Definition made_directories : list pystr :=
  map u ["/home"; "/home/a"; "/home/a/.local"; "/home/a/.local/share"; "/home/a/.local/state"; "/home/a/.local/bin"; "/home/a/.config";
         "/home/a/.config/autostart"; "/home/a/.config/termrecall"].
Definition bashrc_text : pybytes := u "alias ll=ls" ++ [10].

Definition make_home : io unit :=
  eforeach (fun d => os_mkdir (parse_path d) 0x1C0) made_directories ;;
  write_bytes (bashrc home_paths) bashrc_text ;;
  os_chmod (bashrc home_paths) 0x1A4.

(** The home, and what its next system calls and random tokens are. *)
Definition home_fs : fs := Eval vm_compute in w_fs (make_home (mkWorld empty_fs 1000 0x12 [] [])).2.
Definition home_world (script : list kernel) (tokens : list pystr) : world := mkWorld home_fs 1000 0x12 script tokens.

Lemma home_fs_ok : fs_ok home_fs.
Proof.
  assert (H : keeps (holds fs_ok) make_home).
  { apply keeps_bind; [apply keeps_foreach; intros; apply keeps_mkdir|intros _].
    apply keeps_bind; [apply keeps_write_bytes|intros _]. apply keeps_chmod. }
  assert (Hw : holds fs_ok (mkWorld empty_fs 1000 0x12 [] [])) by (split; [by split|apply empty_fs_ok]).
  pose proof (keeps_run _ _ _ H Hw) as [_ Hok]. revert Hok. generalize (eq_refl : w_fs (make_home (mkWorld empty_fs 1000 0x12 [] [])).2 = home_fs).
  by intros ->.
Qed.

Definition no_slashes (tokens : list pystr) : bool := forallb (fun t => negb (existsb (Z.eqb 47) t)) tokens.
Definition calm_stepb (k : kernel) : bool :=
  match k with Interferes _ => false | Fails e => negb (leads_nowhere (OSError e)) | _ => true end.

Lemma calm_home script tokens : forallb calm_stepb script = true -> no_slashes tokens = true -> calm (home_world script tokens).
Proof.
  intros Hs Ht. split; apply Forall_forall; intros x Hx.
  - rewrite forallb_forall in Hs. specialize (Hs x (proj1 (list_elem_of_In _ _) Hx)).
    destruct x; simpl in Hs; try done. by apply negb_true_iff in Hs.
  - unfold no_slashes in Ht. rewrite forallb_forall in Ht. specialize (Ht x (proj1 (list_elem_of_In _ _) Hx)).
    intros H%list_elem_of_In. apply negb_true_iff in Ht. enough (existsb (Z.eqb 47) x = true) by congruence.
    apply existsb_exists. by exists 47.
Qed.
