(* ===== verification/LifecycleFsProofs.v ===== *)
(** * Lifecycle file operations: what they promise

    In a calm world ([calm]): a captured image is what the path shows; a write or a
    link is made whole or not at all, and changes no other path; a restored image
    is shown by its path; planning reads only. *)
From S2P Require Import Prelude PyText PyVal PyFloat Json Codec Model Contract Effect Files FilesProofs FileViews LifecycleFs Samples.
#[local] Open Scope eff_scope.

(** ** Opening directories *)
Lemma asks_open_dir f d n : asks f (os_open_dir d n) (fun x => entry f d n = Some x /\ is_dir_at f x)
  (fun e => e = OSError ENOENT -> entry f d n = None).
Proof.
  eapply asks_weaken; [apply asks_query|..].
  - intros x (y & Hy%lookup_at_Ok & H)%rbind_Ok. apply rbind_Ok in H as (st & Hst & H).
    apply rbind_Ok in H as (v & Hd%raise_if_Ok%negb_false_iff & H). apply Ok_inj in H as ->.
    split; [done|]. by apply (S_ISDIR_at _ _ _ Hst).
  - intros e [H|H] ->; [|done]. apply rbind_Err in H as [H|(x & Hx & H)].
    + unfold lookup_at in H. unfold entry. destruct (entries_of f d) as [es|]; [|done]. simpl.
      destruct (es !! n); [done|done].
    + apply rbind_Err in H as [H|(st & _ & H)]; [unfold node_at in H; by destruct (f_nodes f !! x)|].
      apply rbind_Err in H as [[_ H]%raise_if_Err|(v & _ & H)]; done.
Qed.

Lemma asks_open_chain f parts d : asks f (open_chain d parts) (fun x => chain f d parts = Some x)
  (fun e => e = OSError ENOENT -> chain f d parts = None).
Proof.
  revert d. induction parts as [|n rest IH]; intros d; [by apply asks_ret|].
  apply (asks_bind _ _ _ (fun x => entry f d n = Some x /\ is_dir_at f x)).
  - eapply asks_catch; [apply asks_open_dir|]. intros e He. case_bool_decide as H; simpl.
    + apply asks_raise. intros _. by rewrite He.
    + unfold on_os_error. destruct (is_os_error e); by apply asks_raise.
  - intros x [Hx [es Hes]]. cbn [chain]. rewrite Hx Hes. apply IH.
Qed.

Lemma asks_canonical f path : asks f (_validate_canonical_abs path) (fun _ => True) (fun e => e = UnsafeLifecyclePath).
Proof. by apply asks_guard. Qed.

Lemma asks_fstat f fd : asks f (os_fstat fd) (fun st => node_at f fd = Ok st) (fun e => e <> OSError ENOENT).
Proof.
  eapply asks_weaken; [apply asks_query|done|]. intros e [H|H] ->; [|done]. unfold node_at in H. by destruct (f_nodes f !! fd).
Qed.

Lemma asks_open_path f path : asks f (open_dir path) (fun d => chain f (f_root f) (path_tail path) = Some d)
  (fun e => e = OSError ENOENT -> chain f (f_root f) (path_tail path) = None).
Proof.
  unfold open_dir, _open_dir_chain.
  apply (asks_bind _ _ _ (fun p => chain f (f_root f) (path_tail path) = Some p.1)); [|intros [d i] H; by apply asks_ret].
  apply (asks_bind _ _ _ (fun _ => True)); [eapply asks_weaken; [apply asks_canonical|done|by intros e ->]|]. intros _ _.
  apply (asks_bind _ _ _ (fun r => r = f_root f)).
  { eapply asks_weaken; [apply asks_query|by intros a [= ->]|]. by intros e [H|H] ->. }
  intros r ->. eapply asks_bind; [apply asks_open_chain|]. intros d Hd.
  apply (asks_bind _ _ _ (fun _ => True)); [eapply asks_weaken; [apply asks_fstat|done|by intros e ? ?]|]. intros st _. by apply asks_ret.
Qed.

(** The directory that holds the last name of a path. *)
Lemma asks_open_parent f path : asks f (open_dir (path_parent path)) (fun d => directory_of f path = Some d)
  (fun e => e = OSError ENOENT -> directory_of f path = None).
Proof. apply asks_open_path. Qed.

Lemma asks_if_present {A} f (m : io A) Q (N : Prop) : asks f m Q (fun e => e = OSError ENOENT -> N) ->
  asks f (if_present m) (fun o => match o with Some a => Q a | None => N end) (fun _ => True).
Proof.
  intros Hm. eapply asks_catch.
  - eapply asks_bind; [exact Hm|]. intros a Ha. by apply asks_ret.
  - intros e He. unfold on_missing. case_bool_decide; [apply asks_ret; auto|by apply asks_raise].
Qed.

Lemma asks_lstat_at f d n : asks f (os_lstat_at d n) (fun st => entry f d n = Some st.1 /\ f_nodes f !! st.1 = Some st.2)
  (fun e => e = OSError ENOENT -> entry f d n = None).
Proof.
  eapply asks_weaken; [apply asks_query|..].
  - intros st (x & Hx%lookup_at_Ok & [<- H]%node_at_Ok)%rbind_Ok. done.
  - intros e [H|H] ->; [|done]. apply rbind_Err in H as [H|(x & Hx & H)].
    + unfold lookup_at in H. unfold entry. destruct (entries_of f d) as [es|]; [|done]. simpl. by destruct (es !! n).
    + unfold node_at in H. by destruct (f_nodes f !! x).
Qed.

(** ** Reading a file *)
Lemma asks_transfer f : asks f transfer (fun _ => True) (fun _ => True).
Proof. eapply triple_weaken; [exact (transfer_holds (eq f))|done|by intros|]. by intros e w [Hw _]. Qed.

Lemma take_prefix {A} k (l : list A) : take (length (take k l)) l = take k l.
Proof.
  rewrite length_take. destruct (decide (k <= length l)%nat); [by rewrite Nat.min_l|].
  rewrite Nat.min_r; [lia|]. rewrite !take_ge //; lia.
Qed.

(** A prefix of what is asked for. *)
Lemma asks_read f fd offset n data : file_data f fd = Ok data ->
  asks f (os_read fd offset n) (fun chunk => exists k, chunk = take k (take (Z.to_nat n) (drop (Z.to_nat offset) data))) (fun _ => True).
Proof.
  intros Hd. unfold os_read. apply (asks_bind _ _ _ (fun _ => True)); [apply asks_transfer|]. intros limit _.
  apply (asks_bind _ _ _ (fun g => g = f)); [apply triple_get; intros w Hw; split; [done|]; symmetry; apply Hw|]. intros g ->.
  apply (asks_bind _ _ _ (fun d => d = data)); [apply asks_lift; [congruence|done]|]. intros d ->.
  apply asks_ret. destruct limit as [k|]; [by exists k|]. exists (length data). symmetry. apply take_ge.
  rewrite length_take length_drop. lia.
Qed.

Lemma asks_read_loop f fd data fuel offset remaining : file_data f fd = Ok data -> 0 <= offset -> 0 < remaining ->
  remaining <= Z.of_nat fuel ->
  asks f (read_loop fuel fd offset remaining) (fun r => r = take (Z.to_nat remaining) (drop (Z.to_nat offset) data)) (fun _ => True).
Proof.
  intros Hd. revert offset remaining. induction fuel as [|fuel IH]; intros offset remaining Ho Hr Hf; [lia|].
  eapply asks_bind; [exact (asks_read f fd offset remaining data Hd)|]. intros chunk [k Hk].
  apply (asks_bind _ _ _ (fun _ => chunk <> [])); [apply asks_guard; [by intros H%bool_decide_eq_false|done]|]. intros _ Hne.
  assert (Hlen : (length chunk <= Z.to_nat remaining)%nat) by (rewrite Hk !length_take; lia).
  assert (Hpos : (0 < length chunk)%nat) by (destruct chunk; [done|simpl; lia]).
  assert (Hsplit : take (Z.to_nat remaining) (drop (Z.to_nat offset) data) =
    chunk ++ take (Z.to_nat (remaining - len chunk)) (drop (Z.to_nat (offset + len chunk)) data)).
  { rewrite -(take_drop (length chunk) (take (Z.to_nat remaining) _)). f_equal.
    - rewrite {2}Hk. by rewrite {1}Hk take_prefix.
    - rewrite skipn_firstn_comm drop_drop. unfold len. f_equal; [lia|]. f_equal. lia. }
  apply (asks_bind _ _ _ (fun rest => chunk ++ rest = take (Z.to_nat remaining) (drop (Z.to_nat offset) data))).
  - destruct (Z.leb_spec (remaining - len chunk) 0) as [Hz|Hz].
    + apply asks_ret. rewrite Hsplit. unfold len in *. by rewrite (_ : Z.to_nat (remaining - Z.of_nat (length chunk)) = O) ?take_0; [lia|].
    + eapply asks_weaken; [apply IH; unfold len in *; lia| |done]. by intros r ->.
  - intros rest <-. by apply asks_ret.
Qed.

Lemma asks_read_fd f fd data max : file_data f fd = Ok data -> asks f (_read_fd fd (len data) max) (fun r => r = data) (fun _ => True).
Proof.
  intros Hd. apply (asks_bind _ _ _ (fun _ => True)); [by apply asks_guard|]. intros _ _.
  destruct (Z.leb_spec (len data) 0) as [H|H].
  - apply asks_ret. unfold len in H. by destruct data; [|simpl in H; lia].
  - eapply asks_weaken; [apply (asks_read_loop f fd data); try done; lia| |done].
    intros r ->. simpl. unfold len. by rewrite Nat2Z.id take_ge.
Qed.

(** ** Captured images *)

(** The image is what is seen. *)
Definition depicts (image : BeforeImage) (seen : option inode) : Prop :=
  match bi_kind image with
  | ABSENT => seen = None
  | FILE => exists i data, seen = Some i /\ i_node i = Reg data /\ bi_content image = Some data /\ bi_mode image = Some (i_mode i) /\
      bi_sha256 image = Some (Sha256.hexdigest data)
  | SYMLINK => exists i target, seen = Some i /\ i_node i = Lnk target /\ bi_target image = Some target /\ bi_mode image = Some (i_mode i)
  end.

Lemma shape_reg i data : i_node i = Reg data -> shape i = mkInode (i_dev i) (i_uid i) (i_mode i) 0 (Reg data).
Proof. intros H. unfold shape. by rewrite H. Qed.
Lemma shape_lnk i t : i_node i = Lnk t -> shape i = mkInode (i_dev i) (i_uid i) (i_mode i) 0 (Lnk t).
Proof. intros H. unfold shape. by rewrite H. Qed.

Lemma see_at_node f d n x i : entry f d n = Some x -> f_nodes f !! x = Some i -> see_at f d n = Some (shape i).
Proof. intros He Hi. unfold see_at, shape_at. by rewrite He /= Hi. Qed.

Lemma asks_capture_leaf f p d n max : fs_ok f ->
  asks f (capture_leaf p d n max) (fun image => bi_path image = p /\ depicts image (see_at f d n)) (fun _ => True).
Proof.
  intros Hok. unfold capture_leaf. eapply asks_bind; [eapply asks_if_present, asks_lstat_at|]. intros [st|] Hst.
  2: { apply asks_ret. split; [done|]. unfold depicts, see_at. simpl. by rewrite Hst. }
  destruct st as [x i], Hst as [He Hi]. simpl in He, Hi. pose proof (see_at_node _ _ _ _ _ He Hi) as Hsee.
  assert (Hlook : lookup_at f d n = Ok x) by by apply lookup_at_Ok.
  assert (Hnode : node_at f x = Ok (x, i)) by (unfold node_at; by rewrite Hi).
  unfold S_ISLNK, S_ISREG. simpl. destruct (i_node i) as [| data|target| |] eqn:Hn; simpl.
  - apply (asks_bind _ _ _ (fun _ => False)); [by apply asks_guard|done].
  - apply (asks_bind _ _ _ (fun _ => True)); [by apply asks_guard|]. intros _ _.
    apply (asks_bind _ _ _ (fun _ => True)); [by apply asks_guard|]. intros _ _.
    apply (asks_bind _ _ _ (fun fd => fd = x)).
    { eapply asks_weaken; [apply asks_query| |done]. simpl. rewrite Hlook /= Hnode /=. unfold S_ISLNK. simpl. rewrite Hn /=. naive_solver. }
    intros fd ->. apply (asks_bind _ _ _ (fun st => st = (x, i))).
    { eapply asks_weaken; [apply asks_fstat| |done]. intros st. rewrite Hnode. naive_solver. }
    intros st ->.
    apply (asks_bind _ _ _ (fun _ => True)); [by apply asks_guard|]. intros _ _.
    unfold st_size. simpl. rewrite Hn. eapply asks_bind; [apply (asks_read_fd f x data max)|].
    { unfold file_data. rewrite Hi. destruct i as [? ? ? ? []]; naive_solver. }
    intros raw ->. apply asks_ret. split; [done|]. unfold depicts. rewrite Hsee (shape_reg _ _ Hn). by eexists _, data.
  - apply (asks_bind _ _ _ (fun t => t = target)).
    { eapply asks_weaken; [apply asks_query| |done]. simpl. rewrite Hlook /= Hnode /=. unfold readlink_node. simpl. rewrite Hn. naive_solver. }
    intros t ->. apply asks_ret. split; [done|]. unfold depicts. rewrite Hsee (shape_lnk _ _ Hn). by eexists _, target.
  - apply (asks_bind _ _ _ (fun _ => False)); [by apply asks_guard|done].
  - apply (asks_bind _ _ _ (fun _ => False)); [by apply asks_guard|done].
Qed.

Lemma asks_capture f path uid : fs_ok f ->
  asks f (capture_before path uid) (fun image => bi_path image = path_str path /\ depicts image (see f path)) (fun _ => True).
Proof.
  intros Hok. unfold capture_before. apply (asks_bind _ _ _ (fun _ => True)); [by apply asks_guard|]. intros _ _.
  eapply asks_bind; [eapply asks_if_present, asks_open_parent|]. intros [d|] Hd.
  - eapply asks_weaken; [by apply asks_capture_leaf| |done]. intros image. by rewrite (see_entry _ _ _ Hd).
  - apply asks_ret. split; [done|]. unfold depicts, see. simpl. by rewrite Hd.
Qed.

(** ** Atomic replacement

    From [f0] on, in the directory [d]: until the rename the leaf [name] is as it was
    ([before]); the temporary inode [x] has the shape [i] ([staged]); after the
    rename the leaf has it ([made]). *)
Section Replace.
Context (f0 : fs) (d : Z) (name tmp : pystr) (ok0 : fs_ok f0) (tmp_other : name <> tmp).
Notation touched f := (touched f0 f d [name; tmp]).

Record before (f : fs) : Prop := {
  bf_ok : fs_ok f;
  bf_touched : touched f;
  bf_leaf : entry f d name = entry f0 d name;
}.
Record staged (x : Z) (i : inode) (f : fs) : Prop := {
  st_before : before f;
  st_new : shape_at f0 x = None;
  st_entry : entry f d tmp = Some x;
  st_shape : shape_at f x = Some i;
  st_leaf : is_dir_node (i_node i) = false;
}.
Record made (i : inode) (f : fs) : Prop := {
  md_ok : fs_ok f;
  md_touched : touched f;
  md_leaf : see_at f d name = Some i;
}.

Lemma before_start : before f0.
Proof. split; [done|apply touched_refl|done]. Qed.

Lemma before_see f : before f -> see_at f d name = see_at f0 d name.
Proof.
  intros [Hok Ht Hl]. unfold see_at. rewrite Hl. destruct (entry f0 d name) as [y|] eqn:E; [|done]. simpl.
  apply (ok_linked _ ok0), shape_some in E as [i Hi]. by rewrite Hi (t_shape _ _ _ _ Ht _ _ Hi).
Qed.

Lemma fresh_shape f : before f -> shape_at f0 (f_next f) = None.
Proof.
  intros [_ Ht _]. apply eq_None_not_Some. rewrite shape_some. intros H%(ok_fresh _ ok0).
  pose proof (t_next _ _ _ _ Ht). lia.
Qed.

Lemma add_staged f uid mode nlink n f' x : before f -> is_dir_node n = false -> add_node f d tmp uid mode nlink n = Ok (f', x) ->
  exists dev, staged x (mkInode dev uid mode 0 n) f'.
Proof.
  intros Hb Hn H. pose proof Hb as [Hok Ht Hl]. assert (Hleaf : leaf_node n) by by destruct n.
  pose proof (add_ok _ _ _ _ _ _ _ _ _ Hleaf H Hok) as Hok'. pose proof (add_dirs _ _ _ _ _ _ _ _ _ Hok Hleaf H) as Hdirs.
  pose proof (fresh_shape f Hb) as Hfresh.
  apply add_node_Ok in H as (Hd & Hnone & -> & Hr & Hnx & He & Hs & (dev & Hnew & _)); [|done..]. exists dev.
  assert (Hnd : ~ is_dir_at f' (f_next f)) by (rewrite is_dir_shape Hnew; intros (i & [= <-] & Hi); simpl in Hi; congruence).
  assert (Hentry : entry f' d tmp = Some (f_next f)) by (rewrite He; by rewrite decide_True).
  split; [|done|done|done|done]. split; [done| |rewrite He; rewrite decide_False //; naive_solver].
  apply (touched_trans d [name; tmp] f0 f f' Ht). split; [done|lia| | | |].
  - intros y n' Hn'. rewrite He decide_False //. intros [-> ->]. apply Hn'. split; [done|]. by right; left.
  - intros y i Hi. rewrite Hs //. intros ->. pose proof (ok_fresh _ Hok (f_next f)) as Hf. rewrite -shape_some Hi in Hf.
    specialize (Hf (mk_is_Some _ _ eq_refl)). lia.
  - intros y Hy. destruct (Hdirs y Hy) as [->|]; done.
  - intros n' y Hy. rewrite He. case_decide as E; [|done]. destruct E as [_ ->]. rewrite Hnone. split; [done|].
    intros [= <-]. apply is_dir_shape in Hy as (i & Hi & _). pose proof (ok_fresh _ Hok (f_next f)) as Hf.
    rewrite -shape_some Hi in Hf. specialize (Hf ltac:(by eexists)). lia.
Qed.

Lemma alter_staged g f x i i' : staged x i f -> fs_ok (alter_node g x f) ->
  (forall j, shape j = i -> shape (g j) = i') -> is_dir_node (i_node i') = false -> staged x i' (alter_node g x f).
Proof.
  intros [[Hok Ht Hl] Hnew He Hs Hleaf] Hok' Hg Hleaf'.
  assert (Hshape : forall y, shape_at (alter_node g x f) y = if decide (y = x) then Some i' else shape_at f y).
  { intros y. unfold shape_at in *. rewrite lookup_alter_node. case_decide as E; [subst|done].
    destruct (f_nodes f !! x) as [j|]; [|done]. simpl in *. injection Hs as Hs. by rewrite Hg. }
  assert (Hdirs : forall y, is_dir_at (alter_node g x f) y -> is_dir_at f y).
  { intros y. rewrite !is_dir_shape Hshape. case_decide; [|done]. intros (j & [= <-] & Hj). congruence. }
  assert (Hent : forall y n, entry (alter_node g x f) y n = entry f y n).
  { intros y n. unfold entry. destruct (decide (y = x)) as [->|Hy].
    - assert (H1 : entries_of f x = None).
      { apply eq_None_not_Some. intros (j & Hj & Hjd)%is_dir_shape. rewrite Hs in Hj. injection Hj as <-. congruence. }
      assert (H2 : entries_of (alter_node g x f) x = None).
      { apply eq_None_not_Some. intros (j & Hj & Hjd)%is_dir_shape. rewrite Hshape decide_True // in Hj. injection Hj as <-. congruence. }
      by rewrite H1 H2.
    - unfold entries_of. rewrite lookup_alter_node. by rewrite decide_False. }
  split; [split|..].
  - done.
  - destruct Ht as [a1 a2 a3 a4 a5 a6]. split; [done|done| | | |].
    + intros y n Hn. rewrite Hent. auto.
    + intros y j Hj. rewrite Hshape. case_decide; [congruence|auto].
    + auto.
    + intros n y Hy. rewrite Hent. auto.
  - by rewrite Hent.
  - done.
  - by rewrite Hent.
  - rewrite Hshape. by rewrite decide_True.
  - done.
Qed.

Lemma staged_not_dir f x i : staged x i f -> ~ is_dir_at f x.
Proof. intros [_ _ _ Hs Hl] (j & Hj & Hd)%is_dir_shape. rewrite Hs in Hj. injection Hj as <-. congruence. Qed.

Lemma rename_made f x i f' : staged x i f -> rename_node f d tmp d name = Ok f' -> made i f'.
Proof.
  intros Hst H. pose proof (staged_not_dir _ _ _ Hst) as Hnd. destruct Hst as [[Hok Ht Hl] Hnew He Hs _].
  pose proof (rename_ok _ _ _ _ _ _ H Hok) as Hok'.
  apply rename_node_Ok in H as (x' & Hx' & _ & Hd & Hsame & H). rewrite He in Hx'. injection Hx' as <-.
  destruct H as [[-> Hname]|[Hm Hrep]].
  { rewrite Hl in Hname. apply (ok_linked _ ok0), shape_some in Hname as [j Hj]. congruence. }
  split; [done| |].
  - apply (touched_trans d [name; tmp] f0 f f' Ht). apply (touched_same _ _ _ _ Hsame).
    + intros y n Hn. rewrite Hm. rewrite decide_False; [intros [-> ->]; apply Hn; split; [done|by left]|].
      rewrite decide_False; [intros [-> ->]; apply Hn; split; [done|by right; left]|done].
    + intros n y Hy. rewrite Hm. case_decide as E1.
      * destruct E1 as [_ ->]. split; [|by intros [= <-]]. intros Hn. destruct (Hrep _ Hn) as [_ Hr]. by destruct (Hr Hnd).
      * case_decide as E2; [|done]. destruct E2 as [_ ->]. rewrite He. split; [by intros [= <-]|done].
  - unfold see_at. rewrite Hm decide_True //= (same_shape _ _ Hsame). done.
Qed.

Lemma unlink_tmp_before f f' : before f -> unlink_node f d tmp = Ok f' -> before f'.
Proof.
  intros [Hok Ht Hl] H. pose proof (unlink_ok _ _ _ _ H Hok) as Hok'.
  apply unlink_node_Ok in H as (x & Hx & Hnd & Hsame & He). split; [done| |rewrite He decide_False //; naive_solver].
  apply (touched_trans d [name; tmp] f0 f f' Ht). apply (touched_same _ _ _ _ Hsame).
  - intros y n Hn. rewrite He decide_False //. intros [-> ->]. apply Hn. split; [done|]. by right; left.
  - intros n y Hy. rewrite He. case_decide as E; [|done]. destruct E as [_ ->]. rewrite Hx. split; [by intros [= <-]|done].
Qed.

Lemma staged_data f x i data old new : staged x i f -> i_node i = Reg old -> file_data f x = Ok data ->
  staged x (mkInode (i_dev i) (i_uid i) (i_mode i) 0 (Reg new)) (alter_node (with_node (Reg new)) x f).
Proof.
  intros Hst Hi Hd. eapply alter_staged; [exact Hst| | |done].
  - exact (data_ok _ _ _ _ Hd (bf_ok _ (st_before _ _ _ Hst))).
  - by intros j <-.
Qed.

Lemma staged_content f x i data : staged x i f -> i_node i = Reg data -> file_data f x = Ok data.
Proof.
  intros [_ _ _ Hs _] Hi. unfold shape_at in Hs. unfold file_data. destruct (f_nodes f !! x) as [[dev uid m l n]|]; [|done].
  injection Hs as <-. unfold shape in Hi. simpl in *. destruct n; naive_solver.
Qed.

(** *** The calls *)
Notation fails := (fun (_ : exn) => holds before).

Lemma fsync_holds P fd : triple (holds P) (os_fsync fd) (fun _ => holds P) (fun _ => holds P).
Proof. apply keeps_syscall. Qed.

(** The two calls that add the temporary name. *)
Lemma create_holds mode :
  triple (holds before) (os_create d tmp mode) (fun x => holds (fun f => exists dev uid m, staged x (mkInode dev uid m 0 (Reg [])) f)) fails.
Proof.
  intros w Hw. pose proof (change_holds before (fun f => add_node f d tmp (w_uid w) (created_mode w mode) 1 (Reg []))
    (fun x f => exists dev uid m, staged x (mkInode dev uid m 0 (Reg [])) f)) as H.
  assert (Hadd : forall f f' x, before f -> add_node f d tmp (w_uid w) (created_mode w mode) 1 (Reg []) = Ok (f', x) ->
    exists dev uid m, staged x (mkInode dev uid m 0 (Reg [])) f').
  { intros f f' x Hb Ha. destruct (add_staged _ _ _ _ (Reg []) _ _ Hb eq_refl Ha) as [dev Hst]. by exists dev, (w_uid w), (created_mode w mode). }
  specialize (H Hadd w Hw). unfold os_create. destruct (change _ w) as [[x|e] w']; [done|]. destruct H as [Hc [Hb _]]. by split.
Qed.

Lemma symlink_holds target :
  triple (holds before) (os_symlink_at target d tmp)
    (fun _ => holds (fun f => exists x dev uid, staged x (mkInode dev uid 0x1FF 0 (Lnk target)) f)) fails.
Proof.
  intros w Hw. pose proof (change_holds before
    (fun f => let? f' := (let? '(f', _) := add_node f d tmp (w_uid w) 0x1FF 1 (Lnk target) in Ok f') in Ok (f', tt))
    (fun _ f => exists x dev uid, staged x (mkInode dev uid 0x1FF 0 (Lnk target)) f)) as H.
  assert (Hadd : forall f f' u, before f ->
    (let? f' := (let? '(f', _) := add_node f d tmp (w_uid w) 0x1FF 1 (Lnk target) in Ok f') in Ok (f', tt)) = Ok (f', u) ->
    exists x dev uid, staged x (mkInode dev uid 0x1FF 0 (Lnk target)) f').
  { intros f f' u Hb (g & ([g' x] & Ha & [= ->])%rbind_Ok & H')%rbind_Ok. injection H' as <- _.
    destruct (add_staged _ _ _ _ (Lnk target) _ _ Hb eq_refl Ha) as [dev Hst]. by exists x, dev, (w_uid w). }
  specialize (H Hadd w Hw). unfold os_symlink_at, change_. destruct (change _ w) as [[u|e] w']; [done|].
  destruct H as [Hc [Hb _]]. by split.
Qed.

Lemma fchmod_holds x dev uid m m' n :
  triple (holds (staged x (mkInode dev uid m 0 n))) (os_fchmod x m') (fun _ => holds (staged x (mkInode dev uid m' 0 n))) fails.
Proof.
  eapply triple_weaken; [apply (change_holds (staged x (mkInode dev uid m 0 n)) _ (fun _ => staged x (mkInode dev uid m' 0 n)))|done|done|].
  - intros f f' [] Hst [= <-]. eapply alter_staged; [exact Hst|..].
    + apply alter_ok; [auto with fs|]. apply (st_before _ _ _ Hst).
    + intros j Hj. unfold shape, with_mode in *. simpl. injection Hj as <- <- _ <-. by destruct (i_node j).
    + apply (st_leaf _ _ _ Hst).
  - intros e w [Hc [Hst _]]. split; [done|]. apply (st_before _ _ _ Hst).
Qed.

(** Each call adds what it transfers. *)
Lemma write_holds x dev uid m c data :
  triple (holds (staged x (mkInode dev uid m 0 (Reg c)))) (os_write x data)
    (fun n => holds (staged x (mkInode dev uid m 0 (Reg (c ++ take (Z.to_nat n) data))))) fails.
Proof.
  unfold os_write. apply (triple_bind _ _ _ (fun _ => holds (staged x (mkInode dev uid m 0 (Reg c))))).
  { eapply triple_weaken; [exact (transfer_holds (staged x (mkInode dev uid m 0 (Reg c))))|done|done|]. intros e w [[Hc Hst] _]. split; [done|]. apply (st_before _ _ _ Hst). }
  intros limit. apply triple_state. intros f Hst. pose proof (staged_content _ _ _ _ Hst eq_refl) as Hd.
  apply (triple_bind _ _ _ (fun g w => holds (eq f) w /\ g = f)); [apply triple_get; intros w Hw; split; [done|]; symmetry; apply Hw|].
  intros g w0 [Hw0 ->]. revert w0 Hw0.
  apply (triple_bind _ _ _ (fun old w => holds (eq f) w /\ old = c)).
  { apply triple_lift; [intros w a Hw; rewrite Hd; intros [= <-]; by split|]. intros w e Hw. by rewrite Hd. }
  intros old. set (written := match limit with Some k => take k data | None => data end).
  apply (triple_bind _ _ _ (fun _ => holds (staged x (mkInode dev uid m 0 (Reg (c ++ written)))))).
  - apply triple_put. intros w [[Hc Hw] ->]. split; [done|].
    by apply (staged_data f x (mkInode dev uid m 0 (Reg c)) c c).
  - intros _. apply triple_ret. intros w Hw. rewrite (_ : take (Z.to_nat (len written)) data = written); [|done].
    unfold len. rewrite Nat2Z.id. unfold written. destruct limit; [apply take_prefix|by apply take_ge].
Qed.

Lemma refuse_holds P b e : triple (holds P) (eguard b e) (fun _ => holds (fun f => P f /\ b = false)) (fun _ => holds P).
Proof. apply triple_guard; [intros w [Hc HP] Hb; by split|done]. Qed.

Lemma staged_before x i w : holds (staged x i) w -> holds before w.
Proof. intros [Hc Hst]. split; [done|]. apply (st_before _ _ _ Hst). Qed.

Lemma write_loop_holds x dev uid m c data fuel : (length data <= fuel)%nat ->
  triple (holds (staged x (mkInode dev uid m 0 (Reg c)))) (write_loop fuel x data)
    (fun _ => holds (staged x (mkInode dev uid m 0 (Reg (c ++ data))))) fails.
Proof.
  revert c data. induction fuel as [|fuel IH]; intros c [|b data] Hl; simpl in Hl; try lia;
    try (simpl; rewrite app_nil_r; by apply triple_ret).
  cbn [write_loop]. eapply triple_bind; [apply write_holds|]. intros n.
  apply (triple_bind _ _ _ (fun _ => holds (fun f => staged x (mkInode dev uid m 0 (Reg (c ++ take (Z.to_nat n) (b :: data)))) f /\ (n <=? 0) = false))).
  { eapply triple_weaken; [exact (refuse_holds (staged x (mkInode dev uid m 0 (Reg (c ++ take (Z.to_nat n) (b :: data))))) _ _)|done|done|].
    intros e w. apply staged_before. }
  intros _ w [Hc [Hst Hn]]. rewrite -{2}(take_drop (Z.to_nat n) (b :: data)) app_assoc.
  apply (IH (c ++ take (Z.to_nat n) (b :: data))); [|done]. rewrite length_drop. simpl. lia.
Qed.

Lemma fill_holds data mode uid :
  triple (holds before) (fill_temp d tmp data mode uid)
    (fun _ => holds (fun f => exists x dev, staged x (mkInode dev uid (perm_bits mode) 0 (Reg data)) f)) fails.
Proof.
  unfold fill_temp, or_unsafe.
  apply (triple_bind _ _ _ (fun x => holds (fun f => exists dev u m, staged x (mkInode dev u m 0 (Reg [])) f))).
  { eapply triple_catch; [apply create_holds|]. intros e. unfold on_os_error. destruct (is_os_error e); by apply triple_raise. }
  intros x w [Hc (dev & u & m & Hst)]. revert w Hc Hst. intros w Hc Hst.
  assert (Hw : holds (staged x (mkInode dev u m 0 (Reg []))) w) by by split. clear Hc Hst. revert w Hw.
  eapply triple_bind; [apply (fchmod_holds x dev u m (perm_bits mode))|]. intros u1. cbv beta.
  eapply (triple_asks _ _ _ (fun f st => node_at f x = Ok st)); [intros f _; apply asks_fstat| |].
  2: { intros e f w Hst _ [Hc ->]. split; [done|]. apply (st_before _ _ _ Hst). }
  intros st f Hst Hf. apply node_at_Ok in Hf as [_ Hf]. pose proof (st_shape _ _ _ Hst) as Hs.
  unfold shape_at in Hs. rewrite Hf in Hs. simpl in Hs.
  apply (triple_bind _ _ _ (fun _ => holds (staged x (mkInode dev uid (perm_bits mode) 0 (Reg []))))).
  { apply triple_guard; intros w [Hc Hw] Hg; (split; [done|]); rewrite -Hw; [|apply (st_before _ _ _ Hst)].
    rewrite !orb_false_iff !negb_false_iff in Hg. destruct Hg as [[[_ _] Hu%Z.eqb_eq] _].
    injection Hs as _ Hu' _ _. unfold st_uid in Hu. rewrite -Hu' Hu in Hst. done. }
  intros _. eapply triple_bind; [apply write_loop_holds; done|]. intros u2. cbv beta. simpl.
  eapply triple_weaken; [exact (fsync_holds (staged x (mkInode dev uid (perm_bits mode) 0 (Reg data))) x)|done| |].
  - intros _ w [Hc Hst']. split; [done|]. by exists x, dev.
  - intros e w. apply staged_before.
Qed.

(** The rename, and what undoes the temporary name when it did not happen. *)
Lemma rename_holds (P : inode -> Prop) :
  triple (holds (fun f => exists x i, P i /\ staged x i f)) (or_unsafe (os_rename d tmp d name))
    (fun _ => holds (fun f => exists i, P i /\ made i f)) fails.
Proof.
  unfold or_unsafe. eapply triple_catch.
  - eapply triple_weaken; [apply (change_holds (fun f => exists x i, P i /\ staged x i f) _ (fun _ f => exists i, P i /\ made i f))|done|done|].
    + intros f f' [] (x & i & HP & Hst) H. apply rbind_Ok in H as (g & Hg & H). injection H as <-. exists i.
      split; [done|]. exact (rename_made _ _ _ _ Hst Hg).
    + intros e w [Hc [(x & i & _ & Hst) _]]. exact (staged_before x i w (conj Hc Hst)).
  - intros e. unfold on_os_error. destruct (is_os_error e); by apply triple_raise.
Qed.

Lemma cleanup_holds : keeps (holds before) (unlink_if_present d tmp).
Proof.
  unfold unlink_if_present. apply keeps_catch; [|intros e; auto with keeps].
  apply keeps_change_. intros f f' Hb H. exact (unlink_tmp_before _ _ Hb H).
Qed.

(** The temporary name is removed unless the rename was made. *)
Lemma on_error_holds (P : inode -> Prop) (Pre : world -> Prop) (m : io unit) :
  triple Pre m (fun _ => holds (fun f => exists i, P i /\ made i f)) fails ->
  triple Pre (eon_error m (unlink_if_present d tmp) ;; os_fsync d)
    (fun _ => holds (fun f => exists i, P i /\ made i f))
    (fun _ => holds (fun f => before f \/ exists i, P i /\ made i f)).
Proof.
  intros Hm. apply (triple_bind _ _ _ (fun _ => holds (fun f => exists i, P i /\ made i f))).
  - unfold eon_error. eapply triple_catch; [exact Hm|]. intros e. apply (triple_bind _ _ _ (fun _ => holds before)).
    + eapply triple_weaken; [exact cleanup_holds|done|done|]. intros e' w [Hc Hb]. split; [done|]. by left.
    + intros u1. apply triple_raise. intros w [Hc Hb]. split; [done|]. by left.
  - intros u1. eapply triple_weaken; [exact (fsync_holds (fun f => exists i, P i /\ made i f) d)|done|done|].
    intros e w [Hc H]. split; [done|]. by right.
Qed.

Lemma parent_holds uid : triple (holds before) (_validate_parent_fd d uid) (fun _ => holds before) fails.
Proof.
  unfold _validate_parent_fd. apply (triple_bind _ _ _ (fun _ => holds before)); [apply keeps_query|]. intros st.
  do 2 (apply (triple_bind _ _ _ (fun _ => holds before)); [apply keeps_guard|intros ?u]). apply keeps_guard.
Qed.

Definition new_file (uid mode : Z) (data : pybytes) (i : inode) : Prop :=
  exists dev, i = mkInode dev uid (perm_bits mode) 0 (Reg data).
Definition new_link (target : pystr) (i : inode) : Prop := exists dev uid, i = mkInode dev uid 0x1FF 0 (Lnk target).

Lemma write_holds_all data mode uid :
  triple (holds before)
    (eon_error (_validate_parent_fd d uid ;; fill_temp d tmp data mode uid ;; or_unsafe (os_rename d tmp d name))
       (unlink_if_present d tmp) ;; os_fsync d)
    (fun _ => holds (fun f => exists i, new_file uid mode data i /\ made i f))
    (fun _ => holds (fun f => before f \/ exists i, new_file uid mode data i /\ made i f)).
Proof.
  apply on_error_holds. eapply triple_bind; [apply parent_holds|]. intros u1.
  eapply triple_bind; [apply fill_holds|]. intros u2.
  eapply triple_weaken; [apply (rename_holds (new_file uid mode data))| |done|done].
  intros w [Hc (x & dev & Hst)]. split; [done|]. exists x, (mkInode dev uid (perm_bits mode) 0 (Reg data)). by split; [exists dev|].
Qed.

Lemma link_holds_all target uid :
  triple (holds before)
    (_validate_parent_fd d uid ;; or_unsafe (os_symlink_at target d tmp) ;;
     eon_error
       (do! actual := os_readlink_at d tmp in
        raced (negb (str_eqb actual target)) ;;
        or_unsafe (os_rename d tmp d name))
       (unlink_if_present d tmp) ;;
     os_fsync d)
    (fun _ => holds (fun f => exists i, new_link target i /\ made i f))
    (fun _ => holds (fun f => before f \/ exists i, new_link target i /\ made i f)).
Proof.
  assert (Hl : forall (e : exn) w, holds before w -> holds (fun f => before f \/ exists i, new_link target i /\ made i f) w).
  { intros e w [Hc Hb]. split; [done|]. by left. }
  set (pre := fun f => exists x i, new_link target i /\ staged x i f).
  assert (Hpre : forall w, holds pre w -> holds before w).
  { intros w [Hc (x & i & _ & Hst)]. exact (staged_before x i w (conj Hc Hst)). }
  apply (triple_bind _ _ _ (fun _ => holds before)); [exact (triple_weaken _ _ _ _ _ _ _ (parent_holds uid) (fun _ H => H) (fun _ _ H => H) Hl)|].
  intros u1. apply (triple_bind _ _ _ (fun _ => holds pre)).
  { apply (triple_weaken _ (holds before) _ _ (fun _ => holds pre) _ (fun _ => holds before)); [|done|done|intros e w; apply (Hl e)].
    unfold or_unsafe. apply (triple_catch _ _ _ _ (fun _ => holds before)).
    - eapply triple_weaken; [apply (symlink_holds target)|done| |done]. intros _ w [Hc (x & dev & uid' & Hst)]. split; [done|].
      exists x, (mkInode dev uid' 0x1FF 0 (Lnk target)). by split; [exists dev, uid'|].
    - intros e. unfold on_os_error. destruct (is_os_error e); by apply triple_raise. }
  intros u2. apply on_error_holds.
  apply (triple_bind _ _ _ (fun _ => holds pre)); [eapply triple_weaken; [exact (keeps_query pre _)|done|done|auto]|]. intros actual.
  apply (triple_bind _ _ _ (fun _ => holds pre)); [eapply triple_weaken; [exact (keeps_guard (holds pre) _ _)|done|done|auto]|]. intros u3.
  apply rename_holds.
Qed.
End Replace.

(** ** At a path *)

(** Names of temporary entries. *)
Definition reserved (n : pystr) : bool := is_prefix (u ".tr-") n.

(** Since [f0] at most the last name of [p] and a temporary name beside it changed. *)
Definition changes_only (f0 : fs) (p : posix_path) (f : fs) : Prop :=
  fs_ok f /\ (f = f0 \/ exists d tmp, directory_of f0 p = Some d /\ reserved tmp = true /\ touched f0 f d [path_name p; tmp]).

Lemma tail_split q : path_tail q <> [] -> path_tail q = path_tail (path_parent q) ++ [path_name q].
Proof.
  intros Hq. unfold path_parent, path_name. simpl. destruct (path_tail q) as [|n l _] using rev_ind; [done|].
  by rewrite removelast_last last_snoc.
Qed.

Section AtPath.
Context (f0 : fs) (p : posix_path) (ok0 : fs_ok f0).

Lemma changes_start : changes_only f0 p f0.
Proof. split; [done|by left]. Qed.

Lemma changes_directory f q : changes_only f0 p f -> directory_of f q = directory_of f0 q.
Proof. intros [_ [->|(d & tmp & _ & _ & Ht)]]; [done|]. exact (touched_directory _ _ _ _ _ Ht). Qed.

(** Other paths show what they did. *)
Lemma changes_see f q : changes_only f0 p f -> path_tail p <> [] -> path_tail q <> [] -> path_tail q <> path_tail p ->
  reserved (path_name q) = false -> see f q = see f0 q.
Proof.
  intros [Hok [->|(d & tmp & Hd & Htmp & Ht)]] Hp Hq Hpq Hres; [done|]. apply (touched_see _ _ _ _ _ ok0 Ht).
  intros [Hqd Hin]. apply elem_of_cons in Hin as [Hin|Hin]; [|apply list_elem_of_singleton in Hin; congruence].
  unfold directory_of in *. pose proof (chain_unique _ _ _ _ ok0 Hqd Hd) as Hpar.
  apply Hpq. rewrite (tail_split q Hq) (tail_split p Hp). by rewrite Hpar Hin.
Qed.
End AtPath.

(** A new leaf at [p]. *)
Definition written (f0 : fs) (p : posix_path) (P : inode -> Prop) (f : fs) : Prop :=
  changes_only f0 p f /\ exists i, P i /\ see f p = Some i.
(** The old one. *)
Definition intact (f0 : fs) (p : posix_path) (f : fs) : Prop := changes_only f0 p f /\ see f p = see f0 p.

Section Replacing.
Context (f0 : fs) (p : posix_path) (d : Z) (tmp : pystr) (ok0 : fs_ok f0) (Hd : directory_of f0 p = Some d)
  (tmp_reserved : reserved tmp = true).

Lemma made_written P f : (exists i, P i /\ made f0 d (path_name p) tmp i f) -> written f0 p P f.
Proof.
  intros (i & HP & [Hok Ht Hl]). split; [split; [done|right; by exists d, tmp]|]. exists i. split; [done|].
  rewrite (see_entry _ _ d) //. by rewrite (touched_directory _ _ _ _ _ Ht).
Qed.

Lemma before_intact f : before f0 d (path_name p) tmp f -> intact f0 p f.
Proof.
  intros Hb. pose proof Hb as [Hok Ht Hl]. split; [split; [done|right; by exists d, tmp]|].
  rewrite (see_entry _ _ d); [by rewrite (touched_directory _ _ _ _ _ Ht)|]. rewrite (see_entry f0 _ d) //.
  by apply (before_see f0 d (path_name p) tmp).
Qed.
End Replacing.

(** What an operation that replaces the leaf at [p] does: the leaf is new, or the
    operation raised and it is the old or the new one. *)
Definition replaces {A} (f0 : fs) (p : posix_path) (P : inode -> Prop) (m : io A) : Prop :=
  triple (holds (eq f0)) m (fun _ => holds (written f0 p P)) (fun _ => holds (fun f => intact f0 p f \/ written f0 p P f)).

Lemma intact_start f0 p : fs_ok f0 -> intact f0 p f0.
Proof. intros Hok. split; [by apply changes_start|done]. Qed.

(** Opening the parent and choosing a name, then the replacement. *)
Lemma replaces_in_parent f0 p P (prefix : pystr) (body : Z -> pystr -> io unit) : fs_ok f0 -> reserved (path_name p) = false ->
  (forall t, reserved (prefix ++ t) = true) ->
  (forall d tmp, path_name p <> tmp ->
    triple (holds (before f0 d (path_name p) tmp)) (body d tmp) (fun _ => holds (fun f => exists i, P i /\ made f0 d (path_name p) tmp i f))
      (fun _ => holds (fun f => before f0 d (path_name p) tmp f \/ exists i, P i /\ made f0 d (path_name p) tmp i f))) ->
  replaces f0 p P (_validate_canonical_abs p ;; do! d := open_dir (path_parent p) in do! tmp := _unique_name prefix in body d tmp).
Proof.
  intros Hok Hp Hprefix Hbody. unfold replaces.
  assert (Hstart : forall e w, holds (eq f0) w /\ e -> holds (fun f => intact f0 p f \/ written f0 p P f) w).
  { intros e w [[Hc Hf] _]. split; [done|]. left. rewrite -Hf. by apply intact_start. }
  eapply triple_bind.
  { eapply triple_weaken; [exact (asks_canonical f0 p)|done|intros a w H; exact H|]. intros e w. apply Hstart. }
  intros u1. cbv beta. eapply triple_bind.
  { eapply triple_weaken; [exact (asks_open_parent f0 p)|by intros w []|intros a w H; exact H|]. intros e w. apply Hstart. }
  intros d w [[Hc Hw] Hd]. cbv beta. unfold _unique_name, ebind, token_hex, eret. cbn.
  set (tmp := prefix ++ _). set (w' := mkWorld _ _ _ _ _).
  assert (Ht : reserved tmp = true) by apply Hprefix.
  assert (Hne : path_name p <> tmp) by congruence.
  assert (Hw' : holds (before f0 d (path_name p) tmp) w').
  { split; [exact (proj1 (keeps_token (eq f0) w (conj Hc Hw)))|]. rewrite /= -Hw. by apply before_start. }
  specialize (Hbody d tmp Hne w' Hw'). destruct (body d tmp w') as [[[]|e] w1], Hbody as [Hc1 H1]; (split; [done|]).
  - by apply (made_written f0 p d tmp).
  - destruct H1 as [H1|H1]; [left; by apply (before_intact f0 p d tmp)|right; by apply (made_written f0 p d tmp)].
Qed.

Lemma atomic_write_replaces f0 path data mode uid : fs_ok f0 -> reserved (path_name path) = false ->
  replaces f0 path (new_file uid mode data) (atomic_write path data mode uid).
Proof.
  intros Hok Hp. apply (replaces_in_parent f0 path (new_file uid mode data) (u ".tr-write-")
    (fun d tmp => eon_error (_validate_parent_fd d uid ;; fill_temp d tmp data mode uid ;; or_unsafe (os_rename d tmp d (path_name path)))
       (unlink_if_present d tmp) ;; os_fsync d)); [done|done|done|].
  intros d tmp Hne. by apply write_holds_all.
Qed.

Lemma atomic_symlink_replaces f0 path target uid : fs_ok f0 -> reserved (path_name path) = false ->
  replaces f0 path (new_link target) (atomic_symlink path target uid).
Proof.
  intros Hok Hp. apply (replaces_in_parent f0 path (new_link target) (u ".tr-link-")
    (fun d tmp => _validate_parent_fd d uid ;; or_unsafe (os_symlink_at target d tmp) ;;
       eon_error (do! actual := os_readlink_at d tmp in raced (negb (str_eqb actual target)) ;; or_unsafe (os_rename d tmp d (path_name path)))
         (unlink_if_present d tmp) ;; os_fsync d)); [done|done|done|].
  intros d tmp Hne. by apply link_holds_all.
Qed.

(** What is left of a replacement, path by path. *)
Lemma replaces_run {A} f0 p P (m : io A) w : replaces f0 p P m -> calm w -> w_fs w = f0 -> fs_ok f0 -> path_tail p <> [] ->
  let '(r, w') := m w in
  calm w' /\ fs_ok (w_fs w') /\
  ((exists i, P i /\ see (w_fs w') p = Some i) \/ (see (w_fs w') p = see f0 p /\ exists e, r = Err e)) /\
  (forall q, path_tail q <> [] -> path_tail q <> path_tail p -> reserved (path_name q) = false -> see (w_fs w') q = see f0 q).
Proof.
  intros Hm Hc Hw Hok Hp. specialize (Hm w (conj Hc (eq_sym Hw))). destruct (m w) as [[a|e] w'], Hm as [Hc' H].
  - destruct H as [Hch Hi]. split; [done|]. split; [apply Hch|]. split; [by left|].
    intros q Hq Hne Hr. exact (changes_see _ _ Hok _ _ Hch Hp Hq Hne Hr).
  - split; [done|].
    assert (Hch : changes_only f0 p (w_fs w')) by (destruct H as [[]|[]]; done). split; [apply Hch|]. split.
    + destruct H as [[_ Hs]|[_ Hi]]; [right; split; [done|by exists e]|by left].
    + intros q Hq Hne Hr. exact (changes_see _ _ Hok _ _ Hch Hp Hq Hne Hr).
Qed.



(** ** Restoring an image *)
Definition restored_as (uid : Z) (image : BeforeImage) (seen : option inode) : Prop :=
  match bi_kind image with
  | ABSENT => seen = None
  | FILE => exists i, new_file uid (mode_or (bi_mode image) 0x180) (default [] (bi_content image)) i /\ seen = Some i
  | SYMLINK => exists i, new_link (default [] (bi_target image)) i /\ seen = Some i
  end.

Definition image_path (image : BeforeImage) : posix_path := parse_path (bi_path image).

Section Unlink.
Context (f0 : fs) (p : posix_path) (d : Z) (ok0 : fs_ok f0) (Hd : directory_of f0 p = Some d).

Definition gone (f : fs) : Prop := changes_only f0 p f /\ see f p = None.
Notation changed := (fun (_ : exn) => holds (changes_only f0 p)).

Lemma unlink_gone f' : unlink_node f0 d (path_name p) = Ok f' -> gone f'.
Proof.
  intros H. pose proof (unlink_ok _ _ _ _ H ok0) as Hok'. apply unlink_node_Ok in H as (x & Hx & Hnd & Hsame & He).
  assert (Ht : touched f0 f' d [path_name p; u ".tr-"]).
  { apply (touched_same _ _ _ _ Hsame).
    - intros y n Hn. rewrite He decide_False //. intros [-> ->]. apply Hn. split; [done|]. by left.
    - intros n y Hy. rewrite He. case_decide as E; [|done]. destruct E as [_ ->]. rewrite Hx. split; [by intros [= <-]|done]. }
  split; [split; [done|right; by exists d, (u ".tr-")]|].
  rewrite (see_entry _ _ d); [by rewrite (touched_directory _ _ _ _ _ Ht)|]. unfold see_at. by rewrite He decide_True.
Qed.

Lemma start_changed w : holds (eq f0) w -> holds (changes_only f0 p) w.
Proof. intros [Hc Hf]. split; [done|]. rewrite -Hf. by apply changes_start. Qed.

Lemma unlink_at_gone : triple (holds (eq f0)) (os_unlink_at d (path_name p)) (fun _ => holds gone) changed.
Proof.
  eapply triple_weaken; [apply (change_holds (eq f0) _ (fun _ => gone))|done|done|].
  - intros f f' [] <- (g & Hg & [= <-])%rbind_Ok. by apply unlink_gone.
  - intros e w [Hc [Hf _]]. by apply start_changed.
Qed.

(** Checks before the removal. *)
Lemma checked {A B} (m : io A) (k : A -> io B) Q : keeps (holds (eq f0)) m ->
  (forall a, triple (holds (eq f0)) (k a) Q changed) -> triple (holds (eq f0)) (ebind m k) Q changed.
Proof.
  intros Hm Hk. apply (triple_bind _ _ _ (fun _ => holds (eq f0))); [|done].
  eapply triple_weaken; [exact Hm|done|done|]. intros e w. apply start_changed.
Qed.

Lemma safe_unlink_symlink_gone policy :
  triple (holds (eq f0)) (_safe_unlink_symlink d (path_name p) policy) (fun _ => holds gone) changed.
Proof. unfold _safe_unlink_symlink. do 3 (apply checked; [first [apply keeps_query|apply keeps_guard]|intros ?]). apply unlink_at_gone. Qed.

Lemma gone_changed (w : world) : holds gone w -> holds (changes_only f0 p) w.
Proof. intros [Hc [H _]]. by split. Qed.

Lemma safe_unlink_regular_gone st policy :
  triple (holds (eq f0)) (_safe_unlink_regular d (path_name p) st policy) (fun _ => holds gone) changed.
Proof.
  unfold _safe_unlink_regular. do 8 (apply checked; [first [apply keeps_query|apply keeps_guard]|intros ?]).
  apply (triple_bind _ _ _ (fun _ => holds gone)); [apply unlink_at_gone|]. intros u1.
  apply (triple_weaken _ (holds gone) _ _ (fun _ => holds gone) _ (fun _ => holds gone)); [|done|done|intros e w; apply gone_changed].
  apply keeps_bind; [apply keeps_query|]. intros st'. apply keeps_guard.
Qed.
End Unlink.

Lemma unlink_leaf_gone f0 p uid : fs_ok f0 ->
  triple (holds (eq f0)) (_unlink_leaf_if_present p uid) (fun _ => holds (gone f0 p)) (fun _ => holds (changes_only f0 p)).
Proof.
  intros Hok. unfold _unlink_leaf_if_present.
  apply checked; [done|apply keeps_guard|]. intros u1.
  assert (Hstart : forall (T : Prop) w, holds (eq f0) w /\ T -> holds (changes_only f0 p) w).
  { intros T w [Hw _]. by apply (start_changed f0 p Hok). }
  eapply triple_bind.
  { eapply triple_weaken; [exact (asks_if_present _ _ _ _ (asks_open_parent f0 p))|done|intros o w H; exact H|]. intros e w. apply Hstart. }
  intros [d|] w0 [Hw0 Hd]; cbv beta iota in Hd.
  2: { destruct Hw0 as [Hc Hf]. split; [done|]. rewrite -Hf. split; [by apply changes_start|]. unfold see. by rewrite Hd. }
  revert w0 Hw0. unfold _validate_parent_fd.
  apply checked; [done| |].
  { apply keeps_bind; [apply keeps_query|]. intros st. repeat (apply keeps_bind; [apply keeps_guard|intros ?]). apply keeps_guard. }
  intros u2. eapply triple_bind.
  { eapply triple_weaken; [exact (asks_if_present _ _ _ _ (asks_lstat_at f0 d (path_name p)))|done|intros o w H; exact H|]. intros e w. apply Hstart. }
  intros [st|] w1 [Hw1 Hst]; cbv beta iota in Hst.
  2: { destruct Hw1 as [Hc Hf]. split; [done|]. rewrite -Hf. split; [by apply changes_start|].
       rewrite (see_entry _ _ d) //. unfold see_at. by rewrite Hst. }
  revert w1 Hw1. apply checked; [done|apply keeps_guard|]. intros u3.
  destruct (S_ISLNK st); [by apply safe_unlink_symlink_gone|]. destruct (S_ISREG st).
  - apply checked; [done|apply keeps_guard|]. intros u4. by apply safe_unlink_regular_gone.
  - apply triple_raise. intros w. by apply start_changed.
Qed.

(** A restored image is what its path shows. *)
Lemma restore_restores f0 image uid : fs_ok f0 -> reserved (path_name (image_path image)) = false ->
  triple (holds (eq f0)) (restore_before image uid)
    (fun _ => holds (fun f => changes_only f0 (image_path image) f /\ restored_as uid image (see f (image_path image))))
    (fun _ => holds (changes_only f0 (image_path image))).
Proof.
  intros Hok Hres. unfold restore_before. fold (image_path image). apply checked; [done|apply keeps_guard|]. intros u1.
  unfold restored_as. destruct (bi_kind image).
  - exact (unlink_leaf_gone f0 (image_path image) uid Hok).
  - eapply triple_weaken; [exact (atomic_write_replaces f0 (image_path image) _ _ uid Hok Hres)|done|..].
    + intros _ w [Hc [Hch (i & Hi & Hs)]]. split; [done|]. split; [done|]. by exists i.
    + intros e w [Hc [[Hch _]|[Hch _]]]; by split.
  - eapply triple_weaken; [exact (atomic_symlink_replaces f0 (image_path image) _ uid Hok Hres)|done|..].
    + intros _ w [Hc [Hch (i & Hi & Hs)]]. split; [done|]. split; [done|]. by exists i.
    + intros e w [Hc [[Hch _]|[Hch _]]]; by split.
Qed.

(** ** Restoring several images *)

(** Names of distinct paths that no temporary name can meet. *)
Record restorable (images : list BeforeImage) : Prop := {
  rs_distinct : NoDup (map (fun image => path_tail (image_path image)) images);
  rs_named : forall image, image ∈ images -> path_tail (image_path image) <> [] /\ reserved (path_name (image_path image)) = false;
}.

Record all_restored (f0 : fs) (uid : Z) (images : list BeforeImage) (f : fs) : Prop := {
  ar_ok : fs_ok f;
  ar_restored : forall image, image ∈ images -> restored_as uid image (see f (image_path image));
  ar_directory : forall q, directory_of f q = directory_of f0 q;
  ar_others : forall q, path_tail q <> [] -> reserved (path_name q) = false ->
    path_tail q ∉ map (fun image => path_tail (image_path image)) images -> see f q = see f0 q;
}.

Lemma restore_list f0 uid images : fs_ok f0 -> restorable images ->
  triple (holds (eq f0)) (eforeach (fun image => restore_before image uid) images)
    (fun _ => holds (all_restored f0 uid images)) (fun _ => holds fs_ok).
Proof.
  revert f0. induction images as [|image images IH]; intros f0 Hok [Hnd Hnamed].
  { apply triple_ret. intros w [Hc Hf]. split; [done|]. rewrite -Hf. split; [done|by intros ? ?%elem_of_nil|done|done]. }
  apply NoDup_cons in Hnd as [Hnew Hnd]. destruct (Hnamed image ltac:(by left)) as [Htail Hres].
  assert (Hrest : restorable images) by (split; [done|]; intros i Hi; apply Hnamed; by right).
  cbn [eforeach]. eapply triple_bind.
  { eapply triple_weaken; [exact (restore_restores f0 image uid Hok Hres)|done|intros a w H; exact H|]. intros e w [Hc [H _]]. by split. }
  intros u1. cbv beta. apply triple_state. intros f1 [Hch Himage].
  eapply triple_weaken; [exact (IH f1 (proj1 Hch) Hrest)|done| |done].
  intros _ w [Hc [Hok' Hrestored Hdir Hothers]]. split; [done|]. split; [done| | |].
  - intros i [->|Hi]%elem_of_cons; [|by apply Hrestored].
    by rewrite Hothers.
  - intros q. rewrite Hdir. by apply (changes_directory f0 (image_path image) f1 q).
  - intros q Hq Hqr Hni. apply not_elem_of_cons in Hni as [Hne Hni]. rewrite Hothers //.
    by apply (changes_see f0 (image_path image)).
Qed.
