(* ===== verification/TreeProofs.v ===== *)
(** * Structural deletion: what it may touch

    The walker, and the operations that delete or quarantine a tree, remove
    entries only at paths they were pointed at: [removed] relates the file system
    to an earlier one from which such entries are missing, and whatever system calls
    fail, every other path shows what it did. *)
From S2P Require Import Prelude PyText PyVal PyFloat Json Codec Model Contract Effect Files FilesProofs FileViews LifecycleFs.
From S2P Require Import LifecycleFsProofs Samples.
#[local] Open Scope eff_scope.

(** [G] holds of the paths (as their components) at which entries may go. *)
Section Removal.
Context (f0 : fs) (ok0 : fs_ok f0) (G : list pystr -> Prop) (G_below : forall a b, G a -> G (a ++ b)).

Definition covered (x : Z) (n : pystr) : Prop := exists pre, chain f0 (f_root f0) pre = Some x /\ G (pre ++ [n]).
(** A directory in which everything may go. *)
Definition under (x : Z) : Prop := exists pre, chain f0 (f_root f0) pre = Some x /\ forall n, G (pre ++ [n]).

Record removed (f : fs) : Prop := {
  rm_ok : fs_ok f;
  rm_root : f_root f = f_root f0;
  rm_shape : forall x, shape_at f x = shape_at f0 x;
  rm_sub : forall x n y, entry f x n = Some y -> entry f0 x n = Some y;
  rm_out : forall x n, ~ covered x n -> entry f x n = entry f0 x n;
}.

Lemma removed_start : removed f0.
Proof. by split. Qed.

Lemma removed_is_dir f x : removed f -> is_dir_at f x <-> is_dir_at f0 x.
Proof. intros H. by rewrite !is_dir_shape (rm_shape _ H). Qed.

Lemma removed_chain f parts x z : removed f -> chain f x parts = Some z -> chain f0 x parts = Some z.
Proof.
  intros H. revert x. induction parts as [|n parts IH]; intros x; [done|]. rewrite !chain_cons.
  intros (y & Hy & Hd & Hz). exists y. split; [by apply (rm_sub _ H)|]. split; [by apply (removed_is_dir _ _ H)|]. by apply IH.
Qed.

(** A path none of whose prefixes may go. *)
Definition outside (parts : list pystr) : Prop := forall a, a `prefix_of` parts -> ~ G a.

Lemma outside_entry f pre n x parts : removed f -> chain f0 (f_root f0) pre = Some x -> outside (pre ++ n :: parts) ->
  entry f x n = entry f0 x n.
Proof.
  intros H Hx Hout. apply (rm_out _ H). intros (pre' & Hx' & HG). rewrite (chain_unique _ _ _ _ ok0 Hx' Hx) in HG.
  apply (Hout (pre ++ [n])); [|done]. exists parts. by rewrite -app_assoc.
Qed.

Lemma outside_chain f pre x parts : removed f -> chain f0 (f_root f0) pre = Some x -> outside (pre ++ parts) ->
  chain f x parts = chain f0 x parts.
Proof.
  intros H. revert pre x. induction parts as [|n parts IH]; intros pre x Hx Hout; [done|].
  pose proof (outside_entry _ _ _ _ _ H Hx Hout) as He. simpl. rewrite He. destruct (entry f0 x n) as [y|] eqn:E; [|done].
  pose proof (removed_is_dir f y H) as Hd. unfold is_dir_at in Hd.
  destruct (entries_of f y) eqn:E1, (entries_of f0 y) eqn:E2; try done.
  - apply (IH (pre ++ [n])); [|by rewrite -app_assoc]. apply chain_app. exists x. split; [done|]. apply chain_cons. exists y.
    split; [done|]. split; [|done]. unfold is_dir_at. by rewrite E2.
  - by destruct (proj1 Hd ltac:(by eexists)).
  - by destruct (proj2 Hd ltac:(by eexists)).
Qed.

(** Paths outside show what they did. *)
Lemma removed_directory f q : removed f -> path_tail q <> [] -> outside (path_tail q) -> directory_of f q = directory_of f0 q.
Proof.
  intros H Hq Hout. unfold directory_of. rewrite (rm_root _ H). apply (outside_chain f []); [done|done|].
  intros a Ha. apply Hout. rewrite (tail_split q Hq). by apply prefix_app_r.
Qed.

Lemma removed_see f q : removed f -> path_tail q <> [] -> outside (path_tail q) -> see f q = see f0 q.
Proof.
  intros H Hq Hout. unfold see. rewrite (removed_directory _ _ H Hq Hout). destruct (directory_of f0 q) as [d|] eqn:Hd; [|done].
  simpl. unfold see_at. unfold directory_of in Hd. rewrite (tail_split q Hq) in Hout.
  rewrite (outside_entry f _ _ _ [] H Hd Hout). destruct (entry f0 d (path_name q)); [|done]. apply (rm_shape _ H).
Qed.

(** *** Changes *)
Lemma removed_none f f' d n : removed f -> covered d n -> fs_ok f' -> same_inodes f f' -> entry_set f f' d n None -> removed f'.
Proof.
  intros H Hcov Hok' Hs He. split; [done|by rewrite (same_root _ _ Hs) (rm_root _ H)| | |].
  - intros x. by rewrite (same_shape _ _ Hs) (rm_shape _ H).
  - intros x m y. rewrite He. case_decide; [done|]. apply (rm_sub _ H).
  - intros x m Hm. rewrite He decide_False; [intros [-> ->]; by apply Hm|]. by apply (rm_out _ H).
Qed.

Notation I := (holds removed).

Lemma keeps_unlink_covered d n : covered d n -> keeps I (os_unlink_at d n).
Proof.
  intros Hcov. apply keeps_change_. intros f f' H Hu. pose proof (unlink_ok _ _ _ _ Hu (rm_ok _ H)) as Hok.
  apply unlink_node_Ok in Hu as (x & _ & _ & Hs & He). exact (removed_none _ _ _ _ H Hcov Hok Hs He).
Qed.

Lemma keeps_rmdir_covered d n : covered d n -> keeps I (os_rmdir_at d n).
Proof.
  intros Hcov. apply keeps_change_. intros f f' H Hu. pose proof (rmdir_ok _ _ _ _ Hu (rm_ok _ H)) as Hok.
  apply rmdir_node_Ok in Hu as (x & _ & _ & Hs & He). exact (removed_none _ _ _ _ H Hcov Hok Hs He).
Qed.

Lemma under_covered d n : under d -> covered d n.
Proof. intros (pre & Hd & HG). exists pre. split; [done|]. apply HG. Qed.

(** A directory opened in one where everything may go. *)
Lemma under_child f d n x : removed f -> under d -> entry f d n = Some x -> is_dir_at f x -> under x.
Proof.
  intros H (pre & Hd & HG) Hx Hdx. exists (pre ++ [n]). split.
  - apply chain_app. exists d. split; [done|]. apply chain_cons. exists x. split; [by apply (rm_sub _ H)|]. split; [|done].
    by apply (removed_is_dir _ _ H).
  - intros m. apply G_below, HG.
Qed.

Ltac reads := first [apply keeps_query | apply keeps_guard | apply keeps_syscall | apply keeps_raise | apply keeps_ret | apply keeps_lift].
Ltac step := apply keeps_bind; [reads|intros ?].

Lemma raises_unsafe {A} e : exists e', (on_os_error unsafe e : io A) = eraise e'.
Proof. unfold on_os_error. destruct (is_os_error e); by eexists. Qed.
Lemma raises_missing {A} missing e :
  exists e', ((if bool_decide (e = OSError ENOENT) then eraise missing else on_os_error unsafe e) : io A) = eraise e'.
Proof. case_bool_decide; [by eexists|apply raises_unsafe]. Qed.

Lemma keeps_open_under {B} d n (m : io Z) (k : Z -> io B) : (forall f, asks f m (fun x => entry f d n = Some x /\ is_dir_at f x) (fun _ => True)) ->
  under d -> (forall x, under x -> keeps I (k x)) -> keeps I (ebind m k).
Proof.
  intros Hm Hd Hk. apply (keeps_learn _ _ _ under (fun f x => entry f d n = Some x /\ is_dir_at f x) (fun _ _ => True)); [done| |done].
  intros f x H [Hx Hdx]. by apply (under_child f d n).
Qed.

Lemma asks_open_unsafe f d n : asks f (or_unsafe (os_open_dir d n)) (fun x => entry f d n = Some x /\ is_dir_at f x) (fun _ => True).
Proof. eapply asks_catch_raise; [apply asks_open_dir|]. apply raises_unsafe. Qed.

Lemma keeps_safe_symlink d n policy : under d -> keeps I (_safe_unlink_symlink d n policy).
Proof. intros Hd. unfold _safe_unlink_symlink. do 3 step. by apply keeps_unlink_covered, under_covered. Qed.

Lemma keeps_safe_regular d n st policy : under d -> keeps I (_safe_unlink_regular d n st policy).
Proof.
  intros Hd. unfold _safe_unlink_regular. do 8 step. apply keeps_bind; [by apply keeps_unlink_covered, under_covered|intros ?].
  step. reads.
Qed.

Lemma keeps_or_concurrent (m : io unit) : keeps I m -> keeps I (or_concurrent m).
Proof. intros H. apply keeps_catch; [done|]. intros e. unfold on_os_error. destruct (is_os_error e); reads. Qed.

Lemma keeps_walk_entry walk d n st policy delete : (forall x, under x -> keeps I (walk x policy false delete)) -> under d ->
  keeps I (_walk_entry walk d n st policy delete).
Proof.
  intros Hwalk Hd. unfold _walk_entry. destruct (S_ISLNK st); [|destruct (S_ISDIR st); [|destruct (S_ISREG st); [|reads]]].
  - unfold walk_symlink. do 2 step. destruct delete; [by apply keeps_safe_symlink|reads].
  - unfold walk_subdir. apply (keeps_open_under d n); [intros; apply asks_open_unsafe|done|]. intros x Hx. do 5 step.
    apply keeps_bind; [by apply Hwalk|intros ?]. destruct delete; [|reads]. step.
    by apply keeps_or_concurrent, keeps_rmdir_covered, under_covered.
  - unfold walk_file. do 3 step. destruct delete; [by apply keeps_safe_regular|reads].
Qed.

Lemma keeps_walk depth d policy top delete : under d -> keeps I (_walk_dir depth d policy top delete).
Proof.
  revert d policy top. induction depth as [|depth IH]; intros d policy top Hd; [reads|]. cbn [_walk_dir].
  do 2 step. apply keeps_bind; [|intros ?; destruct delete; reads].
  apply keeps_foreach. intros n _. step. apply keeps_walk_entry; [|done]. intros x Hx. by apply IH.
Qed.

(** *** At a path *)
Context (root : posix_path) (root_named : path_tail root <> []) (root_removable : G (path_tail root)).

Definition at_parent (d : Z) : Prop := chain f0 (f_root f0) (path_tail (path_parent root)) = Some d.

Lemma parent_covered d : at_parent d -> covered d (path_name root).
Proof. intros Hd. exists (path_tail (path_parent root)). split; [done|]. by rewrite -tail_split. Qed.

Lemma root_under d x f : removed f -> at_parent d -> entry f d (path_name root) = Some x -> is_dir_at f x -> under x.
Proof.
  intros H Hd Hx Hdx. exists (path_tail root). split; [|intros n; by apply G_below].
  rewrite (tail_split _ root_named). apply chain_app. exists d. split; [done|]. apply chain_cons. exists x.
  split; [by apply (rm_sub _ H)|]. split; [|done]. by apply (removed_is_dir _ _ H).
Qed.

Lemma triple_open_parent {B} (k : Z -> io B) Q : (forall d, at_parent d -> triple I (k d) Q (fun _ => I)) ->
  triple I (ebind (open_dir (path_parent root)) k) Q (fun _ => I).
Proof.
  intros Hk. eapply triple_learn; [intros f _; apply asks_open_path| |exact Hk|done].
  intros f d H Hd. unfold at_parent. rewrite -(rm_root _ H). by apply (removed_chain f).
Qed.

Lemma triple_open_root {B} missing d (k : Z -> io B) Q : at_parent d -> (forall x, under x -> triple I (k x) Q (fun _ => I)) ->
  triple I (ebind (or_missing_unsafe missing (os_open_dir d (path_name root))) k) Q (fun _ => I).
Proof.
  intros Hd Hk. eapply triple_learn; [intros f _; eapply asks_catch_raise; [apply asks_open_dir|apply raises_missing]| |exact Hk|done].
  intros f x H [Hx Hdx]. by apply (root_under d x f).
Qed.

(** Nothing is left at the path. *)
Definition root_gone (f : fs) : Prop := removed f /\ see f root = None.

Lemma rmdir_root_gone d : at_parent d -> triple I (os_rmdir_at d (path_name root)) (fun _ => holds root_gone) (fun _ => I).
Proof.
  intros Hd. eapply triple_weaken; [apply (change_holds removed _ (fun _ => root_gone))|done|done|by intros e w [Hc [H _]]].
  intros f f' [] H (g & Hg & [= <-])%rbind_Ok. pose proof (rmdir_ok _ _ _ _ Hg (rm_ok _ H)) as Hok.
  apply rmdir_node_Ok in Hg as (x & _ & _ & Hs & He).
  pose proof (removed_none _ _ _ _ H (parent_covered d Hd) Hok Hs He) as H'. split; [done|].
  unfold see. destruct (directory_of g root) as [z|] eqn:Hz; [|done]. simpl.
  unfold directory_of in Hz. rewrite (rm_root _ H') in Hz. apply (removed_chain _ _ _ _ H') in Hz.
  unfold at_parent in Hd. rewrite Hz in Hd. injection Hd as ->. unfold see_at. by rewrite He decide_True.
Qed.

Ltac step_to := apply triple_then; [reads|intros ?|done].

(** The deletion removes entries below its root only; when it returns, the root is
    gone. *)
Lemma delete_tree_spec depth expected policy :
  triple I (delete_tree_structural depth root expected policy) (fun _ => holds root_gone) (fun _ => I).
Proof.
  unfold delete_tree_structural. step_to. apply triple_open_parent. intros d Hd. apply triple_open_root; [done|]. intros x Hx.
  do 6 step_to. apply triple_then; [by apply keeps_walk|intros ?|done]. step_to.
  apply (triple_bind _ _ _ (fun _ => holds root_gone)).
  - apply (triple_catch _ _ _ _ (fun _ => I)); [by apply rmdir_root_gone|]. intros e. unfold on_os_error.
    destruct (is_os_error e); by apply triple_raise.
  - intros ?. eapply triple_weaken; [exact (keeps_syscall root_gone)|done|done|]. by intros e w [Hc [H _]].
Qed.

Lemma keeps_delete_tree depth expected policy : keeps I (delete_tree_structural depth root expected policy).
Proof. eapply triple_weaken; [apply delete_tree_spec|done| |done]. by intros a w [Hc [H _]]. Qed.

Lemma keeps_read_loop P fuel fd offset remaining : keeps (holds P) (read_loop fuel fd offset remaining).
Proof.
  revert offset remaining. induction fuel as [|fuel IH]; intros offset remaining; [reads|]. cbn [read_loop].
  apply keeps_bind; [apply keeps_read|intros chunk]. step. apply keeps_bind; [|intros ?; reads].
  destruct (remaining - len chunk <=? 0); [reads|apply IH].
Qed.
Lemma keeps_read_fd P fd size max : keeps (holds P) (_read_fd fd size max).
Proof. unfold _read_fd. step. destruct (size <=? 0); [reads|apply keeps_read_loop]. Qed.

Lemma keeps_marker rec_limit x marker dev uid : keeps I (_validate_marker rec_limit x root marker dev uid).
Proof.
  unfold _validate_marker. apply keeps_bind; [apply keeps_catch; [reads|intros e; unfold on_missing; case_bool_decide; reads]|intros mst].
  do 11 step. apply keeps_bind; [apply keeps_read_fd|intros raw]. do 3 step. reads.
Qed.

Lemma keeps_verified_delete depth rec_limit marker uid : keeps I (verified_delete_generation depth rec_limit root marker uid).
Proof.
  unfold verified_delete_generation. step. apply triple_open_parent. intros d Hd. apply triple_open_root; [done|]. intros x Hx.
  do 6 step. apply keeps_bind; [apply keeps_marker|intros ?]. do 2 step. apply keeps_bind; [by apply keeps_walk|intros ?]. step.
  apply keeps_bind; [by apply keeps_rmdir_covered, parent_covered|intros ?]. reads.
Qed.
End Removal.

(** C27. Whatever system calls fail, the structural deletion of a tree changes no path
    outside of it; and when it returns, the tree is gone. *)
Theorem structural_deletion_confined w depth root expected policy : calm w -> fs_ok (w_fs w) -> path_tail root <> [] ->
  let '(r, w') := delete_tree_structural depth root expected policy w in
  fs_ok (w_fs w') /\ (r = Ok tt -> see (w_fs w') root = None) /\
  (forall q, path_tail q <> [] -> ~ path_tail root `prefix_of` path_tail q -> see (w_fs w') q = see (w_fs w) q).
Proof.
  intros Hc Hok Hroot. set (G := fun parts => path_tail root `prefix_of` parts).
  assert (HG : forall a b, G a -> G (a ++ b)) by (intros a b; apply prefix_app_r).
  pose proof (delete_tree_spec (w_fs w) G HG root Hroot (reflexivity _) depth expected policy w
    (conj Hc (removed_start _ Hok G))) as H.
  assert (Hout : forall f, removed (w_fs w) G f -> fs_ok f /\ forall q, path_tail q <> [] -> ~ path_tail root `prefix_of` path_tail q ->
    see f q = see (w_fs w) q).
  { intros f Hr. split; [apply (rm_ok _ _ _ Hr)|]. intros q Hq Hn. apply (removed_see (w_fs w) Hok G f q Hr Hq).
    intros a Ha Hga. apply Hn. exact (transitivity Hga Ha). }
  destruct (delete_tree_structural _ _ _ _ w) as [[[]|e] w'].
  - destruct H as [_ [Hr Hgone]]. destruct (Hout _ Hr) as [H1 H2]. by split.
  - destruct H as [_ Hr]. destruct (Hout _ Hr) as [H1 H2]. by split.
Qed.

Lemma structural_deletion_confined_witness :
  let root := parse_path (u "/home/a/.config") in
  let identity := mkIdentity 1 7 1000 0x1C0 4 in
  let policy := mkPolicy 1 1000 (map u ["autostart"; "termrecall"]) true in
  (delete_tree_structural 3 root identity policy (home_world [] [])).1 = Ok tt /\
  let '(r, w') := delete_tree_structural 3 root identity policy (home_world [] []) in
  fs_ok (w_fs w') /\ (r = Ok tt -> see (w_fs w') root = None) /\
  (forall q, path_tail q <> [] -> ~ path_tail root `prefix_of` path_tail q -> see (w_fs w') q = see (w_fs (home_world [] [])) q).
Proof.
  split; [vm_compute; reflexivity|].
  apply structural_deletion_confined; [apply calm_home; reflexivity|exact home_fs_ok|discriminate].
Defined.
