(* ===== verification/LifecycleProofs.v ===== *)
(** * The lifecycle transactions

    In calm worlds: planning reads only; a setup that ends rolled back leaves every
    path it was to change as it was; one that is committed shows its manifest and
    its links. *)
From S2P Require Import Prelude PyText PyVal PyFloat Json Codec Model Contract Effect Files FilesProofs FileViews LifecycleFs.
From S2P Require Import LifecycleFsProofs TreeProofs Integrations Probe Lifecycle Samples.
#[local] Open Scope eff_scope.

(** ** The file system stays well formed *)
Section Kept.
Context (P : fs -> Prop).
Notation reads m := (keeps (holds P) m).

Lemma keeps_open_chain d parts : reads (open_chain d parts).
Proof.
  revert d. induction parts as [|n rest IH]; intros d; cbn [open_chain]; [keeps_all|].
  apply keeps_bind; [|done]. unfold os_open_dir, unsafe. keeps_all.
Qed.
End Kept.
#[local] Hint Resolve keeps_open_chain : keeps.

(** ** Planning reads only *)
Lemma asks_map {A B} f (g : A -> io B) (Q : A -> B -> Prop) l : (forall x, asks f (g x) (Q x) (fun _ => True)) ->
  asks f (emap g l) (fun ys => Forall2 Q l ys) (fun _ => True).
Proof.
  intros H. induction l as [|x l IH]; [by apply asks_ret|]. eapply asks_bind; [apply H|]. intros y Hy.
  eapply asks_bind; [apply IH|]. intros ys Hys. apply asks_ret. by constructor.
Qed.

Lemma asks_any {A} f (m : io A) : keeps (holds (eq f)) m -> asks f m (fun _ => True) (fun _ => True).
Proof. apply asks_keeps. Qed.

(** The image captured at [p]. *)
Definition captured (f : fs) (p : posix_path) (image : BeforeImage) : Prop :=
  bi_path image = path_str p /\ depicts image (see f p).

(** At most one mutation, of [p]; one if [must]. *)
Definition planned (f : fs) (p : posix_path) (must : bool) (l : list PlannedMutation) : Prop :=
  (l = [] /\ must = false) \/ exists before after, l = [mkMutation p before after] /\ captured f p before.

Section Planning.
Context (f : fs) (ok : fs_ok f) (paths : LifecyclePaths).

Lemma asks_plan_bash state prior uid :
  asks f (_plan_bash state paths prior uid) (fun r => planned f (bashrc paths) (negb (bool_decide (state = PRESERVE))) r.1) (fun _ => True).
Proof.
  unfold _plan_bash. case_bool_decide; [by apply asks_ret; left|].
  eapply asks_bind; [by apply asks_capture|]. intros before Hb.
  apply (asks_bind _ _ _ (fun _ => True)); [by apply asks_lift|]. intros transformed _. apply asks_ret. right. by eexists _, _.
Qed.

Lemma asks_plan_autostart state prior uid :
  asks f (_plan_autostart state paths prior uid) (planned f (autostart paths) (bool_decide (state = ENABLE))) (fun _ => True).
Proof.
  unfold _plan_autostart. apply (asks_bind _ _ _ (fun _ => True)); [by apply asks_lift|]. intros expected _.
  eapply asks_bind; [by apply asks_capture|]. intros before Hb. cbv zeta. destruct state.
  - apply (asks_bind _ _ _ (fun _ => True)); [by apply asks_guard|]. intros _ _. apply asks_ret. right. by eexists _, _.
  - case_bool_decide; [by apply asks_ret; left|].
    apply (asks_bind _ _ _ (fun _ => True)); [by apply asks_guard|]. intros _ _. apply asks_ret. right. by eexists _, _.
  - apply asks_ret. by left.
Qed.

Lemma asks_plan_chooser state prior uid :
  asks f (_plan_chooser state paths prior uid) (fun r => planned f (chooser paths) (negb (bool_decide (state = PRESERVE))) r.1) (fun _ => True).
Proof.
  unfold _plan_chooser. eapply asks_bind; [by apply asks_capture|]. intros before Hb.
  assert (Hrest : forall enabled, asks f
    (let after := _chooser_after_image paths enabled in
      do! original :=
        match prior with
        | Some m =>
            if co_changed (im_chooser m) then
              let expected := default (co_original (im_chooser m)) (co_post (im_chooser m)) in
              eguard (negb (bool_decide (bi_kind before = bi_kind expected)) ||
                      negb (bool_decide (bi_sha256 before = bi_sha256 expected)))
                (ValueError (u "chooser was modified externally since the last installer change")) ;;
              eret (co_original (im_chooser m))
            else eret before
        | None => eret before
        end in
      eret ([mkMutation (chooser paths) before after], mkChooser original (Some after) true))
    (fun r => planned f (chooser paths) true r.1) (fun _ => True)).
  { intros enabled. cbv zeta. apply (asks_bind _ _ _ (fun _ => True)).
    - destruct prior as [m|]; [|by apply asks_ret]. destruct (co_changed _); [|by apply asks_ret].
      apply (asks_bind _ _ _ (fun _ => True)); [by apply asks_guard|]. intros _ _. by apply asks_ret.
    - intros original _. apply asks_ret. right. by eexists _, _. }
  destruct state; [apply Hrest|apply Hrest|apply asks_ret; by left].
Qed.

(** What a plan mentions, and the images it holds. *)
Record plan_captures (bash autostart_ chooser_ : DesiredState) (plan : IntegrationPlan) : Prop := {
  pc_bash : planned f (bashrc paths) (negb (bool_decide (bash = PRESERVE))) (ip_bash plan);
  pc_autostart : planned f (autostart paths) (bool_decide (autostart_ = ENABLE)) (ip_autostart plan);
  pc_chooser : planned f (chooser paths) (negb (bool_decide (chooser_ = PRESERVE))) (ip_chooser plan);
}.

Lemma asks_plan_core b a c prior uid :
  asks f (_plan_integrations_core b a c paths prior uid) (plan_captures b a c) (fun _ => True).
Proof.
  unfold _plan_integrations_core. eapply asks_bind; [apply asks_plan_bash|]. intros [bash backup] Hb. cbv beta iota.
  eapply asks_bind; [apply asks_plan_autostart|]. intros auto_ Ha.
  eapply asks_bind; [apply asks_plan_chooser|]. intros [ch own] Hc. cbv beta iota. by apply asks_ret.
Qed.

Lemma asks_plan request prior uid :
  asks f (plan_integrations request paths prior uid) (plan_captures (sr_bash request) (sr_autostart request) (sr_chooser request)) (fun _ => True).
Proof.
  apply (asks_bind _ _ _ (fun _ => True)); [by apply asks_lift|]. intros _ _. apply asks_plan_core.
Qed.

Lemma plan_mutations b a c plan m : plan_captures b a c plan -> m ∈ all_mutations plan ->
  captured f (pm_path m) (pm_before m) /\ pm_path m ∈ [bashrc paths; autostart paths; chooser paths].
Proof.
  clear ok. intros [Hb Ha Hc] Hm. unfold all_mutations in Hm. rewrite !elem_of_app in Hm.
  assert (H : forall p must l, planned f p must l -> m ∈ l -> captured f (pm_path m) (pm_before m) /\ pm_path m = p).
  { intros p must l [[-> _]|(before & after & -> & Hcap)] Hin; [by apply elem_of_nil in Hin|].
    apply list_elem_of_singleton in Hin as ->. done. }
  destruct Hm as [Hm|[Hm|Hm]]; [apply (H _ _ _ Hb) in Hm as [Hx E]|apply (H _ _ _ Ha) in Hm as [Hx E]|apply (H _ _ _ Hc) in Hm as [Hx E]];
    (split; [exact Hx|]); rewrite E; set_solver.
Qed.

Lemma planned_sublist p must l : planned f p must l -> map pm_path l `sublist_of` [p].
Proof. intros [[-> _]|(before & after & -> & _)]; simpl; [apply sublist_nil_l|done]. Qed.

Lemma plan_sublist b a c plan : plan_captures b a c plan ->
  map pm_path (all_mutations plan) `sublist_of` [bashrc paths; autostart paths; chooser paths].
Proof.
  intros [Hb%planned_sublist Ha%planned_sublist Hc%planned_sublist]. unfold all_mutations. rewrite !map_app.
  change [bashrc paths; autostart paths; chooser paths] with ([bashrc paths] ++ [autostart paths] ++ [chooser paths]).
  apply sublist_app; [exact Hb|]. apply sublist_app; [exact Ha|exact Hc].
Qed.
End Planning.

(** ** Every step keeps the file system well formed *)
Section WellFormed.
Notation ok m := (keeps (holds fs_ok) m).

Lemma keeps_os_error_h {A} (I : world -> Prop) (h : io A) e : keeps I h -> keeps I (on_os_error h e).
Proof. apply keeps_os_error. Qed.

Lemma keeps_open_dir path : ok (open_dir path).
Proof. unfold open_dir, _open_dir_chain, _validate_canonical_abs, os_open_root, os_fstat, refuse. keeps_all. Qed.
#[local] Hint Resolve keeps_open_dir : keeps.

Lemma keeps_write_loop fuel fd data : ok (write_loop fuel fd data).
Proof.
  revert data. induction fuel as [|fuel IH]; intros data; destruct data; cbn [write_loop]; [keeps_all..|].
  apply keeps_bind; [auto with keeps|intros n]. apply keeps_bind; [unfold refuse; keeps_all|intros _]. apply IH.
Qed.
#[local] Hint Resolve keeps_write_loop : keeps.

Lemma keeps_atomic_write path data mode uid : ok (atomic_write path data mode uid).
Proof.
  unfold atomic_write, eon_error, _validate_canonical_abs, _unique_name, _validate_parent_fd, fill_temp, _write_all, unlink_if_present,
    or_unsafe, unsafe, refuse, os_fstat, os_fsync. keeps_all.
Qed.

Lemma keeps_atomic_symlink path target uid : ok (atomic_symlink path target uid).
Proof.
  unfold atomic_symlink, eon_error, _validate_canonical_abs, _unique_name, _validate_parent_fd, unlink_if_present,
    or_unsafe, unsafe, refuse, raced, os_fstat, os_fsync, os_readlink_at. keeps_all.
Qed.
#[local] Hint Resolve keeps_atomic_write keeps_atomic_symlink : keeps.

Lemma keeps_mkdir_with exist_ok missing p mode : ok missing -> ok (mkdir_with exist_ok missing p mode).
Proof. intros H. unfold mkdir_with. keeps_all. apply keeps_os_error. keeps_all. Qed.
#[local] Hint Resolve keeps_mkdir_with : keeps.

Lemma keeps_mkdir_parents fuel exist_ok p mode : ok (mkdir_parents fuel exist_ok p mode).
Proof.
  revert exist_ok p mode. induction fuel as [|fuel IH]; intros exist_ok p mode; cbn [mkdir_parents]; apply keeps_mkdir_with; [keeps_all|].
  case_bool_decide; [keeps_all|]. apply keeps_bind; [apply IH|intros _]. apply keeps_mkdir_with. keeps_all.
Qed.
Lemma keeps_mkdir_p exist_ok p mode : ok (mkdir_p exist_ok p mode).
Proof. apply keeps_mkdir_parents. Qed.
#[local] Hint Resolve keeps_mkdir_p : keeps.

Lemma keeps_check_dir path uid : ok (check_installer_dir path uid).
Proof. unfold check_installer_dir, os_lstat, refuse. keeps_all. Qed.
#[local] Hint Resolve keeps_check_dir : keeps.

Lemma keeps_ensure_dir path uid : ok (_ensure_installer_dir path uid).
Proof. unfold _ensure_installer_dir. keeps_all. Qed.

Lemma keeps_missing_ancestors fuel cur : ok (missing_ancestors fuel cur).
Proof.
  revert cur. induction fuel as [|fuel IH]; intros cur; cbn [missing_ancestors]; [keeps_all|].
  apply keeps_bind; [auto with keeps|intros there]. destruct (there || _); [keeps_all|]. apply keeps_bind; [apply IH|intros; keeps_all].
Qed.
#[local] Hint Resolve keeps_missing_ancestors : keeps.

Lemma keeps_ensure_parent path uid : ok (_ensure_parent path uid).
Proof. unfold _ensure_parent, create_parent. keeps_all. Qed.
Lemma keeps_safe_remove path : ok (_safe_remove path).
Proof. unfold _safe_remove, unsafe. keeps_all. Qed.
#[local] Hint Resolve keeps_ensure_parent keeps_safe_remove : keeps.

Lemma keeps_apply_mutation m uid : ok (_apply_mutation m uid).
Proof. unfold _apply_mutation. keeps_all. Qed.
#[local] Hint Resolve keeps_apply_mutation : keeps.

Lemma keeps_write_backup paths plan uid : ok (write_backup paths plan uid).
Proof. unfold write_backup. keeps_all. Qed.
Lemma keeps_apply_mutations l uid : ok (apply_mutations l uid).
Proof. unfold apply_mutations. keeps_all. Qed.
Lemma keeps_make_venv stage : ok (_make_venv_bin stage).
Proof. unfold _make_venv_bin. keeps_all. Qed.
Lemma keeps_marker_bytes g i n : ok (_marker_bytes g i n).
Proof. unfold _marker_bytes. keeps_all. Qed.
Lemma keeps_lifecycle_error {A} e : ok (lifecycle_error e : io A).
Proof. unfold lifecycle_error. keeps_all. Qed.
#[local] Hint Resolve keeps_lifecycle_error : keeps.
Lemma keeps_self_check rec_limit generation uid : ok (staged_self_check rec_limit generation uid).
Proof. unfold staged_self_check, check_executable, os_lstat, read_bytes. keeps_all. Qed.
Lemma keeps_build_manifest paths request g i plan links current_ manifest_ uid :
  ok (_build_install_manifest paths request g i plan links current_ manifest_ uid).
Proof. unfold _build_install_manifest, read_bytes. keeps_all. Qed.

(** *** Deletion *)
Lemma keeps_walk_ok depth d policy top delete : ok (_walk_dir depth d policy top delete).
Proof.
  revert d policy top. induction depth as [|depth IH]; intros d policy top; cbn [_walk_dir]; [apply keeps_raise|].
  unfold _walk_entry, walk_symlink, walk_subdir, walk_file, _safe_unlink_symlink, _safe_unlink_regular, or_concurrent, or_unsafe, unsafe, refuse,
    raced, os_fstat, os_listdir, os_lstat_at, os_open_dir, os_open_reg, concurrent. keeps_all.
  all: apply keeps_os_error; auto with keeps.
Qed.
#[local] Hint Resolve keeps_walk_ok keeps_read_fd : keeps.

Lemma keeps_verified_ok depth rec_limit root marker uid : ok (verified_delete_generation depth rec_limit root marker uid).
Proof.
  unfold verified_delete_generation, _validate_marker, or_missing_unsafe, unsafe, raced, os_fstat, os_fsync,
    _validate_canonical_abs, os_listdir, os_lstat_at, os_open_dir, os_open_reg, refuse. keeps_all.
Qed.
#[local] Hint Resolve keeps_verified_ok : keeps.

Lemma keeps_cleanup_superseded depth rec_limit paths id uid : ok (_cleanup_superseded_generations depth rec_limit paths id uid).
Proof. unfold _cleanup_superseded_generations, cleanup_generation, read_bytes, os_listdir_path. keeps_all. Qed.
End WellFormed.
#[local] Hint Resolve keeps_open_dir keeps_write_loop keeps_atomic_write keeps_atomic_symlink keeps_mkdir_with keeps_mkdir_p keeps_check_dir
  keeps_ensure_dir keeps_ensure_parent keeps_safe_remove keeps_apply_mutation keeps_write_backup keeps_apply_mutations keeps_make_venv
  keeps_marker_bytes keeps_lifecycle_error keeps_self_check keeps_build_manifest keeps_cleanup_superseded : keeps.

(** ** The layout of an installation *)
Definition setup_paths (paths : LifecyclePaths) : list posix_path :=
  manifest paths :: current paths :: command_links paths ++ [bashrc paths; autostart paths; chooser paths].

(** The paths that a setup changes are distinct, have a text, a name that is no
    temporary one, and are not among the generations. *)
Record laid_out (paths : LifecyclePaths) : Prop := {
  lo_distinct : NoDup (map path_tail (setup_paths paths));
  lo_text : forall p, p ∈ setup_paths paths -> parse_path (path_str p) = p;
  lo_named : forall p, p ∈ setup_paths paths -> path_tail p <> [] /\ reserved (path_name p) = false;
  lo_outside : forall p, p ∈ setup_paths paths -> ~ path_tail (generations paths) `prefix_of` path_tail p;
}.

(** A name joined to a path is below it. *)
Lemma no_slash_relative t : 47 ∉ t -> is_absolute (parse_path t) = false.
Proof.
  intros Ht. unfold parse_path. assert (H : split_root t = ([], t)).
  { destruct t as [|c t]; [done|]. unfold split_root. apply not_elem_of_cons in Ht as [Hc _].
    destruct (Z.eq_dec c 47) as [->|Hne]; [done|]. repeat (destruct c as [|c|c]; try done). }
  rewrite H. simpl. by apply bool_decide_eq_false.
Qed.

Lemma path_join_below p t : 47 ∉ t -> path_tail p `prefix_of` path_tail (path_join p t).
Proof. intros Ht. unfold path_join. rewrite (no_slash_relative t Ht). simpl. by exists (path_tail (parse_path t)). Qed.

(** ** Transactions *)
Definition tx (P : fs -> Prop) (R : Progress -> Prop) (s : world * Progress) : Prop := holds P s.1 /\ R s.2.

Section Tx.
Context (P : fs -> Prop) (R : Progress -> Prop).

Lemma triple_disk {A} (P' : fs -> Prop) (m : io A) (Q : A -> fs -> Prop) (E : exn -> fs -> Prop) :
  triple (holds P') m (fun a => holds (Q a)) (fun e => holds (E e)) ->
  triple (tx P' R) (disk m) (fun a => tx (Q a) R) (fun e => tx (E e) R).
Proof. intros H [w p] [Hw Hp]. unfold disk. specialize (H w Hw). by destruct (m w) as [[a|e] w']. Qed.
Lemma keeps_disk {A} (m : io A) : keeps (holds P) m -> keeps (tx P R) (disk m).
Proof. intros H. exact (triple_disk P m (fun _ => P) (fun _ => P) H). Qed.
Lemma keeps_note g : (forall p, R p -> R (g p)) -> keeps (tx P R) (note g).
Proof. intros H [w p] [Hw Hp]. split; [done|]. by apply H. Qed.
Lemma keeps_inject injector point : keeps (tx P R) (inject injector point).
Proof. apply keeps_guard. Qed.
End Tx.
#[local] Hint Resolve keeps_disk keeps_inject : keeps.

Section Setup.
Context (rec_limit depth : nat) (paths : LifecyclePaths).

(** What a setup stages is among the generations. *)
Definition among_generations (g : option posix_path) : Prop :=
  match g with Some p => path_tail (generations paths) `prefix_of` path_tail p | None => True end.
Definition staged_among (p : Progress) : Prop := among_generations (pr_generation p) /\ among_generations (pr_stage p).

Notation I := (tx fs_ok staged_among).

Lemma keeps_stage_generation generation_id install_id uid injector : 47 ∉ generation_id ->
  keeps I (stage_generation rec_limit paths generation_id install_id uid injector).
Proof.
  intros Hid. unfold stage_generation. cbv zeta. unfold apply_mutations.
  repeat (apply keeps_bind; [first [apply keeps_inject | apply keeps_disk; solve [keeps_all] | apply keeps_note]|intros ?]); try apply keeps_inject.
  - intros p [_ Hs]. split; [by apply path_join_below|done].
  - intros p [Hg _]. by split.
Qed.

Lemma keeps_activate request generation_id install_id plan images uid injector :
  keeps I (activate paths request generation_id install_id plan images uid injector).
Proof.
  unfold activate.
  repeat (apply keeps_bind; [first [apply keeps_inject | apply keeps_disk; solve [keeps_all]]|intros ?]).
  by apply keeps_note.
Qed.

(** *** Rolling back *)
Lemma generations_named : laid_out paths -> path_tail (generations paths) <> [].
Proof. intros Hl E. apply (lo_outside _ Hl (manifest paths)); [by left|]. rewrite E. apply prefix_nil. Qed.

Section Remove.
Context (f0 : fs) (ok0 : fs_ok f0) (named : path_tail (generations paths) <> []).
Notation G := (fun parts => path_tail (generations paths) `prefix_of` parts).
Notation I := (holds (removed f0 G)).

Lemma G_below a b : G a -> G (a ++ b).
Proof. apply prefix_app_r. Qed.
Lemma among_named g : path_tail (generations paths) `prefix_of` path_tail g -> path_tail g <> [].
Proof. intros Hg E. rewrite E in Hg. by apply named, prefix_nil_inv. Qed.

Lemma keeps_remove_stage stage uid : among_generations stage -> keeps I (remove_stage depth stage uid).
Proof.
  intros Hs. unfold remove_stage. destruct stage as [s|]; [|apply keeps_ret]. apply keeps_bind; [apply keeps_exists|].
  intros there. destruct there; [|apply keeps_ret]. unfold _structural_remove_dir. apply keeps_bind.
  { unfold if_present. apply keeps_catch; [apply keeps_bind; [apply keeps_query|intros; apply keeps_ret]|].
    intros e. unfold on_missing. case_bool_decide; [apply keeps_ret|apply keeps_raise]. }
  intros [st|]; [|apply keeps_ret]. apply keeps_bind; [apply keeps_guard|intros _]. apply keeps_bind; [apply keeps_query|intros names].
  apply (keeps_delete_tree f0 G G_below s (among_named s Hs) Hs).
Qed.

Lemma keeps_remove_generation g uid : path_tail (generations paths) `prefix_of` path_tail g -> keeps I (remove_generation rec_limit depth g uid).
Proof.
  intros Hg. unfold remove_generation. apply keeps_bind; [unfold read_bytes; keeps_all|intros raw].
  apply (keeps_verified_delete f0 G G_below g (among_named g Hg) Hg).
Qed.

Lemma keeps_remove_staged g s uid : among_generations g -> among_generations s -> keeps I (remove_staged rec_limit depth g s uid).
Proof.
  intros Hg Hs. unfold remove_staged. destruct g as [g|]; [|by apply keeps_remove_stage].
  apply keeps_bind; [apply keeps_exists|]. intros there. destruct there; [by apply keeps_remove_generation|by apply keeps_remove_stage].
Qed.
End Remove.

(** What is restored are paths outside of the generations. *)
Definition restores_outside (images : list BeforeImage) : Prop := restorable images /\
  forall image, image ∈ images -> ~ path_tail (generations paths) `prefix_of` path_tail (image_path image).

(** The rollback raises nothing; when it says that it is complete, every path shows
    its image again. *)
Lemma rollback_restores f0 images plan g s uid injector : fs_ok f0 -> path_tail (generations paths) <> [] ->
  restores_outside (setup_restores images plan) -> among_generations g -> among_generations s ->
  triple (holds (eq f0)) (_rollback_setup rec_limit depth images plan g s uid injector)
    (fun code => holds (fun f => fs_ok f /\ (code = ROLLBACK_INCOMPLETE \/ code = ROLLED_BACK /\
       forall image, image ∈ setup_restores images plan -> restored_as uid image (see f (image_path image)))))
    (fun _ _ => False).
Proof.
  intros Hok Hnamed [Hr Hout] Hg Hs. unfold _rollback_setup.
  apply (triple_catch _ _ _ _ (fun _ => holds fs_ok)).
  2: { intros e. apply triple_ret. intros w [Hc H]. split; [done|]. split; [done|]. by left. }
  apply triple_then; [apply keeps_guard| |intros e w [Hc Hf]; split; [done|by rewrite -Hf]]. intros u1.
  eapply triple_bind; [exact (restore_list f0 uid _ Hok Hr)|]. intros u2. cbv beta. apply triple_state. intros f1 Hall.
  set (G := fun parts => path_tail (generations paths) `prefix_of` parts).
  pose proof (ar_ok _ _ _ _ Hall) as Hok1.
  assert (Hf : forall f, removed f1 G f -> fs_ok f /\
    forall image, image ∈ setup_restores images plan -> restored_as uid image (see f (image_path image))).
  { intros f H. split; [apply (rm_ok _ _ _ H)|]. intros image Hi.
    assert (Hsee : see f (image_path image) = see f1 (image_path image)).
    { apply (removed_see f1 Hok1 G f _ H); [by apply (rs_named _ Hr)|].
      intros a Ha HG. apply (Hout image Hi). exact (transitivity HG Ha). }
    rewrite Hsee. by apply (ar_restored _ _ _ _ Hall). }
  apply (triple_bind _ _ _ (fun _ => holds (removed f1 G))).
  - apply (triple_weaken _ (holds (removed f1 G)) _ _ (fun _ => holds (removed f1 G)) _ (fun _ => holds (removed f1 G)));
      [exact (keeps_remove_staged f1 Hnamed g s uid Hg Hs)| |done|].
    + intros w [Hc Hw]. split; [done|]. rewrite -Hw. by apply removed_start.
    + intros e w [Hc H]. split; [done|]. by apply Hf.
  - intros u3. apply triple_ret. intros w [Hc H]. split; [done|]. destruct (Hf _ H). split; [done|]. by right.
Qed.

(** *** The locked setup *)
Lemma elem_of_rev {A} (x : A) l : x ∈ rev l <-> x ∈ l.
Proof. by rewrite -(Permutation_rev l). Qed.
Lemma elem_of_map {A B} (g : A -> B) l y : y ∈ map g l <-> exists x, y = g x /\ x ∈ l.
Proof. exact (list_elem_of_fmap g l y). Qed.

Lemma triple_random_token P {B} (k : pystr -> io B) Q E : (forall t, 47 ∉ t -> triple (holds P) (k t) Q E) -> triple (holds P) (ebind token_hex k) Q E.
Proof.
  intros Hk w H. unfold ebind, token_hex.
  apply Hk; [|exact (keeps_token P w H)]. destruct H as [[_ Ht] _].
  destruct (w_tokens w) as [|t ts]; [by intros ?%elem_of_nil|]. by apply Forall_cons in Ht as [Ht _].
Qed.

(** What the images show. *)
Record images_taken (f : fs) (images : SetupImages) (plan : IntegrationPlan) (request : SetupRequest) : Prop := {
  it_manifest : captured f (manifest paths) (si_manifest images);
  it_current : captured f (current paths) (si_current images);
  it_links : Forall2 (captured f) (command_links paths) (si_links images);
  it_plan : plan_captures f paths (sr_bash request) (sr_autostart request) (sr_chooser request) plan;
}.

Section Taken.
Context (layout : laid_out paths) (f : fs) (images : SetupImages) (plan : IntegrationPlan) (request : SetupRequest)
  (taken : images_taken f images plan request).

(** Each image is that of one of the paths. *)
Lemma restores_captured image : image ∈ setup_restores images plan ->
  image_path image ∈ setup_paths paths /\ captured f (image_path image) image.
Proof.
  intros Hi.
  assert (H : exists p, p ∈ setup_paths paths /\ captured f p image).
  { destruct taken as [Hm Hc Hl Hp]. unfold setup_restores in Hi. unfold setup_paths.
    rewrite !elem_of_cons elem_of_app !elem_of_rev elem_of_map in Hi.
    destruct Hi as [->|[->|[Hi|(m & -> & Hm')]]].
    - exists (manifest paths). set_solver.
    - exists (current paths). set_solver.
    - apply list_elem_of_lookup in Hi as [k Hk]. apply (Forall2_lookup_r _ _ _ _ _ Hl) in Hk as (p & Hp' & Hcap).
      exists p. split; [|done]. apply list_elem_of_lookup_2 in Hp'. set_solver.
    - apply (plan_mutations _ _ _ _ _ _ _ Hp) in Hm' as [Hcap Hin]. exists (pm_path m). split; [|done]. set_solver. }
  destruct H as (p & Hp & Hcap). assert (E : image_path image = p).
  { unfold image_path. rewrite (proj1 Hcap). by apply (lo_text _ layout). }
  rewrite E. by split.
Qed.

Lemma captured_path p image : p ∈ setup_paths paths -> captured f p image -> image_path image = p.
Proof. intros Hp [E _]. unfold image_path. rewrite E. by apply (lo_text _ layout). Qed.

Lemma links_paths images' : Forall2 (captured f) (command_links paths) images' -> map image_path images' = command_links paths.
Proof.
  assert (Hsub : forall p, p ∈ command_links paths -> p ∈ setup_paths paths) by (intros p Hp; unfold setup_paths; set_solver).
  intros H. revert Hsub. induction H as [|p image ps images' Hc _ IH]; intros Hsub; [done|]. simpl.
  f_equal; [apply captured_path; [apply Hsub; by left|done]|]. apply IH. intros q Hq. apply Hsub. by right.
Qed.

Lemma plan_paths l : l `sublist_of` all_mutations plan -> map image_path (map pm_before l) = map pm_path l.
Proof.
  intros Hl. assert (Hin : forall m, m ∈ l -> m ∈ all_mutations plan) by (intros m Hm; exact (elem_of_sublist _ _ _ Hm Hl)).
  clear Hl. induction l as [|m l IH]; [done|]. simpl. rewrite IH; [intros m' Hm'; apply Hin; by right|]. f_equal.
  destruct (plan_mutations _ _ _ _ _ _ m (it_plan _ _ _ _ taken) (Hin m ltac:(by left))) as [Hcap Hp].
  apply captured_path; [|done]. unfold setup_paths. set_solver.
Qed.

Lemma restores_distinct : NoDup (map (fun image => path_tail (image_path image)) (setup_restores images plan)).
Proof.
  pose proof (lo_distinct _ layout) as Hnd. pose proof taken as [Hm Hc Hl Hp].
  rewrite -(map_map image_path path_tail).
  assert (E : map image_path (setup_restores images plan) ≡ₚ manifest paths :: current paths :: command_links paths ++ map pm_path (all_mutations plan)).
  { unfold setup_restores. rewrite -!Permutation_rev /= map_app (links_paths _ Hl) plan_paths //.
    rewrite (captured_path (manifest paths)) // ?(captured_path (current paths)) //; unfold setup_paths; set_solver. }
  rewrite E. refine (sublist_NoDup _ _ Hnd _). unfold setup_paths. apply (fmap_sublist path_tail).
  do 2 constructor. apply sublist_app; [done|]. exact (plan_sublist _ _ _ _ _ _ Hp).
Qed.

Lemma restores_taken : restores_outside (setup_restores images plan).
Proof.
  split; [split; [apply restores_distinct|]|]; intros image [Hp _]%restores_captured.
  - by apply (lo_named _ layout).
  - by apply (lo_outside _ layout).
Qed.

(** What must be changed is restored. *)
Lemma planned_restored p must l : planned f p must l -> must = true -> exists m, m ∈ l /\ captured f p (pm_before m).
Proof.
  intros [[_ ->]|(before & after & -> & Hc)] Hm; [done|]. exists (mkMutation p before after). split; [by left|done].
Qed.

Definition setup_changes : list posix_path :=
  manifest paths :: current paths :: command_links paths ++
  (if bool_decide (sr_bash request = PRESERVE) then [] else [bashrc paths]) ++
  (if bool_decide (sr_autostart request = ENABLE) then [autostart paths] else []) ++
  (if bool_decide (sr_chooser request = PRESERVE) then [] else [chooser paths]).

Lemma changes_are_setup p : p ∈ setup_changes -> p ∈ setup_paths paths.
Proof.
  unfold setup_changes, setup_paths. rewrite !elem_of_cons !elem_of_app.
  intros [H|[H|[H|[H|[H|H]]]]]; [by left|by right; left|by right; right; left|right; right; right..];
    case_bool_decide; try (by apply elem_of_nil in H); apply list_elem_of_singleton in H as ->; rewrite !elem_of_cons; auto.
Qed.

Lemma changes_captured p : p ∈ setup_changes -> exists image, image ∈ setup_restores images plan /\ captured f p image.
Proof.
  destruct taken as [Hm Hc Hl Hp]. unfold setup_changes, setup_restores.
  assert (Hplan : forall m, m ∈ all_mutations plan -> pm_before m ∈
    si_manifest images :: si_current images :: rev (si_links images) ++ rev (map pm_before (all_mutations plan))).
  { intros m Hin. rewrite !elem_of_cons elem_of_app !elem_of_rev elem_of_map. right; right; right. by exists m. }
  rewrite !elem_of_cons !elem_of_app. intros [->|[->|[Hin|Hin]]].
  - exists (si_manifest images). split; [by left|done].
  - exists (si_current images). split; [by right; left|done].
  - apply list_elem_of_lookup in Hin as [k Hk]. apply (Forall2_lookup_l _ _ _ _ _ Hl) in Hk as (image & Hi & Hcap).
    exists image. split; [|done]. rewrite !elem_of_cons elem_of_app elem_of_rev. right; right; left. by apply list_elem_of_lookup_2 in Hi.
  - assert (H : exists m, m ∈ all_mutations plan /\ captured f p (pm_before m)).
    { unfold all_mutations. destruct Hp as [Hpb Hpa Hpc]. destruct Hin as [Hin|[Hin|Hin]]; case_bool_decide as E;
        try (by apply elem_of_nil in Hin); apply list_elem_of_singleton in Hin as ->.
      - destruct (planned_restored _ _ _ Hpb) as (m & Hm' & Hcap); [by try rewrite bool_decide_eq_false_2|].
        exists m. split; [apply elem_of_app; by left|done].
      - destruct (planned_restored _ _ _ Hpa) as (m & Hm' & Hcap); [by try apply bool_decide_eq_true_2|].
        exists m. split; [apply elem_of_app; right; apply elem_of_app; by left|done].
      - destruct (planned_restored _ _ _ Hpc) as (m & Hm' & Hcap); [by try rewrite bool_decide_eq_false_2|].
        exists m. split; [apply elem_of_app; right; apply elem_of_app; by right|done]. }
    destruct H as (m & Hm' & Hcap). exists (pm_before m). split; [by apply Hplan|done].
Qed.

(** What a path shows again after it was restored: nothing where nothing was, the
    same link, the same content under the mode that was captured. *)
Definition same_leaf (old new : option inode) : Prop :=
  match old with
  | None => new = None
  | Some i => exists i', new = Some i' /\ i_node i' = i_node i /\
      (is_reg_node (i_node i) = true -> i_mode i' = perm_bits (mode_or (Some (i_mode i)) 0x180))
  end.

Lemma restored_same uid image old new : depicts image old -> restored_as uid image new -> same_leaf old new.
Proof.
  unfold depicts, restored_as, same_leaf. destruct (bi_kind image).
  - by intros -> ->.
  - intros (i & data & -> & Hi & -> & -> & _) (i' & [dev ->] & ->). eexists. split; [done|]. by rewrite Hi.
  - intros (i & target & -> & Hi & -> & _) (i' & (dev & u & ->) & ->). eexists. split; [done|]. rewrite Hi. by split.
Qed.
End Taken.

Definition setup_outcome (f0 : fs) (request : SetupRequest) (code : LifecycleExit) (f : fs) : Prop :=
  fs_ok f /\ code ∈ [OK; WARNING; ROLLED_BACK; ROLLBACK_INCOMPLETE] /\
  (code = ROLLED_BACK -> forall p, p ∈ setup_changes request -> same_leaf (see f0 p) (see f p)).

Lemma warning_outcome f0 request (m : io unit) : keeps (holds fs_ok) m ->
  triple (holds fs_ok) (or_warning m) (fun code => holds (setup_outcome f0 request code)) (fun _ => holds fs_ok).
Proof.
  intros Hm. unfold or_warning. apply (triple_catch _ _ _ _ (fun _ => holds fs_ok)).
  - apply (triple_bind _ _ _ (fun _ => holds fs_ok)); [exact Hm|]. intros _. apply triple_ret.
    intros w [Hc H]. split; [done|]. split; [done|]. split; [by left|done].
  - intros e. apply triple_ret. intros w [Hc H]. split; [done|]. split; [done|]. split; [by right; left|done].
Qed.

(** The steps after the images were taken, with the rollback. *)
Lemma steps_outcome f0 plan images request generation_id install_id stage uid injector :
  laid_out paths -> images_taken f0 images plan request -> 47 ∉ generation_id -> among_generations stage ->
  triple (holds fs_ok)
    (fun w =>
       match (stage_generation rec_limit paths generation_id install_id uid injector ;;
              activate paths request generation_id install_id plan images uid injector) (w, set_stage stage no_progress) with
       | (Ok _, (w', _)) =>
           or_warning (inject injector DURING_POSTCOMMIT_CLEANUP ;; _cleanup_superseded_generations rec_limit depth paths generation_id uid) w'
       | (Err _, (w', p)) => _rollback_setup rec_limit depth images plan (pr_generation p) (pr_stage p) uid injector w'
       end)
    (fun code => holds (setup_outcome f0 request code)) (fun _ => holds fs_ok).
Proof.
  intros layout taken Hid Hs w Hw.
  assert (Hsteps : keeps I (stage_generation rec_limit paths generation_id install_id uid injector ;;
    activate paths request generation_id install_id plan images uid injector)).
  { apply keeps_bind; [by apply keeps_stage_generation|intros _; apply keeps_activate]. }
  specialize (Hsteps (w, set_stage stage no_progress) (conj Hw (conj Logic.I Hs))).
  destruct ((_ ;; _) _) as [[[]|e] [w' p]], Hsteps as [[Hc Hok] [Hg Hst]].
  - refine (warning_outcome f0 request _ _ w' (conj Hc Hok)). apply keeps_bind; [apply keeps_guard|intros _; apply keeps_cleanup_superseded].
  - pose proof (rollback_restores (w_fs w') images plan (pr_generation p) (pr_stage p) uid injector Hok (generations_named layout)
      (restores_taken layout f0 images plan request taken) Hg Hst w' (conj Hc eq_refl)) as H.
    destruct (_rollback_setup _ _ _ _ _ _ _ _ w') as [[code|e'] w2]; [|done]. destruct H as [Hc2 [Hok2 H]].
    split; [done|]. split; [done|]. destruct H as [->|[-> Hr]]; [split; [set_solver|done]|]. split; [set_solver|].
    intros _ q Hq. destruct (changes_captured f0 images plan request taken q Hq) as (image & Hi & Hcap).
    destruct (restores_captured layout f0 images plan request taken image Hi) as [Hp Hcap'].
    specialize (Hr image Hi). apply (restored_same uid image); [exact (proj2 Hcap)|].
    assert (E : image_path image = q); [|by rewrite -E]. unfold image_path. rewrite (proj1 Hcap). apply (lo_text _ layout).
    by apply (changes_are_setup request).
Qed.

Lemma asks_images f paths' (l : list posix_path) uid : fs_ok f -> paths' = l ->
  asks f (emap (fun link => capture_before link uid) l) (fun images => Forall2 (captured f) paths' images) (fun _ => True).
Proof. intros Hok ->. apply asks_map. intros link. exact (asks_capture f link uid Hok). Qed.

Lemma locked_outcome f0 prior request uid injector : fs_ok f0 -> laid_out paths ->
  triple (holds (eq f0)) (_execute_setup_locked rec_limit depth prior request paths uid injector)
    (fun code => holds (setup_outcome f0 request code)) (fun _ => holds fs_ok).
Proof.
  intros Hok layout. unfold _execute_setup_locked.
  assert (Hsame : forall (e : exn) f w, eq f0 f -> True -> holds (eq f) w -> holds fs_ok w) by (intros e f w <- _ [Hc Hw]; split; [done|by rewrite -Hw]).
  apply (triple_asks _ _ _ (fun f a => plan_captures f paths (sr_bash request) (sr_autostart request) (sr_chooser request) a) _ _ (fun _ _ => True)); [intros f <-; exact (asks_plan f0 Hok paths request prior uid)| |exact Hsame].
  intros plan f <- Hplan. apply (triple_asks _ _ _ (fun f => captured f (current paths)) _ _ (fun _ _ => True)); [intros f <-; exact (asks_capture f0 (current paths) uid Hok)| |exact Hsame].
  intros before_current f <- Hcurrent. apply (triple_asks _ _ _ (fun f => Forall2 (captured f) (command_links paths)) _ _ (fun _ _ => True)); [intros f <-; exact (asks_images f0 _ (command_links paths) uid Hok eq_refl)| |exact Hsame].
  intros before_links f <- Hlinks. apply (triple_asks _ _ _ (fun f => captured f (manifest paths)) _ _ (fun _ _ => True)); [intros f <-; exact (asks_capture f0 (manifest paths) uid Hok)| |exact Hsame].
  intros before_manifest f <- Hmanifest. cbv zeta.
  assert (taken : images_taken f0 (mkImages before_current before_links before_manifest) plan request) by done.
  apply (triple_weaken _ (holds fs_ok) _ _ (fun code => holds (setup_outcome f0 request code)) _ (fun _ => holds fs_ok)); [|intros w [Hc Hw]; split; [done|by rewrite -Hw]|done|done].
  apply triple_then; [apply keeps_ensure_dir|intros _|done]. apply triple_then; [apply keeps_ensure_dir|intros _|done].
  apply triple_random_token. intros generation_id Hid. apply triple_then; [|intros install_id|done].
  { destruct prior as [m|]; [case_bool_decide|]; keeps_all. }
  apply (steps_outcome f0 plan _ request generation_id install_id); [done|done|done|].
  apply path_join_below. unfold u. apply not_elem_of_app. split; [|done]. vm_compute. intros H. repeat (apply elem_of_cons in H as [H|H]; [done|]). by apply elem_of_nil in H.
Qed.
End Setup.


Lemma home_laid_out : laid_out home_paths.
Proof.
  split.
  - apply (bool_decide_unpack _). vm_compute. exact Logic.I.
  - apply Forall_forall. unfold setup_paths. repeat (apply List.Forall_cons; [vm_compute; reflexivity|]). apply List.Forall_nil.
  - apply Forall_forall. repeat (apply List.Forall_cons; [split; [discriminate|vm_compute; reflexivity]|]). apply List.Forall_nil.
  - apply Forall_forall. repeat (apply List.Forall_cons; [apply (bool_decide_unpack _); vm_compute; exact Logic.I|]). apply List.Forall_nil.
Qed.

Definition full_request : SetupRequest := mkSetup FULL false ENABLE ENABLE ENABLE (parse_path (u "/src")) None None None None.

(** The disk is full when the manifest is written. *)
Definition full_disk : world := home_world (repeat Serves 200 ++ [Fails ENOSPC]) (map (fun n => [Z.of_nat n]) (seq 65 40)).
Definition setup_on (w : world) : result LifecycleExit * world :=
  _execute_setup_locked 50 10 None full_request home_paths 1000 [] w.

