(* ===== verification/Console.v ===== *)
(** * The terminal of a command

    Standard input as the lines that are still to come, and what was printed on
    standard output.  What goes to standard error is not modelled. *)
From S2P Require Import Prelude PyText Effect.
#[local] Open Scope eff_scope.

Inductive input := Line (text : pystr) | Interrupt.

Record console := mkConsole {
  co_tty : bool;                 (* [stdin.isatty()] *)
  co_input : list input;         (* then the end of the file *)
  co_output : pystr;
}.

(** A program with a terminal [console] and another state. *)
Definition term (S A : Type) : Type := eff (S * console) A.

(** [s.rstrip("\r\n")] *)
Definition is_line_end (c : Z) : bool := (c =? 10) || (c =? 13).
Definition rstrip_lines (s : pystr) : pystr := rev (drop_while is_line_end (rev s)).

(** [answer.casefold() in {"y", "yes"}]: the long s folds to an s; no other character
    folds to one of these letters alone. *)
Definition fold_char (c : Z) : Z := if (65 <=? c) && (c <=? 90) then c + 32 else if c =? 0x17F then 115 else c.
Definition says_yes (answer : pystr) : bool := str_in (map fold_char answer) [u "y"; u "yes"].

Section Terminal.
Context {S : Type}.

Definition sys {A} (m : eff S A) : term S A := fun '(s, c) => let '(r, s') := m s in (r, (s', c)).
Definition print (text : pystr) : term S unit := fun '(s, c) => (Ok tt, (s, mkConsole (co_tty c) (co_input c) (co_output c ++ text))).
Definition println (text : pystr) : term S unit := print (text ++ [10]).
Definition isatty : term S bool := fun '(s, c) => (Ok (co_tty c), (s, c)).

(** [stdin.readline()], without its line end; [None] at the end of the file. *)
Definition readline : term S (option pystr) := fun '(s, c) =>
  match co_input c with
  | [] => (Ok None, (s, c))
  | Line text :: rest => (Ok (Some (rstrip_lines text)), (s, mkConsole (co_tty c) rest (co_output c)))
  | Interrupt :: rest => (Err KeyboardInterrupt, (s, mkConsole (co_tty c) rest (co_output c)))
  end.
End Terminal.
