(* ===== verification/Installer.v ===== *)
(** * The installer commands ([installer.py])

    The public [setup], [autostart] and [uninstall] commands of an installation and
    the bootstrap that [install.sh] runs.  Their arguments are parsed already; what
    the [argparse] parser makes of a command line is not modelled. *)
From S2P Require Import Prelude PyText PyVal PyFloat Json Codec Model Contract Effect Files LifecycleFs Integrations Probe Lifecycle Console.
#[local] Open Scope eff_scope.

Section Installer.
(** [may] is the kernel's verdict on [os.access]: the inode, and the bits asked for. *)
Context (rec_limit depth : nat) (may : inode -> Z -> bool) (package_dir : posix_path) (env : pystr -> option pystr) (user_home : posix_path).

Definition R_OK : Z := 4.
Definition X_OK : Z := 1.
Definition os_access (p : posix_path) (bits : Z) : io bool :=
  ecatch (do! st := os_stat p in eret (may st.2 bits)) (on_os_error (eret false)).

(** ** Verification of an installation *)
Definition resolve_lifecycle_paths_from_env : result LifecyclePaths :=
  resolve_lifecycle_paths env (match env (u "HOME") with Some (c :: h) => parse_path (c :: h) | _ => user_home end).

Definition or_refused {A} (m : io A) : io A := ecatch m (on_os_error (lifecycle_error REFUSED)).
Definition refuse_if (b : bool) : io unit := if b then lifecycle_error REFUSED else eret tt.

Definition _verify_symlink (path : posix_path) (expected_target : pystr) (uid : Z) : io unit :=
  do! st := or_refused (os_lstat path) in
  refuse_if (negb (S_ISLNK st) || negb (st_uid st =? uid)) ;;
  do! target := os_readlink path in
  refuse_if (negb (str_eqb target expected_target)).

Definition verify_marker (marker : posix_path) (expected : MarkerIdentity) (uid : Z) : io unit :=
  do! st := or_refused (os_lstat marker) in
  refuse_if (negb (S_ISREG st) || negb (st_uid st =? uid) || negb (st_mode st =? 0x180)) ;;
  do! raw := read_bytes marker in
  refuse_if (negb (str_eqb (Sha256.hexdigest raw) (mi_sha256 expected))).

Definition _BASH_HOOK : posix_path := path_join package_dir (u "data/bash/termrecall.bash").
Definition _DESKTOP_ENTRY : posix_path := path_join package_dir (u "data/xdg/termrecall.desktop").
Definition verify_resource (path : posix_path) : io unit :=
  do! st := or_refused (os_stat path) in
  do! readable := (if S_ISREG st then os_access path R_OK else eret false) in
  refuse_if (negb readable).
Definition _verify_package_resources : io unit := eforeach verify_resource [_BASH_HOOK; _DESKTOP_ENTRY].

Definition verify_executable (venv_bin : posix_path) (uid : Z) (name : pystr) : io unit :=
  let exe := path_join venv_bin name in
  do! st := or_refused (os_lstat exe) in
  do! runs := (if S_ISREG st && (st_uid st =? uid) then os_access exe X_OK else eret false) in
  refuse_if (negb runs).
Definition _verify_generation_executables (generation : posix_path) (uid : Z) : io unit :=
  eforeach (verify_executable (path_join generation (u "venv/bin")) uid) command_names.

Definition _verify_installation (paths : LifecyclePaths) (uid : Z) : io InstallManifest :=
  do! there := exists_path (manifest paths) in
  refuse_if (negb there) ;;
  do! raw := read_bytes (manifest paths) in
  do! m := elift (manifest_from_bytes rec_limit raw paths uid) in
  let generation := path_join (generations paths) (im_generation_id m) in
  _verify_symlink (current paths) (path_str generation) uid ;;
  verify_marker (path_join generation MARKER_NAME) (im_marker m) uid ;;
  _verify_generation_executables generation uid ;;
  eforeach (fun link => _verify_symlink link (path_str (command_target paths link)) uid) (command_links paths) ;;
  _verify_package_resources ;;
  eret m.

(** ** [setup] and [autostart] *)
Definition command : Type := term world Z.

(** [except LifecycleError as exc: return exc.exit_code] *)
Definition or_exit {A} (m : io A) (k : A -> command) : command :=
  do! r := sys (ecatch (do! a := m in eret (inl a)) (fun e => match e with LifecycleError code => eret (inr code) | _ => eraise e end)) in
  match r with inl a => k a | inr code => eret code end.

Definition _render_integration_plan (request : IntegrationSetupRequest) : term world unit :=
  println (u "TermRecall integration setup (dry run)") ;;
  println (u "bash: " ++ enum_value (ir_bash request)) ;;
  println (u "autostart: " ++ enum_value (ir_autostart request)) ;;
  println (u "chooser: " ++ enum_value (ir_chooser request)).

Definition run_integration_setup (request : IntegrationSetupRequest) (uid : Z) : command :=
  do! paths := elift resolve_lifecycle_paths_from_env in
  or_exit (_verify_installation paths uid) (fun prior =>
    if ir_dry_run request then _render_integration_plan request ;; eret (exit_code OK)
    else
      do! planned := sys (ecatch (plan_installed_integrations request paths prior uid ;; eret true)
                       (fun e => match e with
                                 | LifecycleError _ => eret false
                                 | _ => if is_value_error e then eret false else eraise e
                                 end)) in
      if negb planned then eret (exit_code REFUSED)
      else
        do! result := sys (execute_integration_setup rec_limit request paths uid NO_FAILURE) in
        (if bool_decide (result = OK) then println (u "setup: integration changes applied") else eret tt) ;;
        eret (exit_code result)).

Definition run_autostart (enable : bool) (uid : Z) : command :=
  do! paths := elift resolve_lifecycle_paths_from_env in
  or_exit (_verify_installation paths uid) (fun _ =>
    do! result := sys (set_autostart rec_limit enable paths uid) in
    (if bool_decide (result = OK) then println (u "autostart: " ++ (if enable then u "enable" else u "disable") ++ u "d") else eret tt) ;;
    eret (exit_code result)).

(** ** [uninstall] *)
Definition _yes_uninstall_request (purge : bool) : UninstallRequest := mkUninstall true true true false purge true.

(** A [KeyboardInterrupt] is the end of the input. *)
Definition answer_line : term world (option pystr) :=
  ecatch readline (fun e => match e with KeyboardInterrupt => eret None | _ => eraise e end).

Definition _ask_yes_no (question : pystr) (default : bool) : term world (option bool) :=
  print (question ++ (if default then u " [Y/n] " else u " [y/N] ")) ;;
  do! line := answer_line in
  eret (match line with
        | None => None
        | Some text => let answer := strip text in Some (if bool_decide (answer = []) then default else says_yes answer)
        end).

Record answers := mkAnswers { an_app : bool; an_bash : bool; an_autostart : bool; an_chooser : bool; an_purge : bool }.

(** [if answer is None: return None] *)
Definition answered {A B} (m : term world (option A)) (k : A -> term world (option B)) : term world (option B) :=
  do! r := m in match r with None => eret None | Some a => k a end.

(** [while app and not (bash and autostart)]: each turn takes at least two lines. *)
Fixpoint resolve_answers (fuel : nat) (installed : bool) (a : answers) : term world (option answers) :=
  if an_app a && negb (an_bash a && an_autostart a) then
    match fuel with
    | O => eret None
    | S fuel' =>
        println (u "Removing the application also requires Bash and autostart removal.") ;;
        answered (_ask_yes_no (u "Remove the Bash integration?") true) (fun bash =>
        answered (_ask_yes_no (u "Remove the autostart entry?") installed) (fun autostart =>
        let again app := resolve_answers fuel' installed (mkAnswers app bash autostart (an_chooser a) (an_purge a)) in
        if negb bash || negb autostart then
          answered (_ask_yes_no (u "Keep the TermRecall application installed?") true) (fun keep => again (if keep then false else an_app a))
        else again (an_app a)))
    end
  else eret (Some a).

Definition confirm_purge (purge : bool) : term world (option bool) :=
  if purge then
    print (u "Type 'yes' (case-sensitive) to confirm permanent state purge: ") ;;
    answered answer_line (fun confirm =>
      if str_eqb confirm (u "yes") then eret (Some true)
      else println (u "purge refused; recovery state will be retained") ;; eret (Some false))
  else eret (Some false).

(** The lines that are left bound the turns: the last one ends at the end of the input. *)
Definition _collect_uninstall_answers (paths : LifecyclePaths) : term world (option answers) :=
  do! installed := sys (exists_path (autostart paths)) in
  answered (_ask_yes_no (u "Remove the TermRecall application?") true) (fun app =>
  answered (_ask_yes_no (u "Remove the Bash integration?") true) (fun bash =>
  answered (_ask_yes_no (u "Remove the autostart entry?") installed) (fun autostart =>
  answered (_ask_yes_no (u "Restore the original chooser config?") false) (fun chooser =>
  answered (_ask_yes_no (u "Permanently purge recovery state?") false) (fun purge =>
  answered (confirm_purge purge) (fun purge =>
  fun s => resolve_answers (S (length (co_input s.2))) installed (mkAnswers app bash autostart chooser purge) s)))))).

Definition _build_uninstall_request (a : answers) : UninstallRequest :=
  mkUninstall (an_app a) (an_bash a) (an_autostart a) (an_chooser a) (an_purge a) false.

Definition uninstall_with (request : UninstallRequest) (paths : LifecyclePaths) (uid : Z) : command :=
  or_exit (plan_uninstall rec_limit request paths uid) (fun plan =>
    do! result := sys (execute_uninstall rec_limit depth plan uid NO_FAILURE) in
    (if bool_decide (result = OK) then
       println (if remove_application request then u "uninstall: TermRecall application removed"
                else u "uninstall: selected integrations removed")
     else eret tt) ;;
    eret (exit_code result)).

Definition run_uninstall (purge_state assume_yes : bool) (uid : Z) : command :=
  do! paths := elift resolve_lifecycle_paths_from_env in
  if purge_state && negb assume_yes then eret (exit_code USAGE)
  else if assume_yes then uninstall_with (_yes_uninstall_request purge_state) paths uid
  else
    do! tty := isatty in
    if negb tty then eret (exit_code USAGE)
    else
      do! collected := _collect_uninstall_answers paths in
      match collected with
      | None => eret (exit_code USAGE)
      | Some a => uninstall_with (_build_uninstall_request a) paths uid
      end.

(** ** The bootstrap that [install.sh] delegates to *)

(** The values of each option, as often as they occur. *)
Record bootstrap_args := mkBootstrap {
  ba_request_fd : list pystr;
  ba_plan_fd : list pystr;
  ba_expected_digest : list pystr;
  ba_wheel : list pystr;
}.

Definition _is_sha256 (value : pystr) : bool := (len value =? 64) && forallb hex_lower_char value.
Definition _exactly_one (values : list pystr) (name : pystr) : result pystr :=
  match values with [v] => Ok v | _ => Err (ValueError (name ++ u " must occur exactly once")) end.

(** [value.lstrip("+").isdigit()], then [int(value, 10)]. *)
Definition _parse_fd (value name : pystr) : result Z :=
  let bare := drop_while (fun c => c =? 43) value in
  let error := ValueError (name ++ u " must be a non-negative integer") in
  raise_if (bool_decide (bare = []) || negb (forallb is_digit bare)) error ;?
  let? fd := result_of_option (int_of_str value) (ValueError (u "invalid literal for int()")) in
  raise_if (fd <? 0) error ;?
  Ok fd.

(** What [os.read] gives, call by call: a chunk of at most [limit - len(data)] bytes, the
    end of the file ([[]], or no more calls), or an error. *)
Fixpoint _read_fd_bounded (data : pybytes) (reads : list (result pybytes)) : pybytes :=
  if MAX_PAYLOAD_BYTES + 1 <=? len data then data
  else
    match reads with
    | Ok (c :: chunk) :: rest => _read_fd_bounded (data ++ take (Z.to_nat (MAX_PAYLOAD_BYTES + 1 - len data)) (c :: chunk)) rest
    | _ => data
    end.

Definition parse_bootstrap (args : bootstrap_args) : result (Z * Z * pystr * posix_path) :=
  let? request_text := _exactly_one (ba_request_fd args) (u "--request-fd") in
  let? request_fd := _parse_fd request_text (u "--request-fd") in
  let? plan_text := _exactly_one (ba_plan_fd args) (u "--plan-fd") in
  let? plan_fd := _parse_fd plan_text (u "--plan-fd") in
  let? digest := _exactly_one (ba_expected_digest args) (u "--expected-digest") in
  let? wheel := _exactly_one (ba_wheel args) (u "--wheel") in
  Ok (request_fd, plan_fd, digest, parse_path wheel).

(** [dict(value)]: a list of pairs will do, each a list, the keys of an object or the
    characters of a string.  A key that is not a string is none of a request. *)
Definition dict_item (item : pyval) : result (pystr * pyval) :=
  match item with
  | VList [VStr k; v] => Ok (k, v)
  | VDict [(k, _); (v, _)] => Ok (k, VStr v)
  | VStr [k; v] => Ok ([k], VStr [v])
  | _ => Err (TypeError (u "not a pair"))
  end.
Definition dict_of (value : pyval) : result pydict :=
  match value with
  | VDict d => Ok d
  | VList l =>
      let? pairs := rmap dict_item l in
      Ok (foldl (fun d kv => dict_set kv.1 kv.2 d) [] pairs)
  | _ => Err (TypeError (u "not a mapping"))
  end.

(** [_load], [plan_from_bytes] and the digest: whatever they raise is a refusal. *)
Definition delegated_plan (request_raw plan_raw : pybytes) : result (pyval * pystr) :=
  let? request := _load rec_limit request_raw in
  let? d := dict_of request in
  let? plan := plan_from_bytes rec_limit plan_raw d in
  let? digest := compute_plan_digest plan in
  Ok (request, digest).

(** A list has no item under a name. *)
Definition delegated_request (request : pyval) (wheel : posix_path) : option (pydict * SetupRequest) :=
  match request with VDict d =>
  let text name := as_str (dict_get_none d name) in
  match enum_of_value (text (u "mode")), enum_of_value (text (u "bash")), enum_of_value (text (u "autostart")),
        enum_of_value (text (u "chooser")) with
  | Some mode, Some bash, Some autostart, Some chooser =>
      Some (d, mkSetup mode (as_bool (dict_get_none d (u "dry_run"))) bash autostart chooser (parse_path (text (u "source_root")))
              (Some wheel) None None None)
  | _, _, _, _ => None
  end
  | _ => None end.

(** The rest of the bootstrap, for a request and a plan that were accepted. *)
Definition delegated_setup (d : pydict) (request : SetupRequest) (digest : pystr) (source_probe : io (Z * pybytes)) (uid : Z) : io Z :=
  do! paths := elift (resolve_lifecycle_paths (request_env d) (parse_path (as_str (dict_get_none d (u "home"))))) in
  do! fresh := ecatch (do! p := _run_source_probe rec_limit source_probe request paths in eret (Some p))
                 (fun e => match e with LifecycleError _ => eret None | _ => eraise e end) in
  match fresh with
  | None => eret (exit_code REFUSED)
  | Some fresh =>
      if negb (str_eqb (pp_plan_digest fresh) digest) then eret (exit_code REFUSED)
      else
        do! result := execute_setup rec_limit depth source_probe fresh request paths uid NO_FAILURE in
        eret (exit_code result)
  end.

Definition installer_bootstrap (args : bootstrap_args) (reads : Z -> list (result pybytes)) (source_probe : io (Z * pybytes))
    (uid : Z) : io Z :=
  match parse_bootstrap args with
  | Err _ => eret (exit_code USAGE)
  | Ok (request_fd, plan_fd, digest, wheel) =>
      if negb (_is_sha256 digest) || negb (is_absolute wheel) then eret (exit_code USAGE)
      else
        match delegated_plan (_read_fd_bounded [] (reads request_fd)) (_read_fd_bounded [] (reads plan_fd)) with
        | Err _ => eret (exit_code REFUSED)
        | Ok (request, computed) =>
            if negb (str_eqb computed digest) then eret (exit_code REFUSED)
            else
              match delegated_request request wheel with
              | None => eret (exit_code USAGE)
              | Some (d, request) => delegated_setup d request digest source_probe uid
              end
        end
  end.
End Installer.
