(* ===== verification/InstallerProofs.v ===== *)
(** * The installer commands: what they promise

    The answers of an interactive uninstallation never conflict, and the questions
    end. *)
From S2P Require Import Prelude PyText PyVal PyFloat Json Codec Model Contract Effect Files FilesProofs FileViews LifecycleFs.
From S2P Require Import LifecycleFsProofs TreeProofs Integrations Probe Lifecycle LifecycleProofs Console Installer Samples.
#[local] Open Scope eff_scope.

(** ** The questions of an uninstallation *)
Notation lines_left s := (length (co_input s.2)).

Lemma answer_line_uses (s s' : world * console) t : answer_line s = (Ok (Some t), s') -> (lines_left s' < lines_left s)%nat.
Proof.
  destruct s as [w c]. unfold answer_line, ecatch, readline. destruct (co_input c) as [|[text|] rest] eqn:E; [done| |done].
  intros [= _ <-]. simpl. rewrite E. simpl. lia.
Qed.

Lemma print_uses text (s s' : world * console) r : print text s = (r, s') -> r = Ok tt /\ s'.1 = s.1 /\ co_input s'.2 = co_input s.2.
Proof. destruct s as [w c]. by intros [= <- <-]. Qed.

Lemma ask_uses question default (s s' : world * console) b : _ask_yes_no question default s = (Ok (Some b), s') ->
  (lines_left s' < lines_left s)%nat.
Proof.
  unfold _ask_yes_no, ebind at 1. destruct (print _ s) as [r s1] eqn:Hp. apply print_uses in Hp as (-> & _ & Hi).
  unfold ebind. destruct (answer_line s1) as [[[t|]|e] s2] eqn:Hl; [|done..]. intros [= _ <-].
  apply answer_line_uses in Hl. by rewrite Hi in Hl.
Qed.

(** Two continuations that agree where the first program ends. *)
Lemma bind_same {S A B} (m : eff S A) (k k' : A -> eff S B) s :
  (forall a s', m s = (Ok a, s') -> k a s' = k' a s') -> ebind m k s = ebind m k' s.
Proof. intros H. unfold ebind. destruct (m s) as [[a|e] s'] eqn:E; [by apply H|done]. Qed.
Lemma answered_same {A B} (m : term world (option A)) (k k' : A -> term world (option B)) s :
  (forall a s', m s = (Ok (Some a), s') -> k a s' = k' a s') -> answered m k s = answered m k' s.
Proof. intros H. apply bind_same. intros [a|] s' E; [by apply H|done]. Qed.

(** More fuel than lines changes nothing. *)
Lemma resolve_answers_fuel fuel more installed a s : (lines_left s < fuel)%nat ->
  resolve_answers (fuel + more) installed a s = resolve_answers fuel installed a s.
Proof.
  revert a s. induction fuel as [|fuel IH]; intros a s Hf; [lia|]. cbn [resolve_answers Nat.add].
  destruct (an_app a && negb (an_bash a && an_autostart a)); [|done].
  apply bind_same. intros [] s1 (_ & _ & Hi)%print_uses.
  apply answered_same. intros bash s2 Hb%ask_uses. apply answered_same. intros auto s3 Ha%ask_uses. cbv zeta. rewrite Hi in Hb.
  destruct (negb bash || negb auto); [|apply IH; lia]. apply answered_same. intros keep s4 Hk%ask_uses. apply IH. lia.
Qed.

(** Answers that do not conflict. *)
Definition consistent (a : answers) : Prop := an_app a = true -> an_bash a = true /\ an_autostart a = true.

Lemma resolve_answers_consistent fuel installed a s b s' : resolve_answers fuel installed a s = (Ok (Some b), s') -> consistent b.
Proof.
  revert a s. induction fuel as [|fuel IH]; intros a s; cbn [resolve_answers]; destruct (an_app a && _) eqn:E.
  - done.
  - intros [= <- _] Ha. rewrite Ha in E. simpl in E. by apply negb_false_iff, andb_true_iff in E.
  - unfold ebind at 1, println. destruct (print _ s) as [r s1] eqn:Hp. apply print_uses in Hp as (-> & _ & _).
    unfold answered at 1, ebind at 1. destruct (_ask_yes_no _ _ s1) as [[[bash|]|e] s2]; [|done..].
    unfold answered at 1, ebind at 1. destruct (_ask_yes_no _ _ s2) as [[[auto|]|e] s3]; [|done..]. cbv zeta.
    destruct (negb bash || negb auto); [|apply IH]. unfold answered, ebind.
    destruct (_ask_yes_no _ _ s3) as [[[keep|]|e] s4]; [|done..]. apply IH.
  - intros [= <- _] Ha. rewrite Ha in E. simpl in E. by apply negb_false_iff, andb_true_iff in E.
Qed.

(** What was read is a beginning of what could be read. *)
Definition reads (before after : world * console) (taken : list input) : Prop := co_input before.2 = taken ++ co_input after.2.

Lemma answer_line_reads (s s' : world * console) t : answer_line s = (Ok (Some t), s') ->
  exists text, reads s s' [Line text] /\ t = rstrip_lines text.
Proof.
  destruct s as [w c]. unfold answer_line, ecatch, readline. destruct (co_input c) as [|[text|] rest] eqn:E; [done| |done].
  intros [= <- <-]. exists text. split; [exact E|done].
Qed.

Lemma ask_reads question default (s s' : world * console) b : _ask_yes_no question default s = (Ok (Some b), s') ->
  exists taken, reads s s' taken.
Proof.
  unfold _ask_yes_no, ebind at 1. destruct (print _ s) as [r s1] eqn:Hp. apply print_uses in Hp as (-> & _ & Hi).
  unfold ebind. destruct (answer_line s1) as [[[t|]|e] s2] eqn:Hl; [|done..]. intros [= _ <-].
  apply answer_line_reads in Hl as (text & Hr & _). exists [Line text]. unfold reads in *. by rewrite -Hi.
Qed.

Lemma answered_inv {A B} (m : term world (option A)) (k : A -> term world (option B)) s b s' :
  answered m k s = (Ok (Some b), s') -> exists a s1, m s = (Ok (Some a), s1) /\ k a s1 = (Ok (Some b), s').
Proof. unfold answered, ebind. destruct (m s) as [[[a|]|e] s1]; [|done..]. intros H. by exists a, s1. Qed.

(** A purge is confirmed by a line that says [yes]. *)
Lemma confirm_purge_typed purge (s s' : world * console) : confirm_purge purge s = (Ok (Some true), s') ->
  exists text, Line text ∈ co_input s.2 /\ rstrip_lines text = u "yes".
Proof.
  unfold confirm_purge. destruct purge; [|done]. unfold ebind at 1. destruct (print _ s) as [r s1] eqn:Hp.
  apply print_uses in Hp as (-> & _ & Hi). intros (t & s2 & Hl & H)%answered_inv.
  apply answer_line_reads in Hl as (text & Hr & ->). exists text. unfold reads in Hr. rewrite -Hi Hr. split; [by left|].
  destruct (str_eqb (rstrip_lines text) (u "yes")) eqn:E; [by apply str_eqb_eq|]. unfold ebind, println in H.
  by destruct (print _ s2) as [[|] ?].
Qed.

Lemma resolve_answers_purge fuel installed a s b s' : resolve_answers fuel installed a s = (Ok (Some b), s') -> an_purge b = an_purge a.
Proof.
  revert a s. induction fuel as [|fuel IH]; intros a s; cbn [resolve_answers]; destruct (an_app a && _) eqn:E.
  - done.
  - by intros [= <- _].
  - unfold ebind at 1, println. destruct (print _ s) as [r s1] eqn:Hp. apply print_uses in Hp as (-> & _ & _).
    intros (bash & s2 & _ & H)%answered_inv. apply answered_inv in H as (auto & s3 & _ & H). cbv zeta in H.
    destruct (negb bash || negb auto); [|by apply IH in H]. apply answered_inv in H as (keep & s4 & _ & H). by apply IH in H.
  - by intros [= <- _].
Qed.

(** The questions of an interactive uninstallation: the answers that are collected
    never ask to remove the application and to keep an integration, and they ask to
    purge the recovery state only if a line [yes] was typed. *)
Theorem collected_answers_safe paths s a s' : _collect_uninstall_answers paths s = (Ok (Some a), s') ->
  partial_removal (_build_uninstall_request a) = false /\
  (purge_state (_build_uninstall_request a) = true -> exists text, Line text ∈ co_input s.2 /\ rstrip_lines text = u "yes").
Proof.
  unfold _collect_uninstall_answers, ebind at 1. destruct (sys _ s) as [[installed|e] s0] eqn:H0; [|done].
  assert (Hi : co_input s0.2 = co_input s.2).
  { destruct s as [w c]. unfold sys in H0. destruct (exists_path (autostart paths) w) as [r w']. by injection H0 as _ <-. }
  intros (app & s1 & H1 & H)%answered_inv. apply answered_inv in H as (bash & s2 & H2 & H).
  apply answered_inv in H as (auto & s3 & H3 & H). apply answered_inv in H as (chooser & s4 & H4 & H).
  apply answered_inv in H as (purge & s5 & H5 & H). apply answered_inv in H as (confirmed & s6 & H6 & H).
  split.
  - apply resolve_answers_consistent in H. unfold partial_removal. cbn. destruct (an_app a) eqn:Ha; [|done].
    destruct (H Ha) as [-> ->]. done.
  - cbn. intros Hp. apply resolve_answers_purge in H. cbn in H. rewrite Hp in H. subst confirmed.
    apply confirm_purge_typed in H6 as (text & Hin & Hyes). exists text. split; [|done].
    apply ask_reads in H1 as [t1 R1], H2 as [t2 R2], H3 as [t3 R3], H4 as [t4 R4], H5 as [t5 R5]. unfold reads in *.
    rewrite -Hi R1 R2 R3 R4 R5 !elem_of_app. tauto.
Qed.

(** The user asks for everything, refuses the integrations, then gives in. *)
Definition replies : list pystr := map u ["y"; "n"; "n"; ""; "y"; "yes"; ""; "Yes"].
Definition asked : world * console := (home_world [] [], mkConsole true (map (fun t => Line (t ++ [10])) replies) []).
Lemma collected_answers_safe_witness :
  exists a s', _collect_uninstall_answers home_paths asked = (Ok (Some a), s') /\ an_app a = true /\ an_purge a = true /\
    partial_removal (_build_uninstall_request a) = false /\
    (purge_state (_build_uninstall_request a) = true -> exists text, Line text ∈ co_input asked.2 /\ rstrip_lines text = u "yes").
Proof.
  exists (mkAnswers true true true false true), (asked.1, mkConsole true [] (co_output (_collect_uninstall_answers home_paths asked).2.2)).
  assert (H : _collect_uninstall_answers home_paths asked = (Ok (Some (mkAnswers true true true false true)),
    (asked.1, mkConsole true [] (co_output (_collect_uninstall_answers home_paths asked).2.2)))) by (vm_compute; reflexivity).
  split; [exact H|]. split; [reflexivity|]. split; [reflexivity|]. exact (collected_answers_safe _ _ _ _ H).
Defined.
