(* ===== verification/Planner.v ===== *)
(** * Making the probe plan ([installer_probe.py])

    The read-only planner: the facts that go into a plan, and the plan.  The arguments
    are what [argparse] made of the command line, the values of each option; the
    interpreter, its version and modules, and [shutil.which] are parameters.  An
    [IndexError] is a [KeyError] here; both are [LookupError]s. *)
From S2P Require Import Prelude PyText PyVal PyFloat Json Codec Model Contract Effect Files LifecycleFs Base64 Probe.
#[local] Open Scope eff_scope.

(** ** [path.resolve()]

    The names on the way, each with its inode until one is missing; more links than
    [links] count as a loop. *)
Fixpoint real (links : nat) (f : fs) : list pystr -> list (pystr * option Z) -> result (list pystr) :=
  fix go (words : list pystr) (stack : list (pystr * option Z)) {struct words} : result (list pystr) :=
    match words with
    | [] => Ok (rev (map fst stack))
    | w :: rest =>
        if str_eqb w (u ".") then go rest stack
        else if str_eqb w (u "..") then go rest (tail stack)
        else
          let here := match stack with [] => Some (f_root f) | (_, x) :: _ => x end in
          match here ≫= fun d => entries_of f d ≫= (.!! w) with
          | None => go rest ((w, None) :: stack)
          | Some x =>
              match i_node <$> f_nodes f !! x with
              | Some (Lnk target) =>
                  match links with
                  | O => Err (RuntimeError (u "Symlink loop"))
                  | S links' => real links' f (path_words target ++ rest) (if is_prefix [47] target then [] else stack)
                  end
              | _ => go rest ((w, Some x) :: stack)
              end
          end
    end.
(** What cannot be looked up stays as it is. *)
Definition resolve_path (p : posix_path) : io posix_path :=
  ecatch syscall (on_os_error (eret tt)) ;;
  do! f := eget w_fs in
  do! tail := elift (real 40 f (path_tail p) []) in
  eret (mkPath [47] tail).

(** [path.is_symlink()] *)
Definition is_link (p : posix_path) : io bool := or_nowhere (do! st := os_lstat p in eret (S_ISLNK st)).

(** ** The request *)
Definition namespace : Type := pystr -> list pystr.
Definition _one (ns : namespace) (name : pystr) : result pystr :=
  match ns name with [value] => Ok value | _ => Err (ValueError (name ++ u " must occur exactly once")) end.

Definition _parse_request (ns : namespace) : result pydict :=
  let? source_root := _one ns (u "source_root") in
  let? home := _one ns (u "home") in
  let? data := _one ns (u "xdg_data_home") in
  let? config := _one ns (u "xdg_config_home") in
  let? state := _one ns (u "xdg_state_home") in
  let? mode := _one ns (u "mode") in
  let? bash := _one ns (u "bash") in
  let? autostart := _one ns (u "autostart") in
  let? chooser := _one ns (u "chooser") in
  let? dry_run := _one ns (u "dry_run") in
  _validate_request (VDict
    [(u "request_schema", VInt REQUEST_SCHEMA); (u "source_root", VStr source_root); (u "home", VStr home);
     (u "xdg_data_home", VStr data); (u "xdg_config_home", VStr config); (u "xdg_state_home", VStr state);
     (u "mode", VStr mode); (u "bash", VStr bash); (u "autostart", VStr autostart); (u "chooser", VStr chooser);
     (u "dry_run", VBool (str_eqb dry_run (u "yes")))]).

(** ** Facts *)
Definition MAX_SOURCE_BYTES : Z := 1048576.
Definition refused_value (why : pystr) : exn := ValueError why.

Definition _read_bounded (path : posix_path) (maximum : Z) : io pybytes :=
  do! st := os_lstat path in
  eguard (negb (S_ISREG st) || (maximum <? st_size st)) (refused_value (u "unsafe or oversized source file")) ;;
  do! raw := read_bytes path in
  eguard (negb (len raw =? st_size st)) (refused_value (u "source file changed while reading")) ;;
  eret raw.

Definition required_files : list pystr :=
  map u ["pyproject.toml"; "setup.py"; "MANIFEST.in"; "installer_probe.py"; "native/termrecall-nonblock.c";
         "src/termrecall/installer_probe.py"; "src/termrecall/installer_contract.py"].

(** [metadata.st_mode & 0o022] *)
Definition writable_by_others (st : stat) : bool := negb (Z.land (st_mode st) 0x12 =? 0).

Section Planner.
Context (rec_limit : nat) (uid : Z) (env : pystr -> option pystr).
(** The source root that the running probe belongs to, the interpreter, its version,
    whether it has [venv], and where a command is found. *)
Context (running_root executable : posix_path) (version : list Z) (has_venv : bool) (which : pystr -> pystr -> option posix_path).

Definition source_file (root : posix_path) (name : pystr) : io (pystr * pyval) :=
  let path := path_join root name in
  do! st := os_lstat path in
  do! link := is_link path in
  eguard (link || negb (st_uid st =? uid) || writable_by_others st) (refused_value (u "unsafe source manifest object")) ;;
  do! raw := _read_bounded path MAX_SOURCE_BYTES in
  eret (name, VStr (Sha256.hexdigest raw)).

(** [a or b or ...], each of them asked only if the ones before say no. *)
Fixpoint any_of (tests : list (io bool)) : io bool :=
  match tests with
  | [] => eret false
  | t :: rest => do! b := t in if b then eret true else any_of rest
  end.
Definition resolves_elsewhere (p : posix_path) : io bool := do! q := resolve_path p in eret (negb (bool_decide (q = p))).

Definition _safe_source (request : pydict) : io pydict :=
  let root := request_path request (u "source_root") in
  let script := path_join root (u "installer_probe.py") in
  do! root_stat := os_lstat root in
  do! script_stat := os_lstat script in
  do! resolved := resolve_path root in
  eguard (negb (bool_decide (running_root = resolved))) (refused_value (u "running probe does not belong to source root")) ;;
  eguard (negb (S_ISDIR root_stat) || negb (S_ISREG script_stat)) (refused_value (u "unsafe source root or probe")) ;;
  do! linked := any_of [is_link root; is_link script; resolves_elsewhere root; resolves_elsewhere script] in
  eguard linked (refused_value (u "source root and probe must not be symlinks")) ;;
  eguard (negb (st_uid root_stat =? uid) || negb (st_uid script_stat =? uid)) (refused_value (u "source objects have a foreign owner")) ;;
  eguard (writable_by_others root_stat || writable_by_others script_stat) (refused_value (u "source objects are group/other writable")) ;;
  do! manifest := emap (source_file root) required_files in
  eret [(u "root", VStr (path_str root)); (u "device", VInt (st_dev root_stat)); (u "inode", VInt (st_ino root_stat));
        (u "probe_device", VInt (st_dev script_stat)); (u "probe_inode", VInt (st_ino script_stat)); (u "manifest", VDict manifest)].

(** What a destination is now: nothing, a link, or (with its digest) a file. *)
Definition seen_at (path : posix_path) : io (option stat) :=
  ecatch (do! st := os_lstat path in eret (Some st)) (on_missing (eret None)).
Definition _fact (path : posix_path) : io pydict :=
  do! found := seen_at path in
  match found with
  | None => eret [(u "path", VStr (path_str path)); (u "kind", VStr (u "absent"))]
  | Some st =>
      if S_ISLNK st then
        do! target := os_readlink path in
        eret [(u "path", VStr (path_str path)); (u "kind", VStr (u "symlink")); (u "mode", VInt (st_mode st)); (u "target", VStr target)]
      else
        let fact := [(u "path", VStr (path_str path)); (u "kind", VStr (if S_ISREG st then u "file" else u "directory"));
                     (u "mode", VInt (st_mode st)); (u "uid", VInt (st_uid st)); (u "size", VInt (st_size st))] in
        if S_ISREG st then
          eguard (MAX_SOURCE_BYTES <? st_size st) (refused_value (u "destination object exceeds read bound")) ;;
          do! raw := read_bytes path in
          eret (fact ++ [(u "sha256", VStr (Sha256.hexdigest raw))])
        else eret fact
  end.

(** The nearest ancestor that exists. *)
Fixpoint existing (fuel : nat) (path : posix_path) : io posix_path :=
  match fuel with
  | O => eret path
  | S fuel' =>
      do! there := exists_path path in
      if there || bool_decide (path = path_parent path) then eret path else existing fuel' (path_parent path)
  end.

Definition check_ancestor (path : posix_path) : io unit :=
  do! st := os_lstat path in
  do! link := is_link path in
  eguard (link || negb (S_ISDIR st)) (refused_value (u "unsafe destination ancestor type")) ;;
  eguard (negb (st_uid st =? uid) && negb (st_uid st =? 0)) (refused_value (u "destination ancestor has foreign owner")) ;;
  eguard (negb (Z.land (st_mode st) 2 =? 0) && (Z.land (st_mode st) 0x200 =? 0)) (refused_value (u "destination ancestor is world writable")).

(** Upwards until one was checked before; the ones checked. *)
Fixpoint check_ancestors (fuel : nat) (path : posix_path) (checked : list posix_path) : io (list posix_path) :=
  match fuel with
  | O => eret checked
  | S fuel' =>
      if bool_decide (path ∈ checked) then eret checked
      else
        check_ancestor path ;;
        if bool_decide (path = path_parent path) then eret (path :: checked)
        else check_ancestors fuel' (path_parent path) (path :: checked)
  end.

Fixpoint ancestors_checked (paths checked : list posix_path) : io unit :=
  match paths with
  | [] => eret tt
  | p :: rest =>
      let fuel := S (length (path_tail p)) in
      do! start := existing fuel p in
      do! checked := check_ancestors fuel start checked in
      ancestors_checked rest checked
  end.
Definition _safe_ancestors (paths : list posix_path) : io unit := ancestors_checked paths [].

Definition _prerequisites : io pydict :=
  do! python := resolve_path executable in
  eguard (version_old version) (RuntimeError (u "Python 3.12 or newer is required")) ;;
  eguard (negb has_venv) (RuntimeError (u "Python venv is required")) ;;
  let path := default (u "/bin:/usr/bin") (env (u "PATH")) in
  do! compiler := elift (result_of_option (head (fields (default (u "cc") (env (u "CC"))))) KeyError) in
  match which compiler path, which (u "bash") path with
  | Some cc, Some bash =>
      do! cc := resolve_path cc in
      do! bash := resolve_path bash in
      eret [(u "uid", VInt uid); (u "python", VStr (path_str python)); (u "python_version", VList (map VInt version)); (u "venv", VBool true);
            (u "cc", VStr (path_str cc)); (u "bash", VStr (path_str bash))]
  | _, _ => eraise (RuntimeError (u "C compiler and Bash are required"))
  end.

(** The before-image of a destination, as it stands in a plan. *)
Definition _before (path : posix_path) : io pyval :=
  do! fact := _fact path in
  let get k := dict_get_none fact k in
  let image kind mode target content digest :=
    VDict [(u "path", VStr (path_str path)); (u "kind", VStr kind); (u "mode", mode); (u "literal_target", target);
           (u "content", content); (u "content_sha256", digest)] in
  if py_eqb (get (u "kind")) (VStr (u "absent")) then eret (image (u "absent") VNone VNone VNone VNone)
  else if py_eqb (get (u "kind")) (VStr (u "symlink")) then eret (image (u "symlink") (get (u "mode")) (get (u "target")) VNone VNone)
  else if negb (py_eqb (get (u "kind")) (VStr (u "file"))) then eraise (refused_value (u "destination object is not a file or symlink"))
  else
    do! raw := _read_bounded path MAX_SOURCE_BYTES in
    eret (image (u "file") (get (u "mode")) VNone (VStr (b64encode raw)) (VStr (Sha256.hexdigest raw))).

(** ** The plan *)
Definition wanted (request : pydict) (name : pystr) (path : posix_path) : io (pystr * pyval) :=
  let asked := dict_get_none request name in
  if py_eqb asked (VStr (u "enable")) then eret (name, VBool true)
  else if py_eqb asked (VStr (u "disable")) then eret (name, VBool false)
  else do! there := exists_path path in eret (name, VBool there).
Definition _effective (request : pydict) (paths : list (pystr * posix_path)) : io pydict :=
  emap (fun '(name, path) => wanted request name path) paths.

Definition or_none (s : option pystr) : pyval := match s with Some t => VStr t | None => VNone end.
Definition _action (sequence : Z) (kind disposition target : pystr) (mode : option Z) (literal_target prerequisite : option pystr)
    (rollback : pyval) : pyval :=
  VDict [(u "sequence", VInt sequence); (u "kind", VStr kind); (u "disposition", VStr disposition); (u "path_or_token", VStr target);
         (u "mode", match mode with Some m => VInt m | None => VNone end); (u "literal_target", or_none literal_target);
         (u "content_sha256", VNone); (u "prerequisite", or_none prerequisite); (u "rollback", rollback)].

(** A link that is made or replaced. *)
Definition link_action (sequence : Z) (kind : pystr) (link : posix_path) (target prerequisite : pystr) : io pyval :=
  do! there := exists_path link in
  do! before := _before link in
  eret (_action sequence kind (if there then u "replace" else u "create") (path_str link) None (Some target) (Some prerequisite) before).

(** What is to happen to the shell hook and the autostart entry; the chooser's setting
    is replaced unless it is preserved. *)
Definition disposition_of (asked : pyval) : pystr :=
  if py_eqb asked (VStr (u "preserve")) then u "preserve" else if py_eqb asked (VStr (u "enable")) then u "create" else u "remove".
Definition chooser_disposition (asked : pyval) : pystr := if py_eqb asked (VStr (u "preserve")) then u "preserve" else u "replace".

Record destinations := mkDestinations {
  ds_config : posix_path;
  ds_manifest : posix_path;
  ds_current : posix_path;
  ds_bin : posix_path;
  ds_bashrc : posix_path;
  ds_bash : posix_path;
  ds_autostart : posix_path;
  ds_chooser : posix_path;
  ds_state : posix_path;
}.
Definition command_names : list pystr := map u ["termrecall"; "termrecall-bridge"; "termrecall-nonblock"].
Definition destinations_of (request : pydict) : destinations :=
  let config_home := request_path request (u "xdg_config_home") in
  let config := path_join config_home (u "termrecall") in
  let home := request_path request (u "home") in
  mkDestinations config (path_join config (u "install-manifest.json"))
    (path_join (path_join (request_path request (u "xdg_data_home")) (u "termrecall")) (u "current"))
    (path_join home (u ".local/bin")) (path_join home (u ".bashrc")) (path_join config (u "bash-integration.bash"))
    (path_join config_home (u "autostart/termrecall.desktop")) (path_join config (u "config.json"))
    (path_join (request_path request (u "xdg_state_home")) (u "termrecall")).
Definition semantic_paths (d : destinations) : list posix_path :=
  [ds_manifest d; ds_current d] ++ map (path_join (ds_bin d)) command_names ++
  [ds_bashrc d; ds_bash d; ds_autostart d; ds_chooser d; ds_state d].

Fixpoint command_actions (d : destinations) (sequence : Z) (names : list pystr) : io (list pyval) :=
  match names with
  | [] => eret []
  | name :: rest =>
      do! action := link_action sequence (u "command-link") (path_join (ds_bin d) name)
                      (path_str (path_join (ds_current d) (u "venv/bin/" ++ name))) (u "activation-link") in
      do! more := command_actions d (sequence + 1) rest in
      eret (action :: more)
  end.

Definition plan_actions (request : pydict) (d : destinations) : io (list pyval) :=
  let get k := dict_get_none request k in
  let plain n kind disposition target mode prerequisite := _action n kind disposition target mode None prerequisite VNone in
  do! activation := link_action 6 (u "activation-link") (ds_current d) (u "$GENERATION_STAGE") (u "generation-self-check") in
  do! commands := command_actions d 7 command_names in
  eret ([plain 1 (u "source-build") (u "create") (u "$BUILD_ROOT") (Some 0x1C0) (Some (u "source"));
         plain 2 (u "wheel-build") (u "create") (u "$BUILD_ROOT") None (Some (u "python"));
         plain 3 (u "delegate-staging") (u "create") (u "$BUILD_ROOT") (Some 0x1C0) None;
         plain 4 (u "generation-staging") (u "create") (u "$GENERATION_STAGE") (Some 0x1C0) None;
         plain 5 (u "generation-self-check") (u "preserve") (u "$GENERATION_STAGE") None None;
         activation] ++ commands ++
        [plain 10 (u "bash") (disposition_of (get (u "bash"))) (path_str (ds_bash d)) (Some 0x180) None;
         plain 11 (u "autostart") (disposition_of (get (u "autostart"))) (path_str (ds_autostart d)) (Some 0x180) None;
         plain 12 (u "chooser") (chooser_disposition (get (u "chooser"))) (path_str (ds_chooser d)) (Some 0x180) None;
         plain 13 (u "manifest") (u "replace") (path_str (ds_manifest d)) (Some 0x180) None;
         plain 14 (u "rollback") (u "preserve") (path_str (path_join (ds_config d) (u "rollback"))) None None;
         plain 15 (u "cleanup") (u "remove") (u "$BUILD_ROOT") None None]).

(** The manifest of the installation that is there, if any. *)
Definition prior_of (manifest : posix_path) : io pydict :=
  do! there := exists_path manifest in
  if negb there then
    eret [(u "present", VBool false); (u "schema_version", VNone); (u "manifest_sha256", VNone); (u "manifest", VNone)]
  else
    do! raw := _read_bounded manifest MAX_PAYLOAD_BYTES in
    do! value := elift (_load rec_limit raw) in
    eguard (negb (match value with VDict m => py_eqb (dict_get_none m (u "schema_version")) (VInt 2) | _ => false end))
      (refused_value (u "unsupported prior manifest")) ;;
    eret [(u "present", VBool true); (u "schema_version", VInt 2); (u "manifest_sha256", VStr (Sha256.hexdigest raw)); (u "manifest", value)].

Definition lock_facts (config lock : posix_path) (config_absent lock_absent : bool) : pyval :=
  VDict [(u "directory_path", VStr (path_str config)); (u "lock_path", VStr (path_str lock)); (u "directory_absent", VBool config_absent);
         (u "lock_absent", VBool lock_absent); (u "may_create_directory", VBool config_absent); (u "may_create_lock", VBool lock_absent);
         (u "directory_mode", VInt 0x1C0); (u "lock_mode", VInt 0x180)].

(** The plan with its rendering and its digest, once it was read back. *)
Definition finish_plan (request : pydict) (facts : pydict) : result pydict :=
  let plan rendered digest := facts ++ [(u "rendered", VStr rendered); (u "plan_digest", VStr digest)] in
  let? rendered := render_plan (plan [] []) in
  let? digest := compute_plan_digest (plan rendered []) in
  let? raw := plan_to_bytes (plan rendered digest) in
  plan_from_bytes rec_limit raw request ;?
  Ok (plan rendered digest).

Definition privileged : bool :=
  let given k := match env k with Some (_ :: _) => true | _ => false end in (uid =? 0) || given (u "SUDO_USER") || given (u "SUDO_UID").

Definition build_plan (ns : namespace) : io pydict :=
  do! request := elift (_parse_request ns) in
  eguard privileged (OSError EACCES) ;;
  do! source := _safe_source request in
  do! prerequisites := _prerequisites in
  let d := destinations_of request in
  let path k := request_path request k in
  _safe_ancestors [path (u "home"); path (u "xdg_data_home"); path (u "xdg_config_home"); path (u "xdg_state_home"); ds_bin d] ;;
  do! facts := emap _fact (semantic_paths d) in
  do! fingerprint := elift (_sha256 (VList (map VDict facts))) in
  do! config_there := exists_path (ds_config d) in
  let lock := path_join (ds_config d) (u "lifecycle.lock") in
  do! lock_there := exists_path lock in
  do! actions := plan_actions request d in
  do! prior := prior_of (ds_manifest d) in
  do! effective := _effective request [(u "bash", ds_bash d); (u "autostart", ds_autostart d); (u "chooser", ds_chooser d)] in
  elift (finish_plan request
    [(u "probe_schema", VInt PROBE_SCHEMA); (u "plan_schema", VInt PLAN_SCHEMA); (u "request", VDict request);
     (u "prerequisites", VDict prerequisites); (u "source", VDict source); (u "prior", VDict prior); (u "effective", VDict effective);
     (u "actions", VList actions); (u "lock_infrastructure", lock_facts (ds_config d) lock (negb config_there) (negb lock_there));
     (u "state_fingerprint", VStr fingerprint)]).

(** ** The commands [plan] and [validate-plan]: the exit code and what is printed *)
Definition exit_of {A} (m : io (Z * option A)) : io (Z * option A) :=
  ecatch m (fun e => if is_value_error e || match e with TypeError _ => true | _ => false end then eret (2, None)
                     else if is_os_error e then eret (4, None) else eraise e).

Definition plan_command (ns : namespace) : io (Z * option pybytes) :=
  exit_of (do! plan := build_plan ns in do! raw := elift (plan_to_bytes plan) in eret (0, Some raw)).

(** [raw] is the standard input, up to a byte more than a payload may have. *)
Definition validate_command (ns : namespace) (raw : pybytes) : io (Z * option (pybytes + pystr)) :=
  exit_of
    (elift (let? request := _parse_request ns in
            let? plan := plan_from_bytes rec_limit (take (Z.to_nat (MAX_PAYLOAD_BYTES + 1)) raw) request in
            let? emit := _one ns (u "emit") in
            if str_eqb emit (u "json") then let? text := plan_to_bytes plan in Ok (0, Some (inl text))
            else Ok (0, Some (inr (py_format (dict_get_none plan (u "rendered"))))))).
End Planner.
