(* ===== verification/PlannerProofs.v ===== *)
(** * The planner reads only, and its plans are accepted

    In calm worlds, whatever fails: making a plan leaves the file system as it is, and
    the bytes of a plan that was made are read back by the code that carries it out. *)
From S2P Require Import Prelude PyText PyVal PyFloat Json Codec Model Contract Effect Files FilesProofs LifecycleFs Base64 Probe Samples Planner.
#[local] Open Scope eff_scope.

Section Reads.
Context (rec_limit : nat) (uid : Z) (env : pystr -> option pystr).
Context (running_root executable : posix_path) (version : list Z) (has_venv : bool) (which : pystr -> pystr -> option posix_path).
Context (P : fs -> Prop).
Notation reads m := (keeps (holds P) m).

Lemma reads_lstat p : reads (os_lstat p). Proof. apply keeps_query. Qed.
Lemma reads_readlink p : reads (os_readlink p). Proof. apply keeps_query. Qed.
Lemma reads_bytes p : reads (read_bytes p). Proof. apply keeps_query. Qed.
#[local] Hint Resolve reads_lstat reads_readlink reads_bytes : keeps.

Lemma reads_resolve p : reads (resolve_path p).
Proof. unfold resolve_path. keeps_all. Qed.
Lemma reads_is_link p : reads (is_link p).
Proof. unfold is_link. keeps_all. Qed.
Lemma reads_bounded p n : reads (_read_bounded p n).
Proof. unfold _read_bounded. keeps_all. Qed.
#[local] Hint Resolve reads_resolve reads_is_link reads_bounded : keeps.

Lemma reads_any tests : Forall (fun t => reads t) tests -> reads (any_of tests).
Proof. induction 1 as [|t rest Ht _ IH]; [apply keeps_ret|]. cbn [any_of]. keeps_all. Qed.
Lemma reads_elsewhere p : reads (resolves_elsewhere p).
Proof. unfold resolves_elsewhere. keeps_all. Qed.
#[local] Hint Resolve reads_elsewhere : keeps.

Lemma reads_source_file root name : reads (source_file uid root name).
Proof. unfold source_file. cbv zeta. keeps_all. Qed.
#[local] Hint Resolve reads_source_file : keeps.
Lemma reads_source request : reads (_safe_source uid running_root request).
Proof.
  unfold _safe_source. cbv zeta. repeat (apply keeps_bind; [solve [auto with keeps nocore|apply reads_any; repeat constructor; auto with keeps nocore]|intros ?]).
  apply keeps_ret.
Qed.

Lemma reads_fact p : reads (_fact p).
Proof. unfold _fact, seen_at. cbv zeta. keeps_all. Qed.
#[local] Hint Resolve reads_source reads_fact : keeps.
Lemma reads_before p : reads (_before p).
Proof. unfold _before. cbv zeta. keeps_all. Qed.
#[local] Hint Resolve reads_before : keeps.

Lemma reads_existing fuel p : reads (existing fuel p).
Proof. revert p. induction fuel as [|fuel IH]; intros p; [apply keeps_ret|]. cbn [existing]. keeps_all. Qed.
Lemma reads_check_ancestor p : reads (check_ancestor uid p).
Proof. unfold check_ancestor. keeps_all. Qed.
#[local] Hint Resolve reads_existing reads_check_ancestor : keeps.
Lemma reads_check_ancestors fuel p checked : reads (check_ancestors uid fuel p checked).
Proof. revert p checked. induction fuel as [|fuel IH]; intros p checked; [apply keeps_ret|]. cbn [check_ancestors]. keeps_all. Qed.
#[local] Hint Resolve reads_check_ancestors : keeps.
Lemma reads_ancestors paths checked : reads (ancestors_checked uid paths checked).
Proof. revert checked. induction paths as [|p rest IH]; intros checked; [apply keeps_ret|]. cbn [ancestors_checked]. cbv zeta. keeps_all. Qed.

Lemma reads_prerequisites : reads (_prerequisites uid env executable version has_venv which).
Proof. unfold _prerequisites. cbv zeta. keeps_all. Qed.
Lemma reads_link_action n kind link target prerequisite : reads (link_action n kind link target prerequisite).
Proof. unfold link_action. keeps_all. Qed.
#[local] Hint Resolve reads_ancestors reads_prerequisites reads_link_action : keeps.
Lemma reads_command_actions d names n : reads (command_actions d n names).
Proof. revert n. induction names as [|name rest IH]; intros n; [apply keeps_ret|]. cbn [command_actions]. keeps_all. Qed.
#[local] Hint Resolve reads_command_actions : keeps.
Lemma reads_actions request d : reads (plan_actions request d).
Proof. unfold plan_actions. cbv zeta. keeps_all. Qed.
Lemma reads_prior p : reads (prior_of rec_limit p).
Proof. unfold prior_of. keeps_all. Qed.
Lemma reads_wanted request name p : reads (wanted request name p).
Proof. unfold wanted. cbv zeta. keeps_all. Qed.
#[local] Hint Resolve reads_actions reads_prior reads_wanted : keeps.

Lemma reads_plan ns : reads (build_plan rec_limit uid env running_root executable version has_venv which ns).
Proof.
  unfold build_plan, _safe_ancestors, _effective. cbv zeta. keeps_all.
Qed.
End Reads.

(** What a reader of the plan relies on. *)
Lemma finish_plan_accepted rec_limit request facts plan : finish_plan rec_limit request facts = Ok plan ->
  exists raw read, plan_to_bytes plan = Ok raw /\ plan_from_bytes rec_limit raw request = Ok read /\
    exists rendered digest, plan = facts ++ [(u "rendered", VStr rendered); (u "plan_digest", VStr digest)].
Proof.
  unfold finish_plan. cbv zeta. intros (rendered & _ & H)%rbind_Ok. apply rbind_Ok in H as (digest & _ & H).
  apply rbind_Ok in H as (raw & Hraw & H). apply rbind_Ok in H as (read & Hread & [= <-]).
  exists raw, read. split; [done|]. split; [done|]. by exists rendered, digest.
Qed.

(** C20. The planner reads only: whatever it finds and whatever fails, the file system stays
    as it is.  A plan is made for an unprivileged user alone, and its bytes are read
    back, with the request that it was made from, by the code that carries it out. *)
Theorem planner_reads_and_is_read rec_limit uid env running_root executable version has_venv which ns P w : holds P w ->
  let '(r, w') := build_plan rec_limit uid env running_root executable version has_venv which ns w in
  holds P w' /\
  forall plan, r = Ok plan -> privileged uid env = false /\
    exists request raw read, _parse_request ns = Ok request /\ plan_to_bytes plan = Ok raw /\ plan_from_bytes rec_limit raw request = Ok read.
Proof.
  intros Hw. pose proof (reads_plan rec_limit uid env running_root executable version has_venv which P ns w Hw) as H.
  destruct (build_plan _ _ _ _ _ _ _ _ ns w) as [r w'] eqn:E. split; [by destruct r|]. intros plan ->. unfold build_plan in E.
  apply ebind_Ok in E as (request & w1 & Hreq & E). apply elift_Ok in Hreq as [Hreq ->].
  apply ebind_Ok in E as (v & w2 & Hpriv & E). apply eguard_Ok in Hpriv as [Hpriv _]. split; [done|].
  repeat (apply ebind_Ok in E as (? & ? & _ & E); cbv zeta in E).
  apply elift_Ok in E as [E _]. apply finish_plan_accepted in E as (raw & read & Hraw & Hread & _). by exists request, raw, read.
Qed.

(** A source tree, and the options of an installation from it. *)
Definition source_tree : io unit :=
  eforeach (fun d => os_mkdir (parse_path (u d)) 0x1C0) ["/home/a/src"; "/home/a/src/native"; "/home/a/src/src"; "/home/a/src/src/termrecall"]%string ;;
  eforeach (fun n => write_bytes (path_join (parse_path (u "/home/a/src")) n) (u "text")) required_files.
Definition source_world : world := mkWorld (w_fs (source_tree (home_world [] [])).2) 1000 0x12 [Serves; Transfers 0; Fails EIO] [].
Definition full_options : namespace := fun name =>
  if str_eqb name (u "source_root") then [u "/home/a/src"]
  else if str_eqb name (u "home") then [u "/home/a"]
  else if str_eqb name (u "xdg_data_home") then [u "/home/a/.local/share"]
  else if str_eqb name (u "xdg_config_home") then [u "/home/a/.config"]
  else if str_eqb name (u "xdg_state_home") then [u "/home/a/.local/state"]
  else if str_eqb name (u "mode") then [u "full"]
  else if str_eqb name (u "dry_run") then [u "no"]
  else [u "enable"].
Definition found_in_bin (name path : pystr) : option posix_path := Some (path_join (parse_path (u "/usr/bin")) name).
Definition sample_plan : result pydict * world :=
  build_plan 100 1000 (fun _ => None) (parse_path (u "/home/a/src")) (parse_path (u "/usr/bin/python3")) [3; 12; 1] true found_in_bin full_options source_world.

Lemma planner_reads_and_is_read_witness : w_fs sample_plan.2 = w_fs source_world.
Proof.
  assert (Hw : holds (eq (w_fs source_world)) source_world) by (split; [split; repeat constructor|reflexivity]).
  pose proof (planner_reads_and_is_read 100 1000 (fun _ => None) (parse_path (u "/home/a/src")) (parse_path (u "/usr/bin/python3")) [3; 12; 1] true
    found_in_bin full_options _ source_world Hw) as H.
  unfold sample_plan. destruct (build_plan _ _ _ _ _ _ _ _ _ source_world) as [r w']. destruct H as [[_ H] _]. symmetry. exact H.
Defined.
