(* ===== verification/Delegate.v ===== *)
(** * Launching the delegate ([installer_probe.py], [launch-delegate])

    The launcher plans again, and hands the request and the plan to a child through two
    pipes.  The child and the machinery around it are [Child]: how its pipes take what
    is written, what happens between two looks at it, and how it takes signals.  The
    clock is not modelled: a wait that times out is a moment in which nothing happened.
    [parse] is [argparse]: the values of the options of a command, or its refusal. *)
From S2P Require Import Prelude PyText PyVal PyFloat Json Codec Model Contract Effect Files LifecycleFs Base64 Probe Lifecycle Console Installer Planner.
#[local] Open Scope eff_scope.

(** ** The pipes *)

(** What one [os.write] does. *)
Inductive write_outcome := Wrote (count : Z) | Interrupted | Broken.

(** What arrives of the payload, and whether all of it was written.  When the list of
    outcomes is over, the rest is written at once. *)
Fixpoint _write_all (outcomes : list write_outcome) (view : pybytes) : pybytes * bool :=
  match view, outcomes with
  | [], _ => ([], true)
  | _, [] => (view, true)
  | _, Interrupted :: rest => _write_all rest view
  | _, Wrote count :: rest =>
      if count <=? 0 then ([], false)
      else let '(arrived, whole) := _write_all rest (drop (Z.to_nat count) view) in (take (Z.to_nat count) view ++ arrived, whole)
  | _, Broken :: _ => ([], false)
  end.

(** ** The child *)

(** What happened since the last look: the child exited, a signal was caught. *)
Definition moment : Type := option Z * option Z.

Record Child := mkChild {
  ch_pipes : result (Z * Z);            (* [os.pipe()], twice: the ends that the child reads *)
  ch_spawned : result unit;             (* [subprocess.Popen] *)
  ch_request : list write_outcome;
  ch_plan : list write_outcome;
  ch_course : list moment;
  ch_group : bool;                      (* its process group can be signalled *)
  ch_obeys : bool;                      (* it ends in time after SIGTERM *)
}.

Definition SIGKILL : Z := 9.
Definition SIGTERM : Z := 15.

(** How the wait ended ([Waiting]: it goes on); what the launcher returns is [verdict_code]. *)
Inductive verdict := Own (code : Z) | Undelivered | Caught (signum : Z) | Waiting.
Definition verdict_code (v : verdict) : option Z :=
  match v with Own code => Some code | Undelivered => Some 4 | Caught signum => Some (128 + signum) | Waiting => None end.

(** What the launcher did with the child. *)
Record launch := mkLaunch {
  la_argv : list pystr;
  la_options : bootstrap_args;
  la_request : pybytes;                 (* what arrived in the pipes *)
  la_plan : pybytes;
  la_verdict : verdict;
  la_signals : list Z;                  (* what its process group was sent *)
}.

Section Child.
Context (c : Child).

Definition killpg (signum : Z) : list Z := if ch_group c then [signum] else [].

(** The signals that end a child whose exit code is [exited]. *)
Definition _terminate_group (exited : option Z) : list Z :=
  match exited with
  | Some _ => []
  | None => if ch_group c then SIGTERM :: (if ch_obeys c then [] else [SIGKILL]) else []
  end.

(** The loop, up to an exit or a signal, which is passed on. *)
Fixpoint wait_loop (course : list moment) : verdict * list Z :=
  match course with
  | [] => (Waiting, [])
  | (exited, Some signum) :: _ => (Caught signum, killpg signum ++ _terminate_group exited)
  | (Some code, None) :: _ => (Own code, [])
  | (None, None) :: rest => wait_loop rest
  end.

Definition _wait_delegate (writer_errors : bool) : verdict * list Z :=
  if writer_errors then (Undelivered, _terminate_group (head (ch_course c) ≫= fst))
  else wait_loop (ch_course c).
End Child.

(** ** [_launch] *)

(** The options that the planner has too, by pairs. *)
Definition skip : list pystr := [u "--expected-digest"; u "--delegate-python"; u "--wheel"].
Fixpoint common_options (argv : list pystr) : result (list pystr) :=
  match argv with
  | [] => Ok []
  | [_] => Err (ValueError (u "missing option value"))
  | item :: value :: rest =>
      let? common := common_options rest in
      Ok (if str_in item skip then common else item :: value :: common)
  end.

Definition delegate_options (request_fd plan_fd : Z) (expected wheel : pystr) : bootstrap_args :=
  mkBootstrap [str_of_int request_fd] [str_of_int plan_fd] [expected] [wheel].
Definition option_words (options : bootstrap_args) : list pystr :=
  let words name values := concat (map (fun v => [u name; v]) values) in
  words "--request-fd"%string (ba_request_fd options) ++ words "--plan-fd"%string (ba_plan_fd options) ++
  words "--expected-digest"%string (ba_expected_digest options) ++ words "--wheel"%string (ba_wheel options).
Definition delegate_argv (delegate : pystr) (options : bootstrap_args) : list pystr :=
  [delegate; u "-P"; u "-m"; u "termrecall.installer"; u "installer-bootstrap"] ++ option_words options.

(** The writers are joined before the wait begins. *)
Definition run_child (c : Child) (argv : list pystr) (options : bootstrap_args) (request_raw plan_raw : pybytes) : launch :=
  let '(request_in, request_whole) := _write_all (ch_request c) request_raw in
  let '(plan_in, plan_whole) := _write_all (ch_plan c) plan_raw in
  let '(v, signals) := _wait_delegate c (negb request_whole || negb plan_whole) in
  mkLaunch argv options request_in plan_in v signals.

Section Launch.
Context (rec_limit : nat) (uid : Z) (env : pystr -> option pystr).
Context (running_root executable : posix_path) (version : list Z) (has_venv : bool) (which : pystr -> pystr -> option posix_path).
Context (parse : pystr -> list pystr -> option namespace) (c : Child).

(** The options of a launch: the request and the expected digest. *)
Definition launch_request (ns : namespace) : result (pydict * pystr) :=
  let? request := _parse_request ns in
  raise_if (negb (py_eqb (dict_get_none request (u "dry_run")) (VBool false))) (ValueError (u "launch-delegate requires --dry-run no")) ;?
  let? expected := _one ns (u "expected_digest") in
  _validate_hash (VStr expected) (u "expected digest") ;?
  Ok (request, expected).

(** The request and the plan as they are sent, unless one of them is too long. *)
Definition payloads (request plan : pydict) : result (option (pybytes * pybytes)) :=
  let? request_raw := _canonical_json (VDict request) in
  let? plan_raw := plan_to_bytes plan in
  Ok (if (MAX_PAYLOAD_BYTES <? len request_raw) || (MAX_PAYLOAD_BYTES <? len plan_raw) then None else Some (request_raw, plan_raw)).

Definition named_path (ns : namespace) (name what : pystr) : result pystr := let? value := _one ns name in _canonical_path (VStr value) what.

Definition start_delegate (ns : namespace) (expected : pystr) (request_raw plan_raw : pybytes) : result launch :=
  let? delegate := named_path ns (u "delegate_python") (u "delegate python") in
  let? wheel := named_path ns (u "wheel") (u "wheel") in
  let? '(request_fd, plan_fd) := ch_pipes c in
  ch_spawned c ;?
  let options := delegate_options request_fd plan_fd expected wheel in
  Ok (run_child c (delegate_argv delegate options) options request_raw plan_raw).

(** An exit code without a child, or a launch. *)
Definition _launch (argv : list pystr) : io (Z + launch) :=
  match parse (u "launch-delegate") argv with
  | None => eret (inl 2)
  | Some ns =>
      do! '(request, expected) := elift (launch_request ns) in
      do! common := elift (common_options argv) in
      match parse (u "plan") common with
      | None => eret (inl 2)
      | Some again =>
          do! plan := build_plan rec_limit uid env running_root executable version has_venv which again in
          if negb (py_eqb (dict_get_none plan (u "plan_digest")) (VStr expected)) then eret (inl 4)
          else
            do! sent := elift (payloads request plan) in
            match sent with
            | None => eret (inl 4)
            | Some (request_raw, plan_raw) =>
                do! l := elift (start_delegate ns expected request_raw plan_raw) in
                eret (inr l)
            end
      end
  end.
End Launch.
