(* ===== verification/DelegateProofs.v ===== *)
(** * What the launcher hands over, the delegate accepts

    The request and the plan that [_launch] sends are read back by the bootstrap of the
    delegate, with the digest that the user confirmed, in whatever chunks the pipes
    deliver them; and the exit code is the delegate's own only if it got all of them. *)
From S2P Require Import Prelude PyText PyVal PyFloat Json Codec Model StateCodec Contract ContractProofs Effect Files FilesProofs LifecycleFs Base64.
From S2P Require Import ProcessesProofs Probe Samples Lifecycle Console Installer Planner PlannerProofs Delegate.
#[local] Open Scope eff_scope.

(** ** Payloads *)
Lemma load_canonical rec_limit v raw : value_ok v = true -> (nesting v <= rec_limit)%nat ->
  _canonical_json v = Ok raw -> len raw <= MAX_PAYLOAD_BYTES -> _load rec_limit raw = Ok (sorted_keys v).
Proof.
  intros Hv Hn Hc Hlen. pose proof (canonical_read _ _ _ Hv Hn Hc Hlen) as H. revert H.
  unfold _decode_json, _load, load_object. rewrite ltb_false //. cbn [raise_if rbind].
  destruct (let? text := utf8_decode false raw in json_loads _pairs rec_limit text) as [value|e]; [|by destruct e].
  cbn [rbind]. destruct (_canonical_json value) as [again|e]; [|done]. cbn [rbind].
  by destruct (bool_decide (again = raw)).
Qed.

(** A pipe delivers the payload in some chunks. *)
Definition delivers (calls : list (result pybytes)) (payload : pybytes) : Prop :=
  exists chunks, calls = map Ok chunks /\ Forall (fun c => c <> []) chunks /\ concat chunks = payload.

Lemma read_chunks chunks data : Forall (fun c => c <> []) chunks -> len (data ++ concat chunks) <= MAX_PAYLOAD_BYTES ->
  _read_fd_bounded data (map Ok chunks) = data ++ concat chunks.
Proof.
  intros Hne. revert data. induction Hne as [|c chunks Hc _ IH]; intros data Hlen.
  - cbn. rewrite app_nil_r. by case_match.
  - cbn [map concat _read_fd_bounded] in *. rewrite (proj2 (Z.leb_gt _ _)); [unfold len in *; rewrite !length_app in Hlen; cbn in Hlen |- *; destruct c; [done|cbn in Hlen; lia]|].
    destruct c as [|x c]; [done|]. rewrite take_ge.
    + unfold len in *. rewrite !length_app in Hlen. lia.
    + rewrite IH -app_assoc //.
Qed.

Lemma delivers_read calls payload : delivers calls payload -> len payload <= MAX_PAYLOAD_BYTES -> _read_fd_bounded [] calls = payload.
Proof. intros (chunks & -> & Hne & <-) Hlen. by rewrite (read_chunks chunks []). Qed.

Lemma parse_fd_text n name : 0 <= n < 2 ^ 31 -> _parse_fd (str_of_int n) name = Ok n.
Proof.
  intros Hn. assert (Hb : 0 <= n < 10 ^ Z.of_nat 10) by (split; [lia|]; apply (Z.lt_trans _ (2 ^ 31)); [lia|reflexivity]).
  pose proof (int_of_number n 10 Hb ltac:(lia) ltac:(lia)) as Hint. unfold _parse_fd. rewrite Hint. cbn [result_of_option rbind].
  unfold str_of_int. rewrite ltb_false; [lia|]. destruct (digits_spec n ltac:(lia)) as [Hd Hv Hz].
  pose proof (digits_nonempty n ltac:(lia)) as Hne.
  assert (Hbare : drop_while (fun c => c =? 43) (digits n) = digits n).
  { destruct (digits n) as [|c ds]; [done|]. cbn in Hd |- *. unfold is_digit in Hd. by rewrite (proj2 (Z.eqb_neq c 43)) //; lia. }
  rewrite Hbare Hd bool_decide_false //.
Qed.

(** ** Requests *)

(** A dict of plain values, each under a key of its own. *)
Definition plain (v : pyval) : bool := match v with VNone | VBool _ | VInt _ | VStr _ => true | _ => false end.
Record flat (d : pydict) : Prop := {
  fl_keys : NoDup (map fst d);
  fl_plain : Forall (fun kv => plain kv.2 = true) d;
}.

Lemma plain_sorted v : plain v = true -> sorted_keys v = v.
Proof. by destruct v. Qed.

Lemma flat_get d k : flat d -> dict_get k (sorted_dict d) = dict_get k d.
Proof.
  intros [Hd Hp]. rewrite sorted_get //. destruct (dict_get k d) as [v|] eqn:E; [|done].
  apply (dict_get_Some d k v Hd) in E. rewrite Forall_forall in Hp. cbn. f_equal. exact (plain_sorted _ (Hp _ E)).
Qed.
Lemma flat_none d k : flat d -> dict_get_none (sorted_dict d) k = dict_get_none d k.
Proof. intros H. unfold dict_get_none. by rewrite flat_get. Qed.

Lemma flat_sorted d : flat d -> flat (sorted_dict d).
Proof.
  intros [Hd Hp]. split.
  - change (NoDup (dict_keys (sorted_dict d))). by rewrite sorted_dict_keys.
  - unfold sorted_dict. rewrite sort_by_perm. apply Forall_map. eapply Forall_impl; [exact Hp|]. intros [k v] Hv. cbn in *.
    by rewrite plain_sorted.
Qed.

Lemma plain_eqb v : plain v = true -> py_eqb v v = true.
Proof. destruct v; cbn; intros; try done; [by destruct b|apply Z.eqb_refl|apply str_eqb_refl]. Qed.
Lemma flat_eqb d : flat d -> py_eqb (VDict d) (VDict d) = true.
Proof.
  intros [Hd Hp]. apply py_eqb_dict. split; [done|]. rewrite Forall_forall in Hp. apply Forall_forall. intros [k v] Hkv.
  exists v. split; [by apply dict_get_Some|]. exact (plain_eqb _ (Hp _ Hkv)).
Qed.

Lemma flat_carried d : flat d -> value_ok (VDict d) = true /\ nesting (VDict d) = 1%nat.
Proof.
  intros [Hd Hp]. split.
  - cbn [value_ok]. apply andb_true_iff. split; [by apply nodupb_spec|]. apply forallb_Forall. eapply Forall_impl; [exact Hp|].
    intros [k v] Hv. by destruct v.
  - cbn [nesting]. f_equal. induction Hp as [|[k v] d Hv _ IH]; [done|]. cbn. apply NoDup_cons in Hd as [_ Hd]. rewrite (IH Hd).
    by destruct v.
Qed.

Lemma validate_request_get d e : (forall k, dict_get_none d k = dict_get_none e k) -> dict_keys d ≡ₚ dict_keys e ->
  _validate_request (VDict d) = Ok d -> _validate_request (VDict e) = Ok e.
Proof.
  intros Hget Hkeys. unfold _validate_request, plan_object. cbn [rforeach].
  assert (Hset : set_eqb (dict_keys e) REQUEST_KEYS = set_eqb (dict_keys d) REQUEST_KEYS).
  { apply eq_true_iff_eq. rewrite !set_eqb_spec. by setoid_rewrite Hkeys. }
  rewrite Hset. destruct (set_eqb (dict_keys d) REQUEST_KEYS); cbn [negb raise_if rbind]; [|discriminate]. rewrite !Hget. intros H.
  repeat (apply rbind_Ok in H as ([] & Hx & H); rewrite Hx; clear Hx; cbn [rbind]). done.
Qed.

(** What argparse gave is a flat request. *)
Lemma parsed_request ns request : _parse_request ns = Ok request -> flat request /\ _validate_request (VDict request) = Ok request.
Proof.
  unfold _parse_request. intros H. do 10 (apply rbind_Ok in H as (? & _ & H)). pose proof H as Hv.
  unfold _validate_request at 1 in H. apply rbind_Ok in H as (d & Hd & H). apply rbind_Ok in Hd as (? & _ & [= <-]).
  repeat (apply rbind_Ok in H as (? & _ & H)). injection H as <-. split; [|exact Hv]. split; [|repeat constructor].
  apply nodupb_spec. reflexivity.
Qed.

Lemma sorted_request request : flat request -> _validate_request (VDict request) = Ok request ->
  _validate_request (VDict (sorted_dict request)) = Ok (sorted_dict request).
Proof.
  intros Hf. apply validate_request_get; [intros k; by rewrite flat_none|]. symmetry. apply sorted_dict_keys.
Qed.

Lemma required_known v l name : require_in v l name = Ok tt -> exists s, v = VStr s /\ s ∈ l.
Proof.
  unfold require_in, in_strings. destruct v; cbn [rbind negb raise_if]; try done.
  intros H%raise_if_Ok%negb_false_iff. eexists. split; [done|]. by apply str_in_spec.
Qed.

(** The delegate makes a setup of an accepted request. *)
Lemma delegated_known request wheel : _validate_request (VDict request) = Ok request ->
  exists setup, delegated_request (VDict request) wheel = Some (request, setup) /\
    sr_dry_run setup = as_bool (dict_get_none request (u "dry_run")) /\ sr_wheel setup = Some wheel.
Proof.
  unfold _validate_request, delegated_request. intros H. apply rbind_Ok in H as (d & Hd & H).
  apply rbind_Ok in Hd as (? & _ & [= <-]). cbn [rforeach] in H. do 3 (apply rbind_Ok in H as (? & _ & H)).
  apply rbind_Ok in H as ([] & (mode & -> & Hmode)%required_known & H). apply rbind_Ok in H as (? & Hstates & H).
  apply rbind_Ok in Hstates as ([] & (bash & -> & Hbash)%required_known & Hstates).
  apply rbind_Ok in Hstates as ([] & (autostart & -> & Hauto)%required_known & Hstates).
  apply rbind_Ok in Hstates as ([] & (chooser & -> & Hch)%required_known & _). cbn [as_str].
  assert (Hm : exists m, enum_of_value mode = Some (m : SetupMode)) by (clear -Hmode; set_unfold in Hmode; naive_solver).
  assert (Hs : forall s, s ∈ STATES -> exists x, enum_of_value s = Some (x : DesiredState)) by (clear; intros s Hs; set_unfold in Hs; naive_solver).
  destruct Hm as [m ->], (Hs _ Hbash) as [b ->], (Hs _ Hauto) as [a ->], (Hs _ Hch) as [c ->]. by eexists.
Qed.

(** ** What is in a plan *)
Definition returns {A} (m : io A) (P : A -> Prop) : Prop := forall w a w', m w = (Ok a, w') -> P a.

Lemma returns_bind {A B} (m : io A) (k : A -> io B) Q P : returns m Q -> (forall a, Q a -> returns (k a) P) -> returns (ebind m k) P.
Proof. intros Hm Hk w b w' H. apply ebind_Ok in H as (a & w1 & Ha & H). exact (Hk a (Hm _ _ _ Ha) _ _ _ H). Qed.
Lemma returns_then {A B} (m : io A) (k : A -> io B) P : (forall a, returns (k a) P) -> returns (ebind m k) P.
Proof. intros Hk. apply (returns_bind _ _ (fun _ => True)); [done|]. intros a _. apply Hk. Qed.
Lemma returns_ret {A} (a : A) (P : A -> Prop) : P a -> returns (eret a) P.
Proof. by intros HP w b w' [= <- _]. Qed.
Lemma returns_raise {A} e (P : A -> Prop) : returns (eraise e) P.
Proof. by intros w b w'. Qed.
Lemma returns_emap {A B} (f : A -> io B) (P : A -> B -> Prop) l : (forall x, returns (f x) (P x)) -> returns (emap f l) (Forall2 P l).
Proof.
  intros Hf. induction l as [|x l IH]; cbn [emap]; [by apply returns_ret|]. eapply returns_bind; [apply Hf|]. intros b Hb.
  eapply returns_bind; [exact IH|]. intros bs Hbs. apply returns_ret. by constructor.
Qed.
Ltac returns_all := repeat first [apply returns_raise | apply returns_then; intros ? | case_match | progress cbv zeta].

(** Values that JSON carries as they are (each key once, finite floats), of a bounded
    depth. *)
Definition small (n : nat) (v : pyval) : Prop := value_ok v = true /\ (nesting v <= n)%nat.

Lemma plain_small n v : plain v = true -> small n v.
Proof. intros H. split; destruct v; try done; cbn; lia. Qed.
Lemma small_mono n m v : (n <= m)%nat -> small n v -> small m v.
Proof. intros H [Hv Hn]. split; [done|lia]. Qed.
Lemma small_dict n d : NoDup (map fst d) -> Forall (fun kv => small n kv.2) d -> small (S n) (VDict d).
Proof.
  intros Hd Hs. split.
  - cbn [value_ok]. apply andb_true_iff. split; [by apply nodupb_spec|]. apply forallb_Forall. eapply Forall_impl; [exact Hs|].
    intros kv [Hv _]. by rewrite Hv.
  - cbn [nesting]. clear Hd. induction Hs as [|kv d [_ Hv] _ IH]; cbn in *; lia.
Qed.
Lemma small_list n l : Forall (small n) l -> small (S n) (VList l).
Proof.
  intros Hs. split.
  - cbn [value_ok]. apply forallb_Forall. eapply Forall_impl; [exact Hs|]. intros v [Hv _]. by rewrite Hv.
  - cbn [nesting]. induction Hs as [|v l [_ Hv] _ IH]; cbn in *; lia.
Qed.
Ltac each := repeat first [apply List.Forall_nil | apply List.Forall_cons]; cbn [snd].
Ltac literal_small := apply small_dict; [by apply nodupb_spec|each; try (by apply plain_small)].

Section Contents.
Context (rec_limit : nat) (uid : Z) (env : pystr -> option pystr).
Context (running_root executable : posix_path) (version : list Z) (has_venv : bool) (which : pystr -> pystr -> option posix_path).

Lemma fact_plain p : returns (_fact p) (fun fact => forall k, plain (dict_get_none fact k) = true).
Proof.
  assert (Hget : forall d, forallb (fun kv => plain kv.2) d = true -> forall k, plain (dict_get_none d k) = true).
  { intros d Hd k. unfold dict_get_none. destruct (dict_get k d) as [v|] eqn:E; [|done]. rewrite forallb_forall in Hd.
    unfold dict_get in E. destruct (find _ d) as [kv|] eqn:Ef; [|done]. injection E as <-. apply find_some in Ef as [Hin _]. by apply Hd. }
  unfold _fact. returns_all; apply returns_ret, Hget; reflexivity.
Qed.

Lemma before_small p : returns (_before p) (small 1).
Proof.
  unfold _before. eapply returns_bind; [apply fact_plain|]. intros fact Hf. cbv zeta.
  pose proof (Hf (u "mode")). pose proof (Hf (u "target")).
  returns_all; apply returns_ret; literal_small.
Qed.

Lemma action_small n sequence kind disposition target mode literal prerequisite rollback : small n rollback ->
  small (S n) (_action sequence kind disposition target mode literal prerequisite rollback).
Proof.
  intros Hr. unfold _action, or_none. apply small_dict; [by apply nodupb_spec|].
  each; try exact Hr; apply plain_small; by repeat case_match.
Qed.

Lemma link_action_small n kind link target prerequisite : returns (link_action n kind link target prerequisite) (small 2).
Proof. unfold link_action. apply returns_then. intros there. eapply returns_bind; [apply before_small|]. intros b Hb. by apply returns_ret, action_small. Qed.

Lemma command_actions_small d n names : returns (command_actions d n names) (Forall (small 2)).
Proof.
  revert n. induction names as [|name rest IH]; intros n; cbn [command_actions]; [by apply returns_ret|].
  eapply returns_bind; [apply link_action_small|]. intros a Ha. eapply returns_bind; [apply IH|]. intros more Hm. apply returns_ret. by constructor.
Qed.

Lemma plan_actions_small request d : returns (plan_actions request d) (Forall (small 2)).
Proof.
  unfold plan_actions. cbv zeta. eapply returns_bind; [apply link_action_small|]. intros activation Ha.
  eapply returns_bind; [apply command_actions_small|]. intros commands Hc. apply returns_ret.
  apply Forall_app. split; [|apply Forall_app; split; [exact Hc|]]; each; try exact Ha; apply action_small, plain_small; reflexivity.
Qed.

Lemma source_small request : returns (_safe_source uid running_root request) (fun source => small 2 (VDict source)).
Proof.
  unfold _safe_source. cbv zeta. do 9 (apply returns_then; intros ?).
  eapply returns_bind.
  { apply (returns_emap _ (fun name kv => kv.1 = name /\ plain kv.2 = true)). intros name. unfold source_file. cbv zeta. returns_all.
    apply returns_ret. split; reflexivity. }
  intros manifest Hm. apply returns_ret. literal_small. apply small_dict.
  - assert (map fst manifest = required_files) as ->; [|by apply nodupb_spec].
    induction Hm as [|name [k v] names manifest [Hk _] _ IH]; [done|]. cbn in *. by rewrite Hk IH.
  - induction Hm as [|name kv names manifest [_ Hv] _ IH]; constructor; [by apply plain_small|exact IH].
Qed.

Lemma prerequisites_small : returns (_prerequisites uid env executable version has_venv which) (fun d => small 2 (VDict d)).
Proof.
  unfold _prerequisites. cbv zeta. returns_all. apply returns_ret. literal_small. apply small_list, Forall_map, Forall_true. intros z. by apply plain_small.
Qed.

Lemma wanted_small request name p : returns (wanted request name p) (fun kv => kv.1 = name /\ plain kv.2 = true).
Proof. unfold wanted. returns_all; by apply returns_ret. Qed.

Lemma effective_small request a b c : returns (_effective request [(u "bash", a); (u "autostart", b); (u "chooser", c)]) (fun d => small 1 (VDict d)).
Proof.
  intros w d w' H. apply (returns_emap _ (fun np kv => kv.1 = np.1 /\ plain kv.2 = true)) in H; [|intros [name p]; apply wanted_small].
  repeat match goal with H : Forall2 _ _ _ |- _ => inversion_clear H | H : _ /\ _ |- _ => destruct H end.
  repeat match goal with kv : (pystr * pyval)%type |- _ => destruct kv end. simplify_eq/=. literal_small.
Qed.

(** The prior installation: its manifest, whatever it is. *)
Lemma prior_small p : returns (prior_of rec_limit p) (fun d => forall n, small n (dict_get_none d (u "manifest")) -> small (S n) (VDict d)).
Proof. unfold prior_of. returns_all; apply returns_ret; intros n Hn; literal_small; exact Hn. Qed.

Definition prior_manifest (plan : pydict) : pyval :=
  match dict_get_none plan (u "prior") with VDict p => dict_get_none p (u "manifest") | _ => VNone end.

Lemma build_plan_small ns : returns (build_plan rec_limit uid env running_root executable version has_venv which ns)
  (fun plan => forall n, (2 <= n)%nat -> small n (prior_manifest plan) -> small (S (S n)) (VDict plan)).
Proof.
  unfold build_plan. eapply returns_bind; [intros w a w' [H _]%elift_Ok; exact (proj1 (parsed_request _ _ H))|]. intros request Hf.
  apply returns_then. intros _. eapply returns_bind; [apply source_small|]. intros source Hs.
  eapply returns_bind; [apply prerequisites_small|]. intros prerequisites Hp. cbv zeta. do 5 (apply returns_then; intros ?).
  eapply returns_bind; [apply plan_actions_small|]. intros actions Ha. eapply returns_bind; [apply prior_small|]. intros prior Hpr.
  eapply returns_bind; [apply effective_small|]. intros effective He.
  intros w plan w' [H _]%elift_Ok n Hn Hm. apply finish_plan_accepted in H as (_ & _ & _ & _ & rendered & digest & ->).
  specialize (Hpr n Hm). apply (small_list 2) in Ha.
  assert (Hreq : small 1 (VDict request)) by (destruct (flat_carried _ Hf) as [? Hr]; split; [done|by rewrite Hr]).
  assert (Hl : forall a b c d, small 1 (lock_facts a b c d)) by (intros; literal_small).
  cbn [app]. apply small_dict; [by apply nodupb_spec|]. each; try (by apply plain_small);
    (eapply small_mono; [|first [exact Hpr|exact Hs|exact Hp|exact Ha|exact He|exact Hreq|apply Hl]]; lia).
Qed.
End Contents.

(** ** Plans *)
Lemma plan_expected rec_limit raw e e' d : plan_from_bytes rec_limit raw e = Ok d -> _validate_request (VDict e') = Ok e' ->
  dict_get_none d (u "request") = VDict e' -> flat e' -> plan_from_bytes rec_limit raw e' = Ok d.
Proof.
  intros H He' Hreq Hf. unfold plan_from_bytes in *. apply rbind_Ok in H as (value & -> & H). cbn [rbind].
  apply rbind_Ok in H as (d' & Hd & H). rewrite Hd. cbn [rbind]. apply rbind_Ok in H as ([] & Hschema & H). rewrite Hschema. cbn [rbind].
  assert (d' = d) as ->.
  { repeat (apply rbind_Ok in H as (? & _ & H)). by injection H. }
  rewrite Hreq He'. cbn [rbind]. rewrite Hreq He' in H. cbn [rbind] in H. rewrite flat_eqb //. cbn [negb raise_if rbind].
  apply rbind_Ok in H as (? & _ & H). by apply rbind_Ok in H as (? & _ & H).
Qed.

Lemma plan_digest_own rec_limit raw e d : plan_from_bytes rec_limit raw e = Ok d ->
  exists digest, compute_plan_digest d = Ok digest /\ dict_get_none d (u "plan_digest") = VStr digest.
Proof.
  unfold plan_from_bytes. intros H. apply rbind_Ok in H as (value & _ & H). apply rbind_Ok in H as (d' & _ & H). cbv zeta in H.
  do 16 (apply rbind_Ok in H as (? & ? & H)). apply rbind_Ok in H as (digest & Hd & H). apply rbind_Ok in H as ([] & He & [= <-]).
  apply raise_if_Ok, negb_false_iff, py_eqb_str in He. by exists digest.
Qed.

Lemma carried_read rec_limit request facts plan : finish_plan rec_limit request facts = Ok plan -> small rec_limit (VDict plan) ->
  flat request -> _validate_request (VDict request) = Ok request -> dict_get_none plan (u "request") = VDict request ->
  exists digest raw, dict_get_none plan (u "plan_digest") = VStr digest /\ plan_to_bytes plan = Ok raw /\
    plan_from_bytes rec_limit raw (sorted_dict request) = Ok (sorted_dict plan) /\ compute_plan_digest (sorted_dict plan) = Ok digest.
Proof.
  intros Hfin [Hv Hn] Hf Hreq Hget. apply finish_plan_accepted in Hfin as (raw & read & Hraw & Hread & _).
  assert (Hk : NoDup (map fst plan)) by (cbn [value_ok] in Hv; apply nodupb_spec; by apply andb_true_iff in Hv as [? _]).
  assert (Hsorted : forall k, dict_get_none (sorted_dict plan) k = sorted_keys (dict_get_none plan k)).
  { intros k. unfold dict_get_none. rewrite sorted_get //. by destruct (dict_get k plan). }
  assert (read = sorted_dict plan) as ->.
  { pose proof Hraw as Hr. unfold plan_to_bytes in Hr. apply rbind_Ok in Hr as (raw' & Hc & Hr). apply rbind_Ok in Hr as ([] & Hl & [= ->]).
    apply raise_if_Ok in Hl. pose proof (load_canonical rec_limit _ _ Hv Hn Hc ltac:(lia)) as Hload.
    unfold plan_from_bytes in Hread. rewrite Hload sorted_keys_dict in Hread. cbn [rbind plan_object] in Hread.
    apply rbind_Ok in Hread as (d & Hd & Hread). apply rbind_Ok in Hd as (? & _ & [= <-]).
    cbv zeta in Hread. repeat (apply rbind_Ok in Hread as (? & _ & Hread)). by injection Hread. }
  destruct (plan_digest_own _ _ _ _ Hread) as (digest & Hdig & Hown). exists digest, raw. split.
  - rewrite Hsorted in Hown. by destruct (dict_get_none plan (u "plan_digest")).
  - split; [done|]. split; [|done]. apply (plan_expected _ _ _ _ _ Hread).
    + by apply sorted_request.
    + by rewrite Hsorted Hget sorted_keys_dict.
    + by apply flat_sorted.
Qed.

(** The plan that was built is one for the request, finished. *)
Lemma build_plan_made rec_limit uid env running_root executable version has_venv which ns w plan w' :
  build_plan rec_limit uid env running_root executable version has_venv which ns w = (Ok plan, w') ->
  exists request facts, _parse_request ns = Ok request /\ finish_plan rec_limit request facts = Ok plan /\
    dict_get_none plan (u "request") = VDict request.
Proof.
  unfold build_plan. intros E. apply ebind_Ok in E as (request & w1 & Hreq & E). apply elift_Ok in Hreq as [Hreq ->].
  repeat (apply ebind_Ok in E as (? & ? & _ & E); cbv zeta in E). apply elift_Ok in E as [E _].
  exists request. eexists. split; [exact Hreq|]. split; [exact E|].
  apply finish_plan_accepted in E as (? & ? & _ & _ & rendered & digest & ->). reflexivity.
Qed.

(** ** Pipes and the verdict *)
Lemma write_all_spec outcomes view : let '(arrived, whole) := _write_all outcomes view in
  arrived `prefix_of` view /\ (whole = true -> arrived = view).
Proof.
  revert view. induction outcomes as [|o outcomes IH]; intros [|x view]; try (split; [done|done]).
  destruct o as [count| |]; cbn [_write_all].
  - destruct (count <=? 0); [split; [apply prefix_nil|done]|]. specialize (IH (drop (Z.to_nat count) (x :: view))).
    destruct (_write_all outcomes _) as [arrived whole]. destruct IH as [Hp Hw]. split.
    + rewrite -{2}(take_drop (Z.to_nat count) (x :: view)). by apply prefix_app.
    + intros ->. by rewrite Hw // take_drop.
  - apply IH.
  - split; [apply prefix_nil|done].
Qed.

Lemma run_child_spec c argv options request_raw plan_raw : let l := run_child c argv options request_raw plan_raw in
  la_argv l = argv /\ la_options l = options /\ la_request l `prefix_of` request_raw /\ la_plan l `prefix_of` plan_raw /\
  (la_verdict l <> Undelivered -> la_request l = request_raw /\ la_plan l = plan_raw).
Proof.
  unfold run_child. pose proof (write_all_spec (ch_request c) request_raw) as Hr. pose proof (write_all_spec (ch_plan c) plan_raw) as Hp.
  destruct (_write_all (ch_request c) request_raw) as [ri [|]], (_write_all (ch_plan c) plan_raw) as [pi [|]];
    destruct Hr as [Hr1 Hr2], Hp as [Hp1 Hp2]; cbn [negb orb _wait_delegate];
    try (cbn; do 4 (split; [done|]); done).
  unfold _wait_delegate. destruct (wait_loop c (ch_course c)) as [v signals]. cbn. do 4 (split; [done|]). intros _. split; auto.
Qed.

(** ** The launch *)
Definition request_options : list pystr := tail REQUEST_KEYS.

Lemma parse_request_agree ns again : (forall name, name ∈ request_options -> again name = ns name) -> _parse_request again = _parse_request ns.
Proof.
  intros H. unfold _parse_request, _one. rewrite !H //; unfold request_options, REQUEST_KEYS; cbn [tail]; by apply str_in_spec.
Qed.

(** What is sent is accepted, and read as a setup that the user confirmed. *)
Lemma sent_accepted rec_limit request plan request_raw plan_raw expected wheel facts :
  flat request -> _validate_request (VDict request) = Ok request -> (1 <= rec_limit)%nat ->
  finish_plan rec_limit request facts = Ok plan -> dict_get_none plan (u "request") = VDict request -> small rec_limit (VDict plan) ->
  dict_get_none plan (u "plan_digest") = VStr expected -> payloads request plan = Ok (Some (request_raw, plan_raw)) ->
  len request_raw <= MAX_PAYLOAD_BYTES /\ len plan_raw <= MAX_PAYLOAD_BYTES /\
  delegated_plan rec_limit request_raw plan_raw = Ok (VDict (sorted_dict request), expected) /\
  exists setup, delegated_request (VDict (sorted_dict request)) wheel = Some (sorted_dict request, setup) /\
    sr_dry_run setup = as_bool (dict_get_none request (u "dry_run")) /\ sr_wheel setup = Some wheel.
Proof.
  intros Hf Hv Hlim Hfin Hget Hcar Hexp Hpay. unfold payloads in Hpay.
  apply rbind_Ok in Hpay as (rr & Hrr & Hpay). apply rbind_Ok in Hpay as (pr & Hpr & Hpay).
  destruct ((_ <? len rr) || _) eqn:Hlen; [discriminate|]. injection Hpay as -> ->. apply orb_false_iff in Hlen as [Hl1 Hl2].
  destruct (carried_read _ _ _ _ Hfin Hcar Hf Hv Hget) as (digest & raw & Hd & Hraw & Hread & Hdig).
  rewrite Hd in Hexp. injection Hexp as ->. rewrite Hpr in Hraw. injection Hraw as ->.
  destruct (flat_carried _ Hf) as [Hvf Hnf]. do 2 (split; [lia|]). split.
  - unfold delegated_plan. rewrite (load_canonical rec_limit _ _ Hvf ltac:(lia) Hrr ltac:(lia)) sorted_keys_dict. cbn [rbind dict_of].
    rewrite Hread. cbn [rbind]. by rewrite Hdig.
  - destruct (delegated_known _ wheel (sorted_request _ Hf Hv)) as (setup & Hs & Hdry & Hw). exists setup.
    by rewrite flat_none in Hdry.
Qed.

Lemma bootstrap_accepts rec_limit depth request_fd plan_fd expected wheel reads request_raw plan_raw request setup probe uid :
  0 <= request_fd < 2 ^ 31 -> 0 <= plan_fd < 2 ^ 31 -> _is_sha256 expected = true -> is_absolute (parse_path wheel) = true ->
  len request_raw <= MAX_PAYLOAD_BYTES -> len plan_raw <= MAX_PAYLOAD_BYTES ->
  delivers (reads request_fd) request_raw -> delivers (reads plan_fd) plan_raw ->
  delegated_plan rec_limit request_raw plan_raw = Ok (VDict request, expected) ->
  delegated_request (VDict request) (parse_path wheel) = Some (request, setup) ->
  installer_bootstrap rec_limit depth (delegate_options request_fd plan_fd expected wheel) reads probe uid =
  delegated_setup rec_limit depth request setup expected probe uid.
Proof.
  intros Hr Hp Hs Hw Hlr Hlp Hdr Hdp Hplan Hreq. unfold installer_bootstrap, parse_bootstrap, delegate_options, _exactly_one.
  cbn [ba_request_fd ba_plan_fd ba_expected_digest ba_wheel rbind]. rewrite !parse_fd_text //. cbn [rbind].
  rewrite Hs Hw. cbn [negb orb]. rewrite (delivers_read _ _ Hdr Hlr) (delivers_read _ _ Hdp Hlp) Hplan str_eqb_refl. cbn [negb].
  by rewrite Hreq.
Qed.

Lemma launch_request_Ok ns request expected : launch_request ns = Ok (request, expected) ->
  _parse_request ns = Ok request /\ _one ns (u "expected_digest") = Ok expected /\ _is_sha256 expected = true /\
  as_bool (dict_get_none request (u "dry_run")) = false.
Proof.
  unfold launch_request. intros H. apply rbind_Ok in H as (r & Hr & H). apply rbind_Ok in H as ([] & Hdry & H).
  apply rbind_Ok in H as (x & Hx & H). apply rbind_Ok in H as ([] & Hh & [= <- <-]). split; [done|]. split; [done|].
  apply raise_if_Ok, negb_false_iff in Hdry. split.
  - cbn [_validate_hash] in Hh. apply raise_if_Ok, orb_false_iff in Hh as [H1%negb_false_iff H2%negb_false_iff].
    unfold _is_sha256. by rewrite H1 H2.
  - destruct (dict_get_none r (u "dry_run")) as [|[|]| | | | |]; done.
Qed.

Lemma start_delegate_Ok c ns expected request_raw plan_raw l : start_delegate c ns expected request_raw plan_raw = Ok l ->
  exists request_fd plan_fd delegate wheel, ch_pipes c = Ok (request_fd, plan_fd) /\ is_absolute (parse_path wheel) = true /\
    l = run_child c (delegate_argv delegate (delegate_options request_fd plan_fd expected wheel))
          (delegate_options request_fd plan_fd expected wheel) request_raw plan_raw.
Proof.
  unfold start_delegate. intros H. apply rbind_Ok in H as (delegate & _ & H). apply rbind_Ok in H as (wheel & Hw & H).
  apply rbind_Ok in H as ([request_fd plan_fd] & Hp & H). apply rbind_Ok in H as ([] & _ & [= <-]).
  exists request_fd, plan_fd, delegate, wheel. split; [done|]. split; [|done].
  unfold named_path in Hw. apply rbind_Ok in Hw as (value & _ & Hw). cbn [_canonical_path] in Hw.
  apply rbind_Ok in Hw as (? & _ & Hw). apply rbind_Ok in Hw as (? & Hc & [= <-]).
  apply raise_if_Ok, orb_false_iff in Hc as [Hc%negb_false_iff _]. exact Hc.
Qed.


(** A parser of options that come in pairs, [--name value]. *)
Definition option_name (word : pystr) : pystr := map (fun c => if c =? 45 then 95 else c) (drop 2 word).
Fixpoint pairs_of (argv : list pystr) : namespace := fun name =>
  match argv with
  | item :: value :: rest => (if str_eqb (option_name item) name then [value] else []) ++ pairs_of rest name
  | _ => []
  end.
Definition parse_pairs (command : pystr) (argv : list pystr) : option namespace := Some (pairs_of argv).

Lemma pairs_agree argv common name : common_options argv = Ok common -> name ∈ request_options -> pairs_of common name = pairs_of argv name.
Proof.
  intros H Hn. assert (Hskip : forall item, str_in item skip = true -> str_eqb (option_name item) name = false).
  { intros item Hi%str_in_spec. apply bool_decide_eq_false. intros <-. apply str_in_spec in Hn. revert Hn. set_unfold in Hi.
    destruct Hi as [->|[->|[->|[]]]]; vm_compute; discriminate. }
  revert common H. assert (Hall : forall n argv, (length argv <= n)%nat -> forall common, common_options argv = Ok common ->
    pairs_of common name = pairs_of argv name); [|intros common H; exact (Hall _ argv (le_n _) _ H)].
  clear argv. induction n as [|n IH]; intros [|item [|value rest]] Hlen common H; try (cbn in Hlen; lia); try discriminate; try by injection H as <-.
  cbn [common_options] in H. apply rbind_Ok in H as (more & Hmore & [= <-]). pose proof (IH rest ltac:(cbn in Hlen; lia) _ Hmore) as Hr.
  change (pairs_of (if str_in item skip then more else item :: value :: more) name = pairs_of (item :: value :: rest) name).
  destruct (str_in item skip) eqn:Hi; cbn [pairs_of].
  - by rewrite (Hskip _ Hi) Hr.
  - by rewrite Hr.
Qed.

Definition launch_argv : list pystr :=
  map u ["--source-root"; "/home/a/src"; "--home"; "/home/a"; "--xdg-data-home"; "/home/a/.local/share"; "--xdg-config-home"; "/home/a/.config";
         "--xdg-state-home"; "/home/a/.local/state"; "--mode"; "full"; "--bash"; "enable"; "--autostart"; "enable"; "--chooser"; "enable";
         "--dry-run"; "no"; "--delegate-python"; "/b/venv/bin/python"; "--wheel"; "/b/t.whl"]%string ++
  [u "--expected-digest"; repeat 48 64].
Definition quick_child : Child := mkChild (Ok (5, 7)) (Ok tt) [Wrote 3; Interrupted] [] [(None, None); (Some 0, None)] true true.
Definition sample_launch (w : world) : result (Z + launch) * world :=
  _launch 100 1000 (fun _ => None) (parse_path (u "/home/a/src")) (parse_path (u "/usr/bin/python3")) [3; 12; 1] true found_in_bin
    parse_pairs quick_child launch_argv w.

