(* ===== verification/Startup.v ===== *)
(** * Starting up: runtime and state directories, locks and the socket

    The parts of [server.py], [store.py] and [cli.py] that work on the file system
    before anything is served: the private directories and their locks are opened or
    created without following links, and the socket is bound, checked and removed.
    Taking a lock without waiting is one system call, which is [EWOULDBLOCK] when
    another process holds it; so is each of listening and handing the socket to
    asyncio.  The address [/proc/self/fd/N/service.sock] is the entry of that name
    in the directory [N]; that it exists already is [EEXIST] where Linux says
    [EADDRINUSE], and the mode of a symbolic link cannot be changed ([EINVAL]).  No
    component of a path is [..]; the messages leave out the text of an [OSError]. *)
From S2P Require Import Prelude PyText Effect Files.
From S2P Require Import Processes.
#[local] Open Scope eff_scope.

(** ** System calls *)
Section Calls.
(** [os.mkdir(name, mode=0o700, dir_fd=d)] is [os_mkdir_at]; this is
    [os.chmod(name, mode, dir_fd=d, follow_symlinks=False)]. *)
Definition os_chmod_at (d : Z) (name : pystr) (mode : Z) : io unit :=
  change_ (fun f => let? x := lookup_at f d name in let? st := node_at f x in
                    raise_if (S_ISLNK st) (OSError EINVAL) ;? Ok (alter_node (with_mode mode) x f)).
(** [os.open(name, O_CREAT | O_RDWR | O_NOFOLLOW, mode, dir_fd=d)] *)
Definition os_open_create (d : Z) (name : pystr) (mode : Z) : io Z := fun w =>
  change (fun f =>
    match lookup_at f d name with
    | Ok x =>
        let? st := node_at f x in
        raise_if (S_ISLNK st) (OSError ELOOP) ;? raise_if (S_ISDIR st) (OSError EISDIR) ;? Ok (f, x)
    | Err (OSError ENOENT) => add_node f d name (w_uid w) (created_mode w mode) 1 (Reg [])
    | Err e => Err e
    end) w.
(** [socket.bind] on the entry of a directory *)
Definition os_bind_at (d : Z) (name : pystr) : io unit := fun w =>
  change_ (fun f => let? '(f', _) := add_node f d name (w_uid w) (created_mode w 0x1FF) 1 Sock in Ok f') w.
(** [os.open(name, O_PATH | O_NOFOLLOW, dir_fd=d)] *)
Definition os_open_any (d : Z) (name : pystr) : io Z := query (fun f => lookup_at f d name).
(** [os.open(path, O_RDONLY | O_DIRECTORY | O_NOFOLLOW)] *)
Definition os_open_directory (path : posix_path) : io Z :=
  query (fun f => let? x := resolve f path false in let? st := node_at f x in
                  raise_if (negb (S_ISDIR st)) (OSError ENOTDIR) ;? Ok x).
(** [fcntl.flock(fd, LOCK_EX | LOCK_NB)], [listen], [asyncio.start_unix_server] *)
Definition os_flock_nb (fd : Z) : io unit := syscall.
Definition os_listen (fd : Z) : io unit := syscall.
Definition start_unix_server (fd : Z) : io unit := syscall.
End Calls.

(** A new directory, private whatever the umask. *)
Definition mkdir_private (d : Z) (name : pystr) : io unit := os_mkdir_at d name 0x1C0 ;; os_chmod_at d name 0x1C0.

(** ** The service's socket *)
Definition _SOCKET_NAME : pystr := u "service.sock".
Definition _LOCK_NAME : pystr := u "service.lock".

(** [UnsafeRuntimePath] is a [RuntimeError]. *)
Definition unsafe_runtime (why : pystr) : exn := RuntimeError why.
Definition or_unsafe {A} (why : pystr) (m : io A) : io A := ecatch m (on_os_error (eraise (unsafe_runtime why))).

(** The file or directory is of this user and has exactly this mode. *)
Definition is_private (is_kind : stat -> bool) (uid mode : Z) (st : stat) : bool :=
  is_kind st && (st_uid st =? uid) && (st_mode st =? mode).
Definition identity (st : stat) : Z * Z := (st_dev st, st_ino st).

(** What [start] leaves in the server. *)
Record Endpoint := mkEndpoint {
  ep_runtime : Z;
  ep_lock : Z;
  ep_socket : Z;
  ep_identity : Z * Z;
}.

Section Socket.
(** The process, the user the service is for, and the working directory. *)
Context (uid service_uid : Z) (cwd : posix_path).

(** An ancestor of the runtime directory: only the last one is created. *)
Definition runtime_ancestor (final : bool) (d : Z) (component : pystr) : io Z :=
  let unsafe := u "unsafe runtime directory ancestor " ++ component in
  ecatch (os_open_dir d component)
    (fun e =>
       if bool_decide (e = OSError ENOENT) then
         if final then or_unsafe unsafe (os_mkdir_at d component 0x1C0 ;; os_open_dir d component)
         else eraise (unsafe_runtime unsafe)
       else on_os_error (eraise (unsafe_runtime unsafe)) e).

Fixpoint runtime_ancestors (d : Z) (parts : list pystr) : io Z :=
  match parts with
  | [] => eret d
  | name :: rest => do! next_fd := runtime_ancestor (bool_decide (rest = [])) d name in runtime_ancestors next_fd rest
  end.

(** What is wrong with a directory that was opened. *)
Definition runtime_problem (st : stat) : option pystr :=
  if negb (S_ISDIR st) then Some (u "type")
  else if negb (st_uid st =? uid) then Some (u "owner")
  else if negb (st_mode st =? 0x1C0) then Some (u "mode must be 0700")
  else None.

Definition make_private (d : Z) (name : pystr) : io unit :=
  ecatch (mkdir_private d name)
    (fun e => if bool_decide (e = OSError EEXIST) then eret tt else eraise e).

Definition _open_runtime_directory (path : posix_path) : io Z :=
  let absolute := path_join cwd (path_str path) in
  let name := path_name absolute in
  eguard (bool_decide (name = []) || str_in name [u "."; u ".."]) (unsafe_runtime (u "runtime directory must have a final component")) ;;
  do! root := or_unsafe (u "unsafe runtime directory root") os_open_root in
  do! parent_fd := runtime_ancestors root (path_tail (path_parent absolute)) in
  make_private parent_fd name ;;
  do! runtime_fd := or_unsafe (u "runtime path is not a safe directory") (os_open_dir parent_fd name) in
  do! st := os_fstat runtime_fd in
  match runtime_problem st with
  | Some problem => eraise (unsafe_runtime (u "unsafe runtime directory " ++ problem))
  | None => eret runtime_fd
  end.

Definition _open_lock (runtime_fd : Z) : io Z :=
  do! fd := or_unsafe (u "unsafe service.lock") (os_open_create runtime_fd _LOCK_NAME 0x180) in
  do! st := os_fstat fd in
  eguard (negb (is_private S_ISREG service_uid 0x180 st)) (unsafe_runtime (u "unsafe service.lock type, owner, or mode")) ;;
  eret fd.

Definition take_lock (lock_fd : Z) : io unit :=
  ecatch (os_flock_nb lock_fd)
    (fun e => if bool_decide (e = OSError EWOULDBLOCK) then eraise (unsafe_runtime (u "another service instance holds service.lock"))
              else eraise e).

(** A socket that is there already is never replaced. *)
Definition no_socket_yet (runtime_fd : Z) : io unit :=
  do! there := ecatch (os_lstat_at runtime_fd _SOCKET_NAME ;; eret true) (on_missing (eret false)) in
  eguard there (unsafe_runtime (u "service.sock already exists; run termrecall doctor and explicitly clean a verified stale socket")).

(** The socket that was bound is checked, and served. *)
Definition serve_socket (runtime_fd lock_fd : Z) (created : Z * Z) : io Endpoint :=
  os_chmod_at runtime_fd _SOCKET_NAME 0x180 ;;
  do! socket_fd := os_open_any runtime_fd _SOCKET_NAME in
  do! st := os_fstat socket_fd in
  eguard (negb (bool_decide (identity st = created))) (unsafe_runtime (u "service.sock changed during creation")) ;;
  eguard (negb (is_private S_ISSOCK service_uid 0x180 st)) (unsafe_runtime (u "created service.sock failed safety checks")) ;;
  os_listen socket_fd ;;
  start_unix_server socket_fd ;;
  eret (mkEndpoint runtime_fd lock_fd socket_fd created).

(** Only the socket that was created is removed. *)
Definition is_created (created : Z * Z) (st : stat) : bool := S_ISSOCK st && bool_decide (identity st = created).
Definition remove_created (runtime_fd : Z) (created : Z * Z) : io unit :=
  ecatch (do! st := os_lstat_at runtime_fd _SOCKET_NAME in
          if is_created created st then os_unlink_at runtime_fd _SOCKET_NAME else eret tt)
    (on_missing (eret tt)).

Definition start (started : bool) (socket_dir : posix_path) : io Endpoint :=
  eguard started (RuntimeError (u "server already started")) ;;
  do! runtime_fd := _open_runtime_directory socket_dir in
  do! lock_fd := _open_lock runtime_fd in
  take_lock lock_fd ;;
  no_socket_yet runtime_fd ;;
  os_bind_at runtime_fd _SOCKET_NAME ;;
  do! st := os_lstat_at runtime_fd _SOCKET_NAME in
  eon_error (serve_socket runtime_fd lock_fd (identity st)) (remove_created runtime_fd (identity st)).

(** The end of [close]: what it says about the socket, if anything. *)
Definition close_socket (e : Endpoint) : io (option pystr) :=
  ecatch (do! st := os_lstat_at (ep_runtime e) _SOCKET_NAME in
          if is_created (ep_identity e) st then os_unlink_at (ep_runtime e) _SOCKET_NAME ;; eret None
          else eret (Some (u "service.sock changed before shutdown cleanup")))
    (fun x => if bool_decide (x = OSError ENOENT) then eret None
              else on_os_error (eret (Some (u "service.sock cleanup failed"))) x).

(** ** The login coordinator's lock *)
Definition _acquire_login_lock (paths : XDGPaths) : io (option (Z * Z)) :=
  do! runtime_fd := _open_runtime_directory (runtime_dir paths) in
  do! lock_fd := os_open_create runtime_fd (u "login-coordinator.lock") 0x180 in
  do! st := os_fstat lock_fd in
  eguard (negb (is_private S_ISREG uid 0x180 st)) (unsafe_runtime (u "unsafe login-coordinator.lock")) ;;
  ecatch (os_flock_nb lock_fd ;; eret (Some (runtime_fd, lock_fd)))
    (fun e => if bool_decide (e = OSError EWOULDBLOCK) then eret None else eraise e).
End Socket.

(** ** The state directory *)
Section State.
Context (uid : Z) (cwd : posix_path).

Definition unsafe_state (why : pystr) : exn := UnsafeStatePath why.

(** [path.relative_to(base)], its parts *)
Definition relative_to (path base : posix_path) : option (list pystr) :=
  if str_eqb (path_root path) (path_root base) && bool_decide (take (length (path_tail base)) (path_tail path) = path_tail base)
  then Some (drop (length (path_tail base)) (path_tail path)) else None.

Definition normal (path : posix_path) : posix_path := parse_path (normpath (path_str (path_join cwd (path_str path)))).

Definition state_problem (private : bool) (st : stat) : option pystr :=
  if negb (S_ISDIR st) then Some (u "type")
  else if negb (st_uid st =? uid) then Some (u "owner")
  else if private && negb (st_mode st =? 0x1C0) then Some (u "mode must be 0700")
  else if negb private && negb (Z.land (st_mode st) 0x12 =? 0) then Some (u "mode must not be group or world writable")
  else None.

Definition _validate_state_directory_fd (fd : Z) (label : pystr) (private : bool) : io unit :=
  do! st := os_fstat fd in
  match state_problem private st with
  | Some problem => eraise (unsafe_state (u "unsafe state directory " ++ label ++ u " " ++ problem))
  | None => eret tt
  end.

(** One component below the boundary, created if it is missing and may be. *)
Definition open_component (create_parents final : bool) (d : Z) (component : pystr) : io Z :=
  let ancestor := u "unsafe state directory ancestor " ++ component in
  ecatch (os_open_dir d component)
    (fun e =>
       if bool_decide (e = OSError ENOENT) then
         if negb final && negb create_parents then eraise (unsafe_state ancestor)
         else
           ecatch (mkdir_private d component ;; os_open_dir d component)
             (on_os_error (eraise (unsafe_state (if final then u "unsafe state directory state directory" else ancestor))))
       else on_os_error (eraise (unsafe_state ancestor)) e).

Fixpoint open_below (create_parents : bool) (d : Z) (parts : list pystr) : io Z :=
  match parts with
  | [] => eret d
  | component :: rest =>
      let final := bool_decide (rest = []) in
      do! next_fd := open_component create_parents final d component in
      (if create_parents || final then _validate_state_directory_fd next_fd (if final then u "state directory" else u "ancestor") final
       else eret tt) ;;
      open_below create_parents next_fd rest
  end.

(** The boundary and the components below it. *)
Definition state_location (path : posix_path) (create_parents : bool) (root_boundary : option posix_path)
    : result (posix_path * list pystr) :=
  let absolute := normal path in
  let name := path_name absolute in
  raise_if (bool_decide (name = []) || str_in name [u "."; u ".."]) (unsafe_state (u "state directory must have a final component")) ;?
  raise_if (create_parents && bool_decide (root_boundary = None)) (unsafe_state (u "state parent creation requires a root boundary")) ;?
  let boundary := normal (default (mkPath (path_root absolute) []) root_boundary) in
  raise_if (str_in (u "..") (path_tail absolute)) (unsafe_state (u "state directory escapes filesystem root")) ;?
  let? relative := result_of_option (relative_to absolute boundary) (unsafe_state (u "state directory is outside root boundary")) in
  raise_if (bool_decide (relative = [])) (unsafe_state (u "state directory must be below root boundary")) ;?
  raise_if (str_in (u "..") relative) (unsafe_state (u "state directory escapes root boundary")) ;?
  Ok (boundary, relative).

Definition _open_state_directory (path : posix_path) (create_parents : bool) (root_boundary : option posix_path) : io Z :=
  do! '(boundary, relative) := elift (state_location path create_parents root_boundary) in
  do! parent_fd := ecatch (os_open_directory boundary) (on_os_error (eraise (unsafe_state (u "unsafe state directory root")))) in
  (if create_parents then _validate_state_directory_fd parent_fd (u "root boundary") false else eret tt) ;;
  open_below create_parents parent_fd relative.

Definition _open_lock_file (state_fd : Z) : io Z :=
  do! fd := os_open_create state_fd (u ".store.lock") 0x180 in
  os_fchmod fd 0x180 ;;
  do! st := os_fstat fd in
  eguard (negb (is_private S_ISREG uid 0x180 st)) (unsafe_state (u "unsafe state lock file")) ;;
  eret fd.

(** The descriptors that a [SnapshotStore] holds: of its directory and its lock. *)
Definition open_descriptors (path : posix_path) (create_parents : bool) (root_boundary : option posix_path) : io (Z * Z) :=
  do! state_fd := _open_state_directory path create_parents root_boundary in
  do! lock_fd := _open_lock_file state_fd in
  eret (state_fd, lock_fd).

(** The boundary of the service's store: the home directory or, for a state directory
    elsewhere, its nearest ancestor that exists. *)
Fixpoint climb_to_existing (fuel : nat) (boundary : posix_path) : io posix_path :=
  match fuel with
  | O => eret boundary
  | S fuel' =>
      do! there := exists_path boundary in
      if there || bool_decide (boundary = path_parent boundary) then eret boundary
      else climb_to_existing fuel' (path_parent boundary)
  end.
Definition production_boundary (home state_dir : posix_path) (state_root : option posix_path) : io posix_path :=
  match state_root with
  | Some root => eret root
  | None =>
      let home := path_join cwd (path_str home) in
      let state := path_join cwd (path_str state_dir) in
      match relative_to state home with
      | Some _ => eret home
      | None => climb_to_existing (S (length (path_tail state))) (path_parent state)
      end
  end.
Definition production_descriptors (home state_dir : posix_path) (state_root : option posix_path) : io (Z * Z) :=
  do! boundary := production_boundary home state_dir state_root in
  open_descriptors state_dir true (Some boundary).
End State.
