(* ===== verification/StartupProofs.v ===== *)
(** * Starting up only adds, and what it opens is private

    In calm worlds: whatever fails, the start of the service and the opening of its
    store leave what was there as it was (but for the mode of the store's lock), and
    what they return is private to the user and reached without symbolic links. *)
From S2P Require Import Prelude PyText Effect Files FilesProofs FileViews LifecycleFs LifecycleFsProofs Samples Processes Startup.
#[local] Open Scope eff_scope.

(** ** Programs that only add *)
Definition kept (f f' : fs) : Prop := grown f f' /\ fs_ok f'.
Definition grows {A} (f : fs) (m : io A) (Q : A -> fs -> Prop) : Prop := fs_ok f ->
  triple (holds (eq f)) m (fun a => holds (fun f' => kept f f' /\ Q a f')) (fun _ => holds (kept f)).

Section Grows.
Context (f : fs).

Lemma kept_refl : fs_ok f -> kept f f.
Proof. by split. Qed.

Lemma grows_asks {A} (m : io A) (Q : A -> Prop) E : asks f m Q E -> grows f m (fun a f' => f' = f /\ Q a).
Proof.
  intros Hm Hok. apply (triple_weaken _ _ _ _ _ _ _ Hm); [done|..].
  - intros a w [[Hc Hf] Ha]. split; [done|]. rewrite -Hf. split; [by apply kept_refl|done].
  - intros e w [[Hc Hf] _]. split; [done|]. rewrite -Hf. by apply kept_refl.
Qed.

Lemma grows_weaken {A} (m : io A) (Q Q' : A -> fs -> Prop) : grows f m Q' -> (forall a f', kept f f' -> Q' a f' -> Q a f') -> grows f m Q.
Proof.
  intros Hm HQ Hok. apply (triple_weaken _ _ _ _ _ _ _ (Hm Hok)); [done| |done].
  intros a w [Hc [Hk Ha]]. split; [done|]. split; [done|]. by apply HQ.
Qed.

Lemma grows_ret {A} (a : A) (Q : A -> fs -> Prop) : Q a f -> grows f (eret a) Q.
Proof. intros HQ Hok. apply triple_ret. intros w [Hc Hf]. split; [done|]. rewrite -Hf. split; [by apply kept_refl|done]. Qed.

Lemma grows_raise {A} e (Q : A -> fs -> Prop) : grows f (eraise e) Q.
Proof. intros Hok. apply triple_raise. intros w [Hc Hf]. split; [done|]. rewrite -Hf. by apply kept_refl. Qed.

Lemma grows_guard b e (Q : unit -> fs -> Prop) : (b = false -> Q tt f) -> grows f (eguard b e) Q.
Proof. intros HQ. destruct b; [apply grows_raise|apply (grows_ret tt Q), HQ, eq_refl]. Qed.

(** After a step that added, [k] runs from where it ended. *)
Lemma after {A} f' (m : io A) (Q : A -> fs -> Prop) w : kept f f' -> grows f' m Q -> calm w -> w_fs w = f' ->
  match m w with (Ok a, w') => holds (fun g => kept f g /\ Q a g) w' | (Err _, w') => holds (kept f) w' end.
Proof.
  intros [Hg Hok] Hm Hc Hf. specialize (Hm Hok w (conj Hc (eq_sym Hf))).
  destruct (m w) as [[a|e] w']; destruct Hm as [Hc' H].
  - destruct H as [[Hg' Hok'] HQ]. split; [done|]. split; [|done]. split; [exact (transitivity Hg Hg')|done].
  - destruct H as [Hg' Hok']. split; [done|]. split; [exact (transitivity Hg Hg')|done].
Qed.

Lemma grows_bind {A B} (m : io A) (k : A -> io B) (R : A -> fs -> Prop) Q : grows f m R ->
  (forall a f', kept f f' -> R a f' -> grows f' (k a) Q) -> grows f (ebind m k) Q.
Proof.
  intros Hm Hk Hok. eapply triple_bind; [exact (Hm Hok)|]. intros a w [Hc [Hkept HR]].
  exact (after _ (k a) Q w Hkept (Hk a _ Hkept HR) Hc eq_refl).
Qed.

Lemma grows_catch {A} (m : io A) h Q : grows f m Q -> (forall e f', kept f f' -> grows f' (h e) Q) -> grows f (ecatch m h) Q.
Proof.
  intros Hm Hh Hok. eapply triple_catch; [exact (Hm Hok)|]. intros e w [Hc Hkept].
  exact (after _ (h e) Q w Hkept (Hh e _ Hkept) Hc eq_refl).
Qed.

(** Creation, with the inode that is new. *)
Lemma grows_create {A} (m : world -> io A) (Q : A -> fs -> Prop) : (forall w, grows f (m w) Q) -> grows f (fun w => m w w) Q.
Proof. intros Hm Hok w Hw. exact (Hm w Hok w Hw). Qed.

Lemma grows_change {A} (q : fs -> result (fs * A)) (Q : A -> fs -> Prop) :
  (forall f' a, fs_ok f -> q f = Ok (f', a) -> kept f f' /\ Q a f') -> grows f (change q) Q.
Proof.
  intros Hq Hok. eapply triple_weaken; [apply (change_holds (eq f) q (fun a f' => kept f f' /\ Q a f'))|done|done|].
  - intros f1 f' a <- H. by apply Hq.
  - intros e w [Hc [Hf _]]. split; [done|]. rewrite -Hf. by apply kept_refl.
Qed.
End Grows.

Lemma grows_or_unsafe {A} f why (m : io A) Q : grows f m Q -> grows f (or_unsafe why m) Q.
Proof. intros Hm. apply grows_catch; [done|]. intros e f' _. unfold on_os_error. destruct (is_os_error e); apply grows_raise. Qed.

(** ** The calls *)
Lemma grows_open_dir f d n : grows f (os_open_dir d n) (fun x f' => f' = f /\ entry f d n = Some x /\ is_dir_at f x).
Proof. eapply grows_weaken; [exact (grows_asks _ _ _ _ (asks_open_dir f d n))|]. by intros x f' _ [-> H]. Qed.
Lemma grows_fstat f fd : grows f (os_fstat fd) (fun st f' => f' = f /\ st.1 = fd /\ f_nodes f !! fd = Some st.2).
Proof. eapply grows_weaken; [exact (grows_asks _ _ _ _ (asks_fstat f fd))|]. intros st f' _ [-> H]. by apply node_at_Ok in H. Qed.
Lemma grows_syscall f : grows f syscall (fun _ f' => f' = f).
Proof. eapply grows_weaken; [exact (grows_asks _ _ _ _ (asks_keeps _ _ (keeps_syscall _)))|]. by intros [] f' _ [-> _]. Qed.
Lemma grows_root f : grows f os_open_root (fun x f' => f' = f /\ x = f_root f).
Proof. eapply grows_weaken; [exact (grows_asks _ _ _ _ (asks_query f (fun f => Ok (f_root f))))|]. by intros x f' _ [-> [= ->]]. Qed.

(** What [fstat] says of a private file or directory. *)
Definition private_inode (is_kind : stat -> bool) (uid mode : Z) (f : fs) (x : Z) : Prop :=
  exists i, shape_at f x = Some i /\ is_private is_kind uid mode (x, i) = true.

Lemma private_grown is_kind uid mode f f' x : grown f f' -> private_inode is_kind uid mode f x -> private_inode is_kind uid mode f' x.
Proof. intros H (i & Hi & Hp). exists i. split; [by apply (gr_shape _ _ H)|done]. Qed.

(** The kind of an inode is in its shape. *)
Definition kind_of_shape (is_kind : stat -> bool) : Prop := forall x i, is_kind (x, shape i) = is_kind (x, i).
Lemma shape_kinds : kind_of_shape S_ISDIR /\ kind_of_shape S_ISREG /\ kind_of_shape S_ISSOCK.
Proof. repeat split; intros x [dev uid m l []]; done. Qed.

Lemma private_stat is_kind uid mode f fd st : kind_of_shape is_kind -> st.1 = fd -> f_nodes f !! fd = Some st.2 ->
  is_private is_kind uid mode st = true -> private_inode is_kind uid mode f fd.
Proof.
  intros Hk Hx Hn Hp. exists (shape st.2). unfold shape_at. rewrite Hn. split; [done|]. destruct st as [x i]. cbn in *. subst x.
  unfold is_private in *. by rewrite Hk.
Qed.

(** A private directory is made: its mode is set only where it is new. *)
Lemma grows_mkdir_private f d name : grows f (mkdir_private d name) (fun _ _ => True).
Proof.
  intros Hok. unfold mkdir_private.
  apply (triple_bind _ _ _ (fun _ => holds (fun g => kept f g /\ exists x, entry g d name = Some x /\ shape_at f x = None))).
  - intros w Hw. pose proof (grows_change f
      (fun f => let? f' := (let? '(f', _) := add_node f d name (w_uid w) (created_mode w 0x1C0) 2 (Dir ∅) in Ok f') in Ok (f', tt))
      (fun _ g => exists x, entry g d name = Some x /\ shape_at f x = None)) as H.
    apply H; [|done|done]. intros g [] _ (f' & ([f1 x] & Ha & [= ->])%rbind_Ok & Hg)%rbind_Ok. injection Hg as <-.
    apply grown_add in Ha as (Hgr & Hok' & He & _ & Hs & _); [|done..]. split; [done|]. by exists x.
  - intros []. set (made := fun g => kept f g /\ exists x, entry g d name = Some x /\ shape_at f x = None).
    eapply triple_weaken; [apply (change_holds made _ (fun _ g => kept f g /\ True))|done|done|].
    + intros g g' [] [[Hg Hokg] (x & Hx & Hs)] (f' & H & [= <-])%rbind_Ok. split; [|done].
      apply rbind_Ok in H as (y & Hy%lookup_at_Ok & H). apply rbind_Ok in H as (st & Hst & H).
      apply rbind_Ok in H as (v & _ & [= <-]). rewrite Hx in Hy. injection Hy as <-. split.
      * apply grown_alter; [done..|]. apply with_mode_entries.
      * apply alter_ok; [apply with_mode_entries|done].
    + intros e w [Hc [[Hk _] _]]. by split.
Qed.

(** A lock file is opened, or made where there is none. *)
Lemma grows_open_create f d name mode : grows f (os_open_create d name mode) (fun x f' => entry f' d name = Some x).
Proof.
  apply (grows_create f (fun w => change _)). intros w. apply grows_change. intros f' x Hok H.
  destruct (lookup_at f d name) as [y|[]] eqn:Hl; try done.
  - apply rbind_Ok in H as (st & _ & H). apply rbind_Ok in H as (v & _ & H). apply rbind_Ok in H as (v' & _ & [= <- <-]).
    split; [by apply kept_refl|]. by apply lookup_at_Ok.
  - destruct e; try done. apply grown_add in H as (Hg & Hok' & He & _); [|done..]. done.
Qed.

(** ** The runtime directory *)
Section Socket.
Context (uid service_uid : Z) (cwd : posix_path).

Lemma grows_runtime_ancestor f final d name :
  grows f (runtime_ancestor final d name) (fun x f' => entry f' d name = Some x /\ is_dir_at f' x).
Proof.
  assert (Hopen : forall g, grows g (os_open_dir d name) (fun x f' => entry f' d name = Some x /\ is_dir_at f' x)).
  { intros g. eapply grows_weaken; [apply grows_open_dir|]. by intros x f' _ (-> & He & Hd). }
  unfold runtime_ancestor. apply grows_catch; [apply Hopen|]. intros e f1 _. case_bool_decide.
  - destruct final; [|apply grows_raise]. apply grows_or_unsafe. apply (grows_bind _ _ _ (fun _ _ => True)); [|intros [] f2 _ _; apply Hopen].
    apply (grows_create f1 (fun w => change_ _)). intros w. apply grows_change. intros f' [] Hok (g & ([g' x] & Ha & [= ->])%rbind_Ok & [= <-])%rbind_Ok.
    apply grown_add in Ha as (Hg & Hok' & _); [|done..]. done.
  - unfold on_os_error. destruct (is_os_error e); apply grows_raise.
Qed.

Lemma grows_runtime_ancestors parts : forall f d, is_dir_at f d ->
  grows f (runtime_ancestors d parts) (fun x f' => chain f' d parts = Some x /\ is_dir_at f' x).
Proof.
  induction parts as [|name rest IH]; intros f d Hd; [by apply grows_ret|]. cbn [runtime_ancestors].
  eapply grows_bind; [apply grows_runtime_ancestor|]. intros x f1 _ [He Hx].
  eapply grows_weaken; [by apply IH|]. intros y f' [Hg _] [Hc Hy]. split; [|done]. apply chain_cons. exists x.
  split; [by apply (gr_entry _ _ Hg)|]. split; [exact (grown_dir _ _ _ Hg Hx)|done].
Qed.

Lemma runtime_private st : runtime_problem uid st = None -> is_private S_ISDIR uid 0x1C0 st = true.
Proof.
  unfold runtime_problem, is_private. destruct (S_ISDIR st); [|done]. destruct (st_uid st =? uid); [|done].
  by destruct (st_mode st =? 0x1C0).
Qed.

Lemma chain_snoc f d parts x n y : chain f d parts = Some x -> entry f x n = Some y -> is_dir_at f y -> chain f d (parts ++ [n]) = Some y.
Proof. intros Hc He Hd. apply chain_app. exists x. split; [done|]. apply chain_cons. by exists y. Qed.

(** The directory that a path names without symbolic links. *)
Definition located (f : fs) (path : posix_path) (d : Z) : Prop :=
  let absolute := path_join cwd (path_str path) in
  chain f (f_root f) (path_tail (path_parent absolute) ++ [path_name absolute]) = Some d.

Lemma grows_runtime f path : grows f (_open_runtime_directory uid cwd path)
  (fun d f' => located f' path d /\ private_inode S_ISDIR uid 0x1C0 f' d).
Proof.
  unfold _open_runtime_directory. cbv zeta. set (absolute := path_join cwd (path_str path)).
  apply (grows_bind _ _ _ (fun _ _ => True)); [by apply grows_guard|]. intros [] f0 _ _.
  eapply grows_bind; [eapply grows_or_unsafe, grows_root|]. intros root f1 _ [-> ->].
  intros Hok. revert Hok. eapply grows_bind.
  { intros Hok. exact (grows_runtime_ancestors _ f0 _ (ok_root_dir _ Hok) Hok). }
  intros parent f2 [Hg2 _] [Hc2 Hd2]. eapply grows_bind.
  { unfold make_private. apply grows_catch; [apply grows_mkdir_private|]. intros e f' _. case_bool_decide; [by apply grows_ret|apply grows_raise]. }
  intros [] f3 [Hg3 _] _. eapply grows_bind; [apply grows_or_unsafe, grows_open_dir|]. intros d f4 _ (-> & He & Hd).
  eapply grows_bind; [apply grows_fstat|]. intros st f5 _ (-> & Hx & Hn).
  destruct (runtime_problem uid st) as [problem|] eqn:Hp; [apply grows_raise|]. apply grows_ret. split.
  - unfold located. fold absolute. rewrite (gr_root _ _ (transitivity Hg2 Hg3)).
    eapply chain_snoc; [|exact He|exact Hd]. exact (grown_chain _ _ _ Hg3 _ _ Hc2).
  - apply (private_stat _ _ _ _ _ st (proj1 shape_kinds) Hx Hn). by apply runtime_private.
Qed.

(** ** The socket *)

(** A socket bound since [f0], under a name that was free. *)
Record bound (f0 : fs) (d x : Z) (f : fs) : Prop := {
  bd_kept : kept f0 f;
  bd_free : entry f0 d _SOCKET_NAME = None;
  bd_new : shape_at f0 x = None;
  bd_entry : entry f d _SOCKET_NAME = Some x;
  bd_sock : exists i, shape_at f x = Some i /\ i_node i = Sock;
}.

Lemma bind_bound f d : fs_ok f ->
  triple (holds (eq f)) (os_bind_at d _SOCKET_NAME) (fun _ => holds (fun g => exists x, bound f d x g)) (fun _ => holds (kept f)).
Proof.
  intros Hok w Hw. set (q := fun f => let? '(f', _) := add_node f d _SOCKET_NAME (w_uid w) (created_mode w 0x1FF) 1 Sock in Ok f').
  assert (H : triple (holds (eq f)) (change_ q) (fun _ => holds (fun g => exists x, bound f d x g)) (fun _ => holds (kept f))).
  { eapply triple_weaken; [apply (change_holds (eq f) _ (fun _ g => exists x, bound f d x g))|done|done|].
    - intros f1 g [] <- (f' & ([g' x] & Ha & [= ->])%rbind_Ok & [= <-])%rbind_Ok. exists x.
      apply grown_add in Ha as (Hg & Hok' & He & Hnone & Hs & dev & Hnew); [|done..]. split; [done..|]. eexists. split; [exact Hnew|done].
    - intros e w' [Hc [Hf _]]. split; [done|]. rewrite -Hf. by apply kept_refl. }
  exact (H w Hw).
Qed.

Lemma bound_chmod f0 d x f mode : bound f0 d x f -> bound f0 d x (alter_node (with_mode mode) x f).
Proof.
  intros [[Hg Hok] Hfree Hnew He (i & Hi & Hs)]. split; [|done|done| |].
  - split; [apply grown_alter; [done..|apply with_mode_entries]|]. apply alter_ok; [apply with_mode_entries|done].
  - rewrite entry_alter //. apply with_mode_entries.
  - unfold shape_at in *. rewrite lookup_alter_node decide_True //. destruct (f_nodes f !! x) as [j|]; [|done]. cbn in *.
    injection Hi as <-. eexists. split; [done|]. unfold shape in *. cbn in *. by destruct (i_node j).
Qed.

(** What [start] returns. *)
Record serving (f : fs) (path : posix_path) (e : Endpoint) : Prop := {
  sg_located : located f path (ep_runtime e);
  sg_runtime : private_inode S_ISDIR uid 0x1C0 f (ep_runtime e);
  sg_lock : entry f (ep_runtime e) _LOCK_NAME = Some (ep_lock e);
  sg_lock_private : private_inode S_ISREG service_uid 0x180 f (ep_lock e);
  sg_socket : entry f (ep_runtime e) _SOCKET_NAME = Some (ep_socket e);
  sg_socket_private : private_inode S_ISSOCK service_uid 0x180 f (ep_socket e);
}.

Lemma serving_grown f f' path e : grown f f' -> serving f path e -> serving f' path e.
Proof.
  intros H [H1 H2 H3 H4 H5 H6]. pose proof H as [Hr He _]. split; [|exact (private_grown _ _ _ _ _ _ H H2)|by apply He|exact (private_grown _ _ _ _ _ _ H H4)|by apply He|exact (private_grown _ _ _ _ _ _ H H6)].
  unfold located in *. rewrite Hr. exact (grown_chain _ _ _ H _ _ H1).
Qed.

(** Once the socket is bound, a failure takes it away or leaves it. *)
Lemma unlink_bound f0 d x f f' : bound f0 d x f -> unlink_node f d _SOCKET_NAME = Ok f' -> kept f0 f' /\ entry f' d _SOCKET_NAME = None.
Proof.
  intros [[Hg Hok] Hfree Hnew He _] H. pose proof (unlink_ok _ _ _ _ H Hok) as Hok'.
  apply unlink_node_Ok in H as (y & Hy & _ & Hs & Hset). split; [|rewrite Hset decide_True //]. split; [|done].
  split; [rewrite (same_root _ _ Hs); apply (gr_root _ _ Hg)| |].
  - intros d' n z Hz. rewrite Hset decide_False; [intros [-> ->]; congruence|]. by apply (gr_entry _ _ Hg).
  - intros z i Hz. rewrite (same_shape _ _ Hs). by apply (gr_shape _ _ Hg).
Qed.

Notation ends f0 m Q := (triple (holds Q) m (fun _ => holds (kept f0)) (fun _ => holds (kept f0))).

Lemma bound_kept f0 d x w : holds (bound f0 d x) w -> holds (kept f0) w.
Proof. intros [Hc Hb]. split; [done|]. apply Hb. Qed.

Lemma remove_bound f0 d x created : ends f0 (remove_created d created) (bound f0 d x).
Proof.
  unfold remove_created. eapply triple_catch with (E := fun _ => holds (kept f0)).
  - apply (triple_bind _ _ _ (fun _ => holds (bound f0 d x))).
    + eapply triple_weaken; [apply (keeps_query (bound f0 d x))|done|done|]. intros e w. apply bound_kept.
    + intros st. destruct (is_created created st); [|apply triple_ret; intros w; apply bound_kept].
      eapply triple_weaken; [apply (change_holds (bound f0 d x) _ (fun _ => kept f0))|done|done|].
      * intros f f' [] Hb (g & Hg & [= <-])%rbind_Ok. by apply (unlink_bound _ _ _ _ _ Hb).
      * intros e w [Hc [Hb _]]. by apply (bound_kept _ d x).
  - intros e. unfold on_missing. case_bool_decide; by [apply triple_ret|apply triple_raise].
Qed.

Lemma serve_bound f0 d x lock created :
  triple (holds (bound f0 d x)) (serve_socket service_uid d lock created)
    (fun e => holds (fun f => bound f0 d x f /\ private_inode S_ISSOCK service_uid 0x180 f x /\ e = mkEndpoint d lock x created))
    (fun _ => holds (bound f0 d x)).
Proof.
  set (B := bound f0 d x). assert (Hdrop : forall (R : fs -> Prop) (e : exn) w, holds (fun f => B f /\ R f) w -> holds B w) by by intros R e w [Hc [Hb _]].
  unfold serve_socket. apply (triple_bind _ _ _ (fun _ => holds B)).
  { eapply triple_weaken; [apply (change_holds B _ (fun _ => B))|done|done|intros e w; exact (Hdrop _ e w)].
    intros f f' [] Hb (g & H & [= <-])%rbind_Ok. apply rbind_Ok in H as (y & Hy%lookup_at_Ok & H). apply rbind_Ok in H as (st & _ & H).
    apply rbind_Ok in H as (v & _ & [= <-]). assert (y = x) as -> by (pose proof (bd_entry _ _ _ _ Hb); congruence). by apply bound_chmod. }
  intros []. apply (triple_bind _ _ _ (fun fd => holds (fun f => B f /\ fd = x))).
  { eapply triple_weaken; [apply (query_holds B)|done| |intros e w; exact (Hdrop _ e w)].
    intros fd w [Hc [Hb Hl%lookup_at_Ok]]. split; [done|]. split; [done|]. pose proof (bd_entry _ _ _ _ Hb). congruence. }
  intros fd. apply (triple_bind _ _ _ (fun st => holds (fun f => (B f /\ fd = x) /\ node_at f fd = Ok st))).
  { eapply triple_weaken; [apply (query_holds (fun f => B f /\ fd = x))|done|done|]. by intros e w [Hc [[Hb _] _]]. }
  intros st. set (N := fun f => (B f /\ fd = x) /\ node_at f fd = Ok st).
  assert (HN : forall (e : exn) w, holds N w -> holds B w) by by intros e w [Hc [[Hb _] _]].
  apply (triple_bind _ _ _ (fun _ => holds N)); [apply triple_guard; [done|intros w Hw _; by apply (HN (TypeError []))]|]. intros [].
  apply (triple_bind _ _ _ (fun _ => holds (fun f => N f /\ is_private S_ISSOCK service_uid 0x180 st = true))).
  { apply triple_guard; [intros w [Hc HNw] Hp%negb_false_iff; by split|intros w Hw _; by apply (HN (TypeError []))]. }
  intros []. set (M := fun f => N f /\ _). assert (HM : forall (e : exn) w, holds M w -> holds B w) by by intros e w [Hc [[[Hb _] _] _]].
  apply (triple_bind _ _ _ (fun _ => holds M)); [eapply triple_weaken; [exact (keeps_syscall M)|done|done|exact HM]|]. intros [].
  apply (triple_bind _ _ _ (fun _ => holds M)); [eapply triple_weaken; [exact (keeps_syscall M)|done|done|exact HM]|]. intros [].
  apply triple_ret. intros w [Hc [[[Hb ->] [Hx Hn]%node_at_Ok] Hp]]. split; [done|]. split; [done|]. split; [|done].
  exact (private_stat _ _ _ _ _ st (proj2 (proj2 shape_kinds)) Hx Hn Hp).
Qed.

Lemma grows_lock f d : grows f (_open_lock service_uid d)
  (fun l f' => entry f' d _LOCK_NAME = Some l /\ private_inode S_ISREG service_uid 0x180 f' l).
Proof.
  unfold _open_lock. eapply grows_bind; [apply grows_or_unsafe, grows_open_create|]. intros fd f1 _ He.
  eapply grows_bind; [apply grows_fstat|]. intros st f2 _ (-> & Hx & Hn).
  apply (grows_bind _ _ _ (fun _ f' => f' = f1 /\ is_private S_ISREG service_uid 0x180 st = true)).
  { apply grows_guard. by intros Hp%negb_false_iff. }
  intros [] f3 _ [-> Hp]. apply grows_ret. split; [done|]. exact (private_stat _ _ _ _ _ st (proj1 (proj2 shape_kinds)) Hx Hn Hp).
Qed.

(** A server that was not started is started, or nothing but growth happens. *)
Lemma grows_start f started path : grows f (start uid service_uid cwd started path)
  (fun e f' => started = false /\ serving f' path e /\ shape_at f (ep_socket e) = None).
Proof.
  unfold start. apply (grows_bind _ _ _ (fun _ f' => f' = f /\ started = false)); [by apply grows_guard|]. intros [] f0 _ [-> ->].
  eapply grows_bind; [apply grows_runtime|]. intros d f1 [Hg1 _] [Hloc Hpriv]. eapply grows_bind; [apply grows_lock|].
  intros lock f2 [Hg2 _] [Hlock Hlpriv].
  apply (grows_bind _ _ _ (fun _ f' => f' = f2)).
  { unfold take_lock. apply grows_catch; [apply grows_syscall|]. intros e f' _. case_bool_decide; apply grows_raise. }
  intros [] f3 _ ->. apply (grows_bind _ _ _ (fun _ f' => f' = f2)).
  { unfold no_socket_yet. apply (grows_bind _ _ _ (fun _ f' => f' = f2)).
    - assert (Ha : asks f2 (ecatch (os_lstat_at d _SOCKET_NAME ;; eret true) (on_missing (eret false))) (fun _ => True) (fun _ => True)).
      { apply asks_keeps. unfold os_lstat_at. keeps_all. }
      eapply grows_weaken; [exact (grows_asks _ _ _ _ Ha)|]. by intros b f' _ [-> _].
    - intros b f' _ ->. by apply grows_guard. }
  intros [] f4 _ -> Hok2.
  eapply (triple_bind _ _ _ (fun _ => holds (fun g => exists x, bound f2 d x g))); [exact (bind_bound f2 d Hok2)|]. intros [].
  apply triple_state. intros f5 [x Hb]. apply (triple_bind _ _ _ (fun _ => holds (bound f2 d x))).
  { eapply triple_weaken; [apply (keeps_query (bound f2 d x))| |done|intros e w; apply bound_kept]. intros w [Hc Hf]. split; [done|]. by rewrite -Hf. }
  intros st. unfold eon_error. eapply triple_catch.
  - eapply triple_weaken; [apply (serve_bound f2 d x lock)|done| |intros e w Hw; exact Hw].
    intros e w [Hc (Hb' & Hp & ->)]. split; [done|]. split; [apply Hb'|]. split; [done|]. destruct (bd_kept _ _ _ _ Hb') as [Hg5 _]. split.
    + split; cbn; [|exact (private_grown _ _ _ _ _ _ (transitivity Hg2 Hg5) Hpriv)|by apply (gr_entry _ _ Hg5)|exact (private_grown _ _ _ _ _ _ Hg5 Hlpriv)|exact (bd_entry _ _ _ _ Hb')|done].
      unfold located in *. rewrite (gr_root _ _ (transitivity Hg2 Hg5)). exact (grown_chain _ _ _ (transitivity Hg2 Hg5) _ _ Hloc).
    + cbn. pose proof (bd_new _ _ _ _ Hb') as Hnew. apply eq_None_not_Some. intros [i Hi].
      rewrite (gr_shape _ _ (transitivity Hg1 Hg2) _ _ Hi) in Hnew. done.
  - intros e. apply (triple_bind _ _ _ (fun _ => holds (kept f2))); [apply remove_bound|]. intros []. by apply triple_raise.
Qed.

(** The end of [close], after [start]: only the socket goes, or nothing. *)
Lemma serving_bound f0 f path e : grown f0 f -> serving f path e -> shape_at f0 (ep_socket e) = None -> fs_ok f0 -> fs_ok f ->
  bound f0 (ep_runtime e) (ep_socket e) f.
Proof.
  intros Hg Hs Hnew Hok0 Hok. destruct Hs as [_ _ _ _ Hsock (i & Hi & Hp)]. split; [done| |done|done|].
  - apply eq_None_not_Some. intros [y Hy]. pose proof (gr_entry _ _ Hg _ _ _ Hy) as Hy'. rewrite Hsock in Hy'. injection Hy' as <-.
    pose proof (ok_linked _ Hok0 _ _ _ Hy) as Hl%shape_some. rewrite Hnew in Hl. by destruct Hl.
  - exists i. split; [done|]. unfold is_private, S_ISSOCK in Hp. cbn in Hp. by destruct (i_node i).
Qed.

Lemma close_spec f0 e : triple (holds (bound f0 (ep_runtime e) (ep_socket e))) (close_socket e)
  (fun said => holds (fun f' => kept f0 f' /\ (said = None -> entry f' (ep_runtime e) _SOCKET_NAME = None)))
  (fun _ => holds (kept f0)).
Proof.
  set (d := ep_runtime e). set (B := bound f0 d (ep_socket e)).
  set (E := fun (x : exn) => holds (fun f => B f /\ x <> OSError ENOENT)).
  assert (HE : forall x w, E x w -> holds (kept f0) w) by (intros x w [Hc [[Hk _ _ _ _] _]]; exact (conj Hc Hk)).
  assert (Hlook : forall f, B f -> lookup_at f d _SOCKET_NAME = Ok (ep_socket e)) by (intros f Hb; apply lookup_at_Ok; exact (bd_entry _ _ _ _ Hb)).
  unfold close_socket. eapply triple_catch with (E := E).
  - apply (triple_bind _ _ _ (fun _ => holds B)).
    + eapply triple_weaken; [apply (query_holds B)|done|by intros st w [Hc [Hb _]]|].
      intros x w [Hc [Hb H]]. split; [done|]. split; [done|]. intros ->. destruct H as [H|H]; [|done].
      rewrite (Hlook _ Hb) in H. cbn in H. unfold node_at in H. by destruct (f_nodes (w_fs w) !! ep_socket e).
    + intros st. destruct (is_created (ep_identity e) st).
      * apply (triple_bind _ _ _ (fun _ => holds (fun f => kept f0 f /\ entry f d _SOCKET_NAME = None))).
        -- eapply triple_weaken; [apply (change_holds B _ (fun _ f => kept f0 f /\ entry f d _SOCKET_NAME = None))|done|done|].
           ++ intros f f' [] Hb (g & Hg & [= <-])%rbind_Ok. exact (unlink_bound _ _ _ _ _ Hb Hg).
           ++ intros x w [Hc [Hb H]]. split; [done|]. split; [done|]. intros ->. destruct H as [(e' & H & <-)|H]; [|done].
              unfold unlink_node in H. rewrite (Hlook _ Hb) in H. cbn in H. unfold node_at in H.
              destruct (f_nodes (w_fs w) !! ep_socket e) as [i|]; [|done]. cbn in H. by destruct (S_ISDIR (ep_socket e, i)).
        -- intros []. apply triple_ret. by intros w [Hc [Hk He]].
      * apply triple_ret. intros w [Hc Hb]. split; [done|]. split; [exact (bd_kept _ _ _ _ Hb)|done].
  - intros x. case_bool_decide as Hx; [subst x; intros w [_ [_ Hn]]; by destruct Hn|]. unfold on_os_error.
    destruct (is_os_error x); [apply triple_ret|apply triple_raise; intros w; apply HE].
    intros w Hw. destruct (HE _ _ Hw) as [Hc Hk]. by split.
Qed.
End Socket.


Definition runtime_path : posix_path := parse_path (u "/home/a/run/termrecall").
(** The parent of the runtime directory is missing; the fourteenth call, which opens the
    socket, is slow. *)
Definition startup_world : world := home_world (repeat Serves 13 ++ [Transfers 1]) [].


(** ** The state directory *)
Section State.
Context (uid : Z) (cwd : posix_path).

Lemma grows_open_component f create_parents final d name :
  grows f (open_component create_parents final d name) (fun x f' => entry f' d name = Some x /\ is_dir_at f' x).
Proof.
  assert (Hopen : forall g, grows g (os_open_dir d name) (fun x f' => entry f' d name = Some x /\ is_dir_at f' x)).
  { intros g. eapply grows_weaken; [apply grows_open_dir|]. by intros x f' _ (-> & He & Hd). }
  assert (Hraise : forall g e e' (Q : Z -> fs -> Prop), grows g (on_os_error (eraise e') e) Q).
  { intros g e e' Q. unfold on_os_error. destruct (is_os_error e); apply grows_raise. }
  unfold open_component. cbv zeta. apply grows_catch; [apply Hopen|]. intros e f1 _. case_bool_decide; [|apply Hraise].
  destruct (negb final && negb create_parents); [apply grows_raise|]. apply grows_catch; [|intros e' f' _; apply Hraise].
  eapply grows_bind; [apply grows_mkdir_private|]. intros [] f2 _ _. apply Hopen.
Qed.

(** What the validation of a directory tells. *)
Lemma grows_validate f fd label private : grows f (_validate_state_directory_fd uid fd label private)
  (fun _ f' => f' = f /\ exists i, shape_at f fd = Some i /\ state_problem uid private (fd, i) = None).
Proof.
  unfold _validate_state_directory_fd. eapply grows_bind; [apply grows_fstat|]. intros st f1 _ (-> & Hx & Hn).
  destruct (state_problem uid private st) eqn:Hp; [apply grows_raise|]. apply grows_ret. split; [done|]. exists (shape st.2).
  unfold shape_at. rewrite Hn. split; [done|]. destruct st as [x i]. cbn in *. subst x. revert Hp. unfold state_problem.
  rewrite (proj1 shape_kinds fd i). done.
Qed.

Lemma state_private x i : state_problem uid true (x, i) = None -> is_private S_ISDIR uid 0x1C0 (x, i) = true.
Proof.
  unfold state_problem, is_private. destruct (S_ISDIR _); [|done]. destruct (st_uid _ =? uid); [|done]. by destruct (st_mode _ =? 0x1C0).
Qed.

Lemma grows_open_below create_parents parts : parts <> [] -> forall f d,
  grows f (open_below uid create_parents d parts) (fun x f' => chain f' d parts = Some x /\ private_inode S_ISDIR uid 0x1C0 f' x).
Proof.
  induction parts as [|name rest IH]; intros Hne f d; [done|]. cbn [open_below]. cbv zeta.
  eapply grows_bind; [apply grows_open_component|]. intros x f1 _ [He Hx].
  apply (grows_bind _ _ _ (fun _ f' => f' = f1 /\ (rest = [] -> private_inode S_ISDIR uid 0x1C0 f1 x))).
  - destruct (decide (rest = [])) as [->|Hrest]; [rewrite (bool_decide_true _ eq_refl) orb_true_r|rewrite (bool_decide_false (rest = []) Hrest) orb_false_r].
    + eapply grows_weaken; [apply grows_validate|]. intros [] f' _ (-> & i & Hi & Hp). split; [done|]. intros _. exists i. split; [done|].
      by apply state_private.
    + destruct create_parents; [|by apply grows_ret]. eapply grows_weaken; [apply grows_validate|]. by intros [] f' _ (-> & _).
  - intros [] f' _ [-> Hpriv]. destruct rest as [|n rest].
    + cbn [open_below]. apply grows_ret. split; [|by apply Hpriv]. apply chain_cons. by exists x.
    + eapply grows_weaken; [by apply IH|]. intros y f2 [Hg _] [Hc Hy]. split; [|done]. apply chain_cons. exists x.
      split; [by apply (gr_entry _ _ Hg)|]. split; [exact (grown_dir _ _ _ Hg Hx)|done].
Qed.

(** Where the state directory was found: below the boundary, which nobody else may
    write to if parents may be created. *)
Definition state_found (f f' : fs) (path : posix_path) (create_parents : bool) (root_boundary : option posix_path) (d : Z) : Prop :=
  exists boundary relative b i, state_location cwd path create_parents root_boundary = Ok (boundary, relative) /\
    resolve f boundary false = Ok b /\ chain f' b relative = Some d /\ private_inode S_ISDIR uid 0x1C0 f' d /\
    shape_at f b = Some i /\ (create_parents = true -> state_problem uid false (b, i) = None).

Lemma location_below path create_parents root_boundary boundary relative :
  state_location cwd path create_parents root_boundary = Ok (boundary, relative) -> relative <> [].
Proof.
  unfold state_location. cbv zeta. repeat (intros (? & ? & H)%rbind_Ok; revert H). intros [= _ <-].
  match goal with H : raise_if (bool_decide (_ = [])) _ = Ok _ |- _ => by apply raise_if_Ok, bool_decide_eq_false in H end.
Qed.

Lemma grows_state_directory f path create_parents root_boundary :
  grows f (_open_state_directory uid cwd path create_parents root_boundary)
    (fun d f' => state_found f f' path create_parents root_boundary d).
Proof.
  unfold _open_state_directory. apply (grows_bind _ _ _ (fun l f' => f' = f /\ state_location cwd path create_parents root_boundary = Ok l)).
  { destruct (state_location cwd path create_parents root_boundary) as [l|e]; [by apply (grows_ret f l)|apply (grows_raise f e)]. }
  intros [boundary relative] f0 _ [-> Hloc].
  apply (grows_bind _ _ _ (fun b f' => f' = f /\ resolve f boundary false = Ok b /\ is_dir_at f b)).
  { apply grows_catch; [|intros e f' _; unfold on_os_error; destruct (is_os_error e); apply grows_raise].
    eapply grows_weaken; [exact (grows_asks _ _ _ _ (asks_query f _))|]. intros b f' _ [-> H]. split; [done|].
    apply rbind_Ok in H as (x & Hx & H). apply rbind_Ok in H as (st & Hst & H). apply rbind_Ok in H as (v & Hd%raise_if_Ok%negb_false_iff & [= <-]).
    split; [done|]. by apply (S_ISDIR_at _ _ _ Hst). }
  intros b f1 _ (-> & Hb & Hdir).
  apply (grows_bind _ _ _ (fun _ f' => f' = f /\ exists i, shape_at f b = Some i /\ (create_parents = true -> state_problem uid false (b, i) = None))).
  { destruct create_parents.
    - eapply grows_weaken; [apply grows_validate|]. intros [] f' _ (-> & i & Hi & Hp). split; [done|]. exists i. by split.
    - apply grows_ret. split; [done|]. apply is_dir_shape in Hdir as (i & Hi & _). by exists i. }
  intros [] f2 _ (-> & i & Hi & Hp). eapply grows_weaken; [apply grows_open_below; exact (location_below _ _ _ _ _ Hloc)|].
  intros d f' _ [Hc Hd]. by exists boundary, relative, b, i.
Qed.

(** But for the inode [l]. *)
Record grown_but (l : Z) (f f' : fs) : Prop := {
  gb_root : f_root f' = f_root f;
  gb_entry : forall d n x, entry f d n = Some x -> entry f' d n = Some x;
  gb_shape : forall x i, x <> l -> shape_at f x = Some i -> shape_at f' x = Some i;
}.

Lemma chmod_but l mode f : grown_but l f (alter_node (with_mode mode) l f).
Proof.
  split; [done| |].
  - intros d n x Hx. rewrite entry_alter //. apply with_mode_entries.
  - intros x i Hne Hx. unfold shape_at. rewrite lookup_alter_node decide_False //.
Qed.
Lemma grown_but_after l f g h : grown f g -> grown_but l g h -> grown_but l f h.
Proof. intros [a1 a2 a3] [b1 b2 b3]. split; [congruence|eauto..]. Qed.

(** The lock of the store, which gets its mode whoever made it. *)
Definition lock_opened (f f' : fs) (d l : Z) : Prop := entry f' d (u ".store.lock") = Some l /\ grown_but l f f'.

Lemma lock_file_spec f d : fs_ok f ->
  triple (holds (eq f)) (_open_lock_file uid d)
    (fun l => holds (fun f' => lock_opened f f' d l /\ private_inode S_ISREG uid 0x180 f' l))
    (fun _ => holds (fun f' => grown f f' \/ exists l, lock_opened f f' d l)).
Proof.
  intros Hok. unfold _open_lock_file. eapply triple_bind.
  - eapply triple_weaken; [exact (grows_open_create f d (u ".store.lock") 0x180 Hok)|done|intros l w Hw; exact Hw|].
    intros e w [Hc [Hg _]]. split; [done|]. by left.
  - intros l. apply triple_state. intros f1 [[Hg Hok1] He].
    assert (Hmade : lock_opened f (alter_node (with_mode 0x180) l f1) d l).
    { split; [rewrite entry_alter //; apply with_mode_entries|]. exact (grown_but_after _ _ _ _ Hg (chmod_but l 0x180 f1)). }
    set (f2 := alter_node (with_mode 0x180) l f1) in *.
    apply (triple_bind _ _ _ (fun _ => holds (eq f2))).
    { eapply triple_weaken; [apply (change_holds (eq f1) _ (fun _ => eq f2))|done|done|].
      - by intros g g' [] <- (h & [= <-] & [= <-])%rbind_Ok.
      - intros e w [Hc [Hf _]]. split; [done|]. left. by rewrite -Hf. }
    intros []. apply (triple_bind _ _ _ (fun st => holds (fun g => f2 = g /\ node_at f2 l = Ok st))).
    { eapply triple_weaken; [exact (asks_query f2 (fun f => node_at f l))|done|by intros st w [[Hc Hf] H]|].
      intros e w [[Hc Hf] _]. split; [done|]. right. exists l. by rewrite -Hf. }
    intros st. apply (triple_bind _ _ _ (fun _ => holds (fun g => (f2 = g /\ node_at f2 l = Ok st) /\ is_private S_ISREG uid 0x180 st = true))).
    { apply triple_guard; [intros w [Hc Hs] Hp%negb_false_iff; by split|]. intros w [Hc [Hf _]] _. split; [done|]. right. exists l. by rewrite -Hf. }
    intros []. apply triple_ret. intros w [Hc [[Hf Hst] Hp]]. split; [done|]. rewrite -Hf. split; [done|].
    apply node_at_Ok in Hst as [Hx Hn]. exact (private_stat _ _ _ _ _ st (proj1 (proj2 shape_kinds)) Hx Hn Hp).
Qed.
End State.


Definition state_path : posix_path := parse_path (u "/home/a/.local/state/new/termrecall").
