(* ===== verification/Cleanup.v ===== *)
(** * The cleanup helper ([cleanup_private_tree.py])

    The script that removes a build or staging tree before the package is installed:
    [main], from its arguments.  Its [UnsafePath] and [Race] are the exceptions of the
    module it duplicates, [lifecycle_fs.py].  Digits are ASCII digits. *)
From S2P Require Import Prelude PyText Effect Files LifecycleFs.
#[local] Open Scope eff_scope.

(** ** Arguments *)
Definition _canonical_abs (path : pystr) : bool := is_prefix [47] path && str_eqb (normpath path) path.

Definition is_number (s : pystr) : bool := negb (bool_decide (s = [])) && forallb is_digit s.
Definition _parse_uint (text : pystr) : result Z :=
  let refused := ValueError (u "not a non-negative integer: " ++ text) in
  raise_if (bool_decide (text = []) || negb (is_number (drop_while (fun c => c =? 43) text))) refused ;?
  let? value := result_of_option (int_of_str text) refused in
  raise_if (value <? 0) refused ;?
  Ok value.

(** What the tree is expected to be. *)
Record expectation := mkExpectation {
  ex_parent_device : Z;
  ex_parent_inode : Z;
  ex_root_device : Z;
  ex_root_inode : Z;
  ex_uid : Z;
}.

(** ** The walk *)
Section Cleanup.
Context (root_device uid : Z).

(** Of another user or device. *)
Definition foreign (st : stat) : bool := negb (st_uid st =? uid) || negb (st_dev st =? root_device).
Definition same_inode (a b : stat) : bool := (st_ino a =? st_ino b) && (st_dev a =? st_dev b).
Definition unsafe_if (b : bool) : io unit := eguard b UnsafeLifecyclePath.
Definition raced_if (b : bool) : io unit := eguard b ConcurrentLifecycleChange.

Definition remove_symlink (allow_leaf_symlinks : bool) (parent_fd : Z) (name : pystr) (st : stat) : io unit :=
  unsafe_if (negb allow_leaf_symlinks) ;;
  unsafe_if (foreign st) ;;
  do! rst := os_lstat_at parent_fd name in
  raced_if (negb (S_ISLNK rst) || foreign rst) ;;
  os_unlink_at parent_fd name.

Definition remove_subdir (walk : Z -> io unit) (parent_fd : Z) (name : pystr) : io unit :=
  do! child_fd := or_unsafe (os_open_dir parent_fd name) in
  do! cst := os_fstat child_fd in
  unsafe_if (foreign cst) ;;
  do! rst := os_lstat_at parent_fd name in
  raced_if (negb (same_inode rst cst)) ;;
  walk child_fd ;;
  os_fsync child_fd ;;
  os_rmdir_at parent_fd name.

Definition unlinkable (st : stat) : bool := negb (foreign st) && (st_nlink st =? 1).
Definition remove_file (parent_fd : Z) (name : pystr) (st : stat) : io unit :=
  unsafe_if (negb (unlinkable st)) ;;
  do! fd := os_open_reg parent_fd name in
  do! fst := os_fstat fd in
  raced_if (negb (same_inode fst st)) ;;
  unsafe_if (negb (unlinkable fst)) ;;
  do! rst := os_lstat_at parent_fd name in
  raced_if (negb (same_inode rst fst)) ;;
  os_unlink_at parent_fd name ;;
  do! gone := os_fstat fd in
  raced_if (negb (st_nlink gone =? 0)).

Definition _walk_entry (walk : Z -> io unit) (parent_fd : Z) (name : pystr) (allow_leaf_symlinks : bool) : io unit :=
  do! st := os_lstat_at parent_fd name in
  if S_ISLNK st then remove_symlink allow_leaf_symlinks parent_fd name st
  else if S_ISDIR st then remove_subdir walk parent_fd name
  else if S_ISREG st then remove_file parent_fd name st
  else eraise UnsafeLifecyclePath.

(** [depth] is how deep directories may be nested before the interpreter raises
    [RecursionError]. *)
Fixpoint _walk_dir (depth : nat) (allow_leaf_symlinks : bool) (dir_fd : Z) : io unit :=
  match depth with
  | O => eraise RecursionError
  | S depth' =>
      do! names := os_listdir dir_fd in
      eforeach (fun name => _walk_entry (_walk_dir depth' allow_leaf_symlinks) dir_fd name allow_leaf_symlinks) (sorted_strs names) ;;
      os_fsync dir_fd
  end.
End Cleanup.

(** ** [main] *)
Definition _open_dir_chain (path : posix_path) : io (Z * stat) :=
  do! root := os_open_root in
  do! fd := open_chain root (path_tail path) in
  do! st := os_fstat fd in
  eret (fd, st).

Definition parent_mismatch (x : expectation) (st : stat) : bool :=
  negb (st_dev st =? ex_parent_device x) || negb (st_ino st =? ex_parent_inode x) || negb (st_uid st =? ex_uid x).
Definition root_mismatch (x : expectation) (st : stat) : bool :=
  negb (S_ISDIR st) || negb (st_dev st =? ex_root_device x) || negb (st_ino st =? ex_root_inode x) ||
  negb (st_uid st =? ex_uid x) || negb (st_mode st =? 0x1C0).

(** The tree below the parent that was opened: the exit code, or what is raised. *)
Definition cleanup_root (depth : nat) (x : expectation) (name : pystr) (parent_fd : Z) (parent_st : stat) : io Z :=
  if parent_mismatch x parent_st then eret 1
  else
    do! opened := ecatch (do! fd := os_open_dir parent_fd name in eret (Some fd)) (on_os_error (eret None)) in
    match opened with
    | None => eret 1
    | Some root_fd =>
        do! st := os_fstat root_fd in
        if root_mismatch x st then eret 1
        else
          os_listdir root_fd ;;
          _walk_dir (st_dev st) (ex_uid x) depth true root_fd ;;
          os_fsync root_fd ;;
          eret 0
    end.

(** [finally]: whatever happened, the root is removed if it is empty. *)
Definition remove_empty_root (name : pystr) (parent_fd : Z) : io unit :=
  ecatch (os_rmdir_at parent_fd name ;; os_fsync parent_fd) (on_os_error (eret tt)).

(** [except (UnsafePath, Race, OSError)] *)
Definition is_refusal (e : exn) : bool :=
  is_os_error e || match e with UnsafeLifecyclePath | ConcurrentLifecycleChange => true | _ => false end.
Definition or_retained (m : io Z) : io Z := ecatch m (fun e => if is_refusal e then eret 1 else eraise e).

Definition cleanup (depth : nat) (x : expectation) (root_path parent_path : posix_path) : io Z :=
  do! opened := ecatch (do! p := _open_dir_chain parent_path in eret (Some p)) (fun e => if is_refusal e then eret None else eraise e) in
  match opened with
  | None => eret 1
  | Some (parent_fd, parent_st) =>
      let name := path_name root_path in
      efinally (or_retained (cleanup_root depth x name parent_fd parent_st)) (remove_empty_root name parent_fd)
  end.

Definition expectation_of (numbers : list pystr) : option expectation :=
  match mapM (fun raw => match _parse_uint raw with Ok n => Some n | Err _ => None end) numbers with
  | Some [pd; pi; rd; ri; user] => Some (mkExpectation pd pi rd ri user)
  | _ => None
  end.

Definition main (depth : nat) (argv : list pystr) : io Z :=
  match argv with
  | _ :: root_path :: parent_path :: numbers =>
      match expectation_of numbers with
      | None => eret 2
      | Some x =>
          if negb (_canonical_abs root_path) || negb (_canonical_abs parent_path) then eret 2
          else if negb (str_eqb (path_str (path_parent (parse_path root_path))) parent_path) then eret 1
          else cleanup depth x (parse_path root_path) (parse_path parent_path)
      end
  | _ => eret 2
  end.
