(* ===== verification/CleanupProofs.v ===== *)
(** * The cleanup helper stays in its tree

    In calm worlds, whatever fails: nothing outside of the tree changes; and when the
    parent or the root is not the expected one, nothing changes but that an empty root
    is removed all the same. *)
From S2P Require Import Prelude PyText Contract Effect Files FilesProofs FileViews LifecycleFs LifecycleFsProofs TreeProofs Samples Cleanup.
#[local] Open Scope eff_scope.

Section Walk.
Context (f0 : fs) (G : list pystr -> Prop) (G_below : forall a b, G a -> G (a ++ b)).
Notation I := (holds (removed f0 G)).

Ltac reads := first [apply keeps_query | apply keeps_guard | apply keeps_syscall | apply keeps_raise | apply keeps_ret | apply keeps_lift].
Ltac step := apply keeps_bind; [reads|intros ?].

Lemma keeps_remove_symlink root_device uid allow d n st : under f0 G d -> keeps I (remove_symlink root_device uid allow d n st).
Proof. intros Hd. unfold remove_symlink. do 4 step. by apply keeps_unlink_covered, under_covered. Qed.

Lemma keeps_remove_file root_device uid d n st : under f0 G d -> keeps I (remove_file root_device uid d n st).
Proof.
  intros Hd. unfold remove_file. do 7 step. apply keeps_bind; [by apply keeps_unlink_covered, under_covered|intros ?]. step. reads.
Qed.

Lemma keeps_remove_subdir root_device uid walk d n : (forall x, under f0 G x -> keeps I (walk x)) -> under f0 G d ->
  keeps I (remove_subdir root_device uid walk d n).
Proof.
  intros Hwalk Hd. unfold remove_subdir. apply (keeps_open_under f0 G G_below d n); [intros; apply asks_open_unsafe|done|]. intros x Hx.
  do 4 step. apply keeps_bind; [by apply Hwalk|intros ?]. step. by apply keeps_rmdir_covered, under_covered.
Qed.

Lemma keeps_cleanup_walk root_device uid depth allow d : under f0 G d -> keeps I (Cleanup._walk_dir root_device uid depth allow d).
Proof.
  revert d. induction depth as [|depth IH]; intros d Hd; [reads|]. cbn [Cleanup._walk_dir]. step.
  apply keeps_bind; [|intros ?; reads]. apply keeps_foreach. intros n _. unfold Cleanup._walk_entry. step.
  destruct (S_ISLNK _); [by apply keeps_remove_symlink|]. destruct (S_ISDIR _); [by apply keeps_remove_subdir|].
  destruct (S_ISREG _); [by apply keeps_remove_file|reads].
Qed.

Context (root : posix_path) (root_named : path_tail root <> []) (root_removable : G (path_tail root)).

Lemma keeps_remove_empty_root d : at_parent f0 root d -> keeps I (remove_empty_root (path_name root) d).
Proof.
  intros Hd. apply keeps_catch; [|intros e; unfold on_os_error; destruct (is_os_error e); reads].
  apply keeps_bind; [by apply keeps_rmdir_covered, parent_covered|intros ?; reads].
Qed.

Lemma keeps_cleanup_root depth x d st : at_parent f0 root d -> keeps I (cleanup_root depth x (path_name root) d st).
Proof.
  intros Hd. unfold cleanup_root. destruct (parent_mismatch x st); [reads|].
  apply (keeps_learn _ _ _ (fun o => forall r, o = Some r -> under f0 G r)
    (fun f o => forall r, o = Some r -> entry f d (path_name root) = Some r /\ is_dir_at f r) (fun _ _ => True)).
  - intros f Hf. eapply asks_catch; [eapply asks_bind; [apply asks_open_dir|intros r Hr; apply asks_ret]; by intros r' [= <-]|].
    intros e _. unfold on_os_error. destruct (is_os_error e); [by apply asks_ret|by apply asks_raise].
  - intros f o Hf Ho r ->. destruct (Ho r eq_refl) as [He Hr]. exact (root_under f0 G G_below root root_named root_removable d r f Hf Hd He Hr).
  - intros [r|] Hr; [|reads]. step. destruct (root_mismatch x _); [reads|]. step.
    apply keeps_bind; [by apply keeps_cleanup_walk, Hr|intros ?]. step. reads.
Qed.

Lemma asks_open_chain_path f path : asks f (Cleanup._open_dir_chain path)
  (fun p => chain f (f_root f) (path_tail path) = Some p.1 /\ node_at f p.1 = Ok p.2) (fun _ => True).
Proof.
  unfold Cleanup._open_dir_chain. apply (asks_bind _ _ _ (fun d => d = f_root f)); [eapply asks_weaken; [apply asks_query| |done]; by intros d [= <-]|].
  intros d ->. eapply asks_bind; [eapply asks_weaken; [apply asks_open_chain|intros a Ha; exact Ha|done]|]. intros d Hd.
  eapply asks_bind; [eapply asks_weaken; [apply asks_fstat|intros a Ha; exact Ha|done]|]. intros st Hst. by apply asks_ret.
Qed.

(** What the opening of the parent tells. *)
Definition opened (f : fs) (path : posix_path) (o : option (Z * stat)) : Prop :=
  forall d st, o = Some (d, st) -> chain f (f_root f) (path_tail path) = Some d /\ node_at f d = Ok st.
Lemma asks_opened f path : asks f
  (ecatch (do! p := Cleanup._open_dir_chain path in eret (Some p)) (fun e => if is_refusal e then eret None else eraise e))
  (opened f path) (fun _ => True).
Proof.
  eapply asks_catch; [eapply asks_bind; [apply asks_open_chain_path|]|].
  - intros [d st] Hp. apply asks_ret. by intros d' st' [= <- <-].
  - intros e _. destruct (is_refusal e); [by apply asks_ret|by apply asks_raise].
Qed.

Lemma keeps_cleanup depth x : keeps I (cleanup depth x root (path_parent root)).
Proof.
  unfold cleanup. apply (keeps_learn _ _ _ (fun o => forall d st, o = Some (d, st) -> at_parent f0 root d)
    (fun f o => opened f (path_parent root) o) (fun _ _ => True)).
  - intros f Hf. apply asks_opened.
  - intros f o Hf Ho d st ->. destruct (Ho d st eq_refl) as [Hc _]. unfold at_parent. rewrite -(rm_root _ _ _ Hf). by apply (removed_chain f0 G f).
  - intros [[d st]|] Hd; [|reads]. specialize (Hd d st eq_refl). cbv zeta. apply keeps_finally; [|by apply keeps_remove_empty_root].
    apply keeps_catch; [by apply keeps_cleanup_root|]. intros e. destruct (is_refusal e); reads.
Qed.
End Walk.

(** ** Nothing goes but an empty root, when it is not the expected one *)
Section Mismatch.
Context (f0 : fs) (ok0 : fs_ok f0) (root : posix_path) (root_named : path_tail root <> []).

(** The tree that the caller of the script means. *)
Definition as_expected (x : expectation) : Prop :=
  exists d pst r st, at_parent f0 root d /\ node_at f0 d = Ok pst /\ parent_mismatch x pst = false /\
    entry f0 d (path_name root) = Some r /\ node_at f0 r = Ok st /\ root_mismatch x st = false.

(** The root may be gone, if it was empty. *)
Definition root_at_most (f : fs) : Prop :=
  f0 = f \/ exists d, at_parent f0 root d /\ rmdir_node f0 d (path_name root) = Ok f.

Lemma asks_mismatch depth x d st : ~ as_expected x -> at_parent f0 root d -> node_at f0 d = Ok st ->
  asks f0 (or_retained (cleanup_root depth x (path_name root) d st)) (fun _ => True) (fun _ => True).
Proof.
  intros Hx Hd Hst. apply (asks_catch _ _ _ _ _ (fun _ => True)); [|intros e _; destruct (is_refusal e); [by apply asks_ret|by apply asks_raise]].
  unfold cleanup_root. destruct (parent_mismatch x st) eqn:Hp; [by apply asks_ret|].
  apply (asks_bind _ _ _ (fun o => forall r, o = Some r -> entry f0 d (path_name root) = Some r)).
  - eapply asks_catch; [eapply asks_bind; [apply asks_open_dir|intros r [He _]; apply asks_ret; by intros r' [= <-]]|].
    intros e _. unfold on_os_error. destruct (is_os_error e); [by apply asks_ret|by apply asks_raise].
  - intros [r|] Hr; [|by apply asks_ret]. specialize (Hr r eq_refl).
    eapply asks_bind; [eapply asks_weaken; [apply asks_fstat|intros a Ha; exact Ha|done]|]. intros rst Hrst.
    destruct (root_mismatch x rst) eqn:Hm; [by apply asks_ret|]. destruct Hx. by exists d, st, r, rst.
Qed.

Lemma remove_at_most d : at_parent f0 root d ->
  triple (holds (eq f0)) (remove_empty_root (path_name root) d) (fun _ => holds root_at_most) (fun _ => holds root_at_most).
Proof.
  intros Hd. assert (Hstay : forall w, holds (eq f0) w -> holds root_at_most w) by (intros w [Hc Hf]; split; [done|by left]).
  unfold remove_empty_root. apply (triple_catch _ _ _ _ (fun _ => holds root_at_most)).
  - apply (triple_bind _ _ _ (fun _ => holds root_at_most)).
    + eapply triple_weaken; [apply (change_holds (eq f0) _ (fun _ => root_at_most))|done|done|].
      * intros f f' [] <- (g & Hg & [= <-])%rbind_Ok. right. by exists d.
      * intros e w [Hc [Hf _]]. apply Hstay. by split.
    + intros ?. apply keeps_syscall.
  - intros e. unfold on_os_error. destruct (is_os_error e); [by apply triple_ret|by apply triple_raise].
Qed.

Lemma cleanup_mismatch depth x : ~ as_expected x ->
  triple (holds (eq f0)) (cleanup depth x root (path_parent root)) (fun _ => holds root_at_most) (fun _ => holds root_at_most).
Proof.
  intros Hx. assert (Hstay : forall w, holds (eq f0) w -> holds root_at_most w) by (intros w [Hc Hf]; split; [done|by left]).
  unfold cleanup. eapply (triple_bind _ _ _ (fun o w => holds (eq f0) w /\ opened f0 (path_parent root) o)).
  { eapply triple_weaken; [exact (asks_opened f0 (path_parent root))|intros w Hw; exact Hw|intros o w Hw; exact Hw|]. intros e w [Hw _]. by apply Hstay. }
  intros [[d st]|]; [|by apply triple_ret; intros w [Hw _]; apply Hstay]. intros w [Hw Ho].
  destruct (Ho d st eq_refl) as [Hd Hst]. revert w Hw. cbv zeta.
  apply (triple_finally _ _ _ _ _ (fun _ => holds (eq f0)) (fun _ => holds (eq f0))).
  - eapply triple_weaken; [exact (asks_mismatch depth x d st Hx Hd Hst)|done|..]; by intros ? w [].
  - intros a. by apply remove_at_most.
  - intros e. by apply remove_at_most.
Qed.

(** Below an empty directory there is nothing to see. *)
Lemma chain_empty d parts n rest : (forall m, entry f0 d m = None) -> chain f0 d (n :: rest) = Some parts -> False.
Proof. intros He (y & Hy & _)%chain_cons. by rewrite He in Hy. Qed.

Lemma see_below_empty f x q : removed f0 (fun parts => parts = path_tail root) f ->
  chain f0 (f_root f0) (path_tail root) = Some x -> entries_of f0 x = Some ∅ ->
  path_tail q <> path_tail root -> path_tail root `prefix_of` path_tail q -> see f q = None.
Proof.
  intros Hr Hx Hempty Hne [below Hq]. assert (Hno : forall m, entry f0 x m = None) by (intros m; unfold entry; by rewrite Hempty).
  assert (Hqne : path_tail q <> []) by (rewrite Hq; by destruct (path_tail root)).
  destruct below as [|n below _] using rev_ind; [by rewrite app_nil_r in Hq|].
  pose proof (tail_split q Hqne) as Hs. rewrite Hq app_assoc in Hs. apply app_inj_tail in Hs as [Hparent Hname].
  unfold see, directory_of. destruct (chain f (f_root f) (path_tail (path_parent q))) as [z|] eqn:Hz; [|done]. cbn.
  rewrite (rm_root _ _ _ Hr) in Hz. apply (removed_chain f0 (fun parts => parts = path_tail root) f) in Hz; [|done]. rewrite -Hparent in Hz.
  apply chain_app in Hz as (x' & Hx' & Hz). rewrite Hx in Hx'. injection Hx' as <-. unfold see_at.
  destruct (entry f z (path_name q)) as [y|] eqn:Hy; [|done]. apply (rm_sub _ _ _ Hr) in Hy.
  destruct below as [|m below]; [injection Hz as <-; by rewrite Hno in Hy|]. by destruct (chain_empty x z m below Hno Hz).
Qed.

Lemma at_most_see f q : root_at_most f -> path_tail q <> [] -> path_tail q <> path_tail root -> see f q = see f0 q.
Proof.
  intros [<-|(d & Hd & Hrm)] Hq Hne; [done|]. pose proof (rmdir_ok _ _ _ _ Hrm ok0) as Hok'.
  apply rmdir_node_Ok in Hrm as (x & Hx & Hempty & Hs & He). set (G := fun parts => parts = path_tail root).
  assert (Hr : removed f0 G f).
  { exact (removed_none f0 G f0 f d (path_name root) (removed_start f0 ok0 G) (parent_covered f0 G root root_named eq_refl d Hd) Hok' Hs He). }
  assert (Hchain : chain f0 (f_root f0) (path_tail root) = Some x).
  { rewrite (tail_split root root_named). apply chain_app. exists d. split; [done|]. apply chain_cons. exists x.
    split; [done|]. split; [exact (mk_is_Some _ _ Hempty)|done]. }
  destruct (decide (path_tail root `prefix_of` path_tail q)) as [Hpre|Hpre].
  - by rewrite (see_below_empty f x q Hr Hchain Hempty Hne Hpre) (see_below_empty f0 x q (removed_start f0 ok0 G) Hchain Hempty Hne Hpre).
  - apply (removed_see f0 ok0 G f q Hr Hq). intros a Ha ->. by apply Hpre.
Qed.
End Mismatch.

(** [main] is [cleanup] of the root and its parent, or refuses at once. *)
Lemma main_cleanup depth program root_path parent_path numbers :
  (exists code, main depth (program :: root_path :: parent_path :: numbers) = eret code) \/
  exists x, expectation_of numbers = Some x /\
    main depth (program :: root_path :: parent_path :: numbers) = cleanup depth x (parse_path root_path) (path_parent (parse_path root_path)).
Proof.
  unfold main. destruct (expectation_of numbers) as [x|]; [|left; by eexists].
  destruct (negb (_canonical_abs root_path) || negb (_canonical_abs parent_path)) eqn:Hc; [left; by eexists|].
  destruct (str_eqb _ parent_path) eqn:Hp; [|left; by eexists]. apply str_eqb_eq in Hp as <-. right. exists x. split; [done|].
  cbn [negb]. f_equal. apply orb_false_iff in Hc as [[Habs _]%negb_false_iff%andb_true_iff _].
  pose proof (path_words_parent _ (parse_path_words root_path)) as Hw. pose proof (parse_path_root root_path) as Hroot.
  destruct (path_parent (parse_path root_path)) as [r tail] eqn:Hparent. apply parse_path_str; [|done].
  assert (Hr : r = path_root (parse_path root_path)) by (unfold path_parent in Hparent; by injection Hparent).
  rewrite Hr. destruct Hroot as [Hroot|Hroot]; [|done]. exfalso. revert Hroot. unfold parse_path.
  destruct root_path as [|c rest]; [done|]. cbn in Habs. destruct c as [|c|c]; try done.
  apply andb_true_iff in Habs as [Hc%Pos.eqb_eq _]. subst c.
  unfold split_root. repeat case_match; intros Hnil; simplify_eq/=.
Qed.


Definition cleanup_args (root parent : string) (parent_inode inode : string) : list pystr :=
  map u ["cleanup_private_tree.py"; root; parent; "1"; parent_inode; "1"; inode; "1000"]%string.
Definition home_cleaned (args : list pystr) : result Z * world := main 3 args (home_world [] []).
Definition shows (w : world) (p : string) : bool := bool_decide (is_Some (see (w_fs w) (parse_path (u p)))).


(** A finding: an empty directory whose inode is not the expected one is refused, and
    removed all the same. *)
Example mismatched_root_is_removed :
  let args := cleanup_args "/home/a/.local/share" "/home/a/.local" "3" "99" in
  (home_cleaned args).1 = Ok 1 /\ shows (home_world [] []) "/home/a/.local/share" = true /\
  shows (home_cleaned args).2 "/home/a/.local/share" = false.
Proof. vm_compute. repeat split. Qed.
