(* ===== verification/Chooser.v ===== *)
(** * The login chooser's setting ([cli.py])

    The file that says whether the login coordinator offers a restore: read with
    [login_chooser_enabled], written with [_write_chooser_setting].  An [OSError]
    that the code makes with a message alone is [EINVAL]. *)
From S2P Require Import Prelude PyText PyVal PyFloat Json Codec Model Effect Files Processes.
#[local] Open Scope eff_scope.

Definition MAX_CHOOSER_CONFIG_BYTES : Z := 4096.
Definition _CONFIG_NAME : pystr := u "config.json".

Section Chooser.
(** [cwd] is the working directory. *)
Context (rec_limit : nat) (uid : Z) (cwd : posix_path).

Definition bad_setting : exn := OSError EINVAL.
(** The file or directory is of this user and has exactly this mode. *)
Definition private_ (is_kind : stat -> bool) (mode : Z) (st : stat) : bool :=
  is_kind st && (st_uid st =? uid) && (st_mode st =? mode).

Definition open_component (create : bool) (d : Z) (name : pystr) : io Z :=
  ecatch (os_open_dir d name)
    (on_missing (if create then os_mkdir_at d name 0x1C0 ;; os_open_dir d name else eraise (OSError ENOENT))).

Fixpoint open_components (create : bool) (d : Z) (parts : list pystr) : io Z :=
  match parts with
  | [] => eret d
  | name :: rest => do! d' := open_component create d name in open_components create d' rest
  end.

Definition _open_config_directory (path : posix_path) (create : bool) : io Z :=
  let absolute := path_join cwd (path_str path) in
  let name := path_name absolute in
  eguard (bool_decide (name = []) || str_in name [u "."; u ".."]) bad_setting ;;
  do! root := os_open_root in
  do! parent_fd := open_components create root (path_tail (path_parent absolute)) in
  do! config_fd := open_component create parent_fd name in
  do! st := os_fstat config_fd in
  eguard (negb (private_ S_ISDIR 0x1C0 st)) bad_setting ;;
  eret config_fd.

(** The value that the file's text gives the setting. *)
Definition setting_of (payload : pyval) : bool :=
  match payload with
  | VDict d =>
      set_eqb (dict_keys d) [u "schema_version"; u "login_chooser_enabled"] &&
      py_eqb (dict_get_none d (u "schema_version")) (VInt 1) &&
      match dict_get_none d (u "login_chooser_enabled") with VBool b => b | _ => false end
  | _ => false
  end.

Definition parse_setting (raw : pybytes) : result bool :=
  let? text := utf8_decode false raw in let? payload := json_loads plain_hook rec_limit text in Ok (setting_of payload).

(** The file, once it is open. *)
Definition read_setting (file_fd : Z) : io bool :=
  do! st := os_fstat file_fd in
  if negb (private_ S_ISREG 0x180 st) then eret false
  else
    do! raw := os_read file_fd 0 (MAX_CHOOSER_CONFIG_BYTES + 1) in
    if MAX_CHOOSER_CONFIG_BYTES <? len raw then eret false else elift (parse_setting raw).

(** [except (OSError, UnicodeError, JSONDecodeError)] *)
Definition unreadable (e : exn) : bool := match e with OSError _ | UnicodeError | JSONDecodeError => true | _ => false end.

(** Nothing there is an enabled chooser; anything else that cannot be read, a disabled
    one. *)
Definition login_chooser_enabled (paths : XDGPaths) : io bool :=
  ecatch
    (do! opened := ecatch
       (do! config_fd := _open_config_directory (config_dir paths) false in
        do! file_fd := os_open_reg config_fd _CONFIG_NAME in
        eret (Some file_fd))
       (on_missing (eret None)) in
     match opened with None => eret true | Some file_fd => read_setting file_fd end)
    (fun e => if unreadable e then eret false else eraise e).

(** [json.dumps({"schema_version": 1, ...}, separators=(",", ":")).encode("utf-8") + b"\n"] *)
Definition setting_text (enabled : bool) : result pybytes :=
  let? text := json_dumps {| ensure_ascii := true; allow_nan := true |}
                 (VDict [(u "schema_version", VInt 1); (u "login_chooser_enabled", VBool enabled)]) in
  let? raw := utf8_encode text in
  Ok (raw ++ [10]).

Fixpoint write_view (fuel : nat) (fd : Z) (view : pybytes) : io unit :=
  match view, fuel with
  | [], _ | _, O => eret tt
  | _, S fuel' =>
      do! written := os_write fd view in
      eguard (written =? 0) bad_setting ;;
      write_view fuel' fd (drop (Z.to_nat written) view)
  end.

Definition fill_setting (config_fd : Z) (temporary : pystr) (payload : pybytes) : io unit :=
  do! file_fd := os_create config_fd temporary 0x180 in
  os_fchmod file_fd 0x180 ;;
  do! st := os_fstat file_fd in
  eguard (negb (private_ S_ISREG 0x180 st)) bad_setting ;;
  write_view (length payload) file_fd payload ;;
  os_fsync file_fd ;;
  os_rename config_fd temporary config_fd _CONFIG_NAME ;;
  os_fsync config_fd.

Definition _write_chooser_setting (paths : XDGPaths) (enabled : bool) : io unit :=
  do! payload := elift (setting_text enabled) in
  do! config_fd := _open_config_directory (config_dir paths) true in
  do! token := token_hex in
  let temporary := u ".config-" ++ token in
  efinally (fill_setting config_fd temporary payload)
    (ecatch (os_unlink_at config_fd temporary) (on_missing (eret tt))).
End Chooser.
