(* ===== verification/ChooserProofs.v ===== *)
(** * The login chooser's setting: what is written is what is read

    In calm worlds: after a setting was written, reading it answers that setting; if
    reading fails, it answers that the chooser is disabled. *)
From S2P Require Import Prelude PyText PyVal PyFloat Json Codec Model Contract Effect Files FilesProofs FileViews LifecycleFs.
From S2P Require Import LifecycleFsProofs Samples Processes Chooser.
#[local] Open Scope eff_scope.

(** ** Opening the directory *)
Section Opening.
Context (uid : Z) (cwd : posix_path).

Definition led (pre : list pystr) (d : Z) (f : fs) : Prop := fs_ok f /\ chain f (f_root f) pre = Some d.

Lemma open_dir_led pre d n :
  triple (holds (led pre d)) (os_open_dir d n) (fun x => holds (fun f => led (pre ++ [n]) x f)) (fun _ => holds (led pre d)).
Proof.
  apply triple_state. intros f [Hok Hpre]. eapply triple_weaken; [exact (asks_open_dir f d n)|done|..].
  - intros x w [[Hc Hf] [Hx Hd]]. split; [done|]. rewrite -Hf. split; [done|]. apply chain_app. exists d. split; [done|].
    apply chain_cons. by exists x.
  - intros e w [[Hc Hf] _]. split; [done|]. by rewrite -Hf.
Qed.

Lemma mkdir_led pre d d' n mode : keeps (holds (led pre d)) (os_mkdir_at d' n mode).
Proof.
  apply (keeps_with _ (fun w => change_ (fun f => let? '(f', _) := add_node f d' n (w_uid w) (created_mode w mode) 2 (Dir ∅) in Ok f'))).
  intros w. apply keeps_change_. intros f f' [Hok Hpre] ([g x] & Hg & [= ->])%rbind_Ok.
  assert (Hleaf : leaf_node (Dir ∅)) by reflexivity. split; [exact (add_ok _ _ _ _ _ _ _ _ _ Hleaf Hg Hok)|].
  destruct (grown_add _ _ _ _ _ _ _ _ _ Hok Hleaf Hg) as [Hgr _]. rewrite (gr_root _ _ Hgr). exact (grown_chain _ _ _ Hgr _ _ Hpre).
Qed.

Lemma open_component_led create pre d n :
  triple (holds (led pre d)) (open_component create d n) (fun x => holds (led (pre ++ [n]) x)) (fun _ => holds (led pre d)).
Proof.
  unfold open_component. eapply triple_catch; [apply open_dir_led|]. intros e. unfold on_missing. case_bool_decide; [|by apply triple_raise].
  destruct create; [|by apply triple_raise]. apply (triple_bind _ _ _ (fun _ => holds (led pre d))); [apply mkdir_led|].
  intros _. apply open_dir_led.
Qed.

Lemma open_component_ok create pre d n :
  triple (holds (led pre d)) (open_component create d n) (fun x => holds (led (pre ++ [n]) x)) (fun _ => holds fs_ok).
Proof. intros w Hw. pose proof (open_component_led create pre d n w Hw) as H. destruct (open_component _ _ _ w) as [[x|e] w']; [done|]. by destruct H as [? []]. Qed.

Lemma open_components_led create parts pre d :
  triple (holds (led pre d)) (open_components create d parts) (fun x => holds (led (pre ++ parts) x)) (fun _ => holds fs_ok).
Proof.
  revert pre d. induction parts as [|n parts IH]; intros pre d; cbn [open_components].
  { apply triple_ret. intros w. by rewrite app_nil_r. }
  eapply triple_bind; [apply open_component_ok|]. intros x. cbv beta. rewrite (app_assoc pre [n] parts). apply IH.
Qed.

(** The directory of the setting. *)
Definition setting_directory (path : posix_path) : list pystr :=
  let absolute := path_join cwd (path_str path) in path_tail (path_parent absolute) ++ [path_name absolute].

Definition bad_name (name : pystr) : bool := bool_decide (name = []) || str_in name [u "."; u ".."].
Record opened (path : posix_path) (d : Z) (f : fs) : Prop := {
  op_name : bad_name (path_name (path_join cwd (path_str path))) = false;
  op_led : led (setting_directory path) d f;
  op_private : exists i, shape_at f d = Some i /\ is_dir_node (i_node i) = true /\ i_uid i = uid /\ i_mode i = 0x1C0;
}.

Lemma private_shape f fd st is_kind mode : node_at f fd = Ok st -> private_ uid is_kind mode st = true ->
  is_kind st = true /\ exists i, shape_at f fd = Some i /\ i = shape st.2 /\ i_uid i = uid /\ i_mode i = mode.
Proof.
  intros [_ Hf]%node_at_Ok Hp. unfold private_ in Hp. rewrite !andb_true_iff in Hp. destruct Hp as [[Hk Hu%Z.eqb_eq] Hm%Z.eqb_eq].
  split; [done|]. exists (shape st.2). unfold shape_at. by rewrite Hf.
Qed.

Lemma open_config_opened path create :
  triple (holds fs_ok) (_open_config_directory uid cwd path create) (fun d => holds (opened path d)) (fun _ => holds fs_ok).
Proof.
  unfold _open_config_directory. cbv zeta. fold (bad_name (path_name (path_join cwd (path_str path)))).
  destruct (bad_name _) eqn:Hname; [by intros w|].
  apply (triple_bind _ _ _ (fun _ => holds fs_ok)); [by intros w|intros _].
  apply (triple_bind _ _ _ (fun r => holds (led [] r))).
  { apply triple_state. intros f Hok. eapply triple_weaken; [exact (asks_query f _)|done|..].
    - intros r w [[Hc Hf] [= <-]]. split; [done|]. rewrite -Hf. by split.
    - intros e w [[Hc Hf] _]. split; [done|]. by rewrite -Hf. }
  intros root. eapply triple_bind; [exact (open_components_led create _ [] root)|]. intros parent. cbn [app].
  eapply triple_bind; [apply open_component_ok|]. intros d. cbv beta. apply triple_state. intros f Hled.
  eapply triple_bind; [eapply triple_weaken; [exact (asks_fstat f d)|done|intros st w H; exact H|]|].
  { intros e w [[Hc Hf] _]. split; [done|]. rewrite -Hf. apply Hled. }
  intros st w [[Hc Hf] Hst]. cbv beta. revert w Hc Hf. intros w Hc Hf.
  destruct (private_ uid S_ISDIR 0x1C0 st) eqn:Hp; cbn.
  - split; [done|]. rewrite -Hf. split; [done|exact Hled|].
    destruct (private_shape _ _ _ _ _ Hst Hp) as (Hk & i & Hi & -> & Hu & Hm). exists (shape st.2). split; [done|].
    split; [|done]. unfold S_ISDIR in Hk. unfold shape. simpl. by destruct (i_node st.2).
  - split; [done|]. rewrite -Hf. apply Hled.
Qed.
End Opening.

(** ** Writing *)
Section Writing.
Context (uid : Z) (f0 : fs) (d : Z) (tmp : pystr) (ok0 : fs_ok f0) (tmp_other : _CONFIG_NAME <> tmp).
Notation before := (before f0 d _CONFIG_NAME tmp).
Notation staged := (staged f0 d _CONFIG_NAME tmp).
Notation made := (made f0 d _CONFIG_NAME tmp).
Notation fails := (fun (_ : exn) => holds fs_ok).

Lemma before_fine w : holds before w -> holds fs_ok w.
Proof. intros [Hc Hb]. split; [done|]. apply (bf_ok _ _ _ _ _ Hb). Qed.
Lemma made_fine (P : inode -> Prop) w : holds (fun f => exists i, P i /\ made i f) w -> holds fs_ok w.
Proof. intros [Hc (i & _ & Hm)]. split; [done|]. apply (md_ok _ _ _ _ _ _ Hm). Qed.

Lemma write_counts x data w : match os_write x data w with (Ok n, _) => 0 <= n | _ => True end.
Proof.
  unfold os_write, ebind, eget, elift, eput, eret. destruct (transfer w) as [[limit|e] w1]; [|done].
  destruct (file_data (w_fs w1) x); [|done]. unfold len. lia.
Qed.

Lemma write_view_holds x dev u m c data fuel : (length data <= fuel)%nat ->
  triple (holds (staged x (mkInode dev u m 0 (Reg c)))) (write_view fuel x data)
    (fun _ => holds (staged x (mkInode dev u m 0 (Reg (c ++ data))))) (fun _ => holds before).
Proof.
  revert c data. induction fuel as [|fuel IH]; intros c [|b data] Hl; simpl in Hl; try lia;
    try (simpl; rewrite app_nil_r; by apply triple_ret).
  cbn [write_view]. eapply (triple_bind _ _ _ (fun n w => holds (staged x (mkInode dev u m 0 (Reg (c ++ take (Z.to_nat n) (b :: data))))) w /\ 0 <= n)).
  { intros w Hw. pose proof (write_holds f0 d _CONFIG_NAME tmp tmp_other x dev u m c (b :: data) w Hw) as H.
    pose proof (write_counts x (b :: data) w) as Hn. destruct (os_write x (b :: data) w) as [[n|e] w']; [by split|done]. }
  intros n. apply (triple_bind _ _ _ (fun _ w => holds (staged x (mkInode dev u m 0 (Reg (c ++ take (Z.to_nat n) (b :: data))))) w /\ 0 < n)).
  { apply triple_guard; intros w [Hw Hn] Hz; [split; [done|]; apply Z.eqb_neq in Hz; lia|exact (staged_before _ _ _ _ _ _ _ Hw)]. }
  intros _ w [Hw Hn]. rewrite -{2}(take_drop (Z.to_nat n) (b :: data)) app_assoc.
  apply (IH (c ++ take (Z.to_nat n) (b :: data))); [|done]. rewrite length_drop. simpl. lia.
Qed.

Lemma fill_setting_holds payload :
  triple (holds before) (fill_setting uid d tmp payload)
    (fun _ => holds (fun f => exists i, new_file uid 0x180 payload i /\ made i f))
    (fun _ => holds (fun f => before f \/ exists i, new_file uid 0x180 payload i /\ made i f)).
Proof.
  unfold fill_setting.
  assert (Hb : forall w, holds before w -> holds (fun f => before f \/ exists i, new_file uid 0x180 payload i /\ made i f) w).
  { intros w [Hc H]. split; [done|by left]. }
  assert (Hst : forall x i w, holds (staged x i) w -> holds (fun f => before f \/ exists i, new_file uid 0x180 payload i /\ made i f) w).
  { intros x i w H. apply Hb. exact (staged_before _ _ _ _ _ _ _ H). }
  eapply triple_bind; [eapply triple_weaken; [exact (create_holds f0 d _CONFIG_NAME tmp ok0 tmp_other 0x180)|done|intros x w H; exact H|intros e w; apply Hb]|].
  intros x w [Hc (dev & u & m & Hs)]. assert (Hw : holds (staged x (mkInode dev u m 0 (Reg []))) w) by by split. clear Hc Hs. revert w Hw.
  eapply triple_bind; [eapply triple_weaken; [exact (fchmod_holds f0 d _CONFIG_NAME tmp x dev u m 0x180 (Reg []))|done|intros v w H; exact H|intros e w; apply Hb]|].
  intros u1. cbv beta.
  apply (triple_asks _ _ _ (fun f st => node_at f x = Ok st) _ _ (fun _ _ => True)); [intros f _; eapply asks_weaken; [apply asks_fstat|done|done]| |].
  2: { intros e f w Hs _ [Hc ->]. apply (Hst x (mkInode dev u 0x180 0 (Reg []))). by split. }
  intros st f Hs Hf. apply (triple_bind _ _ _ (fun _ => holds (staged x (mkInode dev uid 0x180 0 (Reg []))))).
  { apply triple_guard; intros w [Hc Hw] Hg; rewrite Hw in Hs; [|apply (Hst x (mkInode dev u 0x180 0 (Reg []))); by split].
    split; [done|]. rewrite Hw in Hf. apply negb_false_iff in Hg.
    destruct (private_shape uid _ _ _ _ _ Hf Hg) as (_ & i & Hi & _ & Hu & Hm).
    rewrite (st_shape _ _ _ _ _ _ _ Hs) in Hi. injection Hi as <-. cbn in Hu. by rewrite -Hu. }
  intros u2. eapply triple_bind; [eapply triple_weaken; [exact (write_view_holds x dev uid 0x180 [] payload (length payload) (le_n _))|done|intros v w H; exact H|intros e w; apply Hb]|].
  intros u3. cbv beta. cbn [app].
  apply triple_then; [apply keeps_syscall|intros u4|intros e w; apply Hst].
  apply (triple_bind _ _ _ (fun _ => holds (fun f => exists i, new_file uid 0x180 payload i /\ made i f))).
  - eapply triple_weaken; [apply (change_holds (staged x (mkInode dev uid 0x180 0 (Reg payload))) _ (fun _ f => exists i, new_file uid 0x180 payload i /\ made i f))|done|done|].
    + intros f1 f2 [] Hs1 (g & Hg & [= <-])%rbind_Ok. exists (mkInode dev uid 0x180 0 (Reg payload)). split; [by exists dev|].
      exact (rename_made f0 d _CONFIG_NAME tmp ok0 _ _ _ _ Hs1 Hg).
    + intros e w [Hc [Hs1 _]]. apply (Hst x (mkInode dev uid 0x180 0 (Reg payload))). by split.
  - intros u5. eapply triple_weaken; [exact (keeps_syscall (fun f => exists i, new_file uid 0x180 payload i /\ made i f))|done|done|].
    intros e w [Hc H]. split; [done|by right].
Qed.

(** The cleanup changes nothing that counts. *)
Lemma unlink_tmp_made i f f' : made i f -> unlink_node f d tmp = Ok f' -> made i f'.
Proof.
  intros [Hok Ht Hs] H. pose proof (unlink_ok _ _ _ _ H Hok) as Hok'. apply unlink_node_Ok in H as (x & Hx & Hnd & Hsame & He).
  split; [done| |].
  - apply (touched_trans d [_CONFIG_NAME; tmp] f0 f f' Ht). apply (touched_same _ _ _ _ Hsame).
    + intros y n Hn. rewrite He decide_False //. intros [-> ->]. apply Hn. split; [done|]. by right; left.
    + intros n y Hy. rewrite He. case_decide as E; [|done]. destruct E as [_ ->]. rewrite Hx. split; [by intros [= <-]|done].
  - unfold see_at in *. rewrite He decide_False; [by intros [_ ?]|]. destruct (entry f d _CONFIG_NAME); [|done].
    simpl in *. by rewrite (same_shape _ _ Hsame).
Qed.

Lemma cleanup_keeps (P : fs -> Prop) : (forall f f', P f -> unlink_node f d tmp = Ok f' -> P f') ->
  keeps (holds P) (ecatch (os_unlink_at d tmp) (on_missing (eret tt))).
Proof.
  intros H. apply keeps_catch; [by apply keeps_change_|]. intros e. unfold on_missing. case_bool_decide; [apply keeps_ret|apply keeps_raise].
Qed.

Lemma write_setting_holds payload :
  triple (holds before) (efinally (fill_setting uid d tmp payload) (ecatch (os_unlink_at d tmp) (on_missing (eret tt))))
    (fun _ => holds (fun f => exists i, new_file uid 0x180 payload i /\ made i f))
    (fun _ => holds (fun f => before f \/ exists i, new_file uid 0x180 payload i /\ made i f)).
Proof.
  assert (Hmade : forall f f', (exists i, new_file uid 0x180 payload i /\ made i f) -> unlink_node f d tmp = Ok f' ->
    exists i, new_file uid 0x180 payload i /\ made i f').
  { intros f f' (i & Hi & Hm) H. exists i. split; [done|]. exact (unlink_tmp_made _ _ _ Hm H). }
  eapply triple_finally; [apply fill_setting_holds|..].
  - intros u1. eapply triple_weaken; [exact (cleanup_keeps _ Hmade)|done|done|]. intros e w [Hc H]. split; [done|by right].
  - intros e. apply (cleanup_keeps (fun f => before f \/ exists i, new_file uid 0x180 payload i /\ made i f)).
    intros f f' [Hb|Hm] H; [left; exact (unlink_tmp_before f0 d _CONFIG_NAME tmp tmp_other _ _ Hb H)|right; exact (Hmade _ _ Hm H)].
Qed.
End Writing.

(** ** Reading *)

(** The setting is the one on the disk. *)
Record setting_shown (uid : Z) (cwd : posix_path) (path : posix_path) (enabled : bool) (f : fs) : Prop := {
  ss_ok : fs_ok f;
  ss_text : exists d text dev, opened uid cwd path d f /\ setting_text enabled = Ok text /\
    see_at f d _CONFIG_NAME = Some (mkInode dev uid 0x180 0 (Reg text));
}.

Section Reading.
Context (rec_limit : nat) (Hrec : (16 <= rec_limit)%nat) (uid : Z) (cwd : posix_path).

Lemma setting_text_Ok enabled : exists text, setting_text enabled = Ok text.
Proof. destruct enabled; vm_compute; by eexists. Qed.

Lemma write_shows paths enabled :
  triple (holds fs_ok) (_write_chooser_setting uid cwd paths enabled) (fun _ => holds (setting_shown uid cwd (config_dir paths) enabled))
    (fun _ => holds fs_ok).
Proof.
  destruct (setting_text_Ok enabled) as [text Htext]. unfold _write_chooser_setting. rewrite Htext.
  apply (triple_bind _ _ _ (fun payload w => holds fs_ok w /\ payload = text)); [apply triple_lift; [by intros w a Hw [= <-]|done]|].
  intros payload w [Hw ->]. revert w Hw. eapply triple_bind; [apply open_config_opened|]. intros d. cbv beta.
  apply triple_state. intros f0 Hopen. pose proof (op_led _ _ _ _ _ Hopen) as [Hok Hchain].
  intros w [Hc Hw]. unfold ebind, token_hex. cbv zeta.
  set (tmp := u ".config-" ++ _). set (w' := mkWorld _ _ _ _ _).
  assert (Hne : _CONFIG_NAME <> tmp) by (intros E; discriminate E).
  assert (Hw' : holds (before f0 d _CONFIG_NAME tmp) w').
  { split; [exact (proj1 (keeps_token (eq f0) w (conj Hc Hw)))|]. rewrite /= -Hw. by apply before_start. }
  pose proof (write_setting_holds uid f0 d tmp Hok Hne text w' Hw') as H.
  destruct (efinally _ _ w') as [[u1|e] w2]; destruct H as [Hc2 H]; (split; [done|]).
  - destruct H as (i & (dev & ->) & Hm). pose proof Hm as [Hok2 Ht Hs]. split; [done|]. exists d, text, dev.
    split; [|split; [done|exact Hs]]. split.
    + apply (op_name _ _ _ _ _ Hopen).
    + split; [done|]. by rewrite (touched_chain _ _ _ _ Ht) (t_root _ _ _ _ Ht).
    + destruct (op_private _ _ _ _ _ Hopen) as (i & Hi & Hp). exists i. split; [by apply (t_shape _ _ _ _ Ht)|done].
  - destruct H as [Hb|(i & _ & Hm)]; [apply (bf_ok _ _ _ _ _ Hb)|apply (md_ok _ _ _ _ _ _ Hm)].
Qed.

Lemma asks_component f d n x : entry f d n = Some x ->
  asks f (open_component false d n) (fun y => y = x) (fun e => e <> OSError ENOENT).
Proof.
  intros Hx. unfold open_component. eapply asks_catch.
  - eapply asks_weaken; [apply asks_open_dir| |intros e He; exact He]. intros y [Hy _]. congruence.
  - intros e He. unfold on_missing. case_bool_decide as E; [|by apply asks_raise]. specialize (He E). congruence.
Qed.

Lemma asks_components f d parts z : chain f d parts = Some z ->
  asks f (open_components false d parts) (fun y => y = z) (fun e => e <> OSError ENOENT).
Proof.
  revert d. induction parts as [|n parts IH]; intros d H; [injection H as <-; by apply asks_ret|].
  apply chain_cons in H as (x & Hx & _ & Hz). cbn [open_components]. eapply asks_bind; [exact (asks_component f d n x Hx)|].
  intros y ->. by apply IH.
Qed.

Lemma asks_open_config f path d : opened uid cwd path d f ->
  asks f (_open_config_directory uid cwd path false) (fun y => y = d) (fun e => e <> OSError ENOENT).
Proof.
  intros [_ [Hok Hchain] _]. unfold _open_config_directory. cbv zeta. apply chain_app in Hchain as (p & Hp & Hd).
  apply chain_cons in Hd as (x & Hx & _ & [= ->]).
  apply (asks_bind _ _ _ (fun _ => True)); [by apply asks_guard|]. intros _ _.
  apply (asks_bind _ _ _ (fun r => r = f_root f)).
  { eapply asks_weaken; [apply asks_query|by intros r [= ->]|]. intros e [H|H] ->; [done|]. by unfold fault_of in H. }
  intros r ->. eapply asks_bind; [exact (asks_components f _ _ p Hp)|]. intros y ->.
  eapply asks_bind; [exact (asks_component f p _ d Hx)|]. intros y ->.
  apply (asks_bind _ _ _ (fun _ => True)); [eapply asks_weaken; [apply asks_fstat|done|done]|]. intros st _.
  apply (asks_bind _ _ _ (fun _ => True)); [by apply asks_guard|]. intros _ _. by apply asks_ret.
Qed.

(** However little of the text arrives. *)
Lemma parse_prefix enabled text k : setting_text enabled = Ok text ->
  match parse_setting rec_limit (take k text) with
  | Ok b => b = enabled \/ b = false
  | Err e => unreadable e = true
  end.
Proof.
  intros Htext.
  assert (H : forall j, (j <= 60)%nat -> match parse_setting rec_limit (take j text) with
    | Ok b => b = enabled \/ b = false | Err e => unreadable e = true end).
  { rewrite (_ : rec_limit = 16 + (rec_limit - 16))%nat; [lia|]. generalize (rec_limit - 16)%nat. intros r j Hj.
    assert (Hall : forallb (fun j => match parse_setting (16 + r)%nat (take j text) with
      | Ok b => implb b enabled | Err e => unreadable e end) (seq 0 61) = true).
    { destruct enabled; vm_compute in Htext; injection Htext as <-; vm_compute; reflexivity. }
    rewrite forallb_forall in Hall. specialize (Hall j ltac:(apply in_seq; lia)).
    destruct (parse_setting _ _) as [b|e]; [|done]. destruct b, enabled; auto. }
  destruct (le_lt_dec k 60) as [Hk|Hk]; [by apply H|].
  assert (Hl : (length text <= 60)%nat) by (destruct enabled; vm_compute in Htext; injection Htext as <-; vm_compute; lia).
  rewrite take_ge; [lia|]. specialize (H 60%nat (le_n _)). by rewrite take_ge in H.
Qed.

(** System calls raise nothing but [OSError]. *)
Definition os_only {A} (m : io A) : Prop := forall w, match m w with (Err e, _) => is_os_error e = true | _ => True end.

Lemma transfer_os : os_only transfer.
Proof. intros w. unfold transfer. by destruct (w_script w) as [|[] ?]. Qed.
Lemma fstat_os fd : os_only (os_fstat fd).
Proof.
  intros w. unfold os_fstat, query, syscall, ebind, eget, elift, eret. pose proof (transfer_os w) as H.
  destruct (transfer w) as [[a|e] w']; [|done]. unfold node_at. by destruct (f_nodes (w_fs w') !! fd).
Qed.
Lemma read_os fd offset n : os_only (os_read fd offset n).
Proof.
  intros w. unfold os_read, ebind, eget, elift, eret. pose proof (transfer_os w) as H.
  destruct (transfer w) as [[a|e] w']; [|done]. unfold file_data.
  destruct (f_nodes (w_fs w') !! fd) as [[dev u m l []]|]; done.
Qed.

Lemma asks_os {A} f (m : io A) Q E : asks f m Q E -> os_only m -> asks f m Q (fun e => unreadable e = true).
Proof.
  intros Hm Hos w Hw. specialize (Hm w Hw). specialize (Hos w). destruct (m w) as [[a|e] w']; [done|].
  destruct Hm as [Hw' _]. split; [done|]. by destruct e.
Qed.

Lemma asks_read_setting f x dev enabled text : shape_at f x = Some (mkInode dev uid 0x180 0 (Reg text)) ->
  setting_text enabled = Ok text ->
  asks f (read_setting rec_limit uid x) (fun b => b = enabled \/ b = false) (fun e => unreadable e = true).
Proof.
  intros Hs Htext. unfold read_setting.
  eapply asks_bind; [exact (asks_os _ _ _ _ (asks_fstat f x) (fstat_os x))|]. intros st [_ Hst]%node_at_Ok.
  pose proof Hs as Hs'. unfold shape_at in Hs'. rewrite Hst in Hs'. injection Hs' as Hdev Hu Hm Hn.
  destruct (negb (private_ uid S_ISREG 0x180 st)); [apply asks_ret; by right|].
  assert (Hd : file_data f x = Ok text).
  { unfold file_data. rewrite Hst. destruct (st.2) as [? ? ? ? []]; simpl in Hn; congruence. }
  eapply asks_bind; [exact (asks_os _ _ _ _ (asks_read f x 0 (MAX_CHOOSER_CONFIG_BYTES + 1) text Hd) (read_os _ _ _))|].
  intros raw [k ->]. assert (Htake : exists j, take k (take (Z.to_nat (MAX_CHOOSER_CONFIG_BYTES + 1)) (drop (Z.to_nat 0) text)) = take j text).
  { exists (k `min` Z.to_nat (MAX_CHOOSER_CONFIG_BYTES + 1))%nat. by rewrite take_take. }
  destruct Htake as [j ->]. destruct (MAX_CHOOSER_CONFIG_BYTES <? len (take j text)); [apply asks_ret; by right|].
  pose proof (parse_prefix enabled text j Htext) as Hp. apply asks_lift; intros ? E; by rewrite E in Hp.
Qed.

(** Opening the directory fails with [OSError] alone. *)
Lemma os_only_bind {A B} (m : io A) (k : A -> io B) : os_only m -> (forall a, os_only (k a)) -> os_only (ebind m k).
Proof.
  intros Hm Hk w. unfold ebind. specialize (Hm w). destruct (m w) as [[a|e] w']; [apply Hk|exact Hm].
Qed.
Lemma os_only_catch {A} (m : io A) h : os_only m -> (forall e, is_os_error e = true -> os_only (h e)) -> os_only (ecatch m h).
Proof. intros Hm Hh w. unfold ecatch. specialize (Hm w). destruct (m w) as [[a|e] w']; [done|by apply Hh]. Qed.
Lemma os_only_ret {A} (a : A) : os_only (eret a).
Proof. by intros w. Qed.
Lemma os_only_raise {A} e : is_os_error e = true -> os_only (eraise (A:=A) e).
Proof. by intros H w. Qed.
Lemma os_only_guard b e : is_os_error e = true -> os_only (eguard b e).
Proof. intros H w. unfold eguard. by destruct b. Qed.
Lemma os_only_query {A} (q : fs -> result A) : (forall f, match q f with Err e => is_os_error e = true | _ => True end) -> os_only (query q).
Proof.
  intros H w. unfold query, syscall, ebind, eget, elift, eret. pose proof (transfer_os w) as Ht.
  destruct (transfer w) as [[a|e] w']; [|exact Ht]. specialize (H (w_fs w')). by destruct (q (w_fs w')).
Qed.
Lemma lookup_os f d n : match lookup_at f d n with Err e => is_os_error e = true | _ => True end.
Proof.
  unfold lookup_at, entries_of. destruct (f_nodes f !! d) as [[? ? ? ? []]|]; simpl; try done. by destruct (_ !! n).
Qed.
Lemma open_named_os d n (b : stat -> bool) e : is_os_error e = true ->
  os_only (query (fun f => let? x := lookup_at f d n in let? st := node_at f x in raise_if (b st) e ;? Ok x)).
Proof.
  intros He. apply os_only_query. intros f. pose proof (lookup_os f d n) as Hl. destruct (lookup_at f d n) as [x|]; [|done]. simpl.
  unfold node_at. destruct (f_nodes f !! x); [|done]. simpl. unfold raise_if. by destruct (b _).
Qed.
Lemma open_component_os d n : os_only (open_component false d n).
Proof.
  apply os_only_catch; [by apply open_named_os|]. intros e He. unfold on_missing. case_bool_decide; by apply os_only_raise.
Qed.
Lemma open_components_os d parts : os_only (open_components false d parts).
Proof.
  revert d. induction parts as [|n parts IH]; intros d; [apply os_only_ret|]. apply os_only_bind; [apply open_component_os|done].
Qed.
Lemma open_config_os path : os_only (_open_config_directory uid cwd path false).
Proof.
  unfold _open_config_directory. cbv zeta. apply os_only_bind; [by apply os_only_guard|intros _].
  apply os_only_bind; [by apply os_only_query|intros r]. apply os_only_bind; [apply open_components_os|intros p].
  apply os_only_bind; [apply open_component_os|intros c]. apply os_only_bind; [apply fstat_os|intros st].
  apply os_only_bind; [by apply os_only_guard|intros _]. apply os_only_ret.
Qed.

Lemma asks_and_os {A} f (m : io A) Q E : asks f m Q E -> os_only m -> asks f m Q (fun e => E e /\ is_os_error e = true).
Proof.
  intros Hm Hos w Hw. specialize (Hm w Hw). specialize (Hos w). destruct (m w) as [[a|e] w']; [done|].
  destruct Hm as [Hw' He]. by split.
Qed.

Lemma asks_open_setting f d x : entry f d _CONFIG_NAME = Some x ->
  asks f (os_open_reg d _CONFIG_NAME) (fun y => y = x) (fun e => e <> OSError ENOENT).
Proof.
  intros Hx. eapply asks_weaken; [apply asks_query|..].
  - intros y (z & Hz%lookup_at_Ok & H)%rbind_Ok. apply rbind_Ok in H as (st & _ & H). apply rbind_Ok in H as (? & _ & [= <-]). congruence.
  - intros e [H|H] ->; [|done]. apply rbind_Err in H as [H|(z & _ & H)].
    + apply lookup_at_Ok in Hx. congruence.
    + apply rbind_Err in H as [H|(st & _ & H)]; [unfold node_at in H; by destruct (f_nodes f !! z)|].
      apply rbind_Err in H as [[_ H]%raise_if_Err|(v & _ & H)]; done.
Qed.

Lemma asks_chooser f paths enabled : setting_shown uid cwd (config_dir paths) enabled f ->
  asks f (login_chooser_enabled rec_limit uid cwd paths) (fun b => b = enabled \/ b = false) (fun _ => False).
Proof.
  intros [Hok (d & text & dev & Hopen & Htext & Hsee)]. unfold login_chooser_enabled.
  unfold see_at in Hsee. destruct (entry f d _CONFIG_NAME) as [x|] eqn:Hx; [|done]. simpl in Hsee.
  apply (asks_catch _ _ _ _ _ (fun e => unreadable e = true)).
  - apply (asks_bind _ _ _ (fun o => o = Some x)).
    + apply (asks_catch _ _ _ _ _ (fun e => e <> OSError ENOENT /\ is_os_error e = true)).
      * eapply asks_bind; [exact (asks_and_os _ _ _ _ (asks_open_config f _ d Hopen) (open_config_os _))|]. intros y ->.
        eapply asks_bind; [exact (asks_and_os _ _ _ _ (asks_open_setting f d x Hx) (open_named_os _ _ _ (OSError ELOOP) eq_refl))|].
        intros y ->. by apply asks_ret.
      * intros e [He Ho]. unfold on_missing. case_bool_decide; [done|]. apply asks_raise. by destruct e.
    + intros o ->. exact (asks_read_setting f x dev enabled text Hsee Htext).
  - intros e ->. apply asks_ret. by right.
Qed.

(** Without a fault, the setting itself is answered. *)
Lemma setting_reads enabled text : setting_text enabled = Ok text -> parse_setting rec_limit text = Ok enabled /\ (length text <= 60)%nat.
Proof.
  rewrite (_ : rec_limit = 16 + (rec_limit - 16))%nat; [lia|]. generalize (rec_limit - 16)%nat. intros r.
  destruct enabled; intros H; vm_compute in H; injection H as <-; (split; [reflexivity|vm_compute; lia]).
Qed.

(** A world in which no call is disturbed. *)
Definition still {A} (m : io A) (a : A) (f : fs) : Prop := forall w, w_fs w = f -> w_script w = [] -> m w = (Ok a, w).
Lemma still_ret {A} (a : A) f : still (eret a) a f.
Proof. done. Qed.
Lemma still_bind {A B} (m : io A) (k : A -> io B) a b f : still m a f -> still (k a) b f -> still (ebind m k) b f.
Proof. intros Hm Hk w Hw Hs. unfold ebind. rewrite (Hm w Hw Hs). by apply Hk. Qed.
Lemma still_catch {A} (m : io A) h a f : still m a f -> still (ecatch m h) a f.
Proof. intros Hm w Hw Hs. unfold ecatch. by rewrite (Hm w Hw Hs). Qed.
Lemma still_query {A} (q : fs -> result A) a f : q f = Ok a -> still (query q) a f.
Proof.
  intros Hq w Hw Hs. unfold query, syscall, transfer, ebind, eget, elift, eret. rewrite Hs Hw Hq. done.
Qed.
Lemma still_lift {A} (r : result A) a f : r = Ok a -> still (elift r) a f.
Proof. by intros -> w. Qed.
Lemma still_guard b e f : b = false -> still (eguard b e) tt f.
Proof. by intros -> w. Qed.

Lemma still_component f d n x : entry f d n = Some x -> is_dir_at f x -> still (open_component false d n) x f.
Proof.
  intros Hx [e He]. apply still_catch, still_query. rewrite (proj2 (lookup_at_Ok f d n x) Hx) /=.
  revert He. unfold entries_of, node_at.
  destruct (f_nodes f !! x) as [[? ? ? ? []]|]; intros He; first [discriminate He|reflexivity].
Qed.
Lemma still_components f d parts z : chain f d parts = Some z -> still (open_components false d parts) z f.
Proof.
  revert d. induction parts as [|n parts IH]; intros d H; [injection H as <-; done|].
  apply chain_cons in H as (x & Hx & Hd & Hz). eapply still_bind; [exact (still_component f d n x Hx Hd)|]. exact (IH x Hz).
Qed.
Lemma still_stat f x i : shape_at f x = Some i -> exists j, f_nodes f !! x = Some j /\ shape j = i.
Proof. unfold shape_at. destruct (f_nodes f !! x) as [j|]; [|done]. intros [= <-]. by exists j. Qed.
Lemma still_fstat f x i : f_nodes f !! x = Some i -> still (os_fstat x) (x, i) f.
Proof. intros H. apply still_query. unfold node_at. by rewrite H. Qed.

Lemma still_open_config f path d : opened uid cwd path d f -> still (_open_config_directory uid cwd path false) d f.
Proof.
  intros [Hname [Hok Hchain] (i & Hi & Hdir & Hu & Hm)]. unfold _open_config_directory. cbv zeta.
  apply chain_app in Hchain as (p & Hp & Hd). apply chain_cons in Hd as (x & Hx & Hdx & [= ->]).
  apply (still_bind _ _ tt); [by apply still_guard|]. eapply still_bind; [by apply still_query|].
  eapply still_bind; [exact (still_components f _ _ p Hp)|]. eapply still_bind; [exact (still_component f p _ d Hx Hdx)|].
  destruct (still_stat _ _ _ Hi) as [[dev u m l n] [Hl <-]]. eapply still_bind; [exact (still_fstat _ _ _ Hl)|].
  apply (still_bind _ _ tt); [|apply still_ret]. apply still_guard. cbn in Hu, Hm, Hdir. subst u m.
  unfold private_, S_ISDIR, st_uid, st_mode. cbn [snd i_node i_uid i_mode]. rewrite !Z.eqb_refl. by destruct n.
Qed.

Lemma still_chooser f paths enabled : setting_shown uid cwd (config_dir paths) enabled f ->
  still (login_chooser_enabled rec_limit uid cwd paths) enabled f.
Proof.
  intros [Hok (d & text & dev & Hopen & Htext & Hsee)]. unfold login_chooser_enabled.
  unfold see_at in Hsee. destruct (entry f d _CONFIG_NAME) as [x|] eqn:Hx; [|done]. simpl in Hsee.
  destruct (still_stat _ _ _ Hsee) as [[dev' u m l n] [Hl Hshape]].
  assert (n = Reg text /\ u = uid /\ m = 0x180) as (-> & -> & ->) by (unfold shape in Hshape; cbn in Hshape; destruct n; try discriminate Hshape; injection Hshape as _ -> -> ->; done).
  destruct (setting_reads _ _ Htext) as [Hparse Hlen].
  apply still_catch. apply (still_bind _ _ (Some x)).
  - apply still_catch. eapply still_bind; [exact (still_open_config f _ d Hopen)|]. eapply still_bind; [|apply still_ret].
    apply still_query. rewrite (proj2 (lookup_at_Ok f d _CONFIG_NAME x) Hx) /=. unfold node_at. by rewrite Hl.
  - unfold read_setting. eapply still_bind; [exact (still_fstat _ _ _ Hl)|].
    unfold private_, S_ISREG, st_uid, st_mode. simpl. rewrite Z.eqb_refl. simpl.
    apply (still_bind _ _ text).
    { intros w Hw Hs. unfold os_read, transfer, ebind, eget, elift, eret. rewrite Hs Hw. unfold file_data. rewrite Hl. simpl.
      rewrite take_ge //. unfold MAX_CHOOSER_CONFIG_BYTES. rewrite drop_0. lia. }
    destruct (Z.ltb_spec MAX_CHOOSER_CONFIG_BYTES (len text)) as [Hlt|_]; [|by apply still_lift].
    exfalso. unfold len, MAX_CHOOSER_CONFIG_BYTES in Hlt. lia.
Qed.
End Reading.

(** The login chooser's setting: when writing it returned, any later reading, while
    the file system is the same and whichever of its system calls fail or deliver less,
    answers that setting or that the chooser is disabled, and never raises; with no such
    disturbance it answers exactly the setting.  When writing raised, the file system is
    still well-formed. *)
Theorem chooser_setting_read_back rec_limit uid cwd paths enabled w : (16 <= rec_limit)%nat -> holds fs_ok w ->
  match _write_chooser_setting uid cwd paths enabled w with
  | (Ok _, w1) =>
      forall w2, holds (eq (w_fs w1)) w2 ->
        match login_chooser_enabled rec_limit uid cwd paths w2 with
        | (Ok b, w3) => (b = enabled \/ b = false) /\ (w_script w2 = [] -> b = enabled) /\ w_fs w3 = w_fs w1
        | (Err _, _) => False
        end
  | (Err _, w1) => fs_ok (w_fs w1)
  end.
Proof.
  intros Hrec Hw. pose proof (write_shows uid cwd paths enabled w Hw) as H.
  destruct (_write_chooser_setting uid cwd paths enabled w) as [[u1|e] w1]; [|apply H]. destruct H as [_ Hshown].
  intros w2 Hw2. pose proof (asks_chooser rec_limit Hrec uid cwd _ paths enabled Hshown w2 Hw2) as Ha.
  pose proof (fun Hs => still_chooser rec_limit Hrec uid cwd _ paths enabled Hshown w2 (eq_sym (proj2 Hw2)) Hs) as Hstill.
  destruct (login_chooser_enabled rec_limit uid cwd paths w2) as [[b|e] w3]; [|by destruct Ha].
  destruct Ha as [[_ Hf] Hb]. split; [done|]. split; [|done]. intros Hs. by injection (Hstill Hs).
Qed.


Definition chooser_paths : XDGPaths := mkXDG (mkPath [] []) (mkPath [] []) (parse_path (u "/home/a/.config/termrecall")).
(** The write delivers the text in three pieces. *)
Definition chooser_world : world := home_world (repeat Serves 9 ++ [Transfers 5; Transfers 7]) [u "a1"].
Definition root_dir : posix_path := parse_path (u "/").
Definition chooser_written : world := (_write_chooser_setting 1000 root_dir chooser_paths false chooser_world).2.
Definition with_script (w : world) (script : list kernel) : world := mkWorld (w_fs w) (w_uid w) (w_umask w) script [].

Lemma chooser_setting_read_back_witness :
  (_write_chooser_setting 1000 root_dir chooser_paths false chooser_world).1 = Ok tt /\
  (login_chooser_enabled 16 1000 root_dir chooser_paths (with_script chooser_written [])).1 = Ok false /\
  (login_chooser_enabled 16 1000 root_dir chooser_paths (with_script chooser_written (repeat Serves 7 ++ [Fails EIO]))).1 = Ok false.
Proof.
  assert (Hw : holds fs_ok chooser_world) by (split; [by apply calm_home|apply home_fs_ok]).
  pose proof (chooser_setting_read_back 16 1000 root_dir chooser_paths false chooser_world (le_n _) Hw) as H.
  assert (Hrun : (_write_chooser_setting 1000 root_dir chooser_paths false chooser_world).1 = Ok tt) by (vm_compute; reflexivity).
  unfold chooser_written. revert H Hrun. generalize (_write_chooser_setting 1000 root_dir chooser_paths false chooser_world).
  intros [r w1] H Hr. simpl in Hr. subst r. split; [reflexivity|]. simpl.
  assert (Hcalm : forall script, forallb calm_stepb script = true -> holds (eq (w_fs w1)) (with_script w1 script)).
  { intros script Hs. split; [|reflexivity]. destruct (calm_home script [] Hs eq_refl) as [Hscript Htok]. split; [exact Hscript|exact Htok]. }
  split.
  - pose proof (H _ (Hcalm [] eq_refl)) as Hread. destruct (login_chooser_enabled _ _ _ _ _) as [[b|e] w3]; [|done].
    simpl. by rewrite (proj1 (proj2 Hread) eq_refl).
  - pose proof (H _ (Hcalm (repeat Serves 7 ++ [Fails EIO]) eq_refl)) as Hread.
    destruct (login_chooser_enabled _ _ _ _ _) as [[b|e] w3]; [|done]. simpl. destruct Hread as [[->| ->] _]; reflexivity.
Defined.
