(* ===== verification/Backends.v ===== *)
(** * Restore candidates ([backends.py])

    The sessions that a restore can offer: from the stores of the agent tools, or from
    the items that the service captured.  The clock and [datetime] are [elapsed]: the
    microseconds since a time stamp, if it is one that has a zone.  The quotients are
    exact below a hundred years; beyond, a time within a microsecond of a whole day may
    be rounded up by the code. *)
From S2P Require Import Prelude PyText PyVal PyFloat Json Codec Model Shlex Classifier Protocol Effect Resume Recovery Sessions.
#[local] Open Scope eff_scope.

(** The caches of the process: what [--help] printed, and the listing of a home. *)
Record lookups := mkLookups { lk_help : probe_cache; lk_listing : session_cache }.

Inductive Backend := AUTO | CAPTURE | TIMESTAMP.

Record RestoreCandidate := mkCandidate {
  cd_item_id : pystr;
  cd_tool : pystr;
  cd_session_id : pystr;
  cd_cwd : pystr;
  cd_summary : pystr;
  cd_first_activity : pystr;
  cd_last_activity : pystr;
  cd_resume_command : pystr;
  cd_source : pystr;
}.

(** [except Exception] *)
Definition is_exception (e : exn) : bool := match e with KeyboardInterrupt => false | _ => true end.

Section Backends.
Context `{Unicode} (repr_container : pyval -> pystr) (casefold : pystr -> pystr) (uc_digit : Z -> bool) (rec_limit : nat).
Context (which : pystr -> option pystr) (run_help : pystr -> result (pystr * pystr)) (elapsed : pystr -> option Z) (home : Home).

Definition relative_time (ts : pystr) : pystr :=
  if bool_decide (ts = []) then u "unknown"
  else
    match elapsed ts with
    | None => u "unknown"
    | Some micros =>
        let secs := micros / 1000000 in
        let ago n unit := str_of_int n ++ unit in
        if micros <? 0 then u "just now"
        else if secs <? 60 then ago secs (u "s ago")
        else if secs <? 3600 then ago (secs / 60) (u "m ago")
        else if secs <? 86400 then ago (secs / 3600) (u "h ago")
        else ago (secs / 86400) (u "d ago")
    end.

(** [find_resume_adapter], with the cache of the process. *)
Definition find_adapter (executable : pystr) : eff lookups (option ResumeMatch) := fun l =>
  match find_resume_adapter which run_help (lk_help l) executable with
  | Ok (m, cache) => (Ok m, mkLookups cache (lk_listing l))
  | Err e => (Err e, l)
  end.

Definition resume_text (m : ResumeMatch) (session : pystr) : result pystr :=
  let? words := build_resume_argv m (Some session) in Ok (join (u " ") words).

Definition _resume_command_for (tool session : pystr) : eff lookups pystr :=
  ecatch (do! found := find_adapter tool in
          match found with None => eret [] | Some m => elift (resume_text m session) end)
    (fun e => if is_exception e then eret [] else eraise e).

Definition same_group (a b : SessionRecord) : bool := str_eqb (tool a) (tool b) && str_eqb (session_cwd a) (session_cwd b).

(** [by_group.setdefault((rec.tool, rec.cwd), []).append(rec)] *)
Fixpoint add_to_group (r : SessionRecord) (groups : list (list SessionRecord)) : list (list SessionRecord) :=
  match groups with
  | [] => [[r]]
  | g :: rest => if existsb (same_group r) g then (g ++ [r]) :: rest else g :: add_to_group r rest
  end.
Definition by_group (records : list SessionRecord) : list (list SessionRecord) :=
  foldl (fun groups r => if bool_decide (session_cwd r = []) then groups else add_to_group r groups) [] records.

Definition candidate (r : SessionRecord) : eff lookups RestoreCandidate :=
  do! command := _resume_command_for (tool r) (session_id r) in
  eret (mkCandidate (tool r ++ u "-" ++ take 12 (session_id r)) (tool r) (session_id r) (session_cwd r) (Sessions.summary r)
          (first_activity r) (last_activity r) command (u "timestamp")).

Definition later_candidate (a b : RestoreCandidate) : bool := str_leb (cd_last_activity b) (cd_last_activity a).

Definition candidates_from_timestamp : eff lookups (list RestoreCandidate) :=
  match list_sessions repr_container casefold uc_digit rec_limit None home with
  | Err e => if is_os_error e || is_value_error e then eret [] else eraise e
  | Ok sessions =>
      do! candidates := emap candidate (concat (map (sort_by latest_first) (by_group sessions))) in
      eret (sort_by later_candidate candidates)
  end.

(** An item that the service reconciled; it carries no resume command. *)
Definition captured_candidate (item : RecoveryItem) : result RestoreCandidate :=
  let? tool :=
    match command (item_shell item) with
    | Some cmd =>
        match executable cmd with
        | Some ((_ :: _) as text) => let? parsed := _parse_one_simple_command text None in Ok (pc_executable parsed)
        | _ => Ok []
        end
    | None => Ok []
    end in
  Ok (mkCandidate (item_id item) tool [] (path_str (item_directory item)) [] [] [] [] (u "capture")).

Definition candidates_from_capture (workspace_items : option (list RecoveryItem)) : list RestoreCandidate :=
  flat_map (fun item => match captured_candidate item with Ok c => [c] | Err _ => [] end) (default [] workspace_items).

Definition from_timestamp : eff lookups (list RestoreCandidate * pystr) :=
  do! found := candidates_from_timestamp in eret (found, u "timestamp").

Definition resolve_candidates (backend : Backend) (capture_workspace_items : option (list RecoveryItem))
    : eff lookups (list RestoreCandidate * pystr) :=
  match backend with
  | TIMESTAMP => from_timestamp
  | CAPTURE | AUTO =>
      match candidates_from_capture capture_workspace_items with
      | [] => from_timestamp
      | captured => eret (captured, u "capture")
      end
  end.
End Backends.
