(* ===== verification/Machine.v ===== *)
(** * What a command works on

    The state of a running command: the file system and its caller, the connection to
    the service, and the caches of the process. *)
From S2P Require Import Prelude PyText PyVal PyFloat Json Codec Model Shlex Classifier Protocol Effect Files Resume Recovery Sessions Backends.

Record machine (W : Type) := mkMachine { mc_world : world; mc_net : W; mc_look : lookups }.
Arguments mkMachine {W}. Arguments mc_world {W}. Arguments mc_net {W}. Arguments mc_look {W}.

Section Machine.
Context {W : Type}.

Definition on_world {A} (m : io A) : eff (machine W) A := fun s =>
  let '(r, w) := m (mc_world s) in (r, mkMachine w (mc_net s) (mc_look s)).
Definition on_net {A} (m : eff W A) : eff (machine W) A := fun s =>
  let '(r, n) := m (mc_net s) in (r, mkMachine (mc_world s) n (mc_look s)).
Definition on_look {A} (m : eff lookups A) : eff (machine W) A := fun s =>
  let '(r, l) := m (mc_look s) in (r, mkMachine (mc_world s) (mc_net s) l).
End Machine.
