(* ===== verification/Cli.v ===== *)
(** * The command line ([cli.py])

    The commands that talk to the service or to the stores of the agent tools, from
    their parsed arguments.  What [argparse] makes of a command line, and what is
    printed on standard error, is not modelled. *)
From S2P Require Import Prelude PyText PyVal PyFloat Json Codec Model Shlex Classifier Protocol Effect Bridge Client Resume Recovery.
From S2P Require Import Adapters Sessions Files Backends Machine Console.
#[local] Open Scope eff_scope.

Definition EXIT_OK : Z := 0.
Definition EXIT_WARNING : Z := 1.
Definition EXIT_REFUSED : Z := 2.
Definition EXIT_FAILURE : Z := 3.

(** [f"{s:8s}"] *)
Definition padded (n : nat) (s : pystr) : pystr := s ++ repeat 32 (n - length s).
Definition upper_value {A} `{StrEnum A} (x : A) : pystr := map ascii_upper (enum_value x).
Definition nonempty (s : pystr) : bool := negb (bool_decide (s = [])).
(** [a or b] *)
Definition or_text (a b : pystr) : pystr := if nonempty a then a else b.

(** What a listing of the service says. *)
Definition listing : Type := option pystr * list RecoveryItemView * list SafeExternalText.

Record restore_args := mkRestoreArgs {
  ra_all : bool;
  ra_retry : option pystr;
  ra_directory_only : bool;
  ra_backend : Backend;
}.

Section Cli.
Context `{Unicode} {W : Type} (net : Network W).
Context (repr_container : pyval -> pystr) (casefold : pystr -> pystr) (uc_digit : Z -> bool) (rec_limit : nat).
Context (which : pystr -> option pystr) (run_help : pystr -> result (pystr * pystr)) (elapsed : pystr -> option Z) (home : Home).
(** The terminals: whether a path is a directory, the launches in order, temporary files, and the clock. *)
Context (is_dir : posix_path -> bool) (run : nat -> list pystr -> result Z) (mkstemp : pystr -> result pystr) (now_seconds : Z).

#[local] Notation relative_time := (relative_time elapsed).
#[local] Notation candidates_from_timestamp :=
  (candidates_from_timestamp repr_container casefold uc_digit rec_limit which run_help home).
#[local] Notation command := (term (machine W)).
#[local] Notation say := (println (S := machine W)).

Definition net_do {A} (m : eff W A) : command A := sys (on_net m).
Definition look_do {A} (m : eff lookups A) : command A := sys (on_look m).

(** [find_sessions_for_cwd], with the listing of the process. *)
Definition sessions_in (cwd : pystr) : eff lookups (list SessionRecord) := fun l =>
  match find_sessions_for_cwd repr_container casefold uc_digit rec_limit (lk_listing l) cwd None home with
  | Ok (found, cache) => (Ok found, mkLookups (lk_help l) cache)
  | Err e => (Err e, l)
  end.

(** ** Requests *)
(** [except (ServiceUnavailable, ValueError)] *)
Definition unanswered (e : exn) : bool := match e with ServiceUnavailable _ => true | _ => is_value_error e end.
(** A failure is [None]; an error of the service is printed and is an answer. *)
Definition _request (request : ServiceRequest) : command (option ServiceResponse) :=
  ecatch (do! response := net_do (client_request net rec_limit request) in eret (Some response))
    (fun e => if unanswered e then eret None else eraise e).

Definition _show_item (item : RecoveryItemView) : command unit :=
  say (u "  " ++ vw_item_id item ++ u " (shell " ++ vw_shell_id item ++ u ")") ;;
  say (u "    restoration level: " ++ upper_value (vw_level item)) ;;
  say (u "    reason: " ++ safe_value (vw_reason item)) ;;
  say (u "    directory: " ++ vw_directory item) ;;
  (match vw_directory_warning item with Some w => say (u "    directory warning: " ++ safe_value w) | None => eret tt end) ;;
  match vw_replay_display item with
  | Some display =>
      if nonempty (vw_resume_command item) then
        say (u "    will resume: " ++ vw_resume_command item) ;;
        if 0 <? vw_resume_session_count item then
          (if nonempty (vw_resume_summary item) then say (u "    session summary: " ++ vw_resume_summary item) else eret tt) ;;
          say (u "    sessions in this directory: " ++ str_of_int (vw_resume_session_count item) ++ u " (most recent selected)")
        else say (u "    note: no matching session found; will start fresh")
      else
        say (u "    active command: " ++ display_value display) ;;
        say (u "    warning: this command would be restarted, not resumed")
  | None =>
      if bool_decide (vw_level item = PARTIAL) then say (u "    warning: only the terminal and directory can be restored") else eret tt
  end.

Definition show_listing (l : listing) : command unit :=
  match l with
  | (None, _, _) => say (u "no recovery workspace is available")
  | (Some workspace, items, diagnostics) =>
      say (u "workspace: " ++ workspace) ;;
      eforeach _show_item items ;;
      eforeach (fun d => say (u "diagnostic: " ++ safe_value d)) diagnostics
  end.

Definition _list_response (display : bool) (request : RestoreListRequest) : command (option listing) :=
  do! response := _request (RestoreListReq request) in
  match response with
  | Some (RestoreListResponse workspace items diagnostics) =>
      (if display then show_listing (workspace, items, diagnostics) else eret tt) ;;
      eret (Some (workspace, items, diagnostics))
  | _ => eret None
  end.
Definition any_listing : RestoreListRequest := mkRestoreList None None.

(** ** [status], [snapshot] and [list] *)
Definition yes_no (b : bool) : pystr := if b then u "yes" else u "no".

Definition degraded (r : StatusResponse) : bool :=
  st_durability_degraded r || (st_durable_generation r <? st_dirty_generation r) ||
  bool_decide (st_last_error r <> None) || negb (bool_decide (st_diagnostics r = [])).

(** [except Exception: pass] *)
Definition show_timestamp_backend : command unit :=
  ecatch
    (do! cands := look_do candidates_from_timestamp in
     match cands with
     | top :: _ =>
         say (u "timestamp backend: " ++ str_of_int (len cands) ++ u " restorable session(s) (no server needed)") ;;
         say (u "  most recent: " ++ relative_time (cd_last_activity top) ++ u " [" ++ cd_tool top ++ u "] " ++ cd_cwd top)
     | [] => say (u "timestamp backend: no sessions found in tool stores")
     end)
    (fun e => if is_exception e then eret tt else eraise e).

Definition _status : command Z :=
  do! response := _request StatusReq in
  match response with
  | Some (StatusResp r) =>
      say (u "service: reachable") ;;
      say (u "registered shells: " ++ str_of_int (st_registered_shells r)) ;;
      say (u "dirty/durable generation: " ++ str_of_int (st_dirty_generation r) ++ u "/" ++ str_of_int (st_durable_generation r)) ;;
      say (u "write active: " ++ yes_no (st_write_active r)) ;;
      say (u "recovery items: " ++ str_of_int (st_recovery_item_count r)) ;;
      (match st_last_error r with Some e => say (u "last write error: " ++ safe_value e) | None => eret tt end) ;;
      eforeach (fun d => say (u "diagnostic: " ++ safe_value d)) (st_diagnostics r) ;;
      say (u "durability: " ++ (if degraded r then u "degraded" else u "healthy")) ;;
      show_timestamp_backend ;;
      eret (if degraded r then EXIT_WARNING else EXIT_OK)
  | _ => eret EXIT_FAILURE
  end.

Definition _snapshot : command Z :=
  do! response := _request SnapshotReq in
  match response with
  | Some (SnapshotResponse durable) => say (u "snapshot saved at durable generation " ++ str_of_int durable) ;; eret EXIT_OK
  | _ => eret EXIT_FAILURE
  end.

Definition _list : command Z :=
  do! response := _list_response true any_listing in
  match response with
  | None => eret EXIT_FAILURE
  | Some (workspace, _, diagnostics) =>
      eret (if bool_decide (workspace = None) || negb (bool_decide (diagnostics = [])) then EXIT_WARNING else EXIT_OK)
  end.

(** ** Selecting and approving *)
Fixpoint numbered (n : Z) (l : list RecoveryItemView) : command unit :=
  match l with
  | [] => eret tt
  | item :: rest =>
      say (str_of_int n ++ u ": " ++ vw_item_id item ++ [32; 8212; 32] ++ vw_directory item ++ u " [" ++ upper_value (vw_level item) ++ u "]") ;;
      numbered (n + 1) rest
  end.

(** [tuple(int(part.strip()) for part in answer.split(","))] *)
Definition numbers (answer : pystr) : option (list Z) := mapM (fun part => int_of_str (strip part)) (split_on 44 answer).

Definition chosen_ids (items : list RecoveryItemView) (indices : list Z) : option (list pystr) :=
  if bool_decide (indices = []) || negb (bool_decide (NoDup indices)) || existsb (fun i => (i <? 1) || (len items <? i)) indices
  then None
  else mapM (fun i => vw_item_id <$> items !! Z.to_nat (i - 1)) indices.

Definition _select_items (items : list RecoveryItemView) : command (option (list pystr)) :=
  numbered 1 items ;;
  print (u "Select item numbers (comma-separated), or press Enter to cancel: ") ;;
  do! answer := readline in
  eret (match answer with
        | Some text => if bool_decide (strip text = []) then None else numbers text ≫= chosen_ids items
        | None => None
        end).

Definition wants_approval (selected : list pystr) (item : RecoveryItemView) : bool :=
  str_in (vw_item_id item) selected && vw_replay_eligible item && bool_decide (vw_replay_display item <> None).
Definition _requires_interactive_approval (items : list RecoveryItemView) (selected : list pystr) : bool :=
  existsb (wants_approval selected) items.

(** [l[i]]: a negative index counts from the end. *)
Definition py_index {A} (l : list A) (i : Z) : option A :=
  if 0 <=? i then l !! Z.to_nat i else if 0 <=? i + len l then l !! Z.to_nat (i + len l) else None.

Fixpoint show_sessions (n : Z) (l : list SessionRecord) : command unit :=
  match l with
  | [] => eret tt
  | m :: rest =>
      let label := or_text (Sessions.summary m) (or_text (title m) (session_id m)) in
      let span := if nonempty (first_activity m) then take 10 (first_activity m) ++ u ".." ++ take 10 (last_activity m)
                  else relative_time (last_activity m) in
      say (u "    " ++ str_of_int n ++ u ": " ++ take 60 label ++ u "  [" ++ tool m ++ u "]  " ++ span) ;;
      show_sessions (n + 1) rest
  end.

Definition picked (matches : list SessionRecord) (answer : option pystr) : option SessionRecord :=
  match answer with
  | None => None
  | Some text =>
      if str_eqb (strip text) (u "0") then None
      else if bool_decide (strip text = []) then head matches
      else int_of_str (strip text) ≫= fun n => py_index matches (n - 1)
  end.

Definition _pick_session (matches : list SessionRecord) : command (option SessionRecord) :=
  match matches with
  | [] | [_] => eret (head matches)
  | _ =>
      say (u "  " ++ str_of_int (len matches) ++ u " sessions found:") ;;
      show_sessions 1 matches ;;
      print (u "  Resume session number (1-" ++ str_of_int (len matches) ++ u ", Enter=most-recent, 0=skip): ") ;;
      do! answer := readline in
      eret (picked matches answer)
  end.

(** [s.split(" ", 1)[0]] *)
Definition first_token (s : pystr) : pystr := take_while (fun c => negb (c =? 32)) s.

(** The command, the summary, the number of sessions and the tool of an item. *)
Definition _resume_display_for_item (item : RecoveryItemView) : result (pystr * pystr * Z * pystr) :=
  if nonempty (vw_resume_command item) then
    Ok (vw_resume_command item, vw_resume_summary item, vw_resume_session_count item, first_token (vw_resume_command item))
  else
    let text := match vw_replay_display item with Some d => display_value d | None => [] end in
    let? tool := (if nonempty text then
                    match _parse_one_simple_command text None with
                    | Ok parsed => Ok (pc_executable parsed)
                    | Err e => if is_value_error e then Ok [] else Err e
                    end
                  else Ok []) in
    Ok (text, [], 0, tool).

Definition is_resume (item : RecoveryItemView) : bool := nonempty (vw_resume_command item).

(** What is shown of an item before its question; [false] skips it. *)
Definition show_resume (item : RecoveryItemView) (shown summary tool_name : pystr) (count : Z) : command bool :=
  say (u "Restore item " ++ vw_item_id item ++ u ":") ;;
  say (u "  command: " ++ shown) ;;
  do! matches := (if 1 <? count then
                    do! found := look_do (sessions_in (vw_directory item)) in
                    eret (filter (fun m => tool m = first_token shown) found)
                  else eret []) in
  if 1 <? len matches then
    do! chosen := _pick_session matches in
    match chosen with
    | None => eret false
    | Some m =>
        do! found := look_do (find_adapter which run_help tool_name) in
        match found with
        | None => eraise AttributeError
        | Some adapter =>
            do! text := elift (resume_text adapter (session_id m)) in
            say (u "  resuming: " ++ text) ;;
            eret true
        end
    end
  else (if nonempty summary then say (u "  session: " ++ summary) else eret tt) ;; eret true.

Definition ask_item (item : RecoveryItemView) : command bool :=
  do! '(shown, summary, count, tool_name) := elift (_resume_display_for_item item) in
  do! asked :=
    (if is_resume item then
       do! go := show_resume item shown summary tool_name count in
       if go then print (u "Resume this session? [Y/n] ") ;; eret true else eret false
     else
       say (u "Stored command for " ++ vw_item_id item ++ u ": " ++
            or_text shown (match vw_replay_display item with Some d => display_value d | None => [] end)) ;;
       print (u "Run this command in restored item " ++ vw_item_id item ++ u "? [y/N] ") ;;
       eret true) in
  if asked then
    do! answer := readline in
    eret (match answer with
          | Some text => says_yes (strip text) || (is_resume item && bool_decide (strip text = []))
          | None => false
          end)
  else eret false.

Fixpoint approve_items (items : list RecoveryItemView) (selected : list pystr) : command (list pystr) :=
  match items with
  | [] => eret []
  | item :: rest =>
      if wants_approval selected item then
        do! ok := ask_item item in
        do! more := approve_items rest selected in
        eret (if ok then vw_item_id item :: more else more)
      else approve_items rest selected
  end.

Definition _approvals (items : list RecoveryItemView) (selected : list pystr) (directory_only : bool) : command (list pystr) :=
  if directory_only then eret [] else approve_items items selected.

(** ** [restore] *)
Definition _show_result (attempt : pystr) (outcomes : list OutcomeView) (remaining : list pystr) : command Z :=
  say (u "restore attempt: " ++ attempt) ;;
  eforeach (fun o => say (u "  " ++ ov_item_id o ++ u ": " ++ enum_value (ov_kind o) ++ u " (" ++ safe_value (ov_message o) ++ u ")")) outcomes ;;
  if bool_decide (remaining = []) then say (u "restore state saved") ;; eret EXIT_OK
  else say (u "remaining retryable items: " ++ join (u ", ") remaining) ;; eret EXIT_WARNING.

(** The candidates, numbered. *)
Fixpoint show_candidates (n : Z) (cands : list RestoreCandidate) (label : RestoreCandidate -> pystr) : command unit :=
  match cands with
  | [] => eret tt
  | c :: rest =>
      say (u "  " ++ str_of_int n ++ u ": " ++ padded 8 (relative_time (cd_last_activity c)) ++ u "  [" ++ cd_tool c ++ u "]  " ++ cd_cwd c) ;;
      say (u "     resume: " ++ or_text (cd_resume_command c) (u "(no resume command)")) ;;
      (if nonempty (cd_summary c) then say (u "     " ++ take 70 (label c)) else eret tt) ;;
      show_candidates (n + 1) rest label
  end.
Definition heading (cands : list RestoreCandidate) : pystr :=
  str_of_int (len cands) ++ u " restorable session(s) (timestamp backend, no server):".

(** The numbers the user wants, or the exit code. *)
Definition choose_candidates (all : bool) (count : Z) : command (Z + list Z) :=
  if all then eret (inr (map Z.of_nat (seq 1 (Z.to_nat count))))
  else
    do! tty := isatty in
    if negb tty then eret (inl EXIT_REFUSED)
    else
      print (u "Select session numbers (comma-separated), or press Enter to cancel: ") ;;
      do! answer := readline in
      eret (match answer with
            | Some text =>
                if bool_decide (strip text = []) then inl EXIT_REFUSED
                else
                  match numbers text with
                  | None => inl EXIT_FAILURE
                  | Some chosen => if existsb (fun i => (i <? 1) || (count <? i)) chosen then inl EXIT_FAILURE else inr chosen
                  end
            | None => inl EXIT_REFUSED
            end).

(** The candidate with the session that was picked for it, unless it was skipped. *)
Definition with_picked (c : RestoreCandidate) : command (option RestoreCandidate) :=
  do! found := look_do (sessions_in (cd_cwd c)) in
  do! chosen := _pick_session (filter (fun m => tool m = cd_tool c) found) in
  match chosen with
  | None => eret None
  | Some m =>
      if str_eqb (session_id m) (cd_session_id c) then eret (Some c)
      else
        do! adapter := look_do (find_adapter which run_help (cd_tool c)) in
        match adapter with
        | None => eret (Some c)
        | Some a =>
            do! text := elift (resume_text a (session_id m)) in
            eret (Some (mkCandidate (cd_item_id c) (cd_tool c) (session_id m) (cd_cwd c) (Sessions.summary m) (first_activity m)
                          (last_activity m) text (cd_source c)))
        end
  end.

Fixpoint pick_all (cands : list RestoreCandidate) (chosen : list Z) : command (list RestoreCandidate) :=
  match chosen with
  | [] => eret []
  | num :: rest =>
      match cands !! Z.to_nat (num - 1) with
      | None => pick_all cands rest
      | Some c =>
          do! picked := with_picked c in
          do! more := pick_all cands rest in
          eret (match picked with Some c' => c' :: more | None => more end)
      end
  end.

Definition launch_item (c : RestoreCandidate) : LaunchItem :=
  mkLaunch (cd_item_id c) (parse_path (cd_cwd c)) (if nonempty (cd_resume_command c) then Some (cd_resume_command c) else None).
Definition launch_items (selected : list RestoreCandidate) : list LaunchItem :=
  map launch_item (filter (fun c => is_dir (parse_path (cd_cwd c)) = true) selected).

Definition launch_sessions (selected : list RestoreCandidate) : command Z :=
  do! name := elift (detect_adapter which is_dir run mkstemp) in
  do! adapter := elift (create_adapter which is_dir run mkstemp (match name with Some n => or_text n (u "gnome-terminal") | None => u "gnome-terminal" end)) in
  match launch_items selected with
  | [] => eret EXIT_WARNING
  | items =>
      do! actions := elift (ad_plan adapter items) in
      say ([10] ++ u "restoring " ++ str_of_int (len items) ++ u " session(s)...") ;;
      do! outcomes := elift (ad_execute adapter actions (u "timestamp-" ++ str_of_int now_seconds)) in
      eforeach (fun o => say (u "  " ++ out_item_id o ++ u ": " ++ enum_value (out_kind o) ++ u " (" ++ out_message o ++ u ")")) outcomes ;;
      eret EXIT_OK
  end.

Definition _restore_from_timestamp (all : bool) : command Z :=
  do! cands := look_do candidates_from_timestamp in
  match cands with
  | [] =>
      say (u "no restorable sessions found in any tool store") ;;
      say (u "(run codex / pi / hermes / claude at least once; their session files are what termrecall reads)") ;;
      eret EXIT_WARNING
  | _ =>
      say (heading cands) ;;
      show_candidates 1 cands (fun c => or_text (cd_summary c) (take 18 (cd_session_id c))) ;;
      do! chosen := choose_candidates all (len cands) in
      match chosen with
      | inl code => eret code
      | inr numbers =>
          do! selected := pick_all cands numbers in
          match selected with [] => eret EXIT_WARNING | _ => launch_sessions selected end
      end
  end.

(** Approval needs a terminal; then the request is made from the answers. *)
Definition approved_request (items : list RecoveryItemView) (selected : list pystr) (directory_only : bool)
    (make : list pystr -> ServiceRequest) : command (Z + ServiceRequest) :=
  do! tty := isatty in
  if negb directory_only && _requires_interactive_approval items selected && negb tty then eret (inl EXIT_REFUSED)
  else do! approved := _approvals items selected directory_only in eret (inr (make approved)).

Definition selected_items (all : bool) (items : list RecoveryItemView) : command (option (list pystr)) :=
  if all then eret (Some (map vw_item_id items))
  else do! tty := isatty in if negb tty then eret None else _select_items items.

(** The request that the answers make, or the exit code.  A listing without a workspace
    makes a request that the encoder refuses, as it refuses the empty text. *)
Definition restore_request (args : restore_args) (workspace : pystr) (items : list RecoveryItemView) : command (Z + ServiceRequest) :=
  match ra_retry args with
  | Some ((_ :: _) as attempt) =>
      do! retry_listed := _list_response false (mkRestoreList (Some workspace) (Some attempt)) in
      match retry_listed with
      | None => eret (inl EXIT_FAILURE)
      | Some (listed, items, _) =>
          approved_request items (map vw_item_id items) (ra_directory_only args)
            (fun approved => RestoreRetryReq (mkRetry (default [] listed) attempt approved))
      end
  | _ =>
      do! selected := selected_items (ra_all args) items in
      match selected with
      | None => eret (inl EXIT_REFUSED)
      | Some ids => approved_request items ids (ra_directory_only args) (fun approved => RestoreExecuteReq (mkExecute workspace ids approved))
      end
  end.

Definition on_interrupt {A} (a : A) (e : exn) : command A := match e with KeyboardInterrupt => eret a | _ => eraise e end.

Definition _restore (args : restore_args) : command Z :=
  match ra_backend args with
  | TIMESTAMP => _restore_from_timestamp (ra_all args)
  | _ =>
      do! listed := _list_response false any_listing in
      match listed with
      | None => eret EXIT_FAILURE
      | Some (None, _, _) => _restore_from_timestamp (ra_all args)
      | Some (Some workspace, items, _) =>
          do! made := ecatch (restore_request args workspace items) (on_interrupt (inl EXIT_REFUSED)) in
          match made with
          | inl code => eret code
          | inr request =>
              do! response := _request request in
              match response with
              | Some (RestoreResultResponse _ attempt outcomes remaining) => _show_result attempt outcomes remaining
              | _ => eret EXIT_FAILURE
              end
          end
      end
  end.

(** ** [sessions] and [discard] *)
Definition _sessions (wanted_tool wanted_cwd : option pystr) (limit : Z) : command Z :=
  do! cands := look_do candidates_from_timestamp in
  let cands := match wanted_tool with Some ((_ :: _) as t) => filter (fun c => cd_tool c = t) cands | _ => cands end in
  let cands := match wanted_cwd with
               | Some ((_ :: _) as d) => filter (fun c => normpath (cd_cwd c) = normpath d) cands
               | _ => cands
               end in
  let cands := if 0 <=? limit then take (Z.to_nat limit) cands else take (Z.to_nat (Z.max 0 (len cands + limit))) cands in
  match cands with
  | [] => say (u "no restorable sessions found") ;; eret EXIT_WARNING
  | _ =>
      say (heading cands) ;;
      show_candidates 1 cands (fun c => or_text (cd_summary c) (cd_session_id c)) ;;
      say ([10] ++ u "Use: termrecall restore --backend timestamp  to restore these") ;;
      eret EXIT_OK
  end.

Definition confirm_text (workspace : pystr) : pystr := u "discard " ++ workspace.

(** The exact text, unless [--yes]. *)
Definition confirm_discard (workspace : pystr) (yes : bool) : command bool :=
  if yes then eret true
  else
    print (u "Type '" ++ confirm_text workspace ++ u "' to continue: ") ;;
    do! answer := ecatch readline (on_interrupt None) in
    eret (match answer with Some text => str_eqb text (confirm_text workspace) | None => false end).

Definition _discard (workspace : pystr) (yes : bool) : command Z :=
  do! listed := _list_response false any_listing in
  match listed with
  | None => eret EXIT_FAILURE
  | Some (current, items, _) =>
      if negb (bool_decide (current = Some workspace)) then eret EXIT_REFUSED
      else
        say (u "This permanently deletes " ++ str_of_int (len items) ++ u " recovery items from workspace " ++ workspace ++ u ".") ;;
        do! confirmed := confirm_discard workspace yes in
        if negb confirmed then eret EXIT_REFUSED
        else
          do! response := _request (DiscardReq (mkDiscard workspace true)) in
          match response with
          | Some (DiscardResponse discarded _) => say (u "discarded workspace " ++ discarded) ;; eret EXIT_OK
          | _ => eret EXIT_FAILURE
          end
  end.
End Cli.
