(* ===== verification/CliProofs.v ===== *)
(** * The command line: nothing is restored or discarded without consent

    Run against any service, [restore] sends requests for listings and at most one
    other request; what that one approves was approved line by line at the terminal.
    [discard] sends its request only when the workspace was confirmed.  The candidates
    of the stores are the listed sessions, each once, latest first. *)
From S2P Require Import Prelude PyText PyVal PyFloat Json Codec Model Shlex Classifier Protocol Effect Bridge Client Resume Recovery.
From S2P Require Import Adapters Sessions SessionsProofs Files Backends Machine Console Cli.
#[local] Open Scope eff_scope.

(** ** Programs that only talk to the terminal *)
Section Local.
Context {W : Type}.
#[local] Notation state := (machine W * console)%type.

(** From [s] to [s'] the lines [used] were read and the service was left alone. *)
Record talked (s s' : state) (used : list input) : Prop := {
  tk_input : co_input s.2 = used ++ co_input s'.2;
  tk_tty : co_tty s'.2 = co_tty s.2;
  tk_net : mc_net s'.1 = mc_net s.1;
}.

(** [m] only talks, and [Q] holds of what it returns and of the lines it read. *)
Definition talks {A} (tty : bool) (m : term (machine W) A) (Q : A -> list input -> Prop) : Prop :=
  forall s, co_tty s.2 = tty -> exists used, talked s (m s).2 used /\ match (m s).1 with Ok a => Q a used | Err _ => True end.

Context (tty : bool).
Implicit Types Q : forall A, A -> list input -> Prop.
Notation "'silent'" := (fun _ used => used = []) (only parsing).

Lemma talked_refl s : talked s s [].
Proof. by split. Qed.
Lemma talked_trans s1 s2 s3 a b : talked s1 s2 a -> talked s2 s3 b -> talked s1 s3 (a ++ b).
Proof. intros [H1 H2 H3] [H4 H5 H6]. split; [by rewrite H1 H4 app_assoc|congruence..]. Qed.

Lemma talks_ret {A} (a : A) (Q : A -> list input -> Prop) : Q a [] -> talks tty (eret a) Q.
Proof. intros H s Hs. exists []. split; [apply talked_refl|done]. Qed.
Lemma talks_raise {A} e (Q : A -> list input -> Prop) : talks tty (eraise e) Q.
Proof. intros s Hs. exists []. split; [apply talked_refl|done]. Qed.
Lemma talks_lift {A} (r : result A) (Q : A -> list input -> Prop) : (forall a, r = Ok a -> Q a []) -> talks tty (elift r) Q.
Proof. intros H s Hs. exists []. split; [apply talked_refl|]. cbn. destruct r; auto. Qed.
Lemma talks_bind {A B} (m : term (machine W) A) (k : A -> term (machine W) B) R (Q : B -> list input -> Prop) :
  talks tty m R -> (forall a used, R a used -> talks tty (k a) (fun b more => Q b (used ++ more))) -> talks tty (ebind m k) Q.
Proof.
  intros Hm Hk s Hs. unfold ebind. destruct (Hm s Hs) as (used & Ht & Hr). destruct (m s) as [[a|e] s1]; cbn [fst snd] in *.
  - destruct (Hk a used Hr s1) as (more & Ht' & Hq); [by rewrite (tk_tty _ _ _ Ht)|]. exists (used ++ more).
    split; [exact (talked_trans _ _ _ _ _ Ht Ht')|done].
  - exists used. by split.
Qed.
Lemma talks_weaken {A} (m : term (machine W) A) (R Q : A -> list input -> Prop) : talks tty m R -> (forall a used, R a used -> Q a used) -> talks tty m Q.
Proof.
  intros Hm H s Hs. destruct (Hm s Hs) as (used & Ht & Hr). exists used. split; [done|]. destruct (m s).1; auto.
Qed.
Lemma talks_catch {A} (m : term (machine W) A) h (Q : A -> list input -> Prop) : talks tty m Q ->
  (forall e, talks tty (h e) (fun a more => forall used, Q a (used ++ more))) -> talks tty (ecatch m h) Q.
Proof.
  intros Hm Hh s Hs. unfold ecatch. destruct (Hm s Hs) as (used & Ht & Hr). destruct (m s) as [[a|e] s1]; cbn [fst snd] in *; [by exists used|].
  destruct (Hh e s1) as (more & Ht' & Hq); [by rewrite (tk_tty _ _ _ Ht)|]. exists (used ++ more).
  split; [exact (talked_trans _ _ _ _ _ Ht Ht')|]. destruct (h e s1).1; auto.
Qed.
(** A silent beginning. *)
Lemma talks_then {A B} (m : term (machine W) A) (k : A -> term (machine W) B) (Q : B -> list input -> Prop) :
  talks tty m silent -> (forall a, talks tty (k a) Q) -> talks tty (ebind m k) Q.
Proof. intros Hm Hk. eapply talks_bind; [exact Hm|]. intros a used ->. apply Hk. Qed.

Lemma talks_print text : talks tty (print text) silent.
Proof. intros [m c] Hs. exists []. by split. Qed.
Lemma talks_println text : talks tty (println text) silent.
Proof. apply talks_print. Qed.
Lemma talks_isatty : talks tty isatty (fun b used => b = tty /\ used = []).
Proof. intros [m c] Hs. exists []. cbn in *. by split. Qed.
Lemma talks_readline : talks tty readline (fun line used =>
  match line with Some t => exists text, used = [Line text] /\ t = rstrip_lines text | None => used = [] end).
Proof.
  intros [m c] Hs. unfold readline. destruct (co_input c) as [|[text|] rest] eqn:E; cbn.
  - exists []. by split.
  - exists [Line text]. split; [|by exists text]. by split; cbn.
  - exists [Interrupt]. split; [|done]. by split; cbn.
Qed.
Lemma talks_look {A} (m : eff lookups A) : talks tty (sys (on_look m)) silent.
Proof. intros [[w n l] c] Hs. unfold sys, on_look. cbn. destruct (m l) as [r l']. exists []. cbn. split; [by split|by destruct r]. Qed.
Lemma talks_foreach {A} (f : A -> term (machine W) unit) l : (forall x, talks tty (f x) silent) -> talks tty (eforeach f l) silent.
Proof. intros H. induction l as [|x l IH]; [by apply talks_ret|]. cbn [eforeach]. apply talks_then; [apply H|]. intros _. exact IH. Qed.
Lemma talks_any {A} (m : term (machine W) A) (Q : A -> list input -> Prop) : talks tty m Q -> talks tty m (fun _ _ => True).
Proof. intros H. exact (talks_weaken m Q _ H (fun _ _ _ => I)). Qed.
End Local.

Create HintDb talks.
#[export] Hint Resolve talks_raise talks_print talks_println talks_look talks_foreach : talks.
#[export] Hint Extern 1 (talks _ (eret _) _) => apply talks_ret : talks.

(** ** Consent *)
(** The line says yes to the item: in words, or by Enter for a session to resume. *)
Definition yes_to (item : RecoveryItemView) (line : input) : Prop := exists text, line = Line text /\
  (says_yes (strip (rstrip_lines text)) = true \/ is_resume item = true /\ strip (rstrip_lines text) = []).
(** The line approves the item of this id, which is selected and may be replayed. *)
Definition consents (items : list RecoveryItemView) (selected : list pystr) (id : pystr) (line : input) : Prop :=
  exists item, item ∈ items /\ wants_approval selected item = true /\ vw_item_id item = id /\ yes_to item line.

Section Asking.
Context `{Unicode} {W : Type}.
Context (repr_container : pyval -> pystr) (casefold : pystr -> pystr) (uc_digit : Z -> bool) (rec_limit : nat).
Context (which : pystr -> option pystr) (run_help : pystr -> result (pystr * pystr)) (elapsed : pystr -> option Z) (home : Home).
Context (is_dir : posix_path -> bool) (run : nat -> list pystr -> result Z) (mkstemp : pystr -> result pystr) (now_seconds : Z).
Context (tty : bool).
#[local] Notation talks := (talks (W := W) tty).
#[local] Notation silent := (fun _ used => used = []).
#[local] Notation ask := (ask_item repr_container casefold uc_digit rec_limit which run_help elapsed home).
#[local] Notation show := (show_resume repr_container casefold uc_digit rec_limit which run_help elapsed home).
#[local] Notation approve := (approve_items repr_container casefold uc_digit rec_limit which run_help elapsed home).

Lemma talks_numbered n items : talks (numbered n items) silent.
Proof.
  revert n. induction items as [|i items IH]; intros n; [by apply talks_ret|]. cbn [numbered].
  apply talks_then; [apply talks_println|]. intros _. apply IH.
Qed.
Lemma talks_show_sessions n l : talks (show_sessions elapsed n l) silent.
Proof.
  revert n. induction l as [|m l IH]; intros n; [by apply talks_ret|]. cbn [show_sessions]. cbv zeta.
  apply talks_then; [apply talks_println|]. intros _. apply IH.
Qed.
Lemma talks_pick matches : talks (_pick_session elapsed matches) (fun _ _ => True).
Proof.
  unfold _pick_session. destruct matches as [|m [|m' l]]; [by apply talks_ret..|].
  apply talks_then; [apply talks_println|]. intros _. apply talks_then; [apply talks_show_sessions|]. intros _.
  apply talks_then; [apply talks_print|]. intros _. eapply talks_bind; [apply talks_readline|]. intros a used _. by apply talks_ret.
Qed.

Lemma talks_show item shown summary tool_name count : talks (show item shown summary tool_name count) (fun _ _ => True).
Proof.
  unfold show_resume. apply talks_then; [apply talks_println|]. intros _. apply talks_then; [apply talks_println|]. intros _.
  apply talks_then.
  { destruct (1 <? count); [|by apply talks_ret]. apply talks_then; [apply talks_look|]. intros found. by apply talks_ret. }
  intros matches. destruct (1 <? len matches).
  - eapply talks_bind; [apply talks_pick|]. intros [m|] used _; [|by apply talks_ret].
    apply talks_then; [apply talks_look|]. intros [a|]; [|apply talks_raise].
    eapply talks_bind; [apply (talks_lift _ _ (fun _ _ => True)); done|]. intros text used' _.
    apply talks_then; [apply talks_println|]. intros _. by apply talks_ret.
  - apply talks_then; [destruct (nonempty summary); [apply talks_println|by apply talks_ret]|]. intros _. by apply talks_ret.
Qed.

Lemma talks_ask item : talks (ask item) (fun ok used => ok = true -> exists line, yes_to item line /\ [line] `sublist_of` used).
Proof.
  unfold ask_item. eapply talks_bind; [apply (talks_lift _ _ (fun _ used => used = [])); done|].
  intros [[[shown summary] count] tool_name] used0 ->. cbn [app].
  apply (talks_bind _ _ _ (fun _ _ => True)).
  { destruct (is_resume item).
    - eapply talks_bind; [apply talks_show|]. intros [] used _; [|by apply talks_ret].
      apply talks_then; [apply talks_print|]. intros _. by apply talks_ret.
    - apply talks_then; [apply talks_println|]. intros _. apply talks_then; [apply talks_print|]. intros _. by apply talks_ret. }
  intros asked used _. destruct asked; [|by apply talks_ret]. eapply talks_bind; [apply talks_readline|].
  intros [t|] used1 Hline; apply talks_ret; [|done]. destruct Hline as (text & -> & ->). intros Hyes. exists (Line text).
  split; [|rewrite app_nil_r; by apply sublist_inserts_l].
  exists text. split; [done|]. apply orb_true_iff in Hyes as [Hy|Hy]; [by left|right]. apply andb_true_iff in Hy as [Hr He].
  by apply bool_decide_eq_true in He.
Qed.

Lemma talks_approve items selected : talks (approve items selected)
  (fun approved used => exists lines, Forall2 (consents items selected) approved lines /\ lines `sublist_of` used).
Proof.
  enough (Hgen : forall all, items ⊆ all -> talks (approve items selected)
    (fun approved used => exists lines, Forall2 (consents all selected) approved lines /\ lines `sublist_of` used)) by by apply Hgen.
  intros all. induction items as [|item items IH]; intros Hall; cbn [approve_items]; [apply talks_ret; by exists []|].
  assert (Hrest : items ⊆ all) by (intros x Hx; apply Hall; by right). destruct (wants_approval selected item) eqn:Hw; [|by apply IH].
  eapply talks_bind; [apply talks_ask|]. intros ok used Hok. eapply talks_bind; [by apply IH|].
  intros more used' (lines & Hf & Hl). apply talks_ret. rewrite app_nil_r. destruct ok.
  - destruct (Hok eq_refl) as (line & Hyes & Hsub). exists (line :: lines). split.
    + constructor; [|done]. exists item. split; [|done]. apply Hall. by left.
    + exact (sublist_app [line] used lines used' Hsub Hl).
  - exists lines. split; [done|]. by apply sublist_inserts_l.
Qed.
End Asking.

(** ** What is sent *)
(** The service, and every payload that was sent to it. *)
Definition recorder {W} (net : Network W) : Network (W * list pybytes) := {|
  nt_connect '(w, log) := let '(r, w') := nt_connect net w in (r, (w', log));
  nt_sendall payload '(w, log) := let '(r, w') := nt_sendall net payload w in (r, (w', log ++ [payload]));
  nt_recv n '(w, log) := let '(r, w') := nt_recv net n w in (r, (w', log));
  nt_monotonic '(w, log) := let '(t, w') := nt_monotonic net w in (t, (w', log)) |}.

Section Recording.
Context {W : Type} (net : Network W) (rec_limit : nat).

Notation logs l := (fun n : W * list pybytes => n.2 = l).

Lemma recv_logs k l : keeps (logs l) (nt_recv (recorder net) k).
Proof. intros [w log] Hl. cbn in *. by destruct (nt_recv net k w) as [[]]. Qed.
Lemma connect_logs l : keeps (logs l) (nt_connect (recorder net)).
Proof. intros [w log] Hl. cbn in *. by destruct (nt_connect net w) as [[]]. Qed.
#[local] Hint Resolve recv_logs connect_logs : keeps.
Lemma receive_raw_logs fuel raw l : keeps (logs l) (receive_raw (recorder net) fuel raw).
Proof. revert raw. induction fuel as [|fuel IH]; intros raw; cbn [receive_raw]; keeps_all. Qed.
#[local] Hint Resolve receive_raw_logs : keeps.
Lemma receive_response_logs l : keeps (logs l) (_receive_response (recorder net)).
Proof. unfold _receive_response. keeps_all. Qed.

(** A request is sent at most once. *)
Lemma client_request_log request n :
  (client_request (recorder net) rec_limit request n).2.2 = n.2 \/
  exists payload, encode_request rec_limit request = Ok payload /\ (client_request (recorder net) rec_limit request n).2.2 = n.2 ++ [payload].
Proof.
  destruct n as [w log]. cbn [snd].
  set (after := fun n' : W * list pybytes => n'.2 = log \/ exists payload, encode_request rec_limit request = Ok payload /\ n'.2 = log ++ [payload]).
  assert (Ht : triple (logs log) (client_request (recorder net) rec_limit request) (fun _ => after) (fun _ => after)).
  { unfold client_request. apply (triple_bind _ _ _ (fun payload n' => n'.2 = log /\ encode_request rec_limit request = Ok payload)).
    { apply triple_lift; [done|]. intros n' e Hn _. by left. }
    intros payload. apply (triple_bind _ _ _ (fun _ => after)); [|intros raw; apply keeps_lift].
    intros n' [Hn Henc]. revert n' Hn. unfold exchange.
    apply (triple_catch _ _ _ _ (fun _ => after)); [|intros e; destruct e as [| | | | | | | | | | | | | |[]| | | | | | | | |]; apply keeps_raise].
    apply (triple_bind _ _ _ (fun _ => logs log)); [eapply triple_weaken; [apply (connect_logs log)|done|done|by left]|]. intros _.
    apply (triple_bind _ _ _ (fun _ => logs (log ++ [payload]))).
    - intros [w' log'] Hl. cbn in *. subst log'. destruct (nt_sendall net payload w') as [[] w2]; [done|right; by exists payload].
    - intros _. eapply triple_weaken; [apply (receive_response_logs (log ++ [payload]))|done|..]; intros ? n' Hn'; right; by exists payload. }
  specialize (Ht (w, log) eq_refl). by destruct (client_request (recorder net) rec_limit request (w, log)) as [[]].
Qed.
End Recording.

Section Requests.
Context {W : Type} (net : Network W) (rec_limit : nat).

Lemma request_steps request s : let '(r, s') := _request net rec_limit request s in
  s'.2 = s.2 /\ mc_net s'.1 = (client_request net rec_limit request (mc_net s.1)).2 /\
  (forall response, r = Ok (Some response) -> (client_request net rec_limit request (mc_net s.1)).1 = Ok response).
Proof.
  unfold _request, net_do. generalize (client_request net rec_limit request). intros cr.
  destruct s as [[w n l] c]. unfold ecatch, ebind, sys, on_net. cbn. destruct (cr n) as [[response|e] n']; cbn.
  - split; [reflexivity|]. split; [reflexivity|]. intros x Hx. by injection Hx as ->.
  - destruct (unanswered e); cbn; (split; [reflexivity|]); (split; [reflexivity|]); intros x Hx; discriminate Hx.
Qed.
End Requests.

(** ** [restore] *)
Section Restoring.
Context `{Unicode} {W : Type} (net : Network W).
Context (repr_container : pyval -> pystr) (casefold : pystr -> pystr) (uc_digit : Z -> bool) (rec_limit : nat).
Context (which : pystr -> option pystr) (run_help : pystr -> result (pystr * pystr)) (elapsed : pystr -> option Z) (home : Home).
Context (is_dir : posix_path -> bool) (run : nat -> list pystr -> result Z) (mkstemp : pystr -> result pystr) (now_seconds : Z).
#[local] Notation from_timestamp :=
  (_restore_from_timestamp (W := W) repr_container casefold uc_digit rec_limit which run_help elapsed home is_dir run mkstemp now_seconds).

Section Talking.
Context (tty : bool).
#[local] Notation talks := (talks (W := W) tty).

Lemma talks_show_candidates n cands label : talks (show_candidates elapsed n cands label) (fun _ used => used = []).
Proof.
  revert n. induction cands as [|c cands IH]; intros n; [by apply talks_ret|]. cbn [show_candidates].
  apply talks_then; [apply talks_println|intros _]. apply talks_then; [apply talks_println|intros _].
  apply talks_then; [destruct (nonempty _); [apply talks_println|by apply talks_ret]|intros _]. apply IH.
Qed.

Lemma talks_select all items : talks (selected_items all items)
  (fun selected used => forall ids, selected = Some ids -> ids ⊆ map vw_item_id items /\ (all = true -> ids = map vw_item_id items)).
Proof.
  unfold selected_items. destruct all; [apply talks_ret; by intros ids [= <-]|].
  eapply talks_bind; [apply talks_isatty|]. intros b used [-> ->]. destruct tty; [|by apply talks_ret]. cbn [negb].
  unfold _select_items. apply talks_then; [apply talks_numbered|intros _]. apply talks_then; [apply talks_print|intros _].
  eapply talks_bind; [apply talks_readline|]. intros [t|] used _; apply talks_ret; [|done].
  intros ids Hids. split; [|done]. destruct (bool_decide (strip t = [])); [done|].
  destruct (numbers t) as [indices|]; [|done]. simpl in Hids. unfold chosen_ids in Hids. destruct (_ || _ || _); [done|].
  intros id [k Hk]%list_elem_of_lookup. apply mapM_Some in Hids.
  destruct (Forall2_lookup_r _ _ _ _ _ Hids Hk) as (i & _ & Hi). apply fmap_Some in Hi as (item & Hitem & ->).
  apply list_elem_of_fmap. exists item. split; [done|]. by apply list_elem_of_lookup_2 in Hitem.
Qed.

(** What a request was made of. *)
Definition approved_by (args : restore_args) (items : list RecoveryItemView) (selected approved : list pystr) (used : list input) : Prop :=
  (exists lines, Forall2 (consents items selected) approved lines /\ lines `sublist_of` used) /\
  (ra_directory_only args = true -> approved = []) /\ (approved <> [] -> tty = true).

Lemma talks_approved args items selected make :
  talks (approved_request repr_container casefold uc_digit rec_limit which run_help elapsed home items selected (ra_directory_only args) make)
    (fun made used => forall request, made = inr request -> exists approved, request = make approved /\ approved_by args items selected approved used).
Proof.
  unfold approved_request. eapply talks_bind; [apply talks_isatty|]. intros b used [-> ->]. cbn [app].
  destruct (negb (ra_directory_only args) && _ && negb tty) eqn:Hneed; [by apply talks_ret|].
  apply (talks_bind _ _ _ (fun approved used => approved_by args items selected approved used)).
  2: { intros approved used Ha. apply talks_ret. intros request [= <-]. exists approved. by rewrite app_nil_r. }
  unfold _approvals. destruct (ra_directory_only args) eqn:Hd.
  { apply talks_ret. split; [|done]. exists []. by split. }
  eapply talks_weaken; [apply talks_approve|]. intros approved used (lines & Hf & Hl). split; [by exists lines|].
  split; [by rewrite Hd|]. intros Hne. cbn [negb andb] in Hneed. destruct tty; [done|]. rewrite andb_true_r in Hneed.
  destruct Hf as [|id line approved lines (item & Hin & Hw & _) _]; [done|].
  apply not_true_iff_false in Hneed. destruct Hneed. apply existsb_exists. exists item. split; [by apply list_elem_of_In|done].
Qed.

Lemma talks_result attempt outcomes remaining : talks (_show_result attempt outcomes remaining) (fun _ _ => True).
Proof.
  unfold _show_result. apply talks_then; [apply talks_println|intros _].
  apply talks_then; [apply talks_foreach; intros; apply talks_println|intros _].
  case_bool_decide; (apply talks_then; [apply talks_println|intros _]); by apply talks_ret.
Qed.

Lemma talks_timestamp all : talks (from_timestamp all) (fun _ _ => True).
Proof.
  unfold _restore_from_timestamp. apply talks_then; [apply talks_look|]. intros cands. destruct cands as [|c cands].
  { apply talks_then; [apply talks_println|intros _]. apply talks_then; [apply talks_println|intros _]. by apply talks_ret. }
  apply talks_then; [apply talks_println|intros _]. apply talks_then; [apply talks_show_candidates|intros _].
  apply (talks_bind _ _ _ (fun _ _ => True)).
  { unfold choose_candidates. destruct all; [by apply talks_ret|]. eapply talks_bind; [apply talks_isatty|]. intros b used _.
    destruct (negb b); [by apply talks_ret|]. apply talks_then; [apply talks_print|intros _].
    eapply talks_bind; [apply talks_readline|]. intros line used' _. by apply talks_ret. }
  intros [code|numbers] used _; [by apply talks_ret|]. apply (talks_bind _ _ _ (fun _ _ => True)).
  - generalize (c :: cands). clear c cands. intros cands. induction numbers as [|n numbers IH]; cbn [pick_all]; [by apply talks_ret|].
    destruct (cands !! Z.to_nat (n - 1)) as [c|]; [|exact IH]. apply (talks_bind _ _ _ (fun _ _ => True)).
    + unfold with_picked. apply talks_then; [apply talks_look|]. intros found.
      eapply talks_bind; [apply talks_pick|]. intros [m|] u _; [|by apply talks_ret]. destruct (str_eqb _ _); [by apply talks_ret|].
      apply talks_then; [apply talks_look|]. intros [a|]; [|by apply talks_ret].
      eapply talks_bind; [apply (talks_lift _ _ (fun _ _ => True)); done|]. intros text u' _. by apply talks_ret.
    + intros picked u _. apply (talks_bind _ _ _ (fun _ _ => True)); [exact IH|]. intros more u' _. by apply talks_ret.
  - intros [|c' selected] u _; [by apply talks_ret|]. unfold launch_sessions.
    eapply talks_bind; [apply (talks_lift _ _ (fun _ _ => True)); done|]. intros name u1 _.
    eapply talks_bind; [apply (talks_lift _ _ (fun _ _ => True)); done|]. intros a u2 _.
    destruct (launch_items is_dir (c' :: selected)); [by apply talks_ret|].
    eapply talks_bind; [apply (talks_lift _ _ (fun _ _ => True)); done|]. intros actions u3 _.
    apply talks_then; [apply talks_println|intros _].
    eapply talks_bind; [apply (talks_lift _ _ (fun _ _ => True)); done|]. intros outcomes u4 _.
    apply talks_then; [apply talks_foreach; intros; apply talks_println|intros _]. by apply talks_ret.
Qed.
End Talking.
End Restoring.

(** *** The whole command, and all that it sends *)
Section Whole.
Context `{Unicode} {W : Type} (net : Network W).
Context (repr_container : pyval -> pystr) (casefold : pystr -> pystr) (uc_digit : Z -> bool) (rec_limit : nat).
Context (which : pystr -> option pystr) (run_help : pystr -> result (pystr * pystr)) (elapsed : pystr -> option Z) (home : Home).
Context (is_dir : posix_path -> bool) (run : nat -> list pystr -> result Z) (mkstemp : pystr -> result pystr) (now_seconds : Z).
#[local] Notation rec := (recorder net).
#[local] Notation restore := (_restore rec repr_container casefold uc_digit rec_limit which run_help elapsed home is_dir run mkstemp now_seconds).
#[local] Notation making := (restore_request rec repr_container casefold uc_digit rec_limit which run_help elapsed home).
#[local] Notation log s := ((mc_net s.1).2).

(** The payload asks for a listing. *)
Definition lists (payload : pybytes) : Prop := exists q, encode_request rec_limit (RestoreListReq q) = Ok payload.
(** At [n] the service answers a request for a listing, and is at [n'] then. *)
Definition listed (n : W * list pybytes) (q : RestoreListRequest) (n' : W * list pybytes) (workspace : option pystr)
    (items : list RecoveryItemView) : Prop :=
  exists diagnostics, client_request rec rec_limit (RestoreListReq q) n = (Ok (RestoreListResponse workspace items diagnostics), n').

(** The request is made of the items that the service listed and of what was approved. *)
Definition made_of (args : restore_args) (tty : bool) (n1 : W * list pybytes) (workspace : pystr) (listed_items : list RecoveryItemView)
    (input : list input) (request : ServiceRequest) : Prop :=
  exists items selected approved,
    approved_by tty args items selected approved input /\
    match ra_retry args with
    | Some ((_ :: _) as attempt) => exists n2 w',
        listed n1 (mkRestoreList (Some workspace) (Some attempt)) n2 w' items /\ selected = map vw_item_id items /\
        request = RestoreRetryReq (mkRetry (default [] w') attempt approved)
    | _ => items = listed_items /\ selected ⊆ map vw_item_id items /\ (ra_all args = true -> selected = map vw_item_id items) /\
        request = RestoreExecuteReq (mkExecute workspace selected approved)
    end.

Lemma approved_by_more tty args items selected approved a b : approved_by tty args items selected approved b ->
  approved_by tty args items selected approved (a ++ b).
Proof. intros [(lines & Hf & Hl) Hrest]. split; [|done]. exists lines. split; [done|]. by apply sublist_inserts_l. Qed.

(** A request for a listing. *)
Lemma list_steps q (s : machine (W * list pybytes) * console) : let '(r, s') := _list_response rec rec_limit false q s in
  s'.2 = s.2 /\ mc_net s'.1 = (client_request rec rec_limit (RestoreListReq q) (mc_net s.1)).2 /\
  (exists ll, log s' = log s ++ ll /\ Forall lists ll /\ (length ll <= 1)%nat) /\
  (forall w items d, r = Ok (Some (w, items, d)) -> listed (mc_net s.1) q (mc_net s'.1) w items).
Proof.
  pose proof (request_steps rec rec_limit (RestoreListReq q) s) as Hr. unfold _list_response, ebind at 1.
  destruct (_request rec rec_limit (RestoreListReq q) s) as [r s1]. destruct Hr as (Hc & Hn & Hr).
  assert (Hlog : exists ll, log s1 = log s ++ ll /\ Forall lists ll /\ (length ll <= 1)%nat).
  { rewrite Hn. destruct (client_request_log net rec_limit (RestoreListReq q) (mc_net s.1)) as [->|(p & Hp & ->)].
    - exists []. split; [by rewrite app_nil_r|]. split; [constructor|cbn; lia].
    - exists [p]. split; [done|]. split; [|cbn; lia]. constructor; [by exists q|constructor]. }
  destruct r as [[[]|]|e]; try (split; [exact Hc|]; split; [exact Hn|]; split; [exact Hlog|]; intros ? ? ? Hx; discriminate Hx).
  split; [exact Hc|]. split; [exact Hn|]. split; [exact Hlog|]. intros w items d [= <- <- <-]. exists diagnostics.
  rewrite /= Hn. rewrite -(Hr _ eq_refl). apply surjective_pairing.
Qed.

Lemma execute_steps args workspace items (s : machine (W * list pybytes) * console) :
  match ra_retry args with Some (_ :: _) => False | _ => True end ->
  let '(r, s') := making args workspace items s in
  log s' = log s /\ co_tty s'.2 = co_tty s.2 /\
  (forall request, r = Ok (inr request) -> made_of args (co_tty s.2) (mc_net s.1) workspace items (co_input s.2) request).
Proof.
  intros Hretry.
  set (Q := fun (made : Z + ServiceRequest) (used : list input) => forall request, made = inr request -> exists selected approved,
    approved_by (co_tty s.2) args items selected approved used /\ selected ⊆ map vw_item_id items /\
    (ra_all args = true -> selected = map vw_item_id items) /\ request = RestoreExecuteReq (mkExecute workspace selected approved)).
  assert (Ht : talks (co_tty s.2) (making args workspace items) Q).
  { assert (He : making args workspace items = (do! selected := selected_items (ra_all args) items in
      match selected with
      | None => eret (inl EXIT_REFUSED)
      | Some ids => approved_request repr_container casefold uc_digit rec_limit which run_help elapsed home items ids (ra_directory_only args)
          (fun approved => RestoreExecuteReq (mkExecute workspace ids approved)) end))
      by (unfold restore_request; by destruct (ra_retry args) as [[|]|]).
    rewrite He. eapply talks_bind; [apply talks_select|]. intros [ids|] used Hsel; [|by apply talks_ret].
    eapply talks_weaken; [apply talks_approved|]. intros made used' Hmade request Hreq.
    destruct (Hmade request Hreq) as (approved & -> & Ha). exists ids, approved. destruct (Hsel ids eq_refl) as [Hs1 Hs2].
    split; [by apply approved_by_more|]. done. }
  destruct (Ht s eq_refl) as (used & [Hi Htty Hn] & Hr). destruct (making args workspace items s) as [r s']; cbn [fst snd] in *.
  split; [by rewrite Hn|]. split; [exact Htty|]. intros request ->. destruct (Hr request eq_refl) as (selected & approved & Ha & Hsel & Hall & ->).
  exists items, selected, approved. split.
  { destruct Ha as [(lines & Hf & Hl) Hrest]. split; [|exact Hrest]. exists lines. split; [done|]. rewrite Hi. by apply sublist_inserts_r. }
  destruct (ra_retry args) as [[|]|]; [|done|]; done.
Qed.

Lemma retry_steps args a attempt workspace items (s : machine (W * list pybytes) * console) : ra_retry args = Some (a :: attempt) ->
  let '(r, s') := making args workspace items s in
  (exists ll, log s' = log s ++ ll /\ Forall lists ll /\ (length ll <= 1)%nat) /\ co_tty s'.2 = co_tty s.2 /\
  (forall request, r = Ok (inr request) -> made_of args (co_tty s.2) (mc_net s.1) workspace items (co_input s.2) request).
Proof.
  intros Hretry. unfold restore_request. rewrite Hretry. unfold ebind at 1.
  pose proof (list_steps (mkRestoreList (Some workspace) (Some (a :: attempt))) s) as Hl.
  destruct (_list_response rec rec_limit false _ s) as [r1 s1]. destruct Hl as (Hc & Hn & Hlog & Hlisted).
  destruct r1 as [[[[w' items'] d']|]|e]; try (split; [exact Hlog|]; split; [by rewrite Hc|]; intros request Hx; discriminate Hx).
  destruct (talks_approved repr_container casefold uc_digit rec_limit which run_help elapsed home (co_tty s.2) args items' (map vw_item_id items') (fun approved => RestoreRetryReq (mkRetry (default [] w') (a :: attempt) approved)) s1)
    as (used & [Hi Htty Hnet] & Hr); [by rewrite Hc|].
  destruct (approved_request _ _ _ _ _ _ _ _ _ _ _ _ s1) as [r s2]; cbn [fst snd] in *.
  split; [by rewrite Hnet|]. split; [by rewrite Htty Hc|]. intros request ->. destruct (Hr request eq_refl) as (approved & -> & Ha).
  exists items', (map vw_item_id items'), approved. split.
  { destruct Ha as [(lines & Hf & Hls) Hrest]. split; [|exact Hrest]. exists lines. split; [done|]. rewrite -Hc Hi. by apply sublist_inserts_r. }
  rewrite Hretry. exists (mc_net s1.1), w'. split; [exact (Hlisted _ _ _ eq_refl)|done].
Qed.
(** The session stores alone, without the service. *)
Lemma timestamp_steps all (s : machine (W * list pybytes) * console) :
  log (_restore_from_timestamp repr_container casefold uc_digit rec_limit which run_help elapsed home is_dir run mkstemp now_seconds all s).2 = log s.
Proof.
  destruct (talks_timestamp repr_container casefold uc_digit rec_limit which run_help elapsed home is_dir run mkstemp now_seconds
    (co_tty s.2) all s eq_refl) as (used & [_ _ Hn] & _). by rewrite Hn.
Qed.

Lemma making_steps args workspace items (s : machine (W * list pybytes) * console) :
  let '(r, s') := ecatch (making args workspace items) (on_interrupt (inl EXIT_REFUSED)) s in
  (exists ll, log s' = log s ++ ll /\ Forall lists ll /\ (length ll <= 1)%nat) /\ co_tty s'.2 = co_tty s.2 /\
  (forall request, r = Ok (inr request) -> made_of args (co_tty s.2) (mc_net s.1) workspace items (co_input s.2) request).
Proof.
  assert (Hm : let '(r, s') := making args workspace items s in
    (exists ll, log s' = log s ++ ll /\ Forall lists ll /\ (length ll <= 1)%nat) /\ co_tty s'.2 = co_tty s.2 /\
    (forall request, r = Ok (inr request) -> made_of args (co_tty s.2) (mc_net s.1) workspace items (co_input s.2) request)).
  { destruct (ra_retry args) as [[|a attempt]|] eqn:Hretry; [|exact (retry_steps args a attempt workspace items s Hretry)|];
      (pose proof (execute_steps args workspace items s) as He; rewrite Hretry in He; specialize (He I);
       destruct (making args workspace items s) as [r s']; destruct He as (Hl & Hrest); split; [|exact Hrest];
       exists []; split; [by rewrite app_nil_r|]; split; [constructor|cbn; lia]). }
  unfold ecatch. destruct (making args workspace items s) as [[made|e] s']; [exact Hm|].
  destruct Hm as (Hl & Htty & _). destruct e; cbn; (split; [exact Hl|]; split; [exact Htty|]; intros request Hx; discriminate Hx).
Qed.

(** What a run of [restore] sends: listings, then at most one request that was made of
    a listing with consent. *)
Definition sends_with_consent (args : restore_args) (s s' : machine (W * list pybytes) * console) : Prop :=
  exists listings final, log s' = log s ++ listings ++ final /\ Forall lists listings /\
    (final = [] \/ exists payload request n1 workspace items,
       final = [payload] /\ encode_request rec_limit request = Ok payload /\
       listed (mc_net s.1) any_listing n1 (Some workspace) items /\
       made_of args (co_tty s.2) n1 workspace items (co_input s.2) request).

Lemma sends_nothing args s s' ll : log s' = log s ++ ll -> Forall lists ll -> sends_with_consent args s s'.
Proof. intros Hl Hf. exists ll, []. rewrite app_nil_r. auto. Qed.

Lemma restore_sends args (s : machine (W * list pybytes) * console) : sends_with_consent args s (restore args s).2.
Proof.
  unfold _restore.
  assert (Hserve : sends_with_consent args s ((do! listed := _list_response rec rec_limit false any_listing in
      match listed with
      | None => eret EXIT_FAILURE
      | Some (None, _, _) => _restore_from_timestamp repr_container casefold uc_digit rec_limit which run_help elapsed home is_dir run mkstemp now_seconds (ra_all args)
      | Some (Some workspace, items, _) =>
          do! made := ecatch (making args workspace items) (on_interrupt (inl EXIT_REFUSED)) in
          match made with
          | inl code => eret code
          | inr request =>
              do! response := _request rec rec_limit request in
              match response with
              | Some (RestoreResultResponse _ attempt outcomes remaining) => _show_result attempt outcomes remaining
              | _ => eret EXIT_FAILURE
              end
          end
      end) s).2).
  { unfold ebind at 1. pose proof (list_steps any_listing s) as Hl.
    destruct (_list_response rec rec_limit false any_listing s) as [r1 s1]. destruct Hl as (Hc & Hn & (ll & Hlog & Hf & _) & Hlisted).
    destruct r1 as [[[[[workspace|] items] d]|]|e]; try exact (sends_nothing _ _ _ ll Hlog Hf).
    2: { apply (sends_nothing _ _ _ ll); [|exact Hf]. rewrite timestamp_steps. exact Hlog. }
    unfold ebind at 1. pose proof (making_steps args workspace items s1) as Hm.
    destruct (ecatch (making args workspace items) (on_interrupt (inl EXIT_REFUSED)) s1) as [[made|e] s2];
      destruct Hm as ((l2 & Hlog2 & Hf2 & _) & _ & Hmade); rewrite Hlog -app_assoc in Hlog2;
      pose proof (Forall_app_2 _ _ _ Hf Hf2) as Hf12; [|exact (sends_nothing _ _ _ _ Hlog2 Hf12)].
    destruct made as [code|request]; [exact (sends_nothing _ _ _ _ Hlog2 Hf12)|].
    specialize (Hmade request eq_refl). rewrite Hc in Hmade. pose proof (request_steps rec rec_limit request s2) as Hr.
    unfold ebind at 1. destruct (_request rec rec_limit request s2) as [r3 s3]. destruct Hr as (Hc3 & Hn3 & _).
    assert (Hend : forall s4 : machine (W * list pybytes) * console, mc_net s4.1 = mc_net s3.1 -> sends_with_consent args s s4).
    { intros s4 Hn4. destruct (client_request_log net rec_limit request (mc_net s2.1)) as [Hsame|(p & Hp & Hsent)].
      - apply (sends_nothing _ _ _ (ll ++ l2)); [|exact Hf12]. by rewrite Hn4 Hn3 Hsame.
      - exists (ll ++ l2), [p]. split; [by rewrite Hn4 Hn3 Hsent Hlog2 -!app_assoc|]. split; [exact Hf12|]. right.
        exists p, request, (mc_net s1.1), workspace, items. split; [done|]. split; [done|]. split; [exact (Hlisted _ _ _ eq_refl)|exact Hmade]. }
    destruct r3 as [[[]|]|e3]; try exact (Hend s3 eq_refl). destruct (talks_result (co_tty s3.2) attempt views remaining_item_ids s3 eq_refl) as (used & [_ _ Hx] & _). exact (Hend _ Hx). }
  destruct (ra_backend args); [exact Hserve|exact Hserve|]. apply (sends_nothing _ _ _ []); [|constructor].
  rewrite timestamp_steps. by rewrite app_nil_r.
Qed.
End Whole.


(** ** [discard] *)
Section Discarding.
Context {W : Type} (net : Network W) (rec_limit : nat).
#[local] Notation rec := (recorder net).
#[local] Notation state := (machine (W * list pybytes) * console)%type.
#[local] Notation log s := ((mc_net s.1).2).

Definition discards_confirmed (workspace : pystr) (yes : bool) (s s' : state) : Prop :=
  exists listings final, log s' = log s ++ listings ++ final /\ Forall (lists rec_limit) listings /\
    (final = [] \/ exists payload n1 items,
       final = [payload] /\ encode_request rec_limit (DiscardReq (mkDiscard workspace true)) = Ok payload /\
       listed net rec_limit (mc_net s.1) any_listing n1 (Some workspace) items /\
       (yes = true \/ exists text rest, co_input s.2 = Line text :: rest /\ rstrip_lines text = confirm_text workspace)).

Lemma talks_confirm tty workspace yes : talks (W := W * list pybytes) tty (confirm_discard workspace yes) (fun confirmed used => confirmed = true ->
  yes = true \/ exists text rest, used = Line text :: rest /\ rstrip_lines text = confirm_text workspace).
Proof.
  unfold confirm_discard. destruct yes; [apply talks_ret; by left|]. apply talks_then; [apply talks_print|intros _].
  apply (talks_bind _ _ _ (fun answer used => forall t, answer = Some t -> exists text, used = [Line text] /\ t = rstrip_lines text)).
  - apply talks_catch; [eapply talks_weaken; [apply talks_readline|]; by intros [t|] used Hl t' [= <-]|].
    intros e. destruct e; try apply talks_raise. by apply talks_ret.
  - intros [t|] used Ht; apply talks_ret; [|done]. intros Heq%str_eqb_eq. right. destruct (Ht t eq_refl) as (text & -> & ->).
    by exists text, [].
Qed.

Lemma discard_sends workspace yes (s : state) : discards_confirmed workspace yes s (_discard rec rec_limit workspace yes s).2.
Proof.
  assert (Hnone : forall (s' : state) ll, log s' = log s ++ ll -> Forall (lists rec_limit) ll -> discards_confirmed workspace yes s s').
  { intros s' ll Hl Hf. exists ll, []. rewrite app_nil_r. auto. }
  unfold _discard, ebind at 1. pose proof (list_steps net rec_limit any_listing s) as Hl.
  destruct (_list_response rec rec_limit false any_listing s) as [r1 s1]. destruct Hl as (Hc & Hn & (ll & Hlog & Hf & _) & Hlisted).
  destruct r1 as [[[[current items] d]|]|e]; try exact (Hnone _ ll Hlog Hf).
  destruct (bool_decide (current = Some workspace)) eqn:Hcur; [|exact (Hnone _ ll Hlog Hf)]. apply bool_decide_eq_true in Hcur as ->.
  cbn [negb]. unfold ebind at 1. set (text := u "This permanently deletes " ++ _).
  destruct (talks_println (co_tty s1.2) text s1 eq_refl) as (u0 & [Hi0 Ht0 Hn0] & H0).
  destruct (println text s1) as [[[]|e] s2]; cbn [fst snd] in *; [subst u0|by apply (Hnone _ ll); [rewrite Hn0|]].
  unfold ebind at 1. destruct (talks_confirm (co_tty s2.2) workspace yes s2 eq_refl) as (u1 & [Hi1 Ht1 Hn1] & H1).
  destruct (confirm_discard workspace yes s2) as [[confirmed|e] s3]; cbn [fst snd] in *; [|by apply (Hnone _ ll); [rewrite Hn1 Hn0|]].
  destruct confirmed; cbn [negb]; [|by apply (Hnone _ ll); [rewrite Hn1 Hn0|]].
  pose proof (request_steps rec rec_limit (DiscardReq (mkDiscard workspace true)) s3) as Hr. unfold ebind at 1.
  destruct (_request rec rec_limit _ s3) as [r4 s4]. destruct Hr as (Hc4 & Hn4 & _).
  assert (Hend : forall s5 : state, mc_net s5.1 = mc_net s4.1 -> discards_confirmed workspace yes s s5).
  { intros s5 Hn5. rewrite -Hn5 in Hn4.
    destruct (client_request_log net rec_limit (DiscardReq (mkDiscard workspace true)) (mc_net s3.1)) as [Hsame|(p & Hp & Hsent)].
    - apply (Hnone _ ll); [|done]. by rewrite Hn4 Hsame Hn1 Hn0.
    - exists ll, [p]. split; [by rewrite Hn4 Hsent Hn1 Hn0 Hlog -app_assoc|]. split; [done|]. right. exists p, (mc_net s1.1), items.
      split; [done|]. split; [done|]. split; [exact (Hlisted _ _ _ eq_refl)|]. destruct (H1 eq_refl) as [->|(t & rest & Hu & Ht)]; [by left|right].
      exists t, (rest ++ co_input s3.2). split; [|done]. rewrite -Hc Hi0 Hi1 Hu. done. }
  destruct r4 as [[[]|]|e4]; try exact (Hend s4 eq_refl). destruct s4 as [m4 c4]. apply Hend. reflexivity.
Qed.
End Discarding.

(** C15. Nothing is discarded without consent.  Whatever the service answers, [discard]
    sends it requests for a listing and then at most one other: to discard the named
    workspace, which is the one the service listed, after [--yes] or after the next
    line of the terminal was exactly the confirmation of that workspace. *)
Theorem discard_consent {W} (net : Network W) rec_limit workspace yes (s : machine (W * list pybytes) * console) :
  discards_confirmed net rec_limit workspace yes s (_discard (recorder net) rec_limit workspace yes s).2.
Proof. apply discard_sends. Qed.
