(* ===== verification/Doctor.v ===== *)
(** * Diagnostics ([doctor.py])

    The checks of [doctor], which read only, and the removal of a stale socket.
    Connecting to the service is [nt_connect] of the network, for the client and for
    the probe alike; taking the lock without waiting is one system call, which is
    [EWOULDBLOCK] when another process holds it. *)
From S2P Require Import Prelude PyText PyVal PyFloat Json Codec Model Shlex Classifier Protocol Effect Bridge Client Resume Recovery.
From S2P Require Import Processes Adapters Sessions Contract Files Server Backends Machine.
#[local] Open Scope eff_scope.

Inductive diagnosis := Fine | Warns | Fails_.
Definition diagnosis_text (d : diagnosis) : pystr := match d with Fine => u "ok" | Warns => u "warning" | Fails_ => u "error" end.
#[export] Instance diagnosis_eq_dec : EqDecision diagnosis.
Proof. solve_decision. Defined.

Record Diagnostic := mkDiagnostic { dg_name : pystr; dg_status : diagnosis; dg_message : pystr; dg_remedy : option pystr }.

Definition _SOCKET_NAME : pystr := u "service.sock".
Definition _LOCK_NAME : pystr := u "service.lock".
Definition _V1_BASH_MARKER : pybytes := u ">>> termrecall v1 >>>".
Definition SUPPORTED_DESKTOPS : list pystr := map u ["X-Cinnamon"; "Cinnamon"; "GNOME"; "ubuntu:GNOME"; "XFCE"; "KDE"].

(** [f"{mode:04o}"] of permission bits *)
Definition octal4 (m : Z) : pystr := map (fun k => 48 + Z.land (Z.shiftr m k) 7) [9; 6; 3; 0].
(** [type(exc).__name__] *)
Definition type_name (e : exn) : pystr := match e with UnicodeError => u "UnicodeDecodeError" | _ => exn_name e end.
Definition fine (name message : pystr) : Diagnostic := mkDiagnostic name Fine message None.
Definition warns (name message remedy : pystr) : Diagnostic := mkDiagnostic name Warns message (Some remedy).
Definition fails (name message remedy : pystr) : Diagnostic := mkDiagnostic name Fails_ message (Some remedy).

Section Doctor.
Context {W : Type} (net : Network W) (rec_limit : nat) (uid : Z).
(** The verdict of [os.access] on an inode, where the package is, the environment, the
    user's home of [Path.home()], the boot id's file, and [shutil.which]. *)
Context (may : inode -> Z -> bool) (package_dir : posix_path) (env : pystr -> option pystr) (user_home : posix_path)
  (boot_text : result pystr) (which : pystr -> option pystr).

#[local] Notation prog := (eff (machine W)).

Definition R_OK : Z := 4.
Definition X_OK : Z := 1.
Definition os_access (p : posix_path) (bits : Z) : io bool :=
  ecatch (do! st := os_stat p in eret (may st.2 bits)) (on_os_error (eret false)).

Definition BASH_HOOK_PATH : posix_path := path_join package_dir (u "data/bash/termrecall.bash").
Definition NATIVE_HELPER_PATH : posix_path := path_join package_dir (u "libexec/termrecall-nonblock").
Definition CHOOSER_PATH : posix_path := path_join package_dir (u "data/xdg/termrecall.desktop").

(** ** Files and directories *)
Definition reinstall : pystr := u "reinstall the termrecall package".
Definition _file_check (name : pystr) (path : posix_path) (executable : bool) : io Diagnostic :=
  do! found := ecatch (do! st := os_stat path in eret (Some st)) (on_os_error (eret None)) in
  match found with
  | None => eret (fails name (u "package file is missing: " ++ path_str path) reinstall)
  | Some st =>
      do! readable := (if S_ISREG st then os_access path R_OK else eret false) in
      if negb readable then eret (fails name (u "package file is not a readable regular file: " ++ path_str path) reinstall)
      else
        do! runs := (if executable then os_access path X_OK else eret true) in
        eret (if runs then fine name (u "available at " ++ path_str path)
              else fails name (u "package helper is not executable: " ++ path_str path) reinstall)
  end.

(** The file or directory is of this user and has exactly this mode. *)
Definition private (is_kind : stat -> bool) (mode : Z) (st : stat) : bool :=
  is_kind st && (st_uid st =? uid) && (st_mode st =? mode).

(** [path.lstat()]: nothing there, or no answer, as values. *)
Inductive seen := Missing | Unseen | Seen (st : stat).
Definition look_at (path : posix_path) : io seen :=
  ecatch (do! st := os_lstat path in eret (Seen st))
    (fun e => if bool_decide (e = OSError ENOENT) then eret Missing else if is_os_error e then eret Unseen else eraise e).

Definition _directory_check (name : pystr) (path : posix_path) : io Diagnostic :=
  do! found := look_at path in
  eret (match found with
        | Missing => warns name (u "directory does not exist yet: " ++ path_str path) (u "start TermRecall once to create it safely")
        | Unseen => fails name (u "directory cannot be inspected: " ++ path_str path) (u "inspect the path ownership and permissions")
        | Seen st =>
            if negb (S_ISDIR st) then
              fails name (u "path is not a directory: " ++ path_str path) (u "move the entry aside and recreate a private directory")
            else if negb (private S_ISDIR 0x1C0 st) then
              fails name (u "unsafe owner or mode for " ++ path_str path ++ u "; expected current UID and " ++ octal4 0x1C0)
                (u "verify ownership and set mode " ++ octal4 0x1C0)
            else fine name (u "private current-user directory mode " ++ octal4 (st_mode st))
        end).

(** ** The stale socket *)
Definition refused (why : pystr) : exn := RuntimeError (u "stale socket cleanup refused: " ++ why).
Definition or_refused {A} (why : pystr) (m : io A) : io A := ecatch m (on_os_error (eraise (refused why))).

(** [os.open(path, O_RDONLY | O_DIRECTORY | O_NOFOLLOW)] *)
Definition os_open_dir_path (path : posix_path) : io Z :=
  query (fun f => let? x := resolve f path false in let? st := node_at f x in
                  raise_if (negb (S_ISDIR st)) (OSError ENOTDIR) ;? Ok x).
(** [fcntl.flock(fd, LOCK_EX | LOCK_NB)] *)
Definition os_flock_nb (fd : Z) : io unit := syscall.

Definition _open_verified_runtime (path : posix_path) : io Z :=
  do! fd := or_refused (u "unsafe runtime directory") (os_open_dir_path path) in
  do! st := os_fstat fd in
  eguard (negb (private S_ISDIR 0x1C0 st)) (refused (u "unsafe runtime directory owner or mode")) ;;
  eret fd.

Definition _acquire_existing_lock (runtime_fd : Z) : io Z :=
  do! fd := or_refused (u "safe singleton lock is unavailable") (os_open_rw runtime_fd _LOCK_NAME) in
  do! st := os_fstat fd in
  eguard (negb (private S_ISREG 0x180 st)) (refused (u "unsafe singleton lock")) ;;
  ecatch (os_flock_nb fd)
    (fun e => if bool_decide (e = OSError EWOULDBLOCK) then eraise (refused (u "singleton lock is held")) else eraise e) ;;
  eret fd.

Definition _socket_metadata (runtime_fd : Z) : io stat :=
  do! st := or_refused (u "socket entry is unavailable") (os_lstat_at runtime_fd _SOCKET_NAME) in
  eguard (negb (private S_ISSOCK 0x180 st)) (refused (u "entry is not a mode 0600 current-user socket")) ;;
  eret st.

Definition _probe_refused : eff W unit :=
  do! answered := ecatch (nt_connect net ;; eret true)
    (fun e => match e with
              | OSError ECONNREFUSED => eret false
              | OSError _ => eraise (refused (u "socket could not be verified as refused"))
              | _ => eraise e
              end) in
  eguard answered (refused (u "service socket is live")).

(** [metadata.st_dev, metadata.st_ino] *)
Definition identity_of (st : stat) : Z * Z := (st_dev st, st_ino st).

Definition _verified_stale_identity (paths : XDGPaths) : prog (option (Z * Z)) :=
  ecatch
    (do! runtime_fd := on_world (_open_verified_runtime (runtime_dir paths)) in
     on_world (_acquire_existing_lock runtime_fd) ;;
     do! st := on_world (_socket_metadata runtime_fd) in
     on_net _probe_refused ;;
     eret (Some (identity_of st)))
    (fun e => match e with RuntimeError _ => eret None | _ => eraise e end).

Definition cleanup_stale_socket (paths : XDGPaths) : prog (Z * Z) :=
  do! runtime_fd := on_world (_open_verified_runtime (runtime_dir paths)) in
  on_world (_acquire_existing_lock runtime_fd) ;;
  do! original := on_world (_socket_metadata runtime_fd) in
  on_net _probe_refused ;;
  on_net _probe_refused ;;
  do! current := on_world (_socket_metadata runtime_fd) in
  eguard (negb (bool_decide (identity_of current = identity_of original))) (refused (u "socket inode changed")) ;;
  on_world (os_unlink_at runtime_fd _SOCKET_NAME) ;;
  on_world (os_fsync runtime_fd) ;;
  eret (identity_of original).

(** A request to the service: [None] when it is unavailable. *)
Definition ask_service (request : ServiceRequest) : prog (option ServiceResponse) :=
  ecatch (do! r := on_net (client_request net rec_limit request) in eret (Some r))
    (fun e => match e with ServiceUnavailable _ => eret None | _ => eraise e end).

Definition _socket_check (paths : XDGPaths) : prog Diagnostic :=
  let path := path_join (runtime_dir paths) _SOCKET_NAME in
  do! found := on_world (look_at path) in
  match found with
  | Missing => eret (warns (u "socket") (u "service socket is absent: " ++ path_str path)
                       (u "start TermRecall from the supported login integration"))
  | Unseen => eret (fails (u "socket") (u "service socket cannot be inspected: " ++ path_str path) (u "inspect the runtime directory"))
  | Seen st =>
      if negb (private S_ISSOCK 0x180 st) then
        eret (fails (u "socket") (u "unsafe service socket type, owner, or mode: " ++ path_str path ++ u "; expected current UID socket mode 0600")
                (u "do not remove it automatically; inspect the verified path manually"))
      else
        do! response := ask_service StatusReq in
        match response with
        | Some _ => eret (fine (u "socket") (u "service is reachable at " ++ path_str path))
        | None =>
            do! identity := _verified_stale_identity paths in
            eret (match identity with
                  | Some (dev, ino) =>
                      warns (u "socket") (u "verified stale socket candidate: " ++ path_str path ++ u " inode " ++ str_of_int dev ++ u ":" ++ str_of_int ino)
                        (u "termrecall doctor --cleanup-stale-socket")
                  | None =>
                      fails (u "socket") (u "socket is unreachable but could not be verified stale: " ++ path_str path)
                        (u "stop the owning service or inspect the singleton lock; no automatic deletion was performed")
                  end)
        end
  end.

(** ** The state directory *)
(** [sorted(path.glob("checkpoint-*.json"), reverse=True)]: a directory that may not be
    read is empty. *)
Definition is_checkpoint_file (name : pystr) : bool :=
  is_prefix (u "checkpoint-") name && ends_with (u ".json") name && (16 <=? len name).
Definition checkpoint_files (path : posix_path) : io (list pystr) :=
  do! names := ecatch (os_listdir_path path) (fun e => if bool_decide (e = OSError EACCES) then eret [] else eraise e) in
  eret (rev (sorted_strs (filter (fun n => is_checkpoint_file n = true) names))).

(** A readable regular file of the user, as a JSON object. *)
Definition read_object (path : posix_path) : io pyval :=
  do! st := os_lstat path in
  do! readable := (if S_ISREG st && (st_uid st =? uid) then os_access path R_OK else eret false) in
  eguard (negb readable) (ValueError (u "not a readable current-user regular file")) ;;
  do! raw := read_bytes path in
  do! payload := elift (let? text := utf8_decode false raw in json_loads plain_hook rec_limit text) in
  match payload with VDict _ => eret payload | _ => eraise (ValueError (u "root is not an object")) end.

Definition is_type_or_value_error (e : exn) : bool := is_os_error e || is_value_error e || match e with TypeError _ => true | _ => false end.

Definition _state_check (path : posix_path) : io Diagnostic :=
  do! directory := _directory_check (u "state store") path in
  if negb (bool_decide (dg_status directory = Fine)) then eret directory
  else
    ecatch
      (do! names := checkpoint_files path in
       (match names with
        | name :: _ => do! payload := read_object (path_join path name) in elift (snapshot_from_dict payload) ;; eret tt
        | [] => eret tt
        end) ;;
       let recovery := path_join path (u "recovery.json") in
       do! there := exists_path recovery in
       (if there then do! payload := read_object recovery in elift (recovery_from_dict payload) ;; eret tt else eret tt) ;;
       eret (fine (u "state store") (u "state directory and latest checkpoint schema are readable")))
      (fun e => if is_type_or_value_error e then
                  eret (fails (u "state store") (u "checkpoint readability/schema check failed: " ++ type_name e)
                          (u "preserve the file and inspect it; doctor will not modify invalid checkpoints"))
                else eraise e).

(** ** The chooser setting and the durability *)
Definition setting_payload (payload : pyval) : result bool :=
  let unsupported := Err (ValueError (u "unsupported chooser config schema")) in
  match payload with
  | VDict d =>
      match dict_get_none d (u "login_chooser_enabled") with
      | VBool b =>
          if set_eqb (dict_keys d) [u "schema_version"; u "login_chooser_enabled"] &&
             py_eqb (dict_get_none d (u "schema_version")) (VInt 1) then Ok b else unsupported
      | _ => unsupported
      end
  | _ => unsupported
  end.

(** [path.is_symlink()] *)
Definition is_symlink (path : posix_path) : io bool := or_nowhere (do! st := os_lstat path in eret (S_ISLNK st)).

Definition _chooser_config_check (paths : XDGPaths) : io Diagnostic :=
  let path := path_join (config_dir paths) (u "config.json") in
  let name := u "chooser config" in
  ecatch
    (do! directory := os_lstat (config_dir paths) in
     do! st := os_lstat path in
     eguard (negb (private S_ISDIR 0x1C0 directory) || negb (private S_ISREG 0x180 st))
       (ValueError (u "unsafe owner, mode, type, or symlink")) ;;
     do! raw := read_bytes path in
     do! enabled := elift (let? text := utf8_decode false raw in let? payload := json_loads plain_hook rec_limit text in setting_payload payload) in
     eret (fine name (u "login chooser is explicitly " ++ (if enabled then u "enabled" else u "disabled"))))
    (fun e =>
       if bool_decide (e = OSError ENOENT) then
         do! link := is_symlink path in
         eret (if link then warns name (u "unsafe chooser config symlink disables login chooser") (u "replace it with termrecall chooser enable")
               else fine name (u "login chooser is enabled by default"))
       else if is_os_error e || is_value_error e then
         eret (warns name (u "invalid or unsafe chooser config disables login chooser: " ++ type_name e) (u "run termrecall chooser enable or disable"))
       else eraise e).

Definition _durability_check : prog Diagnostic :=
  let name := u "durability" in
  do! response := ask_service StatusReq in
  eret (match response with
        | None => warns name (u "durability status is unavailable while the service is unreachable") (u "start or diagnose the service")
        | Some (StatusResp r) =>
            if st_durability_degraded r || (st_durable_generation r <? st_dirty_generation r) || bool_decide (st_last_error r <> None) then
              warns name (u "durability degraded at dirty/durable generation " ++ str_of_int (st_dirty_generation r) ++ u "/" ++
                          str_of_int (st_durable_generation r)) (u "run termrecall snapshot after resolving the reported write error")
            else fine name (u "durable generation " ++ str_of_int (st_durable_generation r))
        | Some _ => fails name (u "service did not return durability status") (u "inspect service diagnostics")
        end).

(** ** The installation *)
Definition current_check (paths : LifecyclePaths) (generation : posix_path) : io Diagnostic :=
  let name := u "current link" in
  do! target := ecatch (do! t := os_readlink (current paths) in eret (Some t)) (on_os_error (eret None)) in
  eret (match target with
        | None => fails name (u "the active current generation symlink is missing")
                    (u "rerun ./install.sh or termrecall uninstall before reinstalling")
        | Some t =>
            if str_eqb t (path_str generation) then fine name (u "current link target matches the manifest generation")
            else fails name (u "the current link target does not match the manifest generation")
                   (u "rerun ./install.sh to realign the active generation")
        end).

Definition command_check (paths : LifecyclePaths) (link : posix_path) : io Diagnostic :=
  let name := u "command link " ++ path_name link in
  do! target := ecatch (do! t := os_readlink link in eret (Some t)) (on_os_error (eret None)) in
  eret (match target with
        | None => fails name (u "command link is missing: " ++ path_str link) (u "rerun ./install.sh to recreate command links")
        | Some t =>
            if str_eqb t (path_str (path_join (current paths) (u "venv/bin/" ++ path_name link)))
            then fine name (u "command link resolves to the active executable")
            else fails name (u "command link target is not the active executable: " ++ path_str link)
                   (u "rerun ./install.sh to repair command links")
        end).

(** A thing that is there, and that the manifest says is enabled. *)
Definition presence (name what : pystr) (enabled : bool) (remedy : pystr) : Diagnostic :=
  mkDiagnostic name (if enabled then Fine else Warns) (what ++ u " is present" ++ (if enabled then [] else u " but disabled in the manifest")) (Some remedy).

Definition bash_check (paths : LifecyclePaths) (m : InstallManifest) : io Diagnostic :=
  do! raw := ecatch (do! there := exists_path (bashrc paths) in if there then read_bytes (bashrc paths) else eret []) (on_os_error (eret [])) in
  eret (if contains _V1_BASH_MARKER raw
        then presence (u "bash integration") (u "managed V1 Bash block") (im_bash_enabled m) (u "run termrecall setup --bash enable to re-enable")
        else warns (u "bash integration") (u "managed V1 Bash block is absent") (u "run termrecall setup --bash enable if Bash capture is desired")).

Definition autostart_check (paths : LifecyclePaths) (m : InstallManifest) : io Diagnostic :=
  do! there := exists_path (autostart paths) in
  eret (if there
        then presence (u "autostart entry") (u "autostart desktop entry") (im_autostart_enabled m) (u "run termrecall autostart enable to re-enable")
        else warns (u "autostart entry") (u "autostart desktop entry is absent") (u "run termrecall autostart enable if login coordinator startup is desired")).

Definition ownership_check (paths : LifecyclePaths) (m : InstallManifest) : io Diagnostic :=
  do! state := (if co_changed (im_chooser m) then eret (u "managed")
                else do! there := exists_path (chooser paths) in eret (if there then u "original" else u "absent")) in
  eret (fine (u "chooser ownership") (u "chooser ownership is " ++ state)).

Definition state_safety_check (paths : LifecyclePaths) : io Diagnostic :=
  let name := u "state safety" in
  ecatch
    (do! st := os_lstat (state_root paths) in
     eret (if private S_ISDIR 0x1C0 st then fine name (u "state root is a private 0700 directory")
           else fails name (u "state root is not a private current-user 0700 directory") (u "inspect the state root ownership and mode")))
    (on_missing (eret (warns name (u "state root does not exist yet") (u "start the service once to create it safely")))).

Definition visibility_check (paths : LifecyclePaths) : Diagnostic :=
  let bin := path_str (bin_root paths) in
  if str_in bin (split_on 58 (default (u "/bin:/usr/bin") (env (u "PATH")))) then fine (u "PATH visibility") (bin ++ u " is on PATH")
  else warns (u "PATH visibility") (bin ++ u " is not on PATH") (u "add it to your shell profile so the installed commands resolve").

Definition _lifecycle_diagnostics (paths : LifecyclePaths) : io (list Diagnostic) :=
  let name := u "install manifest" in
  do! there := exists_path (manifest paths) in
  if negb there then
    eret [warns name (u "no installed TermRecall application manifest was found") (u "run ./install.sh to install or upgrade per-user")]
  else
    do! loaded := ecatch (do! raw := read_bytes (manifest paths) in
                          do! m := elift (manifest_from_bytes rec_limit raw paths uid) in eret (inr m))
                    (fun e => if is_os_error e || is_value_error e then eret (inl e) else eraise e) in
    match loaded with
    | inl e => eret [fails name (u "manifest is unreadable or not schema-2 canonical: " ++ type_name e) (u "rerun ./install.sh to repair the installation")]
    | inr m =>
        do! links := current_check paths (path_join (generations paths) (im_generation_id m)) in
        do! commands := emap (command_check paths) (command_links paths) in
        do! bash := bash_check paths m in
        do! auto := autostart_check paths m in
        do! ownership := ownership_check paths m in
        do! safety := state_safety_check paths in
        eret (fine name (u "schema-2 manifest for generation " ++ im_generation_id m) :: links :: commands ++
              [bash; auto; ownership; safety; visibility_check paths])
    end.

(** ** [run_doctor] *)
Definition boot_check : result Diagnostic :=
  match read_boot_id boot_text with
  | Ok id => Ok (fine (u "boot ID") (u "current boot ID is readable (" ++ id ++ u ")"))
  | Err e =>
      if is_os_error e || is_value_error e then
        Ok (fails (u "boot ID") (u "current Linux boot ID is unreadable or invalid") (u "verify /proc/sys/kernel/random/boot_id"))
      else Err e
  end.

Definition desktop_checks : list Diagnostic :=
  let desktop := default [] (env (u "XDG_CURRENT_DESKTOP")) in
  let informational what := fine (u "GNOME Terminal shell context") (u "GNOME_TERMINAL_SCREEN is " ++ what ++ u " (informational only)") in
  [if existsb (fun n => str_in n SUPPORTED_DESKTOPS) (split_on 58 desktop) then fine (u "desktop session") (u "XDG_CURRENT_DESKTOP=" ++ desktop)
   else warns (u "desktop session") (u "supported desktop was not detected") (u "run in a Cinnamon, GNOME, XFCE, or KDE session");
   informational (match env (u "GNOME_TERMINAL_SCREEN") with Some (_ :: _) => u "present" | _ => u "absent" end)].

Definition adapter_check (detected_name : option pystr) (detected : bool) : Diagnostic :=
  match detected_name, detected with
  | Some name, true => fine (u "terminal adapter") (name ++ u " adapter detected")
  | _, _ => fails (u "terminal adapter") (u "no supported terminal adapter was detected")
              (u "install one of: " ++ join (u ", ") (sorted_strs SUPPORTED_ADAPTERS))
  end.

Definition unsupported_names (c : AdapterCapabilities) : list pystr :=
  map fst (filter (fun kv => kv.2 = false)
    [(u "windows", windows c); (u "panes", panes c); (u "scrollback", scrollback c); (u "deterministic_grouping", deterministic_grouping c)]).
Definition capability_check (c : AdapterCapabilities) : Diagnostic :=
  match unsupported_names c with
  | [] => fine (u "adapter capabilities") (u "all advertised adapter capabilities are available")
  | names => warns (u "adapter capabilities") (u "unsupported restoration capabilities: " ++ join (u ", ") names)
               (u "expect partial or reconstructed restoration; process memory is never resumed")
  end.

(** What the environment names, and whether it could be resolved. *)
Definition installation_checks : io (list Diagnostic) :=
  ecatch
    (do! paths := elift (resolve_lifecycle_paths env (match env (u "HOME") with Some h => parse_path h | None => user_home end)) in
     _lifecycle_diagnostics paths)
    (fun e => if is_os_error e || is_value_error e then
                eret [warns (u "install manifest") (u "installed lifecycle paths could not be resolved from the environment")
                        (u "set HOME and XDG roots or run ./install.sh")]
              else eraise e).

(** [detected] is what [detect_adapter] and the adapter itself answer. *)
Definition run_doctor (paths : XDGPaths) (detected_name : result (option pystr)) (detected : result bool) (capabilities : AdapterCapabilities)
    : prog (list Diagnostic) :=
  do! hook := on_world (_file_check (u "bash hook") BASH_HOOK_PATH false) in
  do! helper := on_world (_file_check (u "native helper") NATIVE_HELPER_PATH true) in
  do! runtime := on_world (_directory_check (u "runtime directory") (runtime_dir paths)) in
  do! socket := _socket_check paths in
  do! state := on_world (_state_check (state_dir paths)) in
  do! boot := elift boot_check in
  do! name := elift detected_name in
  do! works := elift detected in
  do! login := on_world (_file_check (u "login chooser") CHOOSER_PATH false) in
  do! setting := on_world (_chooser_config_check paths) in
  do! durability := _durability_check in
  do! installation := on_world installation_checks in
  eret ([hook; helper; runtime; socket; state; boot] ++ desktop_checks ++
        [adapter_check name works; capability_check capabilities; login; setting; durability] ++ installation).
End Doctor.
