(* ===== verification/DoctorProofs.v ===== *)
(** * Diagnostics: they change nothing, and only a dead socket is removed

    In calm worlds: every check of [run_doctor] leaves the file system as it is; the
    removal takes away one entry, which was seen to be a private socket of the user
    that refused two connections, and otherwise changes nothing. *)
From S2P Require Import Prelude PyText PyVal PyFloat Json Codec Model Shlex Classifier Protocol Effect Bridge Client Resume Recovery.
From S2P Require Import Processes Adapters Sessions Contract Files FilesProofs FileViews LifecycleFs LifecycleFsProofs Samples Server Backends Machine Doctor.
#[local] Open Scope eff_scope.

(** ** Programs of a machine *)
Section Machines.
Context {W : Type}.

(** The file system is as [P] says, the connection is [n]. *)
Definition at_ (P : fs -> Prop) (n : W) (s : machine W) : Prop := holds P (mc_world s) /\ mc_net s = n.

Lemma triple_on_world {A} P n (m : io A) Q E : triple (holds P) m (fun a => holds (Q a)) (fun e => holds (E e)) ->
  triple (at_ P n) (on_world m) (fun a => at_ (Q a) n) (fun e => at_ (E e) n).
Proof.
  intros Hm [w n' l] [Hw Hn]. cbn in Hw, Hn. unfold on_world. cbn. specialize (Hm w Hw).
  destruct (m w) as [[a|e] w']; by split.
Qed.

Lemma triple_on_net {A} P n (m : eff W A) (Q : A -> W -> Prop) (E : exn -> W -> Prop) :
  match m n with (Ok a, n') => Q a n' | (Err e, n') => E e n' end ->
  triple (at_ P n) (on_net m) (fun a s => exists n', at_ P n' s /\ Q a n') (fun e s => exists n', at_ P n' s /\ E e n').
Proof.
  intros Hm [w n' l] [Hw Hn]. cbn in Hw, Hn. subst n'. unfold on_net. cbn. destruct (m n) as [[a|e] n']; exists n'; by split.
Qed.

Lemma keeps_on_world {A} P (m : io A) : keeps (holds P) m -> keeps (fun s : machine W => holds P (mc_world s)) (on_world m).
Proof.
  intros Hm [w n l] Hw. unfold on_world. cbn in *. specialize (Hm w Hw). by destruct (m w) as [[a|e] w'].
Qed.
Lemma keeps_on_net {A} P (m : eff W A) : keeps (fun s : machine W => holds P (mc_world s)) (on_net m).
Proof. intros [w n l] Hw. unfold on_net. cbn in *. by destruct (m n) as [[a|e] n']. Qed.
Lemma keeps_on_look {A} P (m : eff lookups A) : keeps (fun s : machine W => holds P (mc_world s)) (on_look m).
Proof. intros [w n l] Hw. unfold on_look. cbn in *. by destruct (m l) as [[a|e] l']. Qed.
End Machines.
#[export] Hint Resolve keeps_on_world keeps_on_net keeps_on_look : keeps.

Section Doctor.
Context {W : Type} (net : Network W) (rec_limit : nat) (uid : Z).
Context (may : inode -> Z -> bool) (package_dir : posix_path) (env : pystr -> option pystr) (user_home : posix_path)
  (boot_text : result pystr) (which : pystr -> option pystr).

(** ** The checks read only *)
Section Reads.
Context (P : fs -> Prop).
Notation reads m := (keeps (holds P) m).
Notation watches m := (keeps (fun s : machine W => holds P (mc_world s)) m).

Lemma keeps_stat p : reads (os_stat p). Proof. apply keeps_query. Qed.
Lemma keeps_lstat p : reads (os_lstat p). Proof. apply keeps_query. Qed.
Lemma keeps_readlink p : reads (os_readlink p). Proof. apply keeps_query. Qed.
Lemma keeps_read_bytes p : reads (read_bytes p). Proof. apply keeps_query. Qed.
Lemma keeps_fstat fd : reads (os_fstat fd). Proof. apply keeps_query. Qed.
Lemma keeps_listdir_path p : reads (os_listdir_path p). Proof. apply keeps_query. Qed.
Lemma keeps_lstat_at d n : reads (os_lstat_at d n). Proof. apply keeps_query. Qed.
Lemma keeps_open_rw d n : reads (os_open_rw d n). Proof. apply keeps_query. Qed.
Lemma keeps_open_dir_path p : reads (os_open_dir_path p). Proof. apply keeps_query. Qed.
#[local] Hint Resolve keeps_stat keeps_lstat keeps_readlink keeps_read_bytes keeps_fstat keeps_listdir_path keeps_lstat_at
  keeps_open_rw keeps_open_dir_path : keeps.

Lemma keeps_access p bits : reads (os_access may p bits).
Proof. unfold os_access. keeps_all. Qed.
Lemma keeps_look_at p : reads (look_at p).
Proof. unfold look_at. keeps_all. Qed.
#[local] Hint Resolve keeps_access keeps_look_at : keeps.
Lemma keeps_file_check name p x : reads (_file_check may name p x).
Proof. unfold _file_check. keeps_all. Qed.
Lemma keeps_directory_check name p : reads (_directory_check uid name p).
Proof. unfold _directory_check. keeps_all. Qed.
Lemma keeps_read_object p : reads (read_object rec_limit uid may p).
Proof. unfold read_object. keeps_all. Qed.
#[local] Hint Resolve keeps_file_check keeps_directory_check keeps_read_object : keeps.
Lemma keeps_state_check p : reads (_state_check rec_limit uid may p).
Proof. unfold _state_check, checkpoint_files. cbv zeta. keeps_all. Qed.
Lemma keeps_chooser_check paths : reads (_chooser_config_check rec_limit uid paths).
Proof. unfold _chooser_config_check, is_symlink. cbv zeta. keeps_all. Qed.
Lemma keeps_installation : reads (installation_checks rec_limit uid env user_home).
Proof.
  unfold installation_checks, _lifecycle_diagnostics, current_check, bash_check, autostart_check, ownership_check, state_safety_check.
  cbv zeta. keeps_all. unfold command_check. cbv zeta. keeps_all.
Qed.
Lemma keeps_open_runtime p : reads (_open_verified_runtime uid p).
Proof. unfold _open_verified_runtime, or_refused. keeps_all. Qed.
Lemma keeps_existing_lock d : reads (_acquire_existing_lock uid d).
Proof. unfold _acquire_existing_lock, or_refused, os_flock_nb. keeps_all. Qed.
Lemma keeps_socket_metadata d : reads (_socket_metadata uid d).
Proof. unfold _socket_metadata, or_refused. keeps_all. Qed.
#[local] Hint Resolve keeps_state_check keeps_chooser_check keeps_installation keeps_open_runtime keeps_existing_lock keeps_socket_metadata : keeps.

Lemma watches_ask request : watches (ask_service net rec_limit request).
Proof. unfold ask_service. keeps_all. Qed.
Lemma watches_identity paths : watches (_verified_stale_identity net uid paths).
Proof. unfold _verified_stale_identity. keeps_all. Qed.
#[local] Hint Resolve watches_ask watches_identity : keeps.
Lemma watches_socket_check paths : watches (_socket_check net rec_limit uid paths).
Proof. unfold _socket_check. cbv zeta. keeps_all. Qed.
Lemma watches_durability : watches (_durability_check net rec_limit).
Proof. unfold _durability_check. cbv zeta. keeps_all. Qed.
#[local] Hint Resolve watches_socket_check watches_durability : keeps.

Lemma watches_doctor paths detected_name detected capabilities :
  watches (run_doctor net rec_limit uid may package_dir env user_home boot_text paths detected_name detected capabilities).
Proof. unfold run_doctor. keeps_all. Qed.
End Reads.

(** ** The removal of a stale socket *)
Definition dead (n n' : W) : Prop := nt_connect net n = (Err (OSError ECONNREFUSED), n').

(** The entry, of this inode, that may be removed: in the private runtime directory,
    beside a private lock file. *)
Record stale_in (f : fs) (paths : XDGPaths) (d : Z) (st : stat) : Prop := {
  si_runtime : resolve f (runtime_dir paths) false = Ok d;
  si_private : exists i, f_nodes f !! d = Some i /\ private uid S_ISDIR 0x1C0 (d, i) = true;
  si_lock : exists l i, entry f d _LOCK_NAME = Some l /\ f_nodes f !! l = Some i /\ private uid S_ISREG 0x180 (l, i) = true;
  si_socket : entry f d _SOCKET_NAME = Some (st_ino st) /\ node_at f (st_ino st) = Ok st /\ private uid S_ISSOCK 0x180 st = true;
}.

Notation same := (fun f => at_ (eq f)).

Lemma on_asks {A B} f n (m : io A) (k : A -> eff (machine W) B) R E Q F : asks f m R E ->
  (forall a, R a -> triple (at_ (eq f) n) (k a) Q F) -> (forall e s, at_ (eq f) n s -> F e s) ->
  triple (at_ (eq f) n) (ebind (on_world m) k) Q F.
Proof.
  intros Hm Hk HF [w n' l] [Hw Hn]. cbn in Hw, Hn. subst n'. unfold ebind, on_world. cbn. specialize (Hm w Hw).
  destruct (m w) as [[a|e] w']; destruct Hm as [Hw' H]; [exact (Hk a H (mkMachine w' n l) (conj Hw' eq_refl))|exact (HF e (mkMachine w' n l) (conj Hw' eq_refl))].
Qed.

Lemma asks_refused {A} f why (m : io A) Q E : asks f m Q E -> asks f (or_refused why m) Q (fun _ => True).
Proof.
  intros Hm. eapply asks_catch; [exact Hm|]. intros e _. unfold on_os_error. destruct (is_os_error e); by apply asks_raise.
Qed.

Lemma asks_open_runtime f path : asks f (_open_verified_runtime uid path)
  (fun d => resolve f path false = Ok d /\ exists i, f_nodes f !! d = Some i /\ private uid S_ISDIR 0x1C0 (d, i) = true) (fun _ => True).
Proof.
  unfold _open_verified_runtime. eapply asks_bind; [eapply asks_refused, asks_query|]. intros d H.
  apply rbind_Ok in H as (x & Hx & H). apply rbind_Ok in H as (st & _ & H). apply rbind_Ok in H as (v & _ & [= ->]).
  eapply asks_bind; [eapply asks_weaken; [apply asks_fstat|intros st' H; exact H|done]|]. intros st' Hst.
  apply (asks_bind _ _ _ (fun _ => private uid S_ISDIR 0x1C0 st' = true)).
  - apply asks_guard; [by intros ->%negb_false_iff|done].
  - intros _ Hp. apply asks_ret. split; [done|]. apply node_at_Ok in Hst as [Hd Hn]. destruct st' as [y i]. cbn in Hd, Hn. subst y. by exists i.
Qed.

Lemma asks_existing_lock f d : asks f (_acquire_existing_lock uid d)
  (fun l => entry f d _LOCK_NAME = Some l /\ exists i, f_nodes f !! l = Some i /\ private uid S_ISREG 0x180 (l, i) = true) (fun _ => True).
Proof.
  unfold _acquire_existing_lock. eapply asks_bind; [eapply asks_refused, asks_query|]. intros l H.
  apply rbind_Ok in H as (x & Hx%lookup_at_Ok & H). apply rbind_Ok in H as (st & _ & H). apply rbind_Ok in H as (v & _ & H).
  apply rbind_Ok in H as (v' & _ & [= ->]).
  eapply asks_bind; [eapply asks_weaken; [apply asks_fstat|intros st' H; exact H|done]|]. intros st' Hst.
  apply (asks_bind _ _ _ (fun _ => private uid S_ISREG 0x180 st' = true)); [apply asks_guard; [by intros ->%negb_false_iff|done]|].
  intros _ Hp. apply (asks_bind _ _ _ (fun _ => True)).
  - eapply asks_catch; [apply asks_keeps, keeps_syscall|]. intros e _. case_bool_decide; by apply asks_raise.
  - intros _ _. apply asks_ret. split; [done|]. apply node_at_Ok in Hst as [Hd Hn]. destruct st' as [y i]. cbn in Hd, Hn. subst y. by exists i.
Qed.

Lemma asks_socket f d : asks f (_socket_metadata uid d)
  (fun st => entry f d _SOCKET_NAME = Some (st_ino st) /\ node_at f (st_ino st) = Ok st /\ private uid S_ISSOCK 0x180 st = true) (fun _ => True).
Proof.
  unfold _socket_metadata. eapply asks_bind; [eapply asks_refused, asks_lstat_at|]. intros st [He Hn].
  apply (asks_bind _ _ _ (fun _ => private uid S_ISSOCK 0x180 st = true)); [apply asks_guard; [by intros ->%negb_false_iff|done]|].
  intros _ Hp. apply asks_ret. split; [done|]. split; [|done]. apply node_at_Ok. by destruct st.
Qed.

Lemma probe_dead {B} f n (k : unit -> eff (machine W) B) Q (F : exn -> machine W -> Prop) :
  (forall n', dead n n' -> triple (at_ (eq f) n') (k tt) Q F) -> (forall e n' s, at_ (eq f) n' s -> F e s) ->
  triple (at_ (eq f) n) (ebind (on_net (_probe_refused net)) k) Q F.
Proof.
  intros Hk HF [w n0 l] [Hw Hn]. cbn in Hw, Hn. subst n0. unfold ebind at 1, on_net, _probe_refused, ecatch, ebind, eguard, elift, eret, eraise.
  cbn [mc_net mc_world mc_look]. destruct (nt_connect net n) as [[u1|e] n'] eqn:Hc; cbn [raise_if].
  - exact (HF _ _ (mkMachine w n' l) (conj Hw eq_refl)).
  - destruct (decide (e = OSError ECONNREFUSED)) as [->|He]; [exact (Hk n' Hc (mkMachine w n' l) (conj Hw eq_refl))|].
    destruct e; try exact (HF _ _ (mkMachine w n' l) (conj Hw eq_refl)).
    destruct e; try exact (HF _ _ (mkMachine w n' l) (conj Hw eq_refl)). by destruct He.
Qed.

(** How the removal may end: nothing happened and it raised, or the entry is gone. *)
Definition removed (f f' : fs) (paths : XDGPaths) (n n' : W) (st : stat) : Prop := exists d n1,
  stale_in f paths d st /\ dead n n1 /\ dead n1 n' /\ entry f' d _SOCKET_NAME = None /\
  (forall q, ~ (directory_of f q = Some d /\ path_name q = _SOCKET_NAME) -> see f' q = see f q).

Lemma unlink_removed f f' paths d st n n1 n' : fs_ok f -> stale_in f paths d st -> dead n n1 -> dead n1 n' ->
  unlink_node f d _SOCKET_NAME = Ok f' -> removed f f' paths n n' st.
Proof.
  intros Hok Hs H1 H2 (x & Hx & Hnd & Hsame & He)%unlink_node_Ok. exists d, n1. split; [done|]. split; [done|]. split; [done|].
  split; [rewrite He decide_True //|]. intros q Hq. apply (touched_see d [_SOCKET_NAME]); [done| |].
  - apply (touched_same _ _ _ _ Hsame).
    + intros y m Hy. rewrite He decide_False //. intros [-> ->]. apply Hy. split; [done|by left].
    + intros m y Hy. rewrite He. case_decide as E; [|done]. destruct E as [_ ->]. rewrite Hx. split; [by intros [= <-]|done].
  - intros [Hd Hin%list_elem_of_singleton]. by apply Hq.
Qed.

Lemma cleanup_spec f n paths : fs_ok f ->
  triple (at_ (eq f) n) (cleanup_stale_socket net uid paths)
    (fun id s' => exists st, id = identity_of st /\ removed f (w_fs (mc_world s')) paths n (mc_net s') st)
    (fun _ s' => w_fs (mc_world s') = f \/ exists st, removed f (w_fs (mc_world s')) paths n (mc_net s') st).
Proof.
  intros Hok.
  assert (Hsame : forall n' s, at_ (eq f) n' s -> w_fs (mc_world s) = f \/ exists st, removed f (w_fs (mc_world s)) paths n (mc_net s) st).
  { intros n' s [[_ Hf] _]. by left. }
  unfold cleanup_stale_socket. eapply on_asks; [apply asks_open_runtime| |intros _; apply Hsame]. intros d [Hd Hpriv].
  eapply on_asks; [apply asks_existing_lock| |intros _; apply Hsame]. intros l [Hl (il & Hil)].
  eapply on_asks; [apply asks_socket| |intros _; apply Hsame]. intros st Hst.
  assert (Hstale : stale_in f paths d st) by (split; [exact Hd|exact Hpriv|exists l, il; exact (conj Hl Hil)|exact Hst]).
  eapply probe_dead; [|intros _; apply Hsame]. intros n1 H1. eapply probe_dead; [|intros _; apply Hsame]. intros n2 H2.
  eapply on_asks; [apply asks_socket| |intros _; apply Hsame]. intros st' _.
  apply (triple_bind _ _ _ (fun _ => at_ (eq f) n2)); [apply triple_guard; [done|intros s Hs _; exact (Hsame _ _ Hs)]|]. intros u1.
  set (gone := fun g => removed f g paths n n2 st).
  apply (triple_bind _ _ _ (fun _ => at_ gone n2)).
  - eapply triple_weaken; [apply triple_on_world, (change_holds (eq f) _ (fun _ => gone))|intros s Hs; exact Hs|intros u2 s Hs; exact Hs|].
    + intros f1 f2 [] <- (g & Hg & [= <-])%rbind_Ok. exact (unlink_removed _ _ _ _ _ _ _ _ Hok Hstale H1 H2 Hg).
    + intros e s [[Hc [Hf _]] Hn]. apply (Hsame n2). by split.
  - intros u2. assert (Hgone : forall s, at_ gone n2 s -> removed f (w_fs (mc_world s)) paths n (mc_net s) st) by by intros s [[_ Hg] ->].
    apply (triple_bind _ _ _ (fun _ => at_ gone n2)).
    + eapply triple_weaken; [apply triple_on_world, (keeps_syscall gone)|intros s Hs; exact Hs|intros u3 s Hs; exact Hs|]. intros e s Hs. right. exists st. by apply Hgone.
    + intros u3. apply triple_ret. intros s Hs. exists st. split; [done|]. by apply Hgone.
Qed.
End Doctor.


(** The diagnosis reads only: whatever it finds, whatever fails and whatever the
    service answers, the file system stays as it is. *)
Theorem doctor_reads_only {W} (net : Network W) rec_limit uid may package_dir env user_home boot_text paths detected_name detected capabilities s :
  calm (mc_world s) ->
  w_fs (mc_world (run_doctor net rec_limit uid may package_dir env user_home boot_text paths detected_name detected capabilities s).2) =
  w_fs (mc_world s).
Proof.
  intros Hc. symmetry. refine (proj2 (keeps_run (fun s' => holds (eq (w_fs (mc_world s))) (mc_world s')) _ s _ _)); [|by split].
  apply watches_doctor.
Qed.

(** ** Witnesses *)
Definition run_paths : XDGPaths := mkXDG (parse_path (u "/home/a/run")) (parse_path (u "/home/a/.local/state/termrecall")) (parse_path (u "/home/a/.config/termrecall")).

(** A home with a runtime directory, in which a lock file and a socket are left. *)
Definition make_left : result fs :=
  let w := (os_mkdir (runtime_dir run_paths) 0x1C0 (home_world [] [])).2 in
  let? d := resolve (w_fs w) (runtime_dir run_paths) false in
  let? '(f, _) := add_node (w_fs w) d _LOCK_NAME 1000 0x180 1 (Reg []) in
  let? '(f, _) := add_node f d _SOCKET_NAME 1000 0x180 1 Sock in
  Ok f.
Definition left_fs : fs := Eval vm_compute in match make_left with Ok f => f | Err _ => empty_fs end.
Lemma left_fs_ok : fs_ok left_fs.
Proof.
  assert (H : make_left = Ok left_fs) by (vm_compute; reflexivity). revert H. unfold make_left. cbv zeta.
  set (w := (os_mkdir _ _ _).2).
  assert (Hw : fs_ok (w_fs w)).
  { refine (proj2 (keeps_run (holds fs_ok) _ _ (keeps_mkdir _ _) _)). split; [by apply calm_home|apply home_fs_ok]. }
  intros H. apply rbind_Ok in H as (d & _ & H). apply rbind_Ok in H as ([f1 x1] & H1 & H). apply rbind_Ok in H as ([f2 x2] & H2 & [= <-]).
  exact (add_ok _ _ _ _ _ _ Sock _ _ I H2 (add_ok _ _ _ _ _ _ (Reg []) _ _ I H1 Hw)).
Qed.

(** Nobody listens. *)
Definition dead_network : Network nat := {|
  nt_connect n := (Err (OSError ECONNREFUSED), S n); nt_sendall _ n := (Err (OSError EIO), n);
  nt_recv _ n := (Err (OSError EIO), n); nt_monotonic n := (0, n) |}.
Definition left_machine (script : list kernel) : machine nat :=
  mkMachine (mkWorld left_fs 1000 0x12 script []) 0%nat (mkLookups [] []).


Lemma doctor_reads_only_witness : exists report,
  let run := run_doctor dead_network 16 1000 (fun _ _ => true) (parse_path (u "/home/a/app")) (fun _ => None) (parse_path (u "/home/a"))
    (Ok (u "00000000-0000-4000-8000-000000000000")) run_paths (Ok None) (Ok false) gnome_capabilities (left_machine [Serves; Fails EIO]) in
  run.1 = Ok report /\ (14 <= length report)%nat /\ w_fs (mc_world run.2) = left_fs.
Proof.
  assert (Hc : calm (mc_world (left_machine [Serves; Fails EIO]))).
  { destruct (calm_home [Serves; Fails EIO] [] eq_refl eq_refl) as [H1 H2]. split; [exact H1|exact H2]. }
  pose proof (doctor_reads_only dead_network 16 1000 (fun _ _ => true) (parse_path (u "/home/a/app")) (fun _ => None) (parse_path (u "/home/a"))
    (Ok (u "00000000-0000-4000-8000-000000000000")) run_paths (Ok None) (Ok false) gnome_capabilities _ Hc) as H.
  cbv zeta. revert H.
  assert (Hn : match (run_doctor dead_network 16 1000 (fun _ _ => true) (parse_path (u "/home/a/app")) (fun _ => None) (parse_path (u "/home/a"))
    (Ok (u "00000000-0000-4000-8000-000000000000")) run_paths (Ok None) (Ok false) gnome_capabilities (left_machine [Serves; Fails EIO])).1 with
    | Ok l => (14 <=? length l)%nat | Err _ => false end = true) by (vm_compute; reflexivity).
  revert Hn.
  generalize (run_doctor dead_network 16 1000 (fun _ _ => true) (parse_path (u "/home/a/app")) (fun _ => None) (parse_path (u "/home/a"))
    (Ok (u "00000000-0000-4000-8000-000000000000")) run_paths (Ok None) (Ok false) gnome_capabilities (left_machine [Serves; Fails EIO])).
  intros [[l|e] s'] Hn H; [|discriminate Hn]. exists l. split; [reflexivity|]. split; [apply Nat.leb_le; exact Hn|exact H].
Defined.
