(* ===== verification/Login.v ===== *)
(** * The login coordinator ([cli.py])

    The program that the desktop starts at login: it holds a lock, runs the service,
    waits until it is ready, offers a restore and ends with the service.  What its
    coroutines wait for is [life]: how the server, the service's task, the chooser and
    the stop event turn out.  Cancellation from outside is not modelled. *)
From S2P Require Import Prelude PyText PyVal PyFloat Json Codec Model Shlex Classifier Protocol Effect Bridge Client Resume Recovery.
From S2P Require Import Processes Adapters Sessions Files Backends Machine Chooser Startup Cli.
#[local] Open Scope eff_scope.

(** How waiting for the stop event or the end of the service's task ends. *)
Inductive waited := Stopped | Ended (how : result unit) (stopping : bool).
(** What the service's task does when it is told to stop. *)
Inductive winding := Winds (how : result unit) | Lingers.

Record life := mkLife {
  li_server : result unit;            (* [server_factory()] *)
  li_start : result unit;             (* [server.start()] *)
  li_service : nat -> option (result unit);   (* the service's task at each poll, if it is done *)
  li_wait : waited;
  li_chooser_done : bool;             (* the chooser ended before the service *)
  li_stop : winding;
  li_close : result unit;             (* [server.close()] *)
}.

(** What the coordinator did, in order. *)
Inductive act := Lock | Start | Serve | Offer (workspace : pystr) | Stop | CancelChooser | CancelService | Close | Unlock.
#[export] Instance act_eq_dec : EqDecision act.
Proof. solve_decision. Defined.

(** Its variables: whether there is a server, a task of the service (and how it ended),
    and a task of the chooser. *)
Record locals := mkLocals {
  lo_server : bool;
  lo_service : bool;
  lo_ended : option (result unit);
  lo_chooser : bool;
  lo_log : list act;
}.
Definition no_locals : locals := mkLocals false false None false [].

Section Login.
Context {W : Type} (net : Network W) (rec_limit : nat) (uid : Z) (cwd : posix_path) (env : pystr -> option pystr).
(** [str.casefold] *)
Context (casefold : pystr -> pystr) (l : life).

Definition coordinator (A : Type) : Type := eff (machine W * locals) A.
#[local] Notation prog := coordinator.
Definition outside {A} (m : eff (machine W) A) : prog A := fun '(s, v) => let '(r, s') := m s in (r, (s', v)).
Definition inside (f : locals -> locals) : prog unit := eput (fun sv => (sv.1, f sv.2)).
Definition act_ (a : act) : prog unit :=
  inside (fun v => mkLocals (lo_server v) (lo_service v) (lo_ended v) (lo_chooser v) (lo_log v ++ [a])).
Definition set_server : prog unit := inside (fun v => mkLocals true (lo_service v) (lo_ended v) (lo_chooser v) (lo_log v)).
Definition set_service : prog unit := inside (fun v => mkLocals (lo_server v) true (lo_ended v) (lo_chooser v) (lo_log v)).
Definition set_ended (how : result unit) : prog unit :=
  inside (fun v => mkLocals (lo_server v) (lo_service v) (Some how) (lo_chooser v) (lo_log v)).
Definition set_chooser : prog unit := inside (fun v => mkLocals (lo_server v) (lo_service v) (lo_ended v) true (lo_log v)).

Definition _supported_cinnamon : bool := contains (u "cinnamon") (casefold (default [] (env (u "XDG_CURRENT_DESKTOP")))).

Definition ask (request : ServiceRequest) : prog ServiceResponse := outside (on_net (client_request net rec_limit request)).
Definition is_ready (r : ServiceResponse) : bool := match r with StatusResp s => st_ready s | _ => false end.

(** At most [n] polls, the first of them number [i]; between them it sleeps. *)
Fixpoint poll (n i : nat) : prog bool :=
  match n with
  | O => eret false
  | S n' =>
      match li_service l i with
      | Some how => set_ended how ;; elift how ;; eraise (RuntimeError (u "service stopped before readiness"))
      | None =>
          do! response := ask StatusReq in
          if is_ready response then eret true else poll n' (S i)
      end
  end.

Definition offer (paths : XDGPaths) : prog unit :=
  do! listed := ask (RestoreListReq any_listing) in
  do! enabled := outside (on_world (login_chooser_enabled rec_limit uid cwd paths)) in
  match listed with
  | RestoreListResponse (Some workspace) _ _ => if enabled then act_ (Offer workspace) ;; set_chooser else eret tt
  | _ => eret tt
  end.

(** What [asyncio.wait] leaves: the exit code. *)
Definition await_end : prog Z :=
  match li_wait l with
  | Stopped => eret EXIT_OK
  | Ended how stopping => set_ended how ;; if stopping then eret EXIT_OK else elift how ;; eret EXIT_FAILURE
  end.

Definition run_service (paths : XDGPaths) : prog Z :=
  elift (li_server l) ;; set_server ;;
  elift (li_start l) ;; act_ Start ;;
  act_ Serve ;; set_service ;;
  do! ready := poll 50 0 in
  if negb ready then eret EXIT_FAILURE
  else offer paths ;; await_end.

(** The end of the chooser, of the service's task and of the server: the exit code. *)
Definition end_chooser : prog unit :=
  do! v := eget snd in
  if lo_chooser v && negb (li_chooser_done l) then act_ CancelChooser else eret tt.
Definition end_service (code : Z) : prog Z :=
  do! v := eget snd in
  if negb (lo_service v) then eret code
  else
    match default (li_stop l) (Winds <$> lo_ended v) with
    | Winds (Ok _) => eret code
    | Winds (Err _) => eret EXIT_FAILURE
    | Lingers => act_ CancelService ;; eret code
    end.
Definition end_server (code : Z) : prog Z :=
  do! v := eget snd in
  if lo_server v then act_ Close ;; eret (match li_close l with Ok _ => code | Err _ => EXIT_FAILURE end)
  else eret code.

Definition wind_up (code : Z) : prog Z :=
  act_ Stop ;;
  end_chooser ;;
  do! code := end_service code in
  do! code := end_server code in
  act_ Unlock ;;
  eret code.

Definition run_login_coordinator (paths : XDGPaths) : prog Z :=
  if negb _supported_cinnamon then eret EXIT_OK
  else
    do! held := outside (on_world (_acquire_login_lock uid cwd paths)) in
    match held with
    | None => eret EXIT_OK
    | Some _ =>
        act_ Lock ;;
        do! code := ecatch (run_service paths) (fun e => if is_exception e then eret EXIT_FAILURE else wind_up EXIT_OK ;; eraise e) in
        wind_up code
    end.
End Login.
