(* ===== verification/LoginProofs.v ===== *)
(** * The login coordinator winds up

    Whatever the server, the service, the chooser and the network do: what was begun
    under the lock is ended before the lock is released, and a restore is offered only
    once the service is ready, for a workspace that it listed, if the user's setting
    allows it. *)
From S2P Require Import Prelude PyText PyVal PyFloat Json Codec Model Shlex Classifier Protocol Effect Bridge Client Resume Recovery.
From S2P Require Import Processes Adapters Sessions Files Backends Machine Chooser Startup Cli Login.
#[local] Open Scope eff_scope.

Section Login.
Context {W : Type} (net : Network W) (rec_limit : nat) (uid : Z) (cwd : posix_path) (l : life) (paths : XDGPaths).
#[local] Notation state := (machine W * locals)%type.

(** Why a restore is offered. *)
Definition offered (workspace : pystr) : Prop :=
  (exists n1 response n2, client_request net rec_limit StatusReq n1 = (Ok response, n2) /\ is_ready response = true) /\
  (exists n1 items diagnostics n2,
     client_request net rec_limit (RestoreListReq any_listing) n1 = (Ok (RestoreListResponse (Some workspace) items diagnostics), n2)) /\
  (exists w1 w2, login_chooser_enabled rec_limit uid cwd paths w1 = (Ok true, w2)).

(** The course of the service, and the chooser's task. *)
Inductive course : list act -> bool -> Prop :=
| not_started : course [] false
| served : course [Start; Serve] false
| restore_offered workspace : offered workspace -> course [Start; Serve; Offer workspace] true.

(** Its variables while it runs, and that there is a server. *)
Definition during (mid : list act) (chooser server : bool) (s : state) : Prop :=
  lo_log s.2 = Lock :: mid /\ lo_chooser s.2 = chooser /\ lo_server s.2 = server.
Definition running (s : state) : Prop :=
  exists mid chooser server, course mid chooser /\ during mid chooser server s /\ (server = false -> exists e, li_server l = Err e).

Lemma during_running mid chooser server s : course mid chooser -> (server = false -> exists e, li_server l = Err e) -> during mid chooser server s -> running s.
Proof. intros Hc Hs Hd. by exists mid, chooser, server. Qed.

Section Keeps.
Context (mid : list act) (chooser server : bool).
Notation stays m := (keeps (during mid chooser server) m).

Lemma stays_outside {A} (m : eff (machine W) A) : stays (outside m).
Proof. intros [s v] H. unfold outside. destruct (m s) as [[a|e] s']; exact H. Qed.
Lemma stays_ended how : stays (set_ended how).
Proof. intros [s v] H. exact H. Qed.
Lemma stays_service : stays set_service.
Proof. intros [s v] H. exact H. Qed.
End Keeps.
#[local] Hint Resolve stays_outside stays_ended stays_service : keeps.

(** A poll that says that the service is ready, has an answer that says so. *)
Definition was_ready : Prop := exists n1 response n2, client_request net rec_limit StatusReq n1 = (Ok response, n2) /\ is_ready response = true.

Lemma ask_answers mid chooser server request : triple (during mid chooser server) (ask net rec_limit request)
  (fun r s => during mid chooser server s /\ exists n1 n2, client_request net rec_limit request n1 = (Ok r, n2)) (fun _ => during mid chooser server).
Proof.
  intros [s v] H. unfold ask, outside, on_net. destruct (client_request net rec_limit request (mc_net s)) as [[r|e] n2] eqn:E; [|exact H].
  split; [exact H|]. by exists (mc_net s), n2.
Qed.

Lemma poll_ready mid chooser server n : forall i,
  triple (during mid chooser server) (poll net rec_limit l n i) (fun ready s => during mid chooser server s /\ (ready = true -> was_ready))
    (fun _ => during mid chooser server).
Proof.
  induction n as [|n IH]; intros i; [by apply triple_ret|]. cbn [poll]. destruct (li_service l i) as [how|].
  - apply (triple_bind _ _ _ (fun _ => during mid chooser server)); [apply stays_ended|intros ?].
    apply (triple_bind _ _ _ (fun _ => during mid chooser server)); [apply keeps_lift|intros ?]. by apply triple_raise.
  - eapply triple_bind; [apply ask_answers|]. intros r. destruct (is_ready r) eqn:Hr.
    + apply triple_ret. intros s [H (n1 & n2 & Hc)]. split; [done|]. intros _. by exists n1, r, n2.
    + eapply triple_weaken; [apply (IH (S i))|by intros s [H _]|intros a s H; exact H|intros e s H; exact H].
Qed.

Lemma during_act a mid chooser server : triple (during mid chooser server) (act_ a) (fun _ => during (mid ++ [a]) chooser server) (fun _ _ => False).
Proof. intros [s v] (Hl & Hc & Hs). split; [|by split]. cbn in *. by rewrite Hl. Qed.

Lemma offer_course : was_ready -> triple (during [Start; Serve] false true) (offer net rec_limit uid cwd paths) (fun _ => running) (fun _ => running).
Proof.
  intros Hready. assert (Hrun : forall s, during [Start; Serve] false true s -> running s) by (intros s; by apply during_running; [apply served|]).
  unfold offer. eapply triple_bind; [eapply triple_weaken; [exact (ask_answers [Start; Serve] false true _)|done|intros r s H; exact H|intros e; exact Hrun]|]. intros listed.
  eapply (triple_bind _ _ _ (fun enabled s => (during [Start; Serve] false true s /\ exists n1 n2,
    client_request net rec_limit (RestoreListReq any_listing) n1 = (Ok listed, n2)) /\
    (enabled = true -> exists w1 w2, login_chooser_enabled rec_limit uid cwd paths w1 = (Ok true, w2)))).
  - intros [s v] [H Hl]. unfold outside, on_world. destruct (login_chooser_enabled rec_limit uid cwd paths (mc_world s)) as [[b|e] w2] eqn:E; cycle 1.
    { apply Hrun. exact H. }
    split; [split; [exact H|done]|]. intros ->. by exists (mc_world s), w2.
  - intros enabled [s v] [[H (n1 & n2 & Hl)] Hen]. destruct listed; try (apply Hrun; exact H). destruct workspace as [ws|]; [|apply Hrun; exact H].
    destruct enabled; [|apply Hrun; exact H]. destruct H as (Hlog & _ & Hsv). unfold ebind, act_, set_chooser, inside, eput. cbn in Hlog, Hsv.
    exists [Start; Serve; Offer ws], true, true. split; [|split; [|done]].
    + apply restore_offered. split; [exact Hready|]. split; [do 4 eexists; exact Hl|by apply Hen].
    + split; [cbn; by rewrite Hlog|]. by split.
Qed.

Lemma running_stays {A} (m : coordinator (W := W) A) : (forall mid chooser server, keeps (during mid chooser server) m) -> keeps running m.
Proof.
  intros Hm s (mid & chooser & server & Hc & Hd & Hs). specialize (Hm mid chooser server s Hd).
  destruct (m s) as [[a|e] s']; by exists mid, chooser, server.
Qed.

Lemma run_course : triple (during [] false false) (run_service net rec_limit uid cwd l paths) (fun _ => running) (fun _ => running).
Proof.
  assert (Hnot : li_server l = Ok tt -> forall s, during [] false true s -> running s) by (intros _ s; by apply during_running; [apply not_started|]).
  assert (Hserved : forall s, during [Start; Serve] false true s -> running s) by (intros s; by apply during_running; [apply served|]).
  unfold run_service. destruct (li_server l) as [[]|e] eqn:Hserver.
  2: { intros s H. cbn. exists [], false, false. split; [apply not_started|]. split; [done|]. intros _. by exists e. }
  apply (triple_bind _ _ _ (fun _ => during [] false false)); [by apply triple_ret|intros _].
  apply (triple_bind _ _ _ (fun _ => during [] false true)); [by intros [s v] (H1 & H2 & H3)|intros _].
  apply (triple_bind _ _ _ (fun _ => during [] false true)).
  { apply triple_lift; [done|]. intros s e H _. by apply Hnot. }
  intros _. apply (triple_bind _ _ _ (fun _ => during [Start] false true)); [eapply triple_weaken; [exact (during_act Start [] false true)|done|intros a s H; exact H|done]|intros _].
  apply (triple_bind _ _ _ (fun _ => during [Start; Serve] false true)); [eapply triple_weaken; [exact (during_act Serve [Start] false true)|done|intros a s H; exact H|done]|intros _].
  apply (triple_bind _ _ _ (fun _ => during [Start; Serve] false true)); [intros [s v] H; exact H|intros _].
  eapply triple_bind; [eapply triple_weaken; [exact (poll_ready [Start; Serve] false true 50 0)|done|intros r s H; exact H|intros e; apply Hserved]|]. intros ready.
  destruct ready; cbn [negb].
  - intros s [H Hr]. revert s H. apply (triple_bind _ _ _ (fun _ => running)); [apply offer_course; by apply Hr|intros _].
    apply running_stays. intros mid chooser server. unfold await_end. destruct (li_wait l) as [|how stopping]; [apply keeps_ret|].
    apply keeps_bind; [apply stays_ended|intros _]. destruct stopping; [apply keeps_ret|]. apply keeps_bind; [apply keeps_lift|intros _; apply keeps_ret].
  - apply triple_ret. intros s [H _]. by apply Hserved.
Qed.

(** What winding up does, in order; [cancelled] says whether the service was cancelled. *)
Definition when (b : bool) (a : act) : list act := if b then [a] else [].
Definition wound_up (mid : list act) (chooser server cancelled : bool) : list act :=
  Lock :: mid ++ Stop :: when (chooser && negb (li_chooser_done l)) CancelChooser ++ when cancelled CancelService ++ when server Close ++ [Unlock].

Lemma wind_up_spec code mid chooser server (s : state) : during mid chooser server s ->
  exists cancelled, (wind_up l code s).1 = Ok (default EXIT_OK (match (wind_up l code s).1 with Ok c => Some c | Err _ => None end)) /\
    lo_log (wind_up l code s).2.2 = wound_up mid chooser server cancelled.
Proof.
  destruct s as [m v]. intros (Hl & Hc & Hs). cbn in Hl, Hc, Hs. exists (lo_service v && match default (li_stop l) (Winds <$> lo_ended v) with Lingers => true | _ => false end).
  unfold wind_up, end_chooser, end_service, end_server, act_, inside, eput, eget, ebind, eret, wound_up.
  cbn. rewrite Hc Hl. destruct (chooser && negb (li_chooser_done l)) eqn:Hch; cbn;
    (destruct (lo_service v); cbn; [destruct (default (li_stop l) (Winds <$> lo_ended v)) as [[]|]; cbn|]); rewrite Hs; destruct server; cbn;
    (split; [reflexivity|]; rewrite -?app_assoc; cbn; rewrite -?app_assoc; reflexivity).
Qed.

Lemma coordinator_spec env casefold m :
  match run_login_coordinator net rec_limit uid cwd env casefold l paths (m, no_locals) with
  | (r, (_, v)) => lo_log v = [] \/
      exists mid chooser server cancelled, course mid chooser /\ (server = false -> exists e, li_server l = Err e) /\
        lo_log v = wound_up mid chooser server cancelled /\ (forall e, r = Err e -> is_exception e = false)
  end.
Proof.
  unfold run_login_coordinator. destruct (negb _); [by left|]. unfold ebind at 1, outside.
  destruct (on_world (_acquire_login_lock uid cwd paths) m) as [[[held|]|e] m1]; [|by left..].
  pose proof (run_course (m1, mkLocals false false None false [Lock]) ltac:(by split)) as H.
  unfold ebind at 1. change (act_ Lock (m1, no_locals)) with (Ok tt : result unit, (m1, mkLocals false false None false [Lock])). cbn [fst snd].
  unfold ebind, ecatch. destruct (run_service net rec_limit uid cwd l paths (m1, mkLocals false false None false [Lock])) as [[code|e] s2].
  - destruct H as (mid & chooser & server & Hcourse & Hd & Hs). destruct (wind_up_spec code mid chooser server s2 Hd) as (cancelled & Hok & Hlog).
    destruct (wind_up l code s2) as [[code'|e] [m3 v]]; [|done]. right. by exists mid, chooser, server, cancelled.
  - destruct H as (mid & chooser & server & Hcourse & Hd & Hs). destruct (is_exception e) eqn:He; unfold eret, eraise.
    + destruct (wind_up_spec EXIT_FAILURE mid chooser server s2 Hd) as (cancelled & Hok & Hlog).
      destruct (wind_up l EXIT_FAILURE s2) as [[code'|e'] [m3 v]]; [|done]. right. by exists mid, chooser, server, cancelled.
    + destruct (wind_up_spec EXIT_OK mid chooser server s2 Hd) as (cancelled & Hok & Hlog).
      destruct (wind_up l EXIT_OK s2) as [[code'|e'] [m3 v]]; [|done]. right. exists mid, chooser, server, cancelled.
      do 3 (split; [done|]). by intros e' [= <-].
Qed.
End Login.

