(* ===== verification/Commands.v ===== *)
(** * The dispatch of the commands ([cli.py])

    [run], from what [argparse] made of the command line: an exit code, or a command
    with its arguments.  Printing on standard error is not modelled. *)
From S2P Require Import Prelude PyText PyVal PyFloat Json Codec Model Shlex Classifier Protocol Effect Bridge Client Resume Recovery.
From S2P Require Import Processes Adapters Sessions Contract Files Integrations Lifecycle Backends Machine Console Installer Chooser Startup Cli Doctor Login.
#[local] Open Scope eff_scope.

(** A command and its arguments. *)
Inductive arguments :=
| DoctorArgs (cleanup_stale_socket : bool)
| ChooserArgs (enable : bool)
| SetupArgs (request : IntegrationSetupRequest)
| AutostartArgs (enable : bool)
| UninstallArgs (purge_state yes : bool)
| LoginCoordinator
| StatusArgs
| SnapshotArgs
| ListArgs
| RestoreArgs (args : restore_args)
| SessionsArgs (tool cwd : option pystr) (limit : Z)
| DiscardArgs (workspace : pystr) (yes : bool).

Section Commands.
Context `{Unicode} {W : Type} (net : Network W).
Context (repr_container : pyval -> pystr) (casefold : pystr -> pystr) (uc_digit : Z -> bool) (rec_limit depth : nat).
Context (which : pystr -> option pystr) (run_help : pystr -> result (pystr * pystr)) (elapsed : pystr -> option Z) (home : Home).
Context (is_dir : posix_path -> bool) (run_terminal : nat -> list pystr -> result Z) (mkstemp : pystr -> result pystr) (now_seconds : Z).
Context (uid : Z) (cwd : posix_path) (may : inode -> Z -> bool) (package_dir : posix_path) (env : pystr -> option pystr).
Context (user_home : posix_path) (boot_text : result pystr) (capabilities_of : pystr -> AdapterCapabilities) (l : life).

#[local] Notation command := (term (machine W)).

Definition _paths : result XDGPaths := resolve_paths env user_home.

(** A command of the installer works on the file system. *)
Definition with_world {A} (m : term world A) : command A := fun '(s, c) =>
  let '(r, (w, c')) := m (mc_world s, c) in (r, (mkMachine w (mc_net s) (mc_look s), c')).

(** [except (OSError, ValueError)] *)
Definition or_failure (m : command Z) : command Z :=
  ecatch m (fun e => if is_os_error e || is_value_error e then eret EXIT_FAILURE else eraise e).

Definition show_diagnostic (d : Diagnostic) : command unit :=
  println (u "[" ++ map ascii_upper (diagnosis_text (dg_status d)) ++ u "] " ++ dg_name d ++ u ": " ++ dg_message d) ;;
  match dg_remedy d with
  | Some ((_ :: _) as remedy) => println (u "  remedy: " ++ remedy)
  | _ => eret tt
  end.

Definition has_status (status : diagnosis) (diagnostics : list Diagnostic) : bool :=
  existsb (fun d => bool_decide (dg_status d = status)) diagnostics.
Definition doctor_code (diagnostics : list Diagnostic) : Z :=
  if has_status Fails_ diagnostics then EXIT_FAILURE
  else if has_status Warns diagnostics then EXIT_WARNING
  else EXIT_OK.

#[local] Notation detected := (detect_adapter which is_dir run_terminal mkstemp).

Definition doctor_report (paths : XDGPaths) : command Z :=
  do! found := elift detected in
  let name := match found with Some n => or_text n (u "gnome-terminal") | None => u "gnome-terminal" end in
  do! adapter := elift (create_adapter which is_dir run_terminal mkstemp name) in
  do! diagnostics := sys (run_doctor net rec_limit uid may package_dir env user_home boot_text paths detected (ad_detect adapter)
                            (capabilities_of name)) in
  eforeach show_diagnostic diagnostics ;;
  eret (doctor_code diagnostics).

Definition _doctor (cleanup : bool) : command Z :=
  do! paths := elift _paths in
  if cleanup then
    do! removed := ecatch (do! identity := sys (cleanup_stale_socket net uid paths) in eret (Some identity))
                     (fun e => match e with RuntimeError _ => eret None | _ => eraise e end) in
    match removed with
    | None => eret EXIT_FAILURE
    | Some (dev, ino) =>
        println (u "removed verified stale socket inode " ++ str_of_int dev ++ u ":" ++ str_of_int ino) ;; eret EXIT_OK
    end
  else doctor_report paths.

Definition _run_login_command (paths : XDGPaths) : command Z :=
  sys (fun s => let '(r, (s', _)) := run_login_coordinator net rec_limit uid cwd env casefold l paths (s, no_locals) in (r, s')).

(** A command for the service or the stores: without the paths of the user there is no
    client. *)
Definition client_command (m : command Z) : command Z :=
  match _paths with
  | Ok _ => m
  | Err e => if is_os_error e || is_value_error e then eret EXIT_FAILURE else eraise e
  end.

Definition dispatch (a : arguments) : command Z :=
  match a with
  | DoctorArgs cleanup => or_failure (_doctor cleanup)
  | ChooserArgs enable =>
      or_failure (do! paths := elift _paths in sys (on_world (_write_chooser_setting uid cwd paths enable)) ;; eret EXIT_OK)
  | SetupArgs request => with_world (run_integration_setup rec_limit may package_dir env user_home request uid)
  | AutostartArgs enable => with_world (run_autostart rec_limit may package_dir env user_home enable uid)
  | UninstallArgs purge yes => with_world (run_uninstall rec_limit depth env user_home purge yes uid)
  | LoginCoordinator => or_failure (do! paths := elift _paths in _run_login_command paths)
  | StatusArgs =>
      client_command (_status net repr_container casefold uc_digit rec_limit which run_help elapsed home)
  | SnapshotArgs => client_command (_snapshot net rec_limit)
  | ListArgs => client_command (_list net rec_limit)
  | RestoreArgs args =>
      client_command (_restore net repr_container casefold uc_digit rec_limit which run_help elapsed home is_dir run_terminal mkstemp now_seconds args)
  | SessionsArgs tool dir limit =>
      client_command (_sessions repr_container casefold uc_digit rec_limit which run_help elapsed home tool dir limit)
  | DiscardArgs workspace yes => client_command (_discard net rec_limit workspace yes)
  end.

Definition run (parsed : Z + arguments) : command Z :=
  match parsed with inl code => eret code | inr a => dispatch a end.
End Commands.
