(* ===== verification/LifecycleFindings.v ===== *)
(** * Corner cases of the lifecycle

    Whole runs of the installer in the sample home on which it does not do what its
    comments or its other parts suggest. *)
From S2P Require Import Prelude PyText PyVal PyFloat Json Codec Model Base64 Contract ContractProofs Effect Files FilesProofs FileViews.
From S2P Require Import LifecycleFs LifecycleFsProofs Integrations Probe Lifecycle LifecycleProofs Samples.
#[local] Open Scope eff_scope.

Definition tokens : list pystr := map (fun n => [Z.of_nat n]) (seq 65 60).
Definition asking (bash autostart chooser : DesiredState) : SetupRequest :=
  mkSetup FULL false bash autostart chooser (parse_path (u "/src")) None None None None.
Definition install (request : SetupRequest) : io LifecycleExit := _execute_setup_locked 50 10 None request home_paths 1000 [].
(** Some steps in the home, and what the last one answers. *)
Definition at_home {A} (m : io A) : result A := (m (home_world [] tokens)).1.

(** A [.bashrc] whose last line is a begin marker, without a newline: enabling is
    accepted and appends a block, after which every request is refused. *)
Definition block_open : pybytes := _V1_BEGIN.
Example unterminated_marker :
  match transform_bashrc block_open (bash_integration home_paths) ENABLE with
  | Ok twice => match transform_bashrc twice (bash_integration home_paths) ENABLE with Err (ValueError _) => true | _ => false end
  | Err _ => false
  end = true.
Proof. vm_compute. reflexivity. Qed.

(** A [.bashrc] that is a symbolic link is replaced by a file with the block alone: the
    shell no longer reads the user's own file. *)
Definition link_bashrc : io unit :=
  os_unlink (bashrc home_paths) ;;
  do! d := open_dir (home home_paths) in os_symlink_at (u "dotfiles/bashrc") d (u ".bashrc").
Example linked_bashrc_is_replaced :
  at_home (link_bashrc ;; do! code := install (asking ENABLE DISABLE DISABLE) in
           do! raw := read_bytes (bashrc home_paths) in
           do! block := elift (_v1_block (bash_integration home_paths)) in eret (code, str_eqb raw block)) = Ok (OK, true).
Proof. vm_compute. reflexivity. Qed.

(** An autostart entry that is enabled after the installation is not added to what the
    manifest owns, so it can never be disabled. *)
Example late_autostart_stays :
  at_home (do! a := install (asking ENABLE DISABLE DISABLE) in
           do! b := set_autostart 50 true home_paths 1000 in
           do! c := set_autostart 50 false home_paths 1000 in eret [a; b; c]) = Ok [OK; OK; REFUSED].
Proof. vm_compute. reflexivity. Qed.

(** An empty file in a before-image is written as an empty text, which the reader takes
    for no content: the manifest of this installation cannot be read. *)
Example empty_before_image_is_unreadable :
  match manifest_from_bytes 50 (sample_bytes []) sample_paths 1000, manifest_from_bytes 50 (sample_bytes (u "x")) sample_paths 1000 with
  | Err (ValueError _), Ok _ => true
  | _, _ => false
  end = true.
Proof. vm_compute. reflexivity. Qed.

(** An uninstallation that fails once the generation was deleted says that it was rolled
    back; the restored links lead nowhere. *)
Definition remove_all : UninstallRequest := mkUninstall true true true true false true.
Definition uninstall_after (k : nat) : io (LifecycleExit * bool) :=
  do! prepared := plan_uninstall 50 remove_all home_paths 1000 in
  (fun w => (Ok tt, set_script (repeat Serves k ++ [Fails ENOSPC]) w)) ;;
  do! code := execute_uninstall 50 10 prepared 1000 [] in
  do! there := exists_path (path_join (current home_paths) (u "venv")) in eret (code, there).
Example rolled_back_without_its_generation :
  at_home (install (asking ENABLE ENABLE ENABLE) ;; uninstall_after 190) = Ok (ROLLED_BACK, false).
Proof. vm_compute. reflexivity. Qed.

(** Two texts of the same bytes: the decoder ignores the bits that no byte uses. *)
Example base64_is_not_canonical : b64decode_strict (u "QQ==") = b64decode_strict (u "QR==").
Proof. vm_compute. reflexivity. Qed.
