(* ===== verification/CliFindings.v ===== *)
(** * Findings about the commands

    What the model of the commands shows, on concrete inputs. *)
From S2P Require Import Prelude PyText PyVal PyFloat Json Codec Model Shlex Classifier Protocol Effect Bridge Client Resume Recovery.
From S2P Require Import Processes Adapters Sessions Contract Files Server Backends Machine Console Cli Doctor.

(** The picker says that 0 skips; 00 is the number 0 as well, and picks the last session,
    as do the other negative indices. *)
Example double_zero_picks_the_last a b : picked [a; b] (Some (u "00")) = Some b /\ picked [a; b] (Some (u "-1")) = Some a /\ picked [a; b] (Some (u "0")) = None.
Proof. split; [|split]; reflexivity. Qed.

(** A name of a desktop that holds a colon is never among the names of a list that is
    split at colons. *)
Example ubuntu_gnome_never_matches desktop : u "ubuntu:GNOME" ∈ SUPPORTED_DESKTOPS /\ u "ubuntu:GNOME" ∉ split_on 58 desktop.
Proof.
  split; [apply (bool_decide_unpack _); vm_compute; exact I|]. intros H%split_on_free. apply H. apply (bool_decide_unpack _). vm_compute. exact I.
Qed.

(** An integer time stamp beyond the doubles is an [OverflowError], which the check of the
    state directory does not catch. *)
Example overflow_escapes_the_check : Doctor.is_type_or_value_error OverflowError = false.
Proof. reflexivity. Qed.
