(* ===== verification/Findings.v ===== *)
(** * Corner cases

    Concrete inputs on which the program, as modelled, does not do what its
    comments or its other parts suggest. *)
From S2P Require Import Prelude PyText PyVal PyFloat Json Codec Model Shlex Classifier Protocol.
From S2P Require Import Engine EngineProofs Resume Recovery RecoveryProofs Store StateCodec StoreProofs StoreFaults.
From S2P Require Import Sessions SessionsProofs Processes Adapters AdaptersProofs Checkpoint Server ServerProofs ServiceProofs.
#[local] Existing Instance ascii_unicode.
#[local] Open Scope serve_scope.

Definition classified (text : pystr) : CommandRecord :=
  match classify_command text 1 with
  | Ok c => cls_record c
  | Err _ => mkCommand 1 [] None UNSAFE false
  end.

(** A command that is replayable but that a listing must not show. *)
Example cat_is_not_displayed :
  disposition (classified (u "cat notes.txt")) = REPLAYABLE /\
  from_command_record (classified (u "cat notes.txt")) =
    Err (ValueError (u "classified display violates bounded display policy")).
Proof. vm_compute. by split. Qed.

(** A service whose only dead shell was running it cannot list what it could restore. *)
Definition cat_snapshot : Snapshot :=
  mkSnapshot 1 7 (NFloat (FFin false 3 0))
    [mkShell (u "s1") (mkIdentity (u "boot-1") 10 20) (u "kitty") (u "/home/u") 4
       (Some (classified (u "cat notes.txt"))) None].

Example cat_breaks_the_listing :
  (_restore_list sample_setup (mkRestoreList None None)
     (mkServer (mkEngine cat_snapshot ∅ 7) (sv_checkpoints sample_server) empty_store [])).1 =
  Ok (_error PERSISTENCE_FAILED).
Proof. vm_compute. reflexivity. Qed.

(** A session id may end in a newline. *)
Example trailing_newline_token : _is_safe_token (u "abc" ++ [10]) = true.
Proof. vm_compute. reflexivity. Qed.

(** A snapshot is asked for right after a start that loaded one. *)
Example snapshot_after_restart_fails :
  (snapshot_begin (mkServer (mkEngine three_shells ∅ 7)
     (mkManager 2 10 [1] 0 0 false None None None None 0 0 false false None) empty_store [])).1 =
  Ok (inl (_error PERSISTENCE_FAILED)).
Proof. vm_compute. reflexivity. Qed.

(** A listing of a workspace with nothing left to restore is not encoded. *)
Example empty_listing_is_not_encoded :
  is_ok (encode_response 16 (RestoreListResponse (Some sample_workspace) [] [])) = false.
Proof. vm_compute. reflexivity. Qed.

(** A terminal that opens nothing. *)
Definition failing_adapter : TerminalAdapter := {|
  ad_name := u "tabs";
  ad_detect := Ok true;
  ad_plan := ad_plan tab_adapter;
  ad_execute l _ := Ok (map (fun i => mkOutcome i FAILURE (u "failed")) (l ≫= item_ids));
|}.

Definition failing_setup : Setup :=
  mkSetup 1000 (Some failing_adapter) (u "boot-2") home_u dead_probe sample_world 16.

Definition try_first : list (World * service_op) :=
  [ask (RestoreExecuteReq (mkExecute sample_workspace [u "s1"] [])); (sample_world, OpLaunch 0)].

(** Asking again for items that failed launches the terminals a second time, and
    what comes of it is not recorded: the attempt has the same name. *)
Example repeated_attempt_is_not_recorded :
  let once := service_run failing_setup sample_service
    ([ask (RestoreListReq (mkRestoreList None None))] ++ try_first ++ [(sample_world, OpCommit 0 sample_now)]) in
  let again := service_run failing_setup once try_first in
  match sc_flights again with
  | [mkFlight p (Some (attempt, outs))] =>
      (attempt_commit failing_setup p attempt outs sample_now (sc_server again)).1 = Ok (_error PERSISTENCE_FAILED)
  | _ => False
  end.
Proof. vm_compute. reflexivity. Qed.

(** After a discard the next generation of the same snapshot offers the same shells again. *)
Example discarded_shells_return :
  let run := service_run sample_setup sample_service
    [ask (RestoreListReq (mkRestoreList None None)); ask (DiscardReq (mkDiscard sample_workspace true))] in
  let later := mkService (mkServer (mkEngine (mkSnapshot 1 8 (captured_at three_shells) (shells three_shells)) ∅ 8)
    (sv_checkpoints (sc_server run)) (sv_store (sc_server run)) []) [] in
  let listed := service_run sample_setup later [ask (RestoreListReq (mkRestoreList None None))] in
  record_of_server 16 (sc_server run) = None /\
  match record_of_server 16 (sc_server listed) with
  | Some x => map rec_item_id (items x) = [u "s1"; u "s2"] /\ workspace_id x <> sample_workspace
  | None => False
  end.
Proof. vm_compute. repeat split. discriminate. Qed.

(** A directory that vanished between the plan of the service and that of the
    terminal: the item is in no action, so the service finds the outcomes
    incomplete after the terminals were started. *)
Example vanished_item_is_dropped :
  let items := launches ++ [mkLaunch (u "s3") (parse_path (u "/home/u/gone")) None] in
  let outcomes := let? actions := gnome_plan any_terminal home_only items in execute (fun _ _ => Ok 0) actions [] in
  match outcomes with
  | Ok outs => set_eqb (map out_item_id outs) (map li_item_id items) = false
  | Err _ => False
  end.
Proof. vm_compute. reflexivity. Qed.

(** A launch that timed out for an item with a long id: no outcome can hold the report. *)
Example long_item_report_is_lost :
  is_ok (execute (fun _ _ => Err SubprocessError) [mkAction [repeat 97 125] [u "kitty"] PARTIAL []] []) = false.
Proof. vm_compute. reflexivity. Qed.

(** With an empty [XDG_STATE_HOME] the state directory is relative to wherever the service starts. *)
Example empty_state_home_is_relative :
  match resolve_paths (fun k => if str_eqb k (u "XDG_RUNTIME_DIR") then Some (u "/run/user/1000")
                                else if str_eqb k (u "XDG_STATE_HOME") then Some [] else None) home_u with
  | Ok x => path_str (state_dir x) = u "termrecall"
  | Err _ => False
  end.
Proof. vm_compute. reflexivity. Qed.

(** The id the hermes reader gives a session. *)
Example hermes_id_is_the_directory :
  match _read_hermes_sessions no_repr
    (mkHome (u "/home/u") [] None (Some (Some [mkRow (VStr (u "id-1")) (VStr (u "/work")) VNone VNone])) 0) with
  | Ok [r] => session_id r = u "/work"
  | _ => False
  end.
Proof. vm_compute. reflexivity. Qed.

(** A session that is written after the first search, below a directory of the home
    directory, is not found by the next. *)
Example new_session_is_not_seen :
  let before := mkHome (u "/home/u") [(u ".claude", NDir [])] None None 5 in
  match find_sessions_for_cwd no_repr id is_digit 16 [] (u "/work/x") None before with
  | Ok (found, cache) =>
      found = [] /\ find_sessions_for_cwd no_repr id is_digit 16 cache (u "/work/x") None claude_home = Ok ([], cache)
  | Err _ => False
  end.
Proof. vm_compute. by split. Qed.

(** A file that is not UTF-8, of a tool nobody asked for. *)
Example one_bad_file_hides_all_sessions :
  find_sessions_for_cwd no_repr id is_digit 16 [] (u "/work/x") None
    (mkHome (u "/home/u")
       (h_entries claude_home ++ [(u ".other", NDir [(u "01234567-89ab-cdef-0123-456789abcdef.jsonl", NFile (Ok [255; 10]))])])
       None None 5) = Err UnicodeError.
Proof. vm_compute. reflexivity. Qed.
